(* ===== verification/_CoqProject ===== *)
-Q . S2P
Prelude.v
Platform.v
Ids.v
Proto.v
Db.v
Sqlite.v
SqliteMessages.v
SqliteClients.v
Ledger.v
SqliteBroadcasts.v
SqliteFiles.v
MySql.v
MySqlMessages.v
MySqlClients.v
MySqlBroadcasts.v
Spanner.v
SpannerClients.v
SpannerMessages.v
SpannerHandout.v
SpannerBroadcasts.v
SpannerStore.v
Monitored.v
MessageLoop.v
SqliteStore.v
Cache.v
Notifications.v
Broadcasts.v
BroadcastCounters.v
Server.v
SystemService.v
Services.v
Comms.v
ClientFlow.v
ClientRetry.v
ClientPipeline.v
ClientConfig.v
ClientServices.v
FlowControl.v
ClientHosts.v
StreamClient.v
StreamServer.v
Streams.v
Polling.v
Framing.v
Execution.v
DaemonService.v
Relentless.v
Admin.v
Frontend.v
HttpServer.v
