(* ===== verification/Prelude.v ===== *)
(** * Fleetspeak: a verification development (root file)

    Fleetspeak carries messages between services on a server and services on
    many clients.  This library models, from the Go sources under
    src/fleetspeak/src, the server's core over its three datastores
    (sqlite, MySQL and Cloud Spanner), its front ends and the core of the client,
    and proves what makes them correct.  Paths below are relative to that
    directory.

    ** How a message travels, and where its parts are modelled

    A message for a client is put in the datastore by an administrator or a
    server service (SqliteMessages.StoreMessages), or made from a broadcast when
    the client contacts the server (Broadcasts).  A contact reaches
    Comms.InitializeConnection through a communicator: the client is identified
    by its key, let through by the authorizer, recorded, what it sent is handed
    to the service manager (Services) and what is due to it is found and linked
    to the contact.  On the client ClientServices routes what arrives to the
    inbox of a service, answers go through RetryLoop and SortLoop
    (ClientPipeline) to the communicator, and an acknowledgement comes back to
    the server's system service (SystemService), which marks the message
    processed.  How much may be sent is governed by tokens (FlowControl).

    ** Files

    - Prelude: integers of a width, bytes, errors, outcomes, the state monad
      and its reasoning: [safe], [preserves], [keeps], [returns].
    - Platform: clock, randomness, map order, faults; statements of database/sql.
    - Ids: common/ids.go, server/ids/ids.go.  Proto: the messages as records.
      Db: server/db/store.go (types, allocation arithmetic), server/db/time.go,
      server/internal/ftime/retry.go.
    - Sqlite (tables, transactions, server/sqlite/sqlite.go), SqliteMessages
      (messagestore.go), SqliteClients (clientstore.go), SqliteBroadcasts
      (broadcaststore.go), SqliteFiles (filestore.go), SqliteStore (all
      operations together): one Rocq definition for each Go function, under the
      same name.
    - Ledger: the arithmetic of broadcasts and allocations, of every datastore.
    - MySql (server/mysql/mysql.go: tables, columns, transactions that are run
      again), MySqlMessages (messagestore.go), MySqlClients (clientstore.go, and
      the pool of connections), MySqlBroadcasts (broadcaststore.go,
      filestore.go).  MessageLoop: the goroutine of both datastores that hands
      the server its messages.
    - Spanner (server/spanner/spanner.go: rows, mutations, transactions that are
      run again and commit what they have buffered), SpannerClients
      (clientstore.go), SpannerMessages (messagestore.go, with its invariant and
      the merge of results), SpannerHandout (what is read, claimed and announced;
      the processor), SpannerBroadcasts (broadcaststore.go, filestore.go),
      SpannerStore (all operations together).
    - Monitored: db.Store as a class, with the three datastores as instances, and
      the wrapper of server/stats.go that reports every call.
    - Cache (server/internal/cache), Notifications (server/internal/
      notifications), Broadcasts (server/internal/broadcasts, whole calls) and
      BroadcastCounters (the same, at the grain of atomic instructions).
    - Server: the state one server process shares ([Srv]) and the interface
      [Store] it is written against, with sqlite as an instance.
      SystemService and Services: server/internal/services/system_service.go and
      manager.go.  Comms: server/comms.go, server/comms/comms.go,
      server/internal/signatures/validation.go.
    - ClientFlow: client/flow/filter.go, client/internal/message/sort.go.
      ClientRetry: client/internal/message/retry.go.  ClientPipeline: the
      goroutines client/client.go starts around its channels, and Stop.
    - ClientConfig: client/internal/config/manager.go and the state file of
      client/config/filesystem_persistence_handler.go.
    - ClientServices: client/services.go, ProcessMessage of client/client.go,
      contact data of client/comms.go, loops of client/system_service.go.
    - FlowControl: message tokens across both ends.
    - ClientHosts: the choice of a server address.  StreamClient and
      StreamServer: the two ends of a streaming connection
      (client/https/streaming.go, server/https/streaming_message_server.go);
      Streams puts them together.  Polling: client/https/polling.go.
    - Framing: bytes of contacts and of client/channel/channel.go.
    - Execution (client/daemonservice/execution/execution.go: output, input and
      heartbeats of a process), DaemonService (daemonservice.go, and all
      goroutines of an execution and its channel) and Relentless
      (client/channel/relentless.go, both ends).
    - Admin: server/admin/admin.go.  Frontend: server/https/
      client_certificate.go and the URLs of files, from client/https/https.go to
      server/https/file_server.go.  HttpServer: the handlers of
      server/https/https.go, message_server.go, file_server.go, compression.go.

    ** What is shown

    - The datastore: in every reachable state, faults included, a message is
      pending exactly while it is unprocessed and the broadcast ledger balances
      (for broadcasts with a limit), and references are valid if the
      connections of the pool check foreign keys; an operation that fails
      changes nothing; StoreMessages implements the merge of results its contract describes;
      due messages are handed out once each, within every limit.  On MySQL a
      transaction is done once or not at all, however often it is run, messages
      are stored under the same contract, and what a claim hands out and puts
      off is stated with what repeated runs leave behind; its rows about clients
      refer to clients, its broadcast ledger balances, and what its operations
      on clients, allocations and files return is what the tables hold.  On
      Spanner an operation does the writes of one run of its transaction or
      nothing, whatever it returns; nothing unprocessed for a client loses its
      pending row; a batch is merged message by message, by either path; what a
      client is given is due, within every limit, and put off, or returned with
      the error of putting it off; its ledger balances under conditions the
      code does not check; a notification is acknowledged only when its message
      has a result.  A program on the monitored datastore does what it could do
      on the datastore itself, and each call is reported.  The message loop hands over each batch once and ends when it is stopped.
    - Front ends: an administrator's request is refused before or done whole,
      and gives no payloads away that are restricted; a message is inserted
      once, checked and announced.  A poll is answered for the client of its
      certificate or leaves the server alone, the certificate is the one the
      frontend mode names, and files go to whom the authorizer lets have them,
      under the names they have.
    - A contact: only the holder of a key speaks for its client id; what it
      sends is delivered under that id, once, in order, in chunks; charging
      tokens never ends the process; a client can acknowledge only its own
      messages and label only itself.
    - Services: a message ends with the result its service's answer calls for;
      what is to be tried again keeps its payload and no result.
    - Broadcasts: no client gets one twice, no allocation is exceeded or
      miscounted in any interleaving, and retiring an allocation ends.
    - Cache and notifications: answers are those of the store up to the allowed
      age; no send on a closed channel and no notification lost.
    - The client: queues lose, repeat and reorder nothing within a level and
      stay within bounds; no callback blocks; Stop ends; the state file is
      never torn and identity survives restarts; a service speaks only for
      itself; offered tokens are the free places of an inbox of the usual size,
      exactly, through a whole stream.
    - Transport: both communicators settle each message they take once,
      whatever the network does; no channel of a stream is misused, its client
      acknowledges no more contacts than were processed, and its staged
      shutdown, as long as nothing fails, ends with everything acknowledged; a
      Flush that reports success after a poll has seen everything settled, and
      Stop ends the polling, unless the client gets a new id at that moment;
      what is written on a stream or a channel is what is read.
    - Daemons: what a process writes is forwarded whole and in pieces of bounded
      size; no message is lost between executions; Stop returns, unless the
      client takes no more messages or another process keeps the pipes open.
      A relentless channel keeps a message until a user has
      acknowledged it, over any number of channels that break, and one that
      lasts drains.

    The files also prove where the code does something else than it means to,
    as lemmas and examples beside the properties (SqliteBroadcasts.
    set_broadcast_limit_fails, allocations_can_oversend; SqliteMessages.
    get_messages_hides_failure, limit_zero_hands_out_one; Services.
    process_batch_without_batches; Comms.no_certificate_crashes,
    refused_contact_registers_client; ClientPipeline.
    client_stop_hangs_when_filtered; ClientConfig.restart_repeats_serials;
    ClientServices.system_is_offered_more_than_it_takes; FlowControl.
    restart_gives_unlimited_tokens, uncounted_message_is_offered_twice;
    Streams.stream_acknowledges_refused, batches_are_not_bounded,
    stream_outlives_its_writer; StreamClient.flush_returns_early; Polling.
    nothing_sent_after_stop, flush_is_orphaned, stop_is_lost,
    flush_gives_up_with_nil; SqliteStore.label_of_nobody; Framing.
    empty_record_swallows_stream; Execution.std_forward_panics; DaemonService.
    lazy_start_loses, daemon_wedges, send_on_closed_channel, inactive_at_birth,
    stop_waits_for_room, stop_waits_for_children;
    Relentless.ack_without_source, same_id_forgets; Admin.
    create_broadcast_crashes, insert_source_crashes; Frontend.
    Files.dots_leave_files, xfcc_skips_elements; HttpServer.deflated_poll_cut,
    chunked_poll_panics; MySqlMessages.deadlock_duplicates,
    deadlock_processes_twice, claimed_twice, long_name_cut,
    wrong_partition_stays_pending; MySqlClients.labels_lost,
    stream_cut_silently, early_clock_refused, blacklisted_with_error,
    Pool.label_calls_block_each_other; MySqlBroadcasts.
    my_set_broadcast_limit_fails, stale_allocation; SpannerHandout.
    failure_over_success, failure_last_in_batch, blind_store_ignores_contact,
    both_connections_claim, empty_value_loses_type, delete_reports_success,
    announced_not_stored, stopped_topic_silent, Processor.stop_leaves_calls;
    SpannerBroadcasts.created_again, unlimited_disabled, saved_twice;
    MessageLoop.stop_waits_for_database).

    ** Conventions

    A call is a function in the monad [M] over a [World], a state and a counter
    of the interactions with the environment; it returns, fails with a
    [goerror], or crashes (panic, log.Fatal).  Each interaction with the clock,
    the random source, a map's order or an engine consults its own value of a
    parameter, so nothing is assumed about them but what [PlatformOK] and the
    other [...OK] classes state.  Integers are [Z] with their wrap-around
    ([wrapU64], [wrapI64], [wrapU32]); maps are gmap.  Concurrency is of two
    kinds.  Where the code holds a lock or owns its data, a whole call is a
    step; a loop of goroutines over a list is its turns in any order
    (Services.parallelFor).  Where goroutines interact more finely, the model
    is a step relation at that grain: BroadcastCounters, ClientFlow,
    ClientRetry, ClientPipeline, FlowControl, StreamClient, StreamServer,
    Streams, Polling, DaemonService, Relentless, MessageLoop.  A call that would
    wait on a full channel is not enabled, or ends with its context.  The
    statements of sqlite check foreign keys on a [Connection] on which they are
    turned on; everything but SqliteStore.reachable assumes the one that initDB
    has prepared.

    Fuel: Comms.handleChunks makes at most as many turns as there are messages,
    and every turn but the last drops ten; Broadcasts.refreshLoop and the loops
    of tickers are given the number of ticks; Channel.readLoop of Framing takes
    bytes at every turn, so their number suffices (readLoop_total);
    Execution.writeToOut takes at most two turns more than there are bytes,
    and busySleep one for each tick; Frontend.Xfcc.extractLoop takes a
    byte at every turn.  MySql.tryTx has the 50 runs of the code; Spanner.runTxn
    runs until the context of the call is done, after [spRuns] runs, a parameter.
    All other
    recursion is structural.  On sqlite and MySQL a call that fails returns
    nothing besides its error; the ClientMessagesForProcessing of Spanner does,
    and its result has both.

    ** Not modelled

    Left for extension: of the communicators, their configuration, the client's
    HTTP exchange and the set-up of a stream.  Errors in the middle of the rows
    of a MySQL result in MySqlMessages, and two transactions at once but for
    Examples claimed_twice, stale_allocation and both_connections_claim; the
    deletion of old rows that Spanner is set up to do by itself; Manager.Close
    among the steps of BroadcastCounters; a user who does not read the In of a
    relentless channel; that os.Rename is one step is assumed, as it is on Unix.
    Left out:
    HTTP, TLS, gRPC and prometheus as libraries; operating system
    processes and sockets (socketservice, stdinservice, monitoring and what
    daemonservice asks of the system); command line tools; generated protocol
    buffers, whose messages are records here and whose encodings are parameters
    with their round trip as the hypothesis; cryptography and x509, which are
    parameters; tests. *)
From Stdlib Require Export ZArith Lia Ascii String.
From stdpp Require Export base gmap sets list strings option sorting.

#[export] Set Default Goal Selector "!".

Declare Scope fleet_scope.
Delimit Scope fleet_scope with fleet.
Open Scope fleet_scope.

(** ** Machine integers

    Go's fixed-width integers are [Z] with the wrap-around written out. *)
Definition u64_max : Z := 2 ^ 64 - 1.
Definition i64_max : Z := 2 ^ 63 - 1.
Definition wrapU64 (z : Z) : Z := z mod 2 ^ 64.
Definition wrapU32 (z : Z) : Z := z mod 2 ^ 32.
Definition wrapI64 (z : Z) : Z := (z + 2 ^ 63) mod 2 ^ 64 - 2 ^ 63.
Definition wrapI32 (z : Z) : Z := (z + 2 ^ 31) mod 2 ^ 32 - 2 ^ 31.
Definition isU64 (z : Z) : Prop := (0 <= z < 2 ^ 64)%Z.

Lemma wrapU64_small z : isU64 z -> wrapU64 z = z.
Proof. intros H. apply Z.mod_small. exact H. Qed.

Lemma wrapU64_range z : isU64 (wrapU64 z).
Proof. apply Z.mod_pos_bound. lia. Qed.

Lemma wrapI64_small z : (- 2 ^ 63 <= z < 2 ^ 63)%Z -> wrapI64 z = z.
Proof. intros H. unfold wrapI64. rewrite Z.mod_small; lia. Qed.

Lemma wrapI64_range z : (- 2 ^ 63 <= wrapI64 z < 2 ^ 63)%Z.
Proof.
  unfold wrapI64. pose proof (Z.mod_pos_bound (z + 2 ^ 63) (2 ^ 64) ltac:(lia)). lia.
Qed.

Lemma wrapI32_small z : (- 2 ^ 31 <= z < 2 ^ 31)%Z -> wrapI32 z = z.
Proof. intros H. unfold wrapI32. rewrite Z.mod_small; lia. Qed.

(** ** Byte slices

    The contents of a Go [string] and of a [[]byte] are both a [string] (a
    sequence of 8-bit characters); a slice may also be nil, which some checks
    of the code distinguish from the empty slice. *)
Abbreviation gobytes := (option string).

Definition contents (b : gobytes) : string := default EmptyString b.
Definition blen (b : gobytes) : nat := String.length (contents b).

(** ** Errors and outcomes *)
Inductive goerror : Type :=
| ErrNoRows                          (* sql.ErrNoRows *)
| ErrBroadcastDisabled               (* db.ErrBroadcastDisabled *)
| ErrNotSupported                    (* db.ErrNotSupported *)
| ErrNotAuthorized                   (* comms.ErrNotAuthorized *)
| ErrConstraint (what : string)      (* an SQL constraint violation *)
| ErrSqlSyntax                       (* the statement does not parse *)
| ErrSqlArg                          (* database/sql refuses an argument *)
| ErrIO (code : Z)                   (* any other failure of the engine *)
| ErrText (msg : string)             (* errors.New, fmt.Errorf without %w *)
| ErrWrap (msg : string) (e : goerror)  (* fmt.Errorf with %w *)
| ErrTemporary (e : goerror).        (* service.TemporaryError *)

#[export] Instance goerror_eq_dec : EqDecision goerror.
Proof. solve_decision. Defined.

(** [errors.Is]: follows the chain of wrapped errors. *)
Fixpoint errorsIs (e target : goerror) : bool :=
  bool_decide (e = target) ||
  match e with
  | ErrWrap _ e' => errorsIs e' target
  | _ => false
  end.

(** [Crash] is a nil dereference, a [log.Fatal] or a [panic]: the process is
    gone. *)
Inductive outcome (A : Type) : Type :=
| Ok (a : A)
| Err (e : goerror)
| Crash (why : string).
Arguments Ok {_} _.
Arguments Err {_} _.
Arguments Crash {_} _.

#[export] Instance outcome_eq_dec `{EqDecision A} : EqDecision (outcome A).
Proof. solve_decision. Defined.

Definition isOk {A} (o : outcome A) : bool :=
  match o with Ok _ => true | _ => false end.

#[export] Instance outcome_ret : MRet outcome := fun A a => Ok a.
#[export] Instance outcome_bind : MBind outcome := fun A B f o =>
  match o with
  | Ok a => f a
  | Err e => Err e
  | Crash w => Crash w
  end.
#[export] Instance outcome_fmap : FMap outcome := fun A B f o =>
  match o with
  | Ok a => Ok (f a)
  | Err e => Err e
  | Crash w => Crash w
  end.

Lemma outcome_bind_Ok {A B} (m : outcome A) (f : A -> outcome B) b :
  (m ≫= f) = Ok b <-> exists a, m = Ok a /\ f a = Ok b.
Proof. destruct m; simpl; naive_solver. Qed.

Definition ofOption {A} (e : goerror) (o : option A) : outcome A :=
  match o with Some a => Ok a | None => Err e end.

(** A loop whose body only computes. *)
Fixpoint foldO {A B} (f : B -> A -> outcome B) (l : list A) (acc : B) : outcome B :=
  match l with
  | [] => Ok acc
  | x :: l' => b ← f acc x; foldO f l' b
  end.

Lemma foldO_ext {A B} (f g : B -> A -> outcome B) (l : list A) acc :
  (forall b x, x ∈ l -> f b x = g b x) -> foldO f l acc = foldO g l acc.
Proof.
  revert acc. induction l as [|x l IH]; intros acc H; simpl; [done|].
  rewrite (H acc x) by set_solver. destruct (g acc x); simpl; [|done|done].
  apply IH. set_solver.
Qed.

Lemma foldO_fmap {A B C} (f : C -> B -> outcome C) (h : A -> B) (l : list A) acc :
  foldO f (h <$> l) acc = foldO (fun c a => f c (h a)) l acc.
Proof.
  revert acc. induction l as [|x l IH]; intros acc; simpl; [done|].
  destruct (f acc (h x)); simpl; [apply IH|done|done].
Qed.

(** ** Lists *)
Lemma filter_none {A} (Q : A -> Prop) `{forall x, Decision (Q x)} (l : list A) :
  (forall x, x ∈ l -> ~ Q x) -> filter Q l = [].
Proof.
  induction l as [|x l IH]; intros Hl; [done|].
  rewrite filter_cons, decide_False by (apply Hl; by left). apply IH. set_solver.
Qed.

Lemma exists_snoc {A} (Q : A -> Prop) (l : list A) x :
  (exists y, y ∈ l ++ [x] /\ Q y) <-> (exists y, y ∈ l /\ Q y) \/ Q x.
Proof.
  split.
  - intros (y & [Hy|Hy%list_elem_of_singleton]%elem_of_app & HQ); [left; by exists y|subst; by right].
  - intros [(y & Hy & HQ)|HQ]; [exists y|exists x]; (split; [|done]); apply elem_of_app;
      [by left|right; by left].
Qed.

Lemma exists_nil {A} (Q : A -> Prop) : (exists y, y ∈ [] /\ Q y) <-> False.
Proof. split; [by intros (y & ?%not_elem_of_nil & _)|done]. Qed.

Lemma Forall2_elem_l {A B} (R : A -> B -> Prop) (Q : A -> Prop) l k :
  (forall x, x ∈ l -> Q x) -> Forall2 R l k -> Forall2 (fun x y => Q x /\ R x y) l k.
Proof.
  intros HQ H. induction H as [|x y l k Hxy H IH]; constructor.
  - split; [apply HQ; by left|done].
  - apply IH. intros z Hz. apply HQ. by right.
Qed.

Lemma omap_ext_elem {A B} (f g : A -> option B) (l : list A) :
  (forall x, x ∈ l -> f x = g x) -> omap f l = omap g l.
Proof.
  induction l as [|x l IH]; intros H; [done|]. simpl.
  rewrite (H x) by (by left). destruct (g x); [f_equal|]; apply IH; intros y Hy; apply H; by right.
Qed.

Lemma NoDup_omap {A B} (f : A -> option B) (l : list A) :
  NoDup l -> (forall x y z, x ∈ l -> y ∈ l -> f x = Some z -> f y = Some z -> x = y) ->
  NoDup (omap f l).
Proof.
  induction l as [|x l IH]; intros Hnd Hf; [constructor|].
  apply NoDup_cons in Hnd as [Hx Hnd]. simpl.
  assert (Hrest : NoDup (omap f l)).
  { apply IH; [done|]. intros y z v Hy Hz. apply Hf; by right. }
  destruct (f x) as [v|] eqn:Hv; [|done]. apply NoDup_cons. split; [|done].
  intros (y & Hy & Hfy)%list_elem_of_omap. apply Hx.
  rewrite (Hf x y v); [done|by left|by right|done|done].
Qed.

(** Taking one element out of a list. *)
Section TakeOut.
Context {A : Type} `{EqDecision A}.

Fixpoint takeOut (x : A) (l : list A) : option (list A) :=
  match l with
  | [] => None
  | y :: l' => if decide (x = y) then Some l'
               else match takeOut x l' with Some k => Some (y :: k) | None => None end
  end.

Lemma takeOut_perm x l k : takeOut x l = Some k -> l ≡ₚ x :: k.
Proof.
  revert k. induction l as [|y l IH]; intros k; simpl; [done|]. case_decide as Hx.
  - subst. by intros [= ->].
  - destruct (takeOut x l) as [k'|]; [|done]. intros [= <-]. rewrite (IH k' eq_refl). apply perm_swap.
Qed.

Lemma takeOut_elem x l : x ∈ l -> exists k, takeOut x l = Some k.
Proof.
  induction l as [|y l IH]; simpl; [by intros ?%elem_of_nil|]. case_decide as Hx; [by eexists|].
  intros [->|Hin]%elem_of_cons; [done|]. destruct (IH Hin) as [k ->]. by eexists.
Qed.
End TakeOut.

Definition sumZ (l : list Z) : Z := foldr Z.add 0%Z l.

#[export] Instance sumZ_perm : Proper (Permutation ==> eq) sumZ.
Proof. intros l l' H. induction H; simpl; lia. Qed.

Lemma sumZ_app l l' : sumZ (l ++ l') = (sumZ l + sumZ l')%Z.
Proof. induction l; simpl; lia. Qed.

Lemma sumZ_nonneg l : Forall (fun z => 0 <= z)%Z l -> (0 <= sumZ l)%Z.
Proof. induction 1; simpl; lia. Qed.

Lemma sumZ_elem z l : Forall (fun z => 0 <= z)%Z l -> z ∈ l -> (z <= sumZ l)%Z.
Proof.
  induction 1 as [|x l Hx Hl IH]; [by intros ?%not_elem_of_nil|].
  pose proof (sumZ_nonneg l Hl). intros [->|H']%elem_of_cons; simpl; [lia|].
  specialize (IH H'). lia.
Qed.

(** Adding up [uint64]s, wrapping at each step. *)
Lemma foldl_wrapU64 {A} (f g : A -> Z) (l : list A) x y :
  isU64 x -> isU64 y ->
  foldl (fun (t : Z * Z) a => (wrapU64 (t.1 + f a), wrapU64 (t.2 + g a))) (x, y) l =
    (wrapU64 (x + sumZ (f <$> l)), wrapU64 (y + sumZ (g <$> l))).
Proof.
  revert x y. induction l as [|a l IH]; intros x y Hx Hy; simpl.
  { by rewrite !Z.add_0_r, !wrapU64_small. }
  rewrite IH by apply wrapU64_range. unfold wrapU64.
  rewrite !Z.add_mod_idemp_l by done. by rewrite !Z.add_assoc.
Qed.

(** ** Updating a field of a record

    [r <| f := v |>], for records that declare how they are put together from
    their fields ([Eta]); the setter of a field is found from that. *)
Class Eta (R : Type) := eta : R -> R.
Class Setter {R T : Type} (proj : R -> T) := set : (T -> T) -> R -> R.
Arguments set {R T} proj {_} f r /.

Ltac head_of e := match e with ?f _ => head_of f | _ => e end.
Ltac build_setter :=
  match goal with
  | |- @Setter ?R ?T ?proj =>
      let e := constr:(_ : Eta R) in
      let e := eval unfold eta in e in
      let h := head_of e in
      let e := eval unfold h in e in
      match eval pattern proj in e with
      | ?body _ => exact (fun (f : T -> T) => body (fun r => f (proj r)))
      end
  end.
#[export] Hint Extern 1 (Setter _) => build_setter : typeclass_instances.

Notation "r <| p := v |>" := (set p (fun _ => v) r)
  (at level 1, p at level 99, left associativity, format "r <| p  :=  v |>") : fleet_scope.

(** ** The error-and-state monad

    A Go function that changes state [S] and may fail: the state survives an
    error, as it does in Go. *)
Definition M (S A : Type) : Type := S -> outcome A * S.

#[export] Instance M_ret {S} : MRet (M S) := fun A a s => (Ok a, s).
#[export] Instance M_bind {S} : MBind (M S) := fun A B f m s =>
  match m s with
  | (Ok a, s') => f a s'
  | (Err e, s') => (Err e, s')
  | (Crash w, s') => (Crash w, s')
  end.

Section Monad.
Context {S : Type}.

Definition fail {A} (e : goerror) : M S A := fun s => (Err e, s).
Definition crash {A} (why : string) : M S A := fun s => (Crash why, s).
Definition lift {A} (o : outcome A) : M S A := fun s => (o, s).
Definition get : M S S := fun s => (Ok s, s).
Definition gets {A} (f : S -> A) : M S A := fun s => (Ok (f s), s).
Definition modify (f : S -> S) : M S unit := fun s => (Ok tt, f s).

(** [x, err := m]: the caller looks at the error itself. *)
Definition try {A} (m : M S A) : M S (A + goerror) := fun s =>
  match m s with
  | (Ok a, s') => (Ok (inl a), s')
  | (Err e, s') => (Ok (inr e), s')
  | (Crash w, s') => (Crash w, s')
  end.

(** [for _, x := range l]: the first error returned ends the loop. *)
Fixpoint forM_ {A} (l : list A) (f : A -> M S unit) : M S unit :=
  match l with
  | [] => mret tt
  | x :: l' => f x ≫= fun _ => forM_ l' f
  end.

Fixpoint foldM {A B} (f : B -> A -> M S B) (l : list A) (acc : B) : M S B :=
  match l with
  | [] => mret acc
  | x :: l' => f acc x ≫= foldM f l'
  end.

Fixpoint mapMs {A B} (f : A -> M S B) (l : list A) : M S (list B) :=
  match l with
  | [] => mret []
  | x :: l' => f x ≫= fun y => mapMs f l' ≫= fun ys => mret (y :: ys)
  end.
End Monad.

(** Running a component's operation inside a larger state. *)
Definition zoom {S T A} (rd : T -> S) (wr : S -> T -> T) (m : M S A) : M T A :=
  fun t => let '(r, s) := m (rd t) in (r, wr s t).

Lemma forM_map {S A B} (g : A -> B) (f : B -> M S unit) (l : list A) (s : S) :
  forM_ l (fun x => f (g x)) s = forM_ (g <$> l) f s.
Proof.
  revert s. induction l as [|x l IH]; intros s; simpl; [done|].
  unfold mbind, M_bind. destruct (f (g x) s) as [[]]; [apply IH|done|done].
Qed.

(** *** Inversion of runs that return a value *)
Section MonadLaws.
Context {S : Type}.

Lemma bind_Ok {A B} (m : M S A) (f : A -> M S B) s b s'' :
  (m ≫= f) s = (Ok b, s'') <->
  exists a s', m s = (Ok a, s') /\ f a s' = (Ok b, s'').
Proof.
  unfold mbind, M_bind. destruct (m s) as [[a|e|w] s'] eqn:E; naive_solver.
Qed.

Lemma bind_run {A B} (m : M S A) (f : A -> M S B) s a s' :
  m s = (Ok a, s') -> (m ≫= f) s = f a s'.
Proof. unfold mbind, M_bind. by intros ->. Qed.

Lemma bind_run_Err {A B} (m : M S A) (f : A -> M S B) s e s' :
  m s = (Err e, s') -> (m ≫= f) s = (Err e, s').
Proof. unfold mbind, M_bind. by intros ->. Qed.

Lemma ret_Ok {A} (a b : A) (s s' : S) :
  mret (M := M S) a s = (Ok b, s') <-> a = b /\ s = s'.
Proof. unfold mret, M_ret. naive_solver. Qed.

Lemma fail_Ok {A} e (b : A) (s s' : S) : fail e s = (Ok b, s') <-> False.
Proof. unfold fail. naive_solver. Qed.

Lemma crash_Ok {A} e (b : A) (s s' : S) : crash e s = (Ok b, s') <-> False.
Proof. unfold crash. naive_solver. Qed.

Lemma lift_Ok {A} o (b : A) (s s' : S) :
  lift o s = (Ok b, s') <-> o = Ok b /\ s = s'.
Proof. unfold lift. naive_solver. Qed.

Lemma gets_Ok {A} f (b : A) (s s' : S) :
  gets f s = (Ok b, s') <-> f s = b /\ s = s'.
Proof. unfold gets. naive_solver. Qed.

Lemma try_Ok {A} (m : M S A) (r : A + goerror) s s' :
  try m s = (Ok r, s') <->
  match r with inl a => m s = (Ok a, s') | inr e => m s = (Err e, s') end.
Proof.
  unfold try. destruct (m s) as [[a|e|w] s0] eqn:E, r; naive_solver.
Qed.
End MonadLaws.

(** [x, err := o; if err != nil { return fmt.Errorf(...) }] *)
Definition orFail {S A} (o : outcome A) (e : goerror) : M S A :=
  match o with Ok a => mret a | Err _ => fail e | Crash why => crash why end.

Lemma orFail_Ok {S A} (o : outcome A) e a (s s' : S) :
  orFail o e s = (Ok a, s') <-> o = Ok a /\ s = s'.
Proof. unfold orFail, mret, M_ret, fail, crash. destruct o; naive_solver. Qed.

(** As [orFail], for a call: the error is replaced. *)
Definition orFailM {S A} (m : M S A) (e : goerror) : M S A :=
  r ← try m; match r with inl a => mret a | inr _ => fail e end.

Lemma orFailM_Ok {S A} (m : M S A) e a (s s' : S) :
  orFailM m e s = (Ok a, s') <-> m s = (Ok a, s').
Proof.
  unfold orFailM, mbind, M_bind, try, mret, M_ret, fail. destruct (m s) as [[b|x|c] s1]; naive_solver.
Qed.

Lemma foldM_lift {S A B} (f : B -> A -> outcome B) (l : list A) acc (s : S) :
  foldM (fun b a => lift (f b a)) l acc s = (foldO f l acc, s).
Proof.
  revert acc. induction l as [|x l IH]; intros acc; simpl; [done|].
  unfold mbind at 1, M_bind at 1, lift. by destruct (f acc x); simpl.
Qed.

Lemma foldM_ext {S A B} (f g : B -> A -> M S B) (l : list A) acc (s : S) :
  (forall b x s, f b x s = g b x s) -> foldM f l acc s = foldM g l acc s.
Proof.
  intros H. revert acc s. induction l as [|x l IH]; intros acc s; simpl; [done|].
  unfold mbind, M_bind. rewrite H. destruct (g acc x s) as [[b|e|w] s']; [apply IH|done|done].
Qed.

Lemma lift_bind {S A B} (o : outcome A) (f : A -> outcome B) (s : S) :
  (lift o ≫= fun a => lift (f a)) s = lift (o ≫= f) s.
Proof. by destruct o. Qed.

Lemma mapMs_Ok {S A B} (f : A -> M S B) (R : A -> B -> Prop) (I : S -> Prop) l s :
  I s -> (forall x s, x ∈ l -> I s -> exists y s', f x s = (Ok y, s') /\ R x y /\ I s') ->
  exists ys s', mapMs f l s = (Ok ys, s') /\ Forall2 R l ys /\ I s'.
Proof.
  revert s. induction l as [|x l IH]; intros s Hs Hf; simpl.
  { exists [], s. split; [done|]. by split; [constructor|]. }
  destruct (Hf x s ltac:(by left) Hs) as (y & s1 & E1 & Hy & Hs1).
  destruct (IH s1 Hs1) as (ys & s2 & E2 & Hys & Hs2); [intros; apply Hf; [by right|done]|].
  exists (y :: ys), s2. rewrite (bind_run _ _ _ _ _ E1), (bind_run _ _ _ _ _ E2).
  split; [done|]. split; [by constructor|done].
Qed.

(** A loop that returns a value, with an invariant on what is done. *)
Lemma foldM_Ok_inv {S A B} (f : B -> A -> M S B) (I : list A -> B -> S -> Prop) l acc s b s' :
  I [] acc s ->
  (forall pre x post b s b' s1, l = pre ++ x :: post -> I pre b s ->
     f b x s = (Ok b', s1) -> I (pre ++ [x]) b' s1) ->
  foldM f l acc s = (Ok b, s') -> I l b s'.
Proof.
  intros H0 Hstep.
  assert (H : forall post pre acc s, l = pre ++ post -> I pre acc s ->
    foldM f post acc s = (Ok b, s') -> I l b s').
  { intros post. induction post as [|x post IH]; intros pre c t -> Hi E; simpl in E.
    - apply ret_Ok in E as [<- <-]. by rewrite app_nil_r.
    - apply bind_Ok in E as (c' & t' & E1 & E2).
      apply (IH (pre ++ [x]) c' t'); [by rewrite <- app_assoc|by eapply Hstep|done]. }
  by apply (H l []).
Qed.

Lemma forM_Ok_inv {S A} (f : A -> M S unit) (I : list A -> S -> Prop) l s s' :
  I [] s ->
  (forall pre x post s s1, l = pre ++ x :: post -> I pre s -> f x s = (Ok tt, s1) -> I (pre ++ [x]) s1) ->
  forM_ l f s = (Ok tt, s') -> I l s'.
Proof.
  intros H0 Hstep.
  assert (H : forall post pre s, l = pre ++ post -> I pre s -> forM_ post f s = (Ok tt, s') -> I l s').
  { intros post. induction post as [|x post IH]; intros pre t -> Hi E; simpl in E.
    - apply ret_Ok in E as [_ <-]. by rewrite app_nil_r.
    - apply bind_Ok in E as ([] & t' & E1 & E2).
      apply (IH (pre ++ [x]) t'); [by rewrite <- app_assoc|by eapply Hstep|done]. }
  by apply (H l []).
Qed.

(** [inv_run]: takes a hypothesis about a run that returned a value apart into
    the runs of its steps. *)
Ltac inv_run :=
  repeat match goal with
  | H : mbind _ _ _ = (Ok _, _) |- _ =>
      apply bind_Ok in H; destruct H as (? & ? & ? & ?)
  | H : mret _ _ = (Ok _, _) |- _ => apply ret_Ok in H; destruct H; subst
  | H : fail _ _ = (Ok _, _) |- _ => apply fail_Ok in H; destruct H
  | H : crash _ _ = (Ok _, _) |- _ => apply crash_Ok in H; destruct H
  | H : lift _ _ = (Ok _, _) |- _ => apply lift_Ok in H; destruct H; subst
  | H : gets _ _ = (Ok _, _) |- _ => apply gets_Ok in H; destruct H; subst
  | H : try _ _ = (Ok ?r, _) |- _ => apply try_Ok in H; destruct r
  | H : (Ok _, _) = (Ok _, _) |- _ => injection H as ?; subst
  | H : (Err _, _) = (Ok _, _) |- _ => discriminate H
  | H : (Crash _, _) = (Ok _, _) |- _ => discriminate H
  end.

(** ** State invariants

    [preserves I m]: whatever [m] returns, errors included, a state satisfying
    [I] is left in a state satisfying [I]. *)
Definition preserves {S A} (I : S -> Prop) (m : M S A) : Prop :=
  forall s, I s -> I (snd (m s)).

Create HintDb preserves.

Section Preserves.
Context {S : Type} (I : S -> Prop).

Lemma preserves_ret {A} (a : A) : preserves I (mret a).
Proof. intros s H. exact H. Qed.

Lemma preserves_fail {A} e : preserves I (fail (A := A) e).
Proof. intros s H. exact H. Qed.

Lemma preserves_crash {A} e : preserves I (crash (A := A) e).
Proof. intros s H. exact H. Qed.

Lemma preserves_lift {A} (o : outcome A) : preserves I (lift o).
Proof. intros s H. exact H. Qed.

Lemma preserves_gets {A} (f : S -> A) : preserves I (gets f).
Proof. intros s H. exact H. Qed.

Lemma preserves_bind {A B} (m : M S A) (f : A -> M S B) :
  preserves I m -> (forall a, preserves I (f a)) -> preserves I (m ≫= f).
Proof.
  intros Hm Hf s Hs. unfold mbind, M_bind. specialize (Hm s Hs).
  destruct (m s) as [[a|e|w] s']; simpl in *; [by apply Hf | done | done].
Qed.

Lemma preserves_lift_bind {A B} (o : outcome A) (f : A -> M S B) :
  (forall a, o = Ok a -> preserves I (f a)) -> preserves I (lift o ≫= f).
Proof. intros Hf s Hs. unfold mbind, M_bind, lift. destruct o; [by apply Hf|done|done]. Qed.

Lemma preserves_try {A} (m : M S A) : preserves I m -> preserves I (try m).
Proof.
  intros Hm s Hs. unfold try. specialize (Hm s Hs).
  by destruct (m s) as [[a|e|w] s'].
Qed.

Lemma preserves_forM {A} (l : list A) (f : A -> M S unit) :
  (forall x, preserves I (f x)) -> preserves I (forM_ l f).
Proof.
  intros Hf. induction l as [|x l IH]; simpl; [apply preserves_ret|].
  apply preserves_bind; auto.
Qed.

Lemma preserves_foldM {A B} (f : B -> A -> M S B) (l : list A) acc :
  (forall b x, preserves I (f b x)) -> preserves I (foldM f l acc).
Proof.
  intros Hf. revert acc. induction l as [|x l IH]; intros acc; simpl;
    [apply preserves_ret|]. apply preserves_bind; auto.
Qed.

Lemma preserves_mapMs {A B} (f : A -> M S B) (l : list A) :
  (forall x, preserves I (f x)) -> preserves I (mapMs f l).
Proof.
  intros Hf. induction l as [|x l IH]; simpl; [apply preserves_ret|].
  apply preserves_bind; [auto|]. intros y. apply preserves_bind; [auto|].
  intros ys. apply preserves_ret.
Qed.
End Preserves.

#[export] Hint Resolve preserves_ret preserves_fail preserves_crash
  preserves_lift preserves_gets preserves_bind preserves_try preserves_forM
  preserves_foldM preserves_mapMs : preserves.

(** [solve_preserves]: follows the program text, cases included, down to the
    steps the hint database knows. *)
Ltac solve_preserves :=
  repeat first
    [ progress intros
    | solve [auto with preserves nocore]
    | apply preserves_bind
    | apply preserves_try
    | apply preserves_forM
    | apply preserves_foldM
    | apply preserves_mapMs
    | match goal with
      | |- preserves _ (match ?x with _ => _ end) => destruct x
      end ].

(** [keeps I m]: a run of [m] that returns a value keeps [I].  This is what a
    transaction's body needs: a failed one is rolled back. *)
Definition keeps {S A} (I : S -> Prop) (m : M S A) : Prop :=
  forall s a s', I s -> m s = (Ok a, s') -> I s'.

Create HintDb keeps.

Section Keeps.
Context {S : Type} (I : S -> Prop).

Lemma keeps_preserves {A} (m : M S A) : preserves I m -> keeps I m.
Proof. intros Hm s a s' Hs E. specialize (Hm s Hs). by rewrite E in Hm. Qed.

Lemma keeps_bind {A B} (m : M S A) (f : A -> M S B) :
  keeps I m -> (forall a, keeps I (f a)) -> keeps I (m ≫= f).
Proof.
  intros Hm Hf s b s' Hs E. apply bind_Ok in E as (a & s1 & E1 & E2).
  apply (Hf a s1 b s'); [|done]. by apply (Hm s a s1).
Qed.

Lemma keeps_forM {A} (l : list A) (f : A -> M S unit) :
  (forall x, keeps I (f x)) -> keeps I (forM_ l f).
Proof.
  intros Hf. induction l as [|x l IH]; simpl.
  - apply keeps_preserves, preserves_ret.
  - apply keeps_bind; auto.
Qed.

Lemma keeps_mapMs {A B} (f : A -> M S B) (l : list A) :
  (forall x, keeps I (f x)) -> keeps I (mapMs f l).
Proof.
  intros Hf. induction l as [|x l IH]; simpl.
  - apply keeps_preserves, preserves_ret.
  - apply keeps_bind; [done|]. intros y. apply keeps_bind; [done|].
    intros ys. apply keeps_preserves, preserves_ret.
Qed.

Lemma keeps_fail {A} e : keeps I (fail (A := A) e).
Proof. by intros s a s' _ [=]. Qed.
End Keeps.
#[export] Hint Resolve keeps_bind keeps_forM keeps_mapMs keeps_fail : keeps.

Ltac solve_keeps :=
  repeat first
    [ progress intros
    | solve [auto with keeps nocore]
    | solve [apply keeps_preserves; solve_preserves]
    | apply keeps_bind
    | apply keeps_forM
    | apply keeps_mapMs
    | match goal with
      | |- keeps _ (match ?x with _ => _ end) => destruct x
      end ].

(** ** Crash freedom

    [safe m s Q]: the run of [m] from [s] does not crash, and if it returns a
    value, [Q] holds of the value and the state it leaves. *)
Definition safe {S A} (m : M S A) (s : S) (Q : A -> S -> Prop) : Prop :=
  match m s with
  | (Ok a, s') => Q a s'
  | (Err _, _) => True
  | (Crash _, _) => False
  end.

Section Safe.
Context {S : Type}.

Lemma safe_Ok {A} (m : M S A) s Q a s' : safe m s Q -> m s = (Ok a, s') -> Q a s'.
Proof. unfold safe. intros H E. by rewrite E in H. Qed.

Lemma safe_no_crash {A} (m : M S A) s Q why : safe m s Q -> fst (m s) <> Crash why.
Proof. unfold safe. by destruct (m s) as [[] ?]. Qed.

Lemma safe_ret {A} (a : A) (s : S) Q : Q a s -> safe (mret a) s Q.
Proof. done. Qed.

Lemma safe_fail {A} e (s : S) Q : safe (fail (A := A) e) s Q.
Proof. done. Qed.

Lemma safe_lift {A} (o : outcome A) (s : S) (Q : A -> S -> Prop) :
  (forall a, o = Ok a -> Q a s) -> (forall why, o <> Crash why) -> safe (lift o) s Q.
Proof. intros H1 H2. unfold safe, lift. destruct o; [by apply H1|done|by eapply H2]. Qed.

Lemma safe_bind {A B} (m : M S A) (f : A -> M S B) s Q :
  safe m s (fun a s' => safe (f a) s' Q) -> safe (m ≫= f) s Q.
Proof. unfold safe, mbind, M_bind. by destruct (m s) as [[] ?]. Qed.

Lemma safe_mono {A} (m : M S A) s (Q Q' : A -> S -> Prop) :
  safe m s Q -> (forall a s', Q a s' -> Q' a s') -> safe m s Q'.
Proof. unfold safe. destruct (m s) as [[] ?]; auto. Qed.

(** A loop, with an invariant on what is done, what is left and the result. *)
Lemma safe_foldM {A B} (f : B -> A -> M S B) (I : list A -> B -> S -> Prop) l acc s :
  I [] acc s ->
  (forall pre x post b s, l = pre ++ x :: post -> I pre b s ->
     safe (f b x) s (I (pre ++ [x]))) ->
  safe (foldM f l acc) s (I l).
Proof.
  intros H0 Hstep. change l with ([] ++ l) at 1.
  assert (H : forall post pre acc s, l = pre ++ post -> I pre acc s ->
    safe (foldM f post acc) s (I l)).
  { intros post. induction post as [|x post IH]; intros pre b s' -> Hi; simpl.
    - apply safe_ret. by rewrite app_nil_r.
    - apply safe_bind. eapply safe_mono; [by eapply Hstep|].
      intros b' s'' Hi'. apply (IH (pre ++ [x])); [by rewrite <- app_assoc|done]. }
  by apply (H l []).
Qed.
End Safe.

(** [returns m]: [m] comes back from every state, with a value or an error. *)
Definition notCrash {A} (o : outcome A) : Prop := forall why, o <> Crash why.
Definition returns {S A} (m : M S A) : Prop := forall s, notCrash (fst (m s)).

Create HintDb returns.

Section Returns.
Context {S : Type}.

Lemma returns_ret {A} (a : A) : returns (S := S) (mret a).
Proof. by intros s why. Qed.

Lemma returns_fail {A} e : returns (S := S) (fail (A := A) e).
Proof. by intros s why. Qed.

Lemma returns_lift {A} (o : outcome A) : notCrash o -> returns (S := S) (lift o).
Proof. intros H s. exact H. Qed.

Lemma returns_gets {A} (f : S -> A) : returns (gets f).
Proof. by intros s why. Qed.

Lemma returns_bind {A B} (m : M S A) (f : A -> M S B) :
  returns m -> (forall a, returns (f a)) -> returns (m ≫= f).
Proof.
  intros Hm Hf s why. unfold mbind, M_bind. specialize (Hm s why).
  destruct (m s) as [[a|e|w] s']; [apply Hf|done|]. simpl in *. congruence.
Qed.

Lemma returns_try {A} (m : M S A) : returns m -> returns (try m).
Proof.
  intros Hm s why. unfold try. specialize (Hm s why).
  destruct (m s) as [[a|e|w] s']; [done|done|]. simpl in *. congruence.
Qed.

Lemma returns_forM {A} (l : list A) (f : A -> M S unit) :
  (forall x, returns (f x)) -> returns (forM_ l f).
Proof.
  intros Hf. induction l as [|x l IH]; simpl; [apply returns_ret|].
  apply returns_bind; auto.
Qed.

Lemma returns_foldM {A B} (f : B -> A -> M S B) (l : list A) acc :
  (forall b x, returns (f b x)) -> returns (foldM f l acc).
Proof.
  intros Hf. revert acc. induction l as [|x l IH]; intros acc; simpl; [apply returns_ret|].
  apply returns_bind; auto.
Qed.

Lemma returns_mapMs {A B} (f : A -> M S B) (l : list A) :
  (forall x, returns (f x)) -> returns (mapMs f l).
Proof.
  intros Hf. induction l as [|x l IH]; simpl; [apply returns_ret|].
  apply returns_bind; [auto|]. intros y. apply returns_bind; [auto|]. intros ys. apply returns_ret.
Qed.

Lemma returns_safe {A} (m : M S A) s Q :
  returns m -> (forall a s', m s = (Ok a, s') -> Q a s') -> safe m s Q.
Proof.
  intros Hm HQ. unfold safe. specialize (Hm s).
  destruct (m s) as [[a|e|w] s']; [by apply HQ|done|by eapply Hm].
Qed.
End Returns.

Lemma notCrash_Ok {A} (a : A) : notCrash (Ok a).
Proof. by intros why. Qed.
Lemma notCrash_Err {A} e : notCrash (Err (A := A) e).
Proof. by intros why. Qed.
Lemma notCrash_bind {A B} (o : outcome A) (f : A -> outcome B) :
  notCrash o -> (forall a, notCrash (f a)) -> notCrash (o ≫= f).
Proof. intros Ho Hf. destruct o as [a|e|w]; [apply Hf|done|]. by destruct (Ho w). Qed.

#[export] Hint Resolve returns_ret returns_fail returns_lift returns_gets returns_bind
  returns_try returns_forM returns_foldM returns_mapMs
  notCrash_Ok notCrash_Err notCrash_bind : returns.

Ltac solve_returns :=
  repeat first
    [ progress intros
    | solve [auto with returns nocore]
    | apply returns_bind
    | apply returns_try
    | apply returns_forM
    | apply returns_foldM
    | apply returns_mapMs
    | apply returns_lift
    | apply notCrash_bind
    | match goal with
      | |- returns (match ?x with _ => _ end) => destruct x
      | |- notCrash (match ?x with _ => _ end) => destruct x
      end ].

(** ** The byte order of strings (SQL's ORDER BY on text) *)
Definition strLe (s t : string) : Prop := String.leb s t = true.

#[export] Instance strLe_dec : RelDecision strLe.
Proof. intros s t. unfold strLe. apply _. Defined.

Lemma strLe_cons c s c' s' :
  strLe (String c s) (String c' s') <->
  (N_of_ascii c < N_of_ascii c')%N \/ c = c' /\ strLe s s'.
Proof.
  unfold strLe, String.leb. cbn [String.compare]. unfold Ascii.compare.
  destruct (N.compare_spec (N_of_ascii c) (N_of_ascii c')) as [He|Hl|Hg].
  - apply (f_equal ascii_of_N) in He. rewrite !ascii_N_embedding in He. subst.
    split; [by right|]. intros [H|[_ H]]; [lia|done].
  - split; [by left|done].
  - split; [done|]. intros [H|[-> _]]; lia.
Qed.

#[export] Instance strLe_total : Total strLe.
Proof. intros s t. apply String.leb_total. Qed.

#[export] Instance strLe_antisym : AntiSymm (=) strLe.
Proof. intros s t. apply String.leb_antisym. Qed.

#[export] Instance strLe_trans : Transitive strLe.
Proof.
  intros s. induction s as [|c s IH]; intros [|c' t] [|c'' u]; try done.
  rewrite !strLe_cons. intros [H|[-> H]] [H'|[-> H']]; [left; lia|by left|by left|].
  right. split; [done|]. by apply (IH t).
Qed.

(** ** Bytes, and binary.LittleEndian *)
Abbreviation bytes := (list ascii).

Definition byteOf (z : Z) : ascii := ascii_of_N (Z.to_N (z mod 256)).
Definition byteVal (c : ascii) : Z := Z.of_N (N_of_ascii c).

(** binary.LittleEndian, in [k] bytes. *)
Fixpoint putLE (k : nat) (z : Z) : bytes :=
  match k with O => [] | S k => byteOf z :: putLE k (Z.shiftr z 8) end.
Fixpoint getLE (b : bytes) : Z :=
  match b with [] => 0 | c :: b => Z.lor (byteVal c) (Z.shiftl (getLE b) 8) end.

Lemma byteVal_range c : (0 <= byteVal c < 256)%Z.
Proof. unfold byteVal. pose proof (N_ascii_bounded c). lia. Qed.

Lemma byteVal_byteOf z : byteVal (byteOf z) = (z mod 256)%Z.
Proof.
  unfold byteVal, byteOf. pose proof (Z.mod_pos_bound z 256 ltac:(lia)).
  rewrite N_ascii_embedding by lia. lia.
Qed.

(** Bits above and bits below. *)
Lemma lor_shift a b k : (0 <= k)%Z -> (0 <= a < 2 ^ k)%Z -> Z.lor a (Z.shiftl b k) = (a + b * 2 ^ k)%Z.
Proof.
  intros Hk Ha. rewrite <- Z.shiftl_mul_pow2 by done.
  assert (H : Z.land a (Z.shiftl b k) = 0%Z).
  { apply Z.bits_inj'. intros n Hn. rewrite Z.land_spec, Z.bits_0.
    destruct (Z.lt_ge_cases n k) as [Hlt|Hge].
    - by rewrite Z.shiftl_spec_low, andb_false_r.
    - destruct (Z.eq_dec a 0%Z) as [->|Hne]; [by rewrite Z.bits_0|].
      rewrite Z.bits_above_log2; [done|lia|]. apply Z.log2_lt_pow2; [lia|].
      apply Z.lt_le_trans with (2 ^ k)%Z; [lia|]. apply Z.pow_le_mono_r; lia. }
  rewrite <- Z.lxor_lor by done. by rewrite <- Z.add_nocarry_lxor.
Qed.

Lemma putLE_length k z : length (putLE k z) = k.
Proof. revert z. induction k; intros z; simpl; [done|by rewrite IHk]. Qed.

Lemma getLE_putLE k z : getLE (putLE k z) = (z mod 2 ^ (8 * Z.of_nat k))%Z.
Proof.
  revert z. induction k as [|k IH]; intros z; [by rewrite Z.mod_1_r|].
  simpl getLE. rewrite IH, byteVal_byteOf, lor_shift; [|lia|apply Z.mod_pos_bound; lia].
  rewrite Z.shiftr_div_pow2 by lia. replace (8 * Z.of_nat (S k))%Z with (8 + 8 * Z.of_nat k)%Z by lia.
  rewrite Z.pow_add_r by lia. change (2 ^ 8)%Z with 256%Z.
  rewrite Z.rem_mul_r by lia. lia.
Qed.

(** ** strings.Split on one character *)
Fixpoint splitBytes (sep : ascii) (s : bytes) : list bytes :=
  match s with
  | [] => [[]]
  | c :: s' =>
      if decide (c = sep) then [] :: splitBytes sep s'
      else match splitBytes sep s' with x :: l => (c :: x) :: l | [] => [[c]] end
  end.
Definition splitString (sep : ascii) (s : string) : list string :=
  string_of_list_ascii <$> splitBytes sep (list_ascii_of_string s).

Lemma splitBytes_plain sep s : sep ∉ s -> splitBytes sep s = [s].
Proof.
  induction s as [|c s IH]; intros Hs; [done|]. apply not_elem_of_cons in Hs as [Hc Hs]. cbn [splitBytes].
  rewrite decide_False by congruence. by rewrite IH.
Qed.

Lemma splitBytes_cons sep s r : sep ∉ s -> splitBytes sep (s ++ sep :: r) = s :: splitBytes sep r.
Proof.
  induction s as [|c s IH]; intros Hs; cbn [splitBytes app]; [by rewrite decide_True|].
  apply not_elem_of_cons in Hs as [Hc Hs]. rewrite decide_False by congruence. by rewrite IH.
Qed.

Lemma list_ascii_app s t : list_ascii_of_string (s ++ t) = list_ascii_of_string s ++ list_ascii_of_string t.
Proof. induction s as [|c s IH]; [done|]. simpl. f_equal. exact IH. Qed.

Lemma splitString_two sep a b :
  sep ∉ list_ascii_of_string a -> sep ∉ list_ascii_of_string b -> splitString sep (a ++ String sep b) = [a; b].
Proof.
  intros Ha Hb. unfold splitString. rewrite list_ascii_app. cbn [list_ascii_of_string].
  rewrite splitBytes_cons, splitBytes_plain by done. cbn. by rewrite !string_of_list_ascii_of_string.
Qed.
