(* ===== verification/Platform.v ===== *)
(** * The environment of the server

    What the modelled code takes from outside: the clock, randomness, hashing,
    the order in which an SQL engine or a Go map delivers its entries, and the
    faults of the SQL engine.  All of it is a parameter ([Platform]); the facts
    the code relies on are the separate class [PlatformOK].  [World] is a
    component's state together with the number of environment interactions so
    far, so that two readings of the clock may differ.  [exec], [query] and
    [queryRow] are the statement forms of [database/sql]. *)
From S2P Require Import Prelude.

Class Platform := {
  (** ftime.Now, in nanoseconds since the Unix epoch. *)
  clock : nat -> Z;
  (** crypto/rand.Read of the given number of bytes. *)
  randRead : nat -> nat -> option string;
  (** math/rand's contribution to a duration. *)
  serverRetryDelay : nat -> Z -> Z;
  (** crypto/sha256.Sum256. *)
  sha256 : string -> string;
  (** The order in which rows or map entries are delivered. *)
  deliver : nat -> forall A : Type, list A -> list A;
  (** sort.Slice and ORDER BY leave equal elements in any order. *)
  tieBreak : nat -> forall A : Type, list A -> list A;
  (** An engine error at this point (I/O error, expired context, ...). *)
  sqlFault : nat -> option Z;
}.

Class PlatformOK (P : Platform) : Prop := {
  deliver_perm n A (l : list A) : deliver n A l ≡ₚ l;
  tieBreak_perm n A (l : list A) : tieBreak n A l ≡ₚ l;
  randRead_length n k s : randRead n k = Some s -> String.length s = k;
  sha256_length s : String.length (sha256 s) = 32;
}.

(** A platform on which everything can be evaluated. *)
Fixpoint zeros (n : nat) : string :=
  match n with O => EmptyString | S n' => String "000"%char (zeros n') end.

Lemma zeros_length n : String.length (zeros n) = n.
Proof. induction n; simpl; congruence. Qed.

Fixpoint bytesOfNat (n k : nat) : string :=
  match k with
  | O => EmptyString
  | S k' => String (ascii_of_nat (n mod 256)) (bytesOfNat (n / 256) k')
  end.

Lemma bytesOfNat_length k n : String.length (bytesOfNat n k) = k.
Proof. revert n. induction k; intros n; simpl; [done | by rewrite IHk]. Qed.

Fixpoint checksum (s : string) : nat :=
  match s with
  | EmptyString => 1
  | String c s' => (nat_of_ascii c + 3 * checksum s') mod 251
  end.

#[export] Instance TestPlatform : Platform := {|
  clock n := (1700000000 * 1000000000 + 1000000 * Z.of_nat n)%Z;
  randRead n k := Some (bytesOfNat n k);
  serverRetryDelay _ _ := (60 * 1000000000)%Z;
  sha256 s := bytesOfNat (checksum s) 32;
  deliver _ _ l := l;
  tieBreak _ _ l := l;
  sqlFault _ := None;
|}.

#[export] Instance TestPlatformOK : PlatformOK TestPlatform.
Proof.
  split; simpl; try done.
  intros n k s [= <-]. apply bytesOfNat_length.
Qed.

(** ** State with an interaction counter *)
Record World (D : Type) := mkWorld { w_data : D; w_step : nat }.
Arguments mkWorld {_} _ _.
Arguments w_data {_} _.
Arguments w_step {_} _.

Section World.
Context `{P : Platform} {D : Type}.

(** One interaction: reads the counter and advances it. *)
Definition interact {A} (f : nat -> outcome A) : M (World D) A := fun w =>
  (f (w_step w), mkWorld (w_data w) (S (w_step w))).

Definition now : M (World D) Z := interact (fun n => Ok (clock n)).

Definition randBytes (k : nat) : M (World D) (option string) :=
  interact (fun n => Ok (randRead n k)).

(** [for k, v := range m] over a Go map. *)
Definition rangeMap `{Countable K} {V} (m : gmap K V) : M (World D) (list (K * V)) :=
  interact (fun n => Ok (deliver n _ (map_to_list m))).

(** Running a part's operation inside a larger component. *)
Definition onPart {E A} (rd : D -> E) (wr : E -> D -> D) (m : M (World E) A) : M (World D) A :=
  fun w =>
    let '(r, w') := m (mkWorld (rd (w_data w)) (w_step w)) in
    (r, mkWorld (wr (w_data w') (w_data w)) (w_step w')).

(** *** SQL statements

    A statement that fails leaves the tables as they were. *)
Definition exec (f : D -> outcome D) : M (World D) unit := fun w =>
  let w' := mkWorld (w_data w) (S (w_step w)) in
  match sqlFault (w_step w) with
  | Some e => (Err (ErrIO e), w')
  | None =>
      match f (w_data w) with
      | Ok d => (Ok tt, mkWorld d (S (w_step w)))
      | Err e => (Err e, w')
      | Crash c => (Crash c, w')
      end
  end.

(** As [exec], with what the driver reports: RowsAffected or LastInsertId. *)
Definition execN (f : D -> outcome (Z * D)) : M (World D) Z := fun w =>
  let w' := mkWorld (w_data w) (S (w_step w)) in
  match sqlFault (w_step w) with
  | Some e => (Err (ErrIO e), w')
  | None =>
      match f (w_data w) with
      | Ok (n, d) => (Ok n, mkWorld d (S (w_step w)))
      | Err e => (Err e, w')
      | Crash c => (Crash c, w')
      end
  end.

Definition query {R} (f : D -> outcome (list R)) : M (World D) (list R) := fun w =>
  let w' := mkWorld (w_data w) (S (w_step w)) in
  match sqlFault (w_step w) with
  | Some e => (Err (ErrIO e), w')
  | None =>
      match f (w_data w) with
      | Ok rows => (Ok (deliver (w_step w) R rows), w')
      | Err e => (Err e, w')
      | Crash c => (Crash c, w')
      end
  end.

(** QueryRow(...).Scan(...): [ErrNoRows] when there is none. *)
Definition queryRow {R} (f : D -> option R) : M (World D) R := fun w =>
  let w' := mkWorld (w_data w) (S (w_step w)) in
  match sqlFault (w_step w) with
  | Some e => (Err (ErrIO e), w')
  | None =>
      match f (w_data w) with
      | Some r => (Ok r, w')
      | None => (Err ErrNoRows, w')
      end
  end.

Definition readData : M (World D) D := gets w_data.

(** *** Lemmas *)
Lemma interact_Ok {A} (f : nat -> outcome A) a w w' :
  interact f w = (Ok a, w') <->
  f (w_step w) = Ok a /\ w' = mkWorld (w_data w) (S (w_step w)).
Proof. unfold interact. split; [by intros [= -> <-] | by intros [-> ->]]. Qed.

Lemma exec_Ok f u w w' :
  exec f w = (Ok u, w') <->
  sqlFault (w_step w) = None /\
  f (w_data w) = Ok (w_data w') /\ w_step w' = S (w_step w).
Proof.
  unfold exec. destruct u, w' as [d' n'], (sqlFault (w_step w)); simpl.
  { split; [done | by intros (? & _)]. }
  destruct (f (w_data w)); (split; [intros [=]; by subst |]);
    intros (_ & [=] & ?); by subst.
Qed.

Lemma execN_Ok f n w w' :
  execN f w = (Ok n, w') <->
  sqlFault (w_step w) = None /\
  f (w_data w) = Ok (n, w_data w') /\ w_step w' = S (w_step w).
Proof.
  unfold execN. destruct w' as [d' n'], (sqlFault (w_step w)); simpl.
  { split; [done | by intros (? & _)]. }
  destruct (f (w_data w)) as [[]| |]; (split; [intros [=]; by subst |]);
    intros (_ & [=] & ?); by subst.
Qed.

Lemma query_Ok {R} (f : D -> outcome (list R)) rs w w' :
  query f w = (Ok rs, w') <->
  sqlFault (w_step w) = None /\
  (exists l, f (w_data w) = Ok l /\ rs = deliver (w_step w) R l) /\
  w' = mkWorld (w_data w) (S (w_step w)).
Proof.
  unfold query. destruct (sqlFault (w_step w)).
  { split; [done | by intros (? & _)]. }
  destruct (f (w_data w)); (split; [intros [=]; subst; eauto|]);
    intros (_ & (l & [=] & ->) & ->); by subst.
Qed.

Lemma queryRow_Ok {R} (f : D -> option R) r w w' :
  queryRow f w = (Ok r, w') <->
  sqlFault (w_step w) = None /\ f (w_data w) = Some r /\
  w' = mkWorld (w_data w) (S (w_step w)).
Proof.
  unfold queryRow. destruct (sqlFault (w_step w)).
  { split; [done | by intros (? & _)]. }
  destruct (f (w_data w)); (split; [intros [=]; by subst |]);
    intros (_ & [=] & ->); by subst.
Qed.

Lemma onPart_run {E A} (rd : D -> E) wr (m : M (World E) A) w r d n :
  m (mkWorld (rd (w_data w)) (w_step w)) = (r, mkWorld d n) ->
  onPart rd wr m w = (r, mkWorld (wr d (w_data w)) n).
Proof. intros E0. unfold onPart. by rewrite E0. Qed.

Lemma onPart_Ok {E A} (rd : D -> E) wr (m : M (World E) A) w a w' :
  onPart rd wr m w = (Ok a, w') <->
  exists w1, m (mkWorld (rd (w_data w)) (w_step w)) = (Ok a, w1) /\
    w' = mkWorld (wr (w_data w1) (w_data w)) (w_step w1).
Proof.
  unfold onPart. destruct (m _) as [r w1]. split.
  - intros [= -> <-]. by exists w1.
  - intros (w2 & [= -> ->] & ->). done.
Qed.

(** *** Crash freedom of statements *)
Lemma safe_query {R} (f : D -> outcome (list R)) w Q :
  (forall why, f (w_data w) <> Crash why) ->
  (forall l, f (w_data w) = Ok l ->
     Q (deliver (w_step w) R l) (mkWorld (w_data w) (S (w_step w)))) ->
  safe (query f) w Q.
Proof.
  intros Hc HQ. unfold safe, query. destruct (sqlFault _); [done|].
  destruct (f (w_data w)); [by apply HQ|done|by eapply Hc].
Qed.

Lemma safe_interact {A} (f : nat -> outcome A) w (Q : A -> World D -> Prop) :
  (forall why, f (w_step w) <> Crash why) ->
  (forall a, f (w_step w) = Ok a -> Q a (mkWorld (w_data w) (S (w_step w)))) ->
  safe (interact f) w Q.
Proof.
  intros Hc HQ. unfold safe, interact.
  destruct (f (w_step w)); [by apply HQ|done|by eapply Hc].
Qed.

Lemma returns_interact {A} (f : nat -> outcome A) :
  (forall n, notCrash (f n)) -> returns (interact f).
Proof. intros H w. apply H. Qed.

Lemma returns_exec (f : D -> outcome D) : (forall d, notCrash (f d)) -> returns (exec f).
Proof.
  intros H w why. unfold exec. specialize (H (w_data w) why).
  destruct (sqlFault _); [done|]. destruct (f _); simpl; congruence.
Qed.

Lemma returns_execN (f : D -> outcome (Z * D)) : (forall d, notCrash (f d)) -> returns (execN f).
Proof.
  intros H w why. unfold execN. specialize (H (w_data w) why).
  destruct (sqlFault _); [done|]. destruct (f _) as [[]| |]; simpl; congruence.
Qed.

Lemma returns_query {R} (f : D -> outcome (list R)) : (forall d, notCrash (f d)) -> returns (query f).
Proof.
  intros H w why. unfold query. specialize (H (w_data w) why).
  destruct (sqlFault _); [done|]. destruct (f _); simpl; congruence.
Qed.

Lemma returns_queryRow {R} (f : D -> option R) : returns (queryRow f).
Proof.
  intros w why. unfold queryRow. destruct (sqlFault _); [done|]. by destruct (f _).
Qed.

(** *** Runs on an engine without faults *)
Definition faultless : Prop := forall n, sqlFault n = None.

Lemma exec_run f d (w : World D) :
  faultless -> f (w_data w) = Ok d -> exec f w = (Ok tt, mkWorld d (S (w_step w))).
Proof. intros Hf E. unfold exec. by rewrite Hf, E. Qed.

Lemma exec_run_Err f e (w : World D) :
  faultless -> f (w_data w) = Err e ->
  exec f w = (Err e, mkWorld (w_data w) (S (w_step w))).
Proof. intros Hf E. unfold exec. by rewrite Hf, E. Qed.

Lemma execN_run f n d (w : World D) :
  faultless -> f (w_data w) = Ok (n, d) ->
  execN f w = (Ok n, mkWorld d (S (w_step w))).
Proof. intros Hf E. unfold execN. by rewrite Hf, E. Qed.

Lemma query_run {R} (f : D -> outcome (list R)) l w :
  faultless -> f (w_data w) = Ok l ->
  query f w = (Ok (deliver (w_step w) R l), mkWorld (w_data w) (S (w_step w))).
Proof. intros Hf E. unfold query. by rewrite Hf, E. Qed.

Lemma queryRow_run {R} (f : D -> option R) r w :
  faultless -> f (w_data w) = Some r ->
  queryRow f w = (Ok r, mkWorld (w_data w) (S (w_step w))).
Proof. intros Hf E. unfold queryRow. by rewrite Hf, E. Qed.

Lemma queryRow_run_none {R} (f : D -> option R) w :
  faultless -> f (w_data w) = None ->
  queryRow f w = (Err ErrNoRows, mkWorld (w_data w) (S (w_step w))).
Proof. intros Hf E. unfold queryRow. by rewrite Hf, E. Qed.

(** *** Invariants of the data *)
Definition onData (I : D -> Prop) : World D -> Prop := fun w => I (w_data w).

Lemma preserves_interact {A} I (f : nat -> outcome A) :
  preserves (onData I) (interact f).
Proof. intros w H. exact H. Qed.

Lemma preserves_query {R} I (f : D -> outcome (list R)) :
  preserves (onData I) (query f).
Proof.
  intros w H. unfold query.
  destruct (sqlFault _); [exact H|]. by destruct (f _).
Qed.

Lemma preserves_queryRow {R} I (f : D -> option R) :
  preserves (onData I) (queryRow f).
Proof.
  intros w H. unfold queryRow.
  destruct (sqlFault _); [exact H|]. by destruct (f _).
Qed.

Lemma preserves_exec (I : D -> Prop) f :
  (forall d d', I d -> f d = Ok d' -> I d') -> preserves (onData I) (exec f).
Proof.
  intros Hf w H. unfold exec.
  destruct (sqlFault _); [exact H|].
  destruct (f (w_data w)) as [d'|e|c] eqn:E; simpl; [|exact H|exact H].
  by apply (Hf _ _ H).
Qed.

Lemma preserves_execN (I : D -> Prop) f :
  (forall d n d', I d -> f d = Ok (n, d') -> I d') -> preserves (onData I) (execN f).
Proof.
  intros Hf w H. unfold execN.
  destruct (sqlFault _); [exact H|].
  destruct (f (w_data w)) as [[n d']|e|c] eqn:E; simpl; [|exact H|exact H].
  by apply (Hf _ _ _ H E).
Qed.
End World.

#[export] Hint Resolve preserves_interact preserves_query preserves_queryRow : preserves.
#[export] Hint Unfold now randBytes rangeMap readData : preserves.

Lemma preserves_now `{Platform} {D} I : preserves (onData I) (now (D := D)).
Proof. apply preserves_interact. Qed.
Lemma preserves_randBytes `{Platform} {D} I k :
  preserves (onData I) (randBytes (D := D) k).
Proof. apply preserves_interact. Qed.
Lemma preserves_rangeMap `{Platform} {D} `{Countable K} {V} I (m : gmap K V) :
  preserves (onData I) (rangeMap (D := D) m).
Proof. apply preserves_interact. Qed.
#[export] Hint Resolve preserves_now preserves_randBytes preserves_rangeMap : preserves.

Lemma returns_now `{Platform} {D} : returns (now (D := D)).
Proof. apply returns_interact. solve_returns. Qed.
Lemma returns_randBytes `{Platform} {D} k : returns (randBytes (D := D) k).
Proof. apply returns_interact. solve_returns. Qed.
Lemma returns_rangeMap `{Platform} {D} `{Countable K} {V} (m : gmap K V) :
  returns (rangeMap (D := D) m).
Proof. apply returns_interact. solve_returns. Qed.
#[export] Hint Resolve returns_interact returns_exec returns_execN returns_query returns_queryRow
  returns_now returns_randBytes returns_rangeMap : returns.

(** [inv_sql]: as [inv_run], through the statement forms too. *)
Ltac inv_sql :=
  repeat (inv_run; try match goal with
  | H : now _ = (Ok _, _) |- _ => unfold now in H
  | H : randBytes _ _ = (Ok _, _) |- _ => unfold randBytes in H
  | H : rangeMap _ _ = (Ok _, _) |- _ => unfold rangeMap in H
  | H : readData _ = (Ok _, _) |- _ => unfold readData in H
  | H : interact _ _ = (Ok _, _) |- _ =>
      apply interact_Ok in H; destruct H as [? ->]; simplify_eq/=
  | H : exec _ _ = (Ok _, _) |- _ => apply exec_Ok in H; destruct H as (? & ? & ?)
  | H : execN _ _ = (Ok _, _) |- _ => apply execN_Ok in H; destruct H as (? & ? & ?)
  | H : query _ _ = (Ok _, _) |- _ =>
      apply query_Ok in H; destruct H as (? & (? & ? & ?) & ->); simplify_eq/=
  | H : queryRow _ _ = (Ok _, _) |- _ =>
      apply queryRow_Ok in H; destruct H as (? & ? & ->); simplify_eq/=
  end).

(** Replaces every state by its two components. *)
Ltac split_worlds :=
  repeat match goal with w : World _ |- _ => destruct w end; simplify_eq/=.

(** *** Concrete runs *)
Definition runOk {S A} (m : M S A) (s : S) : S := snd (m s).

Lemma runOk_preserves {D A} (I : D -> Prop) (m : M (World D) A) w :
  preserves (onData I) m -> I (w_data w) -> I (w_data (runOk m w)).
Proof. intros H Hw. exact (H w Hw). Qed.

Lemma faultless_test : faultless (P := TestPlatform).
Proof. by intros n. Qed.
