(* ===== verification/Ids.v ===== *)
(** * Identifiers

    Module [Hex]: encoding/hex and the base-16 strconv functions the code uses.
    Modules [ClientID], [MessageID]: src/common/ids.go.  Modules
    [BroadcastID], [AllocationID]: src/server/ids/ids.go.  An identifier is the
    byte string it wraps. *)
From S2P Require Import Prelude Platform.

Module Hex.
Definition digit (n : nat) : ascii :=
  if decide (n < 10)%nat then ascii_of_nat (48 + n) else ascii_of_nat (87 + n).

(** encoding/hex's table: upper case is accepted too. *)
Definition fromHexChar (c : ascii) : option nat :=
  let n := nat_of_ascii c in
  if (48 <=? n) && (n <=? 57) then Some (n - 48)
  else if (97 <=? n) && (n <=? 102) then Some (n - 87)
  else if (65 <=? n) && (n <=? 70) then Some (n - 55)
  else None.

Fixpoint EncodeToString (s : string) : string :=
  match s with
  | EmptyString => EmptyString
  | String c s' =>
      let n := nat_of_ascii c in
      String (digit (n / 16)) (String (digit (n mod 16)) (EncodeToString s'))
  end.

Fixpoint DecodeString (s : string) : outcome string :=
  match s with
  | EmptyString => Ok EmptyString
  | String _ EmptyString => Err (ErrText "encoding/hex: odd length hex string")
  | String a (String b s') =>
      match fromHexChar a, fromHexChar b with
      | Some x, Some y =>
          rest ← DecodeString s';
          Ok (String (ascii_of_nat (16 * x + y)) rest)
      | _, _ => Err (ErrText "encoding/hex: invalid byte")
      end
  end.

(** strconv.FormatUint(n, 16). *)
Fixpoint formatAux (fuel : nat) (n : Z) (acc : string) : string :=
  match fuel with
  | O => acc
  | S fuel' =>
      let acc' := String (digit (Z.to_nat (n mod 16))) acc in
      if (n / 16 =? 0)%Z then acc' else formatAux fuel' (n / 16) acc'
  end.
Definition FormatUint16 (n : Z) : string := formatAux 16 n EmptyString.

(** strconv.ParseUint(s, 16, 64). *)
Fixpoint parseAux (s : string) (acc : Z) : outcome Z :=
  match s with
  | EmptyString => Ok acc
  | String c s' =>
      match fromHexChar c with
      | None => Err (ErrText "strconv.ParseUint: invalid syntax")
      | Some d =>
          let acc' := (16 * acc + Z.of_nat d)%Z in
          if (acc' <=? u64_max)%Z then parseAux s' acc'
          else Err (ErrText "strconv.ParseUint: value out of range")
      end
  end.
Definition ParseUint16 (s : string) : outcome Z :=
  match s with
  | EmptyString => Err (ErrText "strconv.ParseUint: invalid syntax")
  | _ => parseAux s 0
  end.

(** strconv.FormatInt(n, 16) and strconv.ParseInt(s, 16, 64). *)
Definition FormatInt16 (n : Z) : string :=
  if (n <? 0)%Z then String "-" (FormatUint16 (- n)) else FormatUint16 n.
Definition ParseInt16 (s : string) : outcome Z :=
  let '(neg, s) := match s with
    | String "-" s' => (true, s')
    | String "+" s' => (false, s')
    | _ => (false, s)
    end in
  n ← ParseUint16 s;
  if neg then if (n <=? 2 ^ 63)%Z then Ok (- n)%Z else Err (ErrText "strconv.ParseInt: value out of range")
  else if (n <? 2 ^ 63)%Z then Ok n else Err (ErrText "strconv.ParseInt: value out of range").

(** ** Lemmas *)
Lemma fromHexChar_digit n : n < 16 -> fromHexChar (digit n) = Some n.
Proof. intros H. do 16 (destruct n as [|n]; [reflexivity|]). lia. Qed.

Lemma Encode_length s : String.length (EncodeToString s) = 2 * String.length s.
Proof. induction s as [|c s IH]; simpl; [done|]. lia. Qed.

Lemma Decode_Encode s : DecodeString (EncodeToString s) = Ok s.
Proof.
  induction s as [|c s IH]; [done|]. cbn [EncodeToString DecodeString].
  pose proof (nat_ascii_bounded c) as Hc.
  rewrite !fromHexChar_digit;
    [| apply Nat.mod_upper_bound; lia | apply Nat.Div0.div_lt_upper_bound; lia].
  rewrite IH. cbn [mbind outcome_bind].
  rewrite <- Nat.div_mod_eq. by rewrite ascii_nat_embedding.
Qed.

Lemma Decode_notCrash s : notCrash (DecodeString s).
Proof.
  enough (H : forall n s, String.length s <= n -> notCrash (DecodeString s)) by by apply (H (String.length s)).
  clear s. intros n. induction n as [|n IH]; intros [|c [|c' s]] Hs; simpl in *; try lia; solve_returns.
  apply IH. lia.
Qed.

Lemma Decode_length s b :
  DecodeString s = Ok b -> String.length s = 2 * String.length b.
Proof.
  revert b. induction s as [s IH] using (induction_ltof1 _ String.length).
  destruct s as [|a [|c s]]; intros b; simpl.
  - by intros [= <-].
  - done.
  - destruct (fromHexChar a), (fromHexChar c); try done.
    destruct (DecodeString s) as [r| |] eqn:E; try done.
    intros [= <-]. simpl. rewrite (IH s) with (b := r); [lia| |done].
    unfold ltof. simpl. lia.
Qed.

Lemma Encode_inj : Inj (=) (=) EncodeToString.
Proof.
  intros a b H. pose proof (Decode_Encode a) as Ha.
  rewrite H, Decode_Encode in Ha. by injection Ha.
Qed.

Lemma Encode_nonempty s : s <> EmptyString -> EncodeToString s <> EmptyString.
Proof. by destruct s. Qed.

Lemma format_parse fuel n acc :
  (0 <= n < 16 ^ Z.of_nat fuel)%Z -> (n <= u64_max)%Z ->
  forall r, parseAux acc n = Ok r -> parseAux (formatAux fuel n acc) 0 = Ok r.
Proof.
  revert n acc. induction fuel as [|fuel IH]; intros n acc Hn Hm r Hr.
  { change (16 ^ Z.of_nat 0)%Z with 1%Z in Hn. simpl.
    by replace n with 0%Z in Hr by lia. }
  assert (Hd : (n = 16 * (n / 16) + n mod 16)%Z) by (apply Z.div_mod; lia).
  pose proof (Z.mod_pos_bound n 16 ltac:(lia)) as Hb.
  assert (Hstep : forall a, a = (n / 16)%Z ->
    parseAux (String (digit (Z.to_nat (n mod 16))) acc) a = Ok r).
  { intros a ->. cbn [parseAux]. rewrite fromHexChar_digit by lia.
    rewrite Z2Nat.id by lia. cbv zeta. rewrite <- Hd.
    by rewrite (proj2 (Z.leb_le n u64_max)) by done. }
  cbn [formatAux]. destruct (Z.eqb_spec (n / 16) 0) as [E|E]; [by apply Hstep|].
  apply IH; [|lia|by apply Hstep].
  split; [apply Z.div_pos; lia|].
  apply Z.div_lt_upper_bound; [lia|].
  rewrite <- Z.pow_succ_r by lia. rewrite <- Nat2Z.inj_succ. lia.
Qed.

Lemma FormatUint16_nonempty n : FormatUint16 n <> EmptyString.
Proof.
  assert (H : forall f n a, (f <> 0 \/ a <> EmptyString) -> formatAux f n a <> EmptyString).
  { induction f as [|f IH]; intros m a Ha; simpl; [naive_solver|].
    case_match; [done|]. apply IH. by right. }
  apply H. by left.
Qed.

Lemma ParseUint16_Format n : isU64 n -> ParseUint16 (FormatUint16 n) = Ok n.
Proof.
  intros [H0 H1]. unfold ParseUint16.
  destruct (FormatUint16 n) eqn:E; [by apply FormatUint16_nonempty in E|].
  rewrite <- E. apply format_parse; [|unfold u64_max; lia|done].
  change (16 ^ Z.of_nat 16)%Z with (2 ^ 64)%Z. lia.
Qed.

(** What is written consists of digits. *)
Definition hexDigits (s : string) : Prop := Forall (fun c => is_Some (fromHexChar c)) (list_ascii_of_string s).

Lemma hexDigit_digit n : n < 16 -> is_Some (fromHexChar (digit n)).
Proof. intros H. rewrite fromHexChar_digit by done. by eexists. Qed.

Lemma hexDigits_Encode s : hexDigits (EncodeToString s).
Proof.
  unfold hexDigits. induction s as [|c s IH]; [constructor|]. cbn [EncodeToString list_ascii_of_string].
  pose proof (nat_ascii_bounded c). constructor; [apply hexDigit_digit, Nat.Div0.div_lt_upper_bound; lia|].
  constructor; [apply hexDigit_digit, Nat.mod_upper_bound; lia|exact IH].
Qed.

Lemma hexDigits_Format n : hexDigits (FormatUint16 n).
Proof.
  assert (H : forall f n a, hexDigits a -> hexDigits (formatAux f n a)).
  { induction f as [|f IH]; intros m a Ha; cbn [formatAux]; [done|].
    assert (hexDigits (String (digit (Z.to_nat (m mod 16))) a)).
    { constructor; [|done]. apply hexDigit_digit. pose proof (Z.mod_pos_bound m 16 ltac:(lia)). lia. }
    case_match; [done|]. by apply IH. }
  apply H. constructor.
Qed.

Lemma hexDigits_not c s : fromHexChar c = None -> hexDigits s -> c ∉ list_ascii_of_string s.
Proof. intros Hc Hs Hin. unfold hexDigits in Hs. rewrite Forall_forall in Hs. apply Hs in Hin as [? ?]. congruence. Qed.

Lemma ParseInt16_digits s : hexDigits s ->
  ParseInt16 s = (n ← ParseUint16 s; if (n <? 2 ^ 63)%Z then Ok n else Err (ErrText "strconv.ParseInt: value out of range")).
Proof.
  intros Hs. unfold ParseInt16. destruct s as [|c s]; [done|].
  assert (Hc : c <> "-"%char /\ c <> "+"%char).
  { inversion Hs as [|? ? Hd]. subst. split; intros ->; by destruct Hd as [? ?]. }
  destruct Hc as [H1 H2]. by destruct c as [[] [] [] [] [] [] [] []].
Qed.

Lemma ParseInt16_Format n : (0 <= n < 2 ^ 63)%Z -> ParseInt16 (FormatInt16 n) = Ok n.
Proof.
  intros Hn. unfold FormatInt16. rewrite (proj2 (Z.ltb_ge n 0)) by lia. rewrite ParseInt16_digits by apply hexDigits_Format.
  rewrite ParseUint16_Format by (unfold isU64; lia). cbn. by rewrite (proj2 (Z.ltb_lt n (2 ^ 63))) by lia.
Qed.
End Hex.

(** ** src/common/ids.go *)
Module ClientID.
Record t := Mk { id : string }.
#[global] Instance t_eq_dec : EqDecision t.
Proof. solve_decision. Defined.
#[global] Instance t_countable : Countable t.
Proof. apply (inj_countable' id Mk). by intros []. Defined.

Definition nil : t := Mk EmptyString.

Definition BytesToClientID (b : gobytes) : outcome t :=
  if decide (blen b = 0) then Ok nil
  else if decide (blen b <> 8) then Err (ErrText "ClientID must be 8 bytes")
  else Ok (Mk (contents b)).

Definition StringToClientID (s : string) : outcome t :=
  if String.eqb s "" || String.eqb s "nil" then Ok nil
  else if decide (String.length s <> 16) then Err (ErrText "ClientID must be 16 characters")
  else b ← Hex.DecodeString s; BytesToClientID (Some b).

(** x509.MarshalPKIXPublicKey is a parameter: the encoding of the key, or an
    error. *)
Definition MakeClientID `{Platform} {PublicKey}
    (MarshalPKIXPublicKey : PublicKey -> outcome string) (pk : PublicKey) : outcome t :=
  b ← MarshalPKIXPublicKey pk;
  BytesToClientID (Some (substring 0 8 (sha256 b))).

Definition IsNil (i : t) : bool := String.eqb (id i) "".

Definition String (i : t) : string :=
  if IsNil i then "nil" else Hex.EncodeToString (id i).

Definition Bytes (i : t) : gobytes :=
  if String.eqb (id i) "" then None else Some (id i).

(** The identifiers the constructors make: empty or 8 bytes. *)
Definition valid (i : t) : Prop :=
  String.length (id i) = 0 \/ String.length (id i) = 8.
End ClientID.

Module MessageID.
Record t := Mk { id : string }.
#[global] Instance t_eq_dec : EqDecision t.
Proof. solve_decision. Defined.
#[global] Instance t_countable : Countable t.
Proof. apply (inj_countable' id Mk). by intros []. Defined.

Definition nil : t := Mk EmptyString.
Definition IsNil (i : t) : bool := String.eqb (id i) "".

Definition BytesToMessageID (b : gobytes) : outcome t :=
  if decide (blen b = 0) then Ok nil
  else if decide (blen b <> 32) then Err (ErrText "MessageID must be 32 bytes")
  else Ok (Mk (contents b)).

(** The bytes that are hashed: client id, NUL, service name, NUL, origin id. *)
Definition originBytes (clientId : gobytes) (serviceName : string) (originID : gobytes) : string :=
  (contents clientId ++ String "000" "" ++ serviceName ++ String "000" ""
     ++ contents originID)%string.

Definition MakeMessageID `{Platform} (clientId : gobytes) (serviceName : string)
    (originID : gobytes) : t :=
  Mk (substring 0 32 (sha256 (originBytes clientId serviceName originID))).

Definition RandomMessageID `{Platform} {D} : M (World D) t :=
  b ← randBytes 32;
  match b with
  | None => fail (ErrText "rand.Read")
  | Some b => lift (BytesToMessageID (Some b))
  end.

Definition StringToMessageID (s : string) : outcome t :=
  if String.eqb s "" || String.eqb s "nil" then Ok nil
  else if decide (String.length s <> 64) then Err (ErrText "MessageID must be 64 characters")
  else b ← Hex.DecodeString s; BytesToMessageID (Some b).

Definition String (i : t) : string :=
  if String.eqb (id i) "" then "nil" else Hex.EncodeToString (id i).

Definition Bytes (i : t) : gobytes :=
  if IsNil i then None else Some (id i).

Definition valid (i : t) : Prop :=
  String.length (id i) = 0 \/ String.length (id i) = 32.
End MessageID.

(** ** src/server/ids/ids.go *)
Module BroadcastID.
Record t := Mk { id : string }.
#[global] Instance t_eq_dec : EqDecision t.
Proof. solve_decision. Defined.
#[global] Instance t_countable : Countable t.
Proof. apply (inj_countable' id Mk). by intros []. Defined.

Definition nil : t := Mk EmptyString.

Definition BytesToBroadcastID (b : gobytes) : outcome t :=
  if decide (blen b = 0) then Ok nil
  else if decide (blen b <> 8) then Err (ErrText "BroadcastID must be 8 bytes")
  else Ok (Mk (contents b)).

Definition RandomBroadcastID `{Platform} {D} : M (World D) t :=
  b ← randBytes 8;
  match b with
  | None => fail (ErrText "rand.Read")
  | Some b => mret (Mk b)
  end.

(** Unlike the other identifiers, "nil" and "" are refused. *)
Definition StringToBroadcastID (s : string) : outcome t :=
  if decide (String.length s <> 16) then Err (ErrText "BroadcastID must be 16 characters")
  else b ← Hex.DecodeString s; BytesToBroadcastID (Some b).

Definition String (i : t) : string :=
  if String.eqb (id i) "" then "nil" else Hex.EncodeToString (id i).

Definition Bytes (i : t) : gobytes :=
  if String.eqb (id i) "" then None else Some (id i).

Definition valid (i : t) : Prop := String.length (id i) = 8.
End BroadcastID.

Module AllocationID.
Record t := Mk { id : string }.
#[global] Instance t_eq_dec : EqDecision t.
Proof. solve_decision. Defined.
#[global] Instance t_countable : Countable t.
Proof. apply (inj_countable' id Mk). by intros []. Defined.

Definition nil : t := Mk EmptyString.

Definition RandomAllocationID `{Platform} {D} : M (World D) t :=
  b ← randBytes 8;
  match b with
  | None => fail (ErrText "rand.Read")
  | Some b => mret (Mk b)
  end.

Definition Bytes (i : t) : gobytes := Some (id i).
Definition String (i : t) : string := Hex.EncodeToString (id i).
End AllocationID.

(** ** Lemmas and properties *)
Lemma length_0_empty s : String.length s = 0 -> s = EmptyString.
Proof. by destruct s. Qed.

Lemma eqb_empty_false s : String.length s <> 0 -> String.eqb s "" = false.
Proof. destruct s; simpl; [lia|done]. Qed.

Lemma eqb_length_false s t : String.length s <> String.length t -> String.eqb s t = false.
Proof. intros H. apply String.eqb_neq. by intros ->. Qed.

(** The guards of the string parsers, on a string of the expected length. *)
Lemma not_nil_string s n :
  String.length s = n -> 4 <= n -> String.eqb s "" || String.eqb s "nil" = false.
Proof. intros <- H. rewrite !eqb_length_false; simpl; [done|lia|lia]. Qed.

Lemma substring_length n s : n <= String.length s -> String.length (substring 0 n s) = n.
Proof.
  revert s. induction n as [|n IH]; intros [|c s]; simpl; try lia.
  intros H. by rewrite IH by lia.
Qed.

Lemma substring_all s : substring 0 (String.length s) s = s.
Proof. induction s as [|c s IH]; simpl; [done|by rewrite IH]. Qed.

Lemma app_length_string s t : String.length (s ++ t)%string = String.length s + String.length t.
Proof. induction s as [|c s IH]; simpl; [done|by rewrite IH]. Qed.

Lemma string_app_inj_length s s' t t' :
  String.length s = String.length s' -> (s ++ t = s' ++ t')%string -> s = s' /\ t = t'.
Proof.
  revert s'. induction s as [|c s IH]; intros [|c' s'] Hl; simpl in *; try lia; [done|].
  intros [= -> H]. destruct (IH s') as [-> ->]; [lia|done|done].
Qed.

(** Whether a string contains the NUL byte. *)
Fixpoint hasNul (s : string) : bool :=
  match s with
  | EmptyString => false
  | String c s' => Ascii.eqb c "000" || hasNul s'
  end.

Lemma app_nul_inj s s' t t' :
  hasNul s = false -> hasNul s' = false ->
  (s ++ String "000" t = s' ++ String "000" t')%string -> s = s' /\ t = t'.
Proof.
  revert s'. induction s as [|c s IH]; intros [|c' s'] Hs Hs' H; simpl in *.
  - injection H as ->. done.
  - injection H as <- _. done.
  - injection H as -> _. done.
  - injection H as -> H. apply orb_false_elim in Hs as [_ Hs].
    apply orb_false_elim in Hs' as [_ Hs'].
    destruct (IH s') as [-> ->]; done.
Qed.

Lemma BytesToClientID_valid b i :
  ClientID.BytesToClientID b = Ok i -> ClientID.valid i.
Proof.
  unfold ClientID.BytesToClientID, ClientID.valid. repeat case_decide; try done.
  - intros [= <-]. by left.
  - intros [= <-]. right. unfold blen in *. simpl. lia.
Qed.

Lemma ClientID_String_length i :
  ClientID.valid i -> ClientID.IsNil i = false -> String.length (ClientID.String i) = 16.
Proof.
  intros [H|H]; unfold ClientID.String.
  - apply length_0_empty in H. destruct i; simpl in *. by subst.
  - intros ->. rewrite Hex.Encode_length. lia.
Qed.

(** What the parsers make of the text and the bytes of an identifier. *)
Lemma ClientID_String_read i :
  ClientID.valid i -> ClientID.StringToClientID (ClientID.String i) = Ok i.
Proof.
  destruct i as [s]. intros [H|H]; simpl in H; [by apply length_0_empty in H as ->|].
  unfold ClientID.StringToClientID, ClientID.String, ClientID.IsNil. simpl.
  rewrite (eqb_empty_false s) by lia.
  pose proof (Hex.Encode_length s) as Hl.
  rewrite (not_nil_string _ 16), decide_False, Hex.Decode_Encode by lia. simpl.
  unfold ClientID.BytesToClientID, blen. simpl. by rewrite H.
Qed.

Lemma ClientID_Bytes_read i :
  ClientID.valid i -> ClientID.BytesToClientID (ClientID.Bytes i) = Ok i.
Proof.
  destruct i as [s]. intros [H|H]; simpl in H; [by apply length_0_empty in H as ->|].
  unfold ClientID.BytesToClientID, ClientID.Bytes, blen. simpl.
  rewrite eqb_empty_false by lia. simpl. by rewrite H.
Qed.

Lemma ClientID_String_inj i j :
  ClientID.valid i -> ClientID.valid j -> ClientID.String i = ClientID.String j -> i = j.
Proof.
  intros Hi Hj E. pose proof (ClientID_String_read i Hi) as Hr.
  rewrite E, ClientID_String_read in Hr by done. by injection Hr.
Qed.

Lemma MessageID_String_read i :
  MessageID.valid i -> MessageID.StringToMessageID (MessageID.String i) = Ok i.
Proof.
  destruct i as [s]. intros [H|H]; simpl in H; [by apply length_0_empty in H as ->|].
  unfold MessageID.StringToMessageID, MessageID.String. simpl.
  rewrite (eqb_empty_false s) by lia.
  pose proof (Hex.Encode_length s) as Hl.
  rewrite (not_nil_string _ 64), decide_False, Hex.Decode_Encode by lia. simpl.
  unfold MessageID.BytesToMessageID, blen. simpl. by rewrite H.
Qed.

Lemma MessageID_Bytes_read i :
  MessageID.valid i -> MessageID.BytesToMessageID (MessageID.Bytes i) = Ok i.
Proof.
  destruct i as [s]. intros [H|H]; simpl in H; [by apply length_0_empty in H as ->|].
  unfold MessageID.BytesToMessageID, MessageID.Bytes, MessageID.IsNil, blen. simpl.
  rewrite eqb_empty_false by lia. simpl. by rewrite H.
Qed.

Lemma MessageID_String_inj i j :
  MessageID.valid i -> MessageID.valid j -> MessageID.String i = MessageID.String j -> i = j.
Proof.
  intros Hi Hj E. pose proof (MessageID_String_read i Hi) as Hr.
  rewrite E, MessageID_String_read in Hr by done. by injection Hr.
Qed.

Lemma BytesToMessageID_valid b i :
  MessageID.BytesToMessageID b = Ok i -> MessageID.valid i.
Proof.
  unfold MessageID.BytesToMessageID, MessageID.valid. repeat case_decide; try done.
  - intros [= <-]. by left.
  - intros [= <-]. right. unfold blen in *. simpl. lia.
Qed.

Lemma BroadcastID_String_read i :
  BroadcastID.valid i -> BroadcastID.StringToBroadcastID (BroadcastID.String i) = Ok i.
Proof.
  destruct i as [s]. unfold BroadcastID.valid. simpl. intros H.
  unfold BroadcastID.StringToBroadcastID, BroadcastID.String. simpl.
  rewrite (eqb_empty_false s) by lia.
  pose proof (Hex.Encode_length s) as Hl.
  rewrite decide_False, Hex.Decode_Encode by lia. simpl.
  unfold BroadcastID.BytesToBroadcastID, blen. simpl. by rewrite H.
Qed.

Lemma StringToBroadcastID_valid s i :
  BroadcastID.StringToBroadcastID s = Ok i -> BroadcastID.valid i.
Proof.
  unfold BroadcastID.StringToBroadcastID. case_decide as Hl; [done|].
  intros H. apply outcome_bind_Ok in H as (b & Hd & H).
  apply Hex.Decode_length in Hd. unfold BroadcastID.BytesToBroadcastID, blen in H.
  simpl in H. repeat case_decide; try done; [lia|]. by injection H as <-.
Qed.

(** The textual and binary forms of client and message ids round trip:
    whatever a constructor can make is read back unchanged from [String] and
    from [Bytes]. *)
Theorem ids_roundtrip (c : ClientID.t) (m : MessageID.t) (b : BroadcastID.t) :
  ClientID.valid c -> MessageID.valid m -> BroadcastID.valid b ->
  ClientID.StringToClientID (ClientID.String c) = Ok c /\
  ClientID.BytesToClientID (ClientID.Bytes c) = Ok c /\
  MessageID.StringToMessageID (MessageID.String m) = Ok m /\
  MessageID.BytesToMessageID (MessageID.Bytes m) = Ok m /\
  BroadcastID.StringToBroadcastID (BroadcastID.String b) = Ok b.
Proof.
  intros. repeat split; auto using ClientID_String_read, ClientID_Bytes_read,
    MessageID_String_read, MessageID_Bytes_read, BroadcastID_String_read.
Qed.

Definition exampleClientID : ClientID.t := ClientID.Mk (bytesOfNat 77 8).
Definition exampleMessageID : MessageID.t := MessageID.Mk (bytesOfNat 4242 32).
Definition exampleBroadcastID : BroadcastID.t := BroadcastID.Mk (bytesOfNat 99 8).

Lemma ids_roundtrip_witness :
  ClientID.StringToClientID (ClientID.String exampleClientID) = Ok exampleClientID /\
  MessageID.StringToMessageID (MessageID.String exampleMessageID) = Ok exampleMessageID.
Proof.
  destruct (ids_roundtrip exampleClientID exampleMessageID exampleBroadcastID)
    as (H1 & _ & H2 & _ & _); [by right | by right | done | by split].
Defined.

Lemma sha256_prefix `{P : Platform} s :
  PlatformOK P -> substring 0 32 (sha256 s) = sha256 s.
Proof. intros HP. rewrite <- (sha256_length s) at 1. apply substring_all. Qed.

Lemma ClientID_Bytes_contents c : contents (ClientID.Bytes c) = ClientID.id c.
Proof.
  destruct c as [c]. unfold ClientID.Bytes. simpl.
  destruct (String.eqb_spec c ""); by subst.
Qed.

(** What [MakeMessageID] hashes determines the origin: two origins with
    well-formed client ids and service names without NUL that are hashed to the
    same bytes are the same origin, so unless the hash collides on the two a
    message id belongs to one origin. *)
Theorem make_message_id_inj `{P : Platform} (c c' : ClientID.t) s s' o o' :
  (let x := MessageID.originBytes (ClientID.Bytes c) s o in
   let y := MessageID.originBytes (ClientID.Bytes c') s' o' in
   sha256 x = sha256 y -> x = y) ->
  PlatformOK P ->
  ClientID.valid c -> ClientID.valid c' -> ClientID.IsNil c = ClientID.IsNil c' ->
  hasNul s = false -> hasNul s' = false ->
  MessageID.MakeMessageID (ClientID.Bytes c) s o = MessageID.MakeMessageID (ClientID.Bytes c') s' o' ->
  c = c' /\ s = s' /\ contents o = contents o'.
Proof.
  cbv zeta. intros Hsha HP Hc Hc' Hn Hs Hs' [= H].
  rewrite !sha256_prefix in H by done. apply Hsha in H.
  unfold MessageID.originBytes in H. rewrite !ClientID_Bytes_contents in H.
  apply string_app_inj_length in H as [H1 H].
  - simpl in H. injection H as H. apply app_nul_inj in H as [-> H]; [|done..].
    destruct c, c'; simpl in *; by subst.
  - destruct c as [[]], c' as [[]], Hc as [Hc|Hc], Hc' as [Hc'|Hc'];
      unfold ClientID.IsNil in Hn; simpl in *; congruence.
Qed.

Lemma make_message_id_inj_witness :
  MessageID.MakeMessageID (ClientID.Bytes exampleClientID) "grr" (Some "m1"%string)
    = MessageID.MakeMessageID (ClientID.Bytes exampleClientID) "grr" (Some "m1"%string) /\
  exampleClientID = exampleClientID /\ "grr"%string = "grr"%string /\
  contents (Some "m1"%string) = contents (Some "m1"%string).
Proof.
  split; [reflexivity|].
  apply (make_message_id_inj exampleClientID exampleClientID "grr" "grr"
           (Some "m1"%string) (Some "m1"%string));
    [reflexivity | apply TestPlatformOK | by right | by right | reflexivity..].
Defined.
