(* ===== verification/Proto.v ===== *)
(** * Messages and the other protocol buffers the server handles

    The records of src/common/proto/fleetspeak/common.proto and the parts of
    the protobuf runtime the code calls, which are a parameter ([ProtoLib])
    with the facts relied on in [ProtoLibOK].  A [[]byte] field whose nil-ness
    the code tests is a [gobytes]. *)
From Stdlib Require Import SpecFloat.
From S2P Require Import Prelude.

Module Timestamp.
Record t := Mk { Seconds : Z; Nanos : Z }.
#[global] Instance t_eq_dec : EqDecision t.
Proof. solve_decision. Defined.
End Timestamp.

Module Any.
Record t := Mk { TypeUrl : string; Value : gobytes }.
#[global] Instance t_eq_dec : EqDecision t.
Proof. solve_decision. Defined.
End Any.

Module Address.
Record t := Mk { ClientId : gobytes; ServiceName : string }.
#[global] Instance t_eq_dec : EqDecision t.
Proof. solve_decision. Defined.
End Address.

Module Label.
Record t := Mk { ServiceName : string; Label : string }.
#[global] Instance t_eq_dec : EqDecision t.
Proof. solve_decision. Defined.
#[global] Instance t_countable : Countable t.
Proof.
  apply (inj_countable' (fun l => (ServiceName l, Label l)) (fun p => Mk p.1 p.2)).
  by intros [].
Defined.
End Label.

Module ValidationInfo.
Record t := Mk { Tags : gmap string string }.
#[global] Instance t_eq_dec : EqDecision t.
Proof.
  intros [a] [b]. destruct (decide (a = b)); [left | right]; congruence.
Defined.
End ValidationInfo.

Module Annotations.
Record t := Mk { Entries : list (string * string) }.
#[global] Instance t_eq_dec : EqDecision t.
Proof. solve_decision. Defined.
End Annotations.

Module MessageResult.
Record t := Mk {
  ProcessedTime : option Timestamp.t;
  Failed : bool;
  FailedReason : string;
}.
#[global] Instance t_eq_dec : EqDecision t.
Proof. solve_decision. Defined.
End MessageResult.

Module Message.
(** The enum is open: the wire can carry any number. *)
Inductive Priority := MEDIUM | LOW | HIGH | UnknownPriority (n : Z).
#[global] Instance Priority_eq_dec : EqDecision Priority.
Proof. solve_decision. Defined.

Record t := Mk {
  MessageId : gobytes;
  Source : option Address.t;
  IsBlocklistedSource : bool;
  SourceMessageId : gobytes;
  Destination : option Address.t;
  MessageType : string;
  CreationTime : option Timestamp.t;
  Data : option Any.t;
  ValidationInfo : option ValidationInfo.t;
  Result : option MessageResult.t;
  priority : Priority;
  Background : bool;
  Annotations : option Annotations.t;
}.
#[global] Instance t_eq_dec : EqDecision t.
Proof. solve_decision. Defined.

(** Assignments to single fields. *)
Definition setMessageId v m :=
  Mk v (Source m) (IsBlocklistedSource m) (SourceMessageId m) (Destination m)
    (MessageType m) (CreationTime m) (Data m) (ValidationInfo m) (Result m)
    (priority m) (Background m) (Annotations m).
Definition setSource v m :=
  Mk (MessageId m) v (IsBlocklistedSource m) (SourceMessageId m) (Destination m)
    (MessageType m) (CreationTime m) (Data m) (ValidationInfo m) (Result m)
    (priority m) (Background m) (Annotations m).
Definition setIsBlocklistedSource v m :=
  Mk (MessageId m) (Source m) v (SourceMessageId m) (Destination m)
    (MessageType m) (CreationTime m) (Data m) (ValidationInfo m) (Result m)
    (priority m) (Background m) (Annotations m).
Definition setCreationTime v m :=
  Mk (MessageId m) (Source m) (IsBlocklistedSource m) (SourceMessageId m) (Destination m)
    (MessageType m) v (Data m) (ValidationInfo m) (Result m)
    (priority m) (Background m) (Annotations m).
Definition setData v m :=
  Mk (MessageId m) (Source m) (IsBlocklistedSource m) (SourceMessageId m) (Destination m)
    (MessageType m) (CreationTime m) v (ValidationInfo m) (Result m)
    (priority m) (Background m) (Annotations m).
Definition setValidationInfo v m :=
  Mk (MessageId m) (Source m) (IsBlocklistedSource m) (SourceMessageId m) (Destination m)
    (MessageType m) (CreationTime m) (Data m) v (Result m)
    (priority m) (Background m) (Annotations m).
Definition setResult v m :=
  Mk (MessageId m) (Source m) (IsBlocklistedSource m) (SourceMessageId m) (Destination m)
    (MessageType m) (CreationTime m) (Data m) (ValidationInfo m) v
    (priority m) (Background m) (Annotations m).

(** A message with all fields at their zero value. *)
Definition zero : t :=
  Mk None None false None None "" None None None None MEDIUM false None.
End Message.

(** The server's spb.Broadcast (src/server/proto/fleetspeak_server/broadcasts.proto). *)
Module Broadcast.
Record t := Mk {
  BroadcastId : gobytes;
  Source : option Address.t;
  MessageType : string;
  RequiredLabels : list Label.t;
  ExpirationTime : option Timestamp.t;
  Data : option Any.t;
  Destination : option Address.t;
  GroupName : string;
}.
End Broadcast.

(** The server's spb.Client and spb.ClientContact (admin.proto) and
    spb.ClientResourceUsageRecord (resource.proto). *)
Module Client.
Record t := Mk {
  ClientId : gobytes;
  Labels : list Label.t;
  LastContactTime : Timestamp.t;
  LastContactAddress : string;
  LastContactStreamingTo : string;
  LastClock : option Timestamp.t;
  Blacklisted : bool;
}.
End Client.

Module ClientContact.
Record t := Mk {
  SentNonce : Z;
  ReceivedNonce : Z;
  ObservedAddress : string;
  Timestamp : Timestamp.t;
}.
End ClientContact.

Module ClientResourceUsageRecord.
Record t := Mk {
  Scope : string;
  Pid : Z;
  ProcessStartTime : option Timestamp.t;
  ClientTimestamp : option Timestamp.t;
  ServerTimestamp : option Timestamp.t;
  ProcessTerminated : bool;
  MeanUserCpuRate : spec_float;
  MaxUserCpuRate : spec_float;
  MeanSystemCpuRate : spec_float;
  MaxSystemCpuRate : spec_float;
  MeanResidentMemoryMib : Z;
  MaxResidentMemoryMib : Z;
  MeanNumFds : Z;
  MaxNumFds : Z;
}.
End ClientResourceUsageRecord.

(** mpb.AggregatedResourceUsage and mpb.ResourceUsageData
    (src/common/proto/fleetspeak_monitoring/resource.proto). *)
Module AggregatedResourceUsage.
Record t := Mk {
  MeanUserCpuRate : spec_float;
  MaxUserCpuRate : spec_float;
  MeanSystemCpuRate : spec_float;
  MaxSystemCpuRate : spec_float;
  MeanResidentMemory : spec_float;
  MaxResidentMemory : Z;
  MaxNumFds : Z;
  MeanNumFds : spec_float;
}.
End AggregatedResourceUsage.

Module ResourceUsageData.
Record t := Mk {
  Scope : string;
  Pid : Z;
  ProcessStartTime : option Timestamp.t;
  DataTimestamp : option Timestamp.t;
  ResourceUsage : option AggregatedResourceUsage.t;
  ProcessTerminated : bool;
}.
End ResourceUsageData.

(** What clients send in one contact. *)
Module ContactData.
Record t := Mk {
  SequencingNonce : Z;
  Messages : list Message.t;
  ClientClock : option Timestamp.t;
  AllowedMessages : gmap string Z;
}.
End ContactData.

Module WrappedContactData.
Record t {Signature : Type} := Mk {
  ContactData : string;
  Signatures : list Signature;
  ClientLabels : list string;
}.
Arguments t : clear implicits.
End WrappedContactData.

(** ** The protobuf runtime *)
Class ProtoLib := {
  marshalValidationInfo : ValidationInfo.t -> outcome string;
  unmarshalValidationInfo : string -> outcome ValidationInfo.t;
  marshalAnnotations : Annotations.t -> outcome string;
  unmarshalAnnotations : string -> outcome Annotations.t;
  unmarshalContactData : string -> outcome ContactData.t;
  (** timestamppb.New, AsTime, CheckValid; times are nanoseconds since 1970. *)
  tspbNew : Z -> Timestamp.t;
  tspbAsTime : Timestamp.t -> Z;
  tspbCheckValid : Timestamp.t -> option goerror;
}.

Class ProtoLibOK (L : ProtoLib) : Prop := {
  validationInfo_roundtrip v b :
    marshalValidationInfo v = Ok b -> unmarshalValidationInfo b = Ok v;
  annotations_roundtrip a b :
    marshalAnnotations a = Ok b -> unmarshalAnnotations b = Ok a;
  tspb_roundtrip t : tspbAsTime (tspbNew t) = t;
  tspb_valid t : (- 2 ^ 63 <= t < 2 ^ 63)%Z -> tspbCheckValid (tspbNew t) = None;
}.

(** A concrete runtime: maps without tags and lists without entries are
    encoded as one byte, everything else is refused. *)
#[export] Instance TestProtoLib : ProtoLib := {|
  marshalValidationInfo v :=
    if decide (v = ValidationInfo.Mk ∅) then Ok "0"%string
    else Err (ErrText "proto: unsupported");
  unmarshalValidationInfo s := Ok (ValidationInfo.Mk ∅);
  marshalAnnotations a :=
    if decide (a = Annotations.Mk []) then Ok "0"%string
    else Err (ErrText "proto: unsupported");
  unmarshalAnnotations s := Ok (Annotations.Mk []);
  unmarshalContactData s := Ok (ContactData.Mk 1 [] None ∅);
  tspbNew t := Timestamp.Mk (t / 1000000000) (t mod 1000000000);
  tspbAsTime ts :=
    (Timestamp.Seconds ts * 1000000000 + Timestamp.Nanos ts)%Z;
  tspbCheckValid ts :=
    if ((0 <=? Timestamp.Nanos ts) && (Timestamp.Nanos ts <? 1000000000))%Z then None
    else Some (ErrText "timestamp has out-of-range nanos");
|}.

#[export] Instance TestProtoLibOK : ProtoLibOK TestProtoLib.
Proof.
  split; simpl.
  - intros v b. case_decide; [by intros _; subst | done].
  - intros v b. case_decide; [by intros _; subst | done].
  - intros t. pose proof (Z.div_mod t 1000000000 ltac:(lia)). lia.
  - intros t _. pose proof (Z.mod_pos_bound t 1000000000 ltac:(lia)).
    destruct (Z.leb_spec 0 (t mod 1000000000)); [|lia].
    by destruct (Z.ltb_spec (t mod 1000000000) 1000000000); [|lia].
Qed.
