(* ===== verification/Db.v ===== *)
(** * The persistence layer's shared vocabulary

    src/server/db/store.go (client data, contact data, broadcast allocation
    arithmetic, label comparison), src/server/db/time.go and
    src/server/internal/ftime. *)
From Stdlib Require Import SpecFloat.
From S2P Require Import Prelude Platform Ids Proto.

(** ** Time *)
Definition Second : Z := 1000000000.
Definition Minute : Z := 60 * Second.

(** The zero [time.Time], 1 January of year 1, in nanoseconds since 1970. *)
Definition zeroTime : Z := -62135596800 * Second.
Definition IsZero (t : Z) : bool := (t =? zeroTime)%Z.

(** [time.Time.UnixNano] is an [int64]. *)
Definition UnixNano (t : Z) : Z := wrapI64 t.

Section Time.
Context `{P : Platform} `{L : ProtoLib} {D : Type}.

Definition NowProto : M (World D) Timestamp.t :=
  t ← now;
  let n := tspbNew t in
  match tspbCheckValid n with
  | None => mret n
  | Some _ => crash "Unable to convert Now() to a protocol buffer"
  end.

Definition ClientRetryTime : M (World D) Z :=
  t ← now; mret (t + 15 * Minute)%Z.

(** [serverRetryDelay] is the [time.Duration] of the jittered backoff
    [Minute * 1.1^retryCount * (1 + rand)]. *)
Definition ServerRetryTime (retryCount : Z) : M (World D) Z :=
  d ← interact (fun n => Ok (serverRetryDelay n retryCount));
  t ← now;
  mret (t + d)%Z.

Lemma preserves_NowProto I : preserves (onData I) NowProto.
Proof. unfold NowProto. solve_preserves. Qed.
Lemma NowProto_data (w : World D) r w' : NowProto w = (Ok r, w') -> w_data w' = w_data w.
Proof.
  unfold NowProto, mbind, M_bind, now, interact. cbn.
  destruct (tspbCheckValid _); intros E; by inversion E.
Qed.

Lemma preserves_ClientRetryTime I : preserves (onData I) ClientRetryTime.
Proof. unfold ClientRetryTime. solve_preserves. Qed.
Lemma preserves_ServerRetryTime I n : preserves (onData I) (ServerRetryTime n).
Proof. unfold ServerRetryTime. solve_preserves. Qed.
End Time.
#[export] Hint Resolve preserves_NowProto preserves_ClientRetryTime
  preserves_ServerRetryTime : preserves.

(** ** Clients *)
Module ClientData.
Record t := Mk {
  Key : gobytes;
  Labels : list Label.t;
  Blacklisted : bool;
}.

(** [append(nil, d.Key...)] of no bytes is nil. *)
Definition Clone (d : t) : t :=
  Mk (if decide (blen (Key d) = 0) then None else Some (contents (Key d)))
     (Labels d) (Blacklisted d).
End ClientData.

Abbreviation ContactID := string (only parsing).

Module DbContactData.
Record t := Mk {
  ClientID : ClientID.t;
  NonceSent : Z;
  NonceReceived : Z;
  Addr : string;
  ClientClock : option Timestamp.t;
  StreamingTo : string;
  Labels : list Label.t;
}.
End DbContactData.

(** ** Broadcasts *)
Definition BroadcastDisabled : Z := 0.
Definition BroadcastUnlimited : Z := i64_max.

Module BroadcastInfo.
Record t := Mk { Broadcast : Broadcast.t; Sent : Z; Limit : Z }.
End BroadcastInfo.

Module AllocationInfo.
Record t := Mk { ID : AllocationID.t; Limit : Z; Expiry : Z }.
End AllocationInfo.

(** *** float32

    IEEE binary32 is [SpecFloat] with 24 bits of precision.  Converting to
    [uint64] truncates; what Go does with a value that does not fit depends on
    the machine and is a parameter. *)
Definition uint64ToFloat32 (z : Z) : spec_float := binary_normalize 24 128 z 0 false.
Definition mulFloat32 (x y : spec_float) : spec_float := SFmul 24 128 x y.

Definition truncFloat (f : spec_float) : option Z :=
  match f with
  | S754_zero _ => Some 0%Z
  | S754_finite s m e =>
      let z := if (0 <=? e)%Z then Z.shiftl (Zpos m) e else Z.shiftr (Zpos m) (- e) in
      Some (if s then (- z)%Z else z)
  | _ => None
  end.

Class FloatConv := {
  outOfRangeU64 : spec_float -> Z;
  outOfRangeI32 : spec_float -> Z;
  (** database/sql's Scan of a REAL column into a [*float32]. *)
  scanFloat32 : spec_float -> outcome spec_float;
}.
Class FloatConvOK (F : FloatConv) : Prop := {
  outOfRangeU64_range (f : spec_float) : isU64 (outOfRangeU64 f)
}.
(** amd64 yields 2^63. *)
#[export] Instance TestFloatConv : FloatConv := {|
  outOfRangeU64 _ := (2 ^ 63)%Z;
  outOfRangeI32 _ := (- 2 ^ 31)%Z;
  scanFloat32 f := Ok f;
|}.
#[export] Instance TestFloatConvOK : FloatConvOK TestFloatConv.
Proof. split. intros f. by split. Qed.

Definition float32ToUint64 `{FloatConv} (f : spec_float) : Z :=
  match truncFloat f with
  | Some z => if ((0 <=? z) && (z <=? u64_max))%Z then z else outOfRangeU64 f
  | None => outOfRangeU64 f
  end.

(** *** float64 *)
Definition int64ToFloat64 (z : Z) : spec_float := binary_normalize 53 1024 z 0 false.
Definition mulFloat64 (x y : spec_float) : spec_float := SFmul 53 1024 x y.

Definition float64ToInt32 `{FloatConv} (f : spec_float) : Z :=
  match truncFloat f with
  | Some z => if ((- 2 ^ 31 <=? z) && (z <? 2 ^ 31))%Z then z else outOfRangeI32 f
  | None => outOfRangeI32 f
  end.

(** (toAllocate, newAllocated). *)
Definition ComputeBroadcastAllocation `{FloatConv}
    (messageLimit allocated sent : Z) (frac : spec_float) : Z * Z :=
  if (messageLimit =? BroadcastUnlimited)%Z then (BroadcastUnlimited, allocated)
  else
    let a := if (allocated <? sent)%Z then sent else allocated in
    if (messageLimit <? a)%Z then (0%Z, allocated)
    else
      let left := wrapU64 (messageLimit - a) in
      let toAllocate := float32ToUint64 (mulFloat32 (uint64ToFloat32 left) frac) in
      let toAllocate := if (toAllocate =? 0)%Z then 1%Z else toAllocate in
      let toAllocate := if (left <? toAllocate)%Z then left else toAllocate in
      (toAllocate, wrapU64 (toAllocate + allocated)).

Definition ComputeBroadcastAllocationCleanup (allocationLimit allocated : Z) : outcome Z :=
  if (allocationLimit =? BroadcastUnlimited)%Z then Ok allocated
  else if (allocated <? allocationLimit)%Z then
    Err (ErrText "allocationLimit is larger than allocated")
  else Ok (wrapU64 (allocated - allocationLimit)).

(** Labels as a set, but of lists of the same length. *)
Definition LabelsEqual (l1 l2 : list Label.t) : bool :=
  if decide (length l1 <> length l2) then false
  else bool_decide (list_to_set l1 =@{gset Label.t} list_to_set l2).

(** ** Properties of the allocation arithmetic *)
Lemma float32ToUint64_range `{F : FloatConv} f : FloatConvOK F -> isU64 (float32ToUint64 f).
Proof.
  intros HF. unfold float32ToUint64.
  destruct (truncFloat f) as [z|]; [|apply HF].
  destruct (Z.leb_spec 0 z); [|apply HF].
  destruct (Z.leb_spec z u64_max); [|apply HF].
  unfold isU64, u64_max in *. simpl. lia.
Qed.

Section Allocation.
Context `{F : FloatConv} {HF : FloatConvOK F}.
Context (limit allocated sent : Z) (frac : spec_float).
Context (Hl : isU64 limit) (Ha : isU64 allocated) (Hs : isU64 sent).

(** The four ways the computation ends. *)
Lemma ComputeBroadcastAllocation_cases :
  let '(k, new) := ComputeBroadcastAllocation limit allocated sent frac in
  (limit = BroadcastUnlimited /\ k = BroadcastUnlimited /\ new = allocated) \/
  (limit <> BroadcastUnlimited /\ limit < Z.max allocated sent /\ k = 0 /\ new = allocated)%Z \/
  (limit <> BroadcastUnlimited /\ limit = Z.max allocated sent /\ k = 0 /\ new = allocated)%Z \/
  (limit <> BroadcastUnlimited /\ Z.max allocated sent < limit /\
   1 <= k <= limit - Z.max allocated sent /\ new = allocated + k)%Z.
Proof using HF Hl Ha Hs.
  unfold ComputeBroadcastAllocation, isU64 in *.
  destruct (Z.eqb_spec limit BroadcastUnlimited) as [->|Hu]; [by left|].
  replace (if (allocated <? sent)%Z then sent else allocated) with (Z.max allocated sent)
    by (destruct (Z.ltb_spec allocated sent); lia).
  destruct (Z.ltb_spec limit (Z.max allocated sent)); [right; left; lia|].
  rewrite (wrapU64_small (limit - _)) by (unfold isU64; lia).
  set (f := float32ToUint64 _).
  assert (Hf : isU64 f) by (by apply float32ToUint64_range).
  unfold isU64 in Hf.
  destruct (Z.eqb_spec f 0);
    match goal with |- context [(?x <? ?y)%Z] => destruct (Z.ltb_spec x y) end;
    rewrite wrapU64_small by (unfold isU64; lia); lia.
Qed.
End Allocation.

(** An allocation takes at least one message when any is left, never more
    than what is left beside the messages already allocated and already sent,
    and the new total neither overflows nor exceeds the limit. *)
Theorem compute_broadcast_allocation_bounds `{F : FloatConv} limit allocated sent frac :
  FloatConvOK F -> isU64 limit -> isU64 allocated -> isU64 sent ->
  limit <> BroadcastUnlimited ->
  let '(k, new) := ComputeBroadcastAllocation limit allocated sent frac in
  (k = 0 <-> limit <= Z.max allocated sent)%Z /\
  (sent + k <= Z.max limit sent)%Z /\ new = (allocated + k)%Z /\
  (new <= Z.max limit allocated)%Z.
Proof.
  intros HF Hl Ha Hs Hu.
  pose proof (ComputeBroadcastAllocation_cases limit allocated sent frac Hl Ha Hs) as H.
  destruct (ComputeBroadcastAllocation _ _ _ _) as [k new]. lia.
Qed.

(** float32(0.2), the fraction src/server/internal/broadcasts uses. *)
Definition allocFrac : spec_float := S754_finite false 13421773 (-26).

Example allocate_fifth : ComputeBroadcastAllocation 100 10 0 allocFrac = (18, 28)%Z.
Proof. reflexivity. Qed.

Lemma compute_broadcast_allocation_bounds_witness :
  ComputeBroadcastAllocation 100 10 0 allocFrac = (18, 28)%Z /\ (28 <= Z.max 100 10)%Z.
Proof.
  split; [reflexivity|].
  pose proof (compute_broadcast_allocation_bounds 100 10 0 allocFrac) as H.
  apply H; [apply TestFloatConvOK | by split | by split | by split | done].
Defined.

(** [LabelsEqual] is the comparison of the label sets of equally long
    lists: it is reflexive and symmetric, transitive, blind to order, and true
    only of lists with the same members. *)
Theorem labels_equal_spec l1 l2 l3 :
  LabelsEqual l1 l1 = true /\
  LabelsEqual l1 l2 = LabelsEqual l2 l1 /\
  (l1 ≡ₚ l2 -> LabelsEqual l1 l2 = true) /\
  (LabelsEqual l1 l2 = true -> length l1 = length l2 /\ forall l, l ∈ l1 <-> l ∈ l2) /\
  (LabelsEqual l1 l2 = true -> LabelsEqual l2 l3 = true -> LabelsEqual l1 l3 = true).
Proof.
  assert (H : forall a b, LabelsEqual a b = true <->
            length a = length b /\ list_to_set a =@{gset Label.t} list_to_set b).
  { intros a b. unfold LabelsEqual. case_decide; [naive_solver|].
    rewrite bool_decide_eq_true. naive_solver lia. }
  split; [by apply H|]. split.
  { apply eq_true_iff_eq. rewrite !H. naive_solver. }
  split; [intros Hp; apply H; split; [by apply Permutation_length|by rewrite Hp]|].
  split.
  - intros [Hl Hm]%H. split; [done|]. intros l.
    rewrite <- !(elem_of_list_to_set (C := gset Label.t)), Hm. done.
  - rewrite !H. intros [] []. split; congruence.
Qed.
