(* ===== verification/Sqlite.v ===== *)
(** * The sqlite datastore: schema and transactions

    src/server/sqlite/sqlite.go.  A table is a map from its primary key, or the
    set of its rows when all columns are in the key; nullable columns are
    options.  Foreign keys are checked by the statements that insert, on a
    connection on which they are turned on.  [runInTx] is where every
    operation's atomicity comes from: each is one transaction, or one
    statement, and sqlite executes transactions as if one after the other, so
    that it is one step of the state, with the mutex [Datastore.l] or, as
    DeletePendingMessages, without. *)
From Stdlib Require Import SpecFloat.
From S2P Require Import Prelude Platform Proto.

(** ** Rows (initSchema) *)
Record clientRow := mkClientRow {
  client_key : gobytes;
  blacklisted : bool;
  last_contact_time : Z;
  last_contact_address : option string;
  last_contact_streaming_to : option string;
  last_clock_seconds : option Z;
  last_clock_nanos : option Z;
}.

Record contactRow := mkContactRow {
  cc_client_id : string;
  cc_time : Z;
  cc_sent_nonce : string;
  cc_received_nonce : string;
  cc_address : option string;
}.

Record usageRow := mkUsageRow {
  u_client_id : string;
  u_scope : string;
  u_pid : Z;
  u_process_start_time : Z;
  u_client_timestamp : Z;
  u_server_timestamp : Z;
  u_process_terminated : bool;
  u_mean_user_cpu_rate : spec_float;
  u_max_user_cpu_rate : spec_float;
  u_mean_system_cpu_rate : spec_float;
  u_max_system_cpu_rate : spec_float;
  u_mean_resident_memory_mib : Z;
  u_max_resident_memory_mib : Z;
  u_mean_num_fds : Z;
  u_max_num_fds : Z;
}.

Record messageRow := mkMessageRow {
  messageID : string;
  sourceClientID : string;
  sourceServiceName : string;
  sourceMessageID : string;
  destinationClientID : string;
  destinationServiceName : string;
  messageType : string;
  creationTimeSeconds : Z;
  creationTimeNanos : Z;
  processedTimeSeconds : option Z;
  processedTimeNanos : option Z;
  validationInfo : gobytes;
  failed : option bool;
  failedReason : option string;
  annotations : gobytes;
}.

Record pendingRow := mkPendingRow {
  retry_count : Z;
  scheduled_time : Z;
  data_type_url : option string;
  data_value : gobytes;
}.

Record broadcastRow := mkBroadcastRow {
  b_sourceServiceName : string;
  b_destinationServiceName : option string;
  b_messageType : string;
  b_expirationTimeSeconds : option Z;
  b_expirationTimeNanos : option Z;
  b_dataTypeURL : option string;
  b_dataValue : gobytes;
  b_sent : Z;
  b_allocated : Z;
  b_messageLimit : Z;
}.

Record allocationRow := mkAllocationRow {
  a_sent : Z;
  a_message_limit : Z;
  a_expiration_time_seconds : Z;
  a_expiration_time_nanos : Z;
}.

(** ** The database *)
Record Db := mkDb {
  clients : gmap string clientRow;
  client_labels : gset (string * string * string);
  client_contacts : gmap Z contactRow;
  messages : gmap string messageRow;
  pending_messages : gmap string pendingRow;
  client_contact_messages : gset (Z * string);
  broadcasts : gmap string broadcastRow;
  broadcast_labels : gset (string * string * string);
  broadcast_allocations : gmap (string * string) allocationRow;
  broadcast_sent : gset (string * string);
  files : gmap (string * string) (Z * gobytes);
  usage_records : list usageRow;
}.

(** What [initSchema] creates in an empty file. *)
Definition emptyDb : Db := mkDb ∅ ∅ ∅ ∅ ∅ ∅ ∅ ∅ ∅ ∅ ∅ [].

Definition setClients v d :=
  mkDb v (client_labels d) (client_contacts d) (messages d) (pending_messages d)
    (client_contact_messages d) (broadcasts d) (broadcast_labels d)
    (broadcast_allocations d) (broadcast_sent d) (files d) (usage_records d).
Definition setClientLabels v d :=
  mkDb (clients d) v (client_contacts d) (messages d) (pending_messages d)
    (client_contact_messages d) (broadcasts d) (broadcast_labels d)
    (broadcast_allocations d) (broadcast_sent d) (files d) (usage_records d).
Definition setClientContacts v d :=
  mkDb (clients d) (client_labels d) v (messages d) (pending_messages d)
    (client_contact_messages d) (broadcasts d) (broadcast_labels d)
    (broadcast_allocations d) (broadcast_sent d) (files d) (usage_records d).
Definition setMessages v d :=
  mkDb (clients d) (client_labels d) (client_contacts d) v (pending_messages d)
    (client_contact_messages d) (broadcasts d) (broadcast_labels d)
    (broadcast_allocations d) (broadcast_sent d) (files d) (usage_records d).
Definition setPending v d :=
  mkDb (clients d) (client_labels d) (client_contacts d) (messages d) v
    (client_contact_messages d) (broadcasts d) (broadcast_labels d)
    (broadcast_allocations d) (broadcast_sent d) (files d) (usage_records d).
Definition setContactMessages v d :=
  mkDb (clients d) (client_labels d) (client_contacts d) (messages d) (pending_messages d)
    v (broadcasts d) (broadcast_labels d)
    (broadcast_allocations d) (broadcast_sent d) (files d) (usage_records d).
Definition setBroadcasts v d :=
  mkDb (clients d) (client_labels d) (client_contacts d) (messages d) (pending_messages d)
    (client_contact_messages d) v (broadcast_labels d)
    (broadcast_allocations d) (broadcast_sent d) (files d) (usage_records d).
Definition setBroadcastLabels v d :=
  mkDb (clients d) (client_labels d) (client_contacts d) (messages d) (pending_messages d)
    (client_contact_messages d) (broadcasts d) v
    (broadcast_allocations d) (broadcast_sent d) (files d) (usage_records d).
Definition setAllocations v d :=
  mkDb (clients d) (client_labels d) (client_contacts d) (messages d) (pending_messages d)
    (client_contact_messages d) (broadcasts d) (broadcast_labels d)
    v (broadcast_sent d) (files d) (usage_records d).
Definition setBroadcastSent v d :=
  mkDb (clients d) (client_labels d) (client_contacts d) (messages d) (pending_messages d)
    (client_contact_messages d) (broadcasts d) (broadcast_labels d)
    (broadcast_allocations d) v (files d) (usage_records d).
Definition setFiles v d :=
  mkDb (clients d) (client_labels d) (client_contacts d) (messages d) (pending_messages d)
    (client_contact_messages d) (broadcasts d) (broadcast_labels d)
    (broadcast_allocations d) (broadcast_sent d) v (usage_records d).
Definition setUsage v d :=
  mkDb (clients d) (client_labels d) (client_contacts d) (messages d) (pending_messages d)
    (client_contact_messages d) (broadcasts d) (broadcast_labels d)
    (broadcast_allocations d) (broadcast_sent d) (files d) v.

(** database/sql refuses a [uint64] argument with the high bit set. *)
Definition argUint64 (z : Z) : outcome unit :=
  if (z <=? i64_max)%Z then Ok tt else Err ErrSqlArg.

(** A constraint of the schema. *)
Definition constraint (ok : bool) (what : string) : outcome unit :=
  if ok then Ok tt else Err (ErrConstraint what).

(** Whether the connection of the pool that a transaction was given checks
    foreign keys.  sqlite has them off on a new connection; [initDB] turns them
    on, on the one connection it is given. *)
Class Connection := foreignKeys : bool.
#[export] Instance initialised : Connection | 10 := true.

Definition foreignKey `{C : Connection} (ok : bool) : outcome unit :=
  if foreignKeys then constraint ok "FOREIGN KEY" else Ok tt.

Class Enforcing (C : Connection) := enforcing : C = true.
#[export] Instance initialised_enforcing : Enforcing initialised := eq_refl.

Abbreviation Sql A := (M (World Db) A).

Section Tx.
Context `{P : Platform}.

(** [Begin] and [Commit] may fail; anything but a successful commit leaves
    the tables as [Begin] found them. *)
Definition runInTx {A} (f : Sql A) : Sql A := fun w =>
  match sqlFault (w_step w) with
  | Some e => (Err (ErrIO e), mkWorld (w_data w) (S (w_step w)))
  | None =>
      match f (mkWorld (w_data w) (S (w_step w))) with
      | (Ok a, w') =>
          match sqlFault (w_step w') with
          | Some e => (Err (ErrIO e), mkWorld (w_data w) (S (w_step w')))
          | None => (Ok a, mkWorld (w_data w') (S (w_step w')))
          end
      | (Err e, w') => (Err e, mkWorld (w_data w) (w_step w'))
      | (Crash c, w') => (Crash c, mkWorld (w_data w) (w_step w'))
      end
  end.

Definition IsNotFound (e : goerror) : bool := bool_decide (e = ErrNoRows).

(** *** Lemmas *)
Lemma runInTx_Ok {A} (f : Sql A) a w w' :
  runInTx f w = (Ok a, w') <->
  sqlFault (w_step w) = None /\
  exists w1, f (mkWorld (w_data w) (S (w_step w))) = (Ok a, w1) /\
    sqlFault (w_step w1) = None /\ w' = mkWorld (w_data w1) (S (w_step w1)).
Proof.
  unfold runInTx. destruct (sqlFault (w_step w)) eqn:F0.
  { split; [done | by intros (? & _)]. }
  destruct (f _) as [[x|e|c] w1].
  - destruct (sqlFault (w_step w1)) eqn:F1; split.
    + done.
    + intros (_ & w2 & [= -> ->] & F & _). congruence.
    + intros [= -> <-]. eauto.
    + intros (_ & w2 & [= -> ->] & _ & ->). done.
  - split; [done | intros (_ & w2 & [=] & _)].
  - split; [done | intros (_ & w2 & [=] & _)].
Qed.

Lemma runInTx_not_Ok {A} (f : Sql A) w r w' :
  runInTx f w = (r, w') -> isOk r = false -> w_data w' = w_data w.
Proof.
  unfold runInTx. destruct (sqlFault (w_step w)); [by intros [= <- <-]|].
  destruct (f _) as [[x|e|c] w1].
  - destruct (sqlFault (w_step w1)); by intros [= <- <-].
  - by intros [= <- <-].
  - by intros [= <- <-].
Qed.

Lemma runInTx_run {A} (f : Sql A) a w w1 :
  faultless -> f (mkWorld (w_data w) (S (w_step w))) = (Ok a, w1) ->
  runInTx f w = (Ok a, mkWorld (w_data w1) (S (w_step w1))).
Proof. intros Hf E. unfold runInTx. by rewrite Hf, E, Hf. Qed.

Lemma runInTx_run_Err {A} (f : Sql A) e w w1 :
  faultless -> f (mkWorld (w_data w) (S (w_step w))) = (Err e, w1) ->
  runInTx f w = (Err e, mkWorld (w_data w) (w_step w1)).
Proof. intros Hf E. unfold runInTx. by rewrite Hf, E. Qed.

(** A transaction that only reads. *)
Lemma runInTx_read {A} (f : Sql A) o w w1 :
  faultless -> f (mkWorld (w_data w) (S (w_step w))) = (o, w1) ->
  w_data w1 = w_data w ->
  exists w', runInTx f w = (o, w') /\ w_data w' = w_data w.
Proof.
  intros Hf E Hd. unfold runInTx. rewrite Hf, E.
  destruct o; [rewrite Hf| |]; eexists; by split; [reflexivity|].
Qed.

Lemma returns_runInTx {A} (f : Sql A) : returns f -> returns (runInTx f).
Proof.
  intros Hf w why. unfold runInTx. destruct (sqlFault _); [done|].
  specialize (Hf (mkWorld (w_data w) (S (w_step w))) why).
  destruct (f _) as [[a|e|c] w1]; simpl in *; [by destruct (sqlFault _)|done|congruence].
Qed.

Lemma safe_runInTx {A} (f : Sql A) w Q :
  safe f (mkWorld (w_data w) (S (w_step w)))
    (fun a w' => Q a (mkWorld (w_data w') (S (w_step w')))) ->
  safe (runInTx f) w Q.
Proof.
  unfold safe, runInTx. destruct (sqlFault _); [done|].
  destruct (f _) as [[] w1]; [|done|done]. by destruct (sqlFault _).
Qed.

Lemma preserves_runInTx {A} I (f : Sql A) :
  preserves (onData I) f -> preserves (onData I) (runInTx f).
Proof.
  intros Hf w Hw. unfold runInTx, onData in *.
  destruct (sqlFault (w_step w)); [exact Hw|].
  specialize (Hf (mkWorld (w_data w) (S (w_step w))) Hw). simpl in Hf.
  destruct (f _) as [[x|e|c] w1]; simpl in *; [|exact Hw|exact Hw].
  by destruct (sqlFault (w_step w1)).
Qed.

Lemma preserves_runInTx_keeps {A} I (f : Sql A) :
  keeps (onData I) f -> preserves (onData I) (runInTx f).
Proof.
  intros Hf w Hw. unfold runInTx, onData in *.
  destruct (sqlFault (w_step w)); [exact Hw|].
  destruct (f _) as [[x|e|c] w1] eqn:E; simpl; [|exact Hw|exact Hw].
  destruct (sqlFault (w_step w1)); [exact Hw|]. simpl.
  exact (Hf (mkWorld (w_data w) (S (w_step w))) x w1 Hw E).
Qed.
End Tx.
#[export] Hint Resolve preserves_runInTx : preserves.
#[export] Hint Resolve returns_runInTx : returns.

(** As [inv_sql], through transactions. *)
Ltac inv_tx :=
  repeat (inv_sql; try match goal with
  | H : runInTx _ _ = (Ok _, _) |- _ =>
      apply runInTx_Ok in H; destruct H as (? & ? & ? & ? & ->); simpl in *
  end).

(** One-statement transactions and single statements that fail change nothing:
    the shape of the all-or-nothing theorems. *)
Definition atomic {A} (m : Sql A) : Prop :=
  forall w r w', m w = (r, w') -> isOk r = false -> w_data w' = w_data w.

Section Atomic.
Context `{P : Platform}.

Lemma atomic_runInTx {A} (f : Sql A) : atomic (runInTx f).
Proof. intros w r w'. apply runInTx_not_Ok. Qed.

Lemma atomic_exec f : atomic (exec f).
Proof.
  intros w r w'. unfold exec. destruct (sqlFault _); [by intros [= <- <-]|].
  destruct (f _); by intros [= <- <-].
Qed.

Lemma atomic_pure {A} (o : outcome A) : atomic (lift o).
Proof. by intros w r w' [= <- <-]. Qed.

Lemma atomic_bind_pure {A B} (o : outcome A) (f : A -> Sql B) :
  (forall a, atomic (f a)) -> atomic (lift o ≫= f).
Proof.
  intros Hf w r w'. unfold mbind, M_bind, lift. destruct o; [apply Hf| |];
    by intros [= <- <-].
Qed.
End Atomic.
#[export] Hint Resolve atomic_runInTx atomic_exec atomic_pure atomic_bind_pure : preserves.

Lemma argUint64_Ok z u : argUint64 z = Ok u -> (z <= i64_max)%Z.
Proof. unfold argUint64. destruct (Z.leb_spec z i64_max); done. Qed.

Lemma constraint_Ok b what u : constraint b what = Ok u -> b = true.
Proof. by destruct b. Qed.

Lemma foreignKey_Ok `{C : Connection} `{EN : !Enforcing C} b u : foreignKey b = Ok u -> b = true.
Proof. unfold foreignKey, foreignKeys. rewrite enforcing. apply constraint_Ok. Qed.

Lemma notCrash_constraint b what : notCrash (constraint b what).
Proof. unfold constraint. solve_returns. Qed.
Lemma notCrash_foreignKey `{C : Connection} b : notCrash (foreignKey b).
Proof. unfold foreignKey. destruct foreignKeys; [apply notCrash_constraint|done]. Qed.
Lemma notCrash_argUint64 z : notCrash (argUint64 z).
Proof. unfold argUint64. solve_returns. Qed.
#[export] Hint Resolve notCrash_constraint notCrash_foreignKey notCrash_argUint64 : returns.
