(* ===== verification/SqliteMessages.v ===== *)
(** * The sqlite message store

    src/server/sqlite/messagestore.go, operation by operation.  [wf] is the
    invariant that ties the messages and pending_messages tables together; it
    and the functional behaviour of each operation are proved below. *)
From S2P Require Import Prelude Platform Ids Proto Db Sqlite.

(** A messages row, joined or not to its pending_messages row. *)
Record dbMessage := mkDbMessage {
  row : messageRow;
  retryCount : Z;
  dataTypeURL : option string;
  dataValue : gobytes;
}.

Definition toMicro (t : Z) : Z := Z.quot (UnixNano t) 1000.

(** [log.Fatalf] on a malformed id. *)
Definition toClientIDString (b : gobytes) : outcome string :=
  if decide (blen b = 0) then Ok ""%string
  else match ClientID.BytesToClientID b with
       | Ok id => Ok (ClientID.String id)
       | _ => Crash "Could't parse ClientID"
       end.

Definition fromClientIDString (s : string) : outcome gobytes :=
  if String.eqb s "" then Ok None
  else match ClientID.StringToClientID s with
       | Ok cid => Ok (ClientID.Bytes cid)
       | _ => Crash "Couldn't parse ClientID"
       end.

Definition fromNULLString (s : option string) : string := default ""%string s.

Definition encodeSourceID (b : gobytes) : string :=
  if decide (blen b = 0) then ""%string else Hex.EncodeToString (contents b).
Arguments encodeSourceID : simpl never.

Section Convert.
Context `{L : ProtoLib}.

Definition marshalOpt {A} (f : A -> outcome string) (o : option A) : outcome gobytes :=
  match o with
  | None => Ok None
  | Some a => b ← f a; Ok (Some b)
  end.

Definition fromMessageProto (m : Message.t) : outcome dbMessage :=
  id ← MessageID.BytesToMessageID (Message.MessageId m);
  src ← match Message.Source m with
        | None => Ok (""%string, ""%string)
        | Some a => s ← toClientIDString (Address.ClientId a); Ok (s, Address.ServiceName a)
        end;
  dst ← match Message.Destination m with
        | None => Ok (""%string, ""%string)
        | Some a => s ← toClientIDString (Address.ClientId a); Ok (s, Address.ServiceName a)
        end;
  let smid := encodeSourceID (Message.SourceMessageId m) in
  let processed := r ← Message.Result m; MessageResult.ProcessedTime r in
  let isFailed := match Message.Result m with
                  | Some r => MessageResult.Failed r | None => false end in
  let reason := match Message.Result m with
                | Some r => MessageResult.FailedReason r | None => ""%string end in
  vi ← marshalOpt marshalValidationInfo (Message.ValidationInfo m);
  an ← marshalOpt marshalAnnotations (Message.Annotations m);
  Ok (mkDbMessage
        (mkMessageRow (MessageID.String id) src.1 src.2 smid dst.1 dst.2
           (Message.MessageType m)
           (match Message.CreationTime m with Some t => Timestamp.Seconds t | None => 0%Z end)
           (match Message.CreationTime m with Some t => Timestamp.Nanos t | None => 0%Z end)
           (Timestamp.Seconds <$> processed) (Timestamp.Nanos <$> processed)
           vi
           (if isFailed then Some true else None)
           (if isFailed then Some reason else None)
           an)
        0
        (Any.TypeUrl <$> Message.Data m)
        (d ← Message.Data m; Any.Value d)).

Definition toMessageResultProto (r : messageRow) : option MessageResult.t :=
  match processedTimeSeconds r with
  | None => None
  | Some s =>
      Some (MessageResult.Mk
              (Some (Timestamp.Mk s (wrapI32 (default 0%Z (processedTimeNanos r)))))
              (default false (failed r))
              (fromNULLString (failedReason r)))
  end.

(** A column that is NULL or empty leaves the field nil. *)
Definition unmarshalOpt {A} (f : string -> outcome A) (b : gobytes) : outcome (option A) :=
  if decide (0 < blen b)%nat then a ← f (contents b); Ok (Some a) else Ok None.

Definition toMessageProto (m : dbMessage) : outcome Message.t :=
  let r := row m in
  mid ← MessageID.StringToMessageID (messageID r);
  bsmid ← Hex.DecodeString (sourceMessageID r);
  src ← fromClientIDString (sourceClientID r);
  dst ← fromClientIDString (destinationClientID r);
  vi ← unmarshalOpt unmarshalValidationInfo (validationInfo r);
  an ← unmarshalOpt unmarshalAnnotations (annotations r);
  Ok (Message.Mk (MessageID.Bytes mid)
        (Some (Address.Mk src (sourceServiceName r)))
        false
        (Some bsmid)
        (Some (Address.Mk dst (destinationServiceName r)))
        (messageType r)
        (Some (Timestamp.Mk (creationTimeSeconds r) (creationTimeNanos r)))
        (match dataTypeURL m with
         | Some u => Some (Any.Mk u (dataValue m)) | None => None end)
        vi (toMessageResultProto r) Message.MEDIUM false an).
End Convert.

(** ** Row updates *)
Definition setProcessed (f : option bool) (reason : option string) (s n : option Z)
    (r : messageRow) : messageRow :=
  mkMessageRow (messageID r) (sourceClientID r) (sourceServiceName r) (sourceMessageID r)
    (destinationClientID r) (destinationServiceName r) (messageType r)
    (creationTimeSeconds r) (creationTimeNanos r) s n (validationInfo r) f reason
    (annotations r).

Definition clearFailure (r : messageRow) : messageRow :=
  setProcessed None None (processedTimeSeconds r) (processedTimeNanos r) r.

Definition setSchedule (nc due : Z) (r : pendingRow) : pendingRow :=
  mkPendingRow nc due (data_type_url r) (data_value r).

Definition clearData (m : dbMessage) : dbMessage :=
  mkDbMessage (row m) (retryCount m) None None.

Section Store.
Context `{P : Platform} `{L : ProtoLib} `{C : Connection}.

Definition trySetMessageResult (id : MessageID.t) (res : MessageResult.t) : Sql unit :=
  match MessageResult.ProcessedTime res with
  | None => crash "nil ProcessedTime"
  | Some pt =>
      let key := MessageID.String id in
      let f := if MessageResult.Failed res then Some true else None in
      let reason := if MessageResult.Failed res then Some (MessageResult.FailedReason res) else None in
      exec (fun d => Ok (setMessages
        (alter (setProcessed f reason (Some (Timestamp.Seconds pt)) (Some (Timestamp.Nanos pt)))
           key (messages d)) d)) ≫= fun _ =>
      exec (fun d => Ok (setPending (delete key (pending_messages d)) d))
  end.

Definition SetMessageResult (dest : ClientID.t) (id : MessageID.t) (res : MessageResult.t) : Sql unit :=
  runInTx (trySetMessageResult id res).

(** INSERT OR IGNORE INTO messages: the number of rows inserted. *)
Definition insertMessage (r : messageRow) : Sql Z :=
  execN (fun d =>
    match messages d !! messageID r with
    | Some _ => Ok (0%Z, d)
    | None => Ok (1%Z, setMessages (<[messageID r := r]> (messages d)) d)
    end).

Definition insertPending (key : string) (r : pendingRow) : Sql unit :=
  exec (fun d =>
    _ ← constraint (bool_decide (pending_messages d !! key = None)) "pending_messages.message_id";
    _ ← foreignKey (bool_decide (is_Some (messages d !! key)));
    Ok (setPending (<[key := r]> (pending_messages d)) d)).

Definition tryStoreMessage (dbm : dbMessage) (isBroadcast : bool) : Sql unit :=
  let r := row dbm in
  if (creationTimeSeconds r =? 0)%Z then
    fail (ErrText "message CreationTime must be set")
  else
    cnt ← insertMessage r;
    if (cnt =? 1)%Z && negb (bool_decide (is_Some (processedTimeSeconds r))) then
      due ← (if String.eqb (destinationClientID r) "" then
               t ← ServerRetryTime 0; mret (toMicro t)
             else if isBroadcast then
               t ← ClientRetryTime; mret (toMicro t)
             else
               t ← now; mret (toMicro t));
      insertPending (messageID r) (mkPendingRow 0 due (dataTypeURL dbm) (dataValue dbm))
    else mret tt.

(** [trySetMessageResult(ctx, tx, mid, m.Result)] on the message's own id. *)
Definition recordResult (m : Message.t) : Sql unit :=
  match Message.Result m with
  | None => mret tt
  | Some res =>
      mid ← lift (MessageID.BytesToMessageID (Message.MessageId m));
      trySetMessageResult mid res
  end.

Definition selectProcessed (key : string) : Sql ((option Z * option bool) + goerror) :=
  try (queryRow (fun d =>
    (fun r => (processedTimeSeconds r, failed r)) <$> messages d !! key)).

(** One iteration of [StoreMessages]' loop: the message's row id. *)
Definition storeOne (m : Message.t) : Sql string :=
  dbm ← lift (fromMessageProto m);
  let dbm := if Message.Result m is Some _ then clearData dbm else dbm in
  let key := messageID (row dbm) in
  let success := match Message.Result m with
                 | Some res => negb (MessageResult.Failed res) | None => false end in
  (if success then
     tryStoreMessage dbm false ≫= fun _ => recordResult m
   else
     e ← selectProcessed key;
     match e with
     | inr ErrNoRows => tryStoreMessage dbm false
     | inr e => fail e
     | inl (processedTime, fl) =>
         if bool_decide (is_Some processedTime) && negb (default false fl) then mret tt
         else if bool_decide (is_Some (Message.Result m)) &&
                 (negb (bool_decide (is_Some processedTime)) || success) then recordResult m
         else mret tt
     end) ≫= fun _ =>
  mret key.

(** INSERT OR IGNORE INTO client_contact_messages. *)
Definition linkOrIgnore (c : Z) (key : string) : Sql unit :=
  exec (fun d =>
    _ ← argUint64 c;
    if decide ((c, key) ∈ client_contact_messages d) then Ok d
    else
      _ ← foreignKey (bool_decide (is_Some (client_contacts d !! c)) &&
                      bool_decide (is_Some (messages d !! key)));
      Ok (setContactMessages ({[(c, key)]} ∪ client_contact_messages d) d)).

Definition StoreMessages (msgs : list Message.t) (contact : ContactID) : Sql unit :=
  runInTx (
    ids ← mapMs storeOne msgs;
    if String.eqb contact "" then mret tt
    else
      match Hex.ParseUint16 contact with
      | Ok c => forM_ ids (linkOrIgnore c)
      | _ => fail (ErrText "unable to parse ContactID")
      end).

(** *** Pending messages *)
Definition pendingFor (ids : list ClientID.t) (d : Db) : list string :=
  (* SELECT m.message_id FROM messages AS m, pending_messages AS pm WHERE
     m.destination_client_id IN (...) AND m.message_id = pm.message_id *)
  let dests := ClientID.String <$> ids in
  fst <$> filter (fun kr => destinationClientID kr.2 ∈ dests /\
                            is_Some (pending_messages d !! kr.1))
                 (map_to_list (messages d)).

Definition getPendingMessageRawIds (ids : list ClientID.t) (offset limit : Z) : Sql (list string) :=
  if negb (offset =? 0)%Z && (limit =? 0)%Z then
    fail (ErrText "if offset is provided, a limit must be provided as well")
  else fun w =>
    (* ORDER BY leaves nothing to the engine: message ids are unique *)
    let '(r, w') := query (fun d =>
      _ ← argUint64 limit;
      _ ← argUint64 offset;
      Ok (pendingFor ids d)) w in
    (fmap (M := outcome) (fun rows =>
       let sorted := merge_sort strLe rows in
       let shifted := if (offset =? 0)%Z then sorted else drop (Z.to_nat offset) sorted in
       if (limit =? 0)%Z then shifted else take (Z.to_nat limit) shifted) r, w').

Definition GetPendingMessageCount (ids : list ClientID.t) : Sql Z :=
  runInTx (rows ← query (fun d => Ok (pendingFor ids d)); mret (Z.of_nat (length rows))).

Definition getMessages (ids : list MessageID.t) (wantData : bool) : Sql (list Message.t) :=
  mapMs (fun id =>
    let key := MessageID.String id in
    r ← queryRow (fun d => clearFailure <$> messages d !! key);
    dat ← (if wantData then
             e ← try (queryRow (fun d =>
                   (fun p => (data_type_url p, data_value p)) <$> pending_messages d !! key));
             match e with
             | inl p => mret p
             | inr ErrNoRows => mret (None, None)
             | inr e => fail e
             end
           else mret (None, None));
    lift (toMessageProto (mkDbMessage r 0 dat.1 dat.2))) ids.

Definition GetMessages (ids : list MessageID.t) (wantData : bool) : Sql (list Message.t) :=
  runInTx (getMessages ids wantData).

Definition GetPendingMessages (ids : list ClientID.t) (offset limit : Z) (wantData : bool) :
    Sql (list Message.t) :=
  runInTx (
    raw ← getPendingMessageRawIds ids offset limit;
    mids ← mapMs (fun s => lift (MessageID.StringToMessageID s)) raw;
    getMessages mids wantData).

Definition DeletePendingMessages (ids : list ClientID.t) : Sql unit :=
  runInTx (
    keys ← getPendingMessageRawIds ids 0 0;
    if decide (keys = []) then mret tt
    else
      n ← NowProto;
      exec (fun d => Ok (setMessages
        (map_imap (fun k r => Some (if decide (k ∈ keys) then
           setProcessed (Some true) (Some "Removed by admin action."%string)
             (Some (Timestamp.Seconds n)) (Some (Timestamp.Nanos n)) r else r))
           (messages d)) d)) ≫= fun _ =>
      exec (fun d => Ok (setPending (filter (fun kp => kp.1 ∉ keys) (pending_messages d)) d))).

Definition GetMessageResult (id : MessageID.t) : Sql (option MessageResult.t) :=
  runInTx (
    e ← try (queryRow (fun d => messages d !! MessageID.String id));
    match e with
    | inl r => mret (toMessageResultProto r)
    | inr ErrNoRows => mret None
    | inr e => fail e
    end).

(** *** Messages due for processing *)
Definition dueRows (dest : string) (t : Z) (d : Db) : list dbMessage :=
  (* WHERE m.destination_client_id = ? AND m.message_id = pm.message_id AND
     pm.scheduled_time < ?; processed time, failed and reason are not selected *)
  omap (fun kr =>
    match pending_messages d !! kr.1 with
    | Some p =>
        if decide (destinationClientID kr.2 = dest /\ (scheduled_time p < t)%Z) then
          Some (mkDbMessage (setProcessed None None None None kr.2)
                  (retry_count p) (data_type_url p) (data_value p))
        else None
    | None => None
    end) (map_to_list (messages d)).

(** Reschedules one selected row: the message to hand out. *)
Definition takeRow (dbm : dbMessage) : Sql Message.t :=
  let nc := wrapU32 (retryCount dbm + 1) in
  t ← (if String.eqb (destinationClientID (row dbm)) "" then ServerRetryTime nc
       else ClientRetryTime);
  exec (fun d => Ok (setPending
    (alter (setSchedule nc (toMicro t)) (messageID (row dbm)) (pending_messages d)) d)) ≫= fun _ =>
  lift (toMessageProto dbm).

(** The row loop: [read] counts what was taken per service. *)
Fixpoint takeRows (lim : Z) (serviceLimits : option (gmap string Z))
    (rows : list dbMessage) (read : gmap string Z) (res : list Message.t) : Sql (list Message.t) :=
  match rows with
  | [] => mret res
  | dbm :: rows' =>
      let svc := destinationServiceName (row dbm) in
      let seen := default 0%Z (read !! svc) in
      let full := match serviceLimits with
                  | Some sl => (default 0%Z (sl !! svc) <=? seen)%Z
                  | None => false
                  end in
      if full then takeRows lim serviceLimits rows' read res
      else
        let read' := match serviceLimits with
                     | Some _ => <[svc := wrapU64 (seen + 1)]> read
                     | None => read
                     end in
        m ← takeRow dbm;
        let res' := res ++ [m] in
        if (wrapI64 lim <=? Z.of_nat (length res'))%Z then mret res'
        else takeRows lim serviceLimits rows' read' res'
  end.

Definition internalMessagesForProcessing (id : ClientID.t) (lim : Z)
    (serviceLimits : option (gmap string Z)) : Sql (list Message.t) :=
  runInTx (
    dest ← lift (toClientIDString (ClientID.Bytes id));
    t ← now;
    rows ← query (fun d => Ok (dueRows dest (toMicro t) d));
    takeRows lim serviceLimits rows ∅ []).

Definition ClientMessagesForProcessing (id : ClientID.t) (lim : Z)
    (serviceLimits : option (gmap string Z)) : Sql (list Message.t) :=
  if decide (id = ClientID.nil) then fail (ErrText "a client is required")
  else internalMessagesForProcessing id lim serviceLimits.
End Store.

(** ** The invariant

    A message is pending exactly while it has no processing time, its row is
    stored under its id, and links point to existing rows. *)
Record wfOn (checked : Prop) (d : Db) : Prop := {
  wf_key : forall k r, messages d !! k = Some r -> messageID r = k;
  wf_pending : forall k, is_Some (pending_messages d !! k) <->
    exists r, messages d !! k = Some r /\ processedTimeSeconds r = None;
  wf_link : checked -> forall c k, (c, k) ∈ client_contact_messages d ->
    is_Some (client_contacts d !! c) /\ is_Some (messages d !! k);
}.

Arguments wf_key {checked}.
Arguments wf_pending {checked}.
Arguments wf_link {checked}.
Abbreviation wf := (wfOn True).

(** What a connection has to do for the links. *)
Class Checks (checked : Prop) (C : Connection) := checks : checked -> C = true.
#[export] Instance checks_enforcing checked (C : Connection) {EN : Enforcing C} : Checks checked C := fun _ => EN.
#[export] Instance checks_nothing (C : Connection) : Checks False C := False_ind _.

Lemma wf_empty checked : wfOn checked emptyDb.
Proof.
  split; simpl.
  - intros k r. by rewrite lookup_empty.
  - intros k. rewrite !lookup_empty. split; [by intros [] | by intros (? & ? & ?)].
  - intros _ c k H. by apply not_elem_of_empty in H.
Qed.

Section Invariant.
Context `{P : Platform} `{L : ProtoLib} `{C : Connection} {checked : Prop} {CH : Checks checked C}.

Lemma wf_setProcessed d key f reason s n :
  wfOn checked d ->
  wfOn checked (setPending (delete key (pending_messages d))
        (setMessages (alter (setProcessed f reason (Some s) n) key (messages d)) d)).
Proof.
  intros [H1 H2 H3]. split; simpl.
  - intros k r. rewrite lookup_alter. case_decide; subst.
    + intros (r0 & Hr & ->)%fmap_Some. simpl. by apply H1.
    + apply H1.
  - intros k. destruct (decide (k = key)) as [->|Hne].
    + rewrite lookup_delete_eq, lookup_alter_eq. split; [by intros []|].
      intros (r & (r0 & _ & ->)%fmap_Some & [=]).
    + by rewrite lookup_delete_ne, lookup_alter_ne by done.
  - intros Hch c k Hl. destruct (H3 Hch c k Hl) as [? Hm]. split; [done|].
    rewrite lookup_alter. case_decide; [|done]. subst. by apply fmap_is_Some.
Qed.

Lemma wf_insertMessage d r :
  wfOn checked d -> messages d !! messageID r = None -> is_Some (processedTimeSeconds r) ->
  wfOn checked (setMessages (<[messageID r := r]> (messages d)) d).
Proof.
  intros [H1 H2 H3] Hn [t Ht]. split; simpl.
  - intros k r'. rewrite lookup_insert. case_decide; [by intros [= <-]|apply H1].
  - intros k. rewrite H2. destruct (decide (k = messageID r)) as [->|Hne].
    + rewrite lookup_insert_eq, Hn. split; intros (? & ? & ?); congruence.
    + by rewrite lookup_insert_ne by done.
  - intros Hch c k Hl. destruct (H3 Hch c k Hl) as [? Hm]. split; [done|].
    rewrite lookup_insert. by case_decide.
Qed.

Lemma wf_insertBoth d r p :
  wfOn checked d -> messages d !! messageID r = None -> processedTimeSeconds r = None ->
  wfOn checked (setPending (<[messageID r := p]> (pending_messages d))
        (setMessages (<[messageID r := r]> (messages d)) d)).
Proof.
  intros [H1 H2 H3] Hn Ht. split; simpl.
  - intros k r'. rewrite lookup_insert. case_decide; [by intros [= <-]|apply H1].
  - intros k. destruct (decide (k = messageID r)) as [->|Hne].
    + rewrite !lookup_insert_eq. split; [by eauto|by eauto].
    + by rewrite !lookup_insert_ne by done.
  - intros Hch c k Hl. destruct (H3 Hch c k Hl) as [? Hm]. split; [done|].
    rewrite lookup_insert. by case_decide.
Qed.

(** What the two statements of a completed [trySetMessageResult] do. *)
Lemma trySetMessageResult_Ok id res w u w' :
  trySetMessageResult id res w = (Ok u, w') ->
  exists pt, MessageResult.ProcessedTime res = Some pt /\
  w_data w' =
    setPending (delete (MessageID.String id) (pending_messages (w_data w)))
      (setMessages (alter (setProcessed
           (if MessageResult.Failed res then Some true else None)
           (if MessageResult.Failed res then Some (MessageResult.FailedReason res) else None)
           (Some (Timestamp.Seconds pt)) (Some (Timestamp.Nanos pt)))
         (MessageID.String id) (messages (w_data w))) (w_data w)).
Proof.
  unfold trySetMessageResult. intros E.
  destruct (MessageResult.ProcessedTime res) as [pt|]; [|inv_sql]. inv_sql.
  exists pt. split; [done|]. by split_worlds.
Qed.

Lemma keeps_trySetMessageResult id res : keeps (onData (wfOn checked)) (trySetMessageResult id res).
Proof.
  intros w u w' Hw (pt & _ & E)%trySetMessageResult_Ok.
  unfold onData. rewrite E. by apply wf_setProcessed.
Qed.

(** The three ways a completed [tryStoreMessage] ends. *)
Lemma tryStoreMessage_Ok dbm isB w u w' :
  tryStoreMessage dbm isB w = (Ok u, w') ->
  let d := w_data w in let r := row dbm in
  creationTimeSeconds r <> 0%Z /\
  ((is_Some (messages d !! messageID r) /\ w_data w' = d) \/
   (messages d !! messageID r = None /\ is_Some (processedTimeSeconds r) /\
    w_data w' = setMessages (<[messageID r := r]> (messages d)) d) \/
   (messages d !! messageID r = None /\ processedTimeSeconds r = None /\
    exists due, w_data w' =
      setPending (<[messageID r := mkPendingRow 0 due (dataTypeURL dbm) (dataValue dbm)]>
                    (pending_messages d))
        (setMessages (<[messageID r := r]> (messages d)) d))).
Proof.
  unfold tryStoreMessage. cbv zeta. intros E.
  destruct (Z.eqb_spec (creationTimeSeconds (row dbm)) 0); [inv_sql|]. split; [done|].
  apply bind_Ok in E as (n1 & w1 & E1 & E2). unfold insertMessage in E1.
  apply execN_Ok in E1 as (_ & E1 & _).
  destruct (messages (w_data w) !! messageID (row dbm)) eqn:Hk.
  { injection E1 as <- E1. simpl in E2. inv_run. left. by split; [eauto|]. }
  injection E1 as <- E1. simpl in E2. right.
  destruct (processedTimeSeconds (row dbm)) eqn:Hp; simpl in E2.
  { inv_run. left. rewrite <- E1. by eauto. }
  right. split; [done|]. split; [done|].
  apply bind_Ok in E2 as (due & w2 & Ed & E2). exists due.
  assert (Hd : w_data w2 = w_data w1).
  { unfold ServerRetryTime, ClientRetryTime in Ed.
    destruct (String.eqb _ _); [|destruct isB]; inv_sql; done. }
  unfold insertPending in E2. apply exec_Ok in E2 as (_ & E2 & _).
  apply outcome_bind_Ok in E2 as (? & _ & E2).
  apply outcome_bind_Ok in E2 as (? & _ & E2).
  injection E2 as <-. by rewrite Hd, <- E1.
Qed.

Lemma keeps_tryStoreMessage dbm isB : keeps (onData (wfOn checked)) (tryStoreMessage dbm isB).
Proof.
  intros w u w' Hw (_ & [[_ E]|[(Hn & Hp & E)|(Hn & Hp & due & E)]])%tryStoreMessage_Ok;
    unfold onData; rewrite E.
  - done.
  - by apply wf_insertMessage.
  - by apply wf_insertBoth.
Qed.
End Invariant.
#[export] Hint Resolve keeps_trySetMessageResult keeps_tryStoreMessage : keeps.

Section InvariantOps.
Context `{P : Platform} `{L : ProtoLib} `{C : Connection} {checked : Prop} {CH : Checks checked C}.

Lemma keeps_recordResult m : keeps (onData (wfOn checked)) (recordResult m).
Proof. unfold recordResult. solve_keeps. Qed.

Lemma preserves_selectProcessed I key : preserves (onData I) (selectProcessed key).
Proof. unfold selectProcessed. solve_preserves. Qed.

Lemma keeps_storeOne m : keeps (onData (wfOn checked)) (storeOne m).
Proof.
  pose proof keeps_recordResult. pose proof preserves_selectProcessed.
  unfold storeOne. solve_keeps.
Qed.

Lemma preserves_linkOrIgnore c k : preserves (onData (wfOn checked)) (linkOrIgnore c k).
Proof.
  apply preserves_exec. intros d d' [H1 H2 H3] E.
  apply outcome_bind_Ok in E as (? & _ & E). case_decide; [by injection E as <-|].
  apply outcome_bind_Ok in E as (? & Hc & E). injection E as <-.
  split; simpl; [done|done|]. intros Hch c' k' [[= -> ->]%elem_of_singleton|Hl]%elem_of_union; [|by apply H3].
  apply (foreignKey_Ok (EN := checks Hch)) in Hc.
  by apply andb_true_iff in Hc as [Hb1%bool_decide_eq_true Hb2%bool_decide_eq_true].
Qed.
Hint Resolve keeps_storeOne preserves_linkOrIgnore : keeps preserves.

Lemma preserves_StoreMessages msgs contact :
  preserves (onData (wfOn checked)) (StoreMessages msgs contact).
Proof. apply preserves_runInTx_keeps. solve_keeps. Qed.

Lemma preserves_SetMessageResult dest id res :
  preserves (onData (wfOn checked)) (SetMessageResult dest id res).
Proof. apply preserves_runInTx_keeps. solve_keeps. Qed.

Lemma getPendingMessageRawIds_data ids o l w r w' :
  getPendingMessageRawIds ids o l w = (r, w') -> w_data w' = w_data w.
Proof.
  unfold getPendingMessageRawIds. destruct (_ && _); [by intros [= _ <-]|].
  destruct (query _ w) as [r0 w0] eqn:E. intros [= _ <-]. revert E.
  unfold query. destruct (sqlFault _); [by intros [= _ <-]|].
  repeat destruct (_ ≫= _); by intros [= _ <-].
Qed.

Lemma preserves_getPendingMessageRawIds I ids o l :
  preserves (onData I) (getPendingMessageRawIds ids o l).
Proof.
  intros w Hw. destruct (getPendingMessageRawIds _ _ _ _) as [r w'] eqn:E.
  apply getPendingMessageRawIds_data in E. unfold onData. simpl. by rewrite E.
Qed.

Lemma wf_deletePending d (keys : list string) s n :
  wfOn checked d ->
  wfOn checked (setPending (filter (fun kp : string * pendingRow => kp.1 ∉ keys) (pending_messages d))
       (setMessages (map_imap (fun k r => Some (if decide (k ∈ keys) then
          setProcessed (Some true) (Some "Removed by admin action."%string) (Some s) n r else r))
          (messages d)) d)).
Proof.
  intros [H1 H2 H3]. split; simpl.
  - intros k r. rewrite map_lookup_imap. intros (r0 & Hr & [= <-])%bind_Some.
    case_decide; simpl; by apply H1.
  - intros k. rewrite map_lookup_imap. destruct (decide (k ∈ keys)) as [Hk|Hk].
    + split.
      * intros [p Hp]. apply map_lookup_filter_Some in Hp as [_ Hp]. by simpl in Hp.
      * intros (r & (r0 & _ & [= <-])%bind_Some & [=]).
    + transitivity (is_Some (pending_messages d !! k)).
      * split; [intros [p Hp]|intros [p Hp]].
        -- apply map_lookup_filter_Some in Hp as [Hp _]. eauto.
        -- exists p. by apply map_lookup_filter_Some.
      * rewrite H2. split; intros (r & Hr & Hp).
        -- exists r. by rewrite Hr.
        -- apply bind_Some in Hr as (r0 & Hr & [= <-]). eauto.
  - intros Hch c k Hl. destruct (H3 Hch c k Hl) as [? [r Hm]]. split; [done|].
    rewrite map_lookup_imap, Hm. simpl. eauto.
Qed.

Lemma preserves_DeletePendingMessages ids :
  preserves (onData (wfOn checked)) (DeletePendingMessages ids).
Proof.
  apply preserves_runInTx_keeps. apply keeps_bind.
  { apply keeps_preserves, preserves_getPendingMessageRawIds. }
  intros keys. case_decide; [solve_keeps|]. apply keeps_bind; [solve_keeps|].
  intros n w [] w' Hw E. inv_sql. unfold onData in *. split_worlds.
  by apply wf_deletePending.
Qed.
End InvariantOps.

(** ** What a message's result becomes

    The contract of [StoreMessages] in src/server/db/store.go: a successful
    result overwrites any result, a failed one overwrites only an empty one,
    everything else is dropped. *)
Inductive status := Absent | Present (r : option MessageResult.t).

Definition statusOf (d : Db) (key : string) : status :=
  match messages d !! key with
  | None => Absent
  | Some r => Present (toMessageResultProto r)
  end.

(** What the columns keep of a result: the reason only of a failure. *)
Definition normResult (res : MessageResult.t) : option MessageResult.t :=
  pt ← MessageResult.ProcessedTime res;
  Some (MessageResult.Mk
    (Some (Timestamp.Mk (Timestamp.Seconds pt) (wrapI32 (Timestamp.Nanos pt))))
    (MessageResult.Failed res)
    (if MessageResult.Failed res then MessageResult.FailedReason res else ""%string)).

Definition mergeStatus (st : status) (new : option MessageResult.t) : status :=
  match st, new with
  | Absent, None => Present None
  | Absent, Some r => Present (normResult r)
  | Present None, Some r => Present (normResult r)
  | Present (Some old), Some r =>
      if MessageResult.Failed r then st else Present (normResult r)
  | Present _, None => st
  end.

Section Results.
Context `{P : Platform} `{L : ProtoLib} `{C : Connection}.

Lemma fromMessageProto_Ok m dbm :
  fromMessageProto m = Ok dbm ->
  exists id, MessageID.BytesToMessageID (Message.MessageId m) = Ok id /\
    messageID (row dbm) = MessageID.String id /\
    toMessageResultProto (row dbm) = (Message.Result m ≫= normResult) /\
    processedTimeSeconds (row dbm) =
      (r ← Message.Result m; t ← MessageResult.ProcessedTime r; Some (Timestamp.Seconds t)).
Proof.
  unfold fromMessageProto. intros H.
  repeat (apply outcome_bind_Ok in H as (? & ? & H)). injection H as <-.
  eexists. split; [done|]. split; [done|]. unfold toMessageResultProto, normResult. simpl.
  destruct (Message.Result m) as [[[pt|] [] reason]|]; done.
Qed.

Lemma clearData_row m : row (clearData m) = row m.
Proof. done. Qed.

Lemma toMessageResultProto_set res pt r :
  MessageResult.ProcessedTime res = Some pt ->
  toMessageResultProto (setProcessed
    (if MessageResult.Failed res then Some true else None)
    (if MessageResult.Failed res then Some (MessageResult.FailedReason res) else None)
    (Some (Timestamp.Seconds pt)) (Some (Timestamp.Nanos pt)) r) = normResult res.
Proof.
  intros E. unfold toMessageResultProto, normResult. rewrite E. simpl.
  by destruct (MessageResult.Failed res).
Qed.

Lemma statusOf_alter d k f key :
  statusOf (setPending (delete k (pending_messages d)) (setMessages (alter f k (messages d)) d)) key
  = if decide (k = key)
    then match messages d !! key with
         | None => Absent | Some r => Present (toMessageResultProto (f r)) end
    else statusOf d key.
Proof.
  unfold statusOf. simpl. rewrite lookup_alter. case_decide; [|done].
  subst. by destruct (messages d !! key).
Qed.

Lemma trySetMessageResult_status id res w u w' k :
  trySetMessageResult id res w = (Ok u, w') ->
  statusOf (w_data w') k =
    if decide (MessageID.String id = k) then
      match statusOf (w_data w) k with
      | Absent => Absent | Present _ => Present (normResult res) end
    else statusOf (w_data w) k.
Proof.
  intros (pt & Hpt & ->)%trySetMessageResult_Ok. rewrite statusOf_alter.
  case_decide; [|done]. unfold statusOf.
  destruct (messages (w_data w) !! k); [|done]. by rewrite toMessageResultProto_set.
Qed.

Lemma tryStoreMessage_status dbm isB w u w' k :
  tryStoreMessage dbm isB w = (Ok u, w') ->
  statusOf (w_data w') k =
    if decide (messageID (row dbm) = k) then
      match statusOf (w_data w) k with
      | Absent => Present (toMessageResultProto (row dbm)) | st => st end
    else statusOf (w_data w) k.
Proof.
  intros (_ & [[[r Hr] ->]|[(Hn & _ & ->)|(Hn & _ & due & ->)]])%tryStoreMessage_Ok;
    unfold statusOf; simpl.
  - case_decide; [|done]. subst. by rewrite Hr.
  - rewrite lookup_insert. case_decide; [|done]. subst. by rewrite Hn.
  - rewrite lookup_insert. case_decide; [|done]. subst. by rewrite Hn.
Qed.

(** The existing row, as the SELECT before the decision sees it. *)
Lemma statusOf_processed d key r :
  messages d !! key = Some r ->
  statusOf d key = Present (toMessageResultProto r) /\
  (toMessageResultProto r = None <-> processedTimeSeconds r = None) /\
  (forall old, toMessageResultProto r = Some old ->
     MessageResult.Failed old = default false (failed r)).
Proof.
  intros Hr. unfold statusOf, toMessageResultProto. rewrite Hr.
  destruct (processedTimeSeconds r); naive_solver.
Qed.

Lemma recordResult_status m id w u w' k :
  MessageID.BytesToMessageID (Message.MessageId m) = Ok id ->
  recordResult m w = (Ok u, w') ->
  statusOf (w_data w') k =
    if decide (MessageID.String id = k) then
      match statusOf (w_data w) k, Message.Result m with
      | Present _, Some res => Present (normResult res) | st, _ => st end
    else statusOf (w_data w) k.
Proof.
  intros Hid E. unfold recordResult in E. destruct (Message.Result m) as [res|].
  - apply bind_Ok in E as (mid & w1 & E1 & E). apply lift_Ok in E1 as [Hmid <-].
    rewrite Hid in Hmid. injection Hmid as <-.
    rewrite (trySetMessageResult_status _ _ _ _ _ k E). done.
  - apply ret_Ok in E as [_ <-]. case_decide; [|done]. by destruct (statusOf _ _).
Qed.

Lemma selectProcessed_Ok key w e w' :
  selectProcessed key w = (Ok e, w') ->
  w_data w' = w_data w /\
  match e with
  | inr ErrNoRows => statusOf (w_data w) key = Absent
  | inr _ => True
  | inl (pt, fl) => exists old, statusOf (w_data w) key = Present old /\
      (old = None <-> pt = None) /\
      (forall o, old = Some o -> MessageResult.Failed o = default false fl)
  end.
Proof.
  unfold selectProcessed, try, queryRow. destruct (sqlFault (w_step w)) as [e0|] eqn:F.
  - by intros [= <- <-].
  - destruct (messages (w_data w) !! key) as [r|] eqn:Hr; simpl; intros [= <- <-].
    + split; [done|]. destruct (statusOf_processed _ _ _ Hr) as (? & ? & ?). eauto.
    + split; [done|]. unfold statusOf. by rewrite Hr.
Qed.

(** The status of every message after one is stored. *)
Lemma storeOne_Ok m w key w' :
  storeOne m w = (Ok key, w') ->
  exists id, MessageID.BytesToMessageID (Message.MessageId m) = Ok id /\
    key = MessageID.String id /\
    forall k, statusOf (w_data w') k =
      if decide (key = k) then mergeStatus (statusOf (w_data w) k) (Message.Result m)
      else statusOf (w_data w) k.
Proof.
  unfold storeOne. intros E. apply bind_Ok in E as (dbm & w1 & E1 & E).
  apply lift_Ok in E1 as [E1 <-].
  apply fromMessageProto_Ok in E1 as (id & Hid & Hk & Hres & _).
  exists id. split; [done|].
  set (dbm' := match Message.Result m with Some _ => clearData dbm | None => dbm end) in E.
  assert (Hrow : row dbm' = row dbm) by (unfold dbm'; by destruct (Message.Result m)).
  clearbody dbm'. rewrite Hrow, Hk in E.
  apply bind_Ok in E as (u & w1 & E1 & E). apply ret_Ok in E as [<- <-].
  split; [done|]. intros k.
  destruct (match Message.Result m with Some r => _ | None => _ end) eqn:Hsucc.
  - apply bind_Ok in E1 as (u1 & w2 & E2 & E1).
    pose proof (recordResult_status _ _ _ _ _ k Hid E1) as H1.
    pose proof (tryStoreMessage_status _ _ _ _ _ k E2) as H2.
    rewrite Hrow, Hk in H2. rewrite H1, H2. case_decide; [|done].
    destruct (Message.Result m) as [res|]; [|done]. simpl in Hres.
    apply negb_true_iff in Hsucc.
    destruct (statusOf (w_data w) k) as [|[old|]]; simpl; rewrite ?Hsucc; done.
  - apply bind_Ok in E1 as (e & w2 & E2 & E1).
    apply selectProcessed_Ok in E2 as [Hw E2]. rewrite <- Hw in *.
    destruct e as [[pt fl]|e].
    + destruct E2 as (old & Hst & Hnone & Hfl).
      destruct (bool_decide (is_Some pt) && negb (default false fl)) eqn:Hdone;
        [|destruct (bool_decide (is_Some (Message.Result m)) && _) eqn:Hrec].
      * apply ret_Ok in E1 as [_ <-]. case_decide; [|done]. subst k. rewrite Hst.
        destruct pt as [t|]; [|done].
        destruct old as [o|]; [|naive_solver].
        destruct (Message.Result m); simpl; [|done]. apply negb_false_iff in Hsucc.
        by rewrite Hsucc.
      * rewrite (recordResult_status _ _ _ _ _ k Hid E1). case_decide; [|done]. subst k.
        rewrite Hst. destruct (Message.Result m) as [res|]; [|done].
        rewrite orb_false_r in Hrec. destruct pt; [done|]. by rewrite (proj2 Hnone).
      * apply ret_Ok in E1 as [_ <-]. case_decide; [|done]. subst k. rewrite Hst.
        destruct (Message.Result m) as [res|]; simpl; [|by destruct old].
        destruct pt as [t|]; [|done]. apply negb_false_iff in Hsucc.
        destruct old as [o|]; [by rewrite Hsucc|naive_solver].
    + destruct e; try by inv_run.
      rewrite (tryStoreMessage_status _ _ _ _ _ k E1), Hrow, Hk, Hres.
      case_decide; [|done]. subst k. rewrite E2. by destruct (Message.Result m).
Qed.

Lemma linkAll_data c ids w u w' :
  forM_ ids (linkOrIgnore c) w = (Ok u, w') ->
  messages (w_data w') = messages (w_data w) /\
  pending_messages (w_data w') = pending_messages (w_data w).
Proof.
  revert w. induction ids as [|k ids IH]; intros w; simpl.
  - by intros [_ <-]%ret_Ok.
  - intros (u1 & w1 & E1 & E2)%bind_Ok. apply IH in E2 as [-> ->].
    apply exec_Ok in E1 as (_ & E & _). apply outcome_bind_Ok in E as (? & _ & E).
    case_decide; [by injection E as <-|].
    apply outcome_bind_Ok in E as (? & _ & E). by injection E as <-.
Qed.

(** The statuses after the loop over [msgs]. *)
Definition mergeAll (id : MessageID.t) (st : status) (msgs : list Message.t) : status :=
  foldl (fun st m =>
    if bool_decide (MessageID.BytesToMessageID (Message.MessageId m) = Ok id)
    then mergeStatus st (Message.Result m) else st) st msgs.

Lemma storeAll_Ok msgs w keys w' id :
  MessageID.valid id ->
  mapMs storeOne msgs w = (Ok keys, w') ->
  statusOf (w_data w') (MessageID.String id) =
    mergeAll id (statusOf (w_data w) (MessageID.String id)) msgs.
Proof.
  intros Hid. revert w keys. induction msgs as [|m msgs IH]; intros w keys; simpl.
  - by intros [_ <-]%ret_Ok.
  - intros (key & w1 & E1 & E)%bind_Ok. apply bind_Ok in E as (ks & w2 & E2 & E).
    apply ret_Ok in E as [_ <-]. rewrite (IH _ _ E2). f_equal.
    apply storeOne_Ok in E1 as (i & Hi & -> & Hst). rewrite Hst.
    destruct (decide (i = id)) as [->|Hne].
    + by rewrite decide_True, bool_decide_true by done.
    + rewrite decide_False, bool_decide_false; [done|congruence|].
      intros Heq. apply Hne. apply MessageID_String_inj; [|done|done].
      by eapply BytesToMessageID_valid.
Qed.

Lemma StoreMessages_status msgs contact w u w' id :
  MessageID.valid id ->
  StoreMessages msgs contact w = (Ok u, w') ->
  statusOf (w_data w') (MessageID.String id) =
    mergeAll id (statusOf (w_data w) (MessageID.String id)) msgs.
Proof.
  intros Hid (_ & w1 & E & _ & ->)%runInTx_Ok. simpl.
  apply bind_Ok in E as (keys & w2 & E1 & E).
  pose proof (storeAll_Ok _ _ _ _ _ Hid E1) as Hs. simpl in Hs. rewrite <- Hs.
  unfold statusOf.
  destruct (String.eqb contact ""); [by apply ret_Ok in E as [_ <-]|].
  destruct (Hex.ParseUint16 contact); [|by inv_run..].
  by apply linkAll_data in E as [-> _].
Qed.
End Results.

(** ** Concrete data for the witnesses *)
Definition sampleResult (f : bool) : MessageResult.t :=
  MessageResult.Mk (Some (Timestamp.Mk 1700000001 5)) f "boom".

Definition sampleMessage (n : nat) (dst : ClientID.t) (res : option MessageResult.t) : Message.t :=
  Message.Mk (Some (bytesOfNat n 32)) (Some (Address.Mk None "sys")) false (Some "src"%string)
    (Some (Address.Mk (ClientID.Bytes dst) "svc")) "Type" (Some (Timestamp.Mk 1700000000 7))
    (Some (Any.Mk "url" (Some "payload"%string))) None res Message.MEDIUM false None.

Definition sampleID (n : nat) : MessageID.t := MessageID.Mk (bytesOfNat n 32).

Definition sampleWorld : World Db :=
  runOk (StoreMessages [sampleMessage 1 exampleClientID None;
                        sampleMessage 2 exampleClientID None] "") (mkWorld emptyDb 0).

Section Properties.
Context `{P : Platform} `{L : ProtoLib} `{C : Connection}.

(** C2: [StoreMessages] implements its contract: for every message id, the
    outcome recorded after a successful call is the merge, in order, of the
    results of the stored messages with that id into the outcome recorded
    before: success overwrites, failure fills an empty slot, the rest is
    dropped, and no other message is touched. *)
Theorem store_messages_refines_contract msgs contact w u w' id :
  MessageID.valid id ->
  StoreMessages msgs contact w = (Ok u, w') ->
  statusOf (w_data w') (MessageID.String id) =
    mergeAll id (statusOf (w_data w) (MessageID.String id)) msgs.
Proof. apply StoreMessages_status. Qed.

(** The result a client of the store reads is the one recorded. *)
Lemma GetMessageResult_Ok id w r w' :
  GetMessageResult id w = (Ok r, w') ->
  w_data w' = w_data w /\
  r = match statusOf (w_data w) (MessageID.String id) with Absent => None | Present r => r end.
Proof.
  intros (_ & w1 & E & _ & ->)%runInTx_Ok. simpl.
  unfold statusOf. apply bind_Ok in E as (e & w2 & E1 & E).
  unfold try, queryRow in E1. simpl in E1.
  destruct (sqlFault _); [by injection E1 as <- <-|].
  destruct (messages (w_data w) !! MessageID.String id) eqn:Hr;
    injection E1 as <- <-; by apply ret_Ok in E as [<- <-].
Qed.
End Properties.

Lemma store_messages_refines_contract_witness :
  let w := mkWorld emptyDb 0 in
  let msgs := [sampleMessage 1 exampleClientID (Some (sampleResult true));
               sampleMessage 1 exampleClientID (Some (sampleResult false))] in
  statusOf (w_data (runOk (StoreMessages msgs "") w)) (MessageID.String (sampleID 1))
    = Present (normResult (sampleResult false)).
Proof.
  intros w msgs.
  rewrite (store_messages_refines_contract msgs "" w tt _ (sampleID 1));
    [vm_compute; reflexivity | by right | vm_compute; reflexivity].
Defined.

Lemma sampleWorld_wf : wf (w_data sampleWorld).
Proof.
  apply (preserves_StoreMessages [sampleMessage 1 exampleClientID None;
    sampleMessage 2 exampleClientID None] "" (mkWorld emptyDb 0)). exact (wf_empty _).
Qed.

(** ** Results and payloads *)
Section Payload.
Context `{P : Platform} `{L : ProtoLib}.

Definition hasResult (st : status) : Prop := exists r, st = Present (Some r).

(** Every result the server makes carries the time of processing. *)
Definition timed (m : Message.t) : Prop :=
  forall r, Message.Result m = Some r -> is_Some (MessageResult.ProcessedTime r).

Lemma mergeStatus_hasResult st m :
  timed m -> hasResult st \/ is_Some (Message.Result m) ->
  hasResult (mergeStatus st (Message.Result m)).
Proof.
  unfold timed, hasResult. intros Ht H.
  destruct (Message.Result m) as [res|].
  - destruct (Ht res eq_refl) as [pt Hpt].
    assert (Hn : exists r, normResult res = Some r) by (unfold normResult; rewrite Hpt; eauto).
    destruct Hn as [r Hn]. destruct st as [|[old|]]; simpl; rewrite Hn; [eauto| |eauto].
    destruct (MessageResult.Failed res); eauto.
  - destruct H as [[r ->]|[? [=]]]. simpl. eauto.
Qed.

Lemma mergeAll_hasResult id st msgs :
  Forall timed msgs ->
  hasResult st \/
  Exists (fun m => MessageID.BytesToMessageID (Message.MessageId m) = Ok id /\
                   is_Some (Message.Result m)) msgs ->
  hasResult (mergeAll id st msgs).
Proof.
  intros Hm. revert st. induction Hm as [|m msgs Ht Hm IH]; intros st H; simpl.
  - destruct H as [H|H]; [done|by apply Exists_nil in H].
  - apply IH. rewrite Exists_cons in H. case_bool_decide as Hid.
    + destruct H as [H|[[_ H]|H]]; [left|left|by right]; apply mergeStatus_hasResult; auto.
    + naive_solver.
Qed.

Lemma wf_hasResult d key : wf d -> hasResult (statusOf d key) -> pending_messages d !! key = None.
Proof.
  intros [_ Hp _] [r Hr]. apply eq_None_not_Some. rewrite Hp.
  intros (row & Hrow & Ht). unfold statusOf, toMessageResultProto in Hr.
  by rewrite Hrow, Ht in Hr.
Qed.

(** A message that has been given a result is no longer eligible for
    delivery and its payload is gone, whether the result came with
    [StoreMessages] or by [SetMessageResult] on a stored message. *)
Theorem result_drops_payload w u w' id :
  wf (w_data w) -> MessageID.valid id ->
  ((exists msgs contact m,
      StoreMessages msgs contact w = (Ok u, w') /\ Forall timed msgs /\ m ∈ msgs /\
      MessageID.BytesToMessageID (Message.MessageId m) = Ok id /\
      is_Some (Message.Result m)) \/
   (exists dest res, SetMessageResult dest id res w = (Ok u, w'))) ->
  pending_messages (w_data w') !! MessageID.String id = None.
Proof.
  intros Hwf Hid [(msgs & contact & m & E & Ht & Hm & Hi & Hr)|(dest & res & E)].
  - apply wf_hasResult.
    + pose proof (preserves_StoreMessages msgs contact w Hwf) as H. by rewrite E in H.
    + rewrite (StoreMessages_status _ _ _ _ _ _ Hid E). apply mergeAll_hasResult; [done|].
      right. apply Exists_exists. by exists m.
  - apply runInTx_Ok in E as (_ & w1 & E & _ & ->). simpl.
    apply trySetMessageResult_Ok in E as (pt & _ & ->). simpl. apply lookup_delete_eq.
Qed.
End Payload.

Lemma result_drops_payload_witness :
  let w := sampleWorld in
  is_Some (pending_messages (w_data w) !! MessageID.String (sampleID 1)) /\
  pending_messages (w_data (runOk (SetMessageResult exampleClientID (sampleID 1)
    (sampleResult false)) w)) !! MessageID.String (sampleID 1) = None.
Proof.
  intros w. split; [vm_compute; eexists; reflexivity|].
  apply (result_drops_payload w tt _ (sampleID 1)).
  - exact sampleWorld_wf.
  - by right.
  - right. exists exampleClientID, (sampleResult false). vm_compute. reflexivity.
Defined.

(** ** Round trip *)
Definition dbClientID (c : ClientID.t) : string :=
  if ClientID.IsNil c then ""%string else ClientID.String c.

Lemma toClientIDString_Bytes c :
  ClientID.valid c -> toClientIDString (ClientID.Bytes c) = Ok (dbClientID c).
Proof.
  intros Hc. unfold toClientIDString, dbClientID. rewrite ClientID_Bytes_read by done.
  unfold blen. rewrite ClientID_Bytes_contents. unfold ClientID.IsNil.
  destruct Hc as [H|H]; rewrite H; simpl.
  - by apply length_0_empty in H as ->.
  - by rewrite eqb_empty_false by lia.
Qed.

Lemma fromClientIDString_db c :
  ClientID.valid c -> fromClientIDString (dbClientID c) = Ok (ClientID.Bytes c).
Proof.
  intros Hc. unfold fromClientIDString, dbClientID.
  destruct (ClientID.IsNil c) eqn:Hn.
  - unfold ClientID.Bytes. unfold ClientID.IsNil in Hn. by rewrite Hn.
  - pose proof (ClientID_String_length c Hc Hn). rewrite eqb_empty_false by lia.
    by rewrite ClientID_String_read.
Qed.

(** The messages the tables can hold without loss: what is stored for
    delivery, with the fields the schema has no column for at their zero
    value. *)
Record storable `{ProtoLib} (m : Message.t) (id : MessageID.t)
    (src dst : ClientID.t) (ssvc dsvc smid : string) (ts : Timestamp.t) : Prop := {
  st_id : String.length (MessageID.id id) = 32 /\ Message.MessageId m = MessageID.Bytes id;
  st_src : ClientID.valid src /\
    Message.Source m = Some (Address.Mk (ClientID.Bytes src) ssvc);
  st_dst : ClientID.valid dst /\
    Message.Destination m = Some (Address.Mk (ClientID.Bytes dst) dsvc);
  st_smid : Message.SourceMessageId m = Some smid;
  st_time : Message.CreationTime m = Some ts /\ Timestamp.Seconds ts <> 0%Z;
  st_vi : match Message.ValidationInfo m with
          | None => True
          | Some v => exists c b, marshalValidationInfo v = Ok (String c b)
          end;
  st_an : match Message.Annotations m with
          | None => True
          | Some a => exists c b, marshalAnnotations a = Ok (String c b)
          end;
  st_rest : Message.IsBlocklistedSource m = false /\ Message.Result m = None /\
    Message.priority m = Message.MEDIUM /\ Message.Background m = false;
}.

Lemma marshalOpt_roundtrip {A} (f : A -> outcome string) g (o : option A) :
  (forall a b, f a = Ok b -> g b = Ok a) ->
  match o with None => True | Some a => exists c b, f a = Ok (String c b) end ->
  exists v, marshalOpt f o = Ok v /\ unmarshalOpt g v = Ok o.
Proof.
  intros Hfg. destruct o as [a|]; simpl.
  - intros (c & b & E). rewrite E. simpl. eexists. split; [done|].
    unfold unmarshalOpt, blen. simpl. by rewrite (Hfg _ _ E).
  - intros _. by exists None.
Qed.

Lemma clearFailure_id r : failed r = None -> failedReason r = None -> clearFailure r = r.
Proof. destruct r; simpl. unfold clearFailure, setProcessed. simpl. congruence. Qed.

Lemma encodeSourceID_read s : Hex.DecodeString (encodeSourceID (Some s)) = Ok s.
Proof.
  unfold encodeSourceID. case_decide as Hb; [|apply Hex.Decode_Encode].
  unfold blen in Hb. simpl in Hb. by apply length_0_empty in Hb as ->.
Qed.

Lemma fromMessageProto_storable `{L : ProtoLib} m id src dst ssvc dsvc smid ts :
  ProtoLibOK L -> storable m id src dst ssvc dsvc smid ts ->
  exists r, fromMessageProto m =
      Ok (mkDbMessage r 0 (Any.TypeUrl <$> Message.Data m) (d ← Message.Data m; Any.Value d)) /\
    messageID r = MessageID.String id /\ destinationClientID r = dbClientID dst /\
    creationTimeSeconds r <> 0%Z /\ processedTimeSeconds r = None /\
    clearFailure r = r /\
    forall n, toMessageProto (mkDbMessage r n (Any.TypeUrl <$> Message.Data m)
                              (d ← Message.Data m; Any.Value d)) = Ok m.
Proof.
  intros HL [[Hl Hid] [Hs Hsrc] [Hd Hdst] Hsm [Ht Hnz] Hvi Han (H1 & H2 & H3 & H4)].
  destruct (marshalOpt_roundtrip _ unmarshalValidationInfo _ (validationInfo_roundtrip) Hvi)
    as (vi & Ev & Uv).
  destruct (marshalOpt_roundtrip _ unmarshalAnnotations _ (annotations_roundtrip) Han)
    as (an & Ea & Ua).
  unfold fromMessageProto.
  rewrite Hid, MessageID_Bytes_read by (by right). cbn [mbind outcome_bind].
  rewrite Hsrc. cbn. rewrite toClientIDString_Bytes by done. cbn [mbind outcome_bind].
  rewrite Hdst. cbn. rewrite toClientIDString_Bytes by done. cbn [mbind outcome_bind].
  rewrite Ev, Ea, H2, Hsm, Ht. cbn.
  eexists. split; [done|]. split; [done|]. split; [done|]. split; [done|].
  split; [done|]. split; [done|]. intros n.
  unfold toMessageProto. cbn.
  rewrite MessageID_String_read by (by right). cbn [mbind outcome_bind].
  rewrite encodeSourceID_read. cbn [mbind outcome_bind].
  rewrite !fromClientIDString_db by done. cbn [mbind outcome_bind].
  rewrite Uv, Ua. cbn [mbind outcome_bind]. f_equal.
  destruct m as [? ? ? ? ? ? ? dat ? ? ? ? ?]. simpl in *. subst.
  unfold toMessageResultProto. cbn. destruct ts. by destruct dat as [[]|].
Qed.

Section RoundTrip.
Context `{P : Platform} `{L : ProtoLib}.

(** A message stored for delivery is read back whole: with a working
    engine, storing it succeeds, and [GetMessages] then returns exactly that
    message, payload included. *)
Theorem store_get_roundtrip (w : World Db) m id src dst ssvc dsvc smid ts :
  faultless -> ProtoLibOK L -> wf (w_data w) ->
  storable m id src dst ssvc dsvc smid ts ->
  messages (w_data w) !! MessageID.String id = None ->
  exists w1 w2, StoreMessages [m] "" w = (Ok tt, w1) /\
    GetMessages [id] true w1 = (Ok [m], w2).
Proof.
  intros Hf HL Hwf Hst Hnew.
  destruct (fromMessageProto_storable m id src dst ssvc dsvc smid ts HL Hst)
    as (r & Efrom & Hk & Hdst & Hnz & Hp & Hcl & Hto).
  assert (Hpn : pending_messages (w_data w) !! messageID r = None).
  { rewrite Hk. apply eq_None_not_Some. rewrite (wf_pending _ Hwf). intros (? & ? & _). congruence. }
  assert (Hres : Message.Result m = None) by (by destruct Hst as [_ _ _ _ _ _ _ (_ & ? & _)]).
  assert (E : exists w1 due, StoreMessages [m] "" w = (Ok tt, w1) /\
            messages (w_data w1) !! messageID r = Some r /\
            pending_messages (w_data w1) !! messageID r =
              Some (mkPendingRow 0 due (Any.TypeUrl <$> Message.Data m)
                      (d ← Message.Data m; Any.Value d))).
  { rewrite <- Hk in Hnew.
    unfold StoreMessages, runInTx. rewrite Hf. cbn [mapMs].
    unfold storeOne. rewrite Efrom, Hres.
    unfold mbind, M_bind, lift, mret, M_ret, selectProcessed, try, queryRow. cbn.
    rewrite Hf, Hnew. cbn. unfold tryStoreMessage. cbn.
    rewrite (proj2 (Z.eqb_neq _ _) Hnz).
    unfold mbind, M_bind, insertMessage, execN. cbn. rewrite Hf, Hnew. cbn. rewrite Hp. cbn.
    unfold ServerRetryTime, mbind, M_bind, now, interact, insertPending, exec.
    destruct (String.eqb (destinationClientID r) ""); cbn; rewrite !Hf; cbn;
      rewrite Hpn, lookup_insert_eq; cbn; rewrite !Hf;
      do 2 eexists; (split; [reflexivity|]); cbn; by rewrite !lookup_insert_eq. }
  destruct E as (w1 & due & E1 & Em & Ep). exists w1.
  unfold GetMessages, runInTx, getMessages. rewrite Hf. cbn [mapMs].
  unfold mbind, M_bind, queryRow, lift, mret, M_ret, try. cbn.
  rewrite !Hf, <- Hk, Em. cbn. rewrite Hf, Ep. cbn. rewrite Hcl, Hto. cbn.
  rewrite Hf. by eexists.
Qed.
End RoundTrip.

Lemma store_get_roundtrip_witness :
  exists w1 w2, StoreMessages [sampleMessage 1 exampleClientID None] "" (mkWorld emptyDb 0)
      = (Ok tt, w1) /\
    GetMessages [sampleID 1] true w1 = (Ok [sampleMessage 1 exampleClientID None], w2).
Proof.
  apply (store_get_roundtrip (mkWorld emptyDb 0) (sampleMessage 1 exampleClientID None)
           (sampleID 1) ClientID.nil exampleClientID "sys" "svc" "src"
           (Timestamp.Mk 1700000000 7)).
  - intros n. reflexivity.
  - exact TestProtoLibOK.
  - exact (wf_empty _).
  - split; simpl; try done; [split; [by left|done] | split; [by right|done]].
  - reflexivity.
Defined.

(** ** Handing out due messages *)
Section Due.
Context `{P : Platform} `{L : ProtoLib} `{C : Connection}.

Definition keyOf (dbm : dbMessage) : string := messageID (row dbm).
Definition svcOf (dbm : dbMessage) : string := destinationServiceName (row dbm).

(** [p'] is [p] rescheduled by one delivery to a client or to the server. *)
Definition rescheduled (dbm : dbMessage) (p p' : pendingRow) : Prop :=
  exists due, p' = setSchedule (wrapU32 (retryCount dbm + 1)) due p /\
  (destinationClientID (row dbm) <> ""%string ->
   exists n, due = toMicro (clock n + 15 * Minute)).

Lemma takeRow_Ok dbm w m w' :
  takeRow dbm w = (Ok m, w') ->
  toMessageProto dbm = Ok m /\ messages (w_data w') = messages (w_data w) /\
  exists f, pending_messages (w_data w') = alter f (keyOf dbm) (pending_messages (w_data w)) /\
    forall p, rescheduled dbm p (f p).
Proof.
  unfold takeRow. intros E. apply bind_Ok in E as (t & w1 & E1 & E).
  apply bind_Ok in E as (u & w2 & E2 & E). apply lift_Ok in E as [E <-].
  apply exec_Ok in E2 as (_ & E2 & _). injection E2 as <-. simpl. split; [done|].
  assert (Hd : w_data w1 = w_data w /\
    (destinationClientID (row dbm) <> ""%string -> exists n, t = (clock n + 15 * Minute)%Z)).
  { unfold ServerRetryTime, ClientRetryTime in E1.
    destruct (String.eqb_spec (destinationClientID (row dbm)) ""); inv_sql; simpl;
      (split; [done|]); [done|]. intros _. by eexists. }
  destruct Hd as [-> Ht]. split; [done|]. eexists. split; [done|]. intros p.
  eexists. split; [done|]. intros Hne. destruct (Ht Hne) as [n ->]. by exists n.
Qed.

(** The budget left for a service. *)
Definition limitOf (sl : gmap string Z) (svc : string) : Z := default 0%Z (sl !! svc).

Lemma takeRows_Ok lim sl rows read res w out w' :
  NoDup (keyOf <$> rows) ->
  takeRows lim sl rows read res w = (Ok out, w') ->
  exists taken msgs, out = res ++ msgs /\
    taken `sublist_of` rows /\
    Forall2 (fun dbm m => toMessageProto dbm = Ok m) taken msgs /\
    messages (w_data w') = messages (w_data w) /\
    (forall k, k ∉ keyOf <$> taken ->
       pending_messages (w_data w') !! k = pending_messages (w_data w) !! k) /\
    (forall dbm, dbm ∈ taken -> forall p, pending_messages (w_data w) !! keyOf dbm = Some p ->
       exists p', pending_messages (w_data w') !! keyOf dbm = Some p' /\ rescheduled dbm p p').
Proof.
  intros Hnd. revert read res w. induction rows as [|dbm rows IH]; intros read res w; simpl.
  { intros [<- <-]%ret_Ok. exists [], []. rewrite app_nil_r.
    split_and!; try done; set_solver. }
  inversion_clear Hnd as [|? ? Hnot Hnd']. specialize (IH Hnd').
  destruct (match sl with Some _ => _ | None => _ end) eqn:Hfull.
  { intros E. destruct (IH _ _ _ E) as (taken & msgs & -> & Hsub & H).
    exists taken, msgs. split; [done|]. split; [by apply sublist_cons|done]. }
  intros (m & w1 & E1 & E)%bind_Ok.
  apply takeRow_Ok in E1 as (Hm & Hmsg & f & Hp & Hf).
  assert (Hstep : exists taken msgs, out = (res ++ [m]) ++ msgs /\
    taken `sublist_of` rows /\ Forall2 (fun dbm m => toMessageProto dbm = Ok m) taken msgs /\
    messages (w_data w') = messages (w_data w1) /\
    (forall k, k ∉ keyOf <$> taken ->
       pending_messages (w_data w') !! k = pending_messages (w_data w1) !! k) /\
    (forall dbm, dbm ∈ taken -> forall p, pending_messages (w_data w1) !! keyOf dbm = Some p ->
       exists p', pending_messages (w_data w') !! keyOf dbm = Some p' /\ rescheduled dbm p p')).
  { destruct (_ <=? _)%Z; [|by apply (IH _ _ _ E)]. apply ret_Ok in E as [<- <-].
    exists [], []. rewrite app_nil_r. split_and!; try done; [apply sublist_nil_l|set_solver]. }
  destruct Hstep as (taken & msgs & -> & Hsub & H2 & Hmsg' & Hk & Ht).
  assert (Hnk : keyOf dbm ∉ keyOf <$> taken).
  { intros Hin. apply Hnot. apply list_elem_of_fmap in Hin as (y & Hy & Hin).
    rewrite Hy. apply list_elem_of_fmap_2. by eapply elem_of_sublist. }
  exists (dbm :: taken), (m :: msgs). split; [by rewrite <- app_assoc|].
  split; [by constructor|]. split; [by constructor|]. split; [congruence|]. split.
  - intros k Hkn. rewrite fmap_cons, not_elem_of_cons in Hkn. destruct Hkn as [Hne Hkn].
    rewrite Hk, Hp by done. by rewrite lookup_alter_ne by done.
  - intros d [->|Hd]%elem_of_cons p Hpd.
    + rewrite Hk, Hp by done. rewrite lookup_alter_eq, Hpd. simpl. eauto.
    + apply Ht; [done|]. rewrite Hp, lookup_alter_ne; [done|]. intros Heq. apply Hnk.
      rewrite Heq. by apply list_elem_of_fmap_2.
Qed.

(** How many of [l] are addressed to service [svc]. *)
Definition countTo (svc : string) (l : list Message.t) : Z :=
  Z.of_nat (length (filter (fun m =>
    Address.ServiceName <$> Message.Destination m = Some svc) l)).

Lemma countTo_snoc svc l m s :
  Address.ServiceName <$> Message.Destination m = Some s ->
  countTo svc (l ++ [m]) = (countTo svc l + if decide (s = svc) then 1 else 0)%Z.
Proof.
  intros Hm. unfold countTo. rewrite filter_app, length_app, filter_cons, filter_nil.
  rewrite Hm. repeat case_decide; simplify_eq; simpl; lia.
Qed.

Lemma toMessageProto_dest dbm m :
  toMessageProto dbm = Ok m -> Address.ServiceName <$> Message.Destination m = Some (svcOf dbm).
Proof.
  unfold toMessageProto. intros H.
  repeat (apply outcome_bind_Ok in H as (? & _ & H)). by injection H as <-.
Qed.

Lemma takeRows_limits lim sl rows read res w out w' :
  (forall svc, limitOf sl svc <= u64_max)%Z ->
  (forall svc, 0 <= countTo svc res <= default 0 (read !! svc) /\
               default 0 (read !! svc) <= limitOf sl svc)%Z ->
  takeRows lim (Some sl) rows read res w = (Ok out, w') ->
  forall svc, (countTo svc out <= limitOf sl svc)%Z.
Proof.
  intros Hmax. revert read res w. induction rows as [|dbm rows IH]; intros read res w Hinv; simpl.
  { intros [<- _]%ret_Ok svc. specialize (Hinv svc). lia. }
  fold (limitOf sl (destinationServiceName (row dbm))).
  destruct (Z.leb_spec (limitOf sl (svcOf dbm)) (default 0%Z (read !! svcOf dbm))) as [Hle|Hlt];
    unfold svcOf in *.
  { rewrite (proj2 (Z.leb_le _ _)) by done. by apply IH. }
  rewrite (proj2 (Z.leb_gt _ _)) by done.
  intros (m & w1 & E1 & E)%bind_Ok. apply takeRow_Ok in E1 as (Hm & _).
  apply toMessageProto_dest in Hm. unfold svcOf in Hm.
  set (s := destinationServiceName (row dbm)) in *.
  assert (Hinv' : forall svc,
    (0 <= countTo svc (res ++ [m])
       <= default 0 (<[s := wrapU64 (default 0 (read !! s) + 1)]> read !! svc) /\
     default 0 (<[s := wrapU64 (default 0 (read !! s) + 1)]> read !! svc) <= limitOf sl svc)%Z).
  { intros svc. rewrite (countTo_snoc _ _ _ s Hm), lookup_insert.
    pose proof (Hinv svc). pose proof (Hinv s). pose proof (Hmax s).
    case_decide; [subst svc|]; simpl; [|lia].
    rewrite wrapU64_small; unfold isU64, u64_max in *; lia. }
  destruct (_ <=? _)%Z; [|by apply (IH _ _ _ Hinv' E)].
  apply ret_Ok in E as [<- _]. intros svc. specialize (Hinv' svc). lia.
Qed.

Lemma takeRows_length lim sl rows read res w out w' :
  (1 <= lim <= i64_max)%Z -> (Z.of_nat (length res) < lim)%Z ->
  takeRows lim sl rows read res w = (Ok out, w') ->
  (Z.of_nat (length out) <= lim)%Z.
Proof.
  intros Hlim. revert read res w. induction rows as [|dbm rows IH]; intros read res w Hres; simpl.
  { intros [<- _]%ret_Ok. lia. }
  destruct (match sl with Some _ => _ | None => _ end); [by apply IH|].
  intros (m & w1 & _ & E)%bind_Ok. rewrite length_app in E. simpl in E.
  destruct (Z.leb_spec (wrapI64 lim) (Z.of_nat (length res + 1))) as [Hle|Hlt].
  - apply ret_Ok in E as [<- _]. rewrite length_app. simpl. lia.
  - rewrite wrapI64_small in Hlt by (unfold i64_max in *; lia).
    apply (IH _ _ _) in E; [done|]. rewrite length_app. simpl. lia.
Qed.

(** The rows the join selects. *)
Lemma elem_of_dueRows dest t d dbm :
  wf d ->
  dbm ∈ dueRows dest t d ->
  exists r p, messages d !! keyOf dbm = Some r /\ pending_messages d !! keyOf dbm = Some p /\
    destinationClientID r = dest /\ processedTimeSeconds r = None /\
    (scheduled_time p < t)%Z /\ retryCount dbm = retry_count p /\
    row dbm = setProcessed None None None None r /\
    dataTypeURL dbm = data_type_url p /\ dataValue dbm = data_value p.
Proof.
  intros [Hkey Hpend _]. unfold dueRows. rewrite list_elem_of_omap. intros ([k r] & Hin & H).
  apply elem_of_map_to_list in Hin. simpl in H.
  destruct (pending_messages d !! k) as [p|] eqn:Hp; [|done].
  case_decide as Hc; [|done]. destruct Hc as [Hdest Hs]. injection H as <-.
  assert (Hk : messageID r = k) by (by apply Hkey). unfold keyOf. simpl. rewrite Hk.
  exists r, p. destruct (proj1 (Hpend k)) as (r' & Hr' & Ht); [by eauto|].
  rewrite Hin in Hr'. injection Hr' as <-. done.
Qed.

Lemma dueRows_NoDup dest t d : wf d -> NoDup (keyOf <$> dueRows dest t d).
Proof.
  intros Hwf. unfold dueRows.
  assert (H : forall l, NoDup (l.*1) -> (forall k r, (k, r) ∈ l -> messageID r = k) ->
    NoDup (keyOf <$> omap (fun kr : string * messageRow =>
      match pending_messages d !! kr.1 with
      | Some p => if decide (destinationClientID kr.2 = dest /\ (scheduled_time p < t)%Z)
          then Some (mkDbMessage (setProcessed None None None None kr.2)
                       (retry_count p) (data_type_url p) (data_value p)) else None
      | None => None end) l)).
  { induction l as [|[k r] l IH]; intros Hnd Hk; [constructor|].
    inversion_clear Hnd as [|? ? Hn Hnd']. simpl.
    assert (IH' := IH Hnd' (fun k' r' Hin => Hk k' r' (list_elem_of_further _ _ _ Hin))).
    destruct (pending_messages d !! k); [|done]. case_decide; [|done]. simpl.
    constructor; [|done]. unfold keyOf at 1. simpl. rewrite (Hk k r) by (by left).
    intros Hin. apply list_elem_of_fmap in Hin as (y & Hy & Hin).
    apply list_elem_of_omap in Hin as ([k' r'] & Hin & Hf). simpl in Hf.
    apply Hn. apply list_elem_of_fmap. exists (k', r'). split; [|done]. simpl.
    destruct (pending_messages d !! k'); [|done]. case_decide; [|done]. injection Hf as <-.
    rewrite Hy. unfold keyOf. simpl. apply Hk. by right. }
  apply H; [apply NoDup_fst_map_to_list|].
  intros k r Hin. apply (wf_key _ Hwf). by apply elem_of_map_to_list.
Qed.
End Due.

Section DueProperties.
Context `{P : Platform} `{L : ProtoLib} `{C : Connection}.

(** A row handed out: due, unprocessed, addressed to [dest], and rescheduled. *)
Definition handedOut (dest : string) (t : Z) (d d' : Db) (dbm : dbMessage) : Prop :=
  exists r p p', messages d !! keyOf dbm = Some r /\ destinationClientID r = dest /\
    processedTimeSeconds r = None /\ row dbm = setProcessed None None None None r /\
    pending_messages d !! keyOf dbm = Some p /\ (scheduled_time p < t)%Z /\
    dataTypeURL dbm = data_type_url p /\ dataValue dbm = data_value p /\
    pending_messages d' !! keyOf dbm = Some p' /\ rescheduled dbm p p'.

Lemma internalMessages_Ok id lim sl w msgs w' :
  PlatformOK P -> wf (w_data w) -> ClientID.valid id ->
  internalMessagesForProcessing id lim sl w = (Ok msgs, w') ->
  exists taken n, NoDup (keyOf <$> taken) /\
    Forall2 (fun dbm m => toMessageProto dbm = Ok m) taken msgs /\
    (forall dbm, dbm ∈ taken ->
       handedOut (dbClientID id) (toMicro (clock n)) (w_data w) (w_data w') dbm) /\
    (forall k, k ∉ keyOf <$> taken ->
       pending_messages (w_data w') !! k = pending_messages (w_data w) !! k) /\
    messages (w_data w') = messages (w_data w) /\
    exists rows w1 w2, takeRows lim sl rows ∅ [] w1 = (Ok msgs, w2).
Proof.
  intros HP Hwf Hid (_ & w1 & E & _ & ->)%runInTx_Ok. simpl.
  apply bind_Ok in E as (dest & w2 & E1 & E). apply lift_Ok in E1 as [Hdest <-].
  rewrite toClientIDString_Bytes in Hdest by done. injection Hdest as <-.
  apply bind_Ok in E as (t & w3 & E1 & E). apply interact_Ok in E1 as [Ht ->].
  injection Ht as <-. apply bind_Ok in E as (rows & w4 & E1 & E).
  apply query_Ok in E1 as (_ & (l & Hl & ->) & ->). injection Hl as <-. simpl in E.
  match type of E with takeRows _ _ (deliver ?m ?A ?l) _ _ _ = _ =>
    pose proof (deliver_perm m A l) as Hperm end.
  pose proof E as E'. apply takeRows_Ok in E'.
  - destruct E' as (taken & ms & -> & Hsub & H2 & Hm & Hk & Ht). simpl in *.
    eexists taken, _. split.
    { eapply sublist_NoDup; [|by apply fmap_sublist]. rewrite Hperm. by apply dueRows_NoDup. }
    split; [done|]. split; [|split; [done|]; split; [done|]; by do 3 eexists].
    intros dbm Hin. assert (Hrow : dbm ∈ dueRows (dbClientID id) (toMicro (clock (S (w_step w)))) (w_data w)).
    { rewrite <- Hperm. by eapply elem_of_sublist. }
    apply elem_of_dueRows in Hrow as (r & p & ? & Hp & ? & ? & ? & _ & ? & ? & ?); [|done].
    destruct (Ht dbm Hin p Hp) as (p' & ? & ?). exists r, p, p'. by split_and!.
  - rewrite Hperm. by apply dueRows_NoDup.
Qed.

(** C3: [ClientMessagesForProcessing] hands a client only its own messages
    that are unprocessed and overdue, each once and unchanged, never more
    than asked for nor more than any service's budget; each one's next
    attempt is put 15 minutes off and nothing else changes. *)
Theorem client_messages_for_processing_spec id lim sl w msgs w' :
  PlatformOK P -> wf (w_data w) -> ClientID.valid id -> (1 <= lim <= i64_max)%Z ->
  ClientMessagesForProcessing id lim sl w = (Ok msgs, w') ->
  id <> ClientID.nil /\ (Z.of_nat (length msgs) <= lim)%Z /\
  (forall s, sl = Some s -> (forall svc, 0 <= limitOf s svc <= u64_max)%Z ->
     forall svc, (countTo svc msgs <= limitOf s svc)%Z) /\
  exists taken n, NoDup (keyOf <$> taken) /\
    Forall2 (fun dbm m => toMessageProto dbm = Ok m) taken msgs /\
    (forall dbm, dbm ∈ taken ->
       handedOut (ClientID.String id) (toMicro (clock n)) (w_data w) (w_data w') dbm) /\
    (forall k, k ∉ keyOf <$> taken ->
       pending_messages (w_data w') !! k = pending_messages (w_data w) !! k) /\
    messages (w_data w') = messages (w_data w).
Proof.
  unfold ClientMessagesForProcessing. intros HP Hwf Hid Hlim E.
  case_decide as Hnil; [by inv_run|].
  apply internalMessages_Ok in E as
    (taken & n & Hnd & H2 & Ht & Hk & Hm & rows & w1 & w2 & E); [|done..].
  split; [done|]. split; [by apply (takeRows_length _ _ _ _ [] _ _ _ Hlim) in E; [|simpl; lia]|].
  split.
  { intros s -> Hs. eapply takeRows_limits; [intros svc; apply (proj2 (Hs svc))| |exact E].
    intros svc. rewrite lookup_empty. unfold countTo. simpl. specialize (Hs svc). lia. }
  exists taken, n. split; [done|]. split; [done|]. split; [|by split].
  intros dbm Hin. specialize (Ht dbm Hin). unfold dbClientID in Ht.
  destruct (ClientID.IsNil id) eqn:Hz; [|done]. exfalso. apply Hnil.
  destruct id as [s]. unfold ClientID.IsNil in Hz. simpl in Hz.
  by apply String.eqb_eq in Hz as ->.
Qed.
End DueProperties.

Definition sampleLimits : gmap string Z := {["svc"%string := 5%Z]}.

Lemma sampleLimits_range svc : (0 <= limitOf sampleLimits svc <= u64_max)%Z.
Proof.
  unfold limitOf, sampleLimits. rewrite lookup_singleton. by case_decide.
Qed.

Definition sampleDelivery :=
  ClientMessagesForProcessing exampleClientID 1 (Some sampleLimits) sampleWorld.

Lemma sampleDelivery_Ok :
  exists m, m = sampleMessage 1 exampleClientID None /\
    sampleDelivery = (Ok [m], snd sampleDelivery).
Proof. eexists. split; [reflexivity|]. vm_compute. reflexivity. Qed.

Lemma client_messages_for_processing_spec_witness :
  exists m, (Z.of_nat (length [m]) <= 1)%Z /\ (countTo "svc" [m] <= 5)%Z.
Proof.
  destruct sampleDelivery_Ok as (m & _ & E). exists m.
  destruct (client_messages_for_processing_spec exampleClientID 1 (Some sampleLimits)
    sampleWorld [m] (snd sampleDelivery) TestPlatformOK sampleWorld_wf) as (_ & H1 & H2 & _);
    [by right | by split | exact E |]. split; [exact H1|]. exact (H2 sampleLimits eq_refl sampleLimits_range "svc"%string).
Defined.

(** A limit of 0 still hands out one message: the loop checks after appending. *)
Example limit_zero_hands_out_one :
  fst (ClientMessagesForProcessing exampleClientID 0 None sampleWorld)
    = Ok [sampleMessage 1 exampleClientID None].
Proof. vm_compute. reflexivity. Qed.

(** ** Pending messages: listing, paging and deletion *)
Section Pending.
Context `{P : Platform} `{L : ProtoLib} `{C : Connection}.

Lemma elem_of_pendingFor ids d k :
  k ∈ pendingFor ids d <->
  exists r, messages d !! k = Some r /\
    destinationClientID r ∈ ClientID.String <$> ids /\ is_Some (pending_messages d !! k).
Proof.
  unfold pendingFor. rewrite list_elem_of_fmap. split.
  - intros ([k' r] & -> & H). apply list_elem_of_filter in H as [[H1 H2] H].
    apply elem_of_map_to_list in H. simpl in *. eauto.
  - intros (r & Hr & H1 & H2). exists (k, r). split; [done|].
    apply list_elem_of_filter. split; [done|]. by apply elem_of_map_to_list.
Qed.

Lemma pendingFor_NoDup ids d : NoDup (pendingFor ids d).
Proof.
  unfold pendingFor. eapply sublist_NoDup; [apply (NoDup_fst_map_to_list (messages d))|].
  apply fmap_sublist, sublist_filter.
Qed.

Lemma rawIds_Ok ids off lim w keys w' :
  PlatformOK P ->
  getPendingMessageRawIds ids off lim w = (Ok keys, w') ->
  (0 <= off)%Z -> (0 <= lim)%Z ->
  let all := merge_sort strLe (pendingFor ids (w_data w)) in
  w_data w' = w_data w /\
  keys = if (lim =? 0)%Z then all else take (Z.to_nat lim) (drop (Z.to_nat off) all).
Proof.
  intros HP E Ho Hl. pose proof (getPendingMessageRawIds_data _ _ _ _ _ _ E) as Hd.
  split; [done|]. unfold getPendingMessageRawIds in E.
  destruct (Z.eqb_spec off 0) as [->|Hoff]; simpl in E;
    destruct (Z.eqb_spec lim 0) as [->|Hlim]; simpl in E; try (by inv_run);
    (destruct (query _ w) as [r w1] eqn:Eq; injection E as Er _;
     destruct r as [rows| |]; [|done..]; injection Er as <-;
     apply query_Ok in Eq as (_ & (l & Eq & ->) & ->);
     repeat (apply outcome_bind_Ok in Eq as (? & _ & Eq)); injection Eq as <-;
     replace (merge_sort strLe (deliver _ _ _)) with (merge_sort strLe (pendingFor ids (w_data w)))
       by (apply (Sorted_unique strLe); [apply Sorted_merge_sort, _..|];
           rewrite !merge_sort_Permutation; by rewrite deliver_perm)); done.
Qed.

(** Pages of pending messages tile: a page is the window of the full
    listing its offset and limit name, so consecutive pages repeat nothing
    and miss nothing; the full listing has every pending message of the
    given clients once, in id order. *)
Theorem pending_pages_tile ids off lim w1 w2 all page w1' w2' :
  PlatformOK P -> w_data w1 = w_data w2 -> (0 <= off)%Z -> (0 < lim)%Z ->
  getPendingMessageRawIds ids 0 0 w1 = (Ok all, w1') ->
  getPendingMessageRawIds ids off lim w2 = (Ok page, w2') ->
  page = take (Z.to_nat lim) (drop (Z.to_nat off) all) /\
  StronglySorted strLe all /\ NoDup all /\
  (forall k, k ∈ all <-> exists r, messages (w_data w1) !! k = Some r /\
     destinationClientID r ∈ ClientID.String <$> ids /\
     is_Some (pending_messages (w_data w1) !! k)).
Proof.
  intros HP Hd Ho Hl E1 E2.
  apply rawIds_Ok in E1 as [_ ->]; [|done..]. apply rawIds_Ok in E2 as [_ ->]; [|done|lia..].
  rewrite <- Hd. rewrite (proj2 (Z.eqb_neq lim 0)) by lia. simpl.
  split; [done|]. split; [apply StronglySorted_merge_sort; apply _|]. split.
  - rewrite merge_sort_Permutation. apply pendingFor_NoDup.
  - intros k. rewrite merge_sort_Permutation. apply elem_of_pendingFor.
Qed.

Definition removedByAdmin (ts : Timestamp.t) : MessageResult.t :=
  MessageResult.Mk (Some ts) true "Removed by admin action.".

(** [DeletePendingMessages] fails exactly the pending messages of the
    given clients, with the administrator's reason and the current time, and
    leaves every other message alone; none of those clients has a pending
    message afterwards. *)
Theorem delete_pending_messages_spec ids w u w' :
  PlatformOK P -> wf (w_data w) ->
  DeletePendingMessages ids w = (Ok u, w') ->
  (forall k, k ∈ pendingFor ids (w_data w) ->
     (exists ts, statusOf (w_data w') k = Present (normResult (removedByAdmin ts))) /\
     pending_messages (w_data w') !! k = None) /\
  (forall k, k ∉ pendingFor ids (w_data w) ->
     messages (w_data w') !! k = messages (w_data w) !! k /\
     pending_messages (w_data w') !! k = pending_messages (w_data w) !! k) /\
  pendingFor ids (w_data w') = [].
Proof.
  intros HP Hwf (_ & w1 & E & _ & ->)%runInTx_Ok. simpl.
  apply bind_Ok in E as (keys & w2 & E1 & E).
  apply rawIds_Ok in E1 as [Hd Hk]; [|done|lia|lia]. simpl in Hd, Hk.
  assert (Hin : forall k, k ∈ keys <-> k ∈ pendingFor ids (w_data w))
    by (intros k; by rewrite Hk, merge_sort_Permutation).
  assert (Hcases : (keys = [] /\ w_data w1 = w_data w) \/ exists ts,
    w_data w1 = setPending (filter (fun kp : string * pendingRow => kp.1 ∉ keys) (pending_messages (w_data w)))
     (setMessages (map_imap (fun k r => Some (if decide (k ∈ keys) then
        setProcessed (Some true) (Some "Removed by admin action."%string)
          (Some (Timestamp.Seconds ts)) (Some (Timestamp.Nanos ts)) r else r))
        (messages (w_data w))) (w_data w))).
  { case_decide as Hnil; [left; apply ret_Ok in E as [_ <-]; done|]. right.
    apply bind_Ok in E as (ts & w3 & E1 & E). exists ts. rewrite <- Hd.
    unfold NowProto in E1. apply bind_Ok in E1 as (t & w4 & E0 & E1).
    apply interact_Ok in E0 as [_ ->]. destruct (tspbCheckValid _); [by inv_run|].
    apply ret_Ok in E1 as [_ <-]. inv_sql. split_worlds. done. }
  destruct Hcases as [[-> Hw]|[ts Hw]]; rewrite Hw.
  - assert (Hnone : pendingFor ids (w_data w) = []).
    { apply elem_of_nil_inv. intros k Hkin. apply Hin in Hkin. set_solver. }
    rewrite Hnone. split; [set_solver|]. done.
  - assert (Hmsg : forall k, k ∈ keys -> exists r, messages (w_data w) !! k = Some r).
    { intros k (r & Hr & _)%Hin%elem_of_pendingFor. eauto. }
    assert (Hpend : forall k, k ∈ keys ->
      filter (fun kp : string * pendingRow => kp.1 ∉ keys) (pending_messages (w_data w)) !! k = None).
    { intros k Hkin. apply map_lookup_filter_None. right. intros p _ Hnk. by apply Hnk. }
    split; [|split].
    + intros k Hkin. apply Hin in Hkin. simpl. split; [|by apply Hpend].
      exists ts. unfold statusOf. simpl. rewrite map_lookup_imap.
      destruct (Hmsg k Hkin) as [r ->]. simpl. by rewrite decide_True.
    + intros k Hkn. rewrite <- Hin in Hkn. simpl. rewrite map_lookup_imap. split.
      * destruct (messages (w_data w) !! k); [|done]. simpl. by rewrite decide_False.
      * destruct (pending_messages (w_data w) !! k) as [p|] eqn:Hp.
        -- by apply map_lookup_filter_Some.
        -- apply map_lookup_filter_None. by left.
    + apply elem_of_nil_inv. intros k (r & Hr & Hdst & Hp)%elem_of_pendingFor. simpl in *.
      rewrite map_lookup_imap in Hr. apply bind_Some in Hr as (r0 & Hr0 & [= <-]).
      destruct Hp as [p Hp]. apply map_lookup_filter_Some in Hp as [Hp Hkn]. simpl in Hkn.
      rewrite decide_False in Hdst by done. apply Hkn, Hin, elem_of_pendingFor. eauto.
Qed.

(** [GetMessages] reports a failed message as processed without failure:
    its queries leave out the columns that say so. *)
Theorem get_messages_hides_failure id wantData w m w' r :
  statusOf (w_data w) (MessageID.String id) = Present (Some r) ->
  GetMessages [id] wantData w = (Ok [m], w') ->
  Message.Result m = Some (MessageResult.Mk (MessageResult.ProcessedTime r) false "").
Proof.
  intros Hst (_ & w1 & E & _ & ->)%runInTx_Ok. unfold getMessages in E. cbn [mapMs] in E.
  apply bind_Ok in E as (m0 & w2 & E & E').
  apply bind_Ok in E' as (ms & w3 & E1 & E'). apply ret_Ok in E1 as [<- <-].
  apply ret_Ok in E' as [[= ->] _].
  apply bind_Ok in E as (r0 & w3 & E1 & E). apply queryRow_Ok in E1 as (_ & E1 & ->).
  apply fmap_Some in E1 as (r1 & Hr1 & ->). simpl in Hr1.
  apply bind_Ok in E as (dat & w4 & _ & E). apply lift_Ok in E as [E _].
  unfold statusOf in Hst. rewrite Hr1 in Hst. injection Hst as Hst.
  unfold toMessageProto in E. repeat (apply outcome_bind_Ok in E as (? & _ & E)).
  injection E as <-. simpl. unfold toMessageResultProto in *. simpl.
  by destruct (processedTimeSeconds r1); simplify_eq/=.
Qed.
End Pending.

Lemma pending_pages_tile_witness :
  exists all page w1 w2,
    getPendingMessageRawIds [exampleClientID] 0 0 sampleWorld = (Ok all, w1) /\
    getPendingMessageRawIds [exampleClientID] 1 1 sampleWorld = (Ok page, w2) /\
    length all = 2 /\ page = take 1 (drop 1 all).
Proof.
  do 4 eexists. split; [vm_compute; reflexivity|]. split; [vm_compute; reflexivity|].
  split; [reflexivity|].
  eapply (pending_pages_tile [exampleClientID] 1 1 sampleWorld sampleWorld);
    [exact TestPlatformOK | reflexivity | lia | lia | vm_compute; reflexivity..].
Defined.

Lemma delete_pending_messages_spec_witness :
  let w' := runOk (DeletePendingMessages [exampleClientID]) sampleWorld in
  length (pendingFor [exampleClientID] (w_data sampleWorld)) = 2 /\
  pendingFor [exampleClientID] (w_data w') = [].
Proof.
  intros w'. split; [vm_compute; reflexivity|].
  apply (delete_pending_messages_spec [exampleClientID] sampleWorld tt w');
    [exact TestPlatformOK | exact sampleWorld_wf | vm_compute; reflexivity].
Defined.

Lemma get_messages_hides_failure_witness :
  let w := runOk (SetMessageResult exampleClientID (sampleID 1) (sampleResult true)) sampleWorld in
  exists m w', statusOf (w_data w) (MessageID.String (sampleID 1)) = Present (Some (sampleResult true)) /\
    GetMessages [sampleID 1] false w = (Ok [m], w') /\
    Message.Result m = Some (MessageResult.Mk (Some (Timestamp.Mk 1700000001 5)) false "").
Proof.
  intros w. do 2 eexists. split; [vm_compute; reflexivity|].
  split; [vm_compute; reflexivity|].
  apply (get_messages_hides_failure (sampleID 1) false w _
    (snd (GetMessages [sampleID 1] false w)) (sampleResult true)); vm_compute; reflexivity.
Defined.
