(* ===== verification/SqliteClients.v ===== *)
(** * The sqlite client store

    src/server/sqlite/clientstore.go, operation by operation.  [fk] is the
    invariant that rows about a client refer to a row of the clients table.
    A callback runs while the store's mutex is held, so it cannot reach the
    store: its effects are a state of its own. *)
From Stdlib Require Import SpecFloat.
From S2P Require Import Prelude Platform Ids Proto Db Sqlite SqliteMessages.

(** [1.0 / float64(1<<20)]. *)
Definition bytesToMIB : spec_float := S754_finite false (2 ^ 52)%positive (-72).

Section Clients.
Context `{P : Platform} `{L : ProtoLib} `{F : FloatConv} `{C : Connection}.

(** ** Reading *)

(** [h] on one row: the map entry. *)
Definition clientOfRow (sid : string) (r : clientRow) : outcome Client.t :=
  id ← ClientID.StringToClientID sid;
  let ts := tspbNew (last_contact_time r) in
  match tspbCheckValid ts with
  | Some e => Err e
  | None =>
      Ok (Client.Mk (ClientID.Bytes id) [] ts
            (fromNULLString (last_contact_address r))
            (fromNULLString (last_contact_streaming_to r))
            (match last_clock_seconds r, last_clock_nanos r with
             | Some s, Some n => Some (Timestamp.Mk s (wrapI32 n))
             | _, _ => None
             end)
            (blacklisted r))
  end.

Definition addLabel (l : Label.t) (c : Client.t) : Client.t :=
  Client.Mk (Client.ClientId c) (Client.Labels c ++ [l]) (Client.LastContactTime c)
    (Client.LastContactAddress c) (Client.LastContactStreamingTo c)
    (Client.LastClock c) (Client.Blacklisted c).

(** The closure [h]: reads client rows into [retm]. *)
Definition readClients (f : Db -> list (string * clientRow))
    (retm : gmap string Client.t) : Sql (gmap string Client.t) :=
  rows ← query (fun d => Ok (f d));
  foldM (fun m kr => c ← lift (clientOfRow kr.1 kr.2); mret (<[kr.1 := c]> m)) rows retm.

(** The loop of the closure [j]: [retm[sid]] of an unknown id is a nil pointer. *)
Definition addLabelRow {S} (m : gmap string Client.t) (row : string * string * string) : M S (gmap string Client.t) :=
  match m !! row.1.1 with
  | None => crash "nil Client"
  | Some c => mret (<[row.1.1 := addLabel (Label.Mk row.1.2 row.2) c]> m)
  end.

Definition readLabels (f : Db -> list (string * string * string))
    (retm : gmap string Client.t) : Sql (gmap string Client.t) :=
  rows ← query (fun d => Ok (f d));
  foldM addLabelRow rows retm.

Definition clientWith (sid : string) (d : Db) : list (string * clientRow) :=
  match clients d !! sid with Some r => [(sid, r)] | None => [] end.

Definition labelsWith (sid : string) (d : Db) : list (string * string * string) :=
  elements (filter (fun row => row.1.1 = sid) (client_labels d)).

(** Go also hands back what was read when there is an error; no caller of the
    repository looks at it. *)
Definition ListClients (ids : list ClientID.t) : Sql (list Client.t) :=
  retm ← runInTx (
    retm ← (if decide (ids = []) then readClients (fun d => map_to_list (clients d)) ∅
            else foldM (fun m id => readClients (clientWith (ClientID.String id)) m) ids ∅);
    if decide (ids = []) then readLabels (fun d => elements (client_labels d)) retm
    else foldM (fun m id => readLabels (labelsWith (ClientID.String id)) m) ids retm);
  kvs ← rangeMap retm;
  mret (snd <$> kvs).

(** The WHERE clause: NOT blacklisted AND last_contact_time > ?. *)
Definition streamed (includeBlacklisted : bool) (lastContactAfter : option Z)
    (r : clientRow) : bool :=
  (includeBlacklisted || negb (blacklisted r)) &&
  match lastContactAfter with
  | Some t => (UnixNano t <? last_contact_time r)%Z
  | None => true
  end.

Definition StreamClientIds {X} (includeBlacklisted : bool) (lastContactAfter : option Z)
    (callback : X -> ClientID.t -> outcome X) (x : X) : Sql X :=
  runInTx (
    rows ← query (fun d => Ok (fst <$>
      filter (fun kr => streamed includeBlacklisted lastContactAfter kr.2 = true)
        (map_to_list (clients d))));
    foldM (fun x sid =>
      id ← lift (ClientID.StringToClientID sid);
      lift (callback x id)) rows x).

Definition GetClientData (id : ClientID.t) : Sql ClientData.t :=
  runInTx (
    let sid := ClientID.String id in
    c ← queryRow (fun d => (fun r => (client_key r, blacklisted r)) <$> clients d !! sid);
    labels ← query (fun d => Ok ((fun row => Label.Mk row.1.2 row.2) <$> labelsWith sid d));
    mret (ClientData.Mk c.1 labels c.2)).

(** ** Writing *)
Definition insertClient (sid : string) (r : clientRow) : Sql unit :=
  exec (fun d =>
    _ ← constraint (bool_decide (clients d !! sid = None)) "clients.client_id";
    Ok (setClients (<[sid := r]> (clients d)) d)).

Definition insertLabel (sid : string) (l : Label.t) : Sql unit :=
  exec (fun d =>
    let row := (sid, Label.ServiceName l, Label.Label l) in
    _ ← constraint (bool_decide (row ∉ client_labels d)) "client_labels";
    _ ← foreignKey (bool_decide (is_Some (clients d !! sid)));
    Ok (setClientLabels ({[row]} ∪ client_labels d) d)).

Definition AddClient (id : ClientID.t) (data : ClientData.t) : Sql unit :=
  runInTx (
    let sid := ClientID.String id in
    t ← now;
    insertClient sid (mkClientRow (ClientData.Key data) (ClientData.Blacklisted data)
      (UnixNano t) None None None None) ≫= fun _ =>
    forM_ (ClientData.Labels data) (insertLabel sid)).

Definition AddClientLabel (id : ClientID.t) (l : Label.t) : Sql unit :=
  insertLabel (ClientID.String id) l.

Definition RemoveClientLabel (id : ClientID.t) (l : Label.t) : Sql unit :=
  exec (fun d => Ok (setClientLabels
    (client_labels d ∖ {[(ClientID.String id, Label.ServiceName l, Label.Label l)]}) d)).

Definition setBlacklisted (b : bool) (r : clientRow) : clientRow :=
  mkClientRow (client_key r) b (last_contact_time r) (last_contact_address r)
    (last_contact_streaming_to r) (last_clock_seconds r) (last_clock_nanos r).

Definition BlacklistClient (id : ClientID.t) : Sql unit :=
  exec (fun d => Ok (setClients
    (alter (setBlacklisted true) (ClientID.String id) (clients d)) d)).

(** ** Contacts *)

(** The ROWID sqlite gives a new contact: one more than the largest. *)
Definition newRowid {V} (m : gmap Z V) : Z :=
  1 + map_fold (fun k _ acc => Z.max k acc) 0%Z m.

Definition insertContact (r : contactRow) : Sql Z :=
  execN (fun d =>
    _ ← foreignKey (bool_decide (is_Some (clients d !! cc_client_id r)));
    let id := newRowid (client_contacts d) in
    Ok (id, setClientContacts (<[id := r]> (client_contacts d)) d)).

Definition setLastContact (n : Z) (streamingTo : option string) (addr : string)
    (lcs lcn : option Z) (r : clientRow) : clientRow :=
  mkClientRow (client_key r) (blacklisted r) n (Some addr) streamingTo lcs lcn.

Definition RecordClientContact (data : DbContactData.t) : Sql ContactID :=
  runInTx (
    t ← now;
    let n := UnixNano t in
    let sid := ClientID.String (DbContactData.ClientID data) in
    id ← insertContact (mkContactRow sid n
           (Hex.FormatUint16 (DbContactData.NonceSent data))
           (Hex.FormatUint16 (DbContactData.NonceReceived data))
           (Some (DbContactData.Addr data)));
    let lcs := Timestamp.Seconds <$> DbContactData.ClientClock data in
    let lcn := Timestamp.Nanos <$> DbContactData.ClientClock data in
    let lcst := if String.eqb (DbContactData.StreamingTo data) "" then None
                else Some (DbContactData.StreamingTo data) in
    exec (fun d => Ok (setClients
      (alter (setLastContact n lcst (DbContactData.Addr data) lcs lcn) sid (clients d)) d)) ≫= fun _ =>
    mret (Hex.FormatUint16 (wrapU64 id))).

Definition contactOfRow (r : contactRow) : outcome ClientContact.t :=
  match Hex.ParseUint16 (cc_sent_nonce r) with
  | Ok sn =>
      match Hex.ParseUint16 (cc_received_nonce r) with
      | Ok rn =>
          let ts := tspbNew (cc_time r) in
          match tspbCheckValid ts with
          | Some e => Err e
          | None => Ok (ClientContact.Mk sn rn (fromNULLString (cc_address r)) ts)
          end
      | _ => Err (ErrText "Unable to parse received_nonce in db")
      end
  | _ => Err (ErrText "Unable to parse sent_nonce in db")
  end.

Definition contactsOf (sid : string) (d : Db) : list contactRow :=
  snd <$> filter (fun kr => cc_client_id kr.2 = sid) (map_to_list (client_contacts d)).

Definition StreamClientContacts {X} (id : ClientID.t)
    (callback : X -> ClientContact.t -> outcome X) (x : X) : Sql X :=
  runInTx (
    rows ← query (fun d => Ok (contactsOf (ClientID.String id) d));
    foldM (fun x r => c ← lift (contactOfRow r); lift (callback x c)) rows x).

Definition ListClientContacts (id : ClientID.t) : Sql (list ClientContact.t) :=
  StreamClientContacts id (fun res c => Ok (res ++ [c])) [].

Definition linkMessage (c : Z) (key : string) : Sql unit :=
  exec (fun d =>
    _ ← argUint64 c;
    _ ← constraint (bool_decide ((c, key) ∉ client_contact_messages d)) "client_contact_messages";
    _ ← foreignKey (bool_decide (is_Some (client_contacts d !! c)) &&
                    bool_decide (is_Some (messages d !! key)));
    Ok (setContactMessages ({[(c, key)]} ∪ client_contact_messages d) d)).

Definition LinkMessagesToContact (contact : ContactID) (ids : list MessageID.t) : Sql unit :=
  match Hex.ParseUint16 contact with
  | Ok c => runInTx (forM_ ids (fun id => linkMessage c (MessageID.String id)))
  | _ => fail (ErrText "unable to parse ContactID")
  end.

(** ** Resource usage *)

(** [ts.CheckValid] on a pointer that may be nil. *)
Definition checkValid (ts : option Timestamp.t) : outcome Z :=
  match ts with
  | None => Err (ErrText "invalid nil Timestamp")
  | Some ts => match tspbCheckValid ts with
               | Some e => Err e
               | None => Ok (tspbAsTime ts)
               end
  end.

Definition RecordResourceUsageData (id : ClientID.t) (rud : ResourceUsageData.t) : Sql unit :=
  match checkValid (ResourceUsageData.ProcessStartTime rud) with
  | Ok processStartTime =>
      match checkValid (ResourceUsageData.DataTimestamp rud) with
      | Ok clientTimestamp =>
          runInTx (
            t ← now;
            match ResourceUsageData.ResourceUsage rud with
            | None => crash "nil ResourceUsage"
            | Some u =>
                exec (fun d =>
                  let sid := ClientID.String id in
                  _ ← foreignKey (bool_decide (is_Some (clients d !! sid)));
                  Ok (setUsage (usage_records d ++ [mkUsageRow sid
                    (ResourceUsageData.Scope rud) (ResourceUsageData.Pid rud)
                    (UnixNano processStartTime) (UnixNano clientTimestamp) (UnixNano t)
                    (ResourceUsageData.ProcessTerminated rud)
                    (AggregatedResourceUsage.MeanUserCpuRate u)
                    (AggregatedResourceUsage.MaxUserCpuRate u)
                    (AggregatedResourceUsage.MeanSystemCpuRate u)
                    (AggregatedResourceUsage.MaxSystemCpuRate u)
                    (float64ToInt32 (mulFloat64 (AggregatedResourceUsage.MeanResidentMemory u) bytesToMIB))
                    (float64ToInt32 (mulFloat64 (int64ToFloat64 (AggregatedResourceUsage.MaxResidentMemory u)) bytesToMIB))
                    (float64ToInt32 (AggregatedResourceUsage.MeanNumFds u))
                    (AggregatedResourceUsage.MaxNumFds u)]) d))
            end)
      | _ => fail (ErrText "failed to parse data timestamp")
      end
  | _ => fail (ErrText "failed to parse process start time")
  end.

Definition timestampProto (nanos : Z) : Timestamp.t :=
  Timestamp.Mk (Z.quot nanos Second) (wrapI32 (Z.rem nanos Second)).

Definition usageOfRow (r : usageRow) : outcome ClientResourceUsageRecord.t :=
  a ← scanFloat32 (u_mean_user_cpu_rate r);
  b ← scanFloat32 (u_max_user_cpu_rate r);
  c ← scanFloat32 (u_mean_system_cpu_rate r);
  e ← scanFloat32 (u_max_system_cpu_rate r);
  Ok (ClientResourceUsageRecord.Mk (u_scope r) (u_pid r)
        (Some (timestampProto (u_process_start_time r))) (Some (timestampProto (u_client_timestamp r)))
        (Some (timestampProto (u_server_timestamp r))) (u_process_terminated r) a b c e
        (u_mean_resident_memory_mib r) (u_max_resident_memory_mib r)
        (u_mean_num_fds r) (u_max_num_fds r)).

Definition FetchResourceUsageRecords (id : ClientID.t)
    (startTimestamp endTimestamp : option Timestamp.t) :
    Sql (list ClientResourceUsageRecord.t) :=
  start ← lift (checkValid startTimestamp);
  stop ← lift (checkValid endTimestamp);
  if (stop <? start)%Z then
    fail (ErrText "timerange is invalid: start timestamp is after end timestamp")
  else
    runInTx (
      rows ← query (fun d => Ok (filter (fun r =>
        u_client_id r = ClientID.String id /\
        (UnixNano start <= u_server_timestamp r < UnixNano stop)%Z) (usage_records d)));
      mapMs (fun r => lift (usageOfRow r)) rows).
End Clients.

(** ** The invariant *)
Record fk (d : Db) : Prop := {
  fk_client_id sid : is_Some (clients d !! sid) ->
    exists id, ClientID.valid id /\ ClientID.String id = sid;
  fk_label sid s l : (sid, s, l) ∈ client_labels d -> is_Some (clients d !! sid);
  fk_contact c r : client_contacts d !! c = Some r ->
    is_Some (clients d !! cc_client_id r);
  fk_contact_id c : is_Some (client_contacts d !! c) -> (0 < c)%Z;
  fk_usage r : r ∈ usage_records d -> is_Some (clients d !! u_client_id r);
}.

Lemma fk_empty : fk emptyDb.
Proof.
  split; simpl.
  - intros ?. rewrite lookup_empty. by intros [].
  - by intros ??? ?%not_elem_of_empty.
  - intros ??. by rewrite lookup_empty.
  - intros ?. rewrite lookup_empty. by intros [].
  - by intros ? ?%not_elem_of_nil.
Qed.

Lemma newRowid_spec {V} (m : gmap Z V) :
  m !! newRowid m = None /\ (0 < newRowid m)%Z /\
  (forall k, is_Some (m !! k) -> (k < newRowid m)%Z).
Proof.
  assert (Hb : forall k, is_Some (m !! k) -> (k < newRowid m)%Z).
  { unfold newRowid. induction m as [|i x m Hm IH] using map_ind.
    - intros k. rewrite lookup_empty. by intros [].
    - intros k. rewrite map_fold_insert_L by (try done; intros; lia).
      rewrite lookup_insert_is_Some'. intros [->|Hk]; [lia|]. specialize (IH k Hk). lia. }
  split; [|split; [|done]].
  - apply eq_None_not_Some. intros Hs. specialize (Hb _ Hs). lia.
  - clear Hb. unfold newRowid. induction m as [|i x m Hm IH] using map_ind.
    + by rewrite map_fold_empty.
    + rewrite map_fold_insert_L by (try done; intros; lia). lia.
Qed.

Section ClientInvariant.
Context `{P : Platform} `{L : ProtoLib} `{F : FloatConv} `{C : Connection} {EN : Enforcing C}.

(** Replacing rows of the clients table in place, or adding some. *)
Lemma fk_setClients d m :
  fk d ->
  (forall sid, is_Some (clients d !! sid) -> is_Some (m !! sid)) ->
  (forall sid, is_Some (m !! sid) -> is_Some (clients d !! sid) \/
     exists id, ClientID.valid id /\ ClientID.String id = sid) ->
  fk (setClients m d).
Proof. intros [] H1 H2. split; simpl; naive_solver. Qed.

Lemma preserves_insertLabel sid l : preserves (onData fk) (insertLabel sid l).
Proof.
  apply preserves_exec. intros d d' Hd E.
  apply outcome_bind_Ok in E as (? & _ & E). apply outcome_bind_Ok in E as (? & Hc & E).
  injection E as <-. apply foreignKey_Ok, bool_decide_eq_true_1 in Hc.
  destruct Hd. split; simpl; try done. set_solver.
Qed.

Lemma preserves_alterClient (f : clientRow -> clientRow) sid :
  preserves (onData fk) (exec (fun d => Ok (setClients (alter f sid (clients d)) d))).
Proof.
  apply preserves_exec. intros d d' Hd [= <-]. apply fk_setClients; [done| |].
  - intros k. rewrite lookup_alter. case_decide; [|done]. subst. by rewrite fmap_is_Some.
  - intros k. rewrite lookup_alter. case_decide; [|by left]. subst.
    rewrite fmap_is_Some. by left.
Qed.

Lemma preserves_insertClient id r :
  ClientID.valid id -> preserves (onData fk) (insertClient (ClientID.String id) r).
Proof.
  intros Hid. apply preserves_exec. intros d d' Hd E.
  apply outcome_bind_Ok in E as (? & _ & [= <-]). apply fk_setClients; [done| |].
  - intros k Hk. rewrite lookup_insert_is_Some'. by right.
  - intros k. rewrite lookup_insert_is_Some'. intros [<-|?]; [|by left]. right. by eauto.
Qed.

Lemma preserves_insertContact r : preserves (onData fk) (insertContact r).
Proof.
  apply preserves_execN. intros d n d' Hd E.
  apply outcome_bind_Ok in E as (? & Hc & [= <- <-]).
  apply foreignKey_Ok, bool_decide_eq_true_1 in Hc.
  destruct (newRowid_spec (client_contacts d)) as (_ & Hpos & _).
  destruct Hd. split; simpl; try done.
  - intros c r'. rewrite lookup_insert. case_decide; [intros [= <-]; done|by eauto].
  - intros c. rewrite lookup_insert_is_Some'. intros [<-|?]; [done|by eauto].
Qed.

Lemma preserves_RemoveClientLabel id l : preserves (onData fk) (RemoveClientLabel id l).
Proof.
  apply preserves_exec. intros d d' Hd [= <-].
  destruct Hd. split; simpl; try done. set_solver.
Qed.

Lemma preserves_linkMessage c k : preserves (onData fk) (linkMessage c k).
Proof.
  apply preserves_exec. intros d d' Hd E.
  apply outcome_bind_Ok in E as (? & _ & E). apply outcome_bind_Ok in E as (? & _ & E).
  apply outcome_bind_Ok in E as (? & _ & [= <-]). by destruct Hd.
Qed.

Lemma preserves_AddClient id data :
  ClientID.valid id -> preserves (onData fk) (AddClient id data).
Proof.
  intros Hid. unfold AddClient. apply preserves_runInTx.
  apply preserves_bind; [apply preserves_now|]. intros t.
  apply preserves_bind; [by apply preserves_insertClient|]. intros _.
  apply preserves_forM. intros l. apply preserves_insertLabel.
Qed.

Lemma preserves_RecordClientContact data : preserves (onData fk) (RecordClientContact data).
Proof.
  unfold RecordClientContact. apply preserves_runInTx.
  apply preserves_bind; [apply preserves_now|]. intros t.
  apply preserves_bind; [apply preserves_insertContact|]. intros c.
  apply preserves_bind; [apply preserves_alterClient|]. intros _. apply preserves_ret.
Qed.

Lemma preserves_LinkMessagesToContact c ids :
  preserves (onData fk) (LinkMessagesToContact c ids).
Proof.
  unfold LinkMessagesToContact. destruct (Hex.ParseUint16 c);
    [|apply preserves_fail|apply preserves_fail].
  apply preserves_runInTx, preserves_forM. intros id. apply preserves_linkMessage.
Qed.

Lemma preserves_RecordResourceUsageData id rud :
  preserves (onData fk) (RecordResourceUsageData id rud).
Proof.
  unfold RecordResourceUsageData.
  destruct (checkValid (ResourceUsageData.ProcessStartTime rud)); try apply preserves_fail.
  destruct (checkValid (ResourceUsageData.DataTimestamp rud)); try apply preserves_fail.
  apply preserves_runInTx, preserves_bind; [apply preserves_now|]. intros t.
  destruct (ResourceUsageData.ResourceUsage rud); [|apply preserves_crash].
  apply preserves_exec. intros d d' Hd E. apply outcome_bind_Ok in E as (? & Hc & [= <-]).
  apply foreignKey_Ok, bool_decide_eq_true_1 in Hc.
  destruct Hd. split; simpl; try done. intros r.
  rewrite elem_of_app, list_elem_of_singleton. intros [?| ->]; [by eauto|done].
Qed.
End ClientInvariant.
#[export] Hint Resolve preserves_insertLabel preserves_alterClient preserves_insertContact
  preserves_RemoveClientLabel preserves_linkMessage preserves_AddClient
  preserves_RecordClientContact preserves_LinkMessagesToContact
  preserves_RecordResourceUsageData : preserves.

(** ** Adding and reading clients *)
Section AddGet.
Context `{P : Platform} `{L : ProtoLib}.

Definition labelRow (sid : string) (l : Label.t) : string * string * string :=
  (sid, Label.ServiceName l, Label.Label l).

#[global] Instance labelRow_inj sid : Inj (=) (=) (labelRow sid).
Proof. intros [] [] [=]. simpl in *. by subst. Qed.

Lemma insertLabel_run sid l w :
  faultless -> is_Some (clients (w_data w) !! sid) ->
  (labelRow sid l ∉ client_labels (w_data w) ->
   insertLabel sid l w =
     (Ok tt, mkWorld (setClientLabels ({[labelRow sid l]} ∪ client_labels (w_data w)) (w_data w))
               (S (w_step w)))) /\
  (labelRow sid l ∈ client_labels (w_data w) ->
   insertLabel sid l w = (Err (ErrConstraint "client_labels"), mkWorld (w_data w) (S (w_step w)))).
Proof.
  intros Hf Hc. split; intros Hl.
  - apply exec_run; [done|]. cbv beta zeta. fold (labelRow sid l).
    rewrite (bool_decide_eq_true_2 (_ ∉ _)) by done. simpl.
    by rewrite (bool_decide_eq_true_2 (is_Some _)).
  - apply exec_run_Err; [done|]. cbv beta zeta. fold (labelRow sid l).
    by rewrite (bool_decide_eq_false_2 (_ ∉ _)) by (intros Hn; by apply Hn).
Qed.

Lemma insertLabels_Ok sid ls w :
  faultless -> is_Some (clients (w_data w) !! sid) -> NoDup ls ->
  (forall l, l ∈ ls -> labelRow sid l ∉ client_labels (w_data w)) ->
  exists w', forM_ ls (insertLabel sid) w = (Ok tt, w') /\
    w_data w' = setClientLabels (list_to_set (labelRow sid <$> ls) ∪ client_labels (w_data w))
                  (w_data w).
Proof.
  intros Hf. revert w. induction ls as [|l ls IH]; intros w Hc Hnd Hfresh; simpl.
  { eexists. split; [reflexivity|]. destruct w as [d n]. simpl. rewrite union_empty_l_L.
    by destruct d. }
  apply NoDup_cons in Hnd as [Hl Hnd].
  destruct (insertLabel_run sid l w Hf Hc) as [E _].
  rewrite (bind_run _ _ _ _ _ (E (Hfresh l ltac:(set_solver)))).
  destruct (IH (mkWorld (setClientLabels ({[labelRow sid l]} ∪ client_labels (w_data w)) (w_data w))
    (S (w_step w)))) as (w' & E' & Hd); [done|done| |].
  - intros l' Hl'. simpl. rewrite elem_of_union, elem_of_singleton.
    intros [Heq%(inj (labelRow sid))|Hin]; [by subst|]. apply (Hfresh l'); [by right|done].
  - exists w'. split; [done|]. rewrite Hd. unfold setClientLabels. simpl. f_equal. set_solver.
Qed.

Lemma insertLabels_dup sid ls w :
  faultless -> is_Some (clients (w_data w) !! sid) ->
  ~ (NoDup ls /\ forall l, l ∈ ls -> labelRow sid l ∉ client_labels (w_data w)) ->
  exists w', forM_ ls (insertLabel sid) w = (Err (ErrConstraint "client_labels"), w').
Proof.
  intros Hf. revert w. induction ls as [|l ls IH]; intros w Hc Hn; simpl.
  { exfalso. apply Hn. split; [constructor|set_solver]. }
  destruct (insertLabel_run sid l w Hf Hc) as [E1 E2].
  destruct (decide (labelRow sid l ∈ client_labels (w_data w))) as [Hin|Hout].
  { eexists. by rewrite (bind_run_Err _ _ _ _ _ (E2 Hin)). }
  rewrite (bind_run _ _ _ _ _ (E1 Hout)). apply IH; [done|]. simpl.
  intros [Hnd Hfresh]. apply Hn. split.
  - apply NoDup_cons. split; [|done]. intros Hl. apply (Hfresh l Hl). set_solver.
  - intros l' [->|Hl']%elem_of_cons; [done|]. set_solver.
Qed.

Lemma labelsWith_permutation sid ls X d n :
  NoDup ls -> PlatformOK P -> (forall l, labelRow sid l ∉ X) ->
  client_labels d = list_to_set (labelRow sid <$> ls) ∪ X ->
  deliver n _ ((fun row => Label.Mk row.1.2 row.2) <$> labelsWith sid d) ≡ₚ ls.
Proof.
  intros Hnd HP HX Hd. rewrite deliver_perm. unfold labelsWith.
  trans ((fun row : string * string * string => Label.Mk row.1.2 row.2) <$> (labelRow sid <$> ls)).
  - apply fmap_Permutation, NoDup_Permutation; [apply NoDup_elements | |].
    + by apply (NoDup_fmap_2 (labelRow sid)).
    + intros [[s a] b]. rewrite elem_of_elements, elem_of_filter, Hd, elem_of_union,
        elem_of_list_to_set. simpl. split; [|].
      * intros [-> [?|Hx]]; [done|]. by destruct (HX (Label.Mk a b)).
      * intros Hl. split; [|by left]. apply list_elem_of_fmap in Hl as ([] & [=] & _). by subst.
  - rewrite <- list_fmap_compose. erewrite list_fmap_ext; [by rewrite list_fmap_id|].
    intros i [] _. done.
Qed.

(** Adding a client and reading it back: on a working engine [AddClient]
    of an id that is not there and labels without repetition succeeds, and
    [GetClientData] returns the key, the flag and the same labels; otherwise
    it reports a constraint violation and the store is as before. *)
Theorem add_get_client (id : ClientID.t) (data : ClientData.t) w :
  faultless -> PlatformOK P -> fk (w_data w) ->
  let sid := ClientID.String id in
  (clients (w_data w) !! sid = None /\ NoDup (ClientData.Labels data) ->
   exists w1 w2 cd, AddClient id data w = (Ok tt, w1) /\
     GetClientData id w1 = (Ok cd, w2) /\
     ClientData.Key cd = ClientData.Key data /\
     ClientData.Blacklisted cd = ClientData.Blacklisted data /\
     ClientData.Labels cd ≡ₚ ClientData.Labels data) /\
  (~ (clients (w_data w) !! sid = None /\ NoDup (ClientData.Labels data)) ->
   exists what w1, AddClient id data w = (Err (ErrConstraint what), w1) /\
     w_data w1 = w_data w).
Proof.
  intros Hf HP Hfk sid.
  assert (Hno : clients (w_data w) !! sid = None ->
                forall l, labelRow sid l ∉ client_labels (w_data w)).
  { intros Hn l Hl. apply (fk_label _ Hfk) in Hl as [? ?]. congruence. }
  set (r := mkClientRow (ClientData.Key data) (ClientData.Blacklisted data)
    (UnixNano (clock (S (w_step w)))) None None None None).
  set (w0 := mkWorld (setClients (<[sid := r]> (clients (w_data w))) (w_data w)) (S (S (S (w_step w))))).
  assert (Ebody : clients (w_data w) !! sid = None -> forall ls,
    (now ≫= fun t => insertClient sid (mkClientRow (ClientData.Key data)
      (ClientData.Blacklisted data) (UnixNano t) None None None None) ≫= fun _ =>
      forM_ ls (insertLabel sid)) (mkWorld (w_data w) (S (w_step w))) =
    forM_ ls (insertLabel sid) w0).
  { intros Hn ls. erewrite bind_run by reflexivity. erewrite bind_run; [done|].
    unfold insertClient. erewrite exec_run; [done|done|].
    cbn [w_data]. rewrite bool_decide_eq_true_2 by done. done. }
  split.
  - intros [Hn Hnd].
    destruct (insertLabels_Ok sid (ClientData.Labels data) w0) as (w1 & E1 & Hd1);
      [done | by eexists; apply lookup_insert_eq | done | by intros l _; apply Hno|].
    rewrite <- (Ebody Hn) in E1. eexists _, _, _. split; [by apply runInTx_run|].
    split; [apply runInTx_run; [done|]|].
    + erewrite bind_run; [|apply queryRow_run; [done|]; cbn; rewrite Hd1; cbn; by rewrite lookup_insert_eq].
      erewrite bind_run; [reflexivity|]. by apply query_run.
    + cbn. split; [done|]. split; [done|].
      apply (labelsWith_permutation sid _ (client_labels (w_data w))); [done|done|by apply Hno|].
      by rewrite Hd1.
  - intros Hbad. destruct (clients (w_data w) !! sid) as [r0|] eqn:Hc.
    + eexists _, _. split; [apply runInTx_run_Err; [done|] | reflexivity].
      erewrite bind_run by reflexivity. apply bind_run_Err. apply exec_run_Err; [done|].
      cbn [w_data]. rewrite bool_decide_eq_false_2 by (fold sid; congruence). reflexivity.
    + destruct (insertLabels_dup sid (ClientData.Labels data) w0) as (w1 & E1);
        [done | by eexists; apply lookup_insert_eq | |].
      { intros [Hnd _]. by apply Hbad. }
      rewrite <- (Ebody eq_refl) in E1. eexists _, _.
      split; [by apply runInTx_run_Err|]. done.
Qed.
End AddGet.

Definition sampleClient : ClientData.t :=
  ClientData.Mk (Some "key"%string) [Label.Mk "svc" "linux"; Label.Mk "svc" "alpha"] false.

Lemma add_get_client_witness :
  exists w1 w2 cd, AddClient exampleClientID sampleClient (mkWorld emptyDb 0) = (Ok tt, w1) /\
    GetClientData exampleClientID w1 = (Ok cd, w2) /\
    ClientData.Labels cd ≡ₚ ClientData.Labels sampleClient.
Proof.
  destruct (add_get_client exampleClientID sampleClient (mkWorld emptyDb 0)
    faultless_test TestPlatformOK fk_empty) as [H _].
  destruct H as (w1 & w2 & cd & E1 & E2 & _ & _ & H).
  - split; [reflexivity|]. apply (bool_decide_unpack _). vm_compute. exact I.
  - by exists w1, w2, cd.
Defined.

(** ** Listing *)
Section Streams.
Context `{P : Platform} `{L : ProtoLib}.

Lemma sids_are_ids (l : list string) :
  (forall s, s ∈ l -> exists id, ClientID.valid id /\ ClientID.String id = s) ->
  exists ids, l = ClientID.String <$> ids /\ Forall ClientID.valid ids.
Proof.
  induction l as [|s l IH]; intros H; [by exists []|].
  destruct (H s ltac:(set_solver)) as (id & Hv & <-).
  destruct IH as (ids & -> & Hids); [set_solver|].
  exists (id :: ids). split; [done|by constructor].
Qed.

(** [StreamClientIds] calls back once for every client that satisfies
    its filters and for no other, stopping at the callback's first error,
    and changes nothing. *)
Theorem stream_client_ids_spec {X} b t (callback : X -> ClientID.t -> outcome X) x w :
  faultless -> PlatformOK P -> fk (w_data w) ->
  exists ids w', NoDup ids /\
    (forall id, id ∈ ids <-> ClientID.valid id /\
       exists r, clients (w_data w) !! ClientID.String id = Some r /\ streamed b t r = true) /\
    StreamClientIds b t callback x w = (foldO callback ids x, w') /\
    w_data w' = w_data w.
Proof.
  intros Hf HP Hfk.
  set (rows := fst <$> filter (fun kr => streamed b t kr.2 = true)
                              (map_to_list (clients (w_data w)))).
  assert (Hrows : forall s, s ∈ rows <->
    exists r, clients (w_data w) !! s = Some r /\ streamed b t r = true).
  { intros s. unfold rows. rewrite list_elem_of_fmap. split.
    - intros ([k r] & -> & [Hs Hm]%list_elem_of_filter).
      apply elem_of_map_to_list in Hm. by exists r.
    - intros (r & Hr & Hs). exists (s, r). split; [done|]. apply list_elem_of_filter.
      split; [done|]. by apply elem_of_map_to_list. }
  assert (Hnd : NoDup rows).
  { apply NoDup_fmap_fst; [|by apply NoDup_filter, NoDup_map_to_list].
    intros k r r' [_ H1]%list_elem_of_filter [_ H2]%list_elem_of_filter.
    apply elem_of_map_to_list in H1, H2. congruence. }
  pose proof (deliver_perm (S (w_step w)) _ rows) as Hperm.
  destruct (sids_are_ids (deliver (S (w_step w)) _ rows)) as (ids & Hids & Hval).
  { intros s Hs. rewrite Hperm in Hs. apply Hrows in Hs as (r & Hr & _).
    apply (fk_client_id _ Hfk). by exists r. }
  assert (Hin : forall id, id ∈ ids <-> ClientID.valid id /\
    exists r, clients (w_data w) !! ClientID.String id = Some r /\ streamed b t r = true).
  { intros id. rewrite <- Hrows, <- Hperm, Hids. split.
    - intros Hi. split; [by eapply Forall_forall in Hval|]. by apply list_elem_of_fmap_2.
    - intros [Hv (id' & He & Hi)%list_elem_of_fmap].
      assert (id = id') as ->; [|done].
      apply ClientID_String_inj; [done| |done]. by eapply Forall_forall in Hval. }
  destruct (runInTx_read (A := X)
    (rows ← query (fun d => Ok (fst <$>
       filter (fun kr => streamed b t kr.2 = true) (map_to_list (clients d))));
     foldM (fun x sid => id ← lift (ClientID.StringToClientID sid); lift (callback x id)) rows x)
    (foldO callback ids x) w (mkWorld (w_data w) (S (S (w_step w))))) as (w' & E & Hd);
    [done| |done|].
  - erewrite bind_run by by apply query_run. cbn [w_step w_data]. fold rows. rewrite Hids.
    erewrite foldM_ext by (intros; apply lift_bind). rewrite foldM_lift, foldO_fmap.
    f_equal. apply foldO_ext. intros y id Hi. rewrite ClientID_String_read; [done|].
    by eapply Forall_forall in Hval.
  - exists ids, w'. split; [|done].
    apply (NoDup_fmap_1 ClientID.String). rewrite <- Hids, Hperm. done.
Qed.
End Streams.

Definition sampleClients : World Db :=
  runOk (AddClient exampleClientID sampleClient ≫= fun _ =>
         AddClient (ClientID.Mk (bytesOfNat 78 8)) sampleClient ≫= fun _ =>
         BlacklistClient exampleClientID) (mkWorld emptyDb 0).

Lemma sampleClients_fk : fk (w_data sampleClients).
Proof.
  unfold sampleClients. apply runOk_preserves; [|exact fk_empty].
  apply preserves_bind; [apply preserves_AddClient; by right|]. intros _.
  apply preserves_bind; [apply preserves_AddClient; by right|]. intros _.
  apply preserves_alterClient.
Qed.

Lemma stream_client_ids_spec_witness :
  exists ids w', NoDup ids /\
    StreamClientIds false None (fun acc id => Ok (acc ++ [id])) [] sampleClients
      = (foldO (fun acc id => Ok (acc ++ [id])) ids [], w').
Proof.
  destruct (stream_client_ids_spec false None (fun acc id => Ok (acc ++ [id])) []
    sampleClients faultless_test TestPlatformOK sampleClients_fk)
    as (ids & w' & H1 & _ & H2 & _).
  exists ids, w'. exact (conj H1 H2).
Defined.

(** The blacklisted client is left out. *)
Example stream_skips_blacklisted :
  fst (StreamClientIds false None (fun acc id => Ok (acc ++ [id])) [] sampleClients)
    = Ok [ClientID.Mk (bytesOfNat 78 8)].
Proof. vm_compute. reflexivity. Qed.

(** ** Contacts *)
Section Contacts.
Context `{P : Platform} `{L : ProtoLib}.

Definition contactOf (r : contactRow) : option ClientContact.t :=
  match contactOfRow r with Ok c => Some c | _ => None end.

(** The contacts on record for a client, in any order. *)
Definition contactsOn (d : Db) (id : ClientID.t) : list ClientContact.t :=
  omap contactOf (contactsOf (ClientID.String id) d).

Lemma collectContacts rows acc res :
  foldO (fun x r => c ← contactOfRow r; Ok (x ++ [c])) rows acc = Ok res ->
  res = acc ++ omap contactOf rows.
Proof.
  revert acc. induction rows as [|r rows IH]; intros acc; simpl.
  { intros [= <-]. by rewrite app_nil_r. }
  unfold contactOf at 1. destruct (contactOfRow r) as [c| |]; simpl; [|done|done].
  intros ->%IH. by rewrite <- app_assoc.
Qed.

Lemma ListClientContacts_Ok id w res w' :
  PlatformOK P -> ListClientContacts id w = (Ok res, w') ->
  res ≡ₚ contactsOn (w_data w) id /\ w_data w' = w_data w.
Proof.
  intros HP E. unfold ListClientContacts, StreamClientContacts in E.
  apply runInTx_Ok in E as (_ & w1 & E & _ & ->).
  apply bind_Ok in E as (rows & w2 & Eq & E).
  apply query_Ok in Eq as (_ & (l & [= <-] & ->) & ->).
  erewrite foldM_ext in E by (intros; apply lift_bind). rewrite foldM_lift in E.
  injection E as E <-. apply collectContacts in E as ->. simpl.
  split; [|done]. unfold contactsOn. by rewrite deliver_perm.
Qed.

Lemma contactOf_new sid n sn rn addr :
  isU64 sn -> isU64 rn -> tspbCheckValid (tspbNew n) = None ->
  contactOf (mkContactRow sid n (Hex.FormatUint16 sn) (Hex.FormatUint16 rn) (Some addr))
    = Some (ClientContact.Mk sn rn addr (tspbNew n)).
Proof.
  intros Hs Hr Hv. unfold contactOf, contactOfRow. simpl.
  by rewrite !Hex.ParseUint16_Format, Hv.
Qed.

Lemma newRowid_bound {V} (m : gmap Z V) b :
  (forall c, is_Some (m !! c) -> c < b)%Z -> (newRowid m <= Z.max 1 b)%Z.
Proof.
  unfold newRowid. induction m as [|i x m Hm IH] using map_ind; intros Hmax.
  - rewrite map_fold_empty. lia.
  - rewrite map_fold_insert_L by (try done; intros; lia).
    assert (i < b)%Z by (apply Hmax; rewrite lookup_insert_eq; by eexists).
    enough (1 + map_fold (fun k _ acc => Z.max k acc) 0 m <= Z.max 1 b)%Z by lia.
    apply IH. intros k Hk. apply Hmax. rewrite lookup_insert_is_Some'. by right.
Qed.

Lemma RecordClientContact_Ok data w cid w1 :
  RecordClientContact data w = (Ok cid, w1) ->
  exists t, cid = Hex.FormatUint16 (wrapU64 (newRowid (client_contacts (w_data w)))) /\
  exists f, w_data w1 =
    setClients (alter f (ClientID.String (DbContactData.ClientID data)) (clients (w_data w)))
      (setClientContacts (<[newRowid (client_contacts (w_data w)) :=
         mkContactRow (ClientID.String (DbContactData.ClientID data)) (UnixNano t)
           (Hex.FormatUint16 (DbContactData.NonceSent data))
           (Hex.FormatUint16 (DbContactData.NonceReceived data))
           (Some (DbContactData.Addr data))]> (client_contacts (w_data w))) (w_data w)).
Proof.
  intros E. apply runInTx_Ok in E as (_ & w2 & E & _ & ->).
  apply bind_Ok in E as (t & w3 & Et & E). apply interact_Ok in Et as [_ ->].
  apply bind_Ok in E as (id & w4 & Ei & E). apply execN_Ok in Ei as (_ & Ei & _).
  apply outcome_bind_Ok in Ei as (? & _ & [= <- Hd]).
  apply bind_Ok in E as ([] & w5 & Ex & E). apply exec_Ok in Ex as (_ & [= Hd5] & _).
  apply ret_Ok in E as [<- <-]. exists t. split; [done|].
  eexists. simpl. rewrite <- Hd5, <- Hd. reflexivity.
Qed.

(** [RecordClientContact] adds exactly one contact, with the nonces and
    address it was given, to the client's history and none to anybody else's,
    under an identifier that was not in use and that [LinkMessagesToContact]
    can parse; messages and pending messages are untouched. *)
Theorem record_client_contact_spec data w cid w1 :
  PlatformOK P -> ProtoLibOK L ->
  isU64 (DbContactData.NonceSent data) -> isU64 (DbContactData.NonceReceived data) ->
  (forall c, is_Some (client_contacts (w_data w) !! c) -> c < i64_max)%Z ->
  RecordClientContact data w = (Ok cid, w1) ->
  (exists c, Hex.ParseUint16 cid = Ok c /\
     client_contacts (w_data w) !! c = None /\ is_Some (client_contacts (w_data w1) !! c)) /\
  (exists t, forall id r0 r1 w' w1',
     ListClientContacts id w = (Ok r0, w') -> ListClientContacts id w1 = (Ok r1, w1') ->
     r1 ≡ₚ (if decide (ClientID.String id = ClientID.String (DbContactData.ClientID data))
            then [ClientContact.Mk (DbContactData.NonceSent data)
                    (DbContactData.NonceReceived data) (DbContactData.Addr data)
                    (tspbNew (UnixNano t))]
            else []) ++ r0) /\
  messages (w_data w1) = messages (w_data w) /\
  pending_messages (w_data w1) = pending_messages (w_data w).
Proof.
  intros HP HL Hs Hr Hmax E. apply RecordClientContact_Ok in E as (t & -> & f & Hd).
  set (c := newRowid (client_contacts (w_data w))) in *.
  destruct (newRowid_spec (client_contacts (w_data w))) as (Hfresh & Hpos & _). fold c in Hfresh, Hpos.
  pose proof (newRowid_bound _ _ Hmax) as Hc. fold c in Hc.
  split; [|split; [|by rewrite Hd]].
  - exists c. rewrite wrapU64_small by (unfold isU64, i64_max in *; lia).
    rewrite Hex.ParseUint16_Format by (unfold isU64, i64_max in *; lia).
    split; [done|]. split; [done|]. rewrite Hd. simpl. rewrite lookup_insert_eq. by eexists.
  - exists t. intros id r0 r1 w' w1' [E0 _]%ListClientContacts_Ok [E1 _]%ListClientContacts_Ok;
      [|done|done].
    rewrite E1, E0, Hd. unfold contactsOn, contactsOf. simpl.
    rewrite map_to_list_insert by done. rewrite filter_cons. simpl.
    case_decide as Hid; rewrite ?decide_True, ?decide_False by done; [|done].
    simpl. rewrite contactOf_new; [done|done|done|]. apply tspb_valid, wrapI64_range.
Qed.
End Contacts.

Definition sampleContact : DbContactData.t :=
  DbContactData.Mk exampleClientID 5 42 "10.0.0.1:4000" None "" [].

Lemma record_client_contact_spec_witness :
  exists cid w1 c, RecordClientContact sampleContact sampleClients = (Ok cid, w1) /\
    Hex.ParseUint16 cid = Ok c /\ is_Some (client_contacts (w_data w1) !! c).
Proof.
  set (res := RecordClientContact sampleContact sampleClients).
  assert (E : res = (Ok "1"%string, snd res)) by (vm_compute; reflexivity).
  destruct (record_client_contact_spec sampleContact sampleClients "1"%string (snd res))
    as [(c & H1 & _ & H2) _].
  - exact TestPlatformOK.
  - exact TestProtoLibOK.
  - by split.
  - by split.
  - intros c. change (client_contacts (w_data sampleClients)) with (@empty (gmap Z contactRow) _).
    rewrite lookup_empty. by intros [].
  - exact E.
  - exists "1"%string, (snd res), c. exact (conj E (conj H1 H2)).
Defined.

(** ** Listing clients *)
Section Listing.
Context `{P : Platform} `{L : ProtoLib}.

Definition addLabels (ls : list Label.t) (c : Client.t) : Client.t :=
  Client.Mk (Client.ClientId c) (Client.Labels c ++ ls) (Client.LastContactTime c)
    (Client.LastContactAddress c) (Client.LastContactStreamingTo c)
    (Client.LastClock c) (Client.Blacklisted c).

Definition labelsOf (sid : string) (rows : list (string * string * string)) : list Label.t :=
  (fun row : string * string * string => Label.Mk row.1.2 row.2) <$>
    filter (fun row => row.1.1 = sid) rows.

(** What [ListClients] should say of the client stored under [sid]. *)
Definition listedAs (d : Db) (sid : string) (c : Client.t) : Prop :=
  exists r c0 ls, clients d !! sid = Some r /\ clientOfRow sid r = Ok c0 /\
    ls ≡ₚ labelsOf sid (elements (client_labels d)) /\ c = addLabels ls c0.

#[global] Instance labelsOf_perm sid : Proper (Permutation ==> Permutation) (labelsOf sid).
Proof. intros l l' H. unfold labelsOf. by rewrite H. Qed.

Lemma labelsOf_app sid l l' : labelsOf sid (l ++ l') = labelsOf sid l ++ labelsOf sid l'.
Proof. unfold labelsOf. by rewrite filter_app, fmap_app. Qed.

Lemma labelsOf_labelsWith sid sid' d :
  labelsOf sid (labelsWith sid' d) ≡ₚ
    if decide (sid' = sid) then labelsOf sid (elements (client_labels d)) else [].
Proof.
  unfold labelsOf, labelsWith. case_decide as He.
  - apply fmap_Permutation, NoDup_Permutation;
      [apply NoDup_filter, NoDup_elements | apply NoDup_filter, NoDup_elements |].
    intros row. rewrite !list_elem_of_filter, !elem_of_elements, elem_of_filter. naive_solver.
  - rewrite filter_none; [done|]. intros row.
    rewrite elem_of_elements, elem_of_filter. naive_solver.
Qed.

Lemma labelsOf_queries sid (sids : list string) d :
  NoDup sids -> sid ∈ sids ->
  labelsOf sid (concat ((fun s => labelsWith s d) <$> sids)) ≡ₚ
    labelsOf sid (elements (client_labels d)).
Proof.
  intros Hnd Hin.
  assert (Hout : forall l, sid ∉ l -> labelsOf sid (concat ((fun s => labelsWith s d) <$> l)) ≡ₚ []).
  { intros l. induction l as [|s l IH]; intros Hl; [done|]. rewrite fmap_cons. simpl.
    rewrite labelsOf_app, labelsOf_labelsWith, decide_False, IH by set_solver. done. }
  induction sids as [|s sids IH]; [set_solver|]. apply NoDup_cons in Hnd as [Hs Hnd].
  rewrite fmap_cons. simpl. rewrite labelsOf_app, labelsOf_labelsWith. case_decide as He.
  - subst. rewrite Hout by done. by rewrite app_nil_r.
  - apply IH; [done|]. set_solver.
Qed.

Lemma clientOfRow_no_crash d sid r why :
  fk d -> clients d !! sid = Some r -> clientOfRow sid r <> Crash why.
Proof.
  intros Hfk Hr. destruct (fk_client_id _ Hfk sid (mk_is_Some _ _ Hr)) as (id & Hv & <-).
  unfold clientOfRow. rewrite ClientID_String_read by done. simpl.
  by destruct (tspbCheckValid _).
Qed.

(** Entries of [retm] before labels are added. *)
Definition fresh (d : Db) (m : gmap string Client.t) : Prop :=
  forall sid c, m !! sid = Some c -> exists r, clients d !! sid = Some r /\ clientOfRow sid r = Ok c.

Lemma safe_readClients d g m w :
  PlatformOK P -> fk d -> w_data w = d -> fresh d m ->
  (forall kr, kr ∈ g d -> clients d !! kr.1 = Some kr.2) ->
  safe (readClients g m) w (fun m' w' => w_data w' = d /\ fresh d m' /\
    forall sid, is_Some (m' !! sid) <-> is_Some (m !! sid) \/ sid ∈ (g d).*1).
Proof.
  intros HP Hfk Hd Hm Hg. apply safe_bind, safe_query; [by intros|]. intros l [= <-].
  rewrite Hd. pose proof (deliver_perm (w_step w) _ (g d)) as Hperm.
  set (rows := deliver _ _ _) in *.
  eapply safe_mono; [apply (safe_foldM _ (fun pre m' w' => w_data w' = d /\ fresh d m' /\
    forall sid, is_Some (m' !! sid) <-> is_Some (m !! sid) \/ sid ∈ pre.*1))|].
  - split; [done|]. split; [done|]. set_solver.
  - intros pre [k r] post b s Hrows (Hs & Hb & Hdom).
    assert (Hk : clients d !! k = Some r).
    { apply (Hg (k, r)). rewrite <- Hperm, Hrows. set_solver. }
    apply safe_bind, safe_lift; [|intros why; by eapply clientOfRow_no_crash].
    intros c Hc. apply safe_ret. split; [done|]. split.
    + intros sid c'. rewrite lookup_insert. case_decide; [|by apply Hb].
      intros [= <-]. subst. by exists r.
    + intros sid. rewrite lookup_insert_is_Some', fmap_app. simpl. set_solver.
  - simpl. intros m' s (H1 & H2 & H3). split; [done|]. split; [done|].
    intros sid. by rewrite H3, Hperm.
Qed.

Lemma addLabels_nil (m : gmap string Client.t) sid : m !! sid = addLabels [] <$> m !! sid.
Proof. destruct (m !! sid) as [[]|]; [|done]. unfold addLabels. simpl. by rewrite app_nil_r. Qed.

Lemma safe_addLabelRows {S} (rows : list (string * string * string)) m (s : S) :
  (forall row, row ∈ rows -> is_Some (m !! row.1.1)) ->
  safe (foldM addLabelRow rows m) s (fun m' s' => s' = s /\
    forall sid, m' !! sid = addLabels (labelsOf sid rows) <$> m !! sid).
Proof.
  intros Hg. apply (safe_foldM _ (fun pre m' s' => s' = s /\
    forall sid, m' !! sid = addLabels (labelsOf sid pre) <$> m !! sid)).
  - split; [done|]. apply addLabels_nil.
  - intros pre row post b s' Hrows (Hs & Hb). unfold addLabelRow. rewrite Hb.
    destruct (Hg row) as [c Hc]; [rewrite Hrows; set_solver|].
    rewrite Hc. apply safe_ret. split; [done|]. intros sid.
    rewrite labelsOf_app, lookup_insert, Hb.
    assert (H1 : labelsOf sid [row] = if decide (row.1.1 = sid) then [Label.Mk row.1.2 row.2] else [])
      by (unfold labelsOf; rewrite filter_cons, filter_nil; by case_decide).
    rewrite H1. case_decide as He; rewrite ?decide_True, ?decide_False by done.
    + subst. rewrite Hc. simpl. unfold addLabels, addLabel. simpl. by rewrite app_assoc.
    + by rewrite app_nil_r.
Qed.

Lemma safe_readLabels d g m w :
  PlatformOK P -> w_data w = d -> (forall row, row ∈ g d -> is_Some (m !! row.1.1)) ->
  safe (readLabels g m) w (fun m' w' => w_data w' = d /\
    exists rows, rows ≡ₚ g d /\ forall sid, m' !! sid = addLabels (labelsOf sid rows) <$> m !! sid).
Proof.
  intros HP Hd Hg. apply safe_bind, safe_query; [by intros|]. intros l [= <-].
  rewrite Hd. pose proof (deliver_perm (w_step w) _ (g d)) as Hperm.
  set (rows := deliver _ _ _) in *.
  eapply safe_mono; [apply safe_addLabelRows; intros row; rewrite Hperm; apply Hg|].
  intros m' s (-> & Hm). split; [done|]. by exists rows.
Qed.

(** The clients a listing is about. *)
Definition asked (ids : list ClientID.t) (d : Db) (sid : string) : Prop :=
  (ids = [] \/ sid ∈ ClientID.String <$> ids) /\ is_Some (clients d !! sid).

Lemma elem_of_clientWith sid s d :
  sid ∈ (clientWith s d).*1 <-> sid = s /\ is_Some (clients d !! sid).
Proof.
  unfold clientWith. destruct (clients d !! s) eqn:E; simpl.
  - rewrite list_elem_of_singleton. split; [intros ->; split; [done|by eexists]|by intros []].
  - rewrite elem_of_nil. split; [done|]. intros [-> []]. congruence.
Qed.

Lemma safe_readAll d ids w :
  PlatformOK P -> fk d -> w_data w = d ->
  safe (if decide (ids = []) then readClients (fun d => map_to_list (clients d)) ∅
        else foldM (fun m id => readClients (clientWith (ClientID.String id)) m) ids ∅) w
    (fun m w' => w_data w' = d /\ fresh d m /\ forall sid, is_Some (m !! sid) <-> asked ids d sid).
Proof.
  intros HP Hfk Hd. unfold asked.
  assert (He : fresh d ∅) by (intros sid c; by rewrite lookup_empty).
  assert (Hn : forall sid, ~ is_Some ((∅ : gmap string Client.t) !! sid))
    by (intros sid; rewrite lookup_empty; by intros []).
  case_decide as Hids.
  - eapply safe_mono; [apply (safe_readClients d); try done|].
    + intros [k r] Hk. by apply elem_of_map_to_list in Hk.
    + simpl. intros m s (H1 & H2 & H3). split; [done|]. split; [done|]. intros sid. rewrite H3.
      rewrite list_elem_of_fmap. split.
      * intros [[]%Hn|([k r] & -> & Hk%elem_of_map_to_list)]. split; [by left|by eexists].
      * intros [_ [r Hr]]. right. exists (sid, r). split; [done|]. by apply elem_of_map_to_list.
  - eapply safe_mono; [apply (safe_foldM _ (fun pre m w' => w_data w' = d /\ fresh d m /\
      forall sid, is_Some (m !! sid) <-> sid ∈ ClientID.String <$> pre /\ is_Some (clients d !! sid)))|].
    + split; [done|]. split; [done|]. intros sid. split; [by intros []%Hn|set_solver].
    + intros pre id post m s _ (H1 & H2 & H3).
      eapply safe_mono; [apply (safe_readClients d); try done|].
      * unfold clientWith. intros kr. destruct (clients d !! _) eqn:E;
          [by intros ->%list_elem_of_singleton|by intros ?%not_elem_of_nil].
      * simpl. intros m' s' (H1' & H2' & H3'). split; [done|]. split; [done|].
        intros sid. rewrite H3', H3, fmap_app, elem_of_app, elem_of_clientWith. simpl.
        rewrite list_elem_of_singleton. tauto.
    + simpl. intros m s (H1 & H2 & H3). split; [done|]. split; [done|]. naive_solver.
Qed.

Lemma safe_labelAll d ids m w :
  PlatformOK P -> fk d -> w_data w = d -> (forall sid, is_Some (m !! sid) <-> asked ids d sid) ->
  safe (if decide (ids = []) then readLabels (fun d => elements (client_labels d)) m
        else foldM (fun m id => readLabels (labelsWith (ClientID.String id)) m) ids m) w
    (fun m' w' => w_data w' = d /\ exists rows,
       rows ≡ₚ (if decide (ids = []) then elements (client_labels d)
                else concat ((fun s => labelsWith s d) <$> (ClientID.String <$> ids))) /\
       forall sid, m' !! sid = addLabels (labelsOf sid rows) <$> m !! sid).
Proof.
  intros HP Hfk Hd Hm. unfold asked in Hm. case_decide as Hids.
  - eapply safe_mono; [apply (safe_readLabels d); try done|done].
    intros [[sid s] l] Hl. apply Hm. split; [by left|].
    apply (fk_label _ Hfk _ s l). by apply elem_of_elements.
  - eapply safe_mono; [apply (safe_foldM _ (fun pre m' w' => w_data w' = d /\ exists rows,
      rows ≡ₚ concat ((fun s => labelsWith s d) <$> (ClientID.String <$> pre)) /\
      forall sid, m' !! sid = addLabels (labelsOf sid rows) <$> m !! sid))|done].
    + split; [done|]. exists []. split; [done|]. apply addLabels_nil.
    + intros pre id post b s Hids' (Hs & rows & Hr & Hb).
      eapply safe_mono; [apply (safe_readLabels d); try done|].
      * intros [[sid sv] l]. unfold labelsWith. rewrite elem_of_elements, elem_of_filter.
        simpl. intros [-> Hl]. rewrite Hb, fmap_is_Some. apply Hm. split; [|by eapply fk_label].
        right. rewrite Hids', fmap_app. set_solver.
      * simpl. intros m' s' (Hs' & rows' & Hr' & Hb'). split; [done|]. exists (rows ++ rows').
        split; [rewrite !fmap_app, concat_app, Hr, Hr'; simpl; by rewrite app_nil_r|].
        intros sid. rewrite Hb', Hb, labelsOf_app. destruct (m !! sid); [|done].
        simpl. unfold addLabels. simpl. by rewrite app_assoc.
Qed.

(** [ListClients] does not dereference a nil client, whatever ids it is
    asked for; and asked for all clients, or for ids without repetition, it
    lists each client asked for that exists once, with its row's data and
    exactly its labels. *)
Theorem list_clients_spec (ids : list ClientID.t) w :
  PlatformOK P -> fk (w_data w) ->
  (forall why, fst (ListClients ids w) <> Crash why) /\
  (NoDup (ClientID.String <$> ids) -> forall cs w', ListClients ids w = (Ok cs, w') ->
   exists sids, NoDup sids /\ (forall sid, sid ∈ sids <-> asked ids (w_data w) sid) /\
     Forall2 (listedAs (w_data w)) sids cs).
Proof.
  intros HP Hfk.
  enough (H : safe (ListClients ids) w (fun cs w' => NoDup (ClientID.String <$> ids) ->
    exists sids, NoDup sids /\ (forall sid, sid ∈ sids <-> asked ids (w_data w) sid) /\
     Forall2 (listedAs (w_data w)) sids cs)).
  { split; [intros why; by eapply safe_no_crash|]. intros Hnd cs w' E.
    by apply (safe_Ok _ _ _ _ _ H E). }
  apply safe_bind, safe_runInTx, safe_bind.
  eapply safe_mono; [by apply (safe_readAll (w_data w) ids)|]. simpl.
  intros m1 w1 (Hw1 & Hfresh & Hdom).
  eapply safe_mono; [by apply (safe_labelAll (w_data w) ids m1)|]. simpl.
  intros m2 w2 (Hw2 & rows & Hrows & Hm2).
  apply safe_bind, safe_interact; [by intros|]. intros kvs [= <-]. apply safe_ret. intros Hnd.
  set (kvs := deliver _ _ _).
  assert (Hkvs : kvs ≡ₚ map_to_list m2) by apply deliver_perm.
  exists (kvs.*1). split; [|split].
  - rewrite Hkvs. apply NoDup_fst_map_to_list.
  - intros sid. rewrite Hkvs, <- Hdom, <- (fmap_is_Some (addLabels (labelsOf sid rows))), <- Hm2.
    rewrite list_elem_of_fmap. split.
    + intros ([k c] & -> & Hk%elem_of_map_to_list). by eexists.
    + intros [c Hc]. exists (sid, c). split; [done|]. by apply elem_of_map_to_list.
  - apply Forall2_fmap_l, Forall2_fmap_r, Forall_Forall2_diag, Forall_forall.
    intros [sid c]. rewrite Hkvs, elem_of_map_to_list, Hm2. simpl.
    intros (c0 & Hc0 & ->)%fmap_Some. destruct (Hfresh sid c0 Hc0) as (r & Hr & Hc).
    exists r, c0, (labelsOf sid rows). split; [done|]. split; [done|]. split; [|done].
    rewrite Hrows. case_decide; [done|]. apply labelsOf_queries; [done|].
    apply mk_is_Some, Hdom in Hc0 as [[?|?] _]; done.
Qed.
End Listing.

Lemma list_clients_spec_witness :
  exists cs w', ListClients [] sampleClients = (Ok cs, w') /\
    exists sids, NoDup sids /\ Forall2 (listedAs (w_data sampleClients)) sids cs.
Proof.
  set (res := ListClients [] sampleClients).
  assert (E : exists cs, fst res = Ok cs) by (vm_compute; eexists; reflexivity).
  destruct E as [cs E]. exists cs, (snd res).
  assert (E' : res = (Ok cs, snd res)) by (rewrite <- E; by destruct res).
  split; [exact E'|].
  destruct (list_clients_spec [] sampleClients TestPlatformOK sampleClients_fk) as [_ H].
  destruct (H (NoDup_nil_2) cs (snd res) E') as (sids & H1 & _ & H2).
  exists sids. exact (conj H1 H2).
Defined.
