(* ===== verification/Ledger.v ===== *)
(** * The ledger of the broadcast stores

    What the two SQL stores keep of a broadcast's counters, and the invariant
    that ties them to its outstanding allocations, with what each operation
    does to it; the stores differ in their keys and in the largest number
    a column holds. *)
From Stdlib Require Import SpecFloat.
From S2P Require Import Prelude Platform Ids Proto Db Sqlite.

(** UPDATE of the counters; the statement also sets the limit in
    [tryDisableBroadcasts]. *)
Definition setCounters (sent allocated limit : Z) (b : broadcastRow) : broadcastRow :=
  mkBroadcastRow (b_sourceServiceName b) (b_destinationServiceName b) (b_messageType b)
    (b_expirationTimeSeconds b) (b_expirationTimeNanos b) (b_dataTypeURL b) (b_dataValue b)
    sent allocated limit.

Definition setAllocSent (sent : Z) (a : allocationRow) : allocationRow :=
  mkAllocationRow sent (a_message_limit a) (a_expiration_time_seconds a)
    (a_expiration_time_nanos a).

Definition allocationsOf (bid : string) (m : gmap (string * string) allocationRow) :
    list allocationRow :=
  snd <$> filter (fun ka => ka.1.1 = bid) (map_to_list m).

(** The messages outstanding allocations may still account for. *)
Definition outstanding (bid : string) (m : gmap (string * string) allocationRow) : Z :=
  sumZ (a_message_limit <$> allocationsOf bid m).

Lemma allocationsOf_insert bid b aid r m :
  m !! (b, aid) = None ->
  allocationsOf bid (<[(b, aid) := r]> m) ≡ₚ
    (if decide (b = bid) then [r] else []) ++ allocationsOf bid m.
Proof.
  intros H. unfold allocationsOf. rewrite map_to_list_insert, filter_cons by done. simpl.
  by case_decide.
Qed.

Lemma allocationsOf_delete bid b aid r m :
  m !! (b, aid) = Some r ->
  allocationsOf bid m ≡ₚ
    (if decide (b = bid) then [r] else []) ++ allocationsOf bid (delete (b, aid) m).
Proof.
  intros H. rewrite <- (insert_delete_id m (b, aid) r H) at 1.
  apply allocationsOf_insert, lookup_delete_eq.
Qed.

Lemma allocationsOf_filter (bid b : string) (m : gmap (string * string) allocationRow) :
  allocationsOf bid (filter (fun ka : (string * string) * allocationRow => ka.1.1 <> b) m) ≡ₚ
    if decide (b = bid) then [] else allocationsOf bid m.
Proof.
  induction m as [|[b' aid] r m Hm IH] using map_ind.
  { rewrite map_filter_empty. by case_decide. }
  destruct (decide (b' = b)) as [->|Hne].
  - rewrite map_filter_insert_False by (simpl; tauto).
    rewrite delete_id by done. rewrite IH. case_decide as E; [done|].
    by rewrite allocationsOf_insert, decide_False by done.
  - rewrite map_filter_insert_True by done. rewrite allocationsOf_insert, IH.
    + case_decide as E; [|by rewrite allocationsOf_insert].
      subst. by rewrite decide_False by done.
    + apply map_lookup_filter_None. by left.
Qed.

Lemma outstanding_none bid m :
  (forall aid a, m !! (bid, aid) <> Some a) -> outstanding bid m = 0%Z.
Proof.
  intros H. unfold outstanding, allocationsOf. rewrite filter_none; [done|].
  intros [[b aid] a] Hin. simpl. intros ->. apply elem_of_map_to_list in Hin. by eapply H.
Qed.

Lemma outstanding_insert bid b aid r m :
  m !! (b, aid) = None ->
  outstanding bid (<[(b, aid) := r]> m) =
    ((if decide (b = bid) then a_message_limit r else 0) + outstanding bid m)%Z.
Proof.
  intros H. unfold outstanding. rewrite allocationsOf_insert by done.
  rewrite fmap_app, sumZ_app. case_decide; simpl; lia.
Qed.

Lemma outstanding_delete bid b aid r m :
  m !! (b, aid) = Some r ->
  outstanding bid (delete (b, aid) m) =
    (outstanding bid m - (if decide (b = bid) then a_message_limit r else 0))%Z.
Proof.
  intros H. unfold outstanding. rewrite (allocationsOf_delete bid b aid r m H).
  rewrite fmap_app, sumZ_app. case_decide; simpl; lia.
Qed.

Lemma outstanding_alter bid k s m :
  outstanding bid (alter (setAllocSent s) k m) = outstanding bid m.
Proof.
  destruct (m !! k) as [r|] eqn:Hk; [|by rewrite alter_id by (intros ?; congruence)].
  rewrite <- (insert_delete_id m k r Hk), alter_insert_eq. destruct k as [b aid].
  rewrite !outstanding_insert by apply lookup_delete_eq. done.
Qed.

Lemma elem_of_allocationsOf bid m a :
  a ∈ allocationsOf bid m <-> exists aid, m !! (bid, aid) = Some a.
Proof.
  unfold allocationsOf. rewrite list_elem_of_fmap. split.
  - intros ([[b aid] r] & -> & [<- H]%list_elem_of_filter).
    exists aid. by apply elem_of_map_to_list in H.
  - intros [aid H]. exists ((bid, aid), a). split; [done|]. apply list_elem_of_filter.
    split; [done|]. by apply elem_of_map_to_list.
Qed.

Lemma sumZ_sent_le bid als :
  (forall k a, als !! k = Some a -> (0 <= a_sent a <= a_message_limit a)%Z) ->
  (0 <= sumZ (a_sent <$> allocationsOf bid als) <= outstanding bid als)%Z.
Proof.
  intros H. unfold outstanding.
  assert (Hl : forall a, a ∈ allocationsOf bid als -> (0 <= a_sent a <= a_message_limit a)%Z).
  { intros a [aid Ha]%elem_of_allocationsOf. by eapply H. }
  revert Hl. generalize (allocationsOf bid als). intros l.
  induction l as [|a l IH]; intros Hl; [by simpl|].
  change (sumZ (a_sent <$> a :: l)) with (a_sent a + sumZ (a_sent <$> l))%Z.
  change (sumZ (a_message_limit <$> a :: l)) with (a_message_limit a + sumZ (a_message_limit <$> l))%Z.
  pose proof (Hl a ltac:(by left)).
  assert (forall a', a' ∈ l -> (0 <= a_sent a' <= a_message_limit a')%Z) as Hl' by (intros; apply Hl; by right).
  specialize (IH Hl'). lia.
Qed.

Section Ledger.
(** The broadcast ids of the store, and the largest count of sent messages a row
    holds. *)
Context (isKey : string -> Prop) (maxSent : Z) (Hmax : (i64_max <= maxSent <= u64_max)%Z).

Record ledgerOn (bs : gmap string broadcastRow)
    (als : gmap (string * string) allocationRow) : Prop := {
  l_id bid : is_Some (bs !! bid) -> isKey bid;
  l_ref bid aid a : als !! (bid, aid) = Some a -> is_Some (bs !! bid);
  l_alloc k a : als !! k = Some a ->
    (0 <= a_sent a <= a_message_limit a /\ 1 <= a_message_limit a <= i64_max)%Z;
  l_counters bid b : bs !! bid = Some b ->
    (0 <= b_sent b <= maxSent /\ 0 <= b_allocated b <= b_messageLimit b /\
     b_messageLimit b <= i64_max)%Z;
  l_sum bid b : bs !! bid = Some b -> b_messageLimit b <> BroadcastUnlimited ->
    b_allocated b = outstanding bid als;
  l_unlimited bid b : bs !! bid = Some b -> b_messageLimit b = BroadcastUnlimited ->
    b_allocated b = 0%Z;
}.

Lemma ledgerOn_empty : ledgerOn ∅ ∅.
Proof using Type.
  split; simpl.
  - intros bid. rewrite lookup_empty. by intros [].
  - intros bid aid a. by rewrite lookup_empty.
  - intros k a. by rewrite lookup_empty.
  - intros bid b. by rewrite lookup_empty.
  - intros bid b. by rewrite lookup_empty.
  - intros bid b. by rewrite lookup_empty.
Qed.

Lemma ledger_allocation_le bs als bid aid a :
  ledgerOn bs als -> als !! (bid, aid) = Some a -> (a_message_limit a <= outstanding bid als)%Z.
Proof using Type.
  intros H Ha. unfold outstanding. apply sumZ_elem.
  - apply Forall_fmap, Forall_forall. intros x [aid' Hx]%elem_of_allocationsOf.
    apply (l_alloc _ _ H) in Hx. simpl. lia.
  - apply list_elem_of_fmap_2, elem_of_allocationsOf. by exists aid.
Qed.

(** Changing one broadcast's counters and some of its own allocations. *)
Lemma ledgerOn_update bs als als' bid b f :
  ledgerOn bs als -> bs !! bid = Some b ->
  (0 <= b_sent (f b) <= maxSent)%Z ->
  (0 <= b_allocated (f b) <= b_messageLimit (f b))%Z -> (b_messageLimit (f b) <= i64_max)%Z ->
  (forall k a, als' !! k = Some a ->
     (0 <= a_sent a <= a_message_limit a /\ 1 <= a_message_limit a <= i64_max)%Z) ->
  (forall k a, als' !! k = Some a -> k.1 = bid \/ is_Some (als !! k)) ->
  (forall bid', bid' <> bid -> outstanding bid' als' = outstanding bid' als) ->
  (b_messageLimit (f b) <> BroadcastUnlimited -> b_allocated (f b) = outstanding bid als') ->
  (b_messageLimit (f b) = BroadcastUnlimited -> b_allocated (f b) = 0%Z) ->
  ledgerOn (alter f bid bs) als'.
Proof using Type.
  intros H Hb Hs Ha Hl Hals Href Hother Hsum Hunl.
  assert (Hdom : forall x, is_Some (alter f bid bs !! x) <-> is_Some (bs !! x)).
  { intros x. rewrite lookup_alter. case_decide; [|done]. subst. by rewrite fmap_is_Some. }
  assert (Hcases : forall x b', alter f bid bs !! x = Some b' ->
    (x = bid /\ b' = f b) \/ (x <> bid /\ bs !! x = Some b')).
  { intros x b'. rewrite lookup_alter. case_decide as Hx; [|intros ?; right; by split].
    subst. rewrite Hb. intros [= <-]. by left. }
  split.
  - intros x Hx%Hdom. by apply (l_id _ _ H).
  - intros x aid a Hx. apply Hdom. destruct (Href _ _ Hx) as [Heq|[a' Ha']].
    + simpl in Heq. subst. by eexists.
    + by apply (l_ref _ _ H _ _ _ Ha').
  - done.
  - intros x b' [[-> ->]|[_ Hx]]%Hcases; [done|]. by apply (l_counters _ _ H x).
  - intros x b' [[-> ->]|[Hne Hx]]%Hcases; [done|]. rewrite Hother by done.
    by apply (l_sum _ _ H).
  - intros x b' [[-> ->]|[Hne Hx]]%Hcases; [done|]. by apply (l_unlimited _ _ H x).
Qed.

Lemma ledgerOn_fresh bs als bid r :
  ledgerOn bs als -> bs !! bid = None ->
  isKey bid ->
  b_sent r = 0%Z -> b_allocated r = 0%Z -> (0 <= b_messageLimit r <= i64_max)%Z ->
  ledgerOn (<[bid := r]> bs) als.
Proof using Hmax.
  intros H Hb Hid Hs Ha Hl. split.
  - intros x. rewrite lookup_insert_is_Some'. intros [<-|Hx]; [done|by apply (l_id _ _ H)].
  - intros x aid a Hx. rewrite lookup_insert_is_Some'. right. by apply (l_ref _ _ H _ _ _ Hx).
  - by apply (l_alloc _ _ H).
  - intros x b'. rewrite lookup_insert. case_decide; [|by apply (l_counters _ _ H)].
    intros [= <-]. unfold i64_max in *. lia.
  - intros x b'. rewrite lookup_insert. case_decide; [|by apply (l_sum _ _ H)].
    intros [= <-] _. rewrite Ha, outstanding_none; [done|]. subst.
    intros aid a Hx. apply (l_ref _ _ H) in Hx as [? ?]. congruence.
  - intros x b'. rewrite lookup_insert. case_decide; [|by apply (l_unlimited _ _ H)].
    intros [= <-] _. done.
Qed.

(** ** What the operations do to it *)

(** Disabling; a broadcast that does not exist has no allocations. *)
Lemma ledgerOn_no_allocations bs als bid :
  ledgerOn bs als -> bs !! bid = None ->
  filter (fun ka : (string * string) * allocationRow => ka.1.1 <> bid) als = als.
Proof using Type.
  intros H Hn. apply map_filter_id. intros [x aid] a Ha. simpl. intros ->.
  apply (l_ref _ _ H) in Ha as [? ?]. congruence.
Qed.

Lemma disabled_allocated bs als bid b :
  ledgerOn bs als -> bs !! bid = Some b ->
  (if (wrapU64 (outstanding bid als) <=? b_allocated b)%Z
   then (b_allocated b - wrapU64 (outstanding bid als))%Z else 0%Z) = 0%Z.
Proof using Type.
  intros Hw Hb. pose proof (l_counters _ _ Hw _ _ Hb) as (H1 & H2 & H3).
  destruct (decide (b_messageLimit b = BroadcastUnlimited)) as [Hu|Hu].
  - rewrite (l_unlimited _ _ Hw _ _ Hb Hu).
    pose proof (wrapU64_range (outstanding bid als)) as Hr. unfold isU64 in Hr.
    destruct (Z.leb_spec (wrapU64 (outstanding bid als)) 0); lia.
  - rewrite <- (l_sum _ _ Hw _ _ Hb Hu).
    rewrite wrapU64_small by (unfold isU64, i64_max in *; lia). rewrite Z.leb_refl. lia.
Qed.

Lemma ledgerOn_disable bs als bid b s new :
  ledgerOn bs als -> bs !! bid = Some b -> (0 <= s <= maxSent)%Z ->
  new = (if (wrapU64 (outstanding bid als) <=? b_allocated b)%Z
         then (b_allocated b - wrapU64 (outstanding bid als))%Z else 0%Z) ->
  ledgerOn (alter (setCounters s new 0) bid bs)
    (filter (fun ka : (string * string) * allocationRow => ka.1.1 <> bid) als).
Proof using Type.
  intros Hw Hb Hs ->. rewrite (disabled_allocated _ _ _ _ Hw Hb).
  apply (ledgerOn_update _ als _ _ b); try done; simpl.
  - intros k a [Ha _]%map_lookup_filter_Some. exact (l_alloc _ _ Hw k a Ha).
  - intros k a [Ha _]%map_lookup_filter_Some. right. by eexists.
  - intros bid' Hne. unfold outstanding. by rewrite allocationsOf_filter, decide_False.
  - intros _. unfold outstanding. by rewrite allocationsOf_filter, decide_True.
Qed.

(** Sending under an allocation with room. *)
Lemma ledgerOn_send bs als key a :
  ledgerOn bs als -> als !! key = Some a -> (a_sent a < a_message_limit a)%Z ->
  ledgerOn bs (alter (setAllocSent (wrapU64 (a_sent a + 1))) key als).
Proof using Type.
  intros Hw Ha Hlt. pose proof (l_alloc _ _ Hw _ _ Ha) as [H1 H2].
  assert (Hdom : forall k a', alter (setAllocSent (wrapU64 (a_sent a + 1))) key als !! k = Some a' ->
    exists a0, als !! k = Some a0 /\ a_message_limit a' = a_message_limit a0 /\
      (a_sent a' = a_sent a0 \/ a0 = a /\ a_sent a' = a_sent a + 1)%Z).
  { intros k a'. rewrite lookup_alter. case_decide as Hk; [|by eauto].
    rewrite <- Hk, Ha. intros [= <-]. exists a. split; [done|]. split; [done|]. right.
    simpl. rewrite wrapU64_small; [done|]. unfold isU64, i64_max in *. lia. }
  destruct Hw as [W1 W2 W3 W4 W5 W6]. split; try done.
  - intros bid aid a' (a0 & Ha0 & _)%Hdom. by apply (W2 _ _ _ Ha0).
  - intros k a' (a0 & Ha0 & Hl & Hs)%Hdom. specialize (W3 _ _ Ha0).
    destruct Hs as [Hs|[-> Hs]]; lia.
  - intros bid b Hb Hu. by rewrite outstanding_alter, (W5 _ _ Hb Hu).
Qed.

(** Granting an allocation. *)
Section Allocating.
Context `{F : FloatConv} {HF : FloatConvOK F}.

Lemma allocation_cases bs als bid b frac k new :
  ledgerOn bs als -> bs !! bid = Some b ->
  ComputeBroadcastAllocation (b_messageLimit b) (b_allocated b) (b_sent b) frac = (k, new) ->
  (b_messageLimit b = BroadcastUnlimited /\ k = BroadcastUnlimited /\ new = b_allocated b) \/
  (b_messageLimit b <> BroadcastUnlimited /\ b_messageLimit b <= Z.max (b_allocated b) (b_sent b) /\ k = 0 /\ new = b_allocated b)%Z \/
  (b_messageLimit b <> BroadcastUnlimited /\ Z.max (b_allocated b) (b_sent b) < b_messageLimit b /\
   1 <= k <= b_messageLimit b - Z.max (b_allocated b) (b_sent b) /\ new = b_allocated b + k)%Z.
Proof using HF Hmax.
  intros Hw Hb Ec. pose proof (l_counters _ _ Hw _ _ Hb) as (H1 & H2 & H3).
  pose proof (ComputeBroadcastAllocation_cases (b_messageLimit b) (b_allocated b) (b_sent b) frac) as Hc.
  rewrite Ec in Hc. unfold isU64, i64_max, u64_max in *. specialize (Hc ltac:(lia) ltac:(lia) ltac:(lia)). lia.
Qed.

Lemma ledgerOn_allocate bs als bid b frac k new aid sec ns :
  ledgerOn bs als -> bs !! bid = Some b ->
  ComputeBroadcastAllocation (b_messageLimit b) (b_allocated b) (b_sent b) frac = (k, new) ->
  k <> 0%Z -> als !! (bid, aid) = None ->
  ledgerOn (alter (fun b => setCounters (b_sent b) new (b_messageLimit b) b) bid bs)
    (<[(bid, aid) := mkAllocationRow 0 k sec ns]> als).
Proof using HF Hmax.
  intros Hw Hb Ec Hk Hn. pose proof (l_counters _ _ Hw _ _ Hb) as (H1 & H2 & H3).
  pose proof (allocation_cases _ _ _ _ _ _ _ Hw Hb Ec) as Hc. unfold BroadcastUnlimited, i64_max in *.
  assert (Hnew : (b_messageLimit b = 2 ^ 63 - 1 -> new = 0)%Z).
  { intros Hu. pose proof (l_unlimited _ _ Hw _ _ Hb Hu). lia. }
  apply (ledgerOn_update _ als _ _ b); try done; unfold BroadcastUnlimited, i64_max in *; simpl; try lia.
  - intros k' a. rewrite lookup_insert. case_decide; [|by apply (l_alloc _ _ Hw)].
    intros [= <-]. simpl. unfold i64_max. lia.
  - intros k' a. rewrite lookup_insert. case_decide as Hk'; [subst; by left|]. right. by eexists.
  - intros bid' Hne. by rewrite outstanding_insert, decide_False by done.
  - intros Hu. rewrite outstanding_insert, decide_True by done. simpl.
    rewrite <- (l_sum _ _ Hw _ _ Hb Hu). lia.
Qed.
End Allocating.

(** Accounting for messages sent without an allocation, and for an allocation
    that is given back. *)
Lemma ledgerOn_count bs als bid b s :
  ledgerOn bs als -> bs !! bid = Some b -> (0 <= s <= maxSent)%Z ->
  ledgerOn (alter (fun b => setCounters s (b_allocated b) (b_messageLimit b) b) bid bs) als.
Proof using Type.
  intros Hw Hb Hs. pose proof (l_counters _ _ Hw _ _ Hb) as (H1 & H2 & H3).
  apply (ledgerOn_update _ als _ _ b); try done; simpl.
  - by apply (l_alloc _ _ Hw).
  - intros k a Ha. right. by eexists.
  - exact (l_sum _ _ Hw _ _ Hb).
  - exact (l_unlimited _ _ Hw _ _ Hb).
Qed.

Lemma ledgerOn_cleanup bs als bid aid b a s new :
  ledgerOn bs als -> bs !! bid = Some b -> als !! (bid, aid) = Some a -> (0 <= s <= maxSent)%Z ->
  ComputeBroadcastAllocationCleanup (a_message_limit a) (b_allocated b) = Ok new ->
  ledgerOn (alter (fun b => setCounters s new (b_messageLimit b) b) bid bs) (delete (bid, aid) als).
Proof using Type.
  intros Hw Hb Ha Hs Ec. pose proof (l_counters _ _ Hw _ _ Hb) as (H1 & H2 & H3).
  pose proof (l_alloc _ _ Hw _ _ Ha) as [H4 H5]. unfold ComputeBroadcastAllocationCleanup in Ec.
  assert (Hnew : (new = b_allocated b /\ a_message_limit a = BroadcastUnlimited \/
                  new = b_allocated b - a_message_limit a /\ a_message_limit a <= b_allocated b)%Z).
  { destruct (Z.eqb_spec (a_message_limit a) BroadcastUnlimited); [injection Ec as <-; by left|].
    destruct (Z.ltb_spec (b_allocated b) (a_message_limit a)); [done|]. injection Ec as <-.
    right. rewrite wrapU64_small by (unfold isU64, i64_max in *; lia). done. }
  apply (ledgerOn_update _ als _ _ b); try done; simpl; try lia.
  - intros k a' [_ Ha']%lookup_delete_Some. exact (l_alloc _ _ Hw k a' Ha').
  - intros k a' [_ Ha']%lookup_delete_Some. right. by eexists.
  - intros bid' Hne. rewrite (outstanding_delete _ _ _ a) by done.
    rewrite decide_False by done. lia.
  - intros Hu. rewrite (outstanding_delete _ _ _ a) by done. rewrite decide_True by done.
    pose proof (l_sum _ _ Hw _ _ Hb Hu). pose proof (ledger_allocation_le _ _ _ _ _ Hw Ha).
    unfold BroadcastUnlimited, i64_max in *. lia.
  - intros Hu. pose proof (l_unlimited _ _ Hw _ _ Hb Hu). lia.
Qed.
End Ledger.
