(* ===== verification/SqliteBroadcasts.v ===== *)
(** * The sqlite broadcast store

    src/server/sqlite/broadcaststore.go, operation by operation.  [ledger] is
    the invariant that ties each broadcast's counters to its outstanding
    allocations. *)
From Stdlib Require Import SpecFloat.
From S2P Require Import Prelude Platform Ids Proto Db Sqlite SqliteMessages SqliteClients Ledger.

(** ** Conversions; a row is kept with its key *)
Definition fromBroadcastProto (b : option Broadcast.t) : outcome (string * broadcastRow) :=
  match b with
  | None => Err (ErrText "cannot convert nil Broadcast")
  | Some b =>
      id ← BroadcastID.BytesToBroadcastID (Broadcast.BroadcastId b);
      match Broadcast.Source b with
      | None => Err (ErrText "Broadcast must have Source.")
      | Some src =>
          Ok (BroadcastID.String id,
              mkBroadcastRow (Address.ServiceName src)
                (Address.ServiceName <$> Broadcast.Destination b)
                (Broadcast.MessageType b)
                (Timestamp.Seconds <$> Broadcast.ExpirationTime b)
                (Timestamp.Nanos <$> Broadcast.ExpirationTime b)
                (Any.TypeUrl <$> Broadcast.Data b)
                (a ← Broadcast.Data b; Any.Value a) 0 0 0)
      end
  end.

Definition toBroadcastProto (bid : string) (b : broadcastRow) : outcome Broadcast.t :=
  id ← BroadcastID.StringToBroadcastID bid;
  Ok (Broadcast.Mk (BroadcastID.Bytes id)
        (Some (Address.Mk None (b_sourceServiceName b)))
        (b_messageType b) []
        (match b_expirationTimeSeconds b, b_expirationTimeNanos b with
         | Some s, Some n => Some (Timestamp.Mk s (wrapI32 n))
         | _, _ => None
         end)
        (match b_dataTypeURL b with
         | Some u => Some (Any.Mk u (b_dataValue b)) | None => None end)
        (match b_destinationServiceName b with
         | Some s => Some (Address.Mk None s) | None => None end)
        "").

Section Broadcasts.
Context `{P : Platform} `{L : ProtoLib} `{F : FloatConv} `{C : Connection}.

Definition insertBroadcast (bid : string) (r : broadcastRow) : Sql unit :=
  exec (fun d =>
    _ ← argUint64 (b_messageLimit r);
    _ ← constraint (bool_decide (broadcasts d !! bid = None)) "broadcasts.broadcast_id";
    Ok (setBroadcasts (<[bid := r]> (broadcasts d)) d)).

Definition insertBroadcastLabel (bid : string) (l : Label.t) : Sql unit :=
  exec (fun d =>
    let row := (bid, Label.ServiceName l, Label.Label l) in
    _ ← constraint (bool_decide (row ∉ broadcast_labels d)) "broadcast_labels";
    _ ← foreignKey (bool_decide (is_Some (broadcasts d !! bid)));
    Ok (setBroadcastLabels ({[row]} ∪ broadcast_labels d) d)).

Definition CreateBroadcast (b : option Broadcast.t) (limit : Z) : Sql unit :=
  dbB ← lift (fromBroadcastProto b);
  let r := setCounters 0 0 limit dbB.2 in
  runInTx (
    let group := match b with Some b => Broadcast.GroupName b | None => ""%string end in
    if negb (String.eqb group "") then
      fail (ErrWrap "broadcast replacement feature is not supported by the sqlite datastore"
              ErrNotSupported)
    else
      insertBroadcast dbB.1 r ≫= fun _ =>
      forM_ (match b with Some b => Broadcast.RequiredLabels b | None => [] end)
        (insertBroadcastLabel dbB.1)).

(** [UPDATE broadcasts(message_limit) VALUES(?) WHERE ...] is not SQL: sqlite
    refuses the statement before it looks at any row. *)
Definition SetBroadcastLimit (id : BroadcastID.t) (limit : Z) : Sql unit :=
  runInTx (exec (fun d => _ ← argUint64 limit; Err ErrSqlSyntax)).

(** *** Disabling *)
Definition disableOne (bid : string) : Sql unit :=
  rows ← query (fun d => Ok ((fun a => (a_sent a, a_message_limit a)) <$>
            allocationsOf bid (broadcast_allocations d)));
  let totals := foldl (fun (t : Z * Z) (r : Z * Z) =>
                  (wrapU64 (t.1 + r.1), wrapU64 (t.2 + r.2))) (0, 0)%Z rows in
  exec (fun d => Ok (setAllocations
    (filter (fun ka => ka.1.1 <> bid) (broadcast_allocations d)) d)) ≫= fun _ =>
  e ← try (queryRow (fun d => (fun b => (b_sent b, b_allocated b)) <$> broadcasts d !! bid));
  match e with
  | inr ErrNoRows => mret tt
  | inr e => fail e
  | inl (bSent, bAllocated) =>
      let newAllocated := if (totals.2 <=? bAllocated)%Z then (bAllocated - totals.2)%Z else 0%Z in
      exec (fun d =>
        let s := wrapU64 (bSent + totals.1) in
        _ ← argUint64 s;
        _ ← argUint64 newAllocated;
        Ok (setBroadcasts (alter (setCounters s newAllocated 0) bid (broadcasts d)) d))
  end.

Definition tryDisableBroadcasts (bIDs : list BroadcastID.t) : Sql unit :=
  forM_ bIDs (fun bID => disableOne (BroadcastID.String bID)).

Definition DisableBroadcasts (bIDs : list BroadcastID.t) : Sql unit :=
  if decide (bIDs = []) then mret tt else runInTx (tryDisableBroadcasts bIDs).

(** *** Sending *)
Definition insertSent (bid cid : string) : Sql unit :=
  exec (fun d =>
    _ ← constraint (bool_decide ((bid, cid) ∉ broadcast_sent d)) "broadcast_sent";
    _ ← foreignKey (bool_decide (is_Some (broadcasts d !! bid)) &&
                    bool_decide (is_Some (clients d !! cid)));
    Ok (setBroadcastSent ({[(bid, cid)]} ∪ broadcast_sent d) d)).

Definition updateAllocSent (bid aid : string) (sent : Z) : Sql unit :=
  exec (fun d =>
    _ ← argUint64 sent;
    Ok (setAllocations (alter (setAllocSent sent) (bid, aid) (broadcast_allocations d)) d)).

(** [err == sql.ErrNoRows] becomes [db.ErrBroadcastDisabled]. *)
Definition orDisabled {A} (m : Sql A) : Sql A :=
  e ← try m;
  match e with
  | inl a => mret a
  | inr e => if errorsIs e ErrNoRows then fail ErrBroadcastDisabled else fail e
  end.

Definition SaveBroadcastMessage (msg : Message.t) (bID : BroadcastID.t) (cID : ClientID.t)
    (aID : AllocationID.t) : Sql unit :=
  dbm ← lift (fromMessageProto msg);
  let bid := BroadcastID.String bID in
  let cid := ClientID.String cID in
  let aid := AllocationID.String aID in
  runInTx (
    tryStoreMessage dbm true ≫= fun _ =>
    if decide (blen (AllocationID.Bytes aID) = 0) then
      limit ← orDisabled (queryRow (fun d => b_messageLimit <$> broadcasts d !! bid));
      if (limit =? 0)%Z then fail ErrBroadcastDisabled else insertSent bid cid
    else
      a ← orDisabled (queryRow (fun d => broadcast_allocations d !! (bid, aid)));
      if (a_message_limit a <=? a_sent a)%Z then
        fail (ErrText "SaveBroadcastMessage: broadcast allocation is full")
      else
        let exp := Timestamp.Mk (a_expiration_time_seconds a) (a_expiration_time_nanos a) in
        match tspbCheckValid exp with
        | Some _ => fail (ErrText "SaveBroadcastMessage: unable to convert expiry to time")
        | None =>
            t ← now;
            if (tspbAsTime exp <? t)%Z then
              fail (ErrText "SaveBroadcastMessage: broadcast allocation is expired")
            else
              insertSent bid cid ≫= fun _ =>
              updateAllocSent bid aid (wrapU64 (a_sent a + 1))
        end).

(** *** Listing *)

(** [WHERE sent < message_limit AND (expiration_time_seconds IS NULL OR ...)]. *)
Definition activeRow (n : Timestamp.t) (b : broadcastRow) : bool :=
  (b_sent b <? b_messageLimit b)%Z &&
  match b_expirationTimeSeconds b with
  | None => true
  | Some s =>
      (Timestamp.Seconds n <? s)%Z ||
      (s =? Timestamp.Seconds n)%Z &&
      match b_expirationTimeNanos b with
      | Some ns => (Timestamp.Nanos n <? ns)%Z
      | None => false
      end
  end.

Definition broadcastLabels (bid : string) (d : Db) : list Label.t :=
  (fun row => Label.Mk row.1.2 row.2) <$>
    elements (filter (fun row => row.1.1 = bid) (broadcast_labels d)).

Definition withLabels (ls : list Label.t) (b : Broadcast.t) : Broadcast.t :=
  Broadcast.Mk (Broadcast.BroadcastId b) (Broadcast.Source b) (Broadcast.MessageType b)
    (Broadcast.RequiredLabels b ++ ls) (Broadcast.ExpirationTime b) (Broadcast.Data b)
    (Broadcast.Destination b) (Broadcast.GroupName b).

Definition readActive (kb : string * broadcastRow) : Sql BroadcastInfo.t :=
  bp ← lift (toBroadcastProto kb.1 kb.2);
  mret (BroadcastInfo.Mk bp (b_sent kb.2) (b_messageLimit kb.2)).

Definition readActiveLabels (i : BroadcastInfo.t) : Sql BroadcastInfo.t :=
  id ← lift (BroadcastID.BytesToBroadcastID (Broadcast.BroadcastId (BroadcastInfo.Broadcast i)));
  ls ← query (fun d => Ok (broadcastLabels (BroadcastID.String id) d));
  mret (BroadcastInfo.Mk (withLabels ls (BroadcastInfo.Broadcast i))
          (BroadcastInfo.Sent i) (BroadcastInfo.Limit i)).

Definition ListActiveBroadcasts : Sql (list BroadcastInfo.t) :=
  runInTx (
    n ← NowProto;
    rows ← query (fun d => Ok (filter (fun kb => activeRow n kb.2 = true)
                                 (map_to_list (broadcasts d))));
    ret ← mapMs readActive rows;
    mapMs readActiveLabels ret).

Definition ListSentBroadcasts (id : ClientID.t) : Sql (list BroadcastID.t) :=
  rows ← query (fun d => Ok (fst <$> filter (fun bc => bc.2 = ClientID.String id)
                               (elements (broadcast_sent d))));
  mapMs (fun b =>
    match BroadcastID.StringToBroadcastID b with
    | Ok bID => mret bID
    | Err _ => fail (ErrText "ListSentBroadcasts: bad broadcast id for client")
    | Crash why => crash why
    end) rows.

(** *** Allocations *)
Definition updateAllocated (bid : string) (newAllocated : Z) : Sql unit :=
  exec (fun d =>
    _ ← argUint64 newAllocated;
    Ok (setBroadcasts (alter (fun b =>
      setCounters (b_sent b) newAllocated (b_messageLimit b) b) bid (broadcasts d)) d)).

Definition insertAllocation (bid aid : string) (a : allocationRow) : Sql unit :=
  exec (fun d =>
    _ ← argUint64 (a_message_limit a);
    _ ← constraint (bool_decide (broadcast_allocations d !! (bid, aid) = None)) "broadcast_allocations";
    _ ← foreignKey (bool_decide (is_Some (broadcasts d !! bid)));
    Ok (setAllocations (<[(bid, aid) := a]> (broadcast_allocations d)) d)).

Definition readCounters (bid : string) : Sql broadcastRow :=
  queryRow (fun d => broadcasts d !! bid).

Definition CreateAllocation (id : BroadcastID.t) (frac : spec_float) (expiry : Z) :
    Sql (option AllocationInfo.t) :=
  runInTx (
    let ep := tspbNew expiry in
    match tspbCheckValid ep with
    | Some e => fail e
    | None =>
        aid ← AllocationID.RandomAllocationID;
        let bid := BroadcastID.String id in
        b ← readCounters bid;
        let '(toAllocate, newAllocated) :=
          ComputeBroadcastAllocation (b_messageLimit b) (b_allocated b) (b_sent b) frac in
        if (toAllocate =? 0)%Z then mret None
        else
          updateAllocated bid newAllocated ≫= fun _ =>
          insertAllocation bid (AllocationID.String aid)
            (mkAllocationRow 0 toAllocate (Timestamp.Seconds ep) (Timestamp.Nanos ep)) ≫= fun _ =>
          mret (Some (AllocationInfo.Mk aid toAllocate expiry))
    end).

Definition updateSent (bid : string) (sent : Z) : Sql unit :=
  exec (fun d =>
    _ ← argUint64 sent;
    Ok (setBroadcasts (alter (fun b =>
      setCounters sent (b_allocated b) (b_messageLimit b) b) bid (broadcasts d)) d)).

Definition updateBoth (bid : string) (sent newAllocated : Z) : Sql unit :=
  exec (fun d =>
    _ ← argUint64 sent;
    _ ← argUint64 newAllocated;
    Ok (setBroadcasts (alter (fun b =>
      setCounters sent newAllocated (b_messageLimit b) b) bid (broadcasts d)) d)).

Definition CleanupAllocation (bID : BroadcastID.t) (aID : AllocationID.t) (finalSent : Z) : Sql unit :=
  let bid := BroadcastID.String bID in
  let aid := AllocationID.String aID in
  runInTx (
    b ← readCounters bid;
    if decide (blen (AllocationID.Bytes aID) = 0) then
      updateSent bid (wrapU64 (b_sent b + finalSent))
    else
      e ← try (queryRow (fun d => broadcast_allocations d !! (bid, aid)));
      match e with
      | inr ErrNoRows => mret tt
      | inr e => fail e
      | inl a =>
          match ComputeBroadcastAllocationCleanup (a_message_limit a) (b_allocated b) with
          | Ok newAllocated =>
              updateBoth bid (wrapU64 (b_sent b + finalSent)) newAllocated ≫= fun _ =>
              exec (fun d => Ok (setAllocations
                (delete (bid, aid) (broadcast_allocations d)) d))
          | _ => fail (ErrText "unable to clear allocation")
          end
      end).
End Broadcasts.

(** ** The ledger *)
Definition hexKey (bid : string) : Prop := exists id, BroadcastID.valid id /\ BroadcastID.String id = bid.
Definition ledger (d : Db) : Prop := ledgerOn hexKey i64_max (broadcasts d) (broadcast_allocations d).

Lemma ledger_empty : ledger emptyDb.
Proof. apply ledgerOn_empty. Qed.

(** ** What a completed operation has done *)
Section Effects.
Context `{P : Platform} `{L : ProtoLib} `{F : FloatConv} `{C : Connection}.

Lemma disableOne_Ok bid w u w' :
  PlatformOK P -> disableOne bid w = (Ok u, w') ->
  let d := w_data w in
  let als := broadcast_allocations d in
  let d1 := setAllocations (filter (fun ka => ka.1.1 <> bid) als) d in
  let totalSent := wrapU64 (sumZ (a_sent <$> allocationsOf bid als)) in
  let totalLimit := wrapU64 (outstanding bid als) in
  (broadcasts d !! bid = None /\ w_data w' = d1) \/
  (exists b, broadcasts d !! bid = Some b /\
     (wrapU64 (b_sent b + totalSent) <= i64_max)%Z /\
     w_data w' = setBroadcasts (alter (setCounters (wrapU64 (b_sent b + totalSent))
        (if (totalLimit <=? b_allocated b)%Z then (b_allocated b - totalLimit)%Z else 0%Z) 0)
        bid (broadcasts d)) d1).
Proof.
  intros HP E. cbv zeta.
  apply bind_Ok in E as (rows & w1 & Eq & E).
  apply query_Ok in Eq as (_ & (l & [= <-] & ->) & ->).
  rewrite (foldl_wrapU64 fst snd) in E by by split.
  assert (Hp : forall n (g : Z * Z -> Z) l, sumZ (g <$> deliver n _ l) = sumZ (g <$> l))
    by (intros; by rewrite deliver_perm).
  rewrite !Hp, <- !list_fmap_compose, !Z.add_0_l in E. unfold outstanding.
  apply bind_Ok in E as ([] & w2 & Ed & E). apply exec_Ok in Ed as (_ & [= Ed] & _). simpl in Ed.
  apply bind_Ok in E as (e & w3 & Et & E). apply try_Ok in Et.
  destruct e as [[bs ba]|e].
  - apply queryRow_Ok in Et as (_ & (b & Hb & [= -> ->])%fmap_Some & ->).
    rewrite <- Ed in Hb. simpl in Hb. apply exec_Ok in E as (_ & E & _).
    apply outcome_bind_Ok in E as (? & Hs%argUint64_Ok & E).
    apply outcome_bind_Ok in E as (? & _ & [= <-]).
    right. exists b. split; [done|]. split; [done|]. by rewrite <- Ed.
  - destruct e; try done. apply ret_Ok in E as [_ <-]. left.
    unfold queryRow in Et. destruct (sqlFault _); [done|].
    destruct (broadcasts (w_data w2) !! bid) eqn:Hb; [done|]. injection Et as <-.
    rewrite <- Ed in Hb. by rewrite <- Ed.
Qed.

Lemma tryStoreMessage_frame dbm isB w u w' :
  tryStoreMessage dbm isB w = (Ok u, w') ->
  exists ms ps, w_data w' = setPending ps (setMessages ms (w_data w)).
Proof.
  intros (_ & [[_ E]|[(_ & _ & E)|(_ & _ & due & E)]])%tryStoreMessage_Ok; rewrite E.
  - exists (messages (w_data w)), (pending_messages (w_data w)). by destruct (w_data w).
  - eexists _, (pending_messages (w_data w)). reflexivity.
  - eexists _, _. reflexivity.
Qed.

Lemma orDisabled_Ok {A} (m : Sql A) a w w' :
  orDisabled m w = (Ok a, w') <-> m w = (Ok a, w').
Proof.
  unfold orDisabled. split.
  - intros E. apply bind_Ok in E as ([b|e] & w1 & Et & E); apply try_Ok in Et.
    + by apply ret_Ok in E as [-> <-].
    + by destruct (errorsIs e ErrNoRows).
  - intros E. rewrite (bind_run (try m) _ w (inl a) w'); [done|]. by apply try_Ok.
Qed.

Lemma insertSent_Ok bid cid w u w' :
  insertSent bid cid w = (Ok u, w') ->
  (bid, cid) ∉ broadcast_sent (w_data w) /\ (C = true -> is_Some (broadcasts (w_data w) !! bid)) /\
  (C = true -> is_Some (clients (w_data w) !! cid)) /\
  w_data w' = setBroadcastSent ({[(bid, cid)]} ∪ broadcast_sent (w_data w)) (w_data w).
Proof.
  intros E. apply exec_Ok in E as (_ & E & _).
  apply outcome_bind_Ok in E as (? & H1%constraint_Ok & E).
  apply outcome_bind_Ok in E as (? & H2 & [= <-]).
  apply bool_decide_eq_true_1 in H1. split; [done|].
  assert (H : C = true -> is_Some (broadcasts (w_data w) !! bid) /\ is_Some (clients (w_data w) !! cid)).
  { intros HC. apply (foreignKey_Ok (EN := HC)), andb_true_iff in H2 as [H2 H3].
    by apply bool_decide_eq_true_1 in H2, H3. }
  split; [by intros [? _]%H|]. split; [by intros [_ ?]%H|done].
Qed.

Lemma SaveBroadcastMessage_Ok msg bID cID aID w u w' :
  SaveBroadcastMessage msg bID cID aID w = (Ok u, w') ->
  let d := w_data w in
  let bid := BroadcastID.String bID in
  let cid := ClientID.String cID in
  let key := (bid, AllocationID.String aID) in
  exists dbm ms ps, fromMessageProto msg = Ok dbm /\
  (bid, cid) ∉ broadcast_sent d /\ (C = true -> is_Some (broadcasts d !! bid)) /\
  (C = true -> is_Some (clients d !! cid)) /\
  let d1 := setBroadcastSent ({[(bid, cid)]} ∪ broadcast_sent d)
              (setPending ps (setMessages ms d)) in
  ((blen (AllocationID.Bytes aID) = 0 /\ w_data w' = d1 /\
    exists b, broadcasts d !! bid = Some b /\ b_messageLimit b <> 0%Z) \/
   (blen (AllocationID.Bytes aID) <> 0 /\ exists a n,
      broadcast_allocations d !! key = Some a /\ (a_sent a < a_message_limit a)%Z /\
      (clock n <= tspbAsTime (Timestamp.Mk (a_expiration_time_seconds a) (a_expiration_time_nanos a)))%Z /\
      w_data w' = setAllocations
        (alter (setAllocSent (wrapU64 (a_sent a + 1))) key (broadcast_allocations d)) d1)).
Proof.
  intros E. cbv zeta. apply bind_Ok in E as (dbm & w0 & Em & E).
  apply lift_Ok in Em as [Em <-]. cbv zeta in E.
  apply runInTx_Ok in E as (_ & w1 & E & _ & ->).
  apply bind_Ok in E as ([] & w2 & Es & E).
  apply tryStoreMessage_frame in Es as (ms & ps & Hd2). simpl in Hd2.
  exists dbm, ms, ps. split; [done|].
  destruct (decide _) as [Hnil|Hnil].
  - apply bind_Ok in E as (limit & w3 & El & E).
    apply orDisabled_Ok, queryRow_Ok in El as (_ & (b & Hb & ->)%fmap_Some & ->).
    destruct (Z.eqb_spec (b_messageLimit b) 0); [done|].
    apply insertSent_Ok in E as (H1 & H2 & H3 & E). simpl in *. rewrite Hd2 in *. simpl in *.
    do 3 (split; [done|]). left. split; [done|]. split; [done|]. by exists b.
  - apply bind_Ok in E as (a & w3 & El & E).
    apply orDisabled_Ok, queryRow_Ok in El as (_ & Ha & ->).
    destruct (Z.leb_spec (a_message_limit a) (a_sent a)); [done|].
    destruct (tspbCheckValid _); [done|].
    apply bind_Ok in E as (t & w4 & Et & E). apply interact_Ok in Et as [[= <-] ->].
    match type of E with context [(?x <? ?y)%Z] => destruct (Z.ltb_spec x y) end; [done|].
    apply bind_Ok in E as ([] & w5 & Ei & E).
    apply insertSent_Ok in Ei as (H1 & H2 & H3 & Ei). simpl in *. rewrite Hd2 in *. simpl in *.
    apply exec_Ok in E as (_ & E & _). apply outcome_bind_Ok in E as (? & _ & [= <-]).
    do 3 (split; [done|]). right. split; [done|]. exists a. eexists.
    do 3 (split; [done|]). by rewrite Ei.
Qed.

Lemma CreateAllocation_Ok id frac expiry w r w' :
  CreateAllocation id frac expiry w = (Ok r, w') ->
  let d := w_data w in
  let bid := BroadcastID.String id in
  exists b k new, broadcasts d !! bid = Some b /\
  ComputeBroadcastAllocation (b_messageLimit b) (b_allocated b) (b_sent b) frac = (k, new) /\
  ((k = 0%Z /\ r = None /\ w_data w' = d) \/
   (k <> 0%Z /\ exists aid, r = Some (AllocationInfo.Mk aid k expiry) /\
    broadcast_allocations d !! (bid, AllocationID.String aid) = None /\
    (k <= i64_max)%Z /\ (new <= i64_max)%Z /\
    w_data w' = setAllocations (<[(bid, AllocationID.String aid) :=
        mkAllocationRow 0 k (Timestamp.Seconds (tspbNew expiry)) (Timestamp.Nanos (tspbNew expiry))]>
        (broadcast_allocations d))
      (setBroadcasts (alter (fun b => setCounters (b_sent b) new (b_messageLimit b) b) bid
        (broadcasts d)) d))).
Proof.
  intros E. cbv zeta. apply runInTx_Ok in E as (_ & w1 & E & _ & ->).
  cbv zeta in E. destruct (tspbCheckValid (tspbNew expiry)); [done|].
  apply bind_Ok in E as (aid & w2 & Ea & E).
  assert (Hw2 : w_data w2 = w_data w).
  { unfold AllocationID.RandomAllocationID in Ea. apply bind_Ok in Ea as (o & w3 & Eo & Ea).
    apply interact_Ok in Eo as [_ ->]. destruct o; [|done]. by apply ret_Ok in Ea as [_ <-]. }
  apply bind_Ok in E as (b & w3 & Eb & E). apply queryRow_Ok in Eb as (_ & Eb & ->).
  rewrite Hw2 in Eb.
  destruct (ComputeBroadcastAllocation _ _ _ _) as [k new] eqn:Ec.
  exists b, k, new. split; [done|]. split; [done|].
  destruct (Z.eqb_spec k 0) as [->|Hk].
  { left. apply ret_Ok in E as [<- <-]. by rewrite <- Hw2. }
  right. split; [done|]. exists aid.
  apply bind_Ok in E as ([] & w4 & Eu & E). apply exec_Ok in Eu as (_ & Eu & _).
  apply outcome_bind_Ok in Eu as (? & Hn%argUint64_Ok & [= Eu]).
  apply bind_Ok in E as ([] & w5 & Ei & E). apply exec_Ok in Ei as (_ & Ei & _).
  apply outcome_bind_Ok in Ei as (? & Hk'%argUint64_Ok & Ei).
  apply outcome_bind_Ok in Ei as (? & Hf%constraint_Ok & Ei).
  apply outcome_bind_Ok in Ei as (? & _ & [= Ei]).
  apply bool_decide_eq_true_1 in Hf. apply ret_Ok in E as [<- <-].
  simpl in *. rewrite <- Eu, Hw2 in *. simpl in *. by rewrite <- Ei.
Qed.

Lemma CleanupAllocation_Ok bID aID fs w u w' :
  CleanupAllocation bID aID fs w = (Ok u, w') ->
  let d := w_data w in
  let bid := BroadcastID.String bID in
  let key := (bid, AllocationID.String aID) in
  exists b, broadcasts d !! bid = Some b /\
  let s := wrapU64 (b_sent b + fs) in
  ((blen (AllocationID.Bytes aID) = 0 /\ (s <= i64_max)%Z /\
    w_data w' = setBroadcasts (alter (fun b => setCounters s (b_allocated b) (b_messageLimit b) b)
                  bid (broadcasts d)) d) \/
   (blen (AllocationID.Bytes aID) <> 0 /\ broadcast_allocations d !! key = None /\ w_data w' = d) \/
   (blen (AllocationID.Bytes aID) <> 0 /\ (s <= i64_max)%Z /\
    exists a new, broadcast_allocations d !! key = Some a /\
      ComputeBroadcastAllocationCleanup (a_message_limit a) (b_allocated b) = Ok new /\
      w_data w' = setAllocations (delete key (broadcast_allocations d))
        (setBroadcasts (alter (fun b => setCounters s new (b_messageLimit b) b)
           bid (broadcasts d)) d))).
Proof.
  intros E. cbv zeta. apply runInTx_Ok in E as (_ & w1 & E & _ & ->).
  apply bind_Ok in E as (b & w2 & Eb & E). apply queryRow_Ok in Eb as (_ & Eb & ->).
  exists b. split; [done|]. simpl in *. destruct (decide _) as [Hnil|Hnil].
  - left. apply exec_Ok in E as (_ & E & _). simpl in E.
    apply outcome_bind_Ok in E as (? & Hs%argUint64_Ok & [= <-]). done.
  - right. apply bind_Ok in E as (e & w3 & Et & E). apply try_Ok in Et. destruct e as [a|e].
    + apply queryRow_Ok in Et as (_ & Ha & ->).
      destruct (ComputeBroadcastAllocationCleanup _ _) as [new| |] eqn:Ec; [|done|done].
      apply bind_Ok in E as ([] & w4 & Eu & E). apply exec_Ok in Eu as (_ & Eu & _).
      apply outcome_bind_Ok in Eu as (? & Hs%argUint64_Ok & Eu).
      apply outcome_bind_Ok in Eu as (? & _ & [= Eu]).
      apply exec_Ok in E as (_ & [= Ed] & _). right. split; [done|]. split; [done|].
      exists a, new. split; [done|]. split; [done|]. by rewrite <- Ed, <- Eu.
    + left. destruct e; try done. apply ret_Ok in E as [_ <-]. split; [done|].
      unfold queryRow in Et. destruct (sqlFault _); [done|]. simpl in Et.
      destruct (broadcast_allocations _ !! _); [done|]. by injection Et as <-.
Qed.
End Effects.

(** ** The ledger is kept *)
Section LedgerKept.
Context `{P : Platform} {HP : PlatformOK P} `{L : ProtoLib} `{F : FloatConv} {HF : FloatConvOK F} `{C : Connection}.

Lemma fromBroadcastProto_id b bid r :
  fromBroadcastProto b = Ok (bid, r) ->
  exists p id, b = Some p /\ BroadcastID.BytesToBroadcastID (Broadcast.BroadcastId p) = Ok id /\
    bid = BroadcastID.String id.
Proof.
  destruct b as [p|]; [|done]. simpl. intros (id & Hid & E)%outcome_bind_Ok.
  destruct (Broadcast.Source p); [|done]. injection E as <- <-. by exists p, id.
Qed.

(** The broadcasts the rest of the server creates carry an identifier. *)
Definition hasBroadcastID (b : Broadcast.t) : Prop := blen (Broadcast.BroadcastId b) <> 0.

Lemma preserves_insertBroadcastLabel bid l :
  preserves (onData ledger) (insertBroadcastLabel bid l).
Proof.
  apply preserves_exec. intros d d' Hd E.
  apply outcome_bind_Ok in E as (? & _ & E). apply outcome_bind_Ok in E as (? & _ & [= <-]).
  done.
Qed.

Lemma preserves_CreateBroadcast b limit :
  (forall p, b = Some p -> hasBroadcastID p) -> isU64 limit ->
  preserves (onData ledger) (CreateBroadcast b limit).
Proof.
  intros Hid Hl. unfold CreateBroadcast. apply preserves_lift_bind.
  intros [bid r] Eb. cbv zeta. apply preserves_runInTx.
  destruct (negb _); [apply preserves_fail|].
  apply preserves_bind; [|intros _; apply preserves_forM; intros l; apply preserves_insertBroadcastLabel].
  apply fromBroadcastProto_id in Eb as (p & id & -> & Eid & ->).
  apply preserves_exec. intros d d' Hd E. simpl in E.
  apply outcome_bind_Ok in E as (? & Hlim%argUint64_Ok & E).
  apply outcome_bind_Ok in E as (? & Hc%constraint_Ok & [= <-]).
  apply bool_decide_eq_true_1 in Hc. apply ledgerOn_fresh; try done.
  - exists id. split; [|done]. specialize (Hid p eq_refl).
    unfold BroadcastID.BytesToBroadcastID, hasBroadcastID, BroadcastID.valid in *.
    rewrite decide_False in Eid by done. case_decide; [done|]. injection Eid as <-. simpl.
    unfold blen in *. lia.
  - simpl in *. unfold isU64 in Hl. lia.
Qed.

Lemma keeps_disableOne bid : keeps (onData ledger) (disableOne bid).
Proof.
  intros w u w' Hw E. unfold onData, ledger in *.
  apply disableOne_Ok in E as [[Hn E]|(b & Hb & Hs & E)]; [| |done]; rewrite E; simpl; clear E.
  - by rewrite (ledgerOn_no_allocations _ _ _ _ _ Hw Hn).
  - apply (ledgerOn_disable _ _ _ _ _ b); [done|done| |done]. split; [apply wrapU64_range|done].
Qed.

Lemma preserves_DisableBroadcasts ids : preserves (onData ledger) (DisableBroadcasts ids).
Proof.
  unfold DisableBroadcasts. case_decide; [apply preserves_ret|].
  apply preserves_runInTx_keeps, keeps_forM. intros id. apply keeps_disableOne.
Qed.

(** A single operation that fails leaves its transaction's start behind. *)
Lemma preserves_atomic {A} (m : Sql A) : atomic m -> keeps (onData ledger) m ->
  preserves (onData ledger) m.
Proof.
  intros Ha Hk w Hw. destruct (m w) as [[a|e|c] w'] eqn:E; simpl.
  - by apply (Hk w a).
  - unfold onData. by rewrite (Ha w _ _ E eq_refl).
  - unfold onData. by rewrite (Ha w _ _ E eq_refl).
Qed.

Lemma preserves_SaveBroadcastMessage msg bID cID aID :
  preserves (onData ledger) (SaveBroadcastMessage msg bID cID aID).
Proof.
  apply preserves_atomic; [apply atomic_bind_pure; intros ?; apply atomic_runInTx|].
  intros w u w' Hw (dbm & ms & ps & _ & _ & _ & _ & [(_ & E & _)|(_ & a & n & Ha & Hlt & _ & E)])%SaveBroadcastMessage_Ok;
    unfold onData, ledger in *; rewrite E; simpl; [done|]. by apply ledgerOn_send.
Qed.

Lemma sqlite_counters : (i64_max <= i64_max <= u64_max)%Z.
Proof. done. Qed.

Lemma preserves_CreateAllocation id frac expiry :
  preserves (onData ledger) (CreateAllocation id frac expiry).
Proof.
  apply preserves_atomic; [apply atomic_runInTx|].
  intros w r w' Hw (b & k & new & Hb & Ec & [(_ & _ & E)|(Hk & aid & _ & Hn & Hkm & _ & E)])%CreateAllocation_Ok;
    unfold onData, ledger in *; rewrite E; simpl; [done|].
  by apply (ledgerOn_allocate _ _ sqlite_counters _ _ _ b frac).
Qed.

Lemma preserves_CleanupAllocation bID aID fs :
  preserves (onData ledger) (CleanupAllocation bID aID fs).
Proof.
  apply preserves_atomic; [apply atomic_runInTx|].
  intros w u w' Hw (b & Hb & [(_ & Hs & E)|[(_ & _ & E)|(_ & Hs & a & new & Ha & Ec & E)]])%CleanupAllocation_Ok;
    unfold onData, ledger in *; rewrite E; simpl; [|done|];
    pose proof (wrapU64_range (b_sent b + fs)) as Hr; unfold isU64 in Hr.
  - apply (ledgerOn_count _ _ _ _ _ b); [done|done|lia].
  - apply (ledgerOn_cleanup _ _ _ _ _ _ b a); [done|done|done|lia|done].
Qed.
End LedgerKept.

(** ** Properties *)
Section BroadcastProperties.
Context `{P : Platform} {HP : PlatformOK P} `{L : ProtoLib} `{F : FloatConv} {HF : FloatConvOK F} `{C : Connection}.

(** An allocation that is granted is for at least one message, fits beside
    what the broadcast has sent and beside all outstanding allocations under
    the broadcast's limit, and is added to the outstanding ones in full; when
    none is granted the limit is reached and nothing changes. *)
Theorem create_allocation_spec id frac expiry w r w1 :
  ledger (w_data w) -> CreateAllocation id frac expiry w = (Ok r, w1) ->
  let bid := BroadcastID.String id in
  let out d := outstanding bid (broadcast_allocations d) in
  exists b, broadcasts (w_data w) !! bid = Some b /\
  match r with
  | None => w_data w1 = w_data w /\
      (b_messageLimit b <= Z.max (b_allocated b) (b_sent b))%Z
  | Some ai =>
      AllocationInfo.Expiry ai = expiry /\ (1 <= AllocationInfo.Limit ai)%Z /\
      (exists a, broadcast_allocations (w_data w1) !! (bid, AllocationID.String (AllocationInfo.ID ai))
                   = Some a /\ a_sent a = 0%Z /\ a_message_limit a = AllocationInfo.Limit ai) /\
      out (w_data w1) = (out (w_data w) + AllocationInfo.Limit ai)%Z /\
      (b_messageLimit b <> BroadcastUnlimited ->
       b_sent b + AllocationInfo.Limit ai <= b_messageLimit b /\
       out (w_data w1) <= b_messageLimit b)%Z
  end.
Proof using HF.
  intros Hw (b & k & new & Hb & Ec & H)%CreateAllocation_Ok. exists b. split; [done|].
  pose proof (allocation_cases _ _ sqlite_counters _ _ _ b frac _ _ Hw Hb Ec) as Hc.
  unfold BroadcastUnlimited, i64_max in *.
  destruct H as [(-> & -> & E)|(Hk & aid & -> & Hn & _ & _ & E)].
  - split; [done|]. lia.
  - simpl. rewrite E. simpl. split; [done|]. split; [lia|].
    split; [eexists; by rewrite lookup_insert_eq|].
    rewrite outstanding_insert, decide_True by done. simpl. split; [lia|].
    intros Hu. pose proof (l_sum _ _ _ _ Hw _ _ Hb Hu). lia.
Qed.

(** A broadcast message saved under an allocation counts against it: the
    allocation existed, had room and had not expired, its count goes up by
    one, and the client is recorded; a client never gets a broadcast twice;
    and a save that fails leaves no trace, the message included. *)
Theorem save_broadcast_message_spec msg bID cID aID w r w1 :
  SaveBroadcastMessage msg bID cID aID w = (r, w1) ->
  let bid := BroadcastID.String bID in
  let cid := ClientID.String cID in
  let key := (bid, AllocationID.String aID) in
  let als := broadcast_allocations (w_data w) in
  (isOk r = false -> w_data w1 = w_data w) /\
  (isOk r = true ->
     (bid, cid) ∉ broadcast_sent (w_data w) /\
     broadcast_sent (w_data w1) = {[(bid, cid)]} ∪ broadcast_sent (w_data w) /\
     (blen (AllocationID.Bytes aID) <> 0 -> exists a n,
        als !! key = Some a /\ (a_sent a < a_message_limit a)%Z /\
        (clock n <= tspbAsTime (Timestamp.Mk (a_expiration_time_seconds a) (a_expiration_time_nanos a)))%Z /\
        broadcast_allocations (w_data w1) = alter (setAllocSent (wrapU64 (a_sent a + 1))) key als) /\
     (forall msg' aID' w2, isOk (fst (SaveBroadcastMessage msg' bID cID aID' (mkWorld (w_data w1) w2))) = false)).
Proof.
  intros E. cbv zeta. split.
  - intros Hr. revert E Hr. apply atomic_bind_pure. intros dbm. apply atomic_runInTx.
  - destruct r as [u|e|c]; [intros _|done|done].
    destruct (SaveBroadcastMessage_Ok _ _ _ _ _ _ _ E) as (dbm & ms & ps & _ & Hs & _ & _ & H).
    assert (Hsent : broadcast_sent (w_data w1) =
      {[(BroadcastID.String bID, ClientID.String cID)]} ∪ broadcast_sent (w_data w)).
    { destruct H as [(_ & -> & _)|(_ & a & n & _ & _ & _ & ->)]; done. }
    split; [done|]. split; [done|]. split.
    + intros Hnil. destruct H as [(? & _)|(_ & a & n & Ha & Hl & Ht & ->)]; [done|]. by exists a, n.
    + intros msg' aID' w2. destruct (SaveBroadcastMessage msg' _ _ _ _) as [[]] eqn:E'; [|done|done].
      apply SaveBroadcastMessage_Ok in E' as (? & ? & ? & _ & Hs' & _). simpl in Hs'.
      exfalso. apply Hs'. rewrite Hsent. set_solver.
Qed.

(** A broadcast after [DisableBroadcasts]. *)
Definition settled (d0 d : Db) (bid : string) : Prop :=
  (forall aid, broadcast_allocations d !! (bid, aid) = None) /\
  forall b, broadcasts d0 !! bid = Some b -> exists b1, broadcasts d !! bid = Some b1 /\
    b_messageLimit b1 = 0%Z /\ b_allocated b1 = 0%Z /\
    (b_messageLimit b <> BroadcastUnlimited -> b_sent b1 = b_sent b + sumZ (a_sent <$> allocationsOf bid (broadcast_allocations d0)))%Z.

Lemma disableOne_settled bid w u w1 :
  ledger (w_data w) -> disableOne bid w = (Ok u, w1) ->
  settled (w_data w) (w_data w1) bid /\
  (forall bid', bid' <> bid ->
     broadcasts (w_data w1) !! bid' = broadcasts (w_data w) !! bid' /\
     allocationsOf bid' (broadcast_allocations (w_data w1)) ≡ₚ
       allocationsOf bid' (broadcast_allocations (w_data w)) /\
     forall aid, broadcast_allocations (w_data w1) !! (bid', aid) =
                 broadcast_allocations (w_data w) !! (bid', aid)).
Proof using HP HF.
  intros Hw E. assert (Hw1 : ledger (w_data w1)) by exact (keeps_disableOne bid w u w1 Hw E).
  set (als := broadcast_allocations (w_data w)).
  assert (Hals : broadcast_allocations (w_data w1) =
    filter (fun ka : (string * string) * allocationRow => ka.1.1 <> bid) als).
  { apply disableOne_Ok in E as [[_ ->]|(? & _ & _ & ->)]; done. }
  assert (Hnone : forall aid, broadcast_allocations (w_data w1) !! (bid, aid) = None).
  { intros aid. rewrite Hals. apply map_lookup_filter_None. right. intros a _ Hne. by apply Hne. }
  split; [split; [done|]|].
  - intros b Hb. apply disableOne_Ok in E as [[Hn _]|(b0 & Hb0 & Hs & E)]; [congruence| |done].
    replace b0 with b in * by congruence. fold als in Hs, E.
    eexists. split; [rewrite E; simpl; by rewrite lookup_alter_eq, Hb|].
    assert (Hb1 : broadcasts (w_data w1) !! bid = Some (setCounters (wrapU64 (b_sent b +
      wrapU64 (sumZ (a_sent <$> allocationsOf bid als)))) (if (wrapU64 (outstanding bid als) <=?
      b_allocated b)%Z then (b_allocated b - wrapU64 (outstanding bid als))%Z else 0%Z) 0 b))
      by (rewrite E; simpl; by rewrite lookup_alter_eq, Hb).
    split; [done|]. split.
    + pose proof (l_counters _ _ _ _ Hw1 _ _ Hb1) as (_ & H & _). simpl in *. lia.
    + intros Hu. simpl. pose proof (l_counters _ _ _ _ Hw _ _ Hb) as (H1 & H2 & H3).
      pose proof (l_sum _ _ _ _ Hw _ _ Hb Hu) as H4. fold als in H4.
      pose proof (sumZ_sent_le bid als (fun k a Ha => proj1 (l_alloc _ _ _ _ Hw k a Ha))) as H5.
      rewrite (wrapU64_small (sumZ _)) by (unfold isU64, i64_max in *; lia).
      rewrite wrapU64_small by (unfold isU64, i64_max in *; lia). done.
  - intros bid' Hne. rewrite Hals. split; [|split].
    + apply disableOne_Ok in E as [[_ ->]|(? & _ & _ & ->)]; simpl; [done| |done].
      by rewrite lookup_alter_ne.
    + by rewrite allocationsOf_filter, decide_False.
    + intros aid. destruct (als !! (bid', aid)) as [a|] eqn:Ha.
      * by apply map_lookup_filter_Some.
      * apply map_lookup_filter_None. by left.
Qed.

(** What a broadcast looks like while the list is worked through. *)
Definition untouched (d0 d : Db) (bid : string) : Prop :=
  broadcasts d !! bid = broadcasts d0 !! bid /\
  allocationsOf bid (broadcast_allocations d) ≡ₚ allocationsOf bid (broadcast_allocations d0).

Lemma settled_step d0 d d' bid :
  untouched d0 d bid \/ settled d0 d bid -> settled d d' bid -> settled d0 d' bid.
Proof.
  intros [[Hb Ha]|[Hn Hs]] [Hn' Hs']; (split; [done|]); intros b Hb0.
  - destruct (Hs' b) as (b1 & H1 & H2 & H3 & H4); [congruence|].
    exists b1. do 3 (split; [done|]). by rewrite <- Ha.
  - destruct (Hs b Hb0) as (b1 & H1 & H2 & H3 & H4).
    destruct (Hs' b1 H1) as (b2 & H5 & H6 & H7 & H8).
    exists b2. do 3 (split; [done|]). intros Hu. rewrite H8, H4 by (rewrite ?H2; done).
    destruct (allocationsOf bid (broadcast_allocations d)) as [|a l] eqn:E; [simpl; lia|].
    assert (a ∈ allocationsOf bid (broadcast_allocations d)) as [aid Haid]%elem_of_allocationsOf
      by (rewrite E; by left).
    congruence.
Qed.

Lemma disableOne_keeps_settled x w u w2 d0 bid :
  ledger (w_data w) -> disableOne x w = (Ok u, w2) ->
  settled d0 (w_data w) bid -> settled d0 (w_data w2) bid.
Proof using HP HF.
  intros Hw E [Hn Hs]. apply disableOne_settled in E as [Hset Hoth]; [|done].
  destruct (decide (x = bid)) as [->|Hne].
  - apply (settled_step _ (w_data w)); [right; by split|done].
  - destruct (Hoth bid) as (Hb & _ & Ha); [done|]. split.
    + intros aid. by rewrite Ha.
    + intros b Hb0. rewrite Hb. by apply Hs.
Qed.

Lemma disableAll_keeps_settled ids w u w1 d0 bid :
  ledger (w_data w) -> forM_ ids disableOne w = (Ok u, w1) ->
  settled d0 (w_data w) bid -> settled d0 (w_data w1) bid.
Proof using HP HF.
  revert w. induction ids as [|x ids IH]; intros w Hw E H; simpl in E.
  { by apply ret_Ok in E as [_ <-]. }
  apply bind_Ok in E as ([] & w2 & E1 & E2). apply (IH w2); [|done|].
  - exact (keeps_disableOne _ _ _ _ Hw E1).
  - by eapply disableOne_keeps_settled.
Qed.

Lemma disableAll_settled ids w u w1 d0 bid :
  ledger (w_data w) -> forM_ ids disableOne w = (Ok u, w1) ->
  untouched d0 (w_data w) bid -> bid ∈ ids -> settled d0 (w_data w1) bid.
Proof using HP HF.
  revert w. induction ids as [|x ids IH]; intros w Hw E H Hin; simpl in E.
  { by apply not_elem_of_nil in Hin. }
  apply bind_Ok in E as ([] & w2 & E1 & E2).
  pose proof (keeps_disableOne _ _ _ _ Hw E1) as Hw2.
  apply disableOne_settled in E1 as [Hset Hoth]; [|done].
  destruct (decide (x = bid)) as [->|Hne].
  - apply (disableAll_keeps_settled ids w2 u); [done|done|].
    apply (settled_step _ (w_data w)); [by left|done].
  - apply (IH w2); [done|done| |].
    + destruct (Hoth bid) as (Hb & Ha & _); [done|]. destruct H as [Hb' Ha'].
      split; [congruence|]. by rewrite Ha.
    + by apply elem_of_cons in Hin as [->|?].
Qed.

Lemma DisableBroadcasts_settled ids w u w1 id :
  ledger (w_data w) -> DisableBroadcasts ids w = (Ok u, w1) -> id ∈ ids ->
  let bid := BroadcastID.String id in
  settled (w_data w) (w_data w1) bid /\
  (forall b, broadcasts (w_data w1) !! bid = Some b ->
     b_messageLimit b = 0%Z /\ b_allocated b = 0%Z).
Proof using HP HF.
  intros Hw E Hin bid. unfold DisableBroadcasts in E.
  rewrite decide_False in E by (intros ->; by apply not_elem_of_nil in Hin).
  apply runInTx_Ok in E as (_ & w2 & E & _ & ->). unfold tryDisableBroadcasts in E.
  rewrite forM_map in E. set (w0 := mkWorld (w_data w) (S (w_step w))) in E. simpl.
  assert (Hset : settled (w_data w) (w_data w2) bid).
  { apply (disableAll_settled (BroadcastID.String <$> ids) w0 u); [done|done|by split|].
    by apply list_elem_of_fmap_2. }
  split; [done|]. intros b Hb. destruct Hset as [_ Hs].
  destruct (broadcasts (w_data w) !! bid) as [b0|] eqn:Hb0.
  - destruct (Hs b0 eq_refl) as (b1 & Hb1 & H1 & H2 & _). replace b with b1 by congruence. done.
  - assert (Hk : keeps (onData (fun d => broadcasts d !! bid = None))
      (forM_ (BroadcastID.String <$> ids) disableOne)).
    { apply keeps_forM. intros y v a v' Hv Ey. unfold onData in *.
      apply disableOne_Ok in Ey as [[_ ->]|(x & _ & _ & ->)]; simpl; [done| |done].
      rewrite lookup_alter. case_decide; [by subst; rewrite Hv|done]. }
    pose proof (Hk w0 _ _ Hb0 E) as H. unfold onData in H. congruence.
Qed.

Lemma compute_allocation_disabled sent frac :
  fst (ComputeBroadcastAllocation 0 0 sent frac) = 0%Z.
Proof using HF.
  unfold ComputeBroadcastAllocation. simpl. destruct (0 <? sent)%Z eqn:Hlt; [by rewrite Hlt|].
  change (0 <? 0)%Z with false. cbv iota. change (wrapU64 (0 - 0)) with 0%Z. simpl.
  set (f := float32ToUint64 _).
  assert (Hf : isU64 f) by (by apply float32ToUint64_range). unfold isU64 in Hf.
  destruct (Z.eqb_spec f 0); [done|]. by destruct (Z.ltb_spec 0 f); [|lia].
Qed.

(** Disabling is final and settles the accounts: a disabled broadcast has
    no allocation left, its limit and its allocated count are zero and what
    its allocations had sent is added to its own count; from then on no
    message of it is saved and no allocation granted, and cleaning up one of
    its former allocations counts nothing a second time. *)
Theorem disable_broadcasts_final ids w u w1 id :
  ledger (w_data w) -> DisableBroadcasts ids w = (Ok u, w1) -> id ∈ ids ->
  settled (w_data w) (w_data w1) (BroadcastID.String id) /\
  (forall msg cID aID n,
     isOk (fst (SaveBroadcastMessage msg id cID aID (mkWorld (w_data w1) n))) = false) /\
  (forall aID sent n, blen (AllocationID.Bytes aID) <> 0 ->
     w_data (snd (CleanupAllocation id aID sent (mkWorld (w_data w1) n))) = w_data w1) /\
  (forall frac expiry n r w2,
     CreateAllocation id frac expiry (mkWorld (w_data w1) n) = (Ok r, w2) -> r = None).
Proof using HP HF.
  intros Hw E Hin.
  destruct (DisableBroadcasts_settled ids w u w1 id Hw E Hin) as [[Hn Hs] Hzero].
  split; [by split|]. split; [|split].
  - intros msg cID aID n. destruct (SaveBroadcastMessage _ _ _ _ _) as [[]] eqn:E'; [|done|done].
    apply SaveBroadcastMessage_Ok in E' as (? & ? & ? & _ & _ & _ & _ & [(_ & _ & b & Hb & Hl)|(_ & al & m & Ha & _)]);
      simpl in *.
    + by destruct (Hzero b Hb).
    + by rewrite Hn in Ha.
  - intros aID sent n Hnil. destruct (CleanupAllocation _ _ _ _) as [r w2] eqn:E'. simpl.
    destruct r as [u'|e|c];
      [|exact (atomic_runInTx _ _ _ _ E' eq_refl)|exact (atomic_runInTx _ _ _ _ E' eq_refl)].
    apply CleanupAllocation_Ok in E' as (b & Hb & [(? & _)|[(_ & _ & ->)|(_ & _ & a & new & Ha & _)]]);
      simpl in *; [done|done|]. by rewrite Hn in Ha.
  - intros frac expiry n r w2 (b & k & new & Hb & Ec & H)%CreateAllocation_Ok. simpl in *.
    destruct (Hzero b Hb) as [H1 H2]. destruct H as [(_ & -> & _)|(Hk & _)]; [done|].
    pose proof (compute_allocation_disabled (b_sent b) frac) as Hc.
    rewrite H1, H2 in Ec. rewrite Ec in Hc. done.
Qed.
End BroadcastProperties.

(** ** Listing and conversions *)
Section BroadcastListing.
Context `{P : Platform} {HP : PlatformOK P} `{L : ProtoLib} {HL : ProtoLibOK L} `{F : FloatConv}.

(** What a listing says of the broadcast stored under [bid]. *)
Definition listedBroadcast (d : Db) (bid : string) (i : BroadcastInfo.t) : Prop :=
  exists b p ls, broadcasts d !! bid = Some b /\ toBroadcastProto bid b = Ok p /\
    ls ≡ₚ broadcastLabels bid d /\
    i = BroadcastInfo.Mk (withLabels ls p) (b_sent b) (b_messageLimit b).

Lemma BroadcastID_Bytes_read id :
  BroadcastID.valid id -> BroadcastID.BytesToBroadcastID (BroadcastID.Bytes id) = Ok id.
Proof.
  destruct id as [s]. unfold BroadcastID.valid, BroadcastID.BytesToBroadcastID, BroadcastID.Bytes, blen.
  simpl. intros H. rewrite eqb_empty_false by lia. simpl. by rewrite H.
Qed.

(** A row read, before its labels are. *)
Definition readAs (kb : string * broadcastRow) (i : BroadcastInfo.t) : Prop :=
  exists id p, BroadcastID.String id = kb.1 /\ BroadcastID.valid id /\
    toBroadcastProto kb.1 kb.2 = Ok p /\ Broadcast.BroadcastId p = BroadcastID.Bytes id /\
    i = BroadcastInfo.Mk p (b_sent kb.2) (b_messageLimit kb.2).

Lemma readActive_run kb (w : World Db) :
  (exists id, BroadcastID.valid id /\ BroadcastID.String id = kb.1) ->
  exists i, readActive kb w = (Ok i, w) /\ readAs kb i.
Proof.
  destruct kb as [bid b]. simpl. intros (id & Hv & <-).
  assert (Hp : exists p, toBroadcastProto (BroadcastID.String id) b = Ok p /\
    Broadcast.BroadcastId p = BroadcastID.Bytes id).
  { unfold toBroadcastProto. rewrite BroadcastID_String_read by done. by eexists. }
  destruct Hp as (p & Hp & Hpid). unfold readActive. simpl. rewrite Hp.
  eexists. split; [reflexivity|]. by exists id, p.
Qed.

Lemma readActiveLabels_run kb i w :
  faultless -> readAs kb i -> broadcasts (w_data w) !! kb.1 = Some kb.2 ->
  exists i' w', readActiveLabels i w = (Ok i', w') /\
    listedBroadcast (w_data w) kb.1 i' /\ w_data w' = w_data w.
Proof using HP.
  destruct kb as [bid b]. simpl. intros Hf (id & p & He & Hv & Hp & Hpid & ->) Hb. simpl in *.
  unfold readActiveLabels. simpl. rewrite Hpid, BroadcastID_Bytes_read by done.
  eexists _, _. split; [erewrite bind_run by reflexivity;
    erewrite bind_run by (apply query_run; [done|reflexivity]); reflexivity|].
  split; [|done]. eexists b, p, _. split; [done|]. split; [done|]. split; [|reflexivity].
  rewrite He. apply deliver_perm.
Qed.

(** On a working engine [ListActiveBroadcasts] returns every broadcast
    that has messages left and has not expired, once and with its labels, and
    no other. *)
Theorem list_active_broadcasts_spec w :
  faultless -> ledger (w_data w) ->
  (- 2 ^ 63 <= clock (S (w_step w)) < 2 ^ 63)%Z ->
  exists infos w', ListActiveBroadcasts w = (Ok infos, w') /\ w_data w' = w_data w /\
  exists bids, NoDup bids /\
    (forall bid, bid ∈ bids <-> exists b, broadcasts (w_data w) !! bid = Some b /\
       activeRow (tspbNew (clock (S (w_step w)))) b = true) /\
    Forall2 (listedBroadcast (w_data w)) bids infos.
Proof using HP HL.
  intros Hf Hw Hclk. set (d := w_data w) in *. set (n := tspbNew (clock (S (w_step w)))).
  set (w1 := mkWorld d (S (S (S (w_step w))))).
  set (sel := filter (fun kb => activeRow n kb.2 = true) (map_to_list (broadcasts d))).
  set (rows := deliver (S (S (w_step w))) _ sel).
  assert (Hperm : rows ≡ₚ sel) by apply deliver_perm.
  assert (Hrows : forall kb, kb ∈ rows <-> broadcasts d !! kb.1 = Some kb.2 /\ activeRow n kb.2 = true).
  { intros [k b]. rewrite Hperm. unfold sel. rewrite list_elem_of_filter, elem_of_map_to_list.
    simpl. tauto. }
  destruct (mapMs_Ok readActive readAs (fun s => w_data s = d) rows w1 eq_refl)
    as (ret & w2 & E2 & Hret & Hw2).
  { intros kb s [Hb _]%Hrows Hs. destruct (readActive_run kb s) as (i & Ei & Hi); [|by exists i, s].
    apply (l_id _ _ _ _ Hw). by eexists. }
  destruct (mapMs_Ok readActiveLabels (fun i i' => forall kb, readAs kb i -> kb ∈ rows ->
    listedBroadcast d kb.1 i') (fun s => w_data s = d) ret w2 Hw2) as (infos & w3 & E3 & Hinfos & Hw3).
  { intros i s [j Hj]%list_elem_of_lookup Hs.
    destruct (Forall2_lookup_r _ _ _ _ _ Hret Hj) as (kb & Hkb%list_elem_of_lookup_2 & Hi).
    destruct (readActiveLabels_run kb i s Hf Hi) as (i' & s' & Ei & Hl & Hs').
    { rewrite Hs. by apply Hrows. }
    exists i', s'. split; [done|]. rewrite Hs', Hs in *. split; [|done].
    intros kb' Hi' _. replace kb'.1 with kb.1; [done|].
    destruct Hi as (id & p & <- & Hv & _ & Hp & ->), Hi' as (id' & p' & <- & Hv' & _ & Hp' & [= ->]).
    rewrite Hp in Hp'. f_equal. pose proof (BroadcastID_Bytes_read id Hv) as Hread.
    rewrite Hp', BroadcastID_Bytes_read in Hread by done. congruence. }
  exists infos. eexists. split.
  { apply runInTx_run; [done|]. erewrite bind_run.
    2:{ unfold NowProto. erewrite bind_run by reflexivity. simpl. rewrite tspb_valid by done. reflexivity. }
    erewrite bind_run by (by apply query_run). rewrite (bind_run _ _ _ _ _ E2). exact E3. }
  split; [done|]. exists (rows.*1). split; [|split].
  - rewrite Hperm. apply NoDup_fmap_fst; [|by apply NoDup_filter, NoDup_map_to_list].
    intros k b b' [_ H1]%list_elem_of_filter [_ H2]%list_elem_of_filter.
    apply elem_of_map_to_list in H1, H2. congruence.
  - intros bid. rewrite list_elem_of_fmap. split.
    + intros ([k b] & -> & Hk%Hrows). by exists b.
    + intros (b & Hb). exists (bid, b). split; [done|]. by apply Hrows.
  - apply Forall2_fmap_l, Forall2_same_length_lookup_2.
    + by rewrite (Forall2_length _ _ _ Hret), (Forall2_length _ _ _ Hinfos).
    + intros j kb i' Hkb Hi'.
      destruct (Forall2_lookup_r _ _ _ _ _ Hinfos Hi') as (i & Hi & H).
      apply H; [|by eapply list_elem_of_lookup_2].
      by apply (Forall2_lookup_lr _ _ _ _ _ _ Hret Hkb Hi).
Qed.
End BroadcastListing.

(** The broadcasts a row can hold: addresses without client ids, nanoseconds
    that fit, and labels and group kept elsewhere. *)
Record rowBroadcast (b : Broadcast.t) (id : BroadcastID.t) : Prop := {
  rb_id : Broadcast.BroadcastId b = BroadcastID.Bytes id /\ BroadcastID.valid id;
  rb_source : exists s, Broadcast.Source b = Some (Address.Mk None s);
  rb_dest a : Broadcast.Destination b = Some a -> Address.ClientId a = None;
  rb_expiry t : Broadcast.ExpirationTime b = Some t -> (- 2 ^ 31 <= Timestamp.Nanos t < 2 ^ 31)%Z;
}.

(** A broadcast is read back from its row unchanged: [toBroadcastProto]
    inverts [fromBroadcastProto] on everything but the labels, which have a
    table of their own, and the group name, which [CreateBroadcast] refuses. *)
Theorem broadcast_row_roundtrip b id :
  rowBroadcast b id ->
  exists bid r, fromBroadcastProto (Some b) = Ok (bid, r) /\ bid = BroadcastID.String id /\
    exists b', toBroadcastProto bid r = Ok b' /\ Broadcast.RequiredLabels b' = [] /\
      b = Broadcast.Mk (Broadcast.BroadcastId b') (Broadcast.Source b') (Broadcast.MessageType b')
            (Broadcast.RequiredLabels b) (Broadcast.ExpirationTime b') (Broadcast.Data b')
            (Broadcast.Destination b') (Broadcast.GroupName b).
Proof.
  intros [[Hid Hv] [s Hs] Hd Ht]. destruct b as [bid src ty ls exp dat dst grp]. simpl in *.
  unfold fromBroadcastProto. cbn [Broadcast.BroadcastId Broadcast.Source].
  rewrite Hid, Hs, BroadcastID_Bytes_read by done. cbn.
  eexists _, _. split; [reflexivity|]. split; [done|].
  unfold toBroadcastProto. rewrite BroadcastID_String_read by done. cbn.
  eexists. split; [reflexivity|]. split; [done|]. cbn. f_equal.
  - destruct exp as [[se na]|]; [|done]. simpl. rewrite wrapI32_small; [done|]. by apply (Ht _ eq_refl).
  - destruct dat as [[u v]|]; done.
  - destruct dst as [[ci sv]|]; [|done]. simpl. f_equal. f_equal. exact (Hd _ eq_refl).
Qed.

(** [SetBroadcastLimit] never sets a limit: its UPDATE statement is not
    valid SQL, so every call fails and changes nothing. *)
Theorem set_broadcast_limit_fails `{P : Platform} id limit w :
  exists e w', SetBroadcastLimit id limit w = (Err e, w') /\ w_data w' = w_data w /\
    (faultless -> (limit <= i64_max)%Z -> e = ErrSqlSyntax).
Proof.
  unfold SetBroadcastLimit, runInTx, exec. destruct (sqlFault (w_step w)) eqn:F1.
  { eexists _, _. split; [reflexivity|]. split; [done|]. intros Hf. by rewrite Hf in F1. }
  simpl. destruct (sqlFault (S (w_step w))) eqn:F2.
  { eexists _, _. split; [reflexivity|]. split; [done|]. intros Hf. by rewrite Hf in F2. }
  unfold argUint64. destruct (Z.leb_spec limit i64_max); simpl;
    eexists _, _; (split; [reflexivity|]); (split; [done|]); [done|lia].
Qed.

(** ** Concrete data and witnesses *)
Definition sampleBroadcast : Broadcast.t :=
  Broadcast.Mk (BroadcastID.Bytes exampleBroadcastID) (Some (Address.Mk None "svc")) "Type"
    [Label.Mk "svc" "linux"] None (Some (Any.Mk "url" (Some "payload"%string))) None "".

Lemma sampleBroadcast_hasID p : Some sampleBroadcast = Some p -> hasBroadcastID p.
Proof. by intros [= <-]. Qed.

Definition sampleAllocationID : AllocationID.t := AllocationID.Mk (bytesOfNat 18 8).

(** Two clients, a broadcast of at most ten messages and one allocation. *)
Definition sampleBroadcasts : World Db :=
  runOk (CreateBroadcast (Some sampleBroadcast) 10 ≫= fun _ =>
         CreateAllocation exampleBroadcastID allocFrac (2000000000 * Second)) sampleClients.

Lemma sampleBroadcasts_ledger : ledger (w_data sampleBroadcasts).
Proof.
  unfold sampleBroadcasts. apply runOk_preserves.
  - apply preserves_bind; [apply preserves_CreateBroadcast; [apply sampleBroadcast_hasID|by split]|].
    intros _. apply preserves_CreateAllocation.
  - assert (E : broadcasts (w_data sampleClients) = ∅ /\ broadcast_allocations (w_data sampleClients) = ∅)
      by (split; reflexivity).
    unfold ledger. destruct E as [-> ->]. exact ledger_empty.
Qed.

Definition sampleAllocating :=
  CreateAllocation exampleBroadcastID allocFrac (2000000000 * Second) sampleBroadcasts.

Lemma create_allocation_spec_witness :
  exists ai, fst sampleAllocating = Ok (Some ai) /\ (1 <= AllocationInfo.Limit ai)%Z.
Proof.
  assert (E : exists ai, fst sampleAllocating = Ok (Some ai)) by (vm_compute; eexists; reflexivity).
  destruct E as [ai E]. exists ai. split; [exact E|].
  assert (E' : sampleAllocating = (Ok (Some ai), snd sampleAllocating))
    by (rewrite <- E; apply surjective_pairing).
  destruct (create_allocation_spec exampleBroadcastID allocFrac (2000000000 * Second)
    sampleBroadcasts (Some ai) (snd sampleAllocating) sampleBroadcasts_ledger E')
    as (b & _ & _ & H & _).
  exact H.
Defined.

Definition sampleSave :=
  SaveBroadcastMessage (sampleMessage 1 exampleClientID None) exampleBroadcastID exampleClientID
    sampleAllocationID
    sampleBroadcasts.

Lemma save_broadcast_message_spec_witness :
  isOk (fst sampleSave) = true /\
  broadcast_sent (w_data (snd sampleSave)) =
    {[(BroadcastID.String exampleBroadcastID, ClientID.String exampleClientID)]}
      ∪ broadcast_sent (w_data sampleBroadcasts).
Proof.
  assert (E : isOk (fst sampleSave) = true) by (vm_compute; reflexivity).
  split; [exact E|].
  pose proof (save_broadcast_message_spec _ _ _ _ _ (fst sampleSave) (snd sampleSave)
    (surjective_pairing sampleSave)) as [_ H].
  destruct (H E) as (_ & H' & _). exact H'.
Defined.

Definition sampleDisable := DisableBroadcasts [exampleBroadcastID] sampleBroadcasts.

Lemma disable_broadcasts_final_witness :
  settled (w_data sampleBroadcasts) (w_data (snd sampleDisable))
    (BroadcastID.String exampleBroadcastID).
Proof.
  assert (E : fst sampleDisable = Ok tt) by (vm_compute; reflexivity).
  assert (E' : sampleDisable = (Ok tt, snd sampleDisable))
    by (rewrite <- E; apply surjective_pairing).
  refine (proj1 (disable_broadcasts_final [exampleBroadcastID] sampleBroadcasts tt
    (snd sampleDisable) exampleBroadcastID sampleBroadcasts_ledger E' _)).
  by left.
Defined.

Lemma list_active_broadcasts_spec_witness :
  exists infos w', ListActiveBroadcasts sampleBroadcasts = (Ok infos, w') /\
    exists bids, NoDup bids /\ Forall2 (listedBroadcast (w_data sampleBroadcasts)) bids infos.
Proof.
  destruct (list_active_broadcasts_spec sampleBroadcasts faultless_test sampleBroadcasts_ledger)
    as (infos & w' & E & _ & bids & H1 & _ & H2).
  - assert (E : w_step sampleBroadcasts = 23) by (vm_compute; reflexivity). rewrite E. by split.
  - exists infos, w'. split; [exact E|]. exists bids. exact (conj H1 H2).
Defined.

Lemma broadcast_row_roundtrip_witness :
  exists bid r, fromBroadcastProto (Some sampleBroadcast) = Ok (bid, r) /\
    bid = BroadcastID.String exampleBroadcastID.
Proof.
  destruct (broadcast_row_roundtrip sampleBroadcast exampleBroadcastID) as (bid & r & H1 & H2 & _).
  - split.
    + split; reflexivity.
    + by exists "svc"%string.
    + by intros a.
    + by intros t.
  - exists bid, r. exact (conj H1 H2).
Defined.

(** The limit bounds what is sent and, separately, what is allocated, but not
    their sum: after five of ten messages are sent and accounted for, two
    allocations of five are granted at once. *)
Definition floatOne : spec_float := S754_finite false 8388608 (-23).

Definition overAllocated : World Db :=
  runOk (CreateBroadcast (Some sampleBroadcast) 10 ≫= fun _ =>
         o ← CreateAllocation exampleBroadcastID (S754_finite false 8388608 (-24)) (2000000000 * Second);
         CleanupAllocation exampleBroadcastID
           (match o with Some ai => AllocationInfo.ID ai | None => AllocationID.nil end) 5 ≫= fun _ =>
         CreateAllocation exampleBroadcastID floatOne (2000000000 * Second) ≫= fun _ =>
         CreateAllocation exampleBroadcastID floatOne (2000000000 * Second)) (mkWorld emptyDb 0).

Example allocations_can_oversend :
  (fun b => (b_sent b, b_messageLimit b)) <$>
    broadcasts (w_data overAllocated) !! BroadcastID.String exampleBroadcastID = Some (5, 10)%Z /\
  outstanding (BroadcastID.String exampleBroadcastID)
    (broadcast_allocations (w_data overAllocated)) = 10%Z.
Proof. split; vm_compute; reflexivity. Qed.
