(* ===== verification/SqliteFiles.v ===== *)
(** * The sqlite file store

    src/server/sqlite/filestore.go.  What [io.ReadAll] makes of the reader a
    caller hands in is an argument: the bytes, or the reader's error. *)
From S2P Require Import Prelude Platform Ids Proto Db Sqlite.

Section Files.
Context `{P : Platform}.

Definition StoreFile (service name : string) (data : outcome string) : Sql unit :=
  b ← lift data;
  runInTx (
    t ← now;
    exec (fun d => Ok (setFiles (<[(service, name) := (UnixNano t, Some b)]> (files d)) d))).

Definition DeleteFile (service name : string) : Sql unit :=
  runInTx (exec (fun d => Ok (setFiles (delete (service, name) (files d)) d))).

Definition StatFile (service name : string) : Sql Z :=
  runInTx (queryRow (fun d => fst <$> files d !! (service, name))).

(** The data and the modification time. *)
Definition ReadFile (service name : string) : Sql (string * Z) :=
  r ← runInTx (queryRow (fun d => files d !! (service, name)));
  mret (contents r.2, r.1).

(** A file that was stored is read back byte for byte, with the time
    [StatFile] reports, and a deleted one is reported as not found; the files
    of other services and other names are as before. *)
Theorem file_store_spec service name data w u w1 :
  faultless -> StoreFile service name (Ok data) w = (Ok u, w1) ->
  (exists t w2 w3, ReadFile service name w1 = (Ok (data, t), w2) /\
     StatFile service name w1 = (Ok t, w3)) /\
  (exists w2 w3, DeleteFile service name w1 = (Ok tt, w2) /\
     ReadFile service name w2 = (Err ErrNoRows, w3) /\ IsNotFound ErrNoRows = true) /\
  (forall key, key <> (service, name) -> files (w_data w1) !! key = files (w_data w) !! key).
Proof.
  intros Hf E. unfold StoreFile in E. rewrite (bind_run _ _ _ data w) in E by done.
  apply runInTx_Ok in E as (_ & w0 & E & _ & ->).
  apply bind_Ok in E as (t & w' & Et & E). apply interact_Ok in Et as [_ ->].
  apply exec_Ok in E as (_ & [= E] & _). simpl.
  assert (Hfile : files (w_data w0) = <[(service, name) := (UnixNano t, Some data)]> (files (w_data w)))
    by (by rewrite <- E).
  split; [|split].
  - exists (UnixNano t). unfold ReadFile, StatFile. eexists _, _. split.
    + erewrite bind_run; [|apply runInTx_run; [done|]; apply queryRow_run; [done|];
        simpl; rewrite Hfile; apply lookup_insert_eq]. reflexivity.
    + apply runInTx_run; [done|]. apply queryRow_run; [done|]. simpl. by rewrite Hfile, lookup_insert_eq.
  - eexists _, _. split; [|split; [|reflexivity]].
    + apply runInTx_run; [done|]. by apply exec_run.
    + unfold ReadFile. apply bind_run_Err, runInTx_run_Err; [done|].
      apply queryRow_run_none; [done|]. simpl. apply lookup_delete_eq.
  - intros key Hne. by rewrite Hfile, lookup_insert_ne.
Qed.
End Files.

Lemma file_store_spec_witness :
  exists t w2, ReadFile "svc" "name" (runOk (StoreFile "svc" "name" (Ok "data"%string)) (mkWorld emptyDb 0))
    = (Ok ("data"%string, t), w2).
Proof.
  destruct (file_store_spec "svc" "name" "data" (mkWorld emptyDb 0) tt
    (runOk (StoreFile "svc" "name" (Ok "data"%string)) (mkWorld emptyDb 0)) faultless_test)
    as [(t & w2 & w3 & E & _) _].
  - vm_compute. reflexivity.
  - exists t, w2. exact E.
Defined.
