(* ===== verification/MySql.v ===== *)
(** * The MySQL datastore: transactions

    src/server/mysql/mysql.go.  Other than in the sqlite datastore there is no
    mutex, and a transaction that fails on a lock is run again; what its
    closure has written to captured variables stays ([Tx]).  A table of a MySQL
    server is a map; what the engine stores of a row that does not fit its
    columns is a parameter ([MySqlEngine]), as is whether a commit that failed
    took effect. *)
From Stdlib Require Import SpecFloat.
From S2P Require Import Prelude Platform Ids Proto Db Sqlite SqliteMessages SqliteClients.

(** ** Tables (initSchema) *)

(** A messages row, without its key. *)
Record myRow := mkMyRow {
  rSourceClientID : gobytes;
  rSourceServiceName : string;
  rSourceMessageID : gobytes;
  rDestinationClientID : gobytes;
  rDestinationServiceName : string;
  rMessageType : string;
  rCreationTimeSeconds : Z;
  rCreationTimeNanos : Z;
  rProcessedTimeSeconds : option Z;
  rProcessedTimeNanos : option Z;
  rValidationInfo : gobytes;
  rFailed : option bool;
  rFailedReason : option string;
  rAnnotations : gobytes;
}.

(** dbMessage; a NULL id is [None]. *)
Record myMessage := mkMyMessage {
  mMessageID : gobytes;
  mRow : myRow;
  mRetryCount : Z;
  mDataTypeURL : option string;
  mDataValue : gobytes;
}.

(** The tables.  Columns of the same types as in the sqlite datastore are in the
    same records; an id is its bytes, a nonce its eight bytes.
    pending_messages has the key (for_server, message_id), broadcast_sent the
    rows (broadcast_id, client_id).  Text in a key is compared as the collation
    has it, so the key has the text's sort key, and the row the text. *)
Record Tables := mkTables {
  tMessages : gmap string myRow;
  tPending : gmap (bool * string) pendingRow;
  tContactMessages : gset (Z * string);
  tClients : gmap string clientRow;
  tLabels : gmap (string * string * string) (string * string);
  tContacts : gmap Z contactRow;
  tUsage : list usageRow;
  tBroadcasts : gmap string broadcastRow;
  tBroadcastLabels : gmap (string * string * string) (string * string);
  tAllocations : gmap (string * string) allocationRow;
  tSent : gset (string * string);
  tFiles : gmap (string * string) (Z * gobytes);
}.

Definition emptyTables : Tables := mkTables ∅ ∅ ∅ ∅ ∅ ∅ [] ∅ ∅ ∅ ∅ ∅.

Definition setTMessages v t := mkTables v (tPending t) (tContactMessages t) (tClients t) (tLabels t)
  (tContacts t) (tUsage t) (tBroadcasts t) (tBroadcastLabels t) (tAllocations t) (tSent t) (tFiles t).
Definition setTPending v t := mkTables (tMessages t) v (tContactMessages t) (tClients t) (tLabels t)
  (tContacts t) (tUsage t) (tBroadcasts t) (tBroadcastLabels t) (tAllocations t) (tSent t) (tFiles t).
Definition setTContactMessages v t := mkTables (tMessages t) (tPending t) v (tClients t) (tLabels t)
  (tContacts t) (tUsage t) (tBroadcasts t) (tBroadcastLabels t) (tAllocations t) (tSent t) (tFiles t).
Definition setTClients v t := mkTables (tMessages t) (tPending t) (tContactMessages t) v (tLabels t)
  (tContacts t) (tUsage t) (tBroadcasts t) (tBroadcastLabels t) (tAllocations t) (tSent t) (tFiles t).
Definition setTLabels v t := mkTables (tMessages t) (tPending t) (tContactMessages t) (tClients t) v
  (tContacts t) (tUsage t) (tBroadcasts t) (tBroadcastLabels t) (tAllocations t) (tSent t) (tFiles t).
Definition setTContacts v t := mkTables (tMessages t) (tPending t) (tContactMessages t) (tClients t) (tLabels
  t) v (tUsage t) (tBroadcasts t) (tBroadcastLabels t) (tAllocations t) (tSent t) (tFiles t).
Definition setTUsage v t := mkTables (tMessages t) (tPending t) (tContactMessages t) (tClients t) (tLabels t)
  (tContacts t) v (tBroadcasts t) (tBroadcastLabels t) (tAllocations t) (tSent t) (tFiles t).
Definition setTBroadcasts v t := mkTables (tMessages t) (tPending t) (tContactMessages t) (tClients t)
  (tLabels t) (tContacts t) (tUsage t) v (tBroadcastLabels t) (tAllocations t) (tSent t) (tFiles t).
Definition setTBroadcastLabels v t := mkTables (tMessages t) (tPending t) (tContactMessages t) (tClients t)
  (tLabels t) (tContacts t) (tUsage t) (tBroadcasts t) v (tAllocations t) (tSent t) (tFiles t).
Definition setTAllocations v t := mkTables (tMessages t) (tPending t) (tContactMessages t) (tClients t)
  (tLabels t) (tContacts t) (tUsage t) (tBroadcasts t) (tBroadcastLabels t) v (tSent t) (tFiles t).
Definition setTSent v t := mkTables (tMessages t) (tPending t) (tContactMessages t) (tClients t) (tLabels t)
  (tContacts t) (tUsage t) (tBroadcasts t) (tBroadcastLabels t) (tAllocations t) v (tFiles t).
Definition setTFiles v t := mkTables (tMessages t) (tPending t) (tContactMessages t) (tClients t) (tLabels t)
  (tContacts t) (tUsage t) (tBroadcasts t) (tBroadcastLabels t) (tAllocations t) (tSent t) v.

(** Types of columns for text and bytes, with their length if there is one. *)
Inductive column := VARCHAR (n : nat) | TEXT (n : option nat) | MEDIUMBLOB.

Definition is_finite (f : spec_float) : bool :=
  match f with S754_zero _ | S754_finite _ _ _ => true | _ => false end.

Class MySqlEngine := {
  (** All values fit their columns: BINARY(8), VARBINARY(16), VARCHAR(128), ... *)
  fits : myRow -> bool;
  (** What INSERT IGNORE makes of a row. *)
  stored : myRow -> myRow;
  (** A text fits a column, and what other statements store for it; without a
      value the statement fails. *)
  textFits : column -> string -> bool;
  text : column -> string -> option string;
  (** The same for a number in an UNSIGNED column, and in a REAL one. *)
  unsigned : Z -> option Z;
  real : spec_float -> option spec_float;
  (** What the collation compares of a text. *)
  collate : string -> string;
  (** The AUTO_INCREMENT value of a new row, if there is one left. *)
  autoIncrement : nat -> gmap Z contactRow -> option Z;
  (** After so many rows, reading a result has failed with this error. *)
  rowsCut : nat -> option (nat * Z);
  (** A failed Commit took effect, the connection having been lost. *)
  commitLost : nat -> bool;
  (** The context is done. *)
  ctxDone : nat -> bool;
  (** math/rand.Read. *)
  mathRand : nat -> nat -> string;
}.

Class MySqlEngineOK (E : MySqlEngine) : Prop := {
  stored_fits r : fits r = true -> stored r = r;
  text_fits c s : textFits c s = true -> text c s = Some s;
  unsigned_fits z : (0 <= z <= i64_max)%Z -> unsigned z = Some z;
  real_finite f : is_finite f = true -> real f = Some f;
  autoIncrement_new n m z : autoIncrement n m = Some z -> m !! z = None /\ (0 < z < 2 ^ 31)%Z;
  mathRand_length n k : String.length (mathRand n k) = k;
}.

(** An engine in strict mode, whose IGNORE cuts names at 128 characters and whose
    collation tells upper case from lower case, on which everything can be
    evaluated. *)
Definition cut (s : string) : string := substring 0 128 s.
Definition goodID (b : gobytes) : bool := match b with Some s => String.length s =? 8 | None => true end.
#[export] Instance TestEngine : MySqlEngine := {|
  fits r := goodID (rSourceClientID r) && goodID (rDestinationClientID r) && (String.length (rSourceServiceName r) <=? 128) &&
    (String.length (rDestinationServiceName r) <=? 128) && (String.length (rMessageType r) <=? 128);
  stored r := mkMyRow (rSourceClientID r) (cut (rSourceServiceName r)) (rSourceMessageID r) (rDestinationClientID r)
    (cut (rDestinationServiceName r)) (cut (rMessageType r)) (rCreationTimeSeconds r) (rCreationTimeNanos r)
    (rProcessedTimeSeconds r) (rProcessedTimeNanos r) (rValidationInfo r) (rFailed r) (rFailedReason r) (rAnnotations r);
  textFits c s := match c with VARCHAR n => String.length s <=? n | _ => true end;
  text c s := match c with VARCHAR n => if String.length s <=? n then Some s else None | _ => Some s end;
  unsigned z := if (0 <=? z)%Z then Some z else None;
  real f := if is_finite f then Some f else None;
  collate s := s;
  autoIncrement _ m := if (newRowid m <? 2 ^ 31)%Z then Some (newRowid m) else None;
  rowsCut _ := None;
  commitLost _ := false;
  ctxDone _ := false;
  mathRand n k := bytesOfNat n k;
|}.

Lemma cut_short s : (String.length s <=? 128) = true -> cut s = s.
Proof.
  intros H%Nat.leb_le. unfold cut. revert H. generalize 128. induction s as [|c s IH]; intros [|n] H; cbn in *; try done; [lia|].
  f_equal. apply IH. lia.
Qed.

#[export] Instance TestEngineOK : MySqlEngineOK TestEngine.
Proof.
  split; cbn.
  - intros r. rewrite !andb_true_iff. intros [[[_ H1] H2] H3]. rewrite !cut_short by done. by destruct r.
  - by intros [n|n|] s; [intros ->|..].
  - intros z Hz. by rewrite (proj2 (Z.leb_le _ _) (proj1 Hz)).
  - by intros f ->.
  - intros _ m z. destruct (Z.ltb_spec (newRowid m) (2 ^ 31)); [|done]. intros [= <-].
    by destruct (newRowid_spec m) as (H1 & H2 & _).
  - intros. apply bytesOfNat_length.
Qed.

(** ** Transactions *)
Definition maxRetries : nat := 50.
Definition mysql_ER_LOCK_WAIT_TIMEOUT : Z := 1205.
Definition mysql_ER_LOCK_DEADLOCK : Z := 1213.
Definition mysql_ER_TOO_MANY_CONCURRENT_TRXS : Z := 1637.

(** The error is a *MySQLError with one of these numbers. *)
Definition retriable (e : goerror) : bool :=
  match e with
  | ErrIO n => (n =? mysql_ER_LOCK_WAIT_TIMEOUT)%Z || (n =? mysql_ER_LOCK_DEADLOCK)%Z ||
               (n =? mysql_ER_TOO_MANY_CONCURRENT_TRXS)%Z
  | _ => false
  end.

Section Tx.
Context `{P : Platform} `{E : MySqlEngine} {T V : Type}.

(** What the statements of the transaction work on, and the variables of the
    caller that the closure captures. *)
Abbreviation Tx A := (M (World (T * V)) A).

Definition rolledBack (w w' : World (T * V)) : World (T * V) :=
  mkWorld (fst (w_data w), snd (w_data w')) (w_step w').

Definition runOnce {A} (f : Tx A) : Tx A := fun w =>
  match sqlFault (w_step w) with
  | Some e => (Err (ErrIO e), mkWorld (w_data w) (S (w_step w)))
  | None =>
      match f (mkWorld (w_data w) (S (w_step w))) with
      | (Ok a, w') =>
          match sqlFault (w_step w') with
          | Some e =>
              let w1 := mkWorld (w_data w') (S (w_step w')) in
              (Err (ErrIO e),
               if negb (retriable (ErrIO e)) && commitLost (w_step w') then w1 else rolledBack w w1)
          | None => (Ok a, mkWorld (w_data w') (S (w_step w')))
          end
      | (Err e, w') => (Err e, rolledBack w w')
      | (Crash c, w') => (Crash c, rolledBack w w')
      end
  end.

(** The loop of runInTx with [left] rounds to go, after [last]; it sleeps
    between two rounds. *)
Fixpoint tryTx {A} (left : nat) (last : goerror) (f : Tx A) : Tx A :=
  match left with
  | O => fail last
  | S left' =>
      r ← try (runOnce f);
      match r with
      | inl a => mret a
      | inr e =>
          if retriable e then
            done ← interact (fun n => Ok (ctxDone n));
            if (done : bool) then fail e else tryTx left' e f
          else fail e
      end
  end.
Definition runInTx {A} (f : Tx A) : Tx A := tryTx maxRetries (ErrText "") f.

Definition onTables {A} (m : M (World T) A) : Tx A := onPart fst (fun t s => (t, snd s)) m.
Definition setVars (v : V) : Tx unit := fun w => (Ok tt, mkWorld (fst (w_data w), v) (w_step w)).
Definition getVars : Tx V := gets (fun w : World (T * V) => snd (w_data w)).

(** A caller with the variables [v]. *)
Definition withVars {A} (v : V) (m : Tx A) : M (World T) (A * V) := fun w =>
  let '(r, w') := m (mkWorld (w_data w, v) (w_step w)) in
  ((fun a => (a, snd (w_data w'))) <$> r, mkWorld (fst (w_data w')) (w_step w')).
End Tx.

Abbreviation My A := (M (World Tables) A).

(** A closure that assigns what it captures anew. *)
Definition inTx `{Platform} `{MySqlEngine} {A} (f : My A) : My A :=
  r ← withVars tt (runInTx (onTables f)); mret r.1.

(** ** Transactions that are run again *)
Section TxLemmas.
Context `{P : Platform} `{E : MySqlEngine} {T V : Type}.
Abbreviation Tx A := (M (World (T * V)) A).

(** [n] runs that have failed on a lock, one after the other: what the next one
    starts with. *)
Inductive again {A} (f : Tx A) : nat -> World (T * V) -> World (T * V) -> Prop :=
| again_first w : again f 0 w w
| again_next n w w1 w2 e :
    runOnce f w = (Err e, w1) -> retriable e = true -> ctxDone (w_step w1) = false ->
    again f n (mkWorld (w_data w1) (S (w_step w1))) w2 -> again f (S n) w w2.

Lemma runOnce_cases {A} (f : Tx A) w :
  let '(r, w') := runOnce f w in
  (fst (w_data w') = fst (w_data w) /\ isOk r = false) \/
  exists a w1, f (mkWorld (w_data w) (S (w_step w))) = (Ok a, w1) /\ w_data w' = w_data w1 /\
    (r = Ok a \/ exists e, r = Err e /\ retriable e = false).
Proof.
  unfold runOnce. destruct (sqlFault (w_step w)); [by left|].
  destruct (f _) as [[a|e|c] w1]; [|by left..].
  destruct (sqlFault (w_step w1)) as [e|]; [|right; by eauto 10].
  destruct (negb (retriable (ErrIO e)) && commitLost (w_step w1)) eqn:Hc; [|by left].
  apply andb_true_iff in Hc as [Hc%negb_true_iff _]. right. exists a, w1. by eauto 10.
Qed.

Lemma again_tables {A} (f : Tx A) n w w0 : again f n w w0 -> fst (w_data w0) = fst (w_data w).
Proof.
  induction 1 as [|n w w1 w2 e H He _ _ IH]; [done|]. rewrite IH. cbn [w_data].
  pose proof (runOnce_cases f w) as Hr. rewrite H in Hr.
  destruct Hr as [[Hr _]|(a & w3 & _ & _ & [?|(e' & [= <-] & ?)])]; [done|done|congruence].
Qed.

Lemma tryTx_last {A} (f : Tx A) n last w : 0 < n ->
  let '(r, w') := tryTx n last f w in
  exists k w0 w1, k < n /\ again f k w w0 /\ runOnce f w0 = (r, w1) /\ w_data w' = w_data w1 /\
    (forall e, r = Err e -> retriable e = true -> ctxDone (w_step w1) = true \/ S k = n).
Proof.
  revert last w. induction n as [|n IH]; intros last w Hn; [lia|]. cbn [tryTx].
  unfold try, mbind, M_bind. destruct (runOnce f w) as [[a|e|c] w1] eqn:Hr; cbn.
  - exists 0, w, w1. split; [lia|]. split; [constructor|]. done.
  - destruct (retriable e) eqn:He; cbn.
    2:{ exists 0, w, w1. split; [lia|]. split; [constructor|]. do 2 (split; [done|]). intros ? [= <-]. congruence. }
    destruct (ctxDone (w_step w1)) eqn:Hd; cbn.
    { exists 0, w, w1. split; [lia|]. split; [constructor|]. do 2 (split; [done|]). by left. }
    destruct n as [|n].
    { cbn. exists 0, w, w1. split; [lia|]. split; [constructor|]. do 2 (split; [done|]). by right. }
    specialize (IH e (mkWorld (w_data w1) (S (w_step w1))) ltac:(lia)).
    destruct (tryTx (S n) e f _) as [r w']. destruct IH as (k & w0 & w2 & Hk & Ha & H0 & Hd' & Hl).
    exists (S k), w0, w2. split; [lia|]. split; [by eapply again_next|]. do 2 (split; [done|]).
    intros e' -> He'. destruct (Hl e' eq_refl He') as [?| ->]; [by left|by right].
  - exists 0, w, w1. split; [lia|]. split; [constructor|]. done.
Qed.

(** What a transaction leaves of the tables. *)
Lemma runInTx_cases {A} (f : Tx A) w :
  let '(r, w') := runInTx f w in
  (fst (w_data w') = fst (w_data w) /\ isOk r = false) \/
  exists k a w0 w1, again f k w w0 /\ fst (w_data w0) = fst (w_data w) /\
    f (mkWorld (w_data w0) (S (w_step w0))) = (Ok a, w1) /\ w_data w' = w_data w1 /\
    (r = Ok a \/ isOk r = false).
Proof.
  pose proof (tryTx_last f maxRetries (ErrText "") w ltac:(unfold maxRetries; lia)) as Ht.
  fold (runInTx f) in Ht. destruct (runInTx f w) as [r w']. destruct Ht as (k & w0 & w1 & _ & Ha & H0 & Hd & _).
  pose proof (again_tables _ _ _ _ Ha) as Ht. pose proof (runOnce_cases f w0) as Hc. rewrite H0 in Hc.
  destruct Hc as [[Hc Hn]|(a & w2 & Hf & Hd2 & Hr)]; [left; by rewrite Hd, Hc|]. right.
  exists k, a, w0, w2. do 3 (split; [done|]). split; [by rewrite Hd|].
  destruct Hr as [->|(e & -> & _)]; [by left|by right].
Qed.

Lemma myRunInTx_Ok {A} (f : Tx A) a w w' :
  runInTx f w = (Ok a, w') ->
  exists k w0 w1, again f k w w0 /\ fst (w_data w0) = fst (w_data w) /\
    f (mkWorld (w_data w0) (S (w_step w0))) = (Ok a, w1) /\ w_data w' = w_data w1.
Proof.
  intros H. pose proof (runInTx_cases f w) as Hc. rewrite H in Hc.
  destruct Hc as [[_ ?]|(k & b & w0 & w1 & Ha & Ht & Hf & Hd & [[= ->]|?])]; [done| |done]. by exists k, w0, w1.
Qed.

(** A run that panics ends the transaction. *)
Lemma runInTx_Crash {A} (f : Tx A) w c :
  fst (runInTx f w) = Crash c ->
  exists k w0, again f k w w0 /\ fst (f (mkWorld (w_data w0) (S (w_step w0)))) = Crash c.
Proof.
  pose proof (tryTx_last f maxRetries (ErrText "") w ltac:(unfold maxRetries; lia)) as Ht.
  fold (runInTx f) in Ht. destruct (runInTx f w) as [r w']. destruct Ht as (k & w0 & w1 & _ & Ha & H0 & _).
  cbn. intros ->. exists k, w0. split; [done|]. unfold runOnce in H0. destruct (sqlFault (w_step w0)); [done|].
  destruct (f _) as [[a|e|c'] w2]; [by destruct (sqlFault (w_step w2))|done|by injection H0 as ->].
Qed.

(** Invariants of the pair that do not relate its parts. *)
Definition separable (J : T * V -> Prop) : Prop := forall t v t' v', J (t, v) -> J (t', v') -> J (t, v').

Lemma preserves_runOnce {A} J (f : Tx A) : separable J -> preserves (onData J) f -> preserves (onData J) (runOnce f).
Proof.
  intros HJ Hf w Hw. unfold runOnce. destruct (sqlFault (w_step w)); [exact Hw|].
  specialize (Hf (mkWorld (w_data w) (S (w_step w))) Hw).
  assert (Hr : forall w', onData J w' -> onData J (rolledBack w w')).
  { intros w'. unfold onData, rolledBack in *. cbn. destruct (w_data w) as [t v], (w_data w') as [t' v']. by eapply HJ. }
  destruct (f _) as [[a|e|c] w1]; cbn in *; [|by apply Hr..].
  destruct (sqlFault (w_step w1)); [|done]. cbn. destruct (_ && _); [done|].
  exact (Hr (mkWorld (w_data w1) (S (w_step w1))) Hf).
Qed.

Lemma preserves_myRunInTx {A} J (f : Tx A) : separable J -> preserves (onData J) f -> preserves (onData J) (runInTx f).
Proof.
  intros HJ Hf. unfold runInTx. generalize (ErrText ""). induction maxRetries as [|n IH]; intros last; [apply preserves_fail|].
  cbn [tryTx]. apply preserves_bind; [by apply preserves_try, preserves_runOnce|]. intros [a|e]; [apply preserves_ret|].
  destruct (retriable e); [|apply preserves_fail]. apply preserves_bind; [apply preserves_interact|].
  intros []; [apply preserves_fail|apply IH].
Qed.

(** What the runs leave in the variables, all from the same tables. *)
Lemma again_vars {A} (f : Tx A) (R : V -> Prop) n w w0 :
  (forall w1, fst (w_data w1) = fst (w_data w) -> R (snd (w_data w1)) -> R (snd (w_data (snd (f w1))))) ->
  again f n w w0 -> R (snd (w_data w)) -> R (snd (w_data w0)).
Proof.
  intros Hf Ha. induction Ha as [|n w w1 w2 e H He Hc Ha IH]; intros Hw; [done|].
  pose proof (runOnce_cases f w) as Hr. rewrite H in Hr. cbn in Hr.
  assert (Ht : fst (w_data w1) = fst (w_data w)).
  { destruct Hr as [[? _]|(a & w3 & _ & _ & [?|(e' & [= <-] & ?)])]; [done|done|congruence]. }
  apply IH; cbn; [by intros w3; rewrite Ht; apply Hf|].
  unfold runOnce in H. destruct (sqlFault (w_step w)); [by injection H as _ <-|].
  specialize (Hf (mkWorld (w_data w) (S (w_step w))) eq_refl Hw).
  destruct (f _) as [[a|e'|c] w3]; cbn in Hf; [|by injection H as _ <-..].
  destruct (sqlFault (w_step w3)); [|done]. injection H as _ <-. by destruct (_ && _).
Qed.

Lemma again_preserves {A} J (f : Tx A) n w w0 : separable J -> preserves (onData J) f ->
  again f n w w0 -> onData J w -> onData J w0.
Proof.
  intros HJ Hf. induction 1 as [|n w w1 w2 e H _ _ _ IH]; intros Hw; [done|]. apply IH.
  pose proof (preserves_runOnce J f HJ Hf w Hw) as Hp. by rewrite H in Hp.
Qed.

(** C4: a MySQL transaction is done once or not at all.  The closure is run at
    most 50 times, each time on the tables as runInTx found them, as a run
    that fails is rolled back; only what it wrote to the caller's variables is
    left for the next run.  A run is followed by another only if it failed on
    a lock and the context is not done.  What is returned is what the last run
    returned, and if that is not an error its effects are in the tables; if
    it is one, the tables are as before, except for a commit whose response
    was lost. *)
Theorem run_in_tx_spec {A} (f : Tx A) w :
  let '(r, w') := runInTx f w in
  exists k w0 w1, k < 50 /\ again f k w w0 /\ fst (w_data w0) = fst (w_data w) /\
    runOnce f w0 = (r, w1) /\ w_data w' = w_data w1 /\
    (forall e, r = Err e -> retriable e = true -> ctxDone (w_step w1) = true \/ S k = 50) /\
    match r with
    | Ok a => exists w2, f (mkWorld (w_data w0) (S (w_step w0))) = (Ok a, w2) /\ w_data w' = w_data w2
    | Err e => fst (w_data w') = fst (w_data w) \/
        retriable e = false /\ exists a w2, f (mkWorld (w_data w0) (S (w_step w0))) = (Ok a, w2) /\ w_data w' = w_data w2
    | Crash _ => fst (w_data w') = fst (w_data w)
    end.
Proof.
  pose proof (tryTx_last f maxRetries (ErrText "") w ltac:(unfold maxRetries; lia)) as Ht.
  fold (runInTx f) in Ht. destruct (runInTx f w) as [r w']. destruct Ht as (k & w0 & w1 & Hk & Ha & H0 & Hd & Hl).
  exists k, w0, w1. pose proof (again_tables _ _ _ _ Ha) as Ht.
  do 6 (split; [done|]). rewrite Hd, <- Ht.
  pose proof (runOnce_cases f w0) as Hc. rewrite H0 in Hc.
  destruct Hc as [[Hc Hn]|(b & w2 & Hf & Hd2 & [->|(e & -> & He)])].
  - destruct r; [done|by left|done].
  - by eauto.
  - right. by eauto.
Qed.
End TxLemmas.

(** *** Closures that assign what they capture anew *)
Section InTx.
Context `{P : Platform} `{E : MySqlEngine}.

Lemma inTx_cases {A} (f : My A) w :
  let '(r, w') := inTx f w in
  (w_data w' = w_data w /\ isOk r = false) \/
  exists n a w1, f (mkWorld (w_data w) n) = (Ok a, w1) /\ w_data w' = w_data w1 /\ (r = Ok a \/ isOk r = false).
Proof.
  unfold inTx, withVars, mbind, M_bind.
  pose proof (runInTx_cases (V := unit) (onTables f) (mkWorld (w_data w, tt) (w_step w))) as Hc.
  destruct (runInTx _ _) as [r w1].
  destruct Hc as [[Hd Hn]|(k & a & w0 & w2 & _ & Ht & Hf & Hd & Hr)].
  - destruct r; [done|by left..].
  - unfold onTables in Hf. apply onPart_Ok in Hf as (w3 & Hf & ->). cbn in *. rewrite Ht in Hf.
    destruct r; cbn; right; exists (S (w_step w0)), a, w3; (split; [done|]); rewrite Hd; (split; [done|]); [|by right..].
    destruct Hr as [[= ->]|?]; [by left|done].
Qed.

Lemma inTx_Ok {A} (f : My A) a w w' :
  inTx f w = (Ok a, w') -> exists n w1, f (mkWorld (w_data w) n) = (Ok a, w1) /\ w_data w' = w_data w1.
Proof.
  intros H. pose proof (inTx_cases f w) as Hc. rewrite H in Hc.
  destruct Hc as [[_ ?]|(n & b & w1 & Hf & Hd & [[= ->]|?])]; [done| |done]. by exists n, w1.
Qed.

Lemma keeps_inTx {A} I (f : My A) : keeps (onData I) f -> preserves (onData I) (inTx f).
Proof.
  intros Hf w Hw. pose proof (inTx_cases f w) as Hc. destruct (inTx f w) as [r w']. unfold onData in *. cbn.
  destruct Hc as [[-> _]|(n & a & w1 & Hr & -> & _)]; [done|].
  exact (Hf (mkWorld (w_data w) n) a w1 Hw Hr).
Qed.

Lemma safe_inTx {A} (f : My A) w (Q : A -> World Tables -> Prop) :
  (forall n, safe f (mkWorld (w_data w) n) (fun a w' => forall n', Q a (mkWorld (w_data w') n'))) ->
  safe (inTx f) w Q.
Proof.
  intros Hf. unfold safe. destruct (inTx f w) as [[a|e|c] w'] eqn:H; [|done|].
  - apply inTx_Ok in H as (n & w1 & Hr & Hd). specialize (Hf n). unfold safe in Hf. rewrite Hr in Hf.
    specialize (Hf (w_step w')). rewrite <- Hd in Hf. by destruct w'.
  - unfold inTx, withVars, mbind, M_bind in H.
    pose proof (runInTx_Crash (V := unit) (onTables f) (mkWorld (w_data w, tt) (w_step w))) as Hc.
    destruct (runInTx _ _) as [[x|e|c'] w1]; [done..|].
    destruct (Hc c' eq_refl) as (k & w0 & Ha & Hr). apply again_tables in Ha. cbn in Ha.
    unfold onTables, onPart in Hr. cbn in Hr. rewrite Ha in Hr. specialize (Hf (S (w_step w0))). unfold safe in Hf.
    destruct (f _) as [[] ?]; [done..|by destruct Hf].
Qed.
End InTx.
#[export] Hint Resolve keeps_inTx : preserves.
