(* ===== verification/MySqlMessages.v ===== *)
(** * The MySQL datastore: messages

    src/server/mysql/messagestore.go, operation by operation.  Ids are stored as
    bytes, and the primary key of pending_messages starts with for_server.  A
    client claims messages in two steps, a read without locks and a locking
    read of the rows it found; the server in one. *)
From S2P Require Import Prelude Platform Ids Proto Db Sqlite SqliteMessages MySql.

(** ** Messages *)
Section Convert.
Context `{L : ProtoLib}.

Definition fromMessageProto (m : Message.t) : outcome myMessage :=
  id ← MessageID.BytesToMessageID (Message.MessageId m);
  let result := Message.Result m in
  let isFailed := match result with Some r => MessageResult.Failed r | None => false end in
  let processed := r ← result; MessageResult.ProcessedTime r in
  vi ← marshalOpt marshalValidationInfo (Message.ValidationInfo m);
  an ← marshalOpt marshalAnnotations (Message.Annotations m);
  Ok (mkMyMessage (MessageID.Bytes id)
        (mkMyRow (a ← Message.Source m; Address.ClientId a)
           (match Message.Source m with Some a => Address.ServiceName a | None => "" end)
           (if decide (blen (Message.SourceMessageId m) = 0) then None else Message.SourceMessageId m)
           (a ← Message.Destination m; Address.ClientId a)
           (match Message.Destination m with Some a => Address.ServiceName a | None => "" end)
           (Message.MessageType m)
           (match Message.CreationTime m with Some t => Timestamp.Seconds t | None => 0%Z end)
           (match Message.CreationTime m with Some t => Timestamp.Nanos t | None => 0%Z end)
           (Timestamp.Seconds <$> processed) (Timestamp.Nanos <$> processed) vi
           (if isFailed then Some true else None)
           (if isFailed then Some (match result with Some r => MessageResult.FailedReason r | None => "" end) else None)
           an)
        0 (Any.TypeUrl <$> Message.Data m) (d ← Message.Data m; Any.Value d)).

Definition toMessageResultProto (r : myRow) : option MessageResult.t :=
  match rProcessedTimeSeconds r with
  | None => None
  | Some s =>
      Some (MessageResult.Mk (Some (Timestamp.Mk s (wrapI32 (default 0%Z (rProcessedTimeNanos r)))))
              (default false (rFailed r)) (default "" (rFailedReason r)))
  end.

Definition toMessageProto (m : myMessage) : outcome Message.t :=
  let r := mRow m in
  mid ← MessageID.BytesToMessageID (mMessageID m);
  vi ← unmarshalOpt unmarshalValidationInfo (rValidationInfo r);
  an ← unmarshalOpt unmarshalAnnotations (rAnnotations r);
  Ok (Message.Mk (MessageID.Bytes mid)
        (Some (Address.Mk (rSourceClientID r) (rSourceServiceName r))) false (rSourceMessageID r)
        (Some (Address.Mk (rDestinationClientID r) (rDestinationServiceName r))) (rMessageType r)
        (Some (Timestamp.Mk (rCreationTimeSeconds r) (rCreationTimeNanos r)))
        (match mDataTypeURL m with Some u => Some (Any.Mk u (mDataValue m)) | None => None end)
        vi (toMessageResultProto r) Message.MEDIUM false an).
End Convert.

Definition setResult (f : option bool) (reason : option string) (s n : option Z) (r : myRow) : myRow :=
  mkMyRow (rSourceClientID r) (rSourceServiceName r) (rSourceMessageID r) (rDestinationClientID r)
    (rDestinationServiceName r) (rMessageType r) (rCreationTimeSeconds r) (rCreationTimeNanos r) s n
    (rValidationInfo r) f reason (rAnnotations r).

Definition dropData (m : myMessage) : myMessage := mkMyMessage (mMessageID m) (mRow m) (mRetryCount m) None None.

(** WHERE message_id = ?; NULL is equal to nothing. *)
Definition at_ {A} (t : gmap string A) (id : gobytes) : option A := k ← id; t !! k.
(** The value of a BINARY(32) NOT NULL column that INSERT IGNORE is to set to NULL. *)
Definition binaryKey (id : gobytes) : string := default (zeros 32) id.
Definition forServer (r : myRow) : bool := negb (bool_decide (is_Some (rDestinationClientID r))).

Section Store.
Context `{P : Platform} `{L : ProtoLib} `{E : MySqlEngine}.

Definition trySetMessageResult (fs : bool) (id : MessageID.t) (res : MessageResult.t) : My unit :=
  match MessageResult.ProcessedTime res with
  | None => crash "nil ProcessedTime"
  | Some pt =>
      let f := if MessageResult.Failed res then Some true else None in
      let reason := if MessageResult.Failed res then Some (MessageResult.FailedReason res) else None in
      let update := setResult f reason (Some (Timestamp.Seconds pt)) (Some (Timestamp.Nanos pt)) in
      exec (fun t => Ok (match MessageID.Bytes id with
                         | Some k => setTMessages (alter update k (tMessages t)) t | None => t end)) ≫= fun _ =>
      exec (fun t => Ok (match MessageID.Bytes id with
                         | Some k => setTPending (delete (fs, k) (tPending t)) t | None => t end))
  end.

Definition SetMessageResult (dest : ClientID.t) (id : MessageID.t) (res : MessageResult.t) : My unit :=
  inTx (trySetMessageResult (ClientID.IsNil dest) id res).

(** INSERT IGNORE INTO messages: the number of rows inserted. *)
Definition insertMessage (id : gobytes) (r : myRow) : My Z :=
  execN (fun t =>
    match tMessages t !! binaryKey id with
    | Some _ => Ok (0%Z, t)
    | None => Ok (1%Z, setTMessages (<[binaryKey id := stored r]> (tMessages t)) t)
    end).

Definition insertPending (fs : bool) (id : gobytes) (p : pendingRow) : My unit :=
  exec (fun t =>
    match id with
    | None => Err (ErrConstraint "message_id cannot be null")
    | Some k =>
        _ ← constraint (bool_decide (tPending t !! (fs, k) = None)) "PRIMARY";
        _ ← constraint (bool_decide (is_Some (tMessages t !! k))) "pending_messages_fk_1";
        Ok (setTPending (<[(fs, k) := p]> (tPending t)) t)
    end).

Definition tryStoreMessage (dbm : myMessage) (isBroadcast : bool) : My unit :=
  let r := mRow dbm in
  if (rCreationTimeSeconds r =? 0)%Z then fail (ErrText "message CreationTime must be set")
  else
    cnt ← insertMessage (mMessageID dbm) r;
    if (cnt =? 1)%Z && negb (bool_decide (is_Some (rProcessedTimeSeconds r))) then
      due ← (if forServer r then t ← ServerRetryTime 0; mret (toMicro t)
             else if isBroadcast then t ← ClientRetryTime; mret (toMicro t)
             else t ← now; mret (toMicro t));
      insertPending (forServer r) (mMessageID dbm) (mkPendingRow 0 due (mDataTypeURL dbm) (mDataValue dbm))
    else mret tt.

(** trySetMessageResult for a message of StoreMessages. *)
Definition recordResult (m : Message.t) (res : MessageResult.t) : My unit :=
  match Message.Destination m with
  | None => crash "nil Destination"
  | Some a =>
      mid ← lift (MessageID.BytesToMessageID (Message.MessageId m));
      trySetMessageResult (negb (bool_decide (is_Some (Address.ClientId a)))) mid res
  end.

Definition selectProcessed (id : gobytes) : My ((option Z * option bool) + goerror) :=
  try (queryRow (fun t => (fun r => (rProcessedTimeSeconds r, rFailed r)) <$> at_ (tMessages t) id)).

(** One round of the loop of StoreMessages. *)
Definition storeOne (m : Message.t) : My gobytes :=
  dbm ← lift (fromMessageProto m);
  let dbm := if Message.Result m is Some _ then dropData dbm else dbm in
  let succeeded := match Message.Result m with Some res => negb (MessageResult.Failed res) | None => false end in
  (match Message.Result m, succeeded with
   | Some res, true => tryStoreMessage dbm false ≫= fun _ => recordResult m res
   | result, _ =>
       e ← selectProcessed (mMessageID dbm);
       match e with
       | inr ErrNoRows => tryStoreMessage dbm false
       | inr e => fail e
       | inl (processedTime, fl) =>
           if bool_decide (is_Some processedTime) && negb (default false fl) then mret tt
           else match result with
                | Some res =>
                    if negb (bool_decide (is_Some processedTime)) || negb (MessageResult.Failed res)
                    then recordResult m res else mret tt
                | None => mret tt
                end
       end
   end) ≫= fun _ => mret (mMessageID dbm).

(** INSERT IGNORE INTO client_contact_messages: a duplicate and a row without
    its contact or message are left out. *)
Definition linkMessage (c : Z) (id : gobytes) : My unit :=
  exec (fun t =>
    if bool_decide (is_Some (tContacts t !! c)) && bool_decide (is_Some (tMessages t !! binaryKey id)) then
      Ok (setTContactMessages ({[(c, binaryKey id)]} ∪ tContactMessages t) t)
    else Ok t).

Definition StoreMessages (msgs : list Message.t) (contact : ContactID) : My unit :=
  inTx (
    ids ← mapMs storeOne msgs;
    if String.eqb contact "" then mret tt
    else
      match Hex.ParseUint16 contact with
      | Ok c => forM_ ids (linkMessage c)
      | _ => fail (ErrText "unable to parse ContactID")
      end).

(** *** Pending messages *)
Definition pendingIds (ids : list ClientID.t) (t : Tables) : list string :=
  (* SELECT m.message_id FROM messages AS m, pending_messages AS pm WHERE
     m.destination_client_id IN (...) AND m.message_id = pm.message_id *)
  omap (fun kp : bool * string * pendingRow =>
          match tMessages t !! kp.1.2 with
          | Some r => match rDestinationClientID r with
                      | Some c => if decide (Some c ∈ (ClientID.Bytes <$> ids)) then Some kp.1.2 else None
                      | None => None
                      end
          | None => None
          end) (map_to_list (tPending t)).

Definition getPendingMessageRawIds (ids : list ClientID.t) (offset limit : Z) : My (list string) :=
  if negb (offset =? 0)%Z && (limit =? 0)%Z then
    fail (ErrText "if offset is provided, a limit must be provided as well")
  else
    (* "IN ()" does not parse *)
    rows ← orFailM (query (fun t => if decide (ids = []) then Err ErrSqlSyntax else Ok (pendingIds ids t)))
             (ErrText "Failed to fetch the list of pending messages");
    let sorted := merge_sort strLe rows in
    let shifted := drop (Z.to_nat offset) sorted in
    mret (if (limit =? 0)%Z then shifted else take (Z.to_nat limit) shifted).

Definition GetPendingMessageCount (ids : list ClientID.t) : My Z :=
  inTx (rows ← orFailM (query (fun t => if decide (ids = []) then Err ErrSqlSyntax else Ok (pendingIds ids t)))
                 (ErrText "Failed to fetch the pending message count");
        mret (Z.of_nat (length rows))).

(** The row of a message; failed and failed_reason are not selected. *)
Definition selectMessage (id : gobytes) : My myRow :=
  queryRow (fun t => (fun r => setResult None None (rProcessedTimeSeconds r) (rProcessedTimeNanos r) r) <$>
                     at_ (tMessages t) id).

(** The pending rows of a message, in both partitions. *)
Definition pendingOf (id : gobytes) (t : Tables) : list pendingRow :=
  match id with
  | Some k => omap (fun fs => tPending t !! (fs, k)) [false; true]
  | None => []
  end.

(** The first row, or no error when there is none. *)
Definition selectData (id : gobytes) : My (option string * gobytes) :=
  rows ← query (fun t => Ok (pendingOf id t));
  mret (match rows with p :: _ => (data_type_url p, data_value p) | [] => (None, None) end).

Definition getMessages (ids : list MessageID.t) (wantData : bool) : My (list Message.t) :=
  mapMs (fun id =>
    let key := MessageID.Bytes id in
    r ← selectMessage key;
    dat ← (if wantData then selectData key else mret (None, None));
    lift (toMessageProto (mkMyMessage key r 0 dat.1 dat.2))) ids.

Definition GetMessages (ids : list MessageID.t) (wantData : bool) : My (list Message.t) :=
  inTx (getMessages ids wantData).

Definition GetPendingMessages (ids : list ClientID.t) (offset count : Z) (wantData : bool) : My (list Message.t) :=
  inTx (
    raw ← getPendingMessageRawIds ids offset count;
    mids ← mapMs (fun b => lift (MessageID.BytesToMessageID (Some b))) raw;
    getMessages mids wantData).

Definition DeletePendingMessages (ids : list ClientID.t) : My unit :=
  inTx (
    keys ← getPendingMessageRawIds ids 0 0;
    if decide (keys = []) then mret tt
    else
      n ← NowProto;
      exec (fun t => Ok (setTMessages
        (map_imap (fun k r => Some (if decide (k ∈ keys) then
           setResult (Some true) (Some "Removed by admin action."%string)
             (Some (Timestamp.Seconds n)) (Some (Timestamp.Nanos n)) r else r)) (tMessages t)) t)) ≫= fun _ =>
      exec (fun t => Ok (setTPending (filter (fun kp => kp.1.2 ∉ keys) (tPending t)) t))).

Definition GetMessageResult (id : MessageID.t) : My (option MessageResult.t) :=
  inTx (
    e ← try (queryRow (fun t => at_ (tMessages t) (MessageID.Bytes id)));
    match e with
    | inl r => mret (toMessageResultProto r)
    | inr ErrNoRows => mret None
    | inr e => fail e
    end).

(** *** Messages for a client *)

(** What a transaction has read of its captured variables: the result so far
    and the number of rows per service. *)
Abbreviation ClientVars := (list Message.t * gmap string Z)%type.

(** The join of the first statement. *)
Definition dueRows (cid : gobytes) (now : Z) (t : Tables) : list myMessage :=
  omap (fun kp : bool * string * pendingRow =>
          let '((_, k), p) := kp in
          match tMessages t !! k with
          | Some r => if decide (is_Some cid /\ rDestinationClientID r = cid /\ (scheduled_time p < now)%Z)
                      then Some (mkMyMessage (Some k) (setResult None None None None r) (retry_count p) (data_type_url p) (data_value p))
                      else None
          | None => None
          end) (map_to_list (tPending t)).

(** The loop over its rows: msgByID, and [read]. *)
Fixpoint readRows (serviceLimits : option (gmap string Z)) (rows : list myMessage)
    (msgByID : gmap string myMessage) (read : gmap string Z) : gmap string myMessage * gmap string Z :=
  match rows with
  | [] => (msgByID, read)
  | dbm :: rows =>
      let svc := rDestinationServiceName (mRow dbm) in
      let seen := default 0%Z (read !! svc) in
      let add := <[contents (mMessageID dbm) := dbm]> msgByID in
      match serviceLimits with
      | Some sl =>
          if (default 0%Z (sl !! svc) <=? seen)%Z then readRows serviceLimits rows msgByID read
          else readRows serviceLimits rows add (<[svc := wrapU64 (seen + 1)]> read)
      | None => readRows serviceLimits rows add read
      end
  end.

Abbreviation ClientTx A := (M (World (Tables * ClientVars)) A).

(** Without locks: what is due, within the limits. *)
Definition readDue (id : ClientID.t) (serviceLimits : option (gmap string Z)) : ClientTx (gmap string myMessage) :=
  t ← now;
  rows ← onTables (query (fun tb => Ok (dueRows (ClientID.Bytes id) (toMicro t) tb)));
  vars ← getVars;
  let '(msgByID, read) := readRows serviceLimits rows ∅ vars.2 in
  setVars (vars.1, read) ≫= fun _ => mret msgByID.

(** SELECT message_id ... LIMIT ? FOR UPDATE: some of the rows that are still
    there. *)
Definition lockRows (msgByID : gmap string myMessage) (lim : Z) : ClientTx (list string) :=
  ids ← onTables (query (fun t => Ok (filter (fun k => is_Some (tPending t !! (false, k))) (map_to_list msgByID).*1)));
  mret (take (Z.to_nat lim) ids).

Definition reschedule (due : Z) (ids : list string) (t : Tables) : Tables :=
  setTPending (map_imap (fun k p => Some (if decide (k.1 = false /\ k.2 ∈ ids)
                 then mkPendingRow (retry_count p + 1) due (data_type_url p) (data_value p) else p)) (tPending t)) t.

(** From the locking read to the end of the transaction. *)
Definition claimRows (msgByID : gmap string myMessage) (lim : Z) : ClientTx unit :=
  ids ← lockRows msgByID lim;
  forM_ ids (fun k =>
    m ← lift (match msgByID !! k with Some dbm => toMessageProto dbm | None => Crash "nil dbMessage" end);
    vars ← getVars;
    setVars (vars.1 ++ [m], vars.2)) ≫= fun _ =>
  vars ← getVars;
  if decide (vars.1 = []) then mret tt
  else
    t ← ClientRetryTime;
    onTables (exec (fun tb => if decide (ids = []) then Err ErrSqlSyntax else Ok (reschedule (toMicro t) ids tb))).

Definition clientTx (id : ClientID.t) (lim : Z) (serviceLimits : option (gmap string Z)) : ClientTx unit :=
  msgByID ← readDue id serviceLimits;
  if decide (msgByID = ∅) then mret tt else claimRows msgByID lim.

Definition ClientMessagesForProcessing (id : ClientID.t) (lim : Z) (serviceLimits : option (gmap string Z)) :
    My (list Message.t) :=
  if decide (id = ClientID.nil) then fail (ErrText "a client is required")
  else r ← withVars ([], ∅) (runInTx (clientTx id lim serviceLimits)); mret r.2.1.

(** *** Messages for the server *)
Abbreviation ServerTx A := (M (World (Tables * list myMessage)) A).

(** A pending row, as far as it is read before the rest of the message. *)
Definition pendingMessage (kp : string * pendingRow) : myMessage :=
  mkMyMessage (Some kp.1) (mkMyRow None "" None None "" "" 0 0 None None None None None None)
    (retry_count kp.2) (data_type_url kp.2) (data_value kp.2).

(** WHERE for_server=1 AND [range] AND scheduled_time < ?; ORDER BY leaves
    nothing to the engine. *)
Definition serverRows (range : string -> bool) (now : Z) (t : Tables) : list (string * pendingRow) :=
  omap (fun kp : bool * string * pendingRow =>
          let '((fs, k), p) := kp in
          if fs && range k && (scheduled_time p <? now)%Z then Some (k, p) else None) (map_to_list (tPending t)).

Definition keyLe (x y : string * pendingRow) : Prop := strLe x.1 y.1.
#[global] Instance keyLe_dec : RelDecision keyLe.
Proof. intros x y. unfold keyLe. apply _. Defined.

#[global] Instance keyLe_total : Total keyLe.
Proof. intros x y. apply (total strLe). Qed.

Definition readPending (range : string -> bool) (l : Z) : ServerTx unit :=
  t ← now;
  rows ← onTables (query (fun tb => Ok (serverRows range (toMicro t) tb)));
  dbms ← getVars;
  setVars (dbms ++ (pendingMessage <$> take (Z.to_nat l) (merge_sort keyLe rows))).

Definition strLt (s t : string) : bool := bool_decide (strLe s t) && negb (String.eqb s t).

Definition rescheduleServer (dbm : myMessage) : ServerTx unit :=
  let nc := wrapU32 (mRetryCount dbm + 1) in
  t ← ServerRetryTime nc;
  onTables (exec (fun tb => Ok (match mMessageID dbm with
    | Some k => setTPending (alter (setSchedule nc (toMicro t)) (true, k) (tPending tb)) tb | None => tb end))).

Definition serverTx (lim : Z) : ServerTx unit :=
  start ← interact (fun n => Ok (Hex.EncodeToString (mathRand n 2)));
  readPending (fun k => strLt start k) lim ≫= fun _ =>
  dbms ← getVars;
  (if (Z.of_nat (length dbms) <? lim)%Z
   then readPending (fun k => strLt k start) (lim - Z.of_nat (length dbms)) else mret tt) ≫= fun _ =>
  dbms ← getVars;
  forM_ dbms rescheduleServer.

(** After the transaction: the rest of a message. *)
Definition readRest (dbm : myMessage) : My Message.t :=
  r ← queryRow (fun t => at_ (tMessages t) (mMessageID dbm));
  lift (toMessageProto (mkMyMessage (mMessageID dbm) (setResult None None None None r)
                          (mRetryCount dbm) (mDataTypeURL dbm) (mDataValue dbm))).

Definition internalServerMessagesForProcessing (lim : Z) : My (list Message.t) :=
  r ← withVars [] (runInTx (serverTx lim));
  mapMs readRest r.2.
End Store.

(** ** The invariant

    [toServer] says which ids are those of messages for the server.  A message
    is pending exactly while it has no processing time, in the partition its
    destination belongs to. *)
Record myWf (toServer : string -> bool) (t : Tables) : Prop := {
  wf_kind : forall k r, tMessages t !! k = Some r -> forServer r = toServer k;
  wf_unprocessed : forall fs k, is_Some (tPending t !! (fs, k)) <->
    fs = toServer k /\ exists r, tMessages t !! k = Some r /\ rProcessedTimeSeconds r = None;
}.

Definition myStatusOf (t : Tables) (k : string) : status :=
  match tMessages t !! k with None => Absent | Some r => Present (toMessageResultProto r) end.

(** A message with an id, for whom its id says, that fits its row. *)
Definition addressed `{ProtoLib} `{MySqlEngine} (toServer : string -> bool) (m : Message.t) : Prop :=
  exists k a, MessageID.BytesToMessageID (Message.MessageId m) = Ok (MessageID.Mk k) /\ k <> ""%string /\
    Message.Destination m = Some a /\ toServer k = negb (bool_decide (is_Some (Address.ClientId a))) /\
    forall dbm, fromMessageProto m = Ok dbm -> fits (mRow dbm) = true.

Section Tables.
Context (toServer : string -> bool).

Lemma myWf_result t k f reason s n :
  myWf toServer t ->
  myWf toServer (setTPending (delete (toServer k, k) (tPending t))
                   (setTMessages (alter (setResult f reason (Some s) n) k (tMessages t)) t)).
Proof.
  intros [H1 H2]. split; cbn.
  - intros k' r. rewrite lookup_alter. case_decide; subst.
    + intros (r0 & Hr & ->)%fmap_Some. exact (H1 _ _ Hr).
    + apply H1.
  - intros fs k'. destruct (decide (k' = k)) as [->|Hne].
    + rewrite lookup_alter_eq. destruct (decide (fs = toServer k)) as [->|Hf].
      * rewrite lookup_delete_eq. split; [by intros []|]. intros (_ & r & (r0 & _ & ->)%fmap_Some & [=]).
      * rewrite lookup_delete_ne by congruence. rewrite H2. by split; intros [? _].
    + rewrite lookup_delete_ne, lookup_alter_ne by congruence. apply H2.
Qed.

Lemma myWf_insert t k r : myWf toServer t -> tMessages t !! k = None -> forServer r = toServer k ->
  is_Some (rProcessedTimeSeconds r) -> myWf toServer (setTMessages (<[k := r]> (tMessages t)) t).
Proof.
  intros [H1 H2] Hn Hk [s Hs]. split; cbn.
  - intros k' r'. rewrite lookup_insert. case_decide; [by intros [= <-]; subst|apply H1].
  - intros fs k'. rewrite H2. destruct (decide (k' = k)) as [->|Hne].
    + rewrite lookup_insert_eq, Hn. split; intros (_ & ? & ? & ?); congruence.
    + by rewrite lookup_insert_ne by done.
Qed.

Lemma myWf_insertPending t k r p : myWf toServer t -> tMessages t !! k = None -> forServer r = toServer k ->
  rProcessedTimeSeconds r = None ->
  myWf toServer (setTPending (<[(forServer r, k) := p]> (tPending t)) (setTMessages (<[k := r]> (tMessages t)) t)).
Proof.
  intros [H1 H2] Hn Hk Hs. split; cbn.
  - intros k' r'. rewrite lookup_insert. case_decide; [by intros [= <-]; subst|apply H1].
  - intros fs k'. rewrite Hk. destruct (decide (k' = k)) as [->|Hne].
    + rewrite lookup_insert_eq. destruct (decide (fs = toServer k)) as [->|Hf].
      * rewrite lookup_insert_eq. split; [|by eauto]. by eauto 10.
      * rewrite lookup_insert_ne by congruence. rewrite H2. split; intros [? _]; done.
    + rewrite !lookup_insert_ne by congruence. apply H2.
Qed.
End Tables.

Section Storing.
Context `{P : Platform} `{L : ProtoLib} `{E : MySqlEngine} {EO : MySqlEngineOK E}.

Lemma myMessage_Ok m dbm :
  fromMessageProto m = Ok dbm ->
  exists id, MessageID.BytesToMessageID (Message.MessageId m) = Ok id /\ mMessageID dbm = MessageID.Bytes id /\
    toMessageResultProto (mRow dbm) = (Message.Result m ≫= normResult) /\
    rProcessedTimeSeconds (mRow dbm) = (r ← Message.Result m; t ← MessageResult.ProcessedTime r; Some (Timestamp.Seconds t)) /\
    rDestinationClientID (mRow dbm) = (a ← Message.Destination m; Address.ClientId a).
Proof using Type.
  unfold fromMessageProto. intros H. repeat (apply outcome_bind_Ok in H as (? & ? & H)). injection H as <-.
  eexists. split; [done|]. split; [done|]. unfold toMessageResultProto, normResult. cbn.
  by destruct (Message.Result m) as [[[pt|] [] reason]|].
Qed.

Lemma myResult_set res pt r :
  MessageResult.ProcessedTime res = Some pt ->
  toMessageResultProto (setResult
    (if MessageResult.Failed res then Some true else None)
    (if MessageResult.Failed res then Some (MessageResult.FailedReason res) else None)
    (Some (Timestamp.Seconds pt)) (Some (Timestamp.Nanos pt)) r) = normResult res.
Proof using Type.
  intros Hp. unfold toMessageResultProto, normResult. rewrite Hp. cbn. by destruct (MessageResult.Failed res).
Qed.

Lemma trySet_Ok fs k res w u w' : k <> ""%string ->
  trySetMessageResult fs (MessageID.Mk k) res w = (Ok u, w') ->
  exists pt, MessageResult.ProcessedTime res = Some pt /\
  w_data w' =
    setTPending (delete (fs, k) (tPending (w_data w)))
      (setTMessages (alter (setResult
           (if MessageResult.Failed res then Some true else None)
           (if MessageResult.Failed res then Some (MessageResult.FailedReason res) else None)
           (Some (Timestamp.Seconds pt)) (Some (Timestamp.Nanos pt))) k (tMessages (w_data w))) (w_data w)).
Proof using Type.
  intros Hk. unfold trySetMessageResult. destruct (MessageResult.ProcessedTime res) as [pt|]; [|by intros ?%crash_Ok].
  assert (Hb : MessageID.Bytes (MessageID.Mk k) = Some k).
  { unfold MessageID.Bytes, MessageID.IsNil. cbn. by destruct (String.eqb_spec k ""). }
  rewrite Hb. intros H. inv_sql. exists pt. split; [done|]. by split_worlds.
Qed.

(** What storing, or recording the result of, a message with the id [k] does to
    the tables. *)
Definition touches (k : string) (toServer : string -> bool) (f : status -> status) (t t' : Tables) : Prop :=
  (myWf toServer t -> myWf toServer t') /\
  forall k', myStatusOf t' k' = if decide (k = k') then f (myStatusOf t k') else myStatusOf t k'.

Lemma trySet_touches toServer k res w u w' : k <> ""%string ->
  trySetMessageResult (toServer k) (MessageID.Mk k) res w = (Ok u, w') ->
  touches k toServer (fun st => match st with Absent => Absent | Present _ => Present (normResult res) end) (w_data w) (w_data w').
Proof using Type.
  intros Hk (pt & Hpt & ->)%trySet_Ok; [|done]. split; [apply myWf_result|].
  intros k'. unfold myStatusOf. cbn. rewrite lookup_alter. case_decide; [|done]. subst.
  destruct (tMessages (w_data w) !! k') as [r|]; [|done]. cbn [fmap option_fmap option_map].
  by rewrite <- (myResult_set res pt r Hpt).
Qed.

Lemma touches_trans k toServer f g t1 t2 t3 :
  touches k toServer f t1 t2 -> touches k toServer g t2 t3 -> touches k toServer (fun st => g (f st)) t1 t3.
Proof using Type.
  intros [H1 H2] [H3 H4]. split; [by auto|]. intros k'. rewrite H4, H2. by case_decide.
Qed.

Lemma touches_ext k toServer f g t t' :
  (f (myStatusOf t k) = g (myStatusOf t k)) -> touches k toServer f t t' -> touches k toServer g t t'.
Proof using Type.
  intros Hf [H1 H2]. split; [done|]. intros k'. rewrite H2. case_decide; [|done]. by subst.
Qed.

Lemma touches_refl k toServer t : touches k toServer (fun st => st) t t.
Proof using Type. split; [done|]. intros k'. by case_decide. Qed.

Lemma tryStore_touches toServer dbm k isB w u w' :
  mMessageID dbm = Some k -> forServer (mRow dbm) = toServer k -> fits (mRow dbm) = true ->
  tryStoreMessage dbm isB w = (Ok u, w') ->
  touches k toServer (fun st => match st with Absent => Present (toMessageResultProto (mRow dbm)) | st => st end)
    (w_data w) (w_data w').
Proof using EO.
  intros Hk Hf Hfits. unfold tryStoreMessage. cbv zeta. intros H.
  match goal with |- touches _ _ ?f _ _ => set (g := f) end.
  destruct (Z.eqb_spec (rCreationTimeSeconds (mRow dbm)) 0); [by inv_sql|].
  apply bind_Ok in H as (n1 & w1 & H1 & H). unfold insertMessage in H1. apply execN_Ok in H1 as (_ & H1 & _).
  rewrite Hk, (stored_fits _ Hfits) in *. change (binaryKey (Some k)) with k in H1.
  destruct (tMessages (w_data w) !! k) as [r|] eqn:Hr.
  { injection H1 as <- H1. cbn in H. apply ret_Ok in H as [_ <-]. rewrite <- H1.
    eapply touches_ext, touches_refl. unfold myStatusOf. by rewrite Hr. }
  injection H1 as <- H1. cbn in H.
  assert (Hst : forall t, tMessages t = <[k := mRow dbm]> (tMessages (w_data w)) -> forall k', myStatusOf t k' =
    if decide (k = k') then g (myStatusOf (w_data w) k') else myStatusOf (w_data w) k').
  { intros t Ht k'. unfold myStatusOf. rewrite Ht, lookup_insert. case_decide; [|done]. subst. by rewrite Hr. }
  destruct (rProcessedTimeSeconds (mRow dbm)) eqn:Hp; cbn in H.
  { apply ret_Ok in H as [_ <-]. rewrite <- H1. split; [|by apply Hst].
    intros Hw. apply myWf_insert; [done|done|done|by rewrite Hp]. }
  apply bind_Ok in H as (due & w2 & Hd & H).
  assert (Hw : w_data w2 = w_data w1).
  { unfold ServerRetryTime, ClientRetryTime in Hd. destruct (forServer _); [|destruct isB]; inv_sql; done. }
  unfold insertPending in H. apply exec_Ok in H as (_ & H & _).
  apply outcome_bind_Ok in H as (? & _ & H). apply outcome_bind_Ok in H as (? & _ & H).
  injection H as <-. rewrite Hw, <- H1. split; [|by apply Hst].
  intros Hwf. exact (myWf_insertPending toServer (w_data w) k (mRow dbm) _ Hwf Hr Hf Hp).
Qed.

Lemma record_touches toServer m k a res w u w' : k <> ""%string ->
  MessageID.BytesToMessageID (Message.MessageId m) = Ok (MessageID.Mk k) -> Message.Destination m = Some a ->
  toServer k = negb (bool_decide (is_Some (Address.ClientId a))) ->
  recordResult m res w = (Ok u, w') ->
  touches k toServer (fun st => match st with Absent => Absent | Present _ => Present (normResult res) end) (w_data w) (w_data w').
Proof using Type.
  intros Hk Hid Ha Hs. unfold recordResult. rewrite Ha, Hid, <- Hs. intros H.
  apply bind_Ok in H as (mid & w1 & [[= <-] <-]%lift_Ok & H). by eapply trySet_touches.
Qed.

Lemma selected_Ok k w e w' :
  selectProcessed (Some k) w = (Ok e, w') ->
  w_data w' = w_data w /\
  match e with
  | inr ErrNoRows => myStatusOf (w_data w) k = Absent
  | inr _ => True
  | inl (pt, fl) => exists old, myStatusOf (w_data w) k = Present old /\ (old = None <-> pt = None) /\
      (forall o, old = Some o -> MessageResult.Failed o = default false fl)
  end.
Proof using Type.
  unfold selectProcessed, try, queryRow, myStatusOf, at_. cbn. destruct (sqlFault (w_step w)) as [e0|]; [by intros [= <- <-]|].
  destruct (tMessages (w_data w) !! k) as [r|]; cbn; intros [= <- <-]; [|done]. split; [done|].
  eexists. split; [done|]. unfold toMessageResultProto. destruct (rProcessedTimeSeconds r); naive_solver.
Qed.

Lemma storeOne_touches toServer m w b w' :
  addressed toServer m -> storeOne m w = (Ok b, w') ->
  exists k, MessageID.BytesToMessageID (Message.MessageId m) = Ok (MessageID.Mk k) /\ b = Some k /\
    touches k toServer (fun st => mergeStatus st (Message.Result m)) (w_data w) (w_data w').
Proof using EO.
  intros (k & a & Hid & Hk & Ha & Hs & Hfits) H. unfold storeOne in H.
  apply bind_Ok in H as (dbm & w1 & [Hm <-]%lift_Ok & H).
  destruct (myMessage_Ok _ _ Hm) as (id & Hid' & Hkey & Hres & _ & Hdest).
  rewrite Hid in Hid'. injection Hid' as <-. specialize (Hfits _ Hm).
  assert (Hb : MessageID.Bytes (MessageID.Mk k) = Some k).
  { unfold MessageID.Bytes, MessageID.IsNil. cbn. by destruct (String.eqb_spec k ""). }
  rewrite Hb in Hkey. rewrite Ha in Hdest. cbn in Hdest.
  set (dbm' := match Message.Result m with Some _ => dropData dbm | None => dbm end) in H.
  assert (Hrow : mRow dbm' = mRow dbm /\ mMessageID dbm' = Some k) by (unfold dbm'; by destruct (Message.Result m)).
  destruct Hrow as [Hrow Hk']. clearbody dbm'.
  assert (Hserver : forServer (mRow dbm') = toServer k) by (unfold forServer; by rewrite Hrow, Hdest, Hs).
  apply bind_Ok in H as (u & w1 & H & [<- <-]%ret_Ok). exists k. split; [done|]. split; [done|].
  rewrite <- Hrow in Hfits, Hres.
  pose proof (fun w u w' => tryStore_touches toServer dbm' k false w u w' Hk' Hserver Hfits) as Hstore.
  pose proof (fun res w u w' => record_touches toServer m k a res w u w' Hk Hid Ha Hs) as Hrec.
  destruct (match Message.Result m with Some r => negb (MessageResult.Failed r) | None => false end) eqn:Hsucc.
  - destruct (Message.Result m) as [res|] eqn:Hr; [|done]. apply bind_Ok in H as (u1 & w2 & H2 & H).
    eapply touches_ext; [|eapply touches_trans; [by eapply Hstore|by eapply Hrec]].
    cbn. apply negb_true_iff in Hsucc.
    destruct (myStatusOf (w_data w) k) as [|[old|]]; cbn; by rewrite ?Hsucc.
  - assert (H' : (e ← selectProcessed (mMessageID dbm');
       match e with
       | inr ErrNoRows => tryStoreMessage dbm' false
       | inr e => fail e
       | inl (processedTime, fl) =>
           if bool_decide (is_Some processedTime) && negb (default false fl) then mret tt
           else match Message.Result m with
                | Some res =>
                    if negb (bool_decide (is_Some processedTime)) || negb (MessageResult.Failed res)
                    then recordResult m res else mret tt
                | None => mret tt
                end
       end) w = (Ok u, w1)) by (by destruct (Message.Result m)).
    clear H. rewrite Hk' in H'. apply bind_Ok in H' as (e & w2 & [Hw He]%selected_Ok & H). rewrite <- Hw in He |- *.
    destruct e as [[pt fl]|e].
    + destruct He as (old & Hold & Hpt & Hfl).
      destruct (bool_decide (is_Some pt) && negb (default false fl)) eqn:Hc.
      * apply ret_Ok in H as [_ <-]. eapply touches_ext, touches_refl. rewrite Hold.
        apply andb_true_iff in Hc as [[t ->]%bool_decide_eq_true _].
        destruct old as [old|]; [|by pose proof (proj1 Hpt eq_refl)].
        revert Hsucc. cbn. destruct (Message.Result m) as [res|]; [|done]. intros Hsucc%negb_false_iff. by rewrite Hsucc.
      * destruct (Message.Result m) as [res|] eqn:Hr.
        2:{ apply ret_Ok in H as [_ <-]. eapply touches_ext, touches_refl. rewrite Hold. by destruct old. }
        apply negb_false_iff in Hsucc. rewrite Hsucc, orb_false_r in H.
        destruct (bool_decide_reflect (is_Some pt)) as [[t ->]|Hn]; cbn in H.
        -- apply ret_Ok in H as [_ <-]. eapply touches_ext, touches_refl. rewrite Hold.
           destruct old; [|by pose proof (proj1 Hpt eq_refl)]. cbn. by rewrite Hsucc.
        -- eapply touches_ext; [|by eapply Hrec]. rewrite Hold. cbn.
           destruct old as [o|]; [|done]. exfalso. destruct pt; [by apply Hn|]. by pose proof (proj2 Hpt eq_refl).
    + destruct e; try (by apply fail_Ok in H). eapply touches_ext; [|by eapply Hstore]. rewrite He, Hres.
      cbn. by destruct (Message.Result m).
Qed.

Lemma storeAll_touches toServer msgs w ids w' k :
  Forall (addressed toServer) msgs -> MessageID.valid (MessageID.Mk k) -> mapMs storeOne msgs w = (Ok ids, w') ->
  (myWf toServer (w_data w) -> myWf toServer (w_data w')) /\
  myStatusOf (w_data w') k = mergeAll (MessageID.Mk k) (myStatusOf (w_data w) k) msgs.
Proof using EO.
  intros Hm Hk. revert w ids. induction Hm as [|m msgs Hm _ IH]; intros w ids; cbn.
  - by intros [_ <-]%ret_Ok.
  - intros (b & w1 & H1 & H)%bind_Ok. apply bind_Ok in H as (bs & w2 & H2 & [_ <-]%ret_Ok).
    destruct (storeOne_touches toServer m w b w1 Hm H1) as (k1 & Hid & _ & Hwf & Hst).
    destruct (IH _ _ H2) as [IH1 IH2]. split; [by auto|]. rewrite IH2, Hst. cbn. unfold mergeAll.
    destruct (decide (k1 = k)) as [->|Hne]; [by rewrite bool_decide_true|].
    rewrite bool_decide_false; [done|congruence].
Qed.

Lemma links_only ids c (w : World Tables) u w' :
  forM_ ids (linkMessage c) w = (Ok u, w') -> tMessages (w_data w') = tMessages (w_data w) /\ tPending (w_data w') = tPending (w_data w).
Proof using Type.
  revert w. induction ids as [|b ids IH]; intros w; cbn; [by intros [_ <-]%ret_Ok|].
  intros ([] & w1 & H1 & H)%bind_Ok. destruct (IH _ H) as [-> ->].
  unfold linkMessage in H1. apply exec_Ok in H1 as (_ & H1 & _). destruct (_ && _); by injection H1 as <-.
Qed.

(** C5: StoreMessages on MySQL keeps the same contract as on sqlite, on however
    many runs: when it succeeds, each result is the one the messages of the
    call merge to, in their order, and the invariant of the tables holds on,
    so a message is pending, in the partition of its destination, exactly
    while it has no result.  For this the messages have ids, are addressed to
    whom other messages with the id are, and fit into the columns. *)
Theorem my_store_messages_spec toServer msgs contact w u w' k :
  Forall (addressed toServer) msgs -> MessageID.valid (MessageID.Mk k) ->
  StoreMessages msgs contact w = (Ok u, w') ->
  (myWf toServer (w_data w) -> myWf toServer (w_data w')) /\
  myStatusOf (w_data w') k = mergeAll (MessageID.Mk k) (myStatusOf (w_data w) k) msgs.
Proof using EO.
  intros Hm Hk (n & w1 & H & ->)%inTx_Ok. apply bind_Ok in H as (ids & w2 & H1 & H).
  destruct (storeAll_touches toServer msgs _ ids w2 k Hm Hk H1) as [Hwf Hst].
  destruct (String.eqb contact ""); [by apply ret_Ok in H as [_ <-]|].
  destruct (Hex.ParseUint16 contact) as [c| |]; [|by inv_run..].
  apply links_only in H as [Ht Hp]. split.
  - intros Hw. destruct (Hwf Hw) as [H2 H3]. split; rewrite ?Ht, ?Hp; done.
  - unfold myStatusOf in *. by rewrite Ht.
Qed.

Lemma GetMessageResult_status id k w r w' : MessageID.Bytes id = Some k ->
  GetMessageResult id w = (Ok r, w') ->
  w_data w' = w_data w /\ r = match myStatusOf (w_data w) k with Absent => None | Present res => res end.
Proof using Type.
  intros Hk (n & w1 & H & ->)%inTx_Ok. apply bind_Ok in H as (e & w2 & H1 & H). rewrite Hk in H1.
  unfold try, queryRow, at_ in H1. cbn in H1. destruct (sqlFault n) as [e0|]; [by injection H1 as <- <-|].
  unfold myStatusOf. destruct (tMessages (w_data w) !! k); injection H1 as <- <-; cbn in H; by apply ret_Ok in H as [<- <-].
Qed.
End Storing.

(** ** Claims *)

Section Claims.
Context `{P : Platform} {HP : PlatformOK P} `{L : ProtoLib} `{E : MySqlEngine}.

Definition mySvc (m : myMessage) : string := rDestinationServiceName (mRow m).

Lemma myMessageProto_dest dbm m :
  toMessageProto dbm = Ok m -> Address.ServiceName <$> Message.Destination m = Some (mySvc dbm).
Proof using Type.
  unfold toMessageProto. intros H. repeat (apply outcome_bind_Ok in H as (? & _ & H)). by injection H as <-.
Qed.

(** The part of [msgByID] for one service. *)
Definition ofService (svc : string) (msgByID : gmap string myMessage) : gmap string myMessage :=
  filter (fun kd => mySvc kd.2 = svc) msgByID.

Lemma ofService_insert svc k d (m : gmap string myMessage) :
  size (ofService svc (<[k := d]> m)) <= size (ofService svc m) + (if decide (mySvc d = svc) then 1 else 0).
Proof using Type.
  unfold ofService. case_decide as Hd.
  - rewrite map_filter_insert_True, map_size_insert by done. destruct (_ !! k); cbn; lia.
  - rewrite map_filter_insert_False by done.
    assert (Hs : filter (fun kd : string * myMessage => mySvc kd.2 = svc) (delete k m) ⊆ filter (fun kd => mySvc kd.2 = svc) m).
    { apply map_subseteq_spec. intros j x [Hj Hx]%map_lookup_filter_Some. apply map_lookup_filter_Some.
      by apply lookup_delete_Some in Hj as [_ Hj]. }
    apply map_subseteq_size in Hs. lia.
Qed.

(** What the loop over the rows leaves in msgByID: rows, and of a service no
    more than its limit. *)
Lemma readRows_in sl rows msgByID read :
  (forall k d, msgByID !! k = Some d -> mMessageID d = Some k) ->
  Forall (fun d => is_Some (mMessageID d)) rows ->
  forall k d, fst (readRows sl rows msgByID read) !! k = Some d ->
    mMessageID d = Some k /\ (d ∈ rows \/ msgByID !! k = Some d).
Proof using Type.
  revert msgByID read. induction rows as [|x rows IH]; intros msgByID read Hm Hrows k d; cbn; [by auto|].
  apply Forall_cons in Hrows as [[kx Hx] Hrows]. rewrite Hx. cbn.
  assert (Hadd : forall k d, <[kx := x]> msgByID !! k = Some d -> mMessageID d = Some k /\ (d = x \/ msgByID !! k = Some d)).
  { intros k' d'. rewrite lookup_insert. case_decide; [intros [= <-]; subst; by auto|by auto]. }
  assert (Hsame : fst (readRows sl rows msgByID read) !! k = Some d -> mMessageID d = Some k /\ (d ∈ x :: rows \/ msgByID !! k = Some d)).
  { intros Hd. destruct (IH msgByID read Hm Hrows k d Hd) as [? [?|?]]; split; auto. left. by apply list_elem_of_further. }
  assert (Hmore : forall read', fst (readRows sl rows (<[kx := x]> msgByID) read') !! k = Some d ->
    mMessageID d = Some k /\ (d ∈ x :: rows \/ msgByID !! k = Some d)).
  { intros read' Hd. destruct (IH (<[kx := x]> msgByID) read' ltac:(by intros ? ? [? _]%Hadd) Hrows k d Hd) as [Hk [?|Hin]];
      (split; [done|]); [left; by apply list_elem_of_further|].
    apply Hadd in Hin as [_ [->|?]]; [left; apply list_elem_of_here|by right]. }
  destruct sl as [s|]; [|apply Hmore]. destruct (_ <=? _)%Z; [apply Hsame|apply Hmore].
Qed.

Lemma readRows_count s rows msgByID read :
  (forall svc, limitOf s svc <= u64_max)%Z -> (forall svc, 0 <= default 0 (read !! svc))%Z ->
  let '(m, r) := readRows (Some s) rows msgByID read in
  forall svc,
    (Z.of_nat (size (ofService svc m)) - Z.of_nat (size (ofService svc msgByID)) <= default 0 (r !! svc) - default 0 (read !! svc))%Z /\
    (default 0 (r !! svc) <= Z.max (default 0 (read !! svc)) (limitOf s svc))%Z.
Proof using Type.
  intros Hs. revert msgByID read. induction rows as [|d rows IH]; intros msgByID read Hread; cbn; [lia|].
  set (svc := rDestinationServiceName (mRow d)). set (add := <[contents (mMessageID d) := d]> msgByID).
  destruct (Z.leb_spec (default 0%Z (s !! svc)) (default 0%Z (read !! svc))) as [Hfull|Hfree]; [by apply IH|].
  assert (Hw : (wrapU64 (default 0 (read !! svc) + 1) = default 0 (read !! svc) + 1)%Z).
  { apply wrapU64_small. specialize (Hs svc). unfold limitOf in Hs. specialize (Hread svc). unfold isU64, u64_max in *. lia. }
  rewrite Hw. set (read' := <[svc := (default 0 (read !! svc) + 1)%Z]> read).
  assert (Hr' : forall v, default 0%Z (read' !! v) = (default 0 (read !! v) + (if decide (svc = v) then 1 else 0))%Z).
  { intros v. unfold read'. rewrite lookup_insert. case_decide; subst; cbn; lia. }
  assert (Hread' : forall v, (0 <= default 0 (read' !! v))%Z).
  { intros v. rewrite Hr'. specialize (Hread v). case_decide; lia. }
  specialize (IH add read' Hread'). destruct (readRows (Some s) rows add read') as [m r].
  intros v. destruct (IH v) as [H1 H2]. rewrite !Hr' in *.
  pose proof (ofService_insert v (contents (mMessageID d)) d msgByID) as H3. fold add in H3.
  unfold limitOf, mySvc in *. fold svc in H3. split; repeat case_decide; subst; lia.
Qed.

Lemma onTables_query {V R} (f : Tables -> outcome (list R)) (w : World (Tables * V)) rs w' :
  onTables (query f) w = (Ok rs, w') ->
  exists l, f (fst (w_data w)) = Ok l /\ rs = deliver (w_step w) R l /\ w_data w' = w_data w.
Proof using Type.
  intros (w1 & (_ & (l & Hl & ->) & ->)%query_Ok & ->)%onPart_Ok. cbn in *. exists l. split; [done|]. split; [done|].
  by destruct (w_data w).
Qed.

Lemma onTables_exec {V} (f : Tables -> outcome Tables) (w : World (Tables * V)) u w' :
  onTables (exec f) w = (Ok u, w') -> exists t, f (fst (w_data w)) = Ok t /\ w_data w' = (t, snd (w_data w)).
Proof using Type. intros (w1 & (_ & Hf & _)%exec_Ok & ->)%onPart_Ok. cbn in *. by eauto. Qed.

Lemma elem_of_dueRows_my cid n t d :
  d ∈ dueRows cid n t -> exists fs k r p, tPending t !! (fs, k) = Some p /\ tMessages t !! k = Some r /\
    is_Some cid /\ rDestinationClientID r = cid /\ (scheduled_time p < n)%Z /\
    d = mkMyMessage (Some k) (setResult None None None None r) (retry_count p) (data_type_url p) (data_value p).
Proof using Type.
  unfold dueRows. intros ([[fs k] p] & Hp%elem_of_map_to_list & H)%list_elem_of_omap.
  destruct (tMessages t !! k) as [r|] eqn:Hr; [|done]. case_decide as Hd; [|done]. injection H as <-.
  destruct Hd as (? & ? & ?). exists fs, k, r, p. by split_and!.
Qed.

(** A message that a client transaction may take. *)
Definition claimable (id : ClientID.t) (now : Z) (t : Tables) (k : string) (m : Message.t) : Prop :=
  exists d, d ∈ dueRows (ClientID.Bytes id) now t /\ mMessageID d = Some k /\ toMessageProto d = Ok m.

Lemma lockRows_Ok msgByID lim w ids w' :
  lockRows msgByID lim w = (Ok ids, w') ->
  w_data w' = w_data w /\ NoDup ids /\ length ids <= Z.to_nat lim /\
  Forall (fun k => is_Some (msgByID !! k) /\ is_Some (tPending (fst (w_data w)) !! (false, k))) ids.
Proof using HP.
  unfold lockRows. intros (l & w1 & (rows & [= <-] & -> & Hd)%onTables_query & [<- <-]%ret_Ok)%bind_Ok.
  split; [done|]. set (rows := filter _ _).
  assert (Hp : deliver (w_step w) string rows ≡ₚ rows) by apply deliver_perm.
  assert (Hnd : NoDup rows) by (apply NoDup_filter, NoDup_fst_map_to_list).
  split. { apply (sublist_NoDup _ (deliver (w_step w) string rows)); [by rewrite Hp|apply sublist_take]. }
  split; [rewrite length_take; lia|]. apply Forall_take. rewrite Hp. apply Forall_forall. intros k [Hk Hin]%list_elem_of_filter.
  split; [|done]. apply list_elem_of_fmap in Hin as ([k' d] & -> & Hin%elem_of_map_to_list). by exists d.
Qed.

Lemma reschedule_nil due t : reschedule due [] t = t.
Proof using Type.
  destruct t as [ms ps cs ls]. unfold reschedule, setTPending. cbn. f_equal. apply map_eq. intros [fs k].
  rewrite map_lookup_imap. destruct (ps !! (fs, k)) as [p|]; [|done]. cbn. rewrite decide_False; [done|].
  intros [_ H]. by apply not_elem_of_nil in H.
Qed.

Definition converts (msgByID : gmap string myMessage) (k : string) (m : Message.t) : Prop :=
  exists d, msgByID !! k = Some d /\ toMessageProto d = Ok m.

Lemma countTo_claimed svc msgByID ids ms :
  NoDup ids -> Forall2 (converts msgByID) ids ms -> (countTo svc ms <= Z.of_nat (size (ofService svc msgByID)))%Z.
Proof using Type.
  intros Hnd Hf.
  assert (Hk : exists ks, ks `sublist_of` ids /\ Z.of_nat (length ks) = countTo svc ms /\
                Forall (fun k => k ∈ dom (ofService svc msgByID)) ks).
  { clear Hnd. induction Hf as [|k m ids ms (d & Hd & Hm) Hf IH]; [by exists []|].
    destruct IH as (ks & H1 & H2 & H3). apply myMessageProto_dest in Hm. unfold countTo in *.
    rewrite filter_cons, Hm. destruct (decide (Some (mySvc d) = Some svc)) as [[= He]|].
    - exists (k :: ks). split; [by constructor|]. cbn. split; [lia|]. constructor; [|done].
      apply elem_of_dom. exists d. by apply map_lookup_filter_Some.
    - exists ks. split; [by constructor|done]. }
  destruct Hk as (ks & H1 & <- & H3).
  rewrite <- (size_list_to_set (C := gset string) ks) by (by eapply sublist_NoDup).
  rewrite <- size_dom. apply inj_le, subseteq_size. intros k Hk%elem_of_list_to_set.
  by eapply Forall_forall in H3.
Qed.

Abbreviation ClientVars := (list Message.t * gmap string Z)%type.

(** What one run takes: rows that are due and pending, each once, at most [lim],
    and their messages, in the same order. *)
Definition takes (id : ClientID.t) (lim : Z) (t : Tables) (ids : list string) (ms : list Message.t) : Prop :=
  NoDup ids /\ length ids <= Z.to_nat lim /\
  (exists n, Forall2 (claimable id (toMicro (clock n)) t) ids ms) /\
  Forall (fun k => is_Some (tPending t !! (false, k))) ids.

Lemma takes_nil id lim t : takes id lim t [] [].
Proof using Type. split_and!; [constructor|cbn; lia|by exists 0|constructor]. Qed.

(** How a run that takes [ms] counts rows: each message is counted, and no
    service beyond its limit. *)
Definition counts (sl : option (gmap string Z)) (ms : list Message.t) (read read' : gmap string Z) : Prop :=
  forall s, sl = Some s -> (forall svc, limitOf s svc <= u64_max)%Z -> (forall svc, 0 <= default 0 (read !! svc))%Z ->
  forall svc, (countTo svc ms <= default 0 (read' !! svc) - default 0 (read !! svc))%Z /\
    (default 0 (read' !! svc) <= Z.max (default 0 (read !! svc)) (limitOf s svc))%Z.

Lemma counts_nil sl read : counts sl [] read read.
Proof using Type. intros s _ _ _ svc. unfold countTo. cbn. lia. Qed.

Lemma countTo_app svc a b : countTo svc (a ++ b) = (countTo svc a + countTo svc b)%Z.
Proof using Type. unfold countTo. rewrite filter_app, length_app. lia. Qed.

Lemma countTo_nonneg svc ms : (0 <= countTo svc ms)%Z.
Proof using Type. unfold countTo. lia. Qed.

Lemma counts_app sl a b r0 r1 r2 : counts sl a r0 r1 -> counts sl b r1 r2 -> counts sl (a ++ b) r0 r2.
Proof using Type.
  intros Ha Hb s Hs Hl Hr svc. destruct (Ha s Hs Hl Hr svc) as [A1 A2].
  assert (Hr1 : forall svc, (0 <= default 0 (r1 !! svc))%Z).
  { intros v. destruct (Ha s Hs Hl Hr v) as [H _]. pose proof (countTo_nonneg v a). specialize (Hr v). lia. }
  destruct (Hb s Hs Hl Hr1 svc) as [B1 B2]. rewrite countTo_app. lia.
Qed.

(** What a run, however it ends, leaves in the variables. *)
Definition ran (id : ClientID.t) (lim : Z) (sl : option (gmap string Z)) (t : Tables) (v v' : ClientVars) : Prop :=
  exists ids ms, v'.1 = v.1 ++ ms /\ takes id lim t ids ms /\ counts sl ms v.2 v'.2.

Lemma ran_refl id lim sl t v : ran id lim sl t v v.
Proof using Type. exists [], []. rewrite app_nil_r. split; [done|]. split; [apply takes_nil|apply counts_nil]. Qed.

Lemma readDue_vars id sl w :
  let '(r, w') := readDue id sl w in
  fst (w_data w') = fst (w_data w) /\ (snd (w_data w')).1 = (snd (w_data w)).1 /\
  match r with
  | Ok msgByID => exists n, (forall k d, msgByID !! k = Some d -> mMessageID d = Some k /\
         d ∈ dueRows (ClientID.Bytes id) (toMicro (clock n)) (fst (w_data w))) /\
      forall s, sl = Some s -> (forall svc, limitOf s svc <= u64_max)%Z ->
        (forall svc, 0 <= default 0 ((snd (w_data w)).2 !! svc))%Z -> forall svc,
        (Z.of_nat (size (ofService svc msgByID)) <=
           default 0 ((snd (w_data w')).2 !! svc) - default 0 ((snd (w_data w)).2 !! svc))%Z /\
        (default 0 ((snd (w_data w')).2 !! svc) <= Z.max (default 0 ((snd (w_data w)).2 !! svc)) (limitOf s svc))%Z
  | _ => w_data w' = w_data w
  end.
Proof using HP.
  unfold readDue. unfold mbind at 1, M_bind at 1. unfold now, interact. cbn.
  unfold mbind at 1, M_bind at 1. unfold onTables, onPart, query. cbn.
  destruct (sqlFault (S (w_step w))) as [e|]; cbn; [by destruct (w_data w)|].
  unfold mbind, M_bind, getVars, gets. cbn.
  set (rows := deliver _ _ _).
  assert (Hrows : Forall (fun d => is_Some (mMessageID d)) rows).
  { apply Forall_forall. unfold rows. intros d Hin. rewrite deliver_perm in Hin.
    apply elem_of_dueRows_my in Hin as (? & k & ? & ? & _ & _ & _ & _ & _ & ->). by exists k. }
  pose proof (readRows_in sl rows ∅ ((snd (w_data w)).2) (fun k d Hx => ltac:(by rewrite lookup_empty in Hx)) Hrows) as H1.
  pose proof (fun s => readRows_count s rows ∅ ((snd (w_data w)).2)) as H2.
  destruct (readRows sl rows ∅ _) as [m r] eqn:Er. cbn in *. split; [done|]. split; [done|].
  exists (w_step w). split.
  - intros k d Hkd. destruct (H1 k d Hkd) as [Hk [Hin|Hx]]; [|by rewrite lookup_empty in Hx]. split; [done|].
    unfold rows in Hin. by rewrite deliver_perm in Hin.
  - intros s -> Hs Hread svc. specialize (H2 s Hs Hread). rewrite Er in H2. destruct (H2 svc) as [H3 H4].
    assert (He : size (ofService svc ∅) = 0) by (unfold ofService; by rewrite map_filter_empty).
    rewrite He in H3. lia.
Qed.

(** The loop over the locked rows: it stops at the first that does not convert. *)
Lemma claimLoop_vars msgByID ids (w : World (Tables * ClientVars)) :
  let '(r, w') := forM_ ids (fun k =>
    m ← lift (match msgByID !! k with Some dbm => toMessageProto dbm | None => Crash "nil dbMessage" end);
    vars ← getVars; setVars (vars.1 ++ [m], vars.2)) w in
  exists l1 l2 ms, ids = l1 ++ l2 /\ w_data w' = (fst (w_data w), ((snd (w_data w)).1 ++ ms, (snd (w_data w)).2)) /\
    Forall2 (converts msgByID) l1 ms /\ (isOk r = true -> l2 = []).
Proof using Type.
  revert w. induction ids as [|k ids IH]; intros w; cbn.
  { exists [], [], []. rewrite !app_nil_r. split; [done|]. split; [by destruct (w_data w) as [? []]|]. by split; [constructor|]. }
  unfold mbind at 1, M_bind at 1. unfold mbind at 1, M_bind at 1. unfold lift at 1.
  destruct (match msgByID !! k with Some dbm => toMessageProto dbm | None => Crash "nil dbMessage" end) as [m|e|c] eqn:Hm;
    try (exists [], (k :: ids), []; rewrite app_nil_r; split; [done|]; split; [by destruct (w_data w) as [? []]|]; by split; [constructor|]).
  unfold mbind at 1, M_bind at 1. unfold getVars, gets, setVars. cbn.
  specialize (IH (mkWorld (fst (w_data w), ((snd (w_data w)).1 ++ [m], (snd (w_data w)).2)) (w_step w))).
  unfold getVars, gets, setVars, mbind, M_bind in IH |- *. destruct (forM_ _ _ _) as [r w'].
  destruct IH as (l1 & l2 & ms & -> & Hd & Hf & Hok). cbn in Hd. exists (k :: l1), l2, (m :: ms).
  split; [done|]. rewrite Hd, <- app_assoc. split; [done|]. split; [|done]. constructor; [|done].
  destruct (msgByID !! k) as [d|] eqn:Hk; [|done]. by exists d.
Qed.

Lemma lockRows_data msgByID lim (w : World (Tables * ClientVars)) : w_data (snd (lockRows msgByID lim w)) = w_data w.
Proof using Type.
  unfold lockRows, mbind, M_bind, onTables, onPart, query. destruct (w_data w). cbn. by destruct (sqlFault _).
Qed.

(** One run of the transaction, from whatever earlier runs have left in its
    variables: what it takes, and, if it does not fail, what it does to the rows
    of the messages it has taken. *)
Lemma clientTx_run id lim sl w :
  let '(r, w') := clientTx id lim sl w in
  exists ids ms, (snd (w_data w')).1 = (snd (w_data w)).1 ++ ms /\
    takes id lim (fst (w_data w)) ids ms /\ counts sl ms (snd (w_data w)).2 (snd (w_data w')).2 /\
    (isOk r = true -> exists due, fst (w_data w') = reschedule due ids (fst (w_data w)) /\
       (ids = [] \/ exists n', due = toMicro (clock n' + 15 * Minute))).
Proof using HP.
  pose proof (readDue_vars id sl w) as Hread. unfold clientTx. unfold mbind at 1, M_bind at 1.
  assert (Hnone : forall w', fst (w_data w') = fst (w_data w) -> (snd (w_data w')).1 = (snd (w_data w)).1 ->
    counts sl [] (snd (w_data w)).2 (snd (w_data w')).2 -> exists ids ms, (snd (w_data w')).1 = (snd (w_data w)).1 ++ ms /\
    takes id lim (fst (w_data w)) ids ms /\ counts sl ms (snd (w_data w)).2 (snd (w_data w')).2 /\
    exists due, fst (w_data w') = reschedule due ids (fst (w_data w)) /\ (ids = [] \/ exists n', due = toMicro (clock n' + 15 * Minute))).
  { intros w' Ht Hv Hc. exists [], []. rewrite app_nil_r. split; [done|]. split; [apply takes_nil|]. split; [done|].
    exists 0%Z. rewrite reschedule_nil. by auto. }
  destruct (readDue id sl w) as [[msgByID|e|c] w1].
  2, 3: destruct Hread as (_ & _ & Hd); destruct (Hnone w1 ltac:(by rewrite Hd) ltac:(by rewrite Hd) ltac:(rewrite Hd; apply counts_nil)) as (ids & ms & H1 & H2 & H3 & _); by exists ids, ms.
  destruct Hread as (Ht1 & Hv1 & n & Hm & Hlim).
  assert (Hc0 : counts sl [] (snd (w_data w)).2 (snd (w_data w1)).2).
  { intros s Hs Hl Hr svc. destruct (Hlim s Hs Hl Hr svc). unfold countTo. cbn. lia. }
  case_decide as Hne; [destruct (Hnone w1 Ht1 Hv1 Hc0) as (ids & ms & H1 & H2 & H3 & H4); by exists ids, ms|].
  unfold claimRows. unfold mbind at 1, M_bind at 1.
  pose proof (lockRows_data msgByID lim w1) as Hd2.
  destruct (lockRows msgByID lim w1) as [[ids|e|c] w2] eqn:El; cbn in Hd2.
  2, 3: destruct (Hnone w2 ltac:(by rewrite Hd2) ltac:(by rewrite Hd2) ltac:(by rewrite Hd2)) as (ids & ms & H1 & H2 & H3 & _); by exists ids, ms.
  apply lockRows_Ok in El as (_ & Hnd & Hlen & Hin). rewrite Ht1 in Hin.
  unfold mbind at 1, M_bind at 1. pose proof (claimLoop_vars msgByID ids w2) as Hloop.
  destruct (forM_ ids _ w2) as [r3 w3].
  destruct Hloop as (l1 & l2 & ms & -> & Hd3 & Hf & Hok). rewrite Hd2, Ht1, Hv1 in Hd3.
  apply NoDup_app in Hnd as (Hnd & _ & _). apply Forall_app in Hin as [Hin _]. rewrite length_app in Hlen.
  assert (Htake : takes id lim (fst (w_data w)) l1 ms).
  { split; [done|]. split; [lia|]. split; [|by eapply Forall_impl; [exact Hin|intros k [_ ?]]].
    exists n. eapply Forall2_impl; [exact Hf|]. intros k m (d & Hk & Hconv). destruct (Hm k d Hk) as [? ?]. by exists d. }
  assert (Hcount : counts sl ms (snd (w_data w)).2 (snd (w_data w1)).2).
  { intros s Hs Hl Hr svc. destruct (Hlim s Hs Hl Hr svc).
    pose proof (countTo_claimed svc msgByID l1 ms Hnd Hf). lia. }
  assert (Hgo : forall w' : World (Tables * ClientVars), snd (w_data w') = snd (w_data w3) -> exists ids ms, (snd (w_data w')).1 = (snd (w_data w)).1 ++ ms /\
    takes id lim (fst (w_data w)) ids ms /\ counts sl ms (snd (w_data w)).2 (snd (w_data w')).2 /\ ids = l1).
  { intros w' ->. rewrite Hd3. cbn. exists l1, ms. done. }
  destruct r3 as [[]|e|c]; [|destruct (Hgo w3 eq_refl) as (ids & ms' & H1 & H2 & H3 & _); by exists ids, ms'..].
  rewrite (Hok eq_refl), app_nil_r in *. clear Hok Hgo.
  unfold mbind at 1, M_bind at 1. unfold getVars, gets. rewrite Hd3. cbn [fst snd].
  case_decide as Hres.
  - cbn. rewrite Hd3. cbn. apply app_nil in Hres as [Hv ->]. apply Forall2_nil_inv_r in Hf as ->.
    exists [], []. rewrite app_nil_r. split; [done|]. split; [apply takes_nil|]. split; [done|].
    intros _. exists 0%Z. rewrite reschedule_nil. by auto.
  - unfold ClientRetryTime, now, interact, onTables, onPart, exec, mbind, M_bind. cbn. rewrite Hd3. cbn.
    assert (Hkeep : forall w', snd (w_data w') = ((snd (w_data w)).1 ++ ms, (snd (w_data w1)).2) ->
      (snd (w_data w')).1 = (snd (w_data w)).1 ++ ms /\ counts sl ms (snd (w_data w)).2 (snd (w_data w' : Tables * ClientVars)).2).
    { by intros w' ->. }
    destruct (sqlFault (S (w_step w3))) as [e|]; cbn; [by exists l1, ms|].
    case_decide as Hids; cbn; [by exists l1, ms|].
    exists l1, ms. split; [done|]. split; [done|]. split; [done|]. intros _.
    eexists. split; [done|]. right. by eexists.
Qed.

Lemma ran_runOnce id lim sl w :
  let '(r, w') := runOnce (clientTx id lim sl) w in ran id lim sl (fst (w_data w)) (snd (w_data w)) (snd (w_data w')).
Proof using HP.
  unfold runOnce. destruct (sqlFault (w_step w)); [apply ran_refl|].
  pose proof (clientTx_run id lim sl (mkWorld (w_data w) (S (w_step w)))) as Hr. cbn [w_data] in Hr.
  destruct (clientTx id lim sl _) as [[u|e|c] w1]; destruct Hr as (ids & ms & H1 & H2 & H3 & _); [|by exists ids, ms..].
  destruct (sqlFault (w_step w1)); [destruct (_ && _)|]; by exists ids, ms.
Qed.

(** The runs that have failed on a lock, one after the other: what each took. *)
Lemma again_ran id lim sl k w w0 :
  again (clientTx id lim sl) k w w0 ->
  exists runs, length runs = k /\ (snd (w_data w0)).1 = (snd (w_data w)).1 ++ concat runs /\
    Forall (fun ms => exists ids, takes id lim (fst (w_data w)) ids ms) runs /\
    counts sl (concat runs) (snd (w_data w)).2 (snd (w_data w0)).2.
Proof using HP.
  induction 1 as [w|k w w1 w2 e H He Hctx Ha IH].
  { exists []. rewrite app_nil_r. split_and!; [done|done|constructor|apply counts_nil]. }
  pose proof (again_tables _ _ _ _ (again_next _ _ _ _ _ _ H He Hctx (again_first _ _))) as Ht. cbn in Ht.
  pose proof (ran_runOnce id lim sl w) as Hr. rewrite H in Hr. destruct Hr as (ids & ms & Hv & Htk & Hc).
  destruct IH as (runs & Hl & Hv2 & Hf & Hc2). cbn in *. rewrite Ht in Hf.
  exists (ms :: runs). split; [cbn; lia|]. cbn. rewrite Hv2, Hv, app_assoc. split; [done|].
  split; [constructor; [by exists ids|done]|]. by eapply counts_app.
Qed.

(** C6: what a client is given on MySQL.  The transaction was run [k] times in
    vain, each run having failed on a lock, and once with success.  That run
    claimed messages: each is addressed to the client and was due, each comes
    once, there are at most [lim] of them; their pending rows, and no others,
    are counted once more and put off for 15 minutes, and nothing else has
    changed.  The response has, in front of what was claimed, what each of the
    [k] runs had taken, in their order: also messages that were due for the
    client, at most [lim] for a run, each once in it, whose rows are not put
    off for that run.  Over all runs together no service is given more than its
    limit. *)
Theorem my_client_messages_spec id lim sl w msgs w' :
  ClientMessagesForProcessing id lim sl w = (Ok msgs, w') ->
  id <> ClientID.nil /\ exists k w0 w1 runs claimed ids due,
    again (clientTx id lim sl) k (mkWorld (w_data w, ([], ∅)) (w_step w)) w0 /\
    runOnce (clientTx id lim sl) w0 = (Ok tt, w1) /\ k < 50 /\
    msgs = concat runs ++ claimed /\ length runs = k /\
    Forall (fun ms => exists ids, takes id lim (w_data w) ids ms) runs /\
    takes id lim (w_data w) ids claimed /\ w_data w' = reschedule due ids (w_data w) /\
    (ids = [] \/ exists n', due = toMicro (clock n' + 15 * Minute)) /\
    (forall s, sl = Some s -> (forall svc, 0 <= limitOf s svc <= u64_max)%Z ->
       forall svc, (countTo svc msgs <= limitOf s svc)%Z).
Proof using HP.
  unfold ClientMessagesForProcessing. case_decide as Hid; [by intros ?%fail_Ok|].
  intros ([u vars] & w1 & H & [<- <-]%ret_Ok)%bind_Ok. split; [done|]. unfold withVars in H.
  pose proof (run_in_tx_spec (clientTx id lim sl) (mkWorld (w_data w, ([], ∅)) (w_step w))) as Hr.
  destruct (runInTx _ _) as [[[]|e|c] w2]; [|done..]. injection H as _ <- <-.
  destruct Hr as (k & w0 & w3 & Hk & Ha & Ht & Honce & Hd & _ & w4 & Hrun & Hd4). cbn in Ht.
  destruct (again_ran _ _ _ _ _ _ Ha) as (runs & Hl & Hv & Hruns & Hc). cbn in Hv, Hruns, Hc.
  pose proof (clientTx_run id lim sl (mkWorld (w_data w0) (S (w_step w0)))) as Hlast. rewrite Hrun in Hlast.
  destruct Hlast as (ids & ms & Hv4 & Htk & Hc4 & Hok). cbn in Hv4, Htk, Hc4. destruct (Hok eq_refl) as (due & Htb & Hdue).
  cbn in Htb. rewrite Ht in Htb, Htk. rewrite Hd4. cbn [fst snd w_data].
  assert (Hmsgs : (snd (w_data w4)).1 = concat runs ++ ms) by (etrans; [exact Hv4|]; by rewrite Hv).
  exists k, w0, w3, runs, ms, ids, due. do 9 (split; [done|]). rewrite Hmsgs.
  intros s Hs Hlim svc.
  pose proof (counts_app _ _ _ _ _ _ Hc Hc4 s Hs (fun svc => proj2 (Hlim svc)) (fun svc => ltac:(rewrite lookup_empty; cbn; lia)) svc) as [H1 H2].
  rewrite lookup_empty in H1, H2. cbn in H1, H2. specialize (Hlim svc). lia.
Qed.

(** *** The server's messages *)
Definition keyOf (d : myMessage) : gobytes := mMessageID d.

Lemma elem_of_serverRows range n t k p :
  (k, p) ∈ serverRows range n t <-> tPending t !! (true, k) = Some p /\ range k = true /\ (scheduled_time p < n)%Z.
Proof using Type.
  unfold serverRows. rewrite list_elem_of_omap. split.
  - intros ([[[] k'] p'] & Hp%elem_of_map_to_list & H); cbn in H; [|done].
    destruct (range k') eqn:Hr; cbn in H; [|done]. destruct (Z.ltb_spec (scheduled_time p') n); [|done]. by injection H as <- <-.
  - intros (Hp & Hr & Hs). exists ((true, k), p). split; [by apply elem_of_map_to_list|]. cbn. rewrite Hr. cbn.
    by rewrite (proj2 (Z.ltb_lt _ _)) by lia.
Qed.

Lemma serverRows_NoDup range n t : NoDup (serverRows range n t).*1.
Proof using Type.
  unfold serverRows. pose proof (NoDup_fst_map_to_list (tPending t)) as H. revert H.
  induction (map_to_list (tPending t)) as [|[[fs k] p] l IH]; cbn; [constructor|].
  intros [Hn Hnd]%NoDup_cons. destruct (fs && range k && (scheduled_time p <? n)%Z) eqn:Hc; [|by apply IH].
  cbn. apply NoDup_cons. split; [|by apply IH]. apply andb_true_iff in Hc as [[-> _]%andb_true_iff _].
  intros ([k' p'] & -> & Hin)%list_elem_of_fmap. apply Hn. apply list_elem_of_fmap.
  apply list_elem_of_omap in Hin as ([[fs' k''] p''] & Hin & Hx). destruct (fs' && _ && _) eqn:Hc'; [|done].
  injection Hx as -> ->. apply andb_true_iff in Hc' as [[-> _]%andb_true_iff _]. by exists ((true, k'), p').
Qed.

(** The rows of one read, in the order of their keys. *)
Definition readIn (range : string -> bool) (t : Tables) (n : nat) (rows : list (string * pendingRow)) : Prop :=
  Sorted keyLe rows /\ rows ≡ₚ serverRows range (toMicro (clock n)) t.

Lemma readPending_Ok range l (w : World (Tables * list myMessage)) u w' :
  readPending range l w = (Ok u, w') ->
  exists n rows, readIn range (fst (w_data w)) n rows /\
    w_data w' = (fst (w_data w), snd (w_data w) ++ (pendingMessage <$> take (Z.to_nat l) rows)).
Proof using HP.
  unfold readPending. intros (t & w1 & H1 & H)%bind_Ok. unfold now in H1. apply interact_Ok in H1 as [[= <-] ->].
  apply bind_Ok in H as (rows & w2 & (l0 & [= <-] & -> & Hd)%onTables_query & H). cbn in Hd.
  apply bind_Ok in H as (dbms & w3 & [<- <-]%gets_Ok & [= <- <-]). cbn. rewrite Hd.
  eexists (w_step w), _. split; [|done]. split; [|by rewrite merge_sort_Permutation, deliver_perm].
  apply (Sorted_merge_sort keyLe).
Qed.

(** The rows a run claims: from [start] on, and around. *)
Definition around (start : string) (t : Tables) (lim : Z) (taken : list (string * pendingRow)) : Prop :=
  exists n1 n2 a b, readIn (fun k => strLt start k) t n1 a /\ readIn (fun k => strLt k start) t n2 b /\
    taken = take (Z.to_nat lim) (a ++ b).

Definition postponed (p p' : pendingRow) : Prop :=
  retry_count p' = wrapU32 (retry_count p + 1) /\ data_type_url p' = data_type_url p /\ data_value p' = data_value p /\
  exists n n', scheduled_time p' = toMicro (clock n + serverRetryDelay n' (retry_count p')).

Lemma rescheduleAll_Ok dbms (w : World (Tables * list myMessage)) u w' :
  forM_ dbms rescheduleServer w = (Ok u, w') ->
  snd (w_data w') = snd (w_data w) /\ tMessages (fst (w_data w')) = tMessages (fst (w_data w)) /\
  (forall fs k, fs = false \/ Some k ∉ keyOf <$> dbms -> tPending (fst (w_data w')) !! (fs, k) = tPending (fst (w_data w)) !! (fs, k)) /\
  (NoDup (keyOf <$> dbms) -> forall d k p, d ∈ dbms -> mMessageID d = Some k -> tPending (fst (w_data w)) !! (true, k) = Some p ->
     mRetryCount d = retry_count p -> exists p', tPending (fst (w_data w')) !! (true, k) = Some p' /\ postponed p p').
Proof using Type.
  revert w. induction dbms as [|x dbms IH]; intros w; cbn.
  { intros [_ <-]%ret_Ok. split_and!; try done. intros _ d k p Hd. by apply not_elem_of_nil in Hd. }
  intros ([] & w1 & H1 & H)%bind_Ok. destruct (IH _ H) as (I1 & I2 & I3 & I4). clear IH H.
  unfold rescheduleServer in H1. apply bind_Ok in H1 as (t & w2 & Ht & (tb & [= <-] & Hd)%onTables_exec).
  assert (Hw2 : w_data w2 = w_data w /\ exists n n', t = (clock n + serverRetryDelay n' (wrapU32 (mRetryCount x + 1)))%Z).
  { unfold ServerRetryTime, now in Ht. apply bind_Ok in Ht as (dl & w3 & [[= <-] ->]%interact_Ok & Ht).
    apply bind_Ok in Ht as (t0 & w4 & [[= <-] ->]%interact_Ok & [<- <-]%ret_Ok). cbn. split; [done|]. by do 2 eexists. }
  destruct Hw2 as [Hw2 (n & n' & ->)]. rewrite Hw2 in Hd. clear Ht.
  assert (Hx : forall fs k, tPending (fst (w_data w1)) !! (fs, k) = if decide (fs = true /\ Some k = mMessageID x)
     then setSchedule (wrapU32 (mRetryCount x + 1)) (toMicro (clock n + serverRetryDelay n' (wrapU32 (mRetryCount x + 1)))) <$> tPending (fst (w_data w)) !! (fs, k)
     else tPending (fst (w_data w)) !! (fs, k)).
  { intros fs k. rewrite Hd. cbn. destruct (mMessageID x) as [kx|]; [|by rewrite decide_False by naive_solver]. cbn.
    rewrite lookup_alter. repeat case_decide; naive_solver. }
  split; [by rewrite I1, Hd|]. split. { rewrite I2, Hd. cbn. by destruct (mMessageID x). }
  split.
  - intros fs k Hk. rewrite I3, Hx, decide_False; [done| |].
    + intros [-> Hkx]. destruct Hk as [?|Hk]; [done|]. apply Hk. rewrite Hkx. apply list_elem_of_here.
    + destruct Hk as [?|Hk]; [by left|right]. intros Hin. apply Hk. by apply list_elem_of_further.
  - intros [Hn Hnd]%NoDup_cons d k p [->|Hin]%elem_of_cons Hk Hp Hr.
    + rewrite I3 by (right; unfold keyOf at 1 in Hn; by rewrite Hk in Hn).
      rewrite Hx, decide_True, Hp by done. cbn. eexists. split; [done|]. unfold postponed, setSchedule. cbn. rewrite Hr. by eauto 10.
    + apply (I4 Hnd d k p Hin Hk); [|done]. rewrite Hx, decide_False; [done|]. intros [_ Hkx]. apply Hn.
      unfold keyOf at 1. rewrite <- Hkx, <- Hk. by apply list_elem_of_fmap_2.
Qed.

Lemma around_rows start t lim taken k p :
  around start t lim taken -> (k, p) ∈ taken -> tPending t !! (true, k) = Some p /\ k <> start.
Proof using Type.
  intros (n1 & n2 & a & b & [_ Ha] & [_ Hb] & ->) Hin.
  assert (H : (k, p) ∈ a ++ b) by (eapply elem_of_sublist; [exact Hin|apply sublist_take]).
  unfold strLt in *. apply elem_of_app in H as [H|H].
  - rewrite Ha in H. apply elem_of_serverRows in H as (? & [_ Hne]%andb_true_iff & _). split; [done|].
    intros ->. by rewrite String.eqb_refl in Hne.
  - rewrite Hb in H. apply elem_of_serverRows in H as (? & [_ Hne]%andb_true_iff & _). split; [done|].
    intros ->. by rewrite String.eqb_refl in Hne.
Qed.

Lemma around_NoDup start t lim taken : around start t lim taken -> NoDup taken.*1.
Proof using Type.
  intros (n1 & n2 & a & b & [_ Ha] & [_ Hb] & ->). rewrite fmap_take. eapply sublist_NoDup; [|apply sublist_take].
  rewrite fmap_app. apply NoDup_app. split; [rewrite Ha; apply serverRows_NoDup|]. split; [|rewrite Hb; apply serverRows_NoDup].
  intros k ([k1 p1] & -> & H1)%list_elem_of_fmap ([k2 p2] & He & H2)%list_elem_of_fmap. cbn in He. subst k2.
  rewrite Ha in H1. rewrite Hb in H2. apply elem_of_serverRows in H1 as (_ & H1 & _). apply elem_of_serverRows in H2 as (_ & H2 & _).
  unfold strLt in *. apply andb_true_iff in H1 as [H1%bool_decide_eq_true Hn]. apply andb_true_iff in H2 as [H2%bool_decide_eq_true _].
  apply negb_true_iff, String.eqb_neq in Hn. by apply Hn, (anti_symm strLe).
Qed.

Lemma around_length start t lim taken :
  around start t lim taken -> length taken <= size (filter (fun kp : bool * string * pendingRow => kp.1.1 = true) (tPending t)).
Proof using Type.
  intros Har. rewrite <- (length_fmap fst), <- (length_fmap (pair true)).
  rewrite <- (size_list_to_set (C := gset (bool * string))).
  - rewrite <- size_dom. apply subseteq_size. intros x (k & -> & ([k' p] & -> & Hin)%list_elem_of_fmap)%elem_of_list_to_set%list_elem_of_fmap.
    destruct (around_rows _ _ _ _ _ _ Har Hin) as [Hp _]. apply elem_of_dom. exists p. by apply map_lookup_filter_Some.
  - apply NoDup_fmap_2; [by intros ?? [=]|by eapply around_NoDup].
Qed.

(** One run of the server's transaction with nothing before it. *)
Lemma serverTx_Ok lim (w : World (Tables * list myMessage)) u w' :
  snd (w_data w) = [] -> serverTx lim w = (Ok u, w') ->
  exists n taken, around (Hex.EncodeToString (mathRand n 2)) (fst (w_data w)) lim taken /\
    snd (w_data w') = pendingMessage <$> taken /\ tMessages (fst (w_data w')) = tMessages (fst (w_data w)) /\
    (forall fs k, fs = false \/ k ∉ taken.*1 -> tPending (fst (w_data w')) !! (fs, k) = tPending (fst (w_data w)) !! (fs, k)) /\
    (forall k p, (k, p) ∈ taken -> exists p', tPending (fst (w_data w')) !! (true, k) = Some p' /\ postponed p p').
Proof using HP.
  intros Hv. unfold serverTx. intros (start & w1 & [[= <-] ->]%interact_Ok & H)%bind_Ok.
  set (start := Hex.EncodeToString _) in H |- *. apply bind_Ok in H as ([] & w2 & H1 & H).
  apply readPending_Ok in H1 as (n1 & a & Ha & Hd2). cbn in Ha, Hd2. rewrite Hv in Hd2. cbn in Hd2.
  apply bind_Ok in H as (dbms & w3 & [<- <-]%gets_Ok & H). rewrite Hd2 in H. cbn [snd] in H.
  rewrite length_fmap, length_take in H.
  assert (Hb : exists w4 n2 b, readIn (fun k => strLt k start) (fst (w_data w)) n2 b /\
    w_data w4 = (fst (w_data w), pendingMessage <$> take (Z.to_nat lim) (a ++ b)) /\
    (dbms ← getVars; forM_ dbms rescheduleServer) w4 = (Ok u, w')).
  { apply bind_Ok in H as ([] & w4 & H1 & H). exists w4. destruct (Z.ltb_spec (Z.of_nat (Z.to_nat lim `min` length a)) lim) as [Hlt|Hge].
    - apply readPending_Ok in H1 as (n2 & b & Hb & Hd4). rewrite Hd2 in Hb, Hd4. cbn in Hb, Hd4.
      exists n2, b. split; [done|]. split; [|done]. rewrite Hd4, take_app, fmap_app. do 4 f_equal. lia.
    - apply ret_Ok in H1 as [_ <-].
      assert (Hex : exists b, readIn (fun k => strLt k start) (fst (w_data w)) 0 b).
      { eexists. split; [apply (Sorted_merge_sort keyLe)|apply merge_sort_Permutation]. }
      destruct Hex as [b Hb]. exists 0, b. split; [done|]. split; [|done]. rewrite Hd2, take_app_le; [done|lia]. }
  destruct Hb as (w4 & n2 & b & Hb & Hd4 & Hrest). clear H. set (taken := take (Z.to_nat lim) (a ++ b)) in Hd4.
  assert (Har : around start (fst (w_data w)) lim taken) by (by exists n1, n2, a, b).
  apply bind_Ok in Hrest as (dbms & w5 & [<- <-]%gets_Ok & Hr). rewrite Hd4 in Hr. cbn [snd] in Hr.
  apply rescheduleAll_Ok in Hr as (R1 & R2 & R3 & R4). rewrite Hd4 in *. cbn in R1, R2, R3, R4.
  assert (Hkeys : keyOf <$> (pendingMessage <$> taken) = Some <$> taken.*1).
  { rewrite <- !list_fmap_compose. done. }
  exists (w_step w), taken. fold start. split; [done|]. split; [done|]. split; [done|]. split.
  - intros fs k [->|Hk]; apply R3; [by left|right]. rewrite Hkeys. intros (k' & [= <-] & Hin)%list_elem_of_fmap. done.
  - intros k p Hin. apply (R4 ltac:(rewrite Hkeys; apply NoDup_fmap_2; [apply _|by eapply around_NoDup]) (pendingMessage (k, p)) k p); try done.
    + by apply list_elem_of_fmap_2.
    + by eapply around_rows.
Qed.

(** The message of a claimed row. *)
Definition restOf (t : Tables) (d : myMessage) (m : Message.t) : Prop :=
  exists r, at_ (tMessages t) (mMessageID d) = Some r /\
    toMessageProto (mkMyMessage (mMessageID d) (setResult None None None None r) (mRetryCount d) (mDataTypeURL d) (mDataValue d)) = Ok m.

Lemma readRest_Ok dbms w msgs w' :
  mapMs readRest dbms w = (Ok msgs, w') -> w_data w' = w_data w /\ Forall2 (restOf (w_data w)) dbms msgs.
Proof using Type.
  revert w msgs. induction dbms as [|d dbms IH]; intros w msgs; cbn.
  { intros [<- <-]%ret_Ok. by split. }
  intros (m & w1 & H1 & H)%bind_Ok. apply bind_Ok in H as (ms & w2 & H2 & [<- <-]%ret_Ok).
  apply bind_Ok in H1 as (r & w3 & (_ & Hr & ->)%queryRow_Ok & [Hm <-]%lift_Ok).
  destruct (IH _ _ H2) as [Hd Hf]. cbn in Hd, Hf. split; [done|]. constructor; [by exists r|done].
Qed.

(** What a server process is given of the messages for the server.  If the
    transaction ran once, it has claimed the first [lim] due rows from a random
    key on and around, each once; every claimed row, and no other, is counted
    and put off by the server's retry time; if there are at most [lim], all
    that are due have been claimed.  The messages are those of the claimed
    rows, in their order.  Of a transaction that was repeated the rows of the
    failed runs come first. *)
Theorem my_server_messages_spec lim w msgs w' :
  MySqlEngineOK E -> internalServerMessagesForProcessing lim w = (Ok msgs, w') ->
  exists k dbms, k < 50 /\ Forall2 (restOf (w_data w')) dbms msgs /\
    (k = 0 -> exists start taken, around start (w_data w) lim taken /\ dbms = pendingMessage <$> taken /\
       NoDup taken.*1 /\ length taken <= Z.to_nat lim /\ tMessages (w_data w') = tMessages (w_data w) /\
       (forall fs k, fs = false \/ k ∉ taken.*1 -> tPending (w_data w') !! (fs, k) = tPending (w_data w) !! (fs, k)) /\
       (forall k p, (k, p) ∈ taken -> tPending (w_data w) !! (true, k) = Some p /\
          exists p', tPending (w_data w') !! (true, k) = Some p' /\ postponed p p') /\
       ((Z.of_nat (size (filter (fun kp => kp.1.1 = true) (tPending (w_data w)))) <= lim)%Z ->
          forall k p, String.length k = 32 -> tPending (w_data w) !! (true, k) = Some p ->
            (forall n, scheduled_time p < toMicro (clock n))%Z -> (k, p) ∈ taken)).
Proof using HP.
  intros HE. unfold internalServerMessagesForProcessing. intros ([u dbms] & w1 & H & Hrest)%bind_Ok.
  apply readRest_Ok in Hrest as [Hd Hf]. cbn [snd] in Hf. unfold withVars in H.
  pose proof (run_in_tx_spec (serverTx lim) (mkWorld (w_data w, []) (w_step w))) as Hr.
  destruct (runInTx _ _) as [[u'|e|c] w2]; [|done..]. injection H as _ <- <-. cbn in Hd, Hf.
  destruct Hr as (k & w0 & w3 & Hk & Ha & Ht & _ & _ & _ & w4 & Hrun & Hd2). cbn in Ht.
  exists k, (snd (w_data w2)). split; [done|]. split; [by rewrite Hd|]. intros ->.
  assert (Hv : snd (w_data w0) = []) by (by inversion Ha).
  apply serverTx_Ok in Hrun as (n & taken & Har & H1 & H2 & H3 & H4); [|done]. cbn in *. rewrite Ht in *.
  exists (Hex.EncodeToString (mathRand n 2)), taken. rewrite Hd, Hd2. split; [done|]. split; [done|].
  split; [by eapply around_NoDup|]. split. { destruct Har as (?&?&?&?&_&_& ->). rewrite length_take. lia. }
  split; [done|]. split; [done|]. split.
  { intros k p Hin. split; [by eapply around_rows|by apply H4]. }
  intros Hlen k p Hk32 Hp Hdue. destruct Har as (n1 & n2 & a & b & Hra & Hrb & ->). destruct (Hra) as [_ Hpa], (Hrb) as [_ Hpb].
  assert (Hl : length (a ++ b) <= size (filter (fun kp : bool * string * pendingRow => kp.1.1 = true) (tPending (w_data w)))).
  { eapply (around_length (Hex.EncodeToString (mathRand n 2)) _ (Z.of_nat (length (a ++ b)))).
    exists n1, n2, a, b. by rewrite Nat2Z.id, take_ge. }
  rewrite take_ge by lia.
  assert (Hne : k <> Hex.EncodeToString (mathRand n 2)).
  { intros ->. pose proof (Hex.Encode_length (mathRand n 2)). rewrite mathRand_length in *. lia. }
  apply elem_of_app. destruct (total strLe (Hex.EncodeToString (mathRand n 2)) k) as [Hle|Hle]; [left; rewrite Hpa|right; rewrite Hpb];
    apply elem_of_serverRows; (split; [done|]); (split; [|done]); unfold strLt; rewrite bool_decide_true by done; cbn;
    apply negb_true_iff, String.eqb_neq; congruence.
Qed.
End Claims.

(** ** Witnesses, and what goes wrong *)
Definition myMessages : list Message.t := [sampleMessage 1 exampleClientID None; sampleMessage 2 ClientID.nil None].
Definition myWorld : World Tables := runOk (StoreMessages myMessages "") (mkWorld emptyTables 0).
Definition forServerKeys (k : string) : bool := String.eqb k (bytesOfNat 2 32).

Lemma my_store_messages_spec_witness :
  myWf forServerKeys (w_data myWorld) /\ myStatusOf (w_data myWorld) (bytesOfNat 1 32) = Present None.
Proof.
  assert (Ha : Forall (addressed forServerKeys) myMessages).
  { repeat constructor.
    - exists (bytesOfNat 1 32). eexists. split; [vm_compute; reflexivity|]. split; [done|]. split; [reflexivity|].
      split; [vm_compute; reflexivity|]. intros dbm. vm_compute. by intros [= <-].
    - exists (bytesOfNat 2 32). eexists. split; [vm_compute; reflexivity|]. split; [done|]. split; [reflexivity|].
      split; [vm_compute; reflexivity|]. intros dbm. vm_compute. by intros [= <-]. }
  destruct (my_store_messages_spec forServerKeys myMessages "" (mkWorld emptyTables 0) tt myWorld (bytesOfNat 1 32) Ha) as [H1 H2].
  - right. reflexivity.
  - vm_compute. reflexivity.
  - split; [|rewrite H2; vm_compute; reflexivity]. apply H1. split; cbn.
    + intros k r. by rewrite lookup_empty.
    + intros fs k. rewrite !lookup_empty. split; [by intros []|by intros (_ & ? & ? & _)].
Defined.

Definition myClaim : outcome (list Message.t) * World Tables :=
  ClientMessagesForProcessing exampleClientID 10 (Some sampleLimits) myWorld.

Lemma my_client_messages_spec_witness :
  exists msgs, fst myClaim = Ok msgs /\ length msgs = 1 /\ exampleClientID <> ClientID.nil.
Proof.
  assert (H : exists msgs, fst myClaim = Ok msgs /\ length msgs = 1) by (vm_compute; eexists; split; reflexivity).
  destruct H as (msgs & H & Hl). exists msgs. split; [exact H|]. split; [exact Hl|].
  assert (E : myClaim = (Ok msgs, snd myClaim)) by (rewrite <- H; apply surjective_pairing).
  exact (proj1 (my_client_messages_spec exampleClientID 10 (Some sampleLimits) myWorld msgs (snd myClaim) E)).
Defined.

(** Its messages, overdue. *)
Definition overdue : World Tables :=
  mkWorld (setTPending (setSchedule 0 0 <$> tPending (w_data myWorld)) (w_data myWorld)) (w_step myWorld).
Definition myServerClaim : outcome (list Message.t) * World Tables := internalServerMessagesForProcessing 10 overdue.

Lemma my_server_messages_spec_witness :
  exists msgs dbms, fst myServerClaim = Ok msgs /\ length msgs = 1 /\ Forall2 (restOf (w_data (snd myServerClaim))) dbms msgs.
Proof.
  assert (H : exists msgs, fst myServerClaim = Ok msgs /\ length msgs = 1) by (vm_compute; eexists; split; reflexivity).
  destruct H as (msgs & H & Hl). exists msgs.
  assert (E : myServerClaim = (Ok msgs, snd myServerClaim)) by (rewrite <- H; apply surjective_pairing).
  destruct (my_server_messages_spec 10 overdue msgs (snd myServerClaim) TestEngineOK E) as (k & dbms & _ & Hf & _).
  exists dbms. exact (conj H (conj Hl Hf)).
Defined.

(** As the test platform, with a deadlock in one statement. *)
Definition DeadlockAt (n : nat) : Platform := {|
  clock := clock (Platform := TestPlatform);
  randRead := randRead (Platform := TestPlatform);
  serverRetryDelay := serverRetryDelay (Platform := TestPlatform);
  sha256 := sha256 (Platform := TestPlatform);
  deliver _ _ l := l;
  tieBreak _ _ l := l;
  sqlFault m := if m =? n then Some mysql_ER_LOCK_DEADLOCK else None;
|}.

Definition idsOf (r : outcome (list Message.t)) : outcome (list gobytes) := r ≫= fun ms => Ok (map Message.MessageId ms).

(** The last statement of a claim fails on a lock: the message is in the
    response twice. *)
Example deadlock_duplicates :
  idsOf (fst (ClientMessagesForProcessing (P := DeadlockAt 105) exampleClientID 10 None (mkWorld (w_data myWorld) 100))) =
    Ok [Some (bytesOfNat 1 32); Some (bytesOfNat 1 32)].
Proof. vm_compute. reflexivity. Qed.

(** And the server would process its message twice. *)
Example deadlock_processes_twice :
  idsOf (fst (internalServerMessagesForProcessing (P := DeadlockAt 109) 10 (mkWorld (w_data overdue) 100))) =
    Ok [Some (bytesOfNat 2 32); Some (bytesOfNat 2 32)].
Proof. vm_compute. reflexivity. Qed.

(** Two servers that a client is connected to in turn: one has read what is due,
    the other claims it and commits, and the first, which only checks that
    the rows are there, claims it again. *)
Definition firstReads := readDue exampleClientID None (mkWorld (w_data myWorld, ([], ∅)) 100).
Definition secondClaims := ClientMessagesForProcessing exampleClientID 10 None (mkWorld (w_data myWorld) 200).
Example claimed_twice :
  let msgByID := match fst firstReads with Ok m => m | _ => ∅ end in
  let firstClaims := claimRows msgByID 10 (mkWorld (w_data (snd secondClaims), snd (w_data (snd firstReads))) 300) in
  idsOf (fst secondClaims) = Ok [Some (bytesOfNat 1 32)] /\ fst firstClaims = Ok tt /\
  map Message.MessageId (w_data (snd firstClaims)).2.1 = [Some (bytesOfNat 1 32)].
Proof. split; [|split]; vm_compute; reflexivity. Qed.

(** The name of a service that does not fit is stored under another name, and
    StoreMessages reports no error. *)
Definition longNamed : Message.t :=
  let m := sampleMessage 1 exampleClientID None in
  Message.Mk (Message.MessageId m) (Message.Source m) false (Message.SourceMessageId m)
    (Some (Address.Mk (ClientID.Bytes exampleClientID) (string_of_list_ascii (replicate 129 "a"%char)))) "Type"
    (Message.CreationTime m) None None None Message.MEDIUM false None.
Definition serviceLength (m : Message.t) : option nat := String.length <$> (Address.ServiceName <$> Message.Destination m).
Example long_name_cut :
  let r := StoreMessages [longNamed] "" (mkWorld emptyTables 0) in
  fst r = Ok tt /\ (ms ← fst (GetMessages [sampleID 1] false (snd r)); Ok (map serviceLength ms)) = Ok [Some 128].
Proof. split; vm_compute; reflexivity. Qed.

(** A result for a message to a client that names no client leaves the message
    pending. *)
Example wrong_partition_stays_pending :
  let w := runOk (SetMessageResult ClientID.nil (sampleID 1) (sampleResult false)) myWorld in
  myStatusOf (w_data w) (bytesOfNat 1 32) = Present (normResult (sampleResult false)) /\
  fst (GetPendingMessageCount [exampleClientID] w) = Ok 1%Z.
Proof. split; vm_compute; reflexivity. Qed.
