(* ===== verification/MySqlClients.v ===== *)
(** * The MySQL datastore: clients

    src/server/mysql/clientstore.go, operation by operation.  Some operations
    look at rows.Err after reading rows and some do not; those that work on one
    label or flag run their statement outside the transaction they begin
    ([onOwnConnection]), which also takes a second connection of the pool
    ([Pool]). *)
From Stdlib Require Import SpecFloat.
From S2P Require Import Prelude Platform Ids Proto Db Sqlite SqliteMessages SqliteClients MySql MySqlMessages.

(** ** Nonces *)
Definition bytesToUint64 (b : string) : outcome Z :=
  if decide (String.length b = 8) then Ok (getLE (list_ascii_of_string b))
  else Err (ErrText "error converting to uint64, expected 8 bytes").
Definition uint64ToBytes (i : Z) : string := string_of_list_ascii (putLE 8 i).
Arguments bytesToUint64 _ : simpl never.
Arguments uint64ToBytes _ : simpl never.

Lemma uint64_roundtrip i : isU64 i -> bytesToUint64 (uint64ToBytes i) = Ok i.
Proof.
  intros Hi. unfold bytesToUint64, uint64ToBytes.
  assert (Hl : String.length (string_of_list_ascii (putLE 8 i)) = 8).
  { rewrite <- (putLE_length 8 i) at 2. generalize (putLE 8 i). intros l. induction l; cbn; congruence. }
  rewrite decide_True by done. rewrite list_ascii_of_string_of_list_ascii, getLE_putLE.
  f_equal. apply Z.mod_small. unfold isU64 in Hi. cbn. lia.
Qed.

Section Clients.
Context `{P : Platform} `{E : MySqlEngine} `{F : FloatConv}.

(** ** Reading *)

(** rows.Next until there is no more, or reading fails; what rows.Err reports
    then. *)
Definition rowsOf {R} (f : Tables -> list R) : My (list R * option goerror) :=
  rows ← query (fun t => Ok (f t));
  cut ← interact (fun n => Ok (rowsCut n));
  mret (match cut with Some (k, e) => (take k rows, Some (ErrIO e)) | None => (rows, None) end).
Definition rowsErr (e : option goerror) : My unit := match e with Some e => fail e | None => mret tt end.

(** [h] on one row. *)
Definition clientOfRow (id : string) (r : clientRow) : outcome Client.t :=
  let ts := tspbNew (last_contact_time r) in
  match tspbCheckValid ts with
  | Some e => Err e
  | None =>
      Ok (Client.Mk (Some id) [] ts (fromNULLString (last_contact_address r))
            (fromNULLString (last_contact_streaming_to r))
            (match last_clock_seconds r, last_clock_nanos r with
             | Some s, Some n => Some (Timestamp.Mk s (wrapI32 n))
             | _, _ => None
             end)
            (blacklisted r))
  end.

(** [h]. *)
Definition readClients (f : Tables -> list (string * clientRow)) (retm : gmap string Client.t) :
    My (gmap string Client.t) :=
  rows ← rowsOf f;
  retm ← foldM (fun m kr => c ← lift (clientOfRow kr.1 kr.2); mret (<[kr.1 := c]> m)) rows.1 retm;
  rowsErr rows.2 ≫= fun _ => mret retm.

(** [j], on the columns client_id, service_name and label; it does not look at
    rows.Err. *)
Definition readLabels (f : Tables -> list (string * string * string)) (retm : gmap string Client.t) :
    My (gmap string Client.t) :=
  rows ← rowsOf f;
  foldM addLabelRow rows.1 retm.

Definition clientWith (id : gobytes) (t : Tables) : list (string * clientRow) :=
  match id with Some k => match tClients t !! k with Some r => [(k, r)] | None => [] end | None => [] end.
Definition labelRows (t : Tables) : list (string * string * string) :=
  (fun kv : string * string * string * (string * string) => (kv.1.1.1, kv.2.1, kv.2.2)) <$> map_to_list (tLabels t).
(** WHERE client_id = ? *)
Definition labelsWith (id : gobytes) (t : Tables) : list (string * string * string) :=
  filter (fun row => Some row.1.1 = id) (labelRows t).

Definition ListClients (ids : list ClientID.t) : My (list Client.t) :=
  retm ← inTx (
    retm ← (if decide (ids = []) then readClients (fun t => map_to_list (tClients t)) ∅
            else foldM (fun m id => readClients (clientWith (ClientID.Bytes id)) m) ids ∅);
    if decide (ids = []) then readLabels labelRows retm
    else foldM (fun m id => readLabels (labelsWith (Some (ClientID.String id))) m) ids retm);
  kvs ← rangeMap retm;
  mret (snd <$> kvs).

(** A callback with its own state. *)
Definition callBack {X A} (callback : X -> A -> X * option goerror) (a : A) : M (World (Tables * X)) unit :=
  x ← getVars;
  let '(x', e) := callback x a in
  setVars x' ≫= fun _ => match e with Some e => fail e | None => mret tt end.

(** rs.Err is not looked at. *)
Definition StreamClientIds {X} (includeBlacklisted : bool) (lastContactAfter : option Z)
    (callback : X -> ClientID.t -> X * option goerror) : M (World (Tables * X)) unit :=
  runOnce (
    rows ← onTables (rowsOf (fun t => fst <$>
      filter (fun kr => streamed includeBlacklisted lastContactAfter kr.2 = true) (map_to_list (tClients t))));
    forM_ rows.1 (fun bid =>
      id ← lift (ClientID.BytesToClientID (Some bid));
      callBack callback id)).

Definition GetClientData (id : ClientID.t) : My ClientData.t :=
  inTx (
    let iid := ClientID.Bytes id in
    c ← queryRow (fun t => (fun r => (client_key r, blacklisted r)) <$> at_ (tClients t) iid);
    labels ← rowsOf (fun t => (fun row => Label.Mk row.1.2 row.2) <$> labelsWith iid t);
    rowsErr labels.2 ≫= fun _ => mret (ClientData.Mk c.1 labels.1 c.2)).

(** ** Writing *)

Definition notNull (id : gobytes) : outcome string :=
  match id with Some k => Ok k | None => Err (ErrConstraint "client_id cannot be null") end.
Definition store (c : column) (s : string) : outcome string :=
  match text c s with Some v => Ok v | None => Err (ErrConstraint "Data too long for column") end.
Definition storeUnsigned (z : option Z) : outcome (option Z) :=
  match z with
  | None => Ok None
  | Some z => match unsigned z with Some v => Ok (Some v) | None => Err (ErrConstraint "Out of range value") end
  end.
Definition storeReal (f : spec_float) : outcome spec_float :=
  match real f with Some v => Ok v | None => Err (ErrConstraint "Out of range value") end.

Definition insertClient (id : gobytes) (r : clientRow) : My unit :=
  exec (fun t =>
    k ← notNull id;
    _ ← constraint (bool_decide (tClients t !! k = None)) "clients.PRIMARY";
    Ok (setTClients (<[k := r]> (tClients t)) t)).

Definition labelKey (k : string) (l : Label.t) : string * string * string :=
  (k, collate (Label.ServiceName l), collate (Label.Label l)).

Definition insertLabel (id : gobytes) (l : Label.t) : My unit :=
  exec (fun t =>
    k ← notNull id;
    svc ← store (VARCHAR 128) (Label.ServiceName l);
    lbl ← store (VARCHAR 128) (Label.Label l);
    let key := labelKey k (Label.Mk svc lbl) in
    _ ← constraint (bool_decide (tLabels t !! key = None)) "client_labels.PRIMARY";
    _ ← constraint (bool_decide (is_Some (tClients t !! k))) "client_labels_fk_1";
    Ok (setTLabels (<[key := (svc, lbl)]> (tLabels t)) t)).

Definition AddClient (id : ClientID.t) (data : ClientData.t) : My unit :=
  inTx (
    t ← now;
    insertClient (ClientID.Bytes id)
      (mkClientRow (ClientData.Key data) (ClientData.Blacklisted data) (UnixNano t) None None None None) ≫= fun _ =>
    forM_ (ClientData.Labels data) (insertLabel (ClientID.Bytes id))).

(** A transaction without statements; the closure runs [m] on d.db, whose
    effects the transaction does not roll back. *)
Definition onOwnConnection {A} (m : My A) : My A := fun w =>
  let '(r, w') := runInTx (onPart snd (fun t s => (s.1, t)) m) (mkWorld (tt, w_data w) (w_step w)) in
  (r, mkWorld (snd (w_data w')) (w_step w')).

Definition AddClientLabel (id : ClientID.t) (l : Label.t) : My unit :=
  onOwnConnection (insertLabel (ClientID.Bytes id) l).

Definition deleteLabel (id : gobytes) (l : Label.t) : My unit :=
  exec (fun t => Ok (match id with Some k => setTLabels (delete (labelKey k l) (tLabels t)) t | None => t end)).
Definition RemoveClientLabel (id : ClientID.t) (l : Label.t) : My unit :=
  onOwnConnection (deleteLabel (ClientID.Bytes id) l).

Definition alterClient (f : clientRow -> clientRow) (id : gobytes) (t : Tables) : Tables :=
  match id with Some k => setTClients (alter f k (tClients t)) t | None => t end.
Definition BlacklistClient (id : ClientID.t) : My unit :=
  onOwnConnection (exec (fun t => Ok (alterClient (setBlacklisted true) (ClientID.Bytes id) t))).

(** ** Contacts *)
Definition insertContact (id : gobytes) (n : Z) (sent received addr : string) : My Z :=
  next ← interact (fun n => Ok (autoIncrement n));
  execN (fun t =>
    k ← notNull id;
    addr ← store (VARCHAR 64) addr;
    _ ← constraint (bool_decide (is_Some (tClients t !! k))) "client_contacts_fk_1";
    match next (tContacts t) with
    | None => Err (ErrConstraint "Failed to read auto-increment value")
    | Some c => Ok (c, setTContacts (<[c := mkContactRow k n sent received (Some addr)]> (tContacts t)) t)
    end).

Definition updateContact (id : gobytes) (n : Z) (streamingTo : option string) (addr : string) (lcs lcn : option Z) : My unit :=
  exec (fun t =>
    st ← (match streamingTo with Some s => v ← store (TEXT (Some 128)) s; Ok (Some v) | None => Ok None end);
    addr ← store (TEXT (Some 64)) addr;
    lcs ← storeUnsigned lcs;
    lcn ← storeUnsigned lcn;
    Ok (alterClient (setLastContact n st addr lcs lcn) id t)).

Definition RecordClientContact (data : DbContactData.t) : My ContactID :=
  inTx (
    t ← now;
    let n := UnixNano t in
    let id := ClientID.Bytes (DbContactData.ClientID data) in
    c ← insertContact id n (uint64ToBytes (DbContactData.NonceSent data))
          (uint64ToBytes (DbContactData.NonceReceived data)) (DbContactData.Addr data);
    let lcs := Timestamp.Seconds <$> DbContactData.ClientClock data in
    let lcn := Timestamp.Nanos <$> DbContactData.ClientClock data in
    let lcst := if String.eqb (DbContactData.StreamingTo data) "" then None else Some (DbContactData.StreamingTo data) in
    updateContact id n lcst (DbContactData.Addr data) lcs lcn ≫= fun _ =>
    mret (Hex.FormatUint16 (wrapU64 c))).

Definition contactOfRow (r : contactRow) : outcome ClientContact.t :=
  sn ← bytesToUint64 (cc_sent_nonce r);
  rn ← bytesToUint64 (cc_received_nonce r);
  let ts := tspbNew (cc_time r) in
  match tspbCheckValid ts with
  | Some e => Err e
  | None => Ok (ClientContact.Mk sn rn (fromNULLString (cc_address r)) ts)
  end.

Definition contactsOf (id : gobytes) (t : Tables) : list contactRow :=
  snd <$> filter (fun kr => Some (cc_client_id kr.2) = id) (map_to_list (tContacts t)).

Definition streamClientContacts {X} (id : ClientID.t) (callback : X -> ClientContact.t -> X * option goerror) :
    M (World (Tables * X)) unit :=
  rows ← onTables (rowsOf (contactsOf (ClientID.Bytes id)));
  forM_ rows.1 (fun r => c ← lift (contactOfRow r); callBack callback c).

Definition StreamClientContacts {X} (id : ClientID.t) (callback : X -> ClientContact.t -> X * option goerror) :
    M (World (Tables * X)) unit :=
  runOnce (streamClientContacts id callback).

Definition ListClientContacts (id : ClientID.t) : My (list ClientContact.t) :=
  r ← withVars [] (runInTx (setVars [] ≫= fun _ => streamClientContacts id (fun res c => (res ++ [c], None))));
  mret r.2.

Definition linkContact (c : Z) (id : gobytes) : My unit :=
  exec (fun t =>
    k ← notNull id;
    _ ← constraint (bool_decide ((c, k) ∉ tContactMessages t)) "client_contact_messages.PRIMARY";
    _ ← constraint (bool_decide (is_Some (tContacts t !! c)) && bool_decide (is_Some (tMessages t !! k))) "FOREIGN KEY";
    Ok (setTContactMessages ({[(c, k)]} ∪ tContactMessages t) t)).

Definition LinkMessagesToContact (contact : ContactID) (ids : list MessageID.t) : My unit :=
  match Hex.ParseUint16 contact with
  | Ok c => inTx (forM_ ids (fun id => linkContact c (MessageID.Bytes id)))
  | _ => fail (ErrText "unable to parse ContactID")
  end.

(** ** Resource usage *)
Definition insertUsage (id : gobytes) (rud : ResourceUsageData.t) (u : AggregatedResourceUsage.t)
    (processStartTime clientTimestamp n : Z) : My unit :=
  exec (fun t =>
    k ← notNull id;
    scope ← store (VARCHAR 128) (ResourceUsageData.Scope rud);
    a ← storeReal (AggregatedResourceUsage.MeanUserCpuRate u);
    b ← storeReal (AggregatedResourceUsage.MaxUserCpuRate u);
    c ← storeReal (AggregatedResourceUsage.MeanSystemCpuRate u);
    e ← storeReal (AggregatedResourceUsage.MaxSystemCpuRate u);
    _ ← constraint (bool_decide (is_Some (tClients t !! k))) "client_resource_usage_records_fk_1";
    Ok (setTUsage (tUsage t ++ [mkUsageRow k scope (ResourceUsageData.Pid rud) processStartTime clientTimestamp n
      (ResourceUsageData.ProcessTerminated rud) a b c e
      (float64ToInt32 (mulFloat64 (AggregatedResourceUsage.MeanResidentMemory u) bytesToMIB))
      (float64ToInt32 (mulFloat64 (int64ToFloat64 (AggregatedResourceUsage.MaxResidentMemory u)) bytesToMIB))
      (float64ToInt32 (AggregatedResourceUsage.MeanNumFds u)) (AggregatedResourceUsage.MaxNumFds u)]) t)).

Definition RecordResourceUsageData (id : ClientID.t) (rud : ResourceUsageData.t) : My unit :=
  match checkValid (ResourceUsageData.ProcessStartTime rud) with
  | Ok processStartTime =>
      match checkValid (ResourceUsageData.DataTimestamp rud) with
      | Ok clientTimestamp =>
          inTx (
            t ← now;
            match ResourceUsageData.ResourceUsage rud with
            | None => crash "nil ResourceUsage"
            | Some u => insertUsage (ClientID.Bytes id) rud u (UnixNano processStartTime) (UnixNano clientTimestamp) (UnixNano t)
            end)
      | _ => fail (ErrText "failed to parse data timestamp")
      end
  | _ => fail (ErrText "failed to parse process start time")
  end.

(** rows.Err is not looked at. *)
Definition FetchResourceUsageRecords (id : ClientID.t) (startTimestamp endTimestamp : option Timestamp.t) :
    My (list ClientResourceUsageRecord.t) :=
  start ← lift (checkValid startTimestamp);
  stop ← lift (checkValid endTimestamp);
  if (stop <? start)%Z then fail (ErrText "timerange is invalid: start timestamp is after end timestamp")
  else
    inTx (
      rows ← rowsOf (fun t => filter (fun r =>
        Some (u_client_id r) = ClientID.Bytes id /\ (UnixNano start <= u_server_timestamp r < UnixNano stop)%Z) (tUsage t));
      mapMs (fun r => lift (usageOfRow r)) rows.1).
End Clients.

(** ** Connections

    The pool of d.db, and calls of [onOwnConnection]: one begins its
    transaction, and needs a second connection while it holds the first. *)
Module Pool.
(** SetMaxOpenConns *)
Definition maxOpenConns : nat := 100.

Inductive caller := Waiting | InTx | Executing | Finished.
#[global] Instance caller_eq_dec : EqDecision caller.
Proof. solve_decision. Defined.

Definition holds (c : caller) : nat := match c with InTx => 1 | Executing => 2 | _ => 0 end.
Definition inUse (s : list caller) : nat := sum_list_with holds s.

Inductive step : list caller -> list caller -> Prop :=
| step_begin l r : inUse (l ++ Waiting :: r) < maxOpenConns -> step (l ++ Waiting :: r) (l ++ InTx :: r)
| step_exec l r : inUse (l ++ InTx :: r) < maxOpenConns -> step (l ++ InTx :: r) (l ++ Executing :: r)
(** The statement is done, and the transaction commits. *)
| step_done l r : step (l ++ Executing :: r) (l ++ Finished :: r).

Lemma inUse_app l r : inUse (l ++ r) = inUse l + inUse r.
Proof. apply sum_list_with_app. Qed.

Lemma step_bounded s s' : step s s' -> inUse s <= maxOpenConns -> inUse s' <= maxOpenConns.
Proof. destruct 1; rewrite !inUse_app in *; cbn in *; lia. Qed.

Lemma inUse_le s : Executing ∉ s -> inUse s <= length s.
Proof.
  induction s as [|c s IH]; intros Hn; [done|]. apply not_elem_of_cons in Hn as [Hc Hn].
  specialize (IH Hn). unfold inUse in *. destruct c; cbn; [lia..|done|lia].
Qed.

Lemma inUse_idle s : Executing ∉ s -> InTx ∉ s -> inUse s = 0.
Proof.
  induction s as [|c s IH]; intros Hn Hn'; [done|]. apply not_elem_of_cons in Hn as [Hc Hn], Hn' as [Hc' Hn'].
  specialize (IH Hn Hn'). by destruct c.
Qed.

(** Fewer calls than connections: while one is not finished, some call goes
    on. *)
Lemma progress s : length s < maxOpenConns -> Exists (fun c => c <> Finished) s -> exists s', step s s'.
Proof.
  intros Hlen Hs. destruct (decide (Executing ∈ s)) as [(l & r & ->)%list_elem_of_split|Hr].
  { eexists. apply step_done. }
  destruct (decide (InTx ∈ s)) as [Hi|Hi].
  { pose proof (inUse_le s Hr). apply list_elem_of_split in Hi as (l & r & ->). eexists. apply step_exec. lia. }
  pose proof (inUse_idle s Hr Hi) as H0. apply Exists_exists in Hs as (c & Hc & Hne).
  assert (c = Waiting) as -> by (by destruct c). apply list_elem_of_split in Hc as (l & r & ->).
  eexists. apply step_begin. rewrite H0. unfold maxOpenConns. lia.
Qed.

Definition left (c : caller) : nat := match c with Waiting => 3 | InTx => 2 | Executing => 1 | Finished => 0 end.
Lemma step_decreases s s' : step s s' -> sum_list_with left s' < sum_list_with left s.
Proof. destruct 1; rewrite !sum_list_with_app; cbn; lia. Qed.

Lemma step_length s s' : step s s' -> length s' = length s.
Proof. destruct 1; by rewrite !length_app. Qed.

Lemma finish s : length s < maxOpenConns -> exists s', rtc step s s' /\ Forall (fun c => c = Finished) s'.
Proof.
  remember (sum_list_with left s) as n eqn:Hn. revert s Hn. induction n as [n IH] using lt_wf_ind. intros s -> Hlen.
  destruct (decide (Exists (fun c => c <> Finished) s)) as [He|He].
  - destruct (progress s Hlen He) as [s1 H1]. pose proof (step_decreases _ _ H1). pose proof (step_length _ _ H1) as Hl.
    destruct (IH _ H s1 eq_refl) as (s2 & H2 & Hf); [by rewrite Hl|]. exists s2. split; [by eapply rtc_l|done].
  - exists s. split; [done|]. apply not_Exists_Forall in He; [|apply _]. eapply Forall_impl; [exact He|].
    cbn. intros c Hc. by apply dec_stable.
Qed.

(** All connections are taken by calls that need another. *)
Definition full (n : nat) : list caller := replicate maxOpenConns InTx ++ replicate n Waiting.

Lemma inUse_replicate k n : inUse (replicate k InTx ++ replicate n Waiting) = k.
Proof.
  rewrite inUse_app. replace (inUse (replicate n Waiting)) with 0; [|by induction n].
  rewrite Nat.add_0_r. unfold inUse. induction k as [|k IH]; cbn; [done|]. by rewrite IH.
Qed.

Lemma fill k n : k <= maxOpenConns -> rtc step (replicate (k + n) Waiting) (replicate k InTx ++ replicate n Waiting).
Proof.
  intros Hk. revert n. induction k as [|k IH]; intros n; [done|].
  eapply rtc_r; [rewrite Nat.add_succ_comm; apply IH; lia|]. replace (S k) with (k + 1) by lia.
  rewrite replicate_add, <- app_assoc. cbn [replicate app]. apply step_begin.
  change (Waiting :: replicate n Waiting) with (replicate (S n) Waiting). rewrite inUse_replicate. lia.
Qed.

Lemma full_stuck n s : ~ step (full n) s.
Proof.
  intros H. remember (full n) as s0 eqn:Hs. destruct H as [l r Hu|l r Hu|l r].
  - rewrite Hs in Hu. unfold full in Hu. rewrite inUse_replicate in Hu. lia.
  - rewrite Hs in Hu. unfold full in Hu. rewrite inUse_replicate in Hu. lia.
  - assert (Hin : Executing ∈ full n) by (rewrite <- Hs; set_solver). unfold full in Hin.
    apply elem_of_app in Hin as [[? _]%elem_of_replicate|[? _]%elem_of_replicate]; done.
Qed.

(** Calls of AddClientLabel, RemoveClientLabel and BlacklistClient each take two
    connections of a pool of 100.  Fewer than 100 at a time always can finish,
    but any larger number can come to a state where each connection is held by
    a call that waits for another one, and none goes on until a context ends. *)
Theorem label_calls_block_each_other n :
  (n < maxOpenConns -> forall s, rtc step (replicate n Waiting) s ->
     exists s', rtc step s s' /\ Forall (fun c => c = Finished) s') /\
  (maxOpenConns <= n -> exists s, rtc step (replicate n Waiting) s /\ Exists (fun c => c <> Finished) s /\
     forall s', ~ step s s').
Proof.
  split.
  - intros Hn s Hs. apply finish. enough (length s = n) by lia.
    rewrite <- (length_replicate n Waiting). clear Hn. induction Hs as [|x y z H _ IH]; [done|]. by rewrite IH, (step_length _ _ H).
  - intros Hn. exists (full (n - maxOpenConns)). split; [|split; [|apply full_stuck]].
    + rewrite <- (fill maxOpenConns (n - maxOpenConns)) by done. by replace (maxOpenConns + _) with n by lia.
    + unfold full. by apply Exists_app; left; left.
Qed.
End Pool.

(** ** The invariant *)
Record myFk (t : Tables) : Prop := {
  k_client k : is_Some (tClients t !! k) -> String.length k = 8;
  k_label k s l : is_Some (tLabels t !! (k, s, l)) -> is_Some (tClients t !! k);
  k_contact c r : tContacts t !! c = Some r ->
    is_Some (tClients t !! cc_client_id r) /\ String.length (cc_sent_nonce r) = 8 /\ String.length (cc_received_nonce r) = 8;
  k_contact_id c : is_Some (tContacts t !! c) -> (0 < c < 2 ^ 31)%Z;
  k_link c k : (c, k) ∈ tContactMessages t -> is_Some (tContacts t !! c) /\ is_Some (tMessages t !! k);
  k_usage r : r ∈ tUsage t -> is_Some (tClients t !! u_client_id r);
}.

Lemma myFk_empty : myFk emptyTables.
Proof.
  split; cbn.
  - intros ?. rewrite lookup_empty. by intros [].
  - intros ???. rewrite lookup_empty. by intros [].
  - intros ??. by rewrite lookup_empty.
  - intros ?. rewrite lookup_empty. by intros [].
  - by intros ?? ?%not_elem_of_empty.
  - by intros ? ?%not_elem_of_nil.
Qed.

Lemma uint64ToBytes_length i : String.length (uint64ToBytes i) = 8.
Proof.
  unfold uint64ToBytes. rewrite <- (putLE_length 8 i) at 2. generalize (putLE 8 i). intros l.
  induction l; cbn; congruence.
Qed.

Lemma Bytes_length id k : ClientID.valid id -> ClientID.Bytes id = Some k -> String.length k = 8.
Proof.
  unfold ClientID.Bytes. destruct id as [b]. cbn. intros Hid. destruct (String.eqb_spec b "") as [->|Hb]; [done|].
  intros [= <-]. destruct Hid as [Hid|Hid]; [|done]. by destruct b.
Qed.

Section ClientInvariant.
Context `{P : Platform} `{E : MySqlEngine} {EO : MySqlEngineOK E} `{F : FloatConv}.

(** Clients are added, and changed in place, but never removed. *)
Lemma myFk_clients t m :
  myFk t -> (forall k, is_Some (tClients t !! k) -> is_Some (m !! k)) ->
  (forall k, is_Some (m !! k) -> String.length k = 8) -> myFk (setTClients m t).
Proof using Type. intros [] H1 H2. split; cbn; [done|naive_solver|naive_solver|done|done|naive_solver]. Qed.

Lemma myFk_alter f id t : myFk t -> myFk (alterClient f id t).
Proof using Type.
  intros Ht. destruct id as [k|]; [|done]. cbn. apply myFk_clients; [done| |]; intros k'; rewrite lookup_alter;
    (case_decide; [subst; rewrite fmap_is_Some|]); done || apply (k_client _ Ht).
Qed.

Lemma preserves_alterMyClient f id : preserves (onData myFk) (exec (fun t => Ok (alterClient f id t))).
Proof using Type. apply preserves_exec. intros t t' Ht [= <-]. by apply myFk_alter. Qed.

Lemma preserves_insertMyClient id r : ClientID.valid id -> preserves (onData myFk) (insertClient (ClientID.Bytes id) r).
Proof using Type.
  intros Hid. apply preserves_exec. intros t t' Ht H. apply outcome_bind_Ok in H as (k & Hk & H).
  apply outcome_bind_Ok in H as (? & _ & [= <-]). apply myFk_clients; [done| |]; intros k'.
  - intros Hk'. rewrite lookup_insert_is_Some'. by right.
  - rewrite lookup_insert_is_Some'. intros [<-|Hk']; [|by apply (k_client _ Ht)].
    apply (Bytes_length id); [done|]. unfold notNull in Hk. destruct (ClientID.Bytes id); [by injection Hk as ->|done].
Qed.

Lemma preserves_insertMyLabel id l : preserves (onData myFk) (insertLabel id l).
Proof using Type.
  apply preserves_exec. intros t t' Ht H. repeat (apply outcome_bind_Ok in H as (? & ? & H)). injection H as <-.
  match goal with H : constraint (bool_decide (is_Some _)) _ = _ |- _ => apply constraint_Ok, bool_decide_eq_true in H end.
  destruct Ht. split; cbn; try done. intros k s lb. rewrite lookup_insert_is_Some'. intros [[= <- _ _]|?]; [done|by eauto].
Qed.

Lemma preserves_deleteLabel id l : preserves (onData myFk) (deleteLabel id l).
Proof using Type.
  apply preserves_exec. intros t t' Ht [= <-]. destruct id as [k|]; [|done].
  destruct Ht. split; cbn; try done. intros k' s lb [? [_ H]%lookup_delete_Some]. by eauto.
Qed.

Lemma preserves_insertMyContact id n sn rn a : String.length sn = 8 -> String.length rn = 8 ->
  preserves (onData myFk) (insertContact id n sn rn a).
Proof using EO.
  intros Hs Hr. intros w Hw. unfold insertContact, interact, mbind, M_bind. cbn.
  apply (preserves_execN myFk); [|exact Hw]. intros t c t' Ht H.
  repeat (apply outcome_bind_Ok in H as (? & ? & H)). destruct (autoIncrement _ _) as [c'|] eqn:Ha; [|done].
  injection H as <- <-. apply autoIncrement_new in Ha as [Hn Hc].
  match goal with H : constraint (bool_decide (is_Some _)) _ = _ |- _ => apply constraint_Ok, bool_decide_eq_true in H end.
  destruct Ht. split; cbn; try done.
  - intros c r. rewrite lookup_insert. case_decide; [intros [= <-]; by subst|by eauto].
  - intros c. rewrite lookup_insert_is_Some'. intros [<-|?]; [done|by eauto].
  - intros c k'. rewrite lookup_insert_is_Some'. naive_solver.
Qed.

Lemma preserves_linkContact c id : preserves (onData myFk) (linkContact c id).
Proof using Type.
  apply preserves_exec. intros t t' Ht H. repeat (apply outcome_bind_Ok in H as (? & ? & H)). injection H as <-.
  match goal with H : constraint (_ && _) _ = _ |- _ =>
    apply constraint_Ok, andb_true_iff in H as [?%bool_decide_eq_true ?%bool_decide_eq_true] end.
  destruct Ht. split; cbn; try done. intros c' k' [[= -> ->]%elem_of_singleton|?]%elem_of_union; by eauto.
Qed.

Lemma preserves_insertUsage id rud u p c n : preserves (onData myFk) (insertUsage id rud u p c n).
Proof using Type.
  apply preserves_exec. intros t t' Ht H. repeat (apply outcome_bind_Ok in H as (? & ? & H)). injection H as <-.
  match goal with H : constraint (bool_decide (is_Some _)) _ = _ |- _ => apply constraint_Ok, bool_decide_eq_true in H end.
  destruct Ht. split; cbn; try done. intros r. rewrite elem_of_app, list_elem_of_singleton. intros [?| ->]; [by eauto|done].
Qed.

Lemma preserves_onOwnConnection {A} I (m : My A) : preserves (onData I) m -> preserves (onData I) (onOwnConnection m).
Proof using Type.
  intros Hm w Hw. unfold onOwnConnection.
  pose proof (preserves_myRunInTx (fun p : unit * Tables => I p.2) (onPart snd (fun t s => (s.1, t)) m)) as H.
  specialize (H ltac:(by intros ????) ltac:(intros [[u t] n] Ht; unfold onPart;
    pose proof (Hm (mkWorld t n) Ht) as Hp; by destruct (m _) as [r w'])
    (mkWorld (tt, w_data w) (w_step w)) Hw).
  by destruct (runInTx _ _) as [r w'].
Qed.

Lemma preserves_updateContact id n st a s ns : preserves (onData myFk) (updateContact id n st a s ns).
Proof using Type.
  apply preserves_exec. intros t t' Ht H. repeat (apply outcome_bind_Ok in H as (? & _ & H)). injection H as <-.
  by apply myFk_alter.
Qed.
End ClientInvariant.
#[export] Hint Resolve preserves_alterMyClient preserves_insertMyLabel preserves_deleteLabel preserves_insertMyContact
  preserves_linkContact preserves_insertUsage preserves_onOwnConnection preserves_updateContact uint64ToBytes_length : preserves.

(** ** Every operation keeps it *)
Inductive clientOp :=
| OpListClients (ids : list ClientID.t)
| OpGetClientData (id : ClientID.t)
| OpAddClient (id : ClientID.t) (data : ClientData.t)
| OpAddClientLabel (id : ClientID.t) (l : Label.t)
| OpRemoveClientLabel (id : ClientID.t) (l : Label.t)
| OpBlacklistClient (id : ClientID.t)
| OpRecordClientContact (data : DbContactData.t)
| OpListClientContacts (id : ClientID.t)
| OpLinkMessagesToContact (contact : ContactID) (ids : list MessageID.t)
| OpRecordResourceUsageData (id : ClientID.t) (rud : ResourceUsageData.t)
| OpFetchResourceUsageRecords (id : ClientID.t) (start stop : option Timestamp.t).

Section Ops.
Context `{P : Platform} `{E : MySqlEngine} {EO : MySqlEngineOK E} `{F : FloatConv}.

Definition runClientOp (op : clientOp) : My unit :=
  match op with
  | OpListClients ids => ListClients ids ≫= fun _ => mret tt
  | OpGetClientData id => GetClientData id ≫= fun _ => mret tt
  | OpAddClient id data => AddClient id data
  | OpAddClientLabel id l => AddClientLabel id l
  | OpRemoveClientLabel id l => RemoveClientLabel id l
  | OpBlacklistClient id => BlacklistClient id
  | OpRecordClientContact data => RecordClientContact data ≫= fun _ => mret tt
  | OpListClientContacts id => ListClientContacts id ≫= fun _ => mret tt
  | OpLinkMessagesToContact contact ids => LinkMessagesToContact contact ids
  | OpRecordResourceUsageData id rud => RecordResourceUsageData id rud
  | OpFetchResourceUsageRecords id start stop => FetchResourceUsageRecords id start stop ≫= fun _ => mret tt
  end.

Definition validOp (op : clientOp) : Prop := match op with OpAddClient id _ => ClientID.valid id | _ => True end.

Lemma preserves_rowsOf {R} I (f : Tables -> list R) : preserves (onData I) (rowsOf f).
Proof using Type. unfold rowsOf. solve_preserves. Qed.
Lemma preserves_rowsErr I e : preserves (onData I) (rowsErr e).
Proof using Type. unfold rowsErr. solve_preserves. Qed.
#[local] Hint Resolve preserves_rowsOf preserves_rowsErr : preserves.

Lemma preserves_ListClientContacts I id : preserves (onData I) (ListClientContacts id).
Proof using Type.
  intros w Hw. unfold ListClientContacts, withVars, mbind, M_bind.
  pose proof (preserves_myRunInTx (fun p : Tables * list ClientContact.t => I p.1)
    (setVars [] ≫= fun _ => streamClientContacts id (fun res c => (res ++ [c], None)))) as H.
  specialize (H ltac:(by intros ????)). specialize (fun Hp => H Hp (mkWorld (w_data w, []) (w_step w)) Hw).
  destruct (runInTx _ _) as [r w']. assert (Hr : I (fst (w_data w'))); [apply H|by destruct r].
  assert (Hset : forall v, preserves (onData (fun p : Tables * list ClientContact.t => I p.1)) (setVars v)) by (by intros v []).
  apply preserves_bind; [apply Hset|]. intros _. unfold streamClientContacts, callBack, getVars, onTables.
  apply preserves_bind.
  - intros w0 Hw0. unfold onPart. pose proof (preserves_rowsOf I (contactsOf (ClientID.Bytes id)) (mkWorld (fst (w_data w0)) (w_step w0)) Hw0).
    by destruct (rowsOf _ _).
  - intros rows. apply preserves_forM. intros r'. apply preserves_bind; [apply preserves_lift|]. intros c.
    apply preserves_bind; [apply preserves_gets|]. intros x. cbn.
    apply preserves_bind; [apply Hset|]. intros _. apply preserves_ret.
Qed.

Lemma preserves_clientOp op : validOp op -> preserves (onData myFk) (runClientOp op).
Proof using EO.
  destruct op; cbn; intros Hv.
  - apply preserves_bind; [|intros; apply preserves_ret]. unfold ListClients, readClients, readLabels, addLabelRow.
    apply preserves_bind; [apply keeps_inTx, keeps_preserves|]; solve_preserves.
  - apply preserves_bind; [|intros; apply preserves_ret]. apply keeps_inTx, keeps_preserves. solve_preserves.
  - apply keeps_inTx, keeps_preserves, preserves_bind; [apply preserves_now|]. intros t.
    apply preserves_bind; [by apply preserves_insertMyClient|]. intros _. solve_preserves.
  - unfold AddClientLabel. auto with preserves.
  - unfold RemoveClientLabel. auto with preserves.
  - unfold BlacklistClient. auto with preserves.
  - apply preserves_bind; [|intros; apply preserves_ret]. apply keeps_inTx, keeps_preserves.
    apply preserves_bind; [apply preserves_now|]. intros t. apply preserves_bind; [|solve_preserves].
    apply preserves_insertMyContact; apply uint64ToBytes_length.
  - apply preserves_bind; [apply preserves_ListClientContacts|intros; apply preserves_ret].
  - unfold LinkMessagesToContact. destruct (Hex.ParseUint16 contact); [|apply preserves_fail..].
    apply keeps_inTx, keeps_preserves. solve_preserves.
  - unfold RecordResourceUsageData. destruct (checkValid _); [|apply preserves_fail..].
    destruct (checkValid _); [|apply preserves_fail..]. apply keeps_inTx, keeps_preserves. solve_preserves.
  - apply preserves_bind; [|intros; apply preserves_ret]. unfold FetchResourceUsageRecords.
    apply preserves_bind; [apply preserves_lift|]. intros start'. apply preserves_bind; [apply preserves_lift|]. intros stop'.
    destruct (_ <? _)%Z; [apply preserves_fail|]. apply keeps_inTx, keeps_preserves. solve_preserves.
Qed.

(** C7: whatever the operations return, and in whatever order they run, rows about
    a client refer to a client that exists, and ids, nonces and contact ids
    can be read back. *)
Theorem my_client_store_invariant ops w :
  Forall validOp ops -> myFk (w_data w) -> myFk (w_data (foldl (fun w op => snd (runClientOp op w)) w ops)).
Proof using EO.
  intros Hops. revert w. induction Hops as [|op ops Hop _ IH]; intros w Hw; [done|]. cbn. apply IH.
  exact (preserves_clientOp op Hop w Hw).
Qed.
End Ops.

(** ** What single operations do *)
Lemma my_elem_of_clientWith k id t : k ∈ (clientWith id t).*1 <-> id = Some k /\ is_Some (tClients t !! k).
Proof.
  unfold clientWith. destruct id as [k'|]; cbn; [|set_solver]. destruct (tClients t !! k') eqn:H; cbn.
  - rewrite list_elem_of_singleton. naive_solver.
  - rewrite elem_of_nil. split; [done|]. intros [[= ->] []]. congruence.
Qed.

Section Effects.
Context `{P : Platform} {HP : PlatformOK P} `{E : MySqlEngine}.

(** No result set is cut off. *)
Definition wholeRows : Prop := forall n, rowsCut n = None.

Lemma rowsOf_Ok {R} (f : Tables -> list R) r w w' :
  rowsOf f w = (Ok r, w') -> w_data w' = w_data w /\
  exists l, l ≡ₚ f (w_data w) /\ r.1 `prefix_of` l /\ (r.2 = None -> r.1 = l) /\ (wholeRows -> r.2 = None).
Proof using HP.
  unfold rowsOf. intros H. apply bind_Ok in H as (l & w1 & H1 & H).
  apply query_Ok in H1 as (_ & (l0 & [= <-] & ->) & ->). apply bind_Ok in H as (cut & w2 & [Hcut0 ->]%interact_Ok & H).
  apply ret_Ok in H as [<- <-]. split; [done|].
  exists (deliver (w_step w) R (f (w_data w))). split; [apply deliver_perm|].
  assert (Hcut : wholeRows -> cut = None).
  { intros Hw. injection Hcut0 as <-. apply Hw. }
  destruct cut as [[k e]|]; [|done]. split; [apply prefix_take|]. split; [done|]. intros Hw. by specialize (Hcut Hw).
Qed.

Lemma safe_rowsOf {R} (f : Tables -> list R) w (Q : list R * option goerror -> World Tables -> Prop) :
  (forall r w', w_data w' = w_data w -> (exists l, l ≡ₚ f (w_data w) /\ r.1 `prefix_of` l /\ (r.2 = None -> r.1 = l) /\ (wholeRows -> r.2 = None)) -> Q r w') ->
  safe (rowsOf f) w Q.
Proof using HP.
  intros H. unfold safe. destruct (rowsOf f w) as [[r|e|c] w'] eqn:Hr; [|done|].
  - apply rowsOf_Ok in Hr as [? ?]. by apply H.
  - unfold rowsOf, query, mbind, M_bind in Hr. by destruct (sqlFault (w_step w)).
Qed.

(** A client on the list: its row, and its labels. *)
Definition listedAs (t : Tables) (labels : string -> list Label.t -> Prop) (k : string) (c : Client.t) : Prop :=
  exists r c0 ls, tClients t !! k = Some r /\ clientOfRow k r = Ok c0 /\ labels k ls /\ c = addLabels ls c0.

(** The clients asked for. *)
Definition asked (ids : list ClientID.t) (t : Tables) (k : string) : Prop :=
  (ids = [] \/ Some k ∈ ClientID.Bytes <$> ids) /\ is_Some (tClients t !! k).

Definition fresh (t : Tables) (m : gmap string Client.t) : Prop :=
  forall k c, m !! k = Some c -> exists r, tClients t !! k = Some r /\ clientOfRow k r = Ok c.

Lemma my_safe_readClients t g m w :
  w_data w = t -> fresh t m -> (forall kr, kr ∈ g t -> tClients t !! kr.1 = Some kr.2) ->
  safe (readClients g m) w (fun m' w' => w_data w' = t /\ fresh t m' /\
    forall k, is_Some (m' !! k) <-> is_Some (m !! k) \/ k ∈ (g t).*1).
Proof using HP.
  intros Hd Hm Hg. apply safe_bind, safe_rowsOf. intros [rows e] w1 Hw1 (l & Hl & Hpre & Hall & _). cbn in *.
  rewrite Hd in *. apply safe_bind.
  eapply safe_mono; [apply (safe_foldM _ (fun pre m' w' => w_data w' = t /\ fresh t m' /\
    forall k, is_Some (m' !! k) <-> is_Some (m !! k) \/ k ∈ pre.*1))|].
  - split; [done|]. split; [done|]. set_solver.
  - intros pre [k r] post b s Hrows (Hs & Hb & Hdom).
    assert (Hk : tClients t !! k = Some r).
    { apply (Hg (k, r)). rewrite <- Hl. apply (elem_of_prefix rows); [|done]. rewrite Hrows. set_solver. }
    apply safe_bind, safe_lift; [|intros why; unfold clientOfRow; by destruct (tspbCheckValid _)].
    intros c Hc. apply safe_ret. split; [done|]. split.
    + intros k' c'. rewrite lookup_insert. case_decide; [|by apply Hb]. intros [= <-]. subst. by exists r.
    + intros k'. rewrite lookup_insert_is_Some', fmap_app. cbn. set_solver.
  - cbn. intros m' s (H1 & H2 & H3). apply safe_bind. unfold rowsErr.
    destruct e; [apply safe_fail|]. apply safe_ret, safe_ret. split; [done|]. split; [done|].
    intros k. by rewrite H3, (Hall eq_refl), Hl.
Qed.

Lemma my_safe_readAll t ids w :
  w_data w = t ->
  safe (if decide (ids = []) then readClients (fun t => map_to_list (tClients t)) ∅
        else foldM (fun m id => readClients (clientWith (ClientID.Bytes id)) m) ids ∅) w
    (fun m w' => w_data w' = t /\ fresh t m /\ forall k, is_Some (m !! k) <-> asked ids t k).
Proof using HP.
  intros Hd. unfold asked.
  assert (He : fresh t ∅) by (intros k c; by rewrite lookup_empty).
  assert (Hn : forall k, ~ is_Some ((∅ : gmap string Client.t) !! k)) by (intros k; rewrite lookup_empty; by intros []).
  case_decide as Hids.
  - eapply safe_mono; [apply (my_safe_readClients t); try done|].
    + intros [k r] Hk. by apply elem_of_map_to_list in Hk.
    + cbn. intros m s (H1 & H2 & H3). split; [done|]. split; [done|]. intros k. rewrite H3, list_elem_of_fmap. split.
      * intros [[]%Hn|([k' r] & -> & Hk%elem_of_map_to_list)]. split; [by left|by eexists].
      * intros [_ [r Hr]]. right. exists (k, r). split; [done|]. by apply elem_of_map_to_list.
  - eapply safe_mono; [apply (safe_foldM _ (fun pre m w' => w_data w' = t /\ fresh t m /\
      forall k, is_Some (m !! k) <-> Some k ∈ ClientID.Bytes <$> pre /\ is_Some (tClients t !! k)))|].
    + split; [done|]. split; [done|]. intros k. split; [by intros []%Hn|set_solver].
    + intros pre id post m s _ (H1 & H2 & H3). eapply safe_mono; [apply (my_safe_readClients t); try done|].
      * unfold clientWith. intros kr. destruct (ClientID.Bytes id) as [k|]; [|set_solver].
        destruct (tClients t !! k) eqn:Hk; [by intros ->%list_elem_of_singleton|set_solver].
      * cbn. intros m' s' (H1' & H2' & H3'). split; [done|]. split; [done|]. intros k.
        rewrite H3', H3, fmap_app, elem_of_app, my_elem_of_clientWith. cbn. rewrite list_elem_of_singleton. naive_solver.
    + cbn. intros m s (H1 & H2 & H3). split; [done|]. split; [done|]. naive_solver.
Qed.

(** The labels on the list. *)
Definition listedLabels (ids : list ClientID.t) (t : Tables) (k : string) (ls : list Label.t) : Prop :=
  if decide (ids = []) then
    ls ⊆+ labelsOf k (labelRows t) /\ (wholeRows -> ls ≡ₚ labelsOf k (labelRows t))
  else ls = [].

(** The hexadecimal form of an id is no id. *)
Lemma labelsWith_String t id : myFk t -> ClientID.valid id -> labelsWith (Some (ClientID.String id)) t = [].
Proof using Type.
  intros Ht Hid. apply filter_none. intros row Hrow. cbn. intros [= He].
  unfold labelRows in Hrow. apply list_elem_of_fmap in Hrow as ([[[k s] l] v] & -> & Hv%elem_of_map_to_list).
  pose proof (k_client _ Ht k (k_label _ Ht k s l (mk_is_Some _ _ Hv))) as Hk. cbn in He. subst k.
  unfold ClientID.String, ClientID.IsNil in Hk. destruct id as [b], Hid as [Hid|Hid]; cbn in *.
  - by destruct b.
  - destruct (String.eqb_spec b ""); [done|]. rewrite Hex.Encode_length in Hk. lia.
Qed.

Lemma my_safe_labelAll t ids m w :
  myFk t -> Forall ClientID.valid ids -> w_data w = t -> (forall k, is_Some (m !! k) <-> asked ids t k) ->
  safe (if decide (ids = []) then readLabels labelRows m
        else foldM (fun m id => readLabels (labelsWith (Some (ClientID.String id))) m) ids m) w
    (fun m' w' => exists ls, (forall k, listedLabels ids t k (ls k)) /\ forall k, m' !! k = addLabels (ls k) <$> m !! k).
Proof using HP.
  intros Ht Hids Hd Hm. unfold listedLabels. case_decide as Hnil.
  - apply safe_bind, safe_rowsOf. intros [rows e] w1 Hw1 (l & Hl & Hpre & Hall & Hwhole). cbn in *. rewrite Hd in *.
    assert (Hsub : forall k, labelsOf k rows ⊆+ labelsOf k (labelRows t)).
    { intros k. rewrite <- Hl. destruct Hpre as [suf ->]. rewrite labelsOf_app. apply submseteq_inserts_r. done. }
    eapply safe_mono; [apply safe_addLabelRows|].
    + intros row Hrow. apply Hm. split; [by left|].
      apply (elem_of_prefix _ l) in Hrow; [|done]. rewrite Hl in Hrow. unfold labelRows in Hrow.
      apply list_elem_of_fmap in Hrow as ([[[k s] lb] v] & -> & Hv%elem_of_map_to_list). by eapply k_label.
    + cbn. intros m' s (-> & Hm'). exists (fun k => labelsOf k rows). split; [|done]. intros k. split; [done|].
      intros Hw. rewrite (Hall (Hwhole Hw)). by rewrite Hl.
  - eapply safe_mono; [apply (safe_foldM _ (fun pre m' w' => w_data w' = t /\ m' = m))|].
    + done.
    + intros pre id post m' s Hsplit [Hs ->]. apply safe_bind, safe_rowsOf. intros [rows e] w1 Hw1 (l & Hl & Hpre & _).
      cbn in *. rewrite Hs, labelsWith_String in Hl; [|done|].
      * apply Permutation_nil_r in Hl as ->. apply prefix_nil_inv in Hpre as ->. apply safe_ret. by rewrite Hw1.
      * subst ids. apply Forall_app in Hids as [_ Hids]. by inversion Hids.
    + cbn. intros m' s [_ ->]. exists (fun _ => []). split; [done|]. intros k. apply addLabels_nil.
Qed.

(** ListClients does not panic and lists each client asked for that exists
    once, with the data of its row.  When all clients are listed each comes
    with its labels; but of clients listed by id the labels are
    missing, as they are looked up by the hexadecimal form of the id. *)
Theorem my_list_clients_spec (ids : list ClientID.t) w :
  myFk (w_data w) -> Forall ClientID.valid ids ->
  (forall why, fst (ListClients ids w) <> Crash why) /\
  (forall cs w', ListClients ids w = (Ok cs, w') ->
   exists ks, NoDup ks /\ (forall k, k ∈ ks <-> asked ids (w_data w) k) /\
     Forall2 (listedAs (w_data w) (listedLabels ids (w_data w))) ks cs).
Proof using HP.
  intros Hfk Hids.
  enough (H : safe (ListClients ids) w (fun cs w' =>
    exists ks, NoDup ks /\ (forall k, k ∈ ks <-> asked ids (w_data w) k) /\
     Forall2 (listedAs (w_data w) (listedLabels ids (w_data w))) ks cs)).
  { split; [intros why; by eapply safe_no_crash|]. intros cs w' H'. by apply (safe_Ok _ _ _ _ _ H H'). }
  apply safe_bind, safe_inTx. intros n. apply safe_bind.
  eapply safe_mono; [by apply (my_safe_readAll (w_data w) ids)|]. cbn. intros m1 w1 (Hw1 & Hfresh & Hdom).
  eapply safe_mono; [by apply (my_safe_labelAll (w_data w) ids m1)|]. cbn. intros m2 w2 (ls & Hls & Hm2) n'.
  apply safe_bind, safe_interact; [by intros|]. intros kvs [= <-]. apply safe_ret.
  set (kvs := deliver _ _ _). assert (Hkvs : kvs ≡ₚ map_to_list m2) by apply deliver_perm.
  exists (kvs.*1). split; [|split].
  - rewrite Hkvs. apply NoDup_fst_map_to_list.
  - intros k. rewrite Hkvs, <- Hdom, <- (fmap_is_Some (addLabels (ls k))), <- Hm2, list_elem_of_fmap. split.
    + intros ([k' c] & -> & Hk%elem_of_map_to_list). by eexists.
    + intros [c Hc]. exists (k, c). split; [done|]. by apply elem_of_map_to_list.
  - apply Forall2_fmap_l, Forall2_fmap_r, Forall_Forall2_diag, Forall_forall. intros [k c].
    rewrite Hkvs, elem_of_map_to_list, Hm2. cbn. intros (c0 & Hc0 & ->)%fmap_Some.
    destruct (Hfresh k c0 Hc0) as (r & Hr & Hc). by exists r, c0, (ls k).
Qed.

(** *** Statements outside the transaction *)

(** [n] statements that do [f], one after the other. *)
Inductive applied (f : Tables -> outcome Tables) : nat -> Tables -> Tables -> Prop :=
| applied_none t : applied f 0 t t
| applied_next n t t1 t2 : applied f n t t1 -> f t1 = Ok t2 -> applied f (S n) t t2.

Lemma onOwnConnection_exec f w :
  let '(r, w') := onOwnConnection (exec f) w in
  exists n, applied f n (w_data w) (w_data w') /\ (isOk r = true -> 0 < n).
Proof using Type.
  unfold onOwnConnection. set (J := fun p : unit * Tables => exists n, applied f n (w_data w) p.2).
  assert (HJ : separable J) by (by intros ????).
  set (m := onPart snd (fun t s => (s.1, t)) (exec f)). assert (Hm : preserves (onData J) m).
  { intros [[u t] k] [n Hn]. unfold m, onPart, exec. cbn in *. destruct (sqlFault k); [by exists n|].
    destruct (f t) as [t'|e|c] eqn:Hf; [|by exists n..]. exists (S n). by eapply applied_next. }
  assert (H0 : onData J (mkWorld (tt, w_data w) (w_step w))) by (exists 0; constructor).
  pose proof (preserves_myRunInTx J m HJ Hm _ H0) as [n Hn].
  destruct (runInTx m _) as [r w'] eqn:Hr. cbn in *. destruct r as [u|e|c]; [|by exists n..].
  apply myRunInTx_Ok in Hr as (k & w0 & w1 & Ha & _ & Hf & Hd).
  destruct (again_preserves J m k _ w0 HJ Hm Ha H0) as [n0 Hn0].
  unfold m in Hf. apply onPart_Ok in Hf as (w2 & Hf & ->). apply exec_Ok in Hf as (_ & Hf & _). cbn in *.
  rewrite Hd. exists (S n0). split; [by eapply applied_next|lia].
Qed.

(** A label that is added, in a row that the engine can store. *)
Definition withLabel (id : gobytes) (l : Label.t) (t t' : Tables) : Prop :=
  exists k svc lbl, id = Some k /\ text (VARCHAR 128) (Label.ServiceName l) = Some svc /\
    text (VARCHAR 128) (Label.Label l) = Some lbl /\ is_Some (tClients t !! k) /\
    let key := labelKey k (Label.Mk svc lbl) in
    tLabels t !! key = None /\ t' = setTLabels (<[key := (svc, lbl)]> (tLabels t)) t.

Lemma insertLabel_applied id l n t t' :
  applied (fun t =>
    k ← notNull id;
    svc ← store (VARCHAR 128) (Label.ServiceName l);
    lbl ← store (VARCHAR 128) (Label.Label l);
    let key := labelKey k (Label.Mk svc lbl) in
    _ ← constraint (bool_decide (tLabels t !! key = None)) "client_labels.PRIMARY";
    _ ← constraint (bool_decide (is_Some (tClients t !! k))) "client_labels_fk_1";
    Ok (setTLabels (<[key := (svc, lbl)]> (tLabels t)) t)) n t t' ->
  t' = t /\ n = 0 \/ withLabel id l t t' /\ n = 1.
Proof using Type.
  induction 1 as [t|n t t1 t2 _ IH H]; [by left|]. right.
  apply outcome_bind_Ok in H as (k & Hk & H). apply outcome_bind_Ok in H as (svc & Hs & H).
  apply outcome_bind_Ok in H as (lbl & Hl & H). cbv zeta in H.
  apply outcome_bind_Ok in H as (? & Hn%constraint_Ok%bool_decide_eq_true & H).
  apply outcome_bind_Ok in H as (? & Hc%constraint_Ok%bool_decide_eq_true & [= <-]).
  unfold notNull, store in *. destruct id as [k'|]; [|done]. injection Hk as <-.
  destruct (text _ (Label.ServiceName l)) eqn:Hs'; [|done]. destruct (text _ (Label.Label l)) eqn:Hl'; [|done].
  injection Hs as <-. injection Hl as <-.
  destruct IH as [[-> ->]|[(k2 & s2 & l2 & [= <-] & Hs2 & Hl2 & _ & _ & ->) _]].
  - split; [|done]. unfold withLabel. by eauto 10.
  - exfalso. rewrite Hs' in Hs2. rewrite Hl' in Hl2. injection Hs2 as <-. injection Hl2 as <-.
    cbn in Hn. by rewrite lookup_insert_eq in Hn.
Qed.

Lemma idempotent_applied f n t t' : (forall t1 t2, f t1 = Ok t2 -> f t2 = Ok t2) -> applied f n t t' ->
  0 < n -> f t = Ok t'.
Proof using Type.
  intros Hf. induction 1 as [t|n t t1 t2 Ha IH H]; intros Hn; [lia|].
  destruct n as [|n]; [by inversion Ha; subst|]. specialize (IH ltac:(lia)). rewrite IH in *.
  pose proof (Hf _ _ IH). congruence.
Qed.

(** What changes one label or flag is done once or not at all, however often it
    is tried: if there is no error it is done.  The converse does not hold,
    as the statement is not part of the transaction: with an error it may
    or may not be done. *)
Theorem label_and_flag_changes_spec id l w :
  (let '(r, w') := AddClientLabel id l w in
   (w_data w' = w_data w /\ isOk r = false) \/ withLabel (ClientID.Bytes id) l (w_data w) (w_data w')) /\
  (let '(r, w') := RemoveClientLabel id l w in
   (w_data w' = w_data w /\ isOk r = false) \/
   w_data w' = match ClientID.Bytes id with
               | Some k => setTLabels (delete (labelKey k l) (tLabels (w_data w))) (w_data w) | None => w_data w end) /\
  (let '(r, w') := BlacklistClient id w in
   (w_data w' = w_data w /\ isOk r = false) \/
   w_data w' = alterClient (setBlacklisted true) (ClientID.Bytes id) (w_data w)).
Proof using Type.
  split; [|split].
  - pose proof (onOwnConnection_exec (fun t =>
      k ← notNull (ClientID.Bytes id);
      svc ← store (VARCHAR 128) (Label.ServiceName l);
      lbl ← store (VARCHAR 128) (Label.Label l);
      let key := labelKey k (Label.Mk svc lbl) in
      _ ← constraint (bool_decide (tLabels t !! key = None)) "client_labels.PRIMARY";
      _ ← constraint (bool_decide (is_Some (tClients t !! k))) "client_labels_fk_1";
      Ok (setTLabels (<[key := (svc, lbl)]> (tLabels t)) t)) w) as H.
    unfold AddClientLabel, insertLabel. destruct (onOwnConnection _ w) as [r w']. destruct H as (n & Ha & Hn).
    apply insertLabel_applied in Ha as [[Hd ->]|[Hd _]]; [left|by right]. split; [done|].
    destruct (isOk r); [|done]. specialize (Hn eq_refl). lia.
  - set (f := fun t => Ok (match ClientID.Bytes id with
       | Some k => setTLabels (delete (labelKey k l) (tLabels t)) t | None => t end)).
    pose proof (onOwnConnection_exec f w) as H. unfold RemoveClientLabel, deleteLabel. fold f.
    destruct (onOwnConnection _ w) as [r w']. destruct H as (n & Ha & Hn). destruct n as [|n].
    + left. inversion Ha. split; [done|]. destruct (isOk r); [|done]. specialize (Hn eq_refl). lia.
    + right. apply idempotent_applied in Ha; [by injection Ha as <-| |lia]. unfold f. intros t1 t2 [= <-].
      destruct (ClientID.Bytes id); [|done]. cbn. by rewrite delete_delete_eq.
  - set (f := fun t => Ok (alterClient (setBlacklisted true) (ClientID.Bytes id) t)).
    pose proof (onOwnConnection_exec f w) as H. unfold BlacklistClient. fold f.
    destruct (onOwnConnection _ w) as [r w']. destruct H as (n & Ha & Hn). destruct n as [|n].
    + left. inversion Ha. split; [done|]. destruct (isOk r); [|done]. specialize (Hn eq_refl). lia.
    + right. apply idempotent_applied in Ha; [by injection Ha as <-| |lia]. unfold f. intros t1 t2 [= <-].
      destruct (ClientID.Bytes id) as [k|]; [|done]. cbn. unfold setTClients. cbn. do 2 f_equal.
      apply map_eq. intros i. rewrite !lookup_alter. case_decide; [|done]. rewrite decide_True by done. by destruct (tClients t1 !! k) as [[]|].
Qed.

(** *** Contacts *)
Definition contactOf (r : contactRow) : option ClientContact.t :=
  match contactOfRow r with Ok c => Some c | _ => None end.

Lemma callBack_Ok {X A} (callback : X -> A -> X * option goerror) a (w : World (Tables * X)) u w' :
  callBack callback a w = (Ok u, w') ->
  w_data w' = (fst (w_data w), (callback (snd (w_data w)) a).1) /\ (callback (snd (w_data w)) a).2 = None.
Proof using Type.
  unfold callBack, getVars, gets, setVars, mbind, M_bind. destruct (callback _ a) as [x' e]. cbn.
  destruct e; [done|]. by intros [= _ <-].
Qed.

Lemma streamed_Ok id (w : World (Tables * list ClientContact.t)) u w' :
  wholeRows -> streamClientContacts id (fun res c => (res ++ [c], None)) w = (Ok u, w') ->
  fst (w_data w') = fst (w_data w) /\
  exists cs, snd (w_data w') = snd (w_data w) ++ cs /\ cs ≡ₚ omap contactOf (contactsOf (ClientID.Bytes id) (fst (w_data w))).
Proof using HP.
  intros Hw H. destruct u. apply bind_Ok in H as (rows & w1 & H1 & H). unfold onTables in H1.
  apply onPart_Ok in H1 as (w2 & H1 & ->). apply rowsOf_Ok in H1 as (Hd & l & Hl & _ & Hall & Hwhole).
  cbn in Hd, Hl. rewrite (Hall (Hwhole Hw)) in H. rewrite Hd in H.
  apply (forM_Ok_inv _ (fun pre s => fst (w_data s) = fst (w_data w) /\
    snd (w_data s) = snd (w_data w) ++ omap contactOf pre)) in H.
  - destruct H as [H2 H3]. split; [done|]. exists (omap contactOf l). split; [done|]. by rewrite Hl.
  - cbn. by rewrite app_nil_r.
  - intros pre r post s s1 _ [Hs1 Hs2] Hr. apply bind_Ok in Hr as (c & s2 & [Hc <-]%lift_Ok & Hr).
    apply callBack_Ok in Hr as [Hd1 _]. rewrite Hd1. cbn. split; [done|].
    rewrite omap_app, Hs2, <- app_assoc. cbn. unfold contactOf. by rewrite Hc.
Qed.

Lemma my_ListClientContacts_Ok id w cs w' :
  wholeRows -> ListClientContacts id w = (Ok cs, w') ->
  w_data w' = w_data w /\ cs ≡ₚ omap contactOf (contactsOf (ClientID.Bytes id) (w_data w)).
Proof using HP.
  intros Hw H. apply bind_Ok in H as ([u v] & w1 & H1 & [<- <-]%ret_Ok). unfold withVars in H1.
  destruct (runInTx _ _) as [[x|e|c] w2] eqn:Hr; [|done..]. injection H1 as <- <- <-.
  apply myRunInTx_Ok in Hr as (k & w0 & w3 & _ & Ht & Hf & Hd). cbn in Ht.
  apply bind_Ok in Hf as ([] & w4 & [= <-] & Hf). apply streamed_Ok in Hf as (H2 & cs & H3 & H4); [|done]. cbn in *.
  rewrite Hd, H2, H3, Ht in *. done.
Qed.

Lemma my_contactOf_new k n sn rn addr :
  isU64 sn -> isU64 rn -> tspbCheckValid (tspbNew n) = None ->
  contactOf (mkContactRow k n (uint64ToBytes sn) (uint64ToBytes rn) (Some addr)) =
    Some (ClientContact.Mk sn rn addr (tspbNew n)).
Proof using Type.
  intros Hs Hr Hv. unfold contactOf, contactOfRow. cbn [cc_sent_nonce cc_received_nonce cc_time cc_address].
  rewrite !uint64_roundtrip by done. cbn [mbind outcome_bind]. by rewrite Hv.
Qed.

Lemma my_RecordClientContact_Ok data w cid w1 :
  RecordClientContact data w = (Ok cid, w1) ->
  exists c k t n addr f, cid = Hex.FormatUint16 (wrapU64 c) /\ ClientID.Bytes (DbContactData.ClientID data) = Some k /\
    autoIncrement n (tContacts (w_data w)) = Some c /\ text (VARCHAR 64) (DbContactData.Addr data) = Some addr /\
    is_Some (tClients (w_data w) !! k) /\
    w_data w1 = alterClient f (Some k) (setTContacts (<[c := mkContactRow k (UnixNano t)
        (uint64ToBytes (DbContactData.NonceSent data)) (uint64ToBytes (DbContactData.NonceReceived data)) (Some addr)]>
        (tContacts (w_data w))) (w_data w)) /\
    forall r, last_contact_time (f r) = UnixNano t.
Proof using Type.
  intros (n & w2 & H & ->)%inTx_Ok. apply bind_Ok in H as (t & w3 & [_ ->]%interact_Ok & H).
  apply bind_Ok in H as (c & w4 & H1 & H). apply bind_Ok in H1 as (next & w5 & [[= <-] ->]%interact_Ok & H1).
  apply execN_Ok in H1 as (_ & H1 & _). cbn in H1. apply outcome_bind_Ok in H1 as (k & Hk & H1).
  apply outcome_bind_Ok in H1 as (addr & Ha & H1).
  apply outcome_bind_Ok in H1 as (? & Hc%constraint_Ok%bool_decide_eq_true & H1).
  destruct (autoIncrement _ _) as [c'|] eqn:Hi; [|done]. injection H1 as <- H1.
  apply bind_Ok in H as ([] & w6 & H2 & [<- <-]%ret_Ok). apply exec_Ok in H2 as (_ & H2 & _).
  repeat (apply outcome_bind_Ok in H2 as (? & _ & H2)). injection H2 as H2.
  unfold notNull in Hk. destruct (ClientID.Bytes _) as [k'|]; [|done]. injection Hk as ->.
  unfold store in Ha. destruct (text _ _) as [addr'|] eqn:Hx; [|done]. injection Ha as ->.
  eexists c', k, t, _, addr, _. split; [done|]. split; [done|]. split; [exact Hi|]. split; [done|]. split; [done|].
  split; [rewrite <- H2, <- H1; reflexivity|]. done.
Qed.

(** A contact that is recorded is in the history of its client, and in nobody
    else's, with its nonces and the address as the engine stores it, under
    an id that was not in use and that LinkMessagesToContact can parse. *)
Theorem my_record_client_contact_spec data w cid w1 :
  MySqlEngineOK E -> isU64 (DbContactData.NonceSent data) -> isU64 (DbContactData.NonceReceived data) ->
  RecordClientContact data w = (Ok cid, w1) ->
  (exists c, Hex.ParseUint16 cid = Ok c /\ tContacts (w_data w) !! c = None /\ is_Some (tContacts (w_data w1) !! c)) /\
  (exists t addr, text (VARCHAR 64) (DbContactData.Addr data) = Some addr /\
   forall id r0 r1 n n' w' w1', wholeRows ->
     ListClientContacts id (mkWorld (w_data w) n) = (Ok r0, w') ->
     ListClientContacts id (mkWorld (w_data w1) n') = (Ok r1, w1') ->
     r1 ≡ₚ (if decide (ClientID.Bytes id = ClientID.Bytes (DbContactData.ClientID data))
            then [ClientContact.Mk (DbContactData.NonceSent data) (DbContactData.NonceReceived data) addr (tspbNew (UnixNano t))]
            else []) ++ r0) /\
  tMessages (w_data w1) = tMessages (w_data w) /\ tPending (w_data w1) = tPending (w_data w).
Proof using HP.
  intros HE Hs Hr (c & k & t & n0 & addr & f & -> & Hk & Hi & Ha & _ & Hd & _)%my_RecordClientContact_Ok.
  apply autoIncrement_new in Hi as [Hn Hc]. split; [|split; [|by rewrite Hd]].
  - exists c. rewrite wrapU64_small by (unfold isU64; lia). rewrite Hex.ParseUint16_Format by (unfold isU64; lia).
    split; [done|]. split; [done|]. rewrite Hd. cbn. rewrite lookup_insert_eq. by eexists.
  - exists t, addr. split; [done|]. intros id r0 r1 n n' w' w1' Hw [_ H0]%my_ListClientContacts_Ok [_ H1]%my_ListClientContacts_Ok; [|done..].
    rewrite H1, H0, Hk. cbn [w_data]. rewrite Hd. unfold contactsOf. cbn.
    rewrite map_to_list_insert by done. rewrite filter_cons. cbn [snd cc_client_id].
    case_decide as Hid; rewrite ?decide_True, ?decide_False by congruence; [|done].
    cbn [fmap list_fmap omap list_omap snd app]. rewrite my_contactOf_new; [done..|]. apply tspb_valid, wrapI64_range.
Qed.
End Effects.

(** ** Witnesses, and what goes wrong *)
Definition secondClientID : ClientID.t := ClientID.Mk (bytesOfNat 78 8).
Definition myClientOps : list clientOp := [OpAddClient exampleClientID sampleClient; OpAddClient secondClientID sampleClient].
Definition myClients : World Tables := foldl (fun w op => snd (runClientOp op w)) (mkWorld emptyTables 0) myClientOps.

Lemma myClientOps_valid : Forall validOp myClientOps.
Proof. repeat constructor; by right. Qed.

Lemma my_client_store_invariant_witness : myFk (w_data myClients).
Proof. exact (my_client_store_invariant myClientOps (mkWorld emptyTables 0) myClientOps_valid myFk_empty). Defined.

Lemma myClients_fk : myFk (w_data myClients).
Proof.
  unfold myClients, myClientOps. cbn [foldl].
  do 2 (apply (preserves_clientOp (OpAddClient _ _)); [by right|]). exact myFk_empty.
Qed.

Definition myListing := ListClients [exampleClientID] myClients.
Lemma my_list_clients_spec_witness :
  exists cs, fst myListing = Ok cs /\ length cs = 1 /\
    exists ks, NoDup ks /\ Forall2 (listedAs (w_data myClients) (listedLabels [exampleClientID] (w_data myClients))) ks cs.
Proof.
  assert (H : exists cs, fst myListing = Ok cs /\ length cs = 1) by (vm_compute; eexists; split; reflexivity).
  destruct H as (cs & H & Hl). exists cs. split; [exact H|]. split; [exact Hl|].
  assert (Hv : Forall ClientID.valid [exampleClientID]) by (repeat constructor; by right).
  destruct (my_list_clients_spec [exampleClientID] myClients myClients_fk Hv) as [_ Hs].
  destruct (Hs cs (snd myListing)) as (ks & H1 & _ & H2).
  - rewrite <- H. apply surjective_pairing.
  - exists ks. exact (conj H1 H2).
Defined.

Definition myContact := RecordClientContact sampleContact myClients.
Lemma my_record_client_contact_spec_witness :
  exists cid c, fst myContact = Ok cid /\ Hex.ParseUint16 cid = Ok c /\ is_Some (tContacts (w_data (snd myContact)) !! c).
Proof.
  assert (H : fst myContact = Ok "1"%string) by (vm_compute; reflexivity).
  assert (H' : myContact = (Ok "1"%string, snd myContact)) by (rewrite <- H; apply surjective_pairing).
  destruct (my_record_client_contact_spec sampleContact myClients "1"%string (snd myContact) TestEngineOK
    ltac:(by split) ltac:(by split) H') as [(c & H1 & _ & H2) _].
  exists "1"%string, c. exact (conj H (conj H1 H2)).
Defined.

(** The same client, listed by its id and among all, and read by its id. *)
Definition labelCounts (r : outcome (list Client.t)) : outcome (list nat) :=
  r ≫= fun cs => Ok (map (fun c => length (Client.Labels c)) cs).
Example labels_lost :
  labelCounts (fst (ListClients [exampleClientID] myClients)) = Ok [0] /\
  labelCounts (fst (ListClients [] myClients)) = Ok [2; 2] /\
  (cd ← fst (GetClientData exampleClientID myClients); Ok (length (ClientData.Labels cd))) = Ok 2.
Proof. split; [|split]; vm_compute; reflexivity. Qed.

(** As the test engine, with a connection that breaks after one row. *)
Definition BreaksAfterOne : MySqlEngine := {|
  fits := fits; stored := stored; textFits := textFits; text := text; unsigned := unsigned; real := real;
  collate := collate; autoIncrement := autoIncrement; rowsCut _ := Some (1, 0%Z); commitLost := commitLost;
  ctxDone := ctxDone; mathRand := mathRand
|}.
Definition collectIds (l : list ClientID.t) (i : ClientID.t) : list ClientID.t * option goerror := (l ++ [i], None).

(** Of two clients one is streamed, and there is no error; another operation
    reports it. *)
Example stream_cut_silently :
  let w := mkWorld (w_data myClients, []) (w_step myClients) in
  let r := StreamClientIds (E := BreaksAfterOne) true None collectIds w in
  fst r = Ok tt /\ length (snd (w_data (snd r))) = 1 /\
  length (snd (w_data (snd (StreamClientIds true None collectIds w)))) = 2 /\
  isOk (fst (ListClients (E := BreaksAfterOne) [] myClients)) = false.
Proof. do 3 (split; [vm_compute; reflexivity|]). vm_compute. reflexivity. Qed.

(** A client whose clock is set before 1970 cannot make contact, as its clock
    does not fit an UNSIGNED column. *)
Example early_clock_refused :
  let early := DbContactData.Mk exampleClientID 5 42 "10.0.0.1:4000" (Some (Timestamp.Mk (-1) 0)) "" [] in
  let late := DbContactData.Mk exampleClientID 5 42 "10.0.0.1:4000" (Some (Timestamp.Mk 1 0)) "" [] in
  isOk (fst (RecordClientContact early myClients)) = false /\ isOk (fst (RecordClientContact late myClients)) = true.
Proof. split; vm_compute; reflexivity. Qed.

(** A commit that fails: the flag is set all the same. *)
Definition FaultAt (n : nat) : Platform := {|
  clock := clock (Platform := TestPlatform);
  randRead := randRead (Platform := TestPlatform);
  serverRetryDelay := serverRetryDelay (Platform := TestPlatform);
  sha256 := sha256 (Platform := TestPlatform);
  deliver _ _ l := l;
  tieBreak _ _ l := l;
  sqlFault m := if m =? n then Some 1%Z else None;
|}.
Example blacklisted_with_error :
  let r := BlacklistClient (P := FaultAt 102) exampleClientID (mkWorld (w_data myClients) 100) in
  fst r = Err (ErrIO 1) /\ (cd ← fst (GetClientData exampleClientID (snd r)); Ok (ClientData.Blacklisted cd)) = Ok true.
Proof. split; vm_compute; reflexivity. Qed.
