(* ===== verification/MySqlBroadcasts.v ===== *)
(** * The MySQL datastore: broadcasts and files

    src/server/mysql/broadcaststore.go and src/server/mysql/filestore.go,
    operation by operation.  The arithmetic of allocations is that of every
    store (Db.v), and so is the invariant [ledger] (Ledger.v). *)
From Stdlib Require Import SpecFloat.
From S2P Require Import Prelude Platform Ids Proto Db Sqlite SqliteMessages SqliteClients Ledger SqliteBroadcasts.
From S2P Require Import MySql MySqlMessages MySqlClients.

(** ** Conversions; a row is kept with its key *)
Definition fromBroadcastProto (b : option Broadcast.t) : outcome (gobytes * broadcastRow) :=
  match b with
  | None => Err (ErrText "cannot convert nil Broadcast")
  | Some b =>
      id ← BroadcastID.BytesToBroadcastID (Broadcast.BroadcastId b);
      match Broadcast.Source b with
      | None => Err (ErrText "Broadcast must have Source.")
      | Some src =>
          Ok (BroadcastID.Bytes id,
              mkBroadcastRow (Address.ServiceName src) (Address.ServiceName <$> Broadcast.Destination b)
                (Broadcast.MessageType b)
                (Timestamp.Seconds <$> Broadcast.ExpirationTime b) (Timestamp.Nanos <$> Broadcast.ExpirationTime b)
                (Any.TypeUrl <$> Broadcast.Data b) (a ← Broadcast.Data b; Any.Value a) 0 0 0)
      end
  end.

Definition toBroadcastProto (bid : string) (b : broadcastRow) : outcome Broadcast.t :=
  id ← BroadcastID.BytesToBroadcastID (Some bid);
  Ok (Broadcast.Mk (BroadcastID.Bytes id) (Some (Address.Mk None (b_sourceServiceName b))) (b_messageType b) []
        (match b_expirationTimeSeconds b, b_expirationTimeNanos b with
         | Some s, Some n => Some (Timestamp.Mk s (wrapI32 n))
         | _, _ => None
         end)
        (match b_dataTypeURL b with Some u => Some (Any.Mk u (b_dataValue b)) | None => None end)
        (match b_destinationServiceName b with Some s => Some (Address.Mk None s) | None => None end) "").

Section Broadcasts.
Context `{P : Platform} `{L : ProtoLib} `{E : MySqlEngine} `{F : FloatConv}.

(** ** Creating *)
Definition storeOpt (c : column) (s : option string) : outcome (option string) :=
  match s with Some s => v ← store c s; Ok (Some v) | None => Ok None end.

Definition insertBroadcast (bid : gobytes) (r : broadcastRow) : My unit :=
  exec (fun t =>
    k ← notNull bid;
    src ← store (VARCHAR 128) (b_sourceServiceName r);
    dst ← storeOpt (VARCHAR 128) (b_destinationServiceName r);
    ty ← store (VARCHAR 128) (b_messageType r);
    url ← storeOpt (TEXT None) (b_dataTypeURL r);
    val ← storeOpt MEDIUMBLOB (b_dataValue r);
    _ ← constraint (bool_decide (tBroadcasts t !! k = None)) "broadcasts.PRIMARY";
    Ok (setTBroadcasts (<[k := mkBroadcastRow src dst ty (b_expirationTimeSeconds r) (b_expirationTimeNanos r)
          url val (b_sent r) (b_allocated r) (b_messageLimit r)]> (tBroadcasts t)) t)).

Definition insertBroadcastLabel (bid : gobytes) (l : Label.t) : My unit :=
  exec (fun t =>
    k ← notNull bid;
    svc ← store (VARCHAR 128) (Label.ServiceName l);
    lbl ← store (VARCHAR 128) (Label.Label l);
    let key := labelKey k (Label.Mk svc lbl) in
    _ ← constraint (bool_decide (tBroadcastLabels t !! key = None)) "broadcast_labels.PRIMARY";
    _ ← constraint (bool_decide (is_Some (tBroadcasts t !! k))) "broadcast_labels_fk_1";
    Ok (setTBroadcastLabels (<[key := (svc, lbl)]> (tBroadcastLabels t)) t)).

Definition CreateBroadcast (b : option Broadcast.t) (limit : Z) : My unit :=
  dbB ← lift (fromBroadcastProto b);
  let r := setCounters 0 0 limit dbB.2 in
  inTx (
    let group := match b with Some b => Broadcast.GroupName b | None => ""%string end in
    if negb (String.eqb group "") then
      fail (ErrWrap "broadcast replacement feature is not supported by the mysql datastore" ErrNotSupported)
    else
      insertBroadcast dbB.1 r ≫= fun _ =>
      forM_ (match b with Some b => Broadcast.RequiredLabels b | None => [] end) (insertBroadcastLabel dbB.1)).

(** UPDATE broadcasts(message_limit) VALUES(?) WHERE ... does not parse. *)
Definition SetBroadcastLimit (id : BroadcastID.t) (limit : Z) : My unit :=
  inTx (exec (fun _ => Err ErrSqlSyntax)).

(** ** Disabling *)
Definition updateCounters (f : broadcastRow -> broadcastRow) (bid : gobytes) (t : Tables) : Tables :=
  match bid with Some k => setTBroadcasts (alter f k (tBroadcasts t)) t | None => t end.
Definition allocationsWith (bid : gobytes) (t : Tables) : list allocationRow :=
  match bid with Some k => allocationsOf k (tAllocations t) | None => [] end.

(** One round of tryDisableBroadcasts; it looks at rs.Err. *)
Definition disableOne (bid : gobytes) : My unit :=
  rows ← rowsOf (fun t => (fun a => (a_sent a, a_message_limit a)) <$> allocationsWith bid t);
  rowsErr rows.2 ≫= fun _ =>
  let totals := foldl (fun (t : Z * Z) (r : Z * Z) => (wrapU64 (t.1 + r.1), wrapU64 (t.2 + r.2))) (0, 0)%Z rows.1 in
  exec (fun t => Ok (match bid with
    | Some k => setTAllocations (filter (fun ka => ka.1.1 <> k) (tAllocations t)) t | None => t end)) ≫= fun _ =>
  e ← try (queryRow (fun t => (fun b => (b_sent b, b_allocated b)) <$> at_ (tBroadcasts t) bid));
  match e with
  | inr ErrNoRows => mret tt
  | inr e => fail e
  | inl (bSent, bAllocated) =>
      let newAllocated := if (totals.2 <=? bAllocated)%Z then (bAllocated - totals.2)%Z else 0%Z in
      exec (fun t => Ok (updateCounters (setCounters (wrapU64 (bSent + totals.1)) newAllocated 0) bid t))
  end.

Definition tryDisableBroadcasts (bIDs : list BroadcastID.t) : My unit :=
  forM_ bIDs (fun bID => disableOne (BroadcastID.Bytes bID)).
Definition DisableBroadcasts (bIDs : list BroadcastID.t) : My unit :=
  if decide (bIDs = []) then mret tt else inTx (tryDisableBroadcasts bIDs).

(** ** Sending *)
Definition insertSent (bid cid : gobytes) : My unit :=
  exec (fun t =>
    b ← notNull bid;
    c ← notNull cid;
    _ ← constraint (bool_decide ((b, c) ∉ tSent t)) "broadcast_sent.PRIMARY";
    _ ← constraint (bool_decide (is_Some (tBroadcasts t !! b)) && bool_decide (is_Some (tClients t !! c))) "FOREIGN KEY";
    Ok (setTSent ({[(b, c)]} ∪ tSent t) t)).

(** sql.ErrNoRows becomes db.ErrBroadcastDisabled. *)
Definition orDisabled {A} (m : My A) : My A :=
  e ← try m;
  match e with
  | inl a => mret a
  | inr e => if errorsIs e ErrNoRows then fail ErrBroadcastDisabled else fail e
  end.

(** WHERE broadcast_id = ? AND allocation_id = ? *)
Definition allocationAt (bid : gobytes) (aid : string) (t : Tables) : option allocationRow :=
  k ← bid; tAllocations t !! (k, aid).
Definition alterAllocation (f : allocationRow -> allocationRow) (bid : gobytes) (aid : string) (t : Tables) : Tables :=
  match bid with Some k => setTAllocations (alter f (k, aid) (tAllocations t)) t | None => t end.

Definition trySaveBroadcast (dbm : myMessage) (bid cid : gobytes) (aID : AllocationID.t) : My unit :=
  tryStoreMessage dbm true ≫= fun _ =>
  if decide (blen (AllocationID.Bytes aID) = 0) then
    limit ← orDisabled (queryRow (fun t => b_messageLimit <$> at_ (tBroadcasts t) bid));
    if (limit =? 0)%Z then fail ErrBroadcastDisabled else insertSent bid cid
  else
    let aid := contents (AllocationID.Bytes aID) in
    a ← orDisabled (queryRow (allocationAt bid aid));
    if (a_message_limit a <=? a_sent a)%Z then fail (ErrText "SaveBroadcastMessage: broadcast allocation is full")
    else
      let exp := Timestamp.Mk (a_expiration_time_seconds a) (a_expiration_time_nanos a) in
      match tspbCheckValid exp with
      | Some _ => fail (ErrText "SaveBroadcastMessage: unable to convert expiry to time")
      | None =>
          t ← now;
          if (tspbAsTime exp <? t)%Z then fail (ErrText "SaveBroadcastMessage: broadcast allocation is expired")
          else
            insertSent bid cid ≫= fun _ =>
            exec (fun t => Ok (alterAllocation (setAllocSent (wrapU64 (a_sent a + 1))) bid aid t))
      end.

Definition SaveBroadcastMessage (msg : Message.t) (bID : BroadcastID.t) (cID : ClientID.t) (aID : AllocationID.t) : My unit :=
  dbm ← lift (fromMessageProto msg);
  inTx (trySaveBroadcast dbm (BroadcastID.Bytes bID) (ClientID.Bytes cID) aID).

(** ** Listing *)
Definition readActive (kb : string * broadcastRow) : My BroadcastInfo.t :=
  bp ← lift (toBroadcastProto kb.1 kb.2);
  mret (BroadcastInfo.Mk bp (b_sent kb.2) (b_messageLimit kb.2)).

Definition broadcastLabels (bid : gobytes) (t : Tables) : list Label.t :=
  (fun kv : string * string * string * (string * string) => Label.Mk kv.2.1 kv.2.2) <$>
    filter (fun kv => Some kv.1.1.1 = bid) (map_to_list (tBroadcastLabels t)).

Definition readActiveLabels (i : BroadcastInfo.t) : My BroadcastInfo.t :=
  id ← lift (BroadcastID.BytesToBroadcastID (Broadcast.BroadcastId (BroadcastInfo.Broadcast i)));
  ls ← rowsOf (broadcastLabels (BroadcastID.Bytes id));
  rowsErr ls.2 ≫= fun _ =>
  mret (BroadcastInfo.Mk (withLabels ls.1 (BroadcastInfo.Broadcast i)) (BroadcastInfo.Sent i) (BroadcastInfo.Limit i)).

Definition ListActiveBroadcasts : My (list BroadcastInfo.t) :=
  inTx (
    n ← NowProto;
    rows ← rowsOf (fun t => filter (fun kb => activeRow n kb.2 = true) (map_to_list (tBroadcasts t)));
    ret ← mapMs readActive rows.1;
    rowsErr rows.2 ≫= fun _ => mapMs readActiveLabels ret).

Definition ListSentBroadcasts (id : ClientID.t) : My (list BroadcastID.t) :=
  rows ← rowsOf (fun t => fst <$> filter (fun bc => Some bc.2 = ClientID.Bytes id) (elements (tSent t)));
  res ← mapMs (fun b =>
    match BroadcastID.BytesToBroadcastID (Some b) with
    | Ok bID => mret bID
    | Err _ => fail (ErrText "ListSentBroadcasts: bad broadcast id for client")
    | Crash why => crash why
    end) rows.1;
  rowsErr rows.2 ≫= fun _ => mret res.

(** ** Allocations *)
Definition readCounters (bid : gobytes) : My broadcastRow := queryRow (fun t => at_ (tBroadcasts t) bid).

Definition insertAllocation (bid : gobytes) (aid : string) (a : allocationRow) : My unit :=
  exec (fun t =>
    k ← notNull bid;
    _ ← constraint (bool_decide (tAllocations t !! (k, aid) = None)) "broadcast_allocations.PRIMARY";
    _ ← constraint (bool_decide (is_Some (tBroadcasts t !! k))) "broadcast_allocations_fk_1";
    Ok (setTAllocations (<[(k, aid) := a]> (tAllocations t)) t)).

(** The closure; [ret] is captured, and not reset. *)
Definition tryCreateAllocation (id : BroadcastID.t) (frac : spec_float) (expiry : Z) :
    M (World (Tables * option AllocationInfo.t)) unit :=
  let ep := tspbNew expiry in
  match tspbCheckValid ep with
  | Some e => fail e
  | None =>
      aid ← AllocationID.RandomAllocationID;
      let bid := BroadcastID.Bytes id in
      b ← onTables (readCounters bid);
      let '(toAllocate, newAllocated) :=
        ComputeBroadcastAllocation (b_messageLimit b) (b_allocated b) (b_sent b) frac in
      if (toAllocate =? 0)%Z then mret tt
      else
        onTables (exec (fun t => Ok (updateCounters (fun b => setCounters (b_sent b) newAllocated (b_messageLimit b) b) bid t))) ≫= fun _ =>
        onTables (insertAllocation bid (contents (AllocationID.Bytes aid))
          (mkAllocationRow 0 toAllocate (Timestamp.Seconds ep) (Timestamp.Nanos ep))) ≫= fun _ =>
        setVars (Some (AllocationInfo.Mk aid toAllocate expiry))
  end.

Definition CreateAllocation (id : BroadcastID.t) (frac : spec_float) (expiry : Z) : My (option AllocationInfo.t) :=
  r ← withVars None (runInTx (tryCreateAllocation id frac expiry)); mret r.2.

Definition CleanupAllocation (bID : BroadcastID.t) (aID : AllocationID.t) (finalSent : Z) : My unit :=
  let bid := BroadcastID.Bytes bID in
  let aid := contents (AllocationID.Bytes aID) in
  inTx (
    b ← readCounters bid;
    if decide (blen (AllocationID.Bytes aID) = 0) then
      exec (fun t => Ok (updateCounters (fun b' => setCounters (wrapU64 (b_sent b + finalSent)) (b_allocated b') (b_messageLimit b') b') bid t))
    else
      e ← try (queryRow (allocationAt bid aid));
      match e with
      | inr ErrNoRows => mret tt
      | inr e => fail e
      | inl a =>
          match ComputeBroadcastAllocationCleanup (a_message_limit a) (b_allocated b) with
          | Ok newAllocated =>
              exec (fun t => Ok (updateCounters (fun b' => setCounters (wrapU64 (b_sent b + finalSent)) newAllocated (b_messageLimit b') b') bid t)) ≫= fun _ =>
              exec (fun t => Ok (match bid with
                | Some k => setTAllocations (delete (k, aid) (tAllocations t)) t | None => t end))
          | _ => fail (ErrText "unable to clear allocation")
          end
      end).

(** ** Files *)
Definition fileKey (service name : string) : string * string := (collate service, collate name).

(** What io.ReadAll makes of the reader is an argument.  REPLACE INTO *)
Definition StoreFile (service name : string) (data : outcome string) : My unit :=
  b ← lift data;
  inTx (
    t ← now;
    exec (fun tb =>
      svc ← store (VARCHAR 128) service;
      nm ← store (VARCHAR 128) name;
      v ← store MEDIUMBLOB b;
      Ok (setTFiles (<[fileKey svc nm := (UnixNano t, Some v)]> (tFiles tb)) tb))).

Definition DeleteFile (service name : string) : My unit :=
  inTx (exec (fun t => Ok (setTFiles (delete (fileKey service name) (tFiles t)) t))).

Definition StatFile (service name : string) : My Z :=
  inTx (queryRow (fun t => fst <$> tFiles t !! fileKey service name)).

(** The data and the modification time. *)
Definition ReadFile (service name : string) : My (string * Z) :=
  r ← inTx (queryRow (fun t => tFiles t !! fileKey service name));
  mret (contents r.2, r.1).
End Broadcasts.

(** ** The ledger *)
Definition byteKey (bid : string) : Prop := String.length bid = 8.
Definition myLedger (t : Tables) : Prop := ledgerOn byteKey u64_max (tBroadcasts t) (tAllocations t).

Lemma my_counters : (i64_max <= u64_max <= u64_max)%Z.
Proof. done. Qed.
Lemma wrapU64_counter z : (0 <= wrapU64 z <= u64_max)%Z.
Proof. pose proof (wrapU64_range z) as H. unfold isU64, u64_max in *. lia. Qed.

(** The broadcasts the rest of the server creates have an id, and a limit that
    is at most "unlimited". *)
Definition creatable (b : option Broadcast.t) (limit : Z) : Prop :=
  (forall p, b = Some p -> hasBroadcastID p) /\ (0 <= limit <= i64_max)%Z.

Section LedgerKept.
Context `{P : Platform} {HP : PlatformOK P} `{L : ProtoLib} `{E : MySqlEngine} `{F : FloatConv} {HF : FloatConvOK F}.

Lemma notNull_Ok id k : notNull id = Ok k -> id = Some k.
Proof using Type. destruct id; [by intros [= ->]|done]. Qed.

Lemma broadcastKey b bid r :
  (forall p, b = Some p -> hasBroadcastID p) -> fromBroadcastProto b = Ok (bid, r) -> exists k, bid = Some k /\ byteKey k.
Proof using Type.
  intros Hid. destruct b as [p|]; [|done]. cbn. intros (id & Hi & Hs)%outcome_bind_Ok.
  destruct (Broadcast.Source p); [|done]. injection Hs as <- _. specialize (Hid p eq_refl).
  unfold BroadcastID.BytesToBroadcastID, hasBroadcastID in *. rewrite decide_False in Hi by done.
  destruct (decide _) as [|H8]; [done|]. injection Hi as <-. unfold BroadcastID.Bytes, byteKey. cbn.
  destruct (Broadcast.BroadcastId p) as [s|]; cbn in *; [|done]. rewrite eqb_empty_false by done.
  exists s. split; [done|]. by apply dec_stable.
Qed.

Lemma preserves_insertMyBroadcast k r :
  byteKey k -> b_sent r = 0%Z -> b_allocated r = 0%Z -> (0 <= b_messageLimit r <= i64_max)%Z ->
  preserves (onData myLedger) (insertBroadcast (Some k) r).
Proof using Type.
  intros Hk Hs Ha Hl. apply preserves_exec. intros t t' Ht H. cbn in H.
  repeat (apply outcome_bind_Ok in H as (? & ? & H)). injection H as <-.
  match goal with H : constraint _ _ = _ |- _ => apply constraint_Ok, bool_decide_eq_true in H end.
  unfold myLedger in *. cbn. by apply (ledgerOn_fresh _ _ my_counters).
Qed.

Lemma preserves_insertMyBroadcastLabel bid l : preserves (onData myLedger) (insertBroadcastLabel bid l).
Proof using Type.
  apply preserves_exec. intros t t' Ht H. repeat (apply outcome_bind_Ok in H as (? & ? & H)). by injection H as <-.
Qed.

Lemma preserves_MyCreateBroadcast b limit : creatable b limit -> preserves (onData myLedger) (CreateBroadcast b limit).
Proof using Type.
  intros [Hid Hl]. unfold CreateBroadcast. apply preserves_lift_bind. intros [bid r] Hb. cbv zeta.
  destruct (broadcastKey _ _ _ Hid Hb) as (k & -> & Hk). apply keeps_inTx, keeps_preserves.
  destruct (negb _); [apply preserves_fail|].
  apply preserves_bind; [by apply preserves_insertMyBroadcast|].
  intros _. apply preserves_forM. intros l. apply preserves_insertMyBroadcastLabel.
Qed.

Lemma my_disableOne_Ok k w u w' :
  disableOne (Some k) w = (Ok u, w') ->
  let t := w_data w in let als := tAllocations t in
  let t1 := setTAllocations (filter (fun ka => ka.1.1 <> k) als) t in
  (tBroadcasts t !! k = None /\ w_data w' = t1) \/
  (exists b, tBroadcasts t !! k = Some b /\
     w_data w' = setTBroadcasts (alter (setCounters (wrapU64 (b_sent b + wrapU64 (sumZ (a_sent <$> allocationsOf k als))))
        (if (wrapU64 (outstanding k als) <=? b_allocated b)%Z then (b_allocated b - wrapU64 (outstanding k als))%Z else 0%Z) 0)
        k (tBroadcasts t)) t1).
Proof using HP.
  intros H. cbv zeta. apply bind_Ok in H as (rows & w1 & H1 & H).
  apply rowsOf_Ok in H1 as (Hd & l & Hl & _ & Hall & _).
  apply bind_Ok in H as ([] & w2 & H2 & H).
  assert (Hrows : rows.1 = l /\ w2 = w1).
  { unfold rowsErr in H2. destruct rows as [rs [e|]]; [done|]. apply ret_Ok in H2 as [_ <-]. split; [by apply Hall|done]. }
  destruct Hrows as [Hr ->]. cbv zeta in H. rewrite Hr in H.
  rewrite (foldl_wrapU64 fst snd) in H by by split. cbn [fst snd allocationsWith] in Hl.
  assert (Hsum : sumZ l.*1 = sumZ (a_sent <$> allocationsOf k (tAllocations (w_data w))) /\
                 sumZ l.*2 = outstanding k (tAllocations (w_data w))).
  { unfold outstanding. by rewrite !Hl, <- !list_fmap_compose. }
  destruct Hsum as [Hs1 Hs2]. rewrite !Z.add_0_l, Hs1, Hs2 in H.
  apply bind_Ok in H as ([] & w3 & H3 & H). apply exec_Ok in H3 as (_ & [= H3] & _).
  apply bind_Ok in H as (e & w4 & H4 & H). apply try_Ok in H4. destruct e as [[bs ba]|e].
  - apply queryRow_Ok in H4 as (_ & (b & Hb & [= -> ->])%fmap_Some & ->).
    rewrite <- H3, Hd in Hb. cbn in Hb. apply exec_Ok in H as (_ & [= <-] & _).
    right. exists b. split; [done|]. rewrite <- H3, Hd. done.
  - destruct e; try done. apply ret_Ok in H as [_ <-]. left. unfold queryRow in H4.
    destruct (sqlFault _); [done|]. cbn in H4. destruct (tBroadcasts (w_data w3) !! k) eqn:Hb; [done|].
    injection H4 as <-. cbn. rewrite <- H3, Hd in *. done.
Qed.

Lemma keeps_myDisableOne bid : keeps (onData myLedger) (disableOne bid).
Proof using HP.
  destruct bid as [k|].
  - intros w u w' Hw H. unfold onData, myLedger in *.
    apply my_disableOne_Ok in H as [[Hn ->]|(b & Hb & ->)]; cbn.
    + by rewrite (ledgerOn_no_allocations _ _ _ _ _ Hw Hn).
    + apply (ledgerOn_disable _ _ _ _ _ b); [done|done|apply wrapU64_counter|done].
  - apply keeps_preserves. unfold disableOne.
    apply preserves_bind; [apply preserves_rowsOf|]. intros rows. apply preserves_bind; [apply preserves_rowsErr|]. intros _.
    apply preserves_bind; [apply preserves_exec; by intros t t' Ht [= <-]|]. intros _.
    apply preserves_bind; [apply preserves_try, preserves_queryRow|].
    intros [[]|[]]; try apply preserves_fail; [apply preserves_exec; by intros t t' Ht [= <-]|apply preserves_ret].
Qed.

Lemma my_orDisabled_Ok {A} (m : My A) a w w' : orDisabled m w = (Ok a, w') <-> m w = (Ok a, w').
Proof using Type.
  unfold orDisabled. split.
  - intros H. apply bind_Ok in H as ([b|e] & w1 & Ht & H); apply try_Ok in Ht.
    + by apply ret_Ok in H as [-> <-].
    + by destruct (errorsIs e ErrNoRows).
  - intros H. rewrite (bind_run (try m) _ w (inl a) w'); [done|]. by apply try_Ok.
Qed.

Lemma my_insertSent_Ok bid cid w u w' :
  insertSent bid cid w = (Ok u, w') ->
  exists b c, bid = Some b /\ cid = Some c /\ (b, c) ∉ tSent (w_data w) /\ is_Some (tBroadcasts (w_data w) !! b) /\
  is_Some (tClients (w_data w) !! c) /\ w_data w' = setTSent ({[(b, c)]} ∪ tSent (w_data w)) (w_data w).
Proof using Type.
  intros H. apply exec_Ok in H as (_ & H & _). apply outcome_bind_Ok in H as (b & Hb%notNull_Ok & H).
  apply outcome_bind_Ok in H as (c & Hc%notNull_Ok & H). apply outcome_bind_Ok in H as (? & H1%constraint_Ok & H).
  apply outcome_bind_Ok in H as (? & H2%constraint_Ok & [= <-]). apply bool_decide_eq_true_1 in H1.
  apply andb_true_iff in H2 as [H2%bool_decide_eq_true_1 H3%bool_decide_eq_true_1]. by exists b, c.
Qed.

(** The tables a message is stored in. *)
Lemma my_tryStoreMessage_frame dbm isB w u w' :
  tryStoreMessage dbm isB w = (Ok u, w') -> exists ms ps, w_data w' = setTPending ps (setTMessages ms (w_data w)).
Proof using Type.
  unfold tryStoreMessage. cbv zeta. destruct (_ =? 0)%Z; [by intros ?%fail_Ok|]. intros H.
  apply bind_Ok in H as (n & w1 & H1 & H). apply execN_Ok in H1 as (_ & H1 & _).
  assert (Hms : exists ms, w_data w1 = setTMessages ms (w_data w)).
  { destruct (tMessages (w_data w) !! _); injection H1 as _ <-; [|by eexists].
    exists (tMessages (w_data w)). by destruct (w_data w). }
  destruct Hms as [ms Hms]. destruct (_ && _).
  - apply bind_Ok in H as (due & w2 & H2 & H).
    assert (Hw : w_data w2 = w_data w1).
    { unfold ServerRetryTime, ClientRetryTime in H2. destruct (forServer _); [|destruct isB]; inv_sql; done. }
    apply exec_Ok in H as (_ & H & _). destruct (mMessageID dbm) as [k|]; [|done].
    repeat (apply outcome_bind_Ok in H as (? & _ & H)). injection H as <-. rewrite Hw, Hms. by eexists _, _.
  - apply ret_Ok in H as [_ <-]. exists ms, (tPending (w_data w)). rewrite Hms. by destruct (w_data w).
Qed.

(** What saving a broadcast message has done. *)
Definition saved (bid cid : gobytes) (aID : AllocationID.t) (t t' : Tables) : Prop :=
  exists b c ms ps, bid = Some b /\ cid = Some c /\ (b, c) ∉ tSent t /\
  is_Some (tBroadcasts t !! b) /\ is_Some (tClients t !! c) /\
  let t1 := setTSent ({[(b, c)]} ∪ tSent t) (setTPending ps (setTMessages ms t)) in
  (blen (AllocationID.Bytes aID) = 0 /\ t' = t1 /\ (exists r, tBroadcasts t !! b = Some r /\ b_messageLimit r <> 0%Z)) \/
  (blen (AllocationID.Bytes aID) <> 0 /\ exists a n,
     tAllocations t !! (b, AllocationID.id aID) = Some a /\ (a_sent a < a_message_limit a)%Z /\
     (clock n <= tspbAsTime (Timestamp.Mk (a_expiration_time_seconds a) (a_expiration_time_nanos a)))%Z /\
     t' = setTAllocations (alter (setAllocSent (wrapU64 (a_sent a + 1))) (b, AllocationID.id aID) (tAllocations t)) t1).

Lemma trySaveBroadcast_Ok dbm bid cid aID w u w' :
  trySaveBroadcast dbm bid cid aID w = (Ok u, w') -> saved bid cid aID (w_data w) (w_data w').
Proof using Type.
  intros H. apply bind_Ok in H as ([] & w1 & (ms & ps & Hd)%my_tryStoreMessage_frame & H). unfold saved.
  destruct (decide _) as [Hnil|Hnil].
  - apply bind_Ok in H as (limit & w2 & Hl & H).
    apply my_orDisabled_Ok, queryRow_Ok in Hl as (_ & (r & Hr & ->)%fmap_Some & ->).
    destruct (Z.eqb_spec (b_messageLimit r) 0); [done|].
    apply my_insertSent_Ok in H as (b & c & -> & -> & H1 & H2 & H3 & H). cbn [w_data] in *. rewrite Hd in *. cbn in *.
    exists b, c, ms, ps. do 5 (split; [done|]). left. split; [done|]. split; [done|]. by exists r.
  - apply bind_Ok in H as (a & w2 & Hl & H). apply my_orDisabled_Ok, queryRow_Ok in Hl as (_ & Ha & ->).
    destruct (Z.leb_spec (a_message_limit a) (a_sent a)); [done|]. cbv zeta in H. destruct (tspbCheckValid _); [done|].
    apply bind_Ok in H as (n & w3 & [[= <-] ->]%interact_Ok & H).
    match type of H with context [(?x <? ?y)%Z] => destruct (Z.ltb_spec x y) end; [done|].
    apply bind_Ok in H as ([] & w4 & Hi & H). apply my_insertSent_Ok in Hi as (b & c & -> & -> & Hn & Hb & Hc & Hi).
    apply exec_Ok in H as (_ & [= H] & _). cbn [w_data] in *. rewrite Hd in *. cbn in Ha, Hn, Hb, Hc, Hi.
    exists b, c, ms, ps. do 5 (split; [done|]). right. split; [done|]. exists a. eexists.
    do 3 (split; [done|]). by rewrite <- H, Hi.
Qed.

Lemma SaveBroadcastMessage_saved msg bID cID aID w u w' :
  SaveBroadcastMessage msg bID cID aID w = (Ok u, w') ->
  saved (BroadcastID.Bytes bID) (ClientID.Bytes cID) aID (w_data w) (w_data w').
Proof using Type.
  intros H. apply bind_Ok in H as (dbm & w1 & [_ <-]%lift_Ok & H).
  apply inTx_Ok in H as (n & w2 & H & ->). by apply trySaveBroadcast_Ok in H.
Qed.

Lemma saved_ledger bid cid aID t t' : saved bid cid aID t t' -> myLedger t -> myLedger t'.
Proof using Type.
  intros (b & c & ms & ps & -> & -> & _ & _ & _ & [(_ & -> & _)|(_ & a & n & Ha & Hlt & _ & ->)]) Ht; [done|].
  unfold myLedger in *. cbn. by apply ledgerOn_send.
Qed.

Lemma preserves_MySaveBroadcastMessage msg bID cID aID :
  preserves (onData myLedger) (SaveBroadcastMessage msg bID cID aID).
Proof using Type.
  unfold SaveBroadcastMessage. apply preserves_lift_bind. intros dbm _. apply keeps_inTx.
  intros w u w' Hw H%trySaveBroadcast_Ok. by eapply saved_ledger.
Qed.

(** What creating an allocation has done, and what it returns. *)
Definition granted (id : BroadcastID.t) (frac : spec_float) (expiry : Z) (t t' : Tables) (r : option AllocationInfo.t) : Prop :=
  exists bid b k new, BroadcastID.Bytes id = Some bid /\ tBroadcasts t !! bid = Some b /\
  ComputeBroadcastAllocation (b_messageLimit b) (b_allocated b) (b_sent b) frac = (k, new) /\
  ((k = 0%Z /\ r = None /\ t' = t) \/
   (k <> 0%Z /\ exists aid, r = Some (AllocationInfo.Mk aid k expiry) /\
    tAllocations t !! (bid, AllocationID.id aid) = None /\
    t' = setTAllocations (<[(bid, AllocationID.id aid) :=
        mkAllocationRow 0 k (Timestamp.Seconds (tspbNew expiry)) (Timestamp.Nanos (tspbNew expiry))]> (tAllocations t))
      (setTBroadcasts (alter (fun b => setCounters (b_sent b) new (b_messageLimit b) b) bid (tBroadcasts t)) t))).

(** The variable: set only when there is something to allocate. *)
Definition allocatable (id : BroadcastID.t) (frac : spec_float) (t : Tables) (v : option AllocationInfo.t) : Prop :=
  v = None \/ exists bid b, BroadcastID.Bytes id = Some bid /\ tBroadcasts t !! bid = Some b /\
    fst (ComputeBroadcastAllocation (b_messageLimit b) (b_allocated b) (b_sent b) frac) <> 0%Z.

Lemma onTables_vars {V A} (m : My A) (w : World (Tables * V)) : snd (w_data (snd (onTables m w))) = snd (w_data w).
Proof using Type. unfold onTables, onPart. by destruct (m _). Qed.

Lemma RandomAllocationID_data {D} (w : World D) : w_data (snd (AllocationID.RandomAllocationID w)) = w_data w.
Proof using Type.
  unfold AllocationID.RandomAllocationID, randBytes, interact, mbind, M_bind. cbn. by destruct (randRead _ _).
Qed.

Lemma tryCreateAllocation_vars id frac expiry (w : World (Tables * option AllocationInfo.t)) :
  allocatable id frac (fst (w_data w)) (snd (w_data w)) ->
  allocatable id frac (fst (w_data w)) (snd (w_data (snd (tryCreateAllocation id frac expiry w)))).
Proof using Type.
  intros H0. unfold tryCreateAllocation. cbv zeta. destruct (tspbCheckValid _); [done|].
  unfold mbind at 1, M_bind at 1. pose proof (RandomAllocationID_data w) as Hd.
  destruct (AllocationID.RandomAllocationID w) as [[aid|e|c] w1]; cbn [snd] in Hd; [|by cbn; rewrite Hd..].
  unfold mbind at 1, M_bind at 1. pose proof (onTables_vars (readCounters (BroadcastID.Bytes id)) w1) as Hv.
  destruct (onTables (readCounters _) w1) as [[b|e|c] w2] eqn:Hr; cbn [snd] in Hv; [|by cbn; rewrite Hv, Hd..].
  unfold onTables in Hr. apply onPart_Ok in Hr as (w3 & Hr & _). apply queryRow_Ok in Hr as (_ & Hb & _).
  cbn in Hb. rewrite Hd in Hb. unfold at_ in Hb. destruct (BroadcastID.Bytes id) as [bid|] eqn:Hid; [|done]. cbn in Hb.
  destruct (ComputeBroadcastAllocation _ _ _ _) as [k new] eqn:Hc.
  destruct (Z.eqb_spec k 0); [by cbn; rewrite Hv, Hd|].
  right. exists bid, b. split; [done|]. split; [done|]. by rewrite Hc.
Qed.

Lemma again_allocatable id frac expiry k t n (w0 : World (Tables * option AllocationInfo.t)) :
  again (tryCreateAllocation id frac expiry) k (mkWorld (t, None) n) w0 -> allocatable id frac t (snd (w_data w0)).
Proof using Type.
  intros Ha. refine (again_vars _ (allocatable id frac t) _ _ _ _ Ha _); [|by left].
  intros w1 Ht. cbn in Ht. rewrite <- Ht. apply tryCreateAllocation_vars.
Qed.

Lemma tryCreateAllocation_Ok id frac expiry (w : World (Tables * option AllocationInfo.t)) u w' :
  allocatable id frac (fst (w_data w)) (snd (w_data w)) -> tryCreateAllocation id frac expiry w = (Ok u, w') ->
  granted id frac expiry (fst (w_data w)) (fst (w_data w')) (snd (w_data w')).
Proof using Type.
  intros H0. unfold tryCreateAllocation. cbv zeta. destruct (tspbCheckValid _); [by intros ?%fail_Ok|]. intros H.
  apply bind_Ok in H as (aid & w1 & Ha & H). pose proof (RandomAllocationID_data w) as Hd. rewrite Ha in Hd. cbn [snd] in Hd.
  apply bind_Ok in H as (b & w2 & Hb & H). unfold onTables in Hb.
  apply onPart_Ok in Hb as (w3 & Hb & ->). apply queryRow_Ok in Hb as (_ & Hb & ->). cbn in Hb. rewrite Hd in Hb.
  unfold at_ in Hb. destruct (BroadcastID.Bytes id) as [bid|] eqn:Hid; [|done]. cbn in Hb.
  destruct (ComputeBroadcastAllocation _ _ _ _) as [k new] eqn:Hc. exists bid, b, k, new. do 3 (split; [done|]).
  destruct (Z.eqb_spec k 0) as [->|Hk].
  - left. apply ret_Ok in H as [_ <-]. cbn. rewrite Hd. split; [done|]. split; [|done].
    destruct H0 as [?|(bid' & b' & Hid' & Hb' & Hn)]; [done|]. exfalso. apply Hn.
    rewrite Hid in Hid'. injection Hid' as <-. rewrite Hb in Hb'. injection Hb' as <-. by rewrite Hc.
  - right. split; [done|]. exists aid.
    apply bind_Ok in H as ([] & w4 & Hu & H). apply onPart_Ok in Hu as (w5 & Hu & ->). apply exec_Ok in Hu as (_ & [= Hu] & _).
    apply bind_Ok in H as ([] & w6 & Hi & H). apply onPart_Ok in Hi as (w7 & Hi & ->). apply exec_Ok in Hi as (_ & Hi & _).
    cbn in Hi. apply outcome_bind_Ok in Hi as (? & Hf%constraint_Ok%bool_decide_eq_true_1 & Hi).
    apply outcome_bind_Ok in Hi as (? & _ & [= Hi]). unfold setVars in H. injection H as _ <-. cbn.
    cbn in Hu. rewrite Hd in Hu. rewrite <- Hu in Hf, Hi. cbn in Hf, Hi. split; [done|]. split; [done|]. by rewrite <- Hi.
Qed.

Lemma granted_ledger id frac expiry t t' r : granted id frac expiry t t' r -> myLedger t -> myLedger t'.
Proof using HF.
  intros (bid & b & k & new & _ & Hb & Hc & [(_ & _ & ->)|(Hk & aid & _ & Hn & ->)]) Ht; [done|].
  unfold myLedger in *. cbn. by apply (ledgerOn_allocate _ _ my_counters _ _ _ b frac).
Qed.

Lemma CreateAllocation_granted id frac expiry w r w' :
  CreateAllocation id frac expiry w = (Ok r, w') -> granted id frac expiry (w_data w) (w_data w') r.
Proof using Type.
  intros H. apply bind_Ok in H as ([u v] & w1 & H1 & [<- <-]%ret_Ok). unfold withVars in H1.
  destruct (runInTx _ _) as [[x|e|c] w2] eqn:Hr; [|done..]. injection H1 as <- <- <-.
  apply myRunInTx_Ok in Hr as (k & w0 & w3 & Ha & Ht & Hf & Hd). cbn in Ht |- *.
  apply again_allocatable in Ha.
  apply tryCreateAllocation_Ok in Hf; [|cbn; by rewrite Ht]. cbn in Hf. by rewrite Ht, <- Hd in Hf.
Qed.

Lemma preserves_MyCreateAllocation id frac expiry : preserves (onData myLedger) (CreateAllocation id frac expiry).
Proof using HF.
  intros w Hw. unfold CreateAllocation, withVars, mbind, M_bind.
  pose proof (runInTx_cases (tryCreateAllocation id frac expiry) (mkWorld (w_data w, None) (w_step w))) as Hc.
  destruct (runInTx _ _) as [r w1]. unfold onData in *. assert (Hw1 : myLedger (fst (w_data w1))); [|by destruct r].
  destruct Hc as [[-> _]|(k & a & w0 & w2 & Ha & Ht & Hf & -> & _)]; [done|]. cbn in Ht.
  apply again_allocatable in Ha.
  apply tryCreateAllocation_Ok in Hf; [|cbn; by rewrite Ht]. cbn in Hf. rewrite Ht in Hf. by eapply granted_ledger.
Qed.

Lemma preserves_MyCleanupAllocation bID aID fs : preserves (onData myLedger) (CleanupAllocation bID aID fs).
Proof using Type.
  apply keeps_inTx. intros w u w' Hw H. unfold onData in *. apply bind_Ok in H as (b & w2 & Hb & H).
  apply queryRow_Ok in Hb as (_ & Hb & ->). unfold at_ in Hb. cbn in Hb.
  destruct (BroadcastID.Bytes bID) as [bid|]; [|done]. cbn in Hb. unfold myLedger in *.
  destruct (decide _) as [Hnil|Hnil].
  - apply exec_Ok in H as (_ & [= <-] & _). cbn. apply (ledgerOn_count _ _ _ _ _ b); [done|done|apply wrapU64_counter].
  - apply bind_Ok in H as (e & w3 & Ht & H). apply try_Ok in Ht. destruct e as [a|e].
    + apply queryRow_Ok in Ht as (_ & Ha & ->).
      destruct (ComputeBroadcastAllocationCleanup _ _) as [new| |] eqn:Hc; [|done|done].
      apply bind_Ok in H as ([] & w4 & H4 & H). apply exec_Ok in H4 as (_ & [= H4] & _). apply exec_Ok in H as (_ & [= <-] & _).
      cbn in *. rewrite <- H4. cbn. apply (ledgerOn_cleanup _ _ _ _ _ _ b a); [done|done|exact Ha|apply wrapU64_counter|done].
    + assert (Hd : w_data w3 = w_data w).
      { unfold queryRow in Ht. destruct (sqlFault _); [by injection Ht as _ <-|]. by destruct (allocationAt _ _ _); injection Ht as _ <-. }
      destruct e; try done. apply ret_Ok in H as [_ <-]. by rewrite Hd.
Qed.
End LedgerKept.

(** ** Every operation keeps it *)
Inductive broadcastOp :=
| OpCreateBroadcast (b : option Broadcast.t) (limit : Z)
| OpSetBroadcastLimit (id : BroadcastID.t) (limit : Z)
| OpDisableBroadcasts (ids : list BroadcastID.t)
| OpSaveBroadcastMessage (msg : Message.t) (bID : BroadcastID.t) (cID : ClientID.t) (aID : AllocationID.t)
| OpListActiveBroadcasts
| OpListSentBroadcasts (id : ClientID.t)
| OpCreateAllocation (id : BroadcastID.t) (frac : spec_float) (expiry : Z)
| OpCleanupAllocation (bID : BroadcastID.t) (aID : AllocationID.t) (finalSent : Z).

Definition validBroadcastOp (op : broadcastOp) : Prop :=
  match op with OpCreateBroadcast b limit => creatable b limit | _ => True end.

Section Ops.
Context `{P : Platform} {HP : PlatformOK P} `{L : ProtoLib} `{E : MySqlEngine} `{F : FloatConv} {HF : FloatConvOK F}.

Definition runBroadcastOp (op : broadcastOp) : My unit :=
  match op with
  | OpCreateBroadcast b limit => CreateBroadcast b limit
  | OpSetBroadcastLimit id limit => SetBroadcastLimit id limit
  | OpDisableBroadcasts ids => DisableBroadcasts ids
  | OpSaveBroadcastMessage msg bID cID aID => SaveBroadcastMessage msg bID cID aID
  | OpListActiveBroadcasts => ListActiveBroadcasts ≫= fun _ => mret tt
  | OpListSentBroadcasts id => ListSentBroadcasts id ≫= fun _ => mret tt
  | OpCreateAllocation id frac expiry => CreateAllocation id frac expiry ≫= fun _ => mret tt
  | OpCleanupAllocation bID aID fs => CleanupAllocation bID aID fs
  end.

Lemma preserves_broadcastOp op : validBroadcastOp op -> preserves (onData myLedger) (runBroadcastOp op).
Proof using HP HF.
  destruct op; cbn; intros Hv.
  - by apply preserves_MyCreateBroadcast.
  - apply keeps_inTx. intros w u w' _ H. by apply exec_Ok in H as (_ & [=] & _).
  - unfold DisableBroadcasts. case_decide; [apply preserves_ret|]. apply keeps_inTx, keeps_forM.
    intros id. apply keeps_myDisableOne.
  - apply preserves_MySaveBroadcastMessage.
  - apply preserves_bind; [|intros; apply preserves_ret]. apply keeps_inTx, keeps_preserves.
    apply preserves_bind; [unfold NowProto; solve_preserves|]. intros n.
    apply preserves_bind; [apply preserves_rowsOf|]. intros rows.
    apply preserves_bind; [unfold readActive; solve_preserves|]. intros ret.
    apply preserves_bind; [apply preserves_rowsErr|]. intros _. apply preserves_mapMs. intros i. unfold readActiveLabels.
    apply preserves_bind; [apply preserves_lift|]. intros id. apply preserves_bind; [apply preserves_rowsOf|]. intros ls.
    apply preserves_bind; [apply preserves_rowsErr|]. intros _. apply preserves_ret.
  - apply preserves_bind; [|intros; apply preserves_ret]. unfold ListSentBroadcasts.
    apply preserves_bind; [apply preserves_rowsOf|]. intros rows. apply preserves_bind; [solve_preserves|]. intros res.
    apply preserves_bind; [apply preserves_rowsErr|]. intros _. apply preserves_ret.
  - apply preserves_bind; [apply preserves_MyCreateAllocation|intros; apply preserves_ret].
  - apply preserves_MyCleanupAllocation.
Qed.

(** C8: whatever the operations on broadcasts return, and in whatever order they
    run, if the broadcasts that are created have an id of the right form and a
    limit that is at most "unlimited" ([creatable]): every allocation is of an
    existing broadcast, holds at least one message and has sent no more than
    it holds; what a broadcast with a limit has allocated is the sum of what
    its outstanding allocations hold, and within the limit; of a broadcast
    without a limit it is 0.  (The count of sent messages may wrap.) *)
Theorem my_broadcast_ledger ops w :
  Forall validBroadcastOp ops -> myLedger (w_data w) ->
  myLedger (w_data (foldl (fun w op => snd (runBroadcastOp op w)) w ops)).
Proof using HP HF.
  intros Hops. revert w. induction Hops as [|op ops Hop _ IH]; intros w Hw; [done|]. cbn. apply IH.
  exact (preserves_broadcastOp op Hop w Hw).
Qed.
End Ops.

(** ** Properties *)
Section Properties.
Context `{P : Platform} {HP : PlatformOK P} `{L : ProtoLib} `{E : MySqlEngine} `{F : FloatConv} {HF : FloatConvOK F}.

(** An allocation that is granted, on however many runs, is for at least one
    message, fits beside what the broadcast has sent and beside all outstanding
    allocations under the limit, and is added to the outstanding ones once and
    in full; when none is granted the limit is reached and nothing changes. *)
Theorem my_create_allocation_spec id frac expiry w r w1 :
  myLedger (w_data w) -> CreateAllocation id frac expiry w = (Ok r, w1) ->
  exists bid b, BroadcastID.Bytes id = Some bid /\ tBroadcasts (w_data w) !! bid = Some b /\
  let out t := outstanding bid (tAllocations t) in
  match r with
  | None => w_data w1 = w_data w /\ (b_messageLimit b <= Z.max (b_allocated b) (b_sent b))%Z
  | Some ai =>
      AllocationInfo.Expiry ai = expiry /\ (1 <= AllocationInfo.Limit ai)%Z /\
      (exists a, tAllocations (w_data w1) !! (bid, AllocationID.id (AllocationInfo.ID ai)) = Some a /\
         a_sent a = 0%Z /\ a_message_limit a = AllocationInfo.Limit ai) /\
      out (w_data w1) = (out (w_data w) + AllocationInfo.Limit ai)%Z /\
      (b_messageLimit b <> BroadcastUnlimited ->
       b_sent b + AllocationInfo.Limit ai <= b_messageLimit b /\ out (w_data w1) <= b_messageLimit b)%Z
  end.
Proof using HF.
  intros Hw (bid & b & k & new & Hid & Hb & Ec & H)%CreateAllocation_granted. exists bid, b. do 2 (split; [done|]).
  cbv zeta. pose proof (allocation_cases _ _ my_counters _ _ _ b frac _ _ Hw Hb Ec) as Hc.
  unfold BroadcastUnlimited, i64_max in *. destruct H as [(-> & -> & Hd)|(Hk & aid & -> & Hn & Hd)].
  - split; [done|]. lia.
  - cbn. rewrite Hd. cbn. split; [done|]. split; [lia|]. split; [eexists; by rewrite lookup_insert_eq|].
    rewrite outstanding_insert, decide_True by done. cbn. split; [lia|].
    intros Hu. pose proof (l_sum _ _ _ _ Hw _ _ Hb Hu). lia.
Qed.

(** A broadcast message that is saved counts against an allocation that
    existed, had room and had not expired, and the client is recorded as
    having got it; no later save of the same broadcast for the client succeeds. *)
Theorem my_save_broadcast_message_spec msg bID cID aID w u w1 :
  SaveBroadcastMessage msg bID cID aID w = (Ok u, w1) ->
  exists b c, BroadcastID.Bytes bID = Some b /\ ClientID.Bytes cID = Some c /\
  (b, c) ∉ tSent (w_data w) /\ tSent (w_data w1) = {[(b, c)]} ∪ tSent (w_data w) /\
  (blen (AllocationID.Bytes aID) <> 0 -> exists a n,
     let key := (b, AllocationID.id aID) in
     tAllocations (w_data w) !! key = Some a /\ (a_sent a < a_message_limit a)%Z /\
     (clock n <= tspbAsTime (Timestamp.Mk (a_expiration_time_seconds a) (a_expiration_time_nanos a)))%Z /\
     tAllocations (w_data w1) = alter (setAllocSent (wrapU64 (a_sent a + 1))) key (tAllocations (w_data w))) /\
  (forall msg' aID' n, isOk (fst (SaveBroadcastMessage msg' bID cID aID' (mkWorld (w_data w1) n))) = false).
Proof using Type.
  intros (b & c & ms & ps & Hb & Hc & Hn & _ & _ & H)%SaveBroadcastMessage_saved.
  assert (Hs : tSent (w_data w1) = {[(b, c)]} ∪ tSent (w_data w)).
  { destruct H as [(_ & -> & _)|(_ & a & n & _ & _ & _ & ->)]; done. }
  exists b, c. do 4 (split; [done|]). split.
  - intros Hnil. destruct H as [(? & _)|(_ & a & n & Ha & Hl & Ht & ->)]; [done|]. by exists a, n.
  - intros msg' aID' n. destruct (SaveBroadcastMessage msg' _ _ _ _) as [[x| |] w2] eqn:E'; [|done|done].
    apply SaveBroadcastMessage_saved in E' as (b' & c' & _ & _ & Hb' & Hc' & Hn' & _). cbn in Hn'.
    rewrite Hb in Hb'. rewrite Hc in Hc'. injection Hb' as <-. injection Hc' as <-.
    exfalso. apply Hn'. rewrite Hs. apply elem_of_union. left. by apply elem_of_singleton.
Qed.

(** SetBroadcastLimit never sets a limit. *)
Lemma my_set_broadcast_limit_fails id limit w :
  isOk (fst (SetBroadcastLimit id limit w)) = false /\ w_data (snd (SetBroadcastLimit id limit w)) = w_data w.
Proof using Type.
  unfold SetBroadcastLimit. pose proof (inTx_cases (exec (fun _ => Err ErrSqlSyntax)) w) as Hc.
  destruct (inTx _ w) as [r w']. destruct Hc as [[Hd Hr]|(n & a & w1 & Hx & _)]; [done|].
  by apply exec_Ok in Hx as (_ & [=] & _).
Qed.

(** A file whose names and data fit the columns is read back byte for byte,
    under any name that the collation takes for the same, and no file
    under another name changes; a file that is deleted is not found. *)
Theorem my_file_store_spec service name data w u w1 :
  MySqlEngineOK E ->
  textFits (VARCHAR 128) service = true -> textFits (VARCHAR 128) name = true -> textFits MEDIUMBLOB data = true ->
  StoreFile service name (Ok data) w = (Ok u, w1) ->
  (forall service' name' n r w2, fileKey service' name' = fileKey service name ->
     ReadFile service' name' (mkWorld (w_data w1) n) = (Ok r, w2) -> r.1 = data) /\
  (forall service' name' n n' r r' w2 w2', fileKey service' name' <> fileKey service name ->
     ReadFile service' name' (mkWorld (w_data w1) n) = (Ok r, w2) ->
     ReadFile service' name' (mkWorld (w_data w) n') = (r', w2') -> isOk r' = true -> r' = Ok r) /\
  (forall n v w2 n' r w3, DeleteFile service name (mkWorld (w_data w1) n) = (Ok v, w2) ->
     ReadFile service name (mkWorld (w_data w2) n') = (r, w3) -> isOk r = false).
Proof using Type.
  intros HE H1 H2 H3 H. assert (Hfile : exists t, tFiles (w_data w1) = <[fileKey service name := (t, Some data)]> (tFiles (w_data w))).
  { unfold StoreFile in H. apply bind_Ok in H as (b & w2 & [[= <-] <-]%lift_Ok & H).
    apply inTx_Ok in H as (n & w2 & H & ->). apply bind_Ok in H as (t & w3 & [_ ->]%interact_Ok & H).
    apply exec_Ok in H as (_ & H & _). unfold store in H. rewrite !text_fits in H by done. injection H as <-. by eexists. }
  destruct Hfile as [t Hfile].
  assert (Hread : forall s m tb n r w2, ReadFile s m (mkWorld tb n) = (Ok r, w2) ->
    exists v, tFiles tb !! fileKey s m = Some v /\ r = (contents v.2, v.1)).
  { intros s m tb n r w2 Hr. apply bind_Ok in Hr as (v & w3 & Hr & [<- _]%ret_Ok).
    apply inTx_Ok in Hr as (n' & w4 & Hr & _). apply queryRow_Ok in Hr as (_ & Hv & _). by exists v. }
  split; [|split].
  - intros s m n r w2 Hk Hr. apply Hread in Hr as (v & Hv & ->). rewrite Hfile, Hk, lookup_insert_eq in Hv. by injection Hv as <-.
  - intros s m n n' r r' w2 w2' Hk Hr Hr' Hok. apply Hread in Hr as (v & Hv & ->).
    rewrite Hfile, lookup_insert_ne in Hv by done. destruct r' as [r'| |]; [|done|done].
    apply Hread in Hr' as (v' & Hv' & ->). by rewrite Hv in Hv'; injection Hv' as <-.
  - intros n v w2 n' r w3 Hd Hr. apply inTx_Ok in Hd as (n1 & w4 & Hd & Hw). apply exec_Ok in Hd as (_ & [= Hd] & _).
    destruct r as [r| |]; [|done|done]. apply Hread in Hr as (x & Hx & _). rewrite Hw, <- Hd in Hx. cbn in Hx.
    by rewrite lookup_delete_eq in Hx.
Qed.
End Properties.

(** ** Witnesses, and what goes wrong *)
Definition myBroadcastOps : list broadcastOp :=
  [OpCreateBroadcast (Some sampleBroadcast) 10; OpCreateAllocation exampleBroadcastID allocFrac (2000000000 * Second)].
Definition myBroadcasts : World Tables := foldl (fun w op => snd (runBroadcastOp op w)) myClients myBroadcastOps.

Lemma myClients_no_broadcasts : tBroadcasts (w_data myClients) = ∅ /\ tAllocations (w_data myClients) = ∅.
Proof. split; vm_compute; reflexivity. Qed.

Lemma myClients_ledger : myLedger (w_data myClients).
Proof. unfold myLedger. destruct myClients_no_broadcasts as [-> ->]. apply ledgerOn_empty. Qed.

Lemma myBroadcastOps_valid : Forall validBroadcastOp myBroadcastOps.
Proof. repeat constructor; by try apply sampleBroadcast_hasID. Qed.

Lemma my_broadcast_ledger_witness : myLedger (w_data myBroadcasts).
Proof. exact (my_broadcast_ledger myBroadcastOps myClients myBroadcastOps_valid myClients_ledger). Defined.

Lemma myBroadcasts_ledger : myLedger (w_data myBroadcasts).
Proof.
  unfold myBroadcasts, myBroadcastOps. cbn [foldl]. apply (preserves_broadcastOp (OpCreateAllocation _ _ _)); [exact I|].
  apply (preserves_broadcastOp (OpCreateBroadcast _ _)); [|exact myClients_ledger]. by split; [apply sampleBroadcast_hasID|].
Qed.

Definition myGrant := CreateAllocation exampleBroadcastID allocFrac (2000000000 * Second) myBroadcasts.
#[local] Strategy expand [myGrant].
Lemma my_create_allocation_spec_witness :
  exists ai, fst myGrant = Ok (Some ai) /\ (1 <= AllocationInfo.Limit ai)%Z.
Proof.
  assert (H : exists ai, fst myGrant = Ok (Some ai)) by (vm_compute; eexists; reflexivity).
  destruct H as [ai H]. exists ai. split; [exact H|].
  assert (H' : myGrant = (Ok (Some ai), snd myGrant)) by (rewrite <- H; apply surjective_pairing).
  destruct (my_create_allocation_spec exampleBroadcastID allocFrac (2000000000 * Second) myBroadcasts (Some ai) (snd myGrant)
    myBroadcasts_ledger H') as (bid & b & _ & _ & _ & Hl & _). exact Hl.
Defined.

(** The allocation of [myBroadcasts]. *)
Definition myAllocationID : AllocationID.t :=
  AllocationID.Mk (match map_to_list (tAllocations (w_data myBroadcasts)) with (k, _) :: _ => k.2 | [] => ""%string end).
Definition mySave :=
  SaveBroadcastMessage (sampleMessage 1 exampleClientID None) exampleBroadcastID exampleClientID myAllocationID myBroadcasts.
#[local] Strategy expand [mySave].
Lemma my_save_broadcast_message_spec_witness :
  fst mySave = Ok tt /\ exists b c, tSent (w_data (snd mySave)) = {[(b, c)]} ∪ tSent (w_data myBroadcasts).
Proof.
  assert (H : fst mySave = Ok tt) by (vm_compute; reflexivity). split; [exact H|].
  assert (H' : mySave = (Ok tt, snd mySave)) by (rewrite <- H; apply surjective_pairing).
  destruct (my_save_broadcast_message_spec _ _ _ _ _ _ _ H') as (b & c & _ & _ & _ & Hs & _). exists b, c. exact Hs.
Defined.

Definition myStored := StoreFile "svc" "name" (Ok "data"%string) (mkWorld emptyTables 0).
#[local] Strategy expand [myStored].
Definition myRead := ReadFile "svc" "name" (mkWorld (w_data (snd myStored)) 10).
#[local] Strategy expand [myRead].
Lemma my_file_store_spec_witness : exists r, fst myRead = Ok r /\ r.1 = "data"%string.
Proof.
  assert (H : fst myStored = Ok tt) by (vm_compute; reflexivity).
  assert (Hs : myStored = (Ok tt, snd myStored)) by (rewrite <- H; apply surjective_pairing).
  assert (Hr : exists r, fst myRead = Ok r) by (vm_compute; eexists; reflexivity). destruct Hr as [r Hr]. exists r. split; [exact Hr|].
  destruct (my_file_store_spec "svc" "name" "data" (mkWorld emptyTables 0) tt (snd myStored) TestEngineOK eq_refl eq_refl eq_refl Hs)
    as [Hread _].
  apply (Hread "svc"%string "name"%string 10 r (snd myRead) eq_refl). fold myRead. rewrite <- Hr. apply surjective_pairing.
Defined.

(** A transaction that granted an allocation deadlocks; before it is run again
    another server has taken what was left, so it has nothing to allocate, but
    what the first run has put into the variable is returned.  There is no
    such allocation, and the broadcast manager's messages are refused. *)
Definition firstRun := tryCreateAllocation exampleBroadcastID floatOne (2000000000 * Second) (mkWorld (w_data myBroadcasts, None) 100).
Definition otherServer := CreateAllocation exampleBroadcastID floatOne (2000000000 * Second) (mkWorld (w_data myBroadcasts) 200).
Definition secondRun := tryCreateAllocation exampleBroadcastID floatOne (2000000000 * Second)
  (mkWorld (w_data (snd otherServer), snd (w_data (snd firstRun))) 300).
Definition staleAllocation : AllocationID.t :=
  match snd (w_data (snd secondRun)) with Some ai => AllocationInfo.ID ai | None => AllocationID.nil end.
Example stale_allocation :
  fst firstRun = Ok tt /\ isOk (fst otherServer) = true /\ fst secondRun = Ok tt /\
  snd (w_data (snd secondRun)) <> None /\
  fst (SaveBroadcastMessage (sampleMessage 1 exampleClientID None) exampleBroadcastID exampleClientID staleAllocation
         (mkWorld (fst (w_data (snd secondRun))) 400)) = Err ErrBroadcastDisabled.
Proof. do 3 (split; [vm_compute; reflexivity|]). split; [vm_compute; discriminate|vm_compute; reflexivity]. Qed.
