(* ===== verification/Spanner.v ===== *)
(** * The Spanner datastore: tables and transactions

    src/server/spanner/spanner.go and the tables of spanner-setup/setup.sh.  Cloud
    Spanner and its Go client are what their documentation says: a
    transaction reads the tables as they are when it begins; what it writes is
    a list of mutations, kept in a buffer that its own reads do not see and done
    in order by a commit, all or none; a transaction that is aborted is run
    again.  Faults, commit timestamps and the capacity of text columns are
    parameters ([SpannerEngine]). *)
From Stdlib Require Import SpecFloat.
From S2P Require Import Prelude Platform Ids Proto Db.

(** ** Rows (setup.sh) *)
Record spClient := mkSpClient {
  spClientKey : string;
  spLastContactTime : Z;
  spLastContactAddress : option string;
  spLastContactStreamingTo : option string;
  spBlacklisted : bool;
  spLastClock : option Timestamp.t;
}.

Record spContact := mkSpContact {
  spSentNonce : string;
  spReceivedNonce : gobytes;
  spAddress : option string;
}.

Record spMessage := mkSpMessage {
  spSource : Address.t;
  spSourceMessageID : gobytes;
  spDestination : Address.t;
  spMessageType : string;
  spCreationTime : option Z;
  spEncryptedData : option Any.t;
  spResult : option MessageResult.t;
  spValidationInformation : option ValidationInfo.t;
  spAnnotations : option Annotations.t;
}.

Record spPending := mkSpPending {
  spRetryCount : Z;
  spScheduledTime : Z;
  spDestinationServiceName : option string;
  spPendingCreationTime : option Z;
}.

Record spBroadcast := mkSpBroadcast {
  spBroadcastProto : Broadcast.t;
  spSent : Z;
  spAllocated : Z;
  spMessageLimit : Z;
}.

Record spAllocation := mkSpAllocation {
  spAllocSent : Z;
  spAllocLimit : Z;
  spExpiresTime : Timestamp.t;
}.

(** The keys are those of the tables: (ClientID, ServiceName, Name) of a label,
    (ClientID, Time) of a contact and a usage record, (ClientID, Time,
    MessageID) of a link, (ClientID, MessageID) of a pending message,
    (ClientID, BroadcastID) of a sent one. *)
Record Tables := mkTables {
  spClients : gmap string spClient;
  spLabels : gset (string * string * string);
  spContacts : gmap (string * Z) spContact;
  spContactMessages : gset (string * Z * string);
  spMessages : gmap string spMessage;
  spPendings : gmap (string * string) spPending;
  spUsages : gmap (string * Z) ClientResourceUsageRecord.t;
  spBroadcasts : gmap string spBroadcast;
  spAllocations : gmap (string * string) spAllocation;
  spSents : gset (string * string);
  spFiles : gmap (string * string) (option Timestamp.t * gobytes);
}.
Definition emptyTables : Tables := mkTables ∅ ∅ ∅ ∅ ∅ ∅ ∅ ∅ ∅ ∅ ∅.

Definition setSpClients v t := mkTables v (spLabels t) (spContacts t) (spContactMessages t) (spMessages t)
  (spPendings t) (spUsages t) (spBroadcasts t) (spAllocations t) (spSents t) (spFiles t).
Definition setSpLabels v t := mkTables (spClients t) v (spContacts t) (spContactMessages t) (spMessages t)
  (spPendings t) (spUsages t) (spBroadcasts t) (spAllocations t) (spSents t) (spFiles t).
Definition setSpContacts v t := mkTables (spClients t) (spLabels t) v (spContactMessages t) (spMessages t)
  (spPendings t) (spUsages t) (spBroadcasts t) (spAllocations t) (spSents t) (spFiles t).
Definition setSpContactMessages v t := mkTables (spClients t) (spLabels t) (spContacts t) v (spMessages t)
  (spPendings t) (spUsages t) (spBroadcasts t) (spAllocations t) (spSents t) (spFiles t).
Definition setSpMessages v t := mkTables (spClients t) (spLabels t) (spContacts t) (spContactMessages t) v
  (spPendings t) (spUsages t) (spBroadcasts t) (spAllocations t) (spSents t) (spFiles t).
Definition setSpPendings v t := mkTables (spClients t) (spLabels t) (spContacts t) (spContactMessages t) (spMessages t)
  v (spUsages t) (spBroadcasts t) (spAllocations t) (spSents t) (spFiles t).
Definition setSpUsages v t := mkTables (spClients t) (spLabels t) (spContacts t) (spContactMessages t) (spMessages t)
  (spPendings t) v (spBroadcasts t) (spAllocations t) (spSents t) (spFiles t).
Definition setSpBroadcasts v t := mkTables (spClients t) (spLabels t) (spContacts t) (spContactMessages t) (spMessages t)
  (spPendings t) (spUsages t) v (spAllocations t) (spSents t) (spFiles t).
Definition setSpAllocations v t := mkTables (spClients t) (spLabels t) (spContacts t) (spContactMessages t) (spMessages t)
  (spPendings t) (spUsages t) (spBroadcasts t) v (spSents t) (spFiles t).
Definition setSpSents v t := mkTables (spClients t) (spLabels t) (spContacts t) (spContactMessages t) (spMessages t)
  (spPendings t) (spUsages t) (spBroadcasts t) (spAllocations t) v (spFiles t).
Definition setSpFiles v t := mkTables (spClients t) (spLabels t) (spContacts t) (spContactMessages t) (spMessages t)
  (spPendings t) (spUsages t) (spBroadcasts t) (spAllocations t) (spSents t) v.

(** A column of a protobuf type gives an empty bytes field back as nil. *)
Definition wireBytes (b : gobytes) : gobytes := if decide (blen b = 0) then None else b.
Definition wireAddress (a : Address.t) : Address.t := Address.Mk (wireBytes (Address.ClientId a)) (Address.ServiceName a).
Definition wireAny (a : Any.t) : Any.t := Any.Mk (Any.TypeUrl a) (wireBytes (Any.Value a)).
Definition wireBroadcast (b : Broadcast.t) : Broadcast.t :=
  Broadcast.Mk (wireBytes (Broadcast.BroadcastId b)) (wireAddress <$> Broadcast.Source b) (Broadcast.MessageType b)
    (Broadcast.RequiredLabels b) (Broadcast.ExpirationTime b) (wireAny <$> Broadcast.Data b)
    (wireAddress <$> Broadcast.Destination b) (Broadcast.GroupName b).
Arguments wireBytes _ : simpl never.

Lemma wireBytes_contents b : contents (wireBytes b) = contents b.
Proof.
  unfold wireBytes. case_decide as H; [|done]. unfold blen in H.
  by destruct (contents b).
Qed.
Lemma wireBytes_some b s : wireBytes b = Some s -> b = Some s /\ s <> ""%string.
Proof.
  unfold wireBytes, blen. case_decide as H; [done|]. intros ->. split; [done|]. by intros ->.
Qed.
Lemma wireBytes_length b : blen (wireBytes b) = blen b.
Proof. unfold blen. by rewrite wireBytes_contents. Qed.
Lemma wireBytes_nonempty b : blen b <> 0 -> wireBytes b = b.
Proof. intros H. unfold wireBytes. by rewrite decide_False. Qed.

(** ** The client library *)
Class SpannerEngine := {
  (** A text fits a column STRING(n). *)
  strFits : nat -> string -> bool;
  (** BufferWrite refuses a value that it cannot encode. *)
  bufferFault : nat -> option Z;
  (** After so many rows, reading has failed with this error. *)
  spRowsCut : nat -> option (nat * Z);
  (** The commit timestamp of a transaction. *)
  commitTimestamp : nat -> Z;
  (** A commit that reports an error other than Aborted took effect. *)
  spCommitLost : nat -> bool;
  (** How often a transaction is run at most until its context is done. *)
  spRuns : nat -> nat;
  (** A message given to Publish does not arrive. *)
  publishLost : nat -> bool;
}.

(** A commit timestamp has microseconds and fits in a time.Time of this age. *)
Class SpannerEngineOK (E : SpannerEngine) : Prop := {
  commitTimestamp_micro n : (commitTimestamp n mod 1000 = 0)%Z;
  commitTimestamp_range n : (0 <= commitTimestamp n < 2 ^ 63)%Z;
}.

#[export] Instance TestSpanner : SpannerEngine := {|
  strFits n s := (String.length s <=? n)%nat;
  bufferFault _ := None;
  spRowsCut _ := None;
  commitTimestamp n := (1700000000 * 1000000000 + 1000 * (Z.of_nat n mod 1000000))%Z;
  spCommitLost _ := false;
  spRuns _ := 3;
  publishLost _ := false;
|}.
#[export] Instance TestSpannerOK : SpannerEngineOK TestSpanner.
Proof.
  split; cbn.
  - intros n. pose proof (Z.div_mod (1700000000 * 1000000000 + 1000 * (Z.of_nat n mod 1000000)) 1000).
    rewrite Z.add_mod, (Z.mul_comm 1000), Z.mod_mul by done. reflexivity.
  - intros n. pose proof (Z.mod_pos_bound (Z.of_nat n) 1000000). lia.
Qed.

(** Codes of google.golang.org/grpc/codes. *)
Definition codeUnknown : Z := 2.
Definition codeNotFound : Z := 5.
Definition codeFailedPrecondition : Z := 9.
Definition codeAborted : Z := 10.
Definition codeOutOfRange : Z := 11.
(** spanner.ErrCode; a row that is not there is [ErrNoRows]. *)
Fixpoint ErrCode (e : goerror) : Z :=
  match e with
  | ErrIO c => c
  | ErrNoRows => codeNotFound
  | ErrWrap _ e => ErrCode e
  | _ => codeUnknown
  end.
(** Datastore.IsNotFound; no errClientNotFound is ever made. *)
Definition IsNotFound (e : goerror) : bool := errorsIs e ErrNoRows.

(** *** Mutations

    What a mutation does to the tables when it is committed at a time. *)
Definition mutation : Type := Z -> Tables -> outcome Tables.
Fixpoint applyAll (ms : list mutation) (ts : Z) (t : Tables) : outcome Tables :=
  match ms with
  | [] => Ok t
  | m :: ms => t' ← m ts t; applyAll ms ts t'
  end.

(** Values a column refuses. *)
Definition refused {A} : outcome A := Err (ErrIO codeFailedPrecondition).
Definition notFound {A} : outcome A := Err (ErrIO codeNotFound).
Definition require (b : bool) : outcome unit := if b then Ok tt else refused.
Definition parent (b : bool) : outcome unit := if b then Ok tt else notFound.
Definition bytesCol (n : Z) (b : gobytes) : outcome gobytes := _ ← require (Z.of_nat (blen b) <=? n)%Z; Ok b.
Definition bytesNotNull (n : Z) (b : gobytes) : outcome string :=
  match b with Some s => _ ← require (Z.of_nat (String.length s) <=? n)%Z; Ok s | None => refused end.
Definition notNull {A} (v : option A) : outcome A := match v with Some a => Ok a | None => refused end.
Definition stringCol `{SpannerEngine} (n : nat) (s : string) : outcome string := _ ← require (strFits n s); Ok s.
Definition stringOpt `{SpannerEngine} (n : nat) (s : option string) : outcome (option string) :=
  match s with Some s => v ← stringCol n s; Ok (Some v) | None => Ok None end.

Lemma require_Ok b u : require b = Ok u -> b = true.
Proof. by destruct b. Qed.
Lemma parent_Ok b u : parent b = Ok u -> b = true.
Proof. by destruct b. Qed.
Lemma spNotNull_Ok {A} (v : option A) a : notNull v = Ok a -> v = Some a.
Proof. destruct v; [by intros [= ->]|done]. Qed.
Lemma bytesNotNull_Ok n b k : bytesNotNull n b = Ok k -> b = Some k /\ (Z.of_nat (String.length k) <= n)%Z.
Proof.
  destruct b as [s|]; [|done]. cbn. intros (u & H%require_Ok & [= ->])%outcome_bind_Ok.
  split; [done|]. by apply Z.leb_le.
Qed.
Lemma stringCol_Ok `{SpannerEngine} n s v : stringCol n s = Ok v -> v = s.
Proof. unfold stringCol. by intros (u & _ & [= ->])%outcome_bind_Ok. Qed.
Lemma bytesCol_Ok n b v : bytesCol n b = Ok v -> v = b.
Proof. unfold bytesCol. by intros (u & _ & [= ->])%outcome_bind_Ok. Qed.

(** Takes apart the checks of the columns of a mutation that succeeded. *)
Ltac inv_mutation :=
  repeat match goal with
  | H : mbind _ _ = Ok _ |- _ => apply outcome_bind_Ok in H as (? & ? & H)
  | H : bytesNotNull _ _ = Ok _ |- _ => apply bytesNotNull_Ok in H as [? ?]
  | H : notNull _ = Ok _ |- _ => apply spNotNull_Ok in H
  | H : stringCol _ _ = Ok _ |- _ => apply stringCol_Ok in H; subst
  | H : bytesCol _ _ = Ok _ |- _ => apply bytesCol_Ok in H; subst
  | H : parent _ = Ok _ |- _ => apply parent_Ok, bool_decide_eq_true in H
  | H : Ok _ = Ok _ |- _ => injection H as H; subst
  end.

Lemma applyAll_app ms ms' ts t : applyAll (ms ++ ms') ts t = (t' ← applyAll ms ts t; applyAll ms' ts t').
Proof.
  revert t. induction ms as [|m ms IH]; intros t; [done|]. cbn.
  destruct (m ts t); [by apply IH|done..].
Qed.

(** A predicate that every mutation keeps. *)
Lemma applyAll_keeps (I : Tables -> Prop) ms ts t t' :
  (forall m t1 t2, m ∈ ms -> I t1 -> m ts t1 = Ok t2 -> I t2) ->
  I t -> applyAll ms ts t = Ok t' -> I t'.
Proof.
  revert t. induction ms as [|m ms IH]; intros t Hm Ht E; cbn in E; [by injection E as <-|].
  apply outcome_bind_Ok in E as (t1 & E1 & E2).
  apply (IH t1); [|by apply (Hm m t t1); [left|..]|done]. intros m' ????. apply Hm; [by right|done..].
Qed.

(** *** The topic of pending messages for the server *)
Record Topic := mkTopic { published : list string; topicStopped : bool }.

(** ** State *)
Record Datastore := mkDatastore { dTables : Tables; dTopic : Topic }.
(** A transaction that runs: what it reads, what it has buffered, and the
    topic, which is outside of it. *)
Record Session := mkSession { sTables : Tables; sWrites : list mutation; sTopic : Topic }.

Class HasTables (D : Type) := tablesOf : D -> Tables.
#[export] Instance datastore_tables : HasTables Datastore := dTables.
#[export] Instance session_tables : HasTables Session := sTables.

Abbreviation Sp := (M (World Datastore)).
Abbreviation Txn := (M (World Session)).

Section Spanner.
Context `{P : Platform} `{E : SpannerEngine}.

(** *** Reads *)
Section Reads.
Context `{HT : HasTables D}.

(** An iterator: the rows it gives, and the error it ends with. *)
Definition rowsOf {R} (f : Tables -> list R) : M (World D) (list R * option goerror) :=
  rows ← query (fun d => Ok (f (tablesOf d)));
  cut ← interact (fun n => Ok (spRowsCut n));
  mret (match cut with Some (k, e) => (take k rows, Some (ErrIO e)) | None => (rows, None) end).
Definition rowsErr (e : option goerror) : M (World D) unit := match e with Some e => fail e | None => mret tt end.

(** The loop that collects what it makes of each row. *)
Definition readRows {R B} (f : Tables -> list R) (g : R -> M (World D) B) : M (World D) (list B) :=
  rows ← rowsOf f;
  res ← mapMs g rows.1;
  rowsErr rows.2 ≫= fun _ => mret res.

Definition ReadRow {R} (f : Tables -> option R) : M (World D) R := queryRow (fun d => f (tablesOf d)).
End Reads.

(** *** Transactions *)
Definition onSession (f : Session -> Session) : Txn unit := fun w => (Ok tt, mkWorld (f (w_data w)) (w_step w)).

Definition BufferWrite (ms : list mutation) : Txn unit :=
  fault ← interact (fun n => Ok (bufferFault n));
  match fault with
  | Some c => fail (ErrIO c)
  | None => onSession (fun s => mkSession (sTables s) (sWrites s ++ ms) (sTopic s))
  end.

(** Topic.Publish; the result is not looked at. *)
Definition publish (m : string) : Txn unit :=
  lost ← interact (fun n => Ok (publishLost n));
  onSession (fun s => mkSession (sTables s) (sWrites s)
    (if lost || topicStopped (sTopic s) then sTopic s else mkTopic (published (sTopic s) ++ [m]) false)).

(** The commit of a run that returned. *)
Definition commit (w : World Datastore) (ms : list mutation) : outcome Z * World Datastore :=
  let d := w_data w in let n := w_step w in
  let ts := commitTimestamp n in
  match sqlFault n with
  | None =>
      match applyAll ms ts (dTables d) with
      | Ok t => (Ok ts, mkWorld (mkDatastore t (dTopic d)) (S n))
      | Err e => (Err e, mkWorld d (S n))
      | Crash why => (Crash why, mkWorld d (S n))
      end
  | Some c =>
      (Err (ErrIO c),
       match applyAll ms ts (dTables d) with
       | Ok t => mkWorld (if negb (c =? codeAborted)%Z && spCommitLost n then mkDatastore t (dTopic d) else d) (S n)
       | _ => mkWorld d (S n)
       end)
  end.

Definition begin (w : World Datastore) : World Session :=
  mkWorld (mkSession (dTables (w_data w)) [] (dTopic (w_data w))) (w_step w).
(** The run is over: its buffer is dropped. *)
Definition rolledBack (t : Tables) (w : World Session) : World Datastore :=
  mkWorld (mkDatastore t (sTopic (w_data w))) (w_step w).

Definition isAborted (e : goerror) : bool := (ErrCode e =? codeAborted)%Z.

(** The value of the closure and the commit timestamp. *)
Fixpoint runTxn {A} (k : nat) (f : Txn A) (w : World Datastore) : outcome (A * Z) * World Datastore :=
  match k with
  | O => (Err (ErrIO codeAborted), w)
  | S k =>
      let '(r, s) := f (begin w) in
      let w1 := rolledBack (dTables (w_data w)) s in
      match r with
      | Crash why => (Crash why, w1)
      | Err e => if isAborted e then runTxn k f w1 else (Err e, w1)
      | Ok a =>
          let '(c, w2) := commit w1 (sWrites (w_data s)) in
          match c with
          | Ok ts => (Ok (a, ts), w2)
          | Err e => if isAborted e then runTxn k f w2 else (Err e, w2)
          | Crash why => (Crash why, w2)
          end
      end
  end.

(** Client.ReadWriteTransaction. *)
Definition ReadWriteTransaction {A} (f : Txn A) : Sp (A * Z) :=
  n ← interact (fun n => Ok (spRuns n)); runTxn n f.
(** With the results dropped. *)
Definition inTxn (f : Txn unit) : Sp unit := ReadWriteTransaction f ≫= fun _ => mret tt.
(** Client.Apply. *)
Definition Apply (ms : list mutation) : Sp unit := inTxn (BufferWrite ms).
End Spanner.

(** ** Lemmas *)
Section SpannerLemmas.
Context `{P : Platform} `{E : SpannerEngine}.

Lemma commit_Ok w ms ts w' :
  commit w ms = (Ok ts, w') ->
  ts = commitTimestamp (w_step w) /\ w_step w' = S (w_step w) /\ dTopic (w_data w') = dTopic (w_data w) /\
  applyAll ms ts (dTables (w_data w)) = Ok (dTables (w_data w')).
Proof using Type.
  unfold commit. destruct (sqlFault _); [done|]. destruct (applyAll _ _ _) eqn:Ea; intros [= <- <-]. by rewrite Ea.
Qed.

(** Whatever a commit reports, all of the writes are done or none. *)
Lemma commit_all_or_none w ms r w' :
  commit w ms = (r, w') ->
  dTopic (w_data w') = dTopic (w_data w) /\
  (dTables (w_data w') = dTables (w_data w) \/
   applyAll ms (commitTimestamp (w_step w)) (dTables (w_data w)) = Ok (dTables (w_data w'))).
Proof using Type.
  unfold commit. destruct (sqlFault _) as [c|]; destruct (applyAll _ _ _) eqn:Ea; try destruct (_ && _);
    intros [= <- <-]; cbn; rewrite ?Ea; auto.
Qed.

(** [f] returns [a] in some run that begins with the tables [t], with these
    writes. *)
Definition wrote {A} (f : Txn A) (t : Tables) (a : A) (ms : list mutation) : Prop :=
  exists tp n s, f (mkWorld (mkSession t [] tp) n) = (Ok a, s) /\ sWrites (w_data s) = ms.

Lemma commit_aborted w ms e w' :
  commit w ms = (Err e, w') -> isAborted e = true -> dTables (w_data w') = dTables (w_data w).
Proof using Type.
  unfold commit, isAborted. destruct (sqlFault _) as [c|].
  - intros [= <- <-] H. cbn in H. destruct (applyAll _ _ _); by rewrite ?H.
  - destruct (applyAll _ _ _); intros [= <- <-]; done.
Qed.

(** A transaction that returns a value has done the writes of one run, at one
    time, once; one that does not has done the writes of one run or nothing. *)
Definition txnEffect {A} (f : Txn A) (t t' : Tables) : Prop :=
  t' = t \/ exists a ms n, wrote f t a ms /\ applyAll ms (commitTimestamp n) t = Ok t'.

Lemma runTxn_cases {A} k (f : Txn A) w r w' :
  runTxn k f w = (r, w') ->
  let t := dTables (w_data w) in let t' := dTables (w_data w') in
  match r with
  | Ok (a, ts) => exists ms n, wrote f t a ms /\ ts = commitTimestamp n /\ (w_step w' = S n)%nat /\ applyAll ms ts t = Ok t'
  | _ => txnEffect f t t'
  end.
Proof using Type.
  revert w. induction k as [|k IH]; intros w E0; cbn in E0; [injection E0 as <- <-; by left|].
  destruct (f (begin w)) as [[a|e|why] s] eqn:Ef.
  - assert (Hw : wrote f (dTables (w_data w)) a (sWrites (w_data s))) by (do 3 eexists; split; [exact Ef|done]).
    destruct (commit _ _) as [[ts|e|why] w2] eqn:Ec.
    + injection E0 as <- <-. apply commit_Ok in Ec as (-> & Hn & _ & Ha). by do 2 eexists.
    + destruct (isAborted e) eqn:Hab.
      * apply commit_aborted in Ec; [|done]. cbn in Ec. cbv zeta. rewrite <- Ec. by apply IH.
      * injection E0 as <- <-. apply commit_all_or_none in Ec as (_ & [Ht|Ht]); cbn in Ht; [by left|].
        right. by do 3 eexists.
    + injection E0 as <- <-. apply commit_all_or_none in Ec as (_ & [Ht|Ht]); cbn in Ht; [by left|].
      right. by do 3 eexists.
  - destruct (isAborted e); [exact (IH _ E0)|]. injection E0 as <- <-. by left.
  - injection E0 as <- <-. by left.
Qed.

Lemma ReadWriteTransaction_cases {A} (f : Txn A) w r w' :
  ReadWriteTransaction f w = (r, w') ->
  let t := dTables (w_data w) in let t' := dTables (w_data w') in
  match r with
  | Ok (a, ts) => exists ms n, wrote f t a ms /\ ts = commitTimestamp n /\ (w_step w' = S n)%nat /\ applyAll ms ts t = Ok t'
  | _ => txnEffect f t t'
  end.
Proof using Type. unfold ReadWriteTransaction, mbind, M_bind, interact. intros H. by apply runTxn_cases in H. Qed.

Lemma inTxn_Ok f w u w' :
  inTxn f w = (Ok u, w') ->
  exists ms n, wrote f (dTables (w_data w)) tt ms /\
    applyAll ms (commitTimestamp n) (dTables (w_data w)) = Ok (dTables (w_data w')).
Proof using Type.
  unfold inTxn. intros ([[] ts] & w1 & H & [_ <-]%ret_Ok)%bind_Ok.
  apply ReadWriteTransaction_cases in H as (ms & n & H1 & -> & _ & H2). by exists ms, n.
Qed.

(** An invariant of the tables that the writes of every run keep. *)
Lemma preserves_txn {A} (I : Tables -> Prop) (f : Txn A) :
  (forall t a ms ts t', I t -> wrote f t a ms -> applyAll ms ts t = Ok t' -> I t') ->
  preserves (onData (fun d => I (dTables d))) (ReadWriteTransaction f).
Proof using Type.
  intros Hf w Hw. destruct (ReadWriteTransaction f w) as [r w'] eqn:E0. apply ReadWriteTransaction_cases in E0.
  unfold onData in *. cbn. destruct r as [[a ts]| |].
  - destruct E0 as (ms & n & H1 & _ & _ & H2). by eapply Hf.
  - destruct E0 as [->|(a & ms & n & H1 & H2)]; [done|by eapply Hf].
  - destruct E0 as [->|(a & ms & n & H1 & H2)]; [done|by eapply Hf].
Qed.
Lemma preserves_inTxn (I : Tables -> Prop) (f : Txn unit) :
  (forall t ms ts t', I t -> wrote f t tt ms -> applyAll ms ts t = Ok t' -> I t') ->
  preserves (onData (fun d => I (dTables d))) (inTxn f).
Proof using Type.
  intros Hf. apply preserves_bind; [|intros; apply preserves_ret]. apply preserves_txn. intros t [] ms ts t'. apply Hf.
Qed.

(** *** What runs write *)
Lemma BufferWrite_Ok ms w u w' :
  BufferWrite ms w = (Ok u, w') ->
  sTables (w_data w') = sTables (w_data w) /\ sWrites (w_data w') = sWrites (w_data w) ++ ms.
Proof using Type.
  unfold BufferWrite. intros (c & w1 & H & H')%bind_Ok. apply interact_Ok in H as [_ ->].
  destruct c; [done|]. by injection H' as _ <-.
Qed.

Lemma publish_Ok m w u w' :
  publish m w = (Ok u, w') -> sTables (w_data w') = sTables (w_data w) /\ sWrites (w_data w') = sWrites (w_data w).
Proof using Type.
  unfold publish. intros (c & w1 & H & H')%bind_Ok. apply interact_Ok in H as [_ ->]. by injection H' as _ <-.
Qed.

Lemma wrote_BufferWrite ms t u ms' : wrote (BufferWrite ms) t u ms' -> ms' = ms.
Proof using Type. intros (tp & n & s & H & <-). by apply BufferWrite_Ok in H as [_ ->]. Qed.

Lemma preserves_write (I : Tables -> Prop) ms :
  (forall m ts t t', m ∈ ms -> I t -> m ts t = Ok t' -> I t') -> preserves (onData (fun d => I (dTables d))) (inTxn (BufferWrite ms)).
Proof using Type.
  intros Hm. apply preserves_inTxn. intros t ms' ts t' Ht ->%wrote_BufferWrite. apply applyAll_keeps; [|done].
  intros m t1 t2. apply Hm.
Qed.

(** *** Reads leave everything as it is *)
Section ReadLemmas.
Context `{HT : HasTables D}.

Lemma sp_rowsOf_Ok {R} (f : Tables -> list R) r (w w' : World D) :
  PlatformOK P -> rowsOf f w = (Ok r, w') ->
  w_data w' = w_data w /\
  match r.2 with
  | None => r.1 ≡ₚ f (tablesOf (w_data w))
  | Some _ => exists l, l ≡ₚ f (tablesOf (w_data w)) /\ r.1 `prefix_of` l
  end.
Proof using Type.
  intros HP (rows & w1 & H1 & H2)%bind_Ok. apply query_Ok in H1 as (_ & (l & [= <-] & ->) & ->).
  apply bind_Ok in H2 as (cut & w2 & H2 & H3). apply interact_Ok in H2 as [_ ->].
  apply ret_Ok in H3 as [<- <-]. split; [done|]. destruct cut as [[k e]|]; cbn.
  - eexists. split; [apply deliver_perm|]. eexists. symmetry. apply take_drop.
  - apply deliver_perm.
Qed.

Lemma sp_rowsErr_Ok e u (w w' : World D) : rowsErr e w = (Ok u, w') -> e = None /\ w' = w.
Proof using Type. destruct e; [done|]. by intros [_ <-]%ret_Ok. Qed.

Lemma readRows_Ok {R B} (f : Tables -> list R) (g : R -> M (World D) B) res (w w' : World D) :
  PlatformOK P -> readRows f g w = (Ok res, w') ->
  exists rows w1, rows ≡ₚ f (tablesOf (w_data w)) /\ w_data w1 = w_data w /\ mapMs g rows w1 = (Ok res, w').
Proof using Type.
  intros HP (r & w1 & H1 & H2)%bind_Ok. apply sp_rowsOf_Ok in H1 as [Hd Hr]; [|done].
  apply bind_Ok in H2 as (res' & w2 & H2 & H3). apply bind_Ok in H3 as (u & w3 & H3 & H4).
  apply sp_rowsErr_Ok in H3 as [He ->]. apply ret_Ok in H4 as [-> ->]. rewrite He in Hr.
  by exists r.1, w1.
Qed.

Lemma mapMs_lift_Ok {R B} (g : R -> outcome B) l res (w w' : World D) :
  mapMs (fun x => lift (g x)) l w = (Ok res, w') -> w' = w /\ Forall2 (fun x y => g x = Ok y) l res.
Proof using Type.
  revert res w. induction l as [|x l IH]; intros res w; cbn.
  - intros [<- <-]%ret_Ok. by split.
  - intros (y & w1 & [Hy <-]%lift_Ok & H)%bind_Ok. apply bind_Ok in H as (ys & w2 & H & [<- <-]%ret_Ok).
    apply IH in H as [-> H]. split; [done|]. by constructor.
Qed.

Lemma ReadRow_Ok {R} (f : Tables -> option R) r (w w' : World D) :
  ReadRow f w = (Ok r, w') -> w_data w' = w_data w /\ f (tablesOf (w_data w)) = Some r.
Proof using Type. intros (_ & Hr & ->)%queryRow_Ok. by split. Qed.
End ReadLemmas.
End SpannerLemmas.

(** ** What a closure buffers

    [readOnly f]: [f] leaves its session as it is.  [buffers R f]: a run of [f]
    that returns adds writes to the buffer that satisfy [R], and nothing else
    but the topic changes. *)
Definition readOnly {D A} (f : M (World D) A) : Prop := forall w, w_data (snd (f w)) = w_data w.
Definition buffers {A} (R : list mutation -> Prop) (f : Txn A) : Prop := forall w a w', f w = (Ok a, w') ->
  sTables (w_data w') = sTables (w_data w) /\ exists ms, sWrites (w_data w') = sWrites (w_data w) ++ ms /\ R ms.

(** A property of the writes that lists of such writes have. *)
Record closed (R : list mutation -> Prop) : Prop := {
  closed_nil : R [];
  closed_app ms ms' : R ms -> R ms' -> R (ms ++ ms');
}.
Definition keepsGroup (I : Tables -> Prop) (ms : list mutation) : Prop :=
  forall ts t t', I t -> applyAll ms ts t = Ok t' -> I t'.
Lemma keepsGroup_closed I : closed (keepsGroup I).
Proof.
  split; [by intros ts t t' Ht [= <-]|]. intros ms ms' H H' ts t t' Ht Ha. rewrite applyAll_app in Ha.
  apply outcome_bind_Ok in Ha as (t1 & H1 & H2). by eapply H', H2; eapply H.
Qed.

Create HintDb buffers.
Section Buffers.
Context `{P : Platform} `{E : SpannerEngine}.

Lemma readOnly_ret {D A} (a : A) : readOnly (D := D) (mret a).
Proof using Type. done. Qed.
Lemma readOnly_lift {D A} (o : outcome A) : readOnly (D := D) (lift o).
Proof using Type. done. Qed.
Lemma readOnly_fail {D A} e : readOnly (D := D) (fail (A := A) e).
Proof using Type. done. Qed.
Lemma readOnly_interact {D A} (f : nat -> outcome A) : readOnly (D := D) (interact f).
Proof using Type. done. Qed.
Lemma readOnly_bind {D A B} (m : M (World D) A) (f : A -> M (World D) B) :
  readOnly m -> (forall a, readOnly (f a)) -> readOnly (m ≫= f).
Proof using Type.
  intros Hm Hf w. unfold mbind, M_bind. specialize (Hm w). destruct (m w) as [[a| |] w1]; cbn in *; [|done..]. by rewrite Hf.
Qed.
Lemma readOnly_try {D A} (m : M (World D) A) : readOnly m -> readOnly (try m).
Proof using Type. intros Hm w. unfold try. specialize (Hm w). by destruct (m w) as [[]]. Qed.
Lemma readOnly_foldM {D A B} (f : B -> A -> M (World D) B) l acc : (forall b a, readOnly (f b a)) -> readOnly (foldM f l acc).
Proof using Type. intros Hf. revert acc. induction l as [|x l IH]; intros acc; [done|]. by apply readOnly_bind. Qed.
Lemma readOnly_mapMs {D A B} (f : A -> M (World D) B) l : (forall a, readOnly (f a)) -> readOnly (mapMs f l).
Proof using Type.
  intros Hf. induction l as [|x l IH]; [done|]. apply readOnly_bind; [done|]. intros y. by apply readOnly_bind.
Qed.
Lemma readOnly_rowsOf `{HasTables D} {R} (f : Tables -> list R) : readOnly (rowsOf f).
Proof using Type.
  apply readOnly_bind; [|intros; by apply readOnly_bind]. intros w. unfold query. by destruct (sqlFault _).
Qed.
Lemma readOnly_rowsErr {D} e : readOnly (D := D) (rowsErr e).
Proof using Type. by destruct e. Qed.
Lemma readOnly_ReadRow `{HasTables D} {R} (f : Tables -> option R) : readOnly (ReadRow f).
Proof using Type. intros w. unfold ReadRow, queryRow. destruct (sqlFault _); [done|]. by destruct (f _). Qed.
Lemma readOnly_readRows `{HasTables D} {R B} (f : Tables -> list R) (g : R -> M (World D) B) :
  (forall r, readOnly (g r)) -> readOnly (readRows f g).
Proof using Type.
  intros Hg. apply readOnly_bind; [apply readOnly_rowsOf|]. intros r. apply readOnly_bind; [by apply readOnly_mapMs|].
  intros l. apply readOnly_bind; [apply readOnly_rowsErr|done].
Qed.

Context (R : list mutation -> Prop) (HR : closed R).

Lemma buffers_readOnly {A} (f : Txn A) : readOnly f -> buffers R f.
Proof using HR.
  intros Hf w a w' H. specialize (Hf w). rewrite H in Hf. cbn in Hf. rewrite Hf. split; [done|].
  exists []. rewrite app_nil_r. split; [done|apply HR].
Qed.
Lemma buffers_crash {A} why : buffers R (crash (A := A) why).
Proof using Type. by intros w a w'. Qed.
Lemma buffers_bind {A B} (m : Txn A) (f : A -> Txn B) : buffers R m -> (forall a, buffers R (f a)) -> buffers R (m ≫= f).
Proof using HR.
  intros Hm Hf w b w' (a & w1 & H1 & H2)%bind_Ok. apply Hm in H1 as (T1 & ms & W1 & R1). apply Hf in H2 as (T2 & ms' & W2 & R2).
  split; [congruence|]. exists (ms ++ ms'). split; [by rewrite W2, W1, app_assoc|by apply HR].
Qed.
(** With what the first part has returned. *)
Lemma buffers_lift_bind {A B} (o : outcome A) (f : A -> Txn B) : (forall a, o = Ok a -> buffers R (f a)) -> buffers R (lift o ≫= f).
Proof using HR. intros Hf w b w' (a & w1 & [Ho <-]%lift_Ok & H2)%bind_Ok. by eapply Hf. Qed.
Lemma buffers_forM {A} (l : list A) (f : A -> Txn unit) : (forall x, buffers R (f x)) -> buffers R (forM_ l f).
Proof using HR.
  intros Hf. induction l as [|x l IH]; cbn; [by apply buffers_readOnly|]. by apply buffers_bind.
Qed.
Lemma buffers_foldM {A B} (f : B -> A -> Txn B) (l : list A) acc : (forall b x, buffers R (f b x)) -> buffers R (foldM f l acc).
Proof using HR.
  intros Hf. revert acc. induction l as [|x l IH]; intros acc; cbn; [by apply buffers_readOnly|]. by apply buffers_bind.
Qed.
Lemma buffers_BufferWrite ms : R ms -> buffers R (BufferWrite ms).
Proof using Type. intros Hms w u w' [HT HW]%BufferWrite_Ok. split; [done|]. by exists ms. Qed.
Lemma buffers_publish m : buffers R (publish m).
Proof using HR. intros w u w' [HT HW]%publish_Ok. split; [done|]. exists []. rewrite app_nil_r. split; [done|apply HR]. Qed.

Lemma wrote_buffers {A} (f : Txn A) t a ms : buffers R f -> wrote f t a ms -> R ms.
Proof using Type. intros Hf (tp & n & s & H & <-). apply Hf in H as (_ & ms & -> & Hms). done. Qed.
End Buffers.

Lemma preserves_buffers `{P : Platform} `{E : SpannerEngine} (I : Tables -> Prop) (f : Txn unit) :
  buffers (keepsGroup I) f -> preserves (onData (fun d => I (dTables d))) (inTxn f).
Proof.
  intros Hf. apply preserves_inTxn. intros t ms ts t' Ht Hw. by apply (wrote_buffers _ _ _ _ _ Hf Hw).
Qed.

#[export] Hint Resolve readOnly_ret readOnly_lift readOnly_fail readOnly_interact readOnly_try readOnly_rowsOf readOnly_rowsErr
  readOnly_ReadRow readOnly_readRows readOnly_mapMs readOnly_foldM readOnly_bind buffers_readOnly buffers_crash buffers_publish : buffers.

(** [solve_buffers]: follows the text of a closure down to its writes. *)
Ltac solve_buffers :=
  repeat first
    [ progress intros
    | solve [auto with buffers nocore]
    | apply buffers_lift_bind; [assumption|]
    | apply buffers_bind; [assumption| |]
    | apply buffers_foldM; [assumption|]
    | apply buffers_forM; [assumption|]
    | match goal with
      | |- buffers _ (match ?x with _ => _ end) => destruct x eqn:?
      | |- buffers _ (let '(_, _) := ?x in _) => destruct x eqn:?
      end ].
