(* ===== verification/SpannerClients.v ===== *)
(** * The Spanner datastore: clients

    src/server/spanner/clientstore.go, operation by operation.  Writes are
    mutations: a client or label that is there already is written over, and a
    change of a client that is not there fails. *)
From Stdlib Require Import SpecFloat.
From S2P Require Import Prelude Platform Ids Proto Db Sqlite SqliteMessages SqliteClients.
From S2P Require Import Spanner.

(** float32 of a float64. *)
Definition float64ToFloat32 (f : spec_float) : spec_float :=
  match f with
  | S754_finite s m e => binary_normalize 24 128 (if s then Zneg m else Zpos m) e s
  | _ => f
  end.

Definition bytesToUint64 (b : gobytes) : outcome Z :=
  if decide (blen b <> 8) then Err (ErrText "error converting to uint64, expected 8 bytes")
  else Ok (getLE (list_ascii_of_string (contents b))).
Definition uint64ToBytes (i : Z) : string := string_of_list_ascii (putLE 8 i).
Arguments uint64ToBytes _ : simpl never.

(** time.Time.UnixMicro and time.UnixMicro. *)
Definition UnixMicro (t : Z) : Z := wrapI64 (t / 1000).
Definition ofUnixMicro (us : Z) : Z := (us * 1000)%Z.

Section Clients.
Context `{P : Platform} `{L : ProtoLib} `{E : SpannerEngine} `{F : FloatConv}.

(** ** Reading *)

(** A callback with its own state; [orElse] is what is made of its error. *)
Definition callBack {X A} (callback : X -> A -> X * option goerror) (orElse : goerror -> goerror) (a : A) :
    M (World (Datastore * X)) unit := fun w =>
  let '(x, e) := callback (snd (w_data w)) a in
  (match e with Some e => Err (orElse e) | None => Ok tt end, mkWorld (fst (w_data w), x) (w_step w)).

(** It is called on what is made of each row. *)
Definition callEach {X R A} (rows : list R) (g : R -> outcome A) (callback : X -> A -> X * option goerror)
    (orElse : goerror -> goerror) : M (World (Datastore * X)) unit :=
  forM_ rows (fun r => a ← lift (g r); callBack callback orElse a).

Definition onDatastore {X A} (m : Sp A) : M (World (Datastore * X)) A := onPart fst (fun d s => (d, snd s)) m.

Definition streamed (includeBlacklisted : bool) (lastContactAfter : option Z) (r : spClient) : bool :=
  (includeBlacklisted || negb (spBlacklisted r)) &&
  match lastContactAfter with Some after => (after <? spLastContactTime r)%Z | None => true end.

Definition StreamClientIds {X} (includeBlacklisted : bool) (lastContactAfter : option Z)
    (callback : X -> ClientID.t -> X * option goerror) : M (World (Datastore * X)) unit :=
  rows ← onDatastore (rowsOf (fun t => fst <$>
    filter (fun kr => streamed includeBlacklisted lastContactAfter kr.2 = true) (map_to_list (spClients t))));
  callEach rows.1 (fun id => ClientID.BytesToClientID (Some id)) callback (fun e => e) ≫= fun _ =>
  onDatastore (rowsErr rows.2).

(** The rows under the ids, or all when there are none; a set of keys has each
    row once. *)
Definition asked (ids : list ClientID.t) (k : string) : Prop := ids = [] \/ Some k ∈ (ClientID.Bytes <$> ids).
#[local] Instance asked_dec ids k : Decision (asked ids k) := ltac:(unfold asked; apply _).

(** A nil timestamp is the zero one, as its getters have it. *)
Definition nilTimestamp : Timestamp.t := Timestamp.Mk 0 0.

Definition clientOfRow (labels : list (string * Label.t)) (kr : string * spClient) : outcome Client.t :=
  let r := kr.2 in
  ts ← (if IsZero (spLastContactTime r) then Ok nilTimestamp
        else let p := tspbNew (spLastContactTime r) in
             match tspbCheckValid p with Some _ => Err (ErrText "unable to parse LastContactTime") | None => Ok p end);
  Ok (Client.Mk (Some kr.1) (snd <$> filter (fun l => l.1 = kr.1) labels) ts
        (fromNULLString (spLastContactAddress r)) (fromNULLString (spLastContactStreamingTo r))
        (spLastClock r) (spBlacklisted r)).

Definition labelRows (keep : string -> Prop) `{forall k, Decision (keep k)} (t : Tables) : list (string * Label.t) :=
  (fun row : string * string * string => (row.1.1, Label.Mk row.1.2 row.2)) <$>
    filter (fun row => keep row.1.1) (elements (spLabels t)).

Definition ListClients (ids : list ClientID.t) : Sp (list Client.t) :=
  labels ← readRows (labelRows (asked ids)) mret;
  readRows (fun t => filter (fun kr => asked ids kr.1) (map_to_list (spClients t))) (fun kr => lift (clientOfRow labels kr)).

Definition clientAt (id : gobytes) (t : Tables) : option spClient := k ← id; spClients t !! k.

Definition GetClientData (id : ClientID.t) : Sp ClientData.t :=
  c ← ReadRow (clientAt (ClientID.Bytes id));
  labels ← readRows (labelRows (fun k => Some k = ClientID.Bytes id)) mret;
  mret (ClientData.Mk (Some (spClientKey c)) (snd <$> labels) (spBlacklisted c)).

(** ** Writing *)

(** InsertOrUpdate of ClientID, Blacklisted, ClientKey and LastContactTime; the
    other columns stay. *)
Definition putClient (id : gobytes) (bl : bool) (key : gobytes) : mutation := fun ts t =>
  k ← bytesNotNull 8 id;
  key ← bytesNotNull 8192 key;
  let r := match spClients t !! k with
           | Some r => mkSpClient key ts (spLastContactAddress r) (spLastContactStreamingTo r) bl (spLastClock r)
           | None => mkSpClient key ts None None bl None
           end in
  Ok (setSpClients (<[k := r]> (spClients t)) t).

Definition putLabel (id : gobytes) (l : Label.t) : mutation := fun _ t =>
  k ← bytesNotNull 8 id;
  _ ← parent (bool_decide (is_Some (spClients t !! k)));
  Ok (setSpLabels ({[(k, Label.ServiceName l, Label.Label l)]} ∪ spLabels t) t).

Definition deleteLabel (id : gobytes) (l : Label.t) : mutation := fun _ t =>
  Ok (match id with
      | Some k => setSpLabels (spLabels t ∖ {[(k, Label.ServiceName l, Label.Label l)]}) t
      | None => t
      end).

Definition updateClient (id : gobytes) (f : Z -> spClient -> outcome spClient) : mutation := fun ts t =>
  k ← bytesNotNull 8 id;
  match spClients t !! k with
  | None => notFound
  | Some r => r' ← f ts r; Ok (setSpClients (<[k := r']> (spClients t)) t)
  end.

Definition blacklist (r : spClient) : spClient :=
  mkSpClient (spClientKey r) (spLastContactTime r) (spLastContactAddress r) (spLastContactStreamingTo r) true (spLastClock r).

Definition AddClient (id : ClientID.t) (data : ClientData.t) : Sp unit :=
  inTxn (BufferWrite
    (putClient (ClientID.Bytes id) (ClientData.Blacklisted data) (ClientData.Key data) ::
     (putLabel (ClientID.Bytes id) <$> ClientData.Labels data))).

Definition AddClientLabel (id : ClientID.t) (l : Label.t) : Sp unit :=
  inTxn (BufferWrite [putLabel (ClientID.Bytes id) l]).
Definition RemoveClientLabel (id : ClientID.t) (l : Label.t) : Sp unit :=
  inTxn (BufferWrite [deleteLabel (ClientID.Bytes id) l]).
Definition BlacklistClient (id : ClientID.t) : Sp unit :=
  inTxn (BufferWrite [updateClient (ClientID.Bytes id) (fun _ r => Ok (blacklist r))]).

(** ** Contacts *)
Definition setLastContact (ts : Z) (addr : string) (st : option string) (clock : option Timestamp.t) (r : spClient) : spClient :=
  mkSpClient (spClientKey r) ts (Some addr) st (spBlacklisted r) clock.

Definition updateContact (id : gobytes) (addr : string) (st : option string) (clock : option Timestamp.t) : mutation :=
  updateClient id (fun ts r =>
    addr ← stringCol 64 addr;
    st ← stringOpt 128 st;
    Ok (setLastContact ts addr st clock r)).

(** InsertOrUpdate at the commit timestamp. *)
Definition putContact (id : gobytes) (sent received addr : string) : mutation := fun ts t =>
  k ← bytesNotNull 8 id;
  addr ← stringCol 64 addr;
  _ ← parent (bool_decide (is_Some (spClients t !! k)));
  Ok (setSpContacts (<[(k, ts) := mkSpContact sent (Some received) (Some addr)]> (spContacts t)) t).

Definition contactWrites (data : DbContactData.t) : list mutation :=
  let bid := ClientID.Bytes (DbContactData.ClientID data) in
  let st := if String.eqb (DbContactData.StreamingTo data) "" then None else Some (DbContactData.StreamingTo data) in
  [updateContact bid (DbContactData.Addr data) st (DbContactData.ClientClock data);
   putContact bid (uint64ToBytes (DbContactData.NonceSent data)) (uint64ToBytes (DbContactData.NonceReceived data))
     (DbContactData.Addr data)].

Definition contactID (id : ClientID.t) (ts : Z) : ContactID :=
  (ClientID.String id ++ String ":" (Hex.FormatInt16 (UnixMicro ts)))%string.

Definition RecordClientContact (data : DbContactData.t) : Sp ContactID :=
  r ← ReadWriteTransaction (BufferWrite (contactWrites data));
  mret (contactID (DbContactData.ClientID data) r.2).

Definition contactOfRow (kr : string * Z * spContact) : outcome ClientContact.t :=
  sn ← bytesToUint64 (Some (spSentNonce kr.2));
  rn ← bytesToUint64 (spReceivedNonce kr.2);
  let tp := tspbNew kr.1.2 in
  match tspbCheckValid tp with
  | Some _ => Err (ErrText "can't make timestamp proto out of read timestamp")
  | None => Ok (ClientContact.Mk sn rn (fromNULLString (spAddress kr.2)) tp)
  end.

Definition StreamClientContacts {X} (id : ClientID.t) (callback : X -> ClientContact.t -> X * option goerror) :
    M (World (Datastore * X)) unit :=
  rows ← onDatastore (rowsOf (fun t => filter (fun kr => Some kr.1.1 = ClientID.Bytes id) (map_to_list (spContacts t))));
  callEach rows.1 contactOfRow callback (fun _ => ErrText "callback failed") ≫= fun _ =>
  onDatastore (rowsErr rows.2).

Definition ListClientContacts (id : ClientID.t) : Sp (list ClientContact.t) := fun w =>
  let '(r, w') := StreamClientContacts id (fun res c => (res ++ [c], None)) (mkWorld (w_data w, []) (w_step w)) in
  (match r with Ok _ => Ok (snd (w_data w')) | Err e => Err e | Crash why => Crash why end,
   mkWorld (fst (w_data w')) (w_step w')).

(** The id of the client and the time in microseconds. *)
Definition splitContact (contact : ContactID) : outcome (ClientID.t * Z) :=
  match splitString ":" contact with
  | [c; s] =>
      cid ← ClientID.StringToClientID c;
      ts ← Hex.ParseInt16 s;
      Ok (cid, ts)
  | _ => Err (ErrText "unknown ContactID format")
  end.

Definition putLink (id : gobytes) (time : Z) (mid : gobytes) : mutation := fun _ t =>
  k ← bytesNotNull 8 id;
  m ← bytesNotNull 32 mid;
  _ ← parent (bool_decide (is_Some (spContacts t !! (k, time))));
  Ok (setSpContactMessages ({[(k, time, m)]} ∪ spContactMessages t) t).

Definition tryLinkMessagesToContact (cid : ClientID.t) (ts : Z) (ids : list MessageID.t) : Txn unit :=
  BufferWrite ((fun id => putLink (ClientID.Bytes cid) (ofUnixMicro ts) (MessageID.Bytes id)) <$> ids).

Definition LinkMessagesToContact (contact : ContactID) (ids : list MessageID.t) : Sp unit :=
  if decide (ids = []) then mret tt
  else
    ct ← lift (splitContact contact);
    inTxn (tryLinkMessagesToContact ct.1 ct.2 ids).

(** ** Resource usage *)
Definition usageRecord (rud : ResourceUsageData.t) (u : AggregatedResourceUsage.t) : ClientResourceUsageRecord.t :=
  ClientResourceUsageRecord.Mk (ResourceUsageData.Scope rud) (ResourceUsageData.Pid rud)
    (ResourceUsageData.ProcessStartTime rud) (ResourceUsageData.DataTimestamp rud) None
    (ResourceUsageData.ProcessTerminated rud)
    (float64ToFloat32 (AggregatedResourceUsage.MeanUserCpuRate u)) (float64ToFloat32 (AggregatedResourceUsage.MaxUserCpuRate u))
    (float64ToFloat32 (AggregatedResourceUsage.MeanSystemCpuRate u)) (float64ToFloat32 (AggregatedResourceUsage.MaxSystemCpuRate u))
    (float64ToInt32 (mulFloat64 (AggregatedResourceUsage.MeanResidentMemory u) bytesToMIB))
    (float64ToInt32 (mulFloat64 (int64ToFloat64 (AggregatedResourceUsage.MaxResidentMemory u)) bytesToMIB))
    (float64ToInt32 (AggregatedResourceUsage.MeanNumFds u)) (wrapI32 (AggregatedResourceUsage.MaxNumFds u)).

Definition putUsage (id : gobytes) (record : ClientResourceUsageRecord.t) : mutation := fun ts t =>
  k ← bytesNotNull 8 id;
  _ ← parent (bool_decide (is_Some (spClients t !! k)));
  Ok (setSpUsages (<[(k, ts) := record]> (spUsages t)) t).

Definition RecordResourceUsageData (id : ClientID.t) (rud : ResourceUsageData.t) : Sp unit :=
  inTxn (match ResourceUsageData.ResourceUsage rud with
    | None => crash "nil ResourceUsage"
    | Some u => BufferWrite [putUsage (ClientID.Bytes id) (usageRecord rud u)]
    end).

Definition setServerTimestamp (ts : Timestamp.t) (r : ClientResourceUsageRecord.t) : ClientResourceUsageRecord.t :=
  match r with
  | ClientResourceUsageRecord.Mk a b c d _ e f g h i j k l m => ClientResourceUsageRecord.Mk a b c d (Some ts) e f g h i j k l m
  end.

Definition usageOfRow (kr : string * Z * ClientResourceUsageRecord.t) : ClientResourceUsageRecord.t :=
  let ts := tspbNew kr.1.2 in
  match tspbCheckValid ts with Some _ => kr.2 | None => setServerTimestamp ts kr.2 end.

Definition FetchResourceUsageRecords (id : ClientID.t) (startTimestamp endTimestamp : option Timestamp.t) :
    Sp (list ClientResourceUsageRecord.t) :=
  start ← orFail (checkValid startTimestamp) (ErrText "startTimestamp is not valid");
  stop ← orFail (checkValid endTimestamp) (ErrText "endTimestamp is not valid");
  if negb (start <? stop)%Z then fail (ErrText "time range is invalid: endTimestamp is before or equal startTimestamp")
  else
    readRows (fun t => filter (fun kr => Some kr.1.1 = ClientID.Bytes id /\ (start <= kr.1.2 < stop)%Z) (map_to_list (spUsages t)))
      (fun kr => mret (usageOfRow kr)).
End Clients.

(** ** What refers to what *)
Record spRefs (t : Tables) : Prop := {
  r_client k : is_Some (spClients t !! k) -> String.length k = 8;
  r_label k s l : (k, s, l) ∈ spLabels t -> is_Some (spClients t !! k);
  r_contact k ts r : spContacts t !! (k, ts) = Some r ->
    is_Some (spClients t !! k) /\ String.length (spSentNonce r) = 8 /\ blen (spReceivedNonce r) = 8;
  r_link k ts m : (k, ts, m) ∈ spContactMessages t -> is_Some (spContacts t !! (k, ts));
  r_usage k ts : is_Some (spUsages t !! (k, ts)) -> is_Some (spClients t !! k);
  r_pending k m : is_Some (spPendings t !! (k, m)) -> is_Some (spClients t !! k);
  r_sent k b : (k, b) ∈ spSents t -> is_Some (spClients t !! k);
}.

Lemma spRefs_empty : spRefs emptyTables.
Proof.
  split; cbn; intros *; rewrite ?lookup_empty; try (by intros [? ?]); try done; by intros ?%not_elem_of_empty.
Qed.

(** A mutation that keeps a property of the tables. *)
Definition keepsAll (I : Tables -> Prop) (m : mutation) : Prop := forall ts t t', I t -> m ts t = Ok t' -> I t'.

Lemma sp_uint64ToBytes_length i : String.length (uint64ToBytes i) = 8.
Proof.
  unfold uint64ToBytes. rewrite <- (putLE_length 8 i) at 2. generalize (putLE 8 i).
  intros l. induction l; cbn; congruence.
Qed.

Lemma sp_nonce_roundtrip i : isU64 i -> bytesToUint64 (Some (uint64ToBytes i)) = Ok i.
Proof.
  intros Hi. unfold bytesToUint64. rewrite decide_False by (intros H; apply H, sp_uint64ToBytes_length).
  change (contents _) with (uint64ToBytes i). unfold uint64ToBytes. rewrite list_ascii_of_string_of_list_ascii, getLE_putLE.
  f_equal. apply Z.mod_small. unfold isU64 in Hi. cbn. lia.
Qed.

Lemma ClientID_Bytes_length id k : ClientID.valid id -> ClientID.Bytes id = Some k -> String.length k = 8.
Proof.
  unfold ClientID.valid, ClientID.Bytes. intros H. destruct (String.eqb_spec (ClientID.id id) "") as [E|E]; [done|].
  intros [= <-]. destruct H as [H|H]; [|done]. by apply length_0_empty in H.
Qed.

Section RefsKept.
Context `{P : Platform} `{L : ProtoLib} `{E : SpannerEngine} `{F : FloatConv}.

(** Rows are only added to the parent tables. *)
Lemma spRefs_clients t k r : spRefs t -> String.length k = 8 -> spRefs (setSpClients (<[k := r]> (spClients t)) t).
Proof using Type.
  assert (Hm : forall m : gmap string spClient, forall j, is_Some (m !! j) -> is_Some (<[k := r]> m !! j))
    by (intros; rewrite lookup_insert; by case_decide).
  intros [H1 H2 H3 H4 H5 H6 H7] Hk. split; cbn; eauto.
  - intros j. rewrite lookup_insert. case_decide; [by subst|]. apply H1.
  - intros j ts c Hc. destruct (H3 _ _ _ Hc). eauto.
Qed.

Lemma keeps_putClient id bl key : ClientID.valid id -> keepsAll spRefs (putClient (ClientID.Bytes id) bl key).
Proof using Type.
  intros Hv ts t t' Ht H. unfold putClient in H. inv_mutation. apply spRefs_clients; [done|].
  by eapply ClientID_Bytes_length.
Qed.

Lemma keeps_putLabel id l : keepsAll spRefs (putLabel id l).
Proof using Type.
  intros ts t t' Ht H. unfold putLabel in H. inv_mutation. destruct Ht. split; cbn; eauto.
  intros j svc nm. rewrite elem_of_union, elem_of_singleton. intros [[= -> -> ->]|Hj]; eauto.
Qed.

Lemma keeps_deleteLabel id l : keepsAll spRefs (deleteLabel id l).
Proof using Type.
  intros ts t t' Ht H. unfold deleteLabel in H. injection H as <-. destruct id; [|done]. destruct Ht. split; cbn; eauto.
  intros j svc nm. rewrite elem_of_difference. intros [Hj _]. eauto.
Qed.

Lemma keeps_updateClient id f : keepsAll spRefs (updateClient id f).
Proof using Type.
  intros ts t t' Ht H. unfold updateClient in H. inv_mutation. destruct (spClients t !! _) as [r|] eqn:Hr; [|done].
  inv_mutation. apply spRefs_clients; [done|]. apply (r_client _ Ht). by rewrite Hr.
Qed.

Lemma keeps_putContact id sent received addr :
  String.length sent = 8 -> String.length received = 8 -> keepsAll spRefs (putContact id sent received addr).
Proof using Type.
  intros Hs Hr ts t t' Ht H. unfold putContact in H. inv_mutation. destruct Ht as [R1 R2 R3 R4 R5 R6 R7]. split; cbn; eauto.
  - intros j ts' r. rewrite lookup_insert. case_decide as Hj; [|by apply R3]. injection Hj as -> ->. by intros [= <-].
  - intros j ts' m Hm. rewrite lookup_insert. case_decide; [done|]. by apply (R4 _ _ m).
Qed.

Lemma keeps_putLink id time mid : keepsAll spRefs (putLink id time mid).
Proof using Type.
  intros ts t t' Ht H. unfold putLink in H. inv_mutation. destruct Ht. split; cbn; eauto.
  intros j ts' m. rewrite elem_of_union, elem_of_singleton. intros [[= -> -> ->]|Hj]; eauto.
Qed.

Lemma keeps_putUsage id record : keepsAll spRefs (putUsage id record).
Proof using Type.
  intros ts t t' Ht H. unfold putUsage in H. inv_mutation. destruct Ht. split; cbn; eauto.
  intros j ts'. rewrite lookup_insert. case_decide as Hj; [|eauto]. injection Hj as -> ->. done.
Qed.

Definition onRefs (I : Tables -> Prop) : World Datastore -> Prop := onData (fun d => I (dTables d)).

Lemma preserves_writes I ms : Forall (keepsAll I) ms -> preserves (onRefs I) (inTxn (BufferWrite ms)).
Proof using Type. intros H. apply preserves_write. intros m ts t t' Hm. rewrite Forall_forall in H. by apply H. Qed.
End RefsKept.

(** ** What the operations do *)
Section Effects.
Context `{P : Platform} {HP : PlatformOK P} `{L : ProtoLib} `{E : SpannerEngine} {HE : SpannerEngineOK E} `{F : FloatConv}.

(** *** Listing *)
Definition spLabelsOf (k : string) (t : Tables) : list Label.t :=
  (fun row : string * string * string => Label.Mk row.1.2 row.2) <$> filter (fun row => row.1.1 = k) (elements (spLabels t)).

Lemma labels_of_rows (keep : string -> Prop) `{forall k, Decision (keep k)} k t :
  keep k -> snd <$> filter (fun l : string * Label.t => l.1 = k) (labelRows keep t) = spLabelsOf k t.
Proof using Type.
  intros Hk. unfold labelRows, spLabelsOf. induction (elements (spLabels t)) as [|[[c s] l] rows IH]; [done|].
  rewrite (filter_cons (fun row : string * string * string => keep row.1.1)),
    (filter_cons (fun row : string * string * string => row.1.1 = k)). cbn [fst snd].
  destruct (decide (c = k)) as [->|Hne].
  - rewrite !decide_True by done. cbn. rewrite decide_True by done. cbn. f_equal. exact IH.
  - destruct (decide (keep c)); cbn; repeat (case_decide; [done|]); exact IH.
Qed.

Lemma mapMs_ret_Ok {D R} (l res : list R) (w w' : World D) : mapMs mret l w = (Ok res, w') -> w' = w /\ res = l.
Proof using Type.
  intros H. apply (mapMs_lift_Ok (fun x => Ok x)) in H as [-> H]. split; [done|].
  induction H as [|x y l l' [= ->] _ IH]; [done|]. by rewrite IH.
Qed.

Definition spListed (t : Tables) (kr : string * spClient) (c : Client.t) : Prop :=
  Client.ClientId c = Some kr.1 /\ Client.Labels c ≡ₚ spLabelsOf kr.1 t /\
  Client.LastContactAddress c = fromNULLString (spLastContactAddress kr.2) /\
  Client.LastContactStreamingTo c = fromNULLString (spLastContactStreamingTo kr.2) /\
  Client.LastClock c = spLastClock kr.2 /\ Client.Blacklisted c = spBlacklisted kr.2.

(** ListClients returns each client it is asked for that is there, once, as its
    row has it and with all of its labels, or all clients when it is asked for
    none. *)
Lemma sp_list_clients_spec ids w cs w' :
  ListClients ids w = (Ok cs, w') ->
  w_data w' = w_data w /\
  exists rows, NoDup rows.*1 /\
    (forall k r, (k, r) ∈ rows <-> spClients (dTables (w_data w)) !! k = Some r /\ asked ids k) /\
    Forall2 (spListed (dTables (w_data w))) rows cs.
Proof using HP.
  unfold ListClients. intros (labels & w1 & H1 & H2)%bind_Ok.
  apply readRows_Ok in H1 as (lrows & w2 & Hl & Hd & H1); [|done]. apply mapMs_ret_Ok in H1 as [-> ->].
  apply readRows_Ok in H2 as (rows & w3 & Hr & Hd3 & H2); [|done]. apply mapMs_lift_Ok in H2 as [-> H2].
  rewrite Hd in *. unfold tablesOf, datastore_tables in *. split; [congruence|]. exists rows. split; [|split].
  - rewrite Hr. apply NoDup_fmap_fst; [|by apply NoDup_filter, NoDup_map_to_list].
    intros k r r' [_ H1]%list_elem_of_filter [_ H3]%list_elem_of_filter. apply elem_of_map_to_list in H1, H3. congruence.
  - intros k r. rewrite Hr, list_elem_of_filter, elem_of_map_to_list. naive_solver.
  - assert (Hin : Forall (fun kr => asked ids kr.1) rows).
    { rewrite Hr. apply Forall_forall. by intros kr [? _]%list_elem_of_filter. }
    clear Hr. revert Hin. induction H2 as [|kr c rows cs Hc _ IH]; intros Hin; [constructor|].
    apply Forall_cons in Hin as [Hk Hin]. constructor; [|by apply IH].
    apply outcome_bind_Ok in Hc as (ts & _ & [= <-]). unfold spListed. cbn. split; [done|]. split; [|done].
    rewrite <- (labels_of_rows (asked ids) kr.1) by done. by rewrite Hl.
Qed.

(** *** Contacts *)
Lemma splitContact_contactID id ts :
  ClientID.valid id -> (0 <= ts < 2 ^ 63)%Z -> splitContact (contactID id ts) = Ok (id, ts / 1000)%Z.
Proof using Type.
  intros Hv Hts. assert (Hu : UnixMicro ts = (ts / 1000)%Z).
  { unfold UnixMicro. apply wrapI64_small. pose proof (Z.div_pos ts 1000). pose proof (Z.div_lt_upper_bound ts 1000 (2 ^ 63)). lia. }
  assert (Hr : (0 <= ts / 1000 < 2 ^ 63)%Z).
  { split; [apply Z.div_pos; lia|apply Z.div_lt_upper_bound; lia]. }
  unfold splitContact, contactID. rewrite splitString_two.
  - rewrite ClientID_String_read by done. cbn. rewrite Hu, Hex.ParseInt16_Format by done. done.
  - unfold ClientID.String. destruct (ClientID.IsNil id).
    + by apply (bool_decide_unpack _).
    + apply Hex.hexDigits_not; [done|apply Hex.hexDigits_Encode].
  - unfold Hex.FormatInt16. rewrite Hu, (proj2 (Z.ltb_ge _ _)) by lia.
    apply Hex.hexDigits_not; [done|apply Hex.hexDigits_Format].
Qed.

Lemma ofUnixMicro_commit ts : (ts mod 1000 = 0)%Z -> ofUnixMicro (ts / 1000) = ts.
Proof using Type. intros H. unfold ofUnixMicro. pose proof (Z.div_mod ts 1000 ltac:(lia)). lia. Qed.

Lemma updateContact_Ok id addr st clock ts t t' :
  updateContact id addr st clock ts t = Ok t' ->
  exists k r, id = Some k /\ spClients t !! k = Some r /\
    t' = setSpClients (<[k := setLastContact ts addr st clock r]> (spClients t)) t.
Proof using Type.
  unfold updateContact, updateClient. intros H. inv_mutation. destruct (spClients t !! x) as [r|] eqn:Hr; [|done].
  inv_mutation. exists x, r. split; [done|]. split; [done|].
  destruct st as [st|]; cbn in *; inv_mutation; done.
Qed.

(** A contact that is recorded is found under the id that is returned: the
    client and the time it names are those of a contact with the nonces and the
    address it was made with, and the row of the client has the same time.
    Nothing else changes. *)
Lemma sp_record_contact_spec data w c w' :
  ClientID.valid (DbContactData.ClientID data) ->
  isU64 (DbContactData.NonceSent data) -> isU64 (DbContactData.NonceReceived data) ->
  RecordClientContact data w = (Ok c, w') ->
  let t := dTables (w_data w) in
  exists k r us, ClientID.Bytes (DbContactData.ClientID data) = Some k /\ spClients t !! k = Some r /\
    splitContact c = Ok (DbContactData.ClientID data, us) /\
    let ts := ofUnixMicro us in
    let row := mkSpContact (uint64ToBytes (DbContactData.NonceSent data))
                 (Some (uint64ToBytes (DbContactData.NonceReceived data))) (Some (DbContactData.Addr data)) in
    let st := if String.eqb (DbContactData.StreamingTo data) "" then None else Some (DbContactData.StreamingTo data) in
    dTables (w_data w') =
      setSpContacts (<[(k, ts) := row]> (spContacts t))
        (setSpClients (<[k := setLastContact ts (DbContactData.Addr data) st (DbContactData.ClientClock data) r]> (spClients t)) t) /\
    bytesToUint64 (Some (spSentNonce row)) = Ok (DbContactData.NonceSent data) /\
    bytesToUint64 (spReceivedNonce row) = Ok (DbContactData.NonceReceived data).
Proof using HE.
  intros Hv Hs Hr H. unfold RecordClientContact in H. apply bind_Ok in H as ([u ts] & w1 & H & [<- <-]%ret_Ok).
  apply ReadWriteTransaction_cases in H as (ms & n & ->%wrote_BufferWrite & -> & _ & H). cbv zeta.
  unfold contactWrites in H. cbn [applyAll] in H. apply outcome_bind_Ok in H as (t1 & H1 & H).
  apply updateContact_Ok in H1 as (k & r & Hk & Hr0 & ->). apply outcome_bind_Ok in H as (t2 & H2 & [= <-]).
  pose proof (commitTimestamp_range n) as Hts. pose proof (commitTimestamp_micro n) as Hmicro.
  exists k, r, (commitTimestamp n / 1000)%Z. split; [done|]. split; [done|].
  split; [by apply splitContact_contactID|]. rewrite ofUnixMicro_commit by done. split.
  - unfold putContact in H2. inv_mutation. rewrite Hk in *. simplify_eq. done.
  - split; apply sp_nonce_roundtrip; done.
Qed.

(** Its messages can be linked to it. *)
Lemma sp_link_messages_spec c id us k ids w u w' :
  splitContact c = Ok (id, us) -> ClientID.Bytes id = Some k -> ids <> [] ->
  LinkMessagesToContact c ids w = (Ok u, w') ->
  is_Some (spContacts (dTables (w_data w)) !! (k, ofUnixMicro us)) /\
  exists ms, Forall2 (fun id m => MessageID.Bytes id = Some m) ids ms /\
    dTables (w_data w') = setSpContactMessages
      (list_to_set ((fun m => (k, ofUnixMicro us, m)) <$> ms) ∪ spContactMessages (dTables (w_data w))) (dTables (w_data w)).
Proof using Type.
  intros Hc Hk Hne H. unfold LinkMessagesToContact in H. rewrite decide_False in H by done.
  apply bind_Ok in H as (ct & w1 & [Hct <-]%lift_Ok & H). rewrite Hc in Hct. injection Hct as <-. cbn [fst snd] in H.
  apply inTxn_Ok in H as (ws & n & ->%wrote_BufferWrite & H). rewrite Hk in H. revert H.
  generalize (commitTimestamp n) as ts. intros ts.
  generalize (dTables (w_data w)) as t, (dTables (w_data w')) as t'. intros t t'. revert t Hne.
  induction ids as [|i ids IH]; intros t Hne H; [done|]. cbn in H. apply outcome_bind_Ok in H as (t1 & H1 & H).
  unfold putLink in H1. inv_mutation. split; [done|]. destruct (decide (ids = [])) as [->|Hids].
  - injection H as <-. exists [x0]. split; [by repeat constructor|]. cbn. by rewrite union_empty_r_L.
  - destruct (IH _ Hids H) as [_ (ms & Hms & ->)]. exists (x0 :: ms). split; [by constructor|].
    clear HP HE. unfold setSpContactMessages. cbn. f_equal. set_solver.
Qed.
End Effects.
