(* ===== verification/SpannerMessages.v ===== *)
(** * The Spanner datastore: messages

    src/server/spanner/messagestore.go, operation by operation.  Only messages
    to clients have pending rows; that there is one for the server is published
    on a topic, and the notification is acknowledged when the message has a
    result. *)
From S2P Require Import Prelude Platform Ids Proto Db Sqlite SqliteMessages SqliteClients.
From S2P Require Import Spanner SpannerClients.

Section Messages.
Context `{P : Platform} `{L : ProtoLib} `{E : SpannerEngine}.

(** ** Reading *)

(** log.Fatalf on a time without a protobuf form. *)
Definition protoMessage (mid : string) (ct : Z) (ms : spMessage) : outcome Message.t :=
  let c := tspbNew ct in
  match tspbCheckValid c with
  | Some _ => Crash "Error converting Creation time to time.Time()"
  | None =>
      let data := match spEncryptedData ms with
                  | Some a => if decide (0 < blen (Any.Value a)) then Some a else None
                  | None => None
                  end in
      Ok (Message.Mk (Some mid) (Some (spSource ms)) false (spSourceMessageID ms) (Some (spDestination ms))
            (spMessageType ms) (Some c) data (spValidationInformation ms) (spResult ms) Message.MEDIUM false
            (spAnnotations ms))
  end.

Definition withoutData (r : spMessage) : spMessage :=
  mkSpMessage (spSource r) (spSourceMessageID r) (spDestination r) (spMessageType r) (spCreationTime r) None
    (spResult r) (spValidationInformation r) (spAnnotations r).

(** The body of the loops over rows of Messages. *)
Definition messageOfRow (wantData : bool) (kr : string * spMessage) : outcome Message.t :=
  match spCreationTime kr.2 with
  | None => Err (ErrText "Null Timestamp cannot be decoded")
  | Some ct => protoMessage kr.1 ct (if wantData then kr.2 else withoutData kr.2)
  end.

(** The rows under the keys of a set. *)
Definition messagesAt (keys : list gobytes) (t : Tables) : list (string * spMessage) :=
  filter (fun kr => Some kr.1 ∈ keys) (map_to_list (spMessages t)).

Definition tryGetMessages (keys : list gobytes) (wantData : bool) : Sp (list Message.t) :=
  readRows (messagesAt keys) (fun kr => lift (messageOfRow wantData kr)).

Definition GetMessages (ids : list MessageID.t) (wantData : bool) : Sp (list Message.t) :=
  tryGetMessages (MessageID.Bytes <$> ids) wantData.

Definition messageAt (id : gobytes) (t : Tables) : option spMessage := k ← id; spMessages t !! k.
Definition GetMessageResult (id : MessageID.t) : Sp (option MessageResult.t) :=
  r ← ReadRow (messageAt (MessageID.Bytes id)); mret (spResult r).

(** *** Pending messages *)
Definition pendingOf (ids : list ClientID.t) (t : Tables) : list (string * string) :=
  filter (fun k => Some k.1 ∈ (ClientID.Bytes <$> ids)) (fst <$> map_to_list (spPendings t)).

Definition GetPendingMessageCount (ids : list ClientID.t) : Sp Z :=
  n ← ReadRow (fun t => Some (Z.of_nat (length (pendingOf ids t)))); mret (wrapU64 n).

(** LIMIT and OFFSET of the query, which refuses negative ones. *)
Definition page (offset count : Z) (l : list string) : list string :=
  let l := drop (Z.to_nat (wrapI64 offset)) l in
  if (count =? 0)%Z then l else take (Z.to_nat (wrapI64 count)) l.

Definition GetPendingMessages (ids : list ClientID.t) (offset count : Z) (wantData : bool) : Sp (list Message.t) :=
  if negb (offset =? 0)%Z && (count =? 0)%Z then
    fail (ErrText "if offset is provided, a count must be provided as well")
  else if (wrapI64 offset <? 0)%Z || (wrapI64 count <? 0)%Z then fail (ErrIO codeOutOfRange)
  else
    ks ← readRows (fun t => page offset count (merge_sort strLe (snd <$> pendingOf ids t))) mret;
    tryGetMessages (Some <$> ks) wantData.

(** ** Mutations *)
Definition setResult (res : MessageResult.t) (r : spMessage) : spMessage :=
  mkSpMessage (spSource r) (spSourceMessageID r) (spDestination r) (spMessageType r) (spCreationTime r) None
    (Some res) (spValidationInformation r) (spAnnotations r).

Definition updateResult (mid : gobytes) (res : MessageResult.t) : mutation := fun _ t =>
  k ← bytesNotNull 32 mid;
  match spMessages t !! k with
  | None => notFound
  | Some r => Ok (setSpMessages (<[k := setResult res r]> (spMessages t)) t)
  end.

Definition deletePending (cid mid : gobytes) : mutation := fun _ t =>
  Ok (match cid, mid with
      | Some c, Some m => setSpPendings (delete (c, m) (spPendings t)) t
      | _, _ => t
      end).

(** Replace and InsertOrUpdate of all columns. *)
Definition putMessage (m : Message.t) (ct : Z) (data : option Any.t) : mutation := fun _ t =>
  k ← bytesNotNull 32 (Message.MessageId m);
  src ← notNull (Message.Source m);
  smid ← bytesCol 16 (Message.SourceMessageId m);
  dst ← notNull (Message.Destination m);
  ty ← stringCol 64 (Message.MessageType m);
  Ok (setSpMessages (<[k := mkSpMessage (wireAddress src) smid (wireAddress dst) ty (Some ct) (wireAny <$> data)
        (Message.Result m) (Message.ValidationInfo m) (Message.Annotations m)]> (spMessages t)) t).

(** InsertOrUpdate of all columns. *)
Definition putPending (cid mid : gobytes) (due ct : Z) (service : string) : mutation := fun _ t =>
  c ← bytesNotNull 8 cid;
  m ← bytesNotNull 32 mid;
  svc ← stringCol 128 service;
  _ ← parent (bool_decide (is_Some (spClients t !! c)));
  Ok (setSpPendings (<[(c, m) := mkSpPending 0 due (Some svc) (Some ct)]> (spPendings t)) t).

(** ** Results *)
Definition trySetMessageResult (cid : ClientID.t) (mid : MessageID.t) (res : MessageResult.t) : Txn unit :=
  BufferWrite (updateResult (MessageID.Bytes mid) res ::
    (if ClientID.IsNil cid then [] else [deletePending (ClientID.Bytes cid) (MessageID.Bytes mid)])).

Definition SetMessageResult (dest : ClientID.t) (id : MessageID.t) (res : MessageResult.t) : Sp unit :=
  inTxn (trySetMessageResult dest id res).

(** found, by the bytes of the message id. *)
Definition getPendingMessages (cids : list ClientID.t) : Txn (gmap string ClientID.t) :=
  rows ← rowsOf (pendingOf cids);
  found ← foldM (fun found (k : string * string) =>
    cid ← lift (ClientID.BytesToClientID (Some k.1));
    mid ← lift (MessageID.BytesToMessageID (Some k.2));
    mret (<[MessageID.id mid := cid]> found)) rows.1 ∅;
  rowsErr rows.2 ≫= fun _ => mret found.

Definition removedByAdmin (n : Timestamp.t) : MessageResult.t := MessageResult.Mk (Some n) true "Removed by admin action.".

(** The error of getPendingMessages is dropped. *)
Definition tryDeletePendingMessages (cids : list ClientID.t) : Txn unit :=
  r ← try (getPendingMessages cids);
  n ← NowProto;
  kvs ← rangeMap (match r with inl toDel => toDel | inr _ => ∅ end);
  BufferWrite (mbind (fun kv : string * ClientID.t =>
    let bmid := MessageID.Bytes (MessageID.Mk kv.1) in
    [updateResult bmid (removedByAdmin n); deletePending (ClientID.Bytes kv.2) bmid]) kvs).
Definition DeletePendingMessages (cids : list ClientID.t) : Sp unit := inTxn (tryDeletePendingMessages cids).

(** ** Storing *)
Definition toServer (m : Message.t) : outcome bool :=
  match Message.Destination m with
  | None => Crash "nil Destination"
  | Some d => Ok (bool_decide (blen (Address.ClientId d) = 0))
  end.
Definition succeeded (m : Message.t) : bool :=
  match Message.Result m with Some r => negb (MessageResult.Failed r) | None => false end.
(** m.Result != nil && !m.Result.Failed && len(m.Destination.ClientId) == 0 *)
Definition isBlind (m : Message.t) : outcome bool := if succeeded m then toServer m else Ok false.
Fixpoint allBlind (msgs : list Message.t) : outcome bool :=
  match msgs with
  | [] => Ok true
  | m :: msgs => b ← isBlind m; if b : bool then allBlind msgs else Ok false
  end.

Definition blindWrite (m : Message.t) : outcome mutation :=
  match checkValid (Message.CreationTime m) with
  | Ok ct => Ok (putMessage m ct None)
  | _ => Err (ErrText "unable to convert creation time to time.Time")
  end.
Definition blindStoreProcessedMessages (msgs : list Message.t) : Sp unit :=
  ms ← mapMs (fun m => lift (blindWrite m)) msgs;
  Apply ms.

Definition tryStoreMessage (m : Message.t) (isBroadcast : bool) : Txn unit :=
  match checkValid (Message.CreationTime m) with
  | Ok ct =>
      _ ← lift (isBlind m);
      let put := putMessage m ct (Message.Data m) in
      match Message.Result m with
      | Some _ => BufferWrite [put]
      | None =>
          srv ← lift (toServer m);
          if srv : bool then BufferWrite [put] ≫= fun _ => publish (contents (Message.MessageId m))
          else
            due ← (if isBroadcast then ClientRetryTime else now);
            let d := default (Address.Mk None "") (Message.Destination m) in
            BufferWrite [put; putPending (Address.ClientId d) (Message.MessageId m) due ct (Address.ServiceName d)]
      end
  | _ => fail (ErrText "unable to convert creation time to time.Time")
  end.

Definition dropData (m : Message.t) : Message.t := if Message.Result m is Some _ then Message.setData None m else m.

(** The ids to read: of all messages but those for the server with a result. *)
Definition idToRead (m : Message.t) : outcome (list gobytes) :=
  match Message.Result m with
  | None => Ok [Message.MessageId m]
  | Some _ => srv ← toServer m; Ok (if srv : bool then [] else [Message.MessageId m])
  end.

(** What is read of a message that is there: its destination and result. *)
Definition messageInfo : Type := Address.t * option MessageResult.t.
Definition readInfos (ids : list gobytes) : Txn (gmap string messageInfo) :=
  rows ← rowsOf (messagesAt ids);
  found ← foldM (fun found (kr : string * spMessage) =>
    id ← lift (MessageID.BytesToMessageID (Some kr.1));
    mret (<[MessageID.id id := (spDestination kr.2, spResult kr.2)]> found)) rows.1 ∅;
  rowsErr rows.2 ≫= fun _ => mret found.

(** One message; the ids to link. *)
Definition storeOne (found : gmap string messageInfo) (toLink : list MessageID.t) (m : Message.t) : Txn (list MessageID.t) :=
  id ← lift (MessageID.BytesToMessageID (Message.MessageId m));
  blind ← lift (isBlind m);
  let store := tryStoreMessage m false ≫= fun _ => mret (toLink ++ [id]) in
  if blind : bool then store
  else
    match found !! MessageID.id id with
    | None => store
    | Some (dst, res) =>
        if match res with Some r => negb (MessageResult.Failed r) | None => false end then mret toLink
        else
          match Message.Result m with
          | Some r =>
              if negb (bool_decide (is_Some res)) || negb (MessageResult.Failed r) then
                cid ← lift (ClientID.BytesToClientID (Address.ClientId dst));
                trySetMessageResult cid id r ≫= fun _ => mret toLink
              else mret toLink
          | None => mret toLink
          end
    end.

Definition tryStoreMessages (msgs : list Message.t) (contact : ContactID) : Txn unit :=
  ids ← mapMs (fun m => lift (idToRead m)) msgs;
  found ← readInfos (concat ids);
  toLink ← foldM (storeOne found) (dropData <$> msgs) [];
  if String.eqb contact "" then mret tt
  else
    ct ← lift (splitContact contact);
    tryLinkMessagesToContact ct.1 ct.2 toLink.

Definition StoreMessages (msgs : list Message.t) (contact : ContactID) : Sp unit :=
  blind ← lift (allBlind msgs);
  if blind : bool then blindStoreProcessedMessages msgs
  else inTxn (tryStoreMessages msgs contact).

(** ** Messages due for a client *)

(** The loop of ClientMessagesForProcessing over the rows of the client: the
    message ids, and whether it was left because of the limit. *)
Fixpoint selectDue (t lim : Z) (serviceLimits : option (gmap string Z)) (rows : list (string * spPending))
    (count : Z) (read : gmap string Z) : list string * bool :=
  match rows with
  | [] => ([], false)
  | (mid, pm) :: rows =>
      if (lim <=? count)%Z then ([], true)
      else
        let skip := selectDue t lim serviceLimits rows count read in
        let room := match serviceLimits with
          | None => Some read
          | Some sl =>
              match spDestinationServiceName pm with
              | None => None
              | Some n =>
                  let seen := default 0%Z (read !! n) in
                  match sl !! n with
                  | Some v => if (v <=? seen)%Z then None else Some (<[n := wrapU64 (seen + 1)]> read)
                  | None => None
                  end
              end
          end in
        match room with
        | None => skip
        | Some read' =>
            if (t <? spScheduledTime pm)%Z then skip
            else let '(ids, full) := selectDue t lim serviceLimits rows (count + 1) read' in (mid :: ids, full)
        end
  end.

(** The pending rows of a client, by message id. *)
Definition pendingRows (id : gobytes) (t : Tables) : list (string * spPending) :=
  (fun kr : string * string * spPending => (kr.1.2, kr.2)) <$>
    filter (fun kr => Some kr.1.1 = id) (map_to_list (spPendings t)).

Definition selectMessages (id : ClientID.t) (t lim : Z) (serviceLimits : option (gmap string Z)) : Sp (list string) :=
  rows ← rowsOf (pendingRows (ClientID.Bytes id));
  let '(ids, full) := selectDue t lim serviceLimits rows.1 0 ∅ in
  if full then mret ids else rowsErr rows.2 ≫= fun _ => mret ids.

(** UpdateStruct of a row that was read, with its next time. *)
Definition updatePending (id : gobytes) (mid : string) (pm : spPending) (due : Z) : mutation := fun _ t =>
  match id with
  | None => notFound
  | Some c =>
      match spPendings t !! (c, mid) with
      | None => notFound
      | Some old => Ok (setSpPendings (<[(c, mid) := mkSpPending (wrapI64 (spRetryCount pm + 1)) due
                      (spDestinationServiceName pm) (spPendingCreationTime old)]> (spPendings t)) t)
      end
  end.

(** The loop of tryClientMessagesForProcessing: the writes so far, and the
    messages, unless a row has changed meanwhile. *)
Fixpoint claimRows (id : gobytes) (t : Z) (rows : list (string * spPending)) (mus : list mutation) (mids : list string) :
    Sp (list mutation * option (list string)) :=
  match rows with
  | [] => mret (mus, Some mids)
  | (mid, pm) :: rows =>
      if (t <? spScheduledTime pm)%Z then mret (mus, None)
      else
        due ← ClientRetryTime;
        claimRows id t rows (mus ++ [updatePending id mid pm due]) (mids ++ [mid])
  end.

Definition tryClientMessagesForProcessing (id : ClientID.t) (t : Z) (keys : list string) : Sp (list Message.t * list mutation) :=
  rows ← rowsOf (fun tb => filter (fun kr => kr.1 ∈ keys) (pendingRows (ClientID.Bytes id) tb));
  c ← claimRows (ClientID.Bytes id) t rows.1 [] [];
  match c.2 with
  | None => mret ([], c.1)
  | Some mids =>
      rowsErr rows.2 ≫= fun _ =>
      msgs ← tryGetMessages (Some <$> mids) true;
      mret (msgs, c.1)
  end.

(** The messages are returned together with the error of the transaction that
    puts them off. *)
Definition ClientMessagesForProcessing (id : ClientID.t) (lim : Z) (serviceLimits : option (gmap string Z)) :
    Sp (list Message.t * option goerror) :=
  t ← now;
  keys ← selectMessages id t lim serviceLimits;
  r ← tryClientMessagesForProcessing id t keys;
  e ← try (inTxn (BufferWrite r.2));
  mret (r.1, match e with inl _ => None | inr e => Some e end).

(** ** Messages for the server *)

(** What is done with a notification: true is Ack, false is Nack. *)
Definition onNotification (ProcessMessages : list Message.t -> Sp unit) (data : string) : Sp bool :=
  r ← try (tryGetMessages [Some data] true);
  match r with
  | inl [m] =>
      ProcessMessages [m] ≫= fun _ =>
      r' ← try (tryGetMessages [Some data] false);
      mret (match r' with inl [m'] => bool_decide (is_Some (Message.Result m')) | _ => false end)
  | _ => mret false
  end.
End Messages.

(** ** The invariant

    Nothing unprocessed is lost: a message for a client has a pending row while
    it has no result; and what is pending is a message. *)
Record spSound (t : Tables) : Prop := {
  p_refs : spRefs t;
  p_unprocessed k r c : spMessages t !! k = Some r -> spResult r = None ->
    Address.ClientId (spDestination r) = Some c -> is_Some (spPendings t !! (c, k));
  p_message c k : is_Some (spPendings t !! (c, k)) -> is_Some (spMessages t !! k);
}.

Lemma spSound_empty : spSound emptyTables.
Proof.
  split; [apply spRefs_empty|..]; cbn; intros *; rewrite lookup_empty; [done|by intros [? ?]].
Qed.

Section Sound.
Context `{P : Platform} `{L : ProtoLib} `{E : SpannerEngine}.

Lemma spRefs_setMessages v t : spRefs t -> spRefs (setSpMessages v t).
Proof using Type. intros []. by split. Qed.
Lemma spRefs_setPendings v t :
  spRefs t -> (forall c k, is_Some (v !! (c, k)) -> is_Some (spClients t !! c)) -> spRefs (setSpPendings v t).
Proof using Type. intros [] Hv. by split. Qed.

Lemma putMessage_Ok m ct data ts t t' :
  putMessage m ct data ts t = Ok t' ->
  exists k src dst, Message.MessageId m = Some k /\ Message.Source m = Some src /\ Message.Destination m = Some dst /\
    t' = setSpMessages (<[k := mkSpMessage (wireAddress src) (Message.SourceMessageId m) (wireAddress dst) (Message.MessageType m)
           (Some ct) (wireAny <$> data) (Message.Result m) (Message.ValidationInfo m) (Message.Annotations m)]> (spMessages t)) t.
Proof using Type. unfold putMessage. intros H. inv_mutation. by do 3 eexists. Qed.

Lemma updateResult_Ok mid res ts t t' :
  updateResult mid res ts t = Ok t' ->
  exists k r, mid = Some k /\ spMessages t !! k = Some r /\ t' = setSpMessages (<[k := setResult res r]> (spMessages t)) t.
Proof using Type.
  unfold updateResult. intros H. inv_mutation. destruct (spMessages t !! x) as [r|] eqn:Hr; [|done]. inv_mutation. by do 2 eexists.
Qed.

Lemma putPending_Ok cid mid due ct svc ts t t' :
  putPending cid mid due ct svc ts t = Ok t' ->
  exists c k, cid = Some c /\ mid = Some k /\ is_Some (spClients t !! c) /\
    t' = setSpPendings (<[(c, k) := mkSpPending 0 due (Some svc) (Some ct)]> (spPendings t)) t.
Proof using Type. unfold putPending. intros H. inv_mutation. by do 2 eexists. Qed.

(** A message with a result, or for the server. *)
Lemma keeps_putMessage m ct data :
  (forall d, Message.Destination m = Some d -> Message.Result m = None -> blen (Address.ClientId d) = 0) ->
  keepsGroup spSound [putMessage m ct data].
Proof using Type.
  intros Hm ts t t' [H1 H2 H3] H. cbn in H. apply outcome_bind_Ok in H as (t1 & H & [= <-]).
  apply putMessage_Ok in H as (k & src & dst & _ & _ & Hd & ->). split; [by apply spRefs_setMessages|..]; cbn.
  - intros j r c. rewrite lookup_insert. case_decide; [|apply H2]. intros [= <-] Hr. cbn in *.
    unfold wireBytes. by rewrite decide_True by (by apply Hm).
  - intros c j Hj. rewrite lookup_insert. case_decide; [done|]. by apply (H3 c).
Qed.

Lemma keeps_putPair m ct data due svc d :
  Message.Destination m = Some d ->
  keepsGroup spSound [putMessage m ct data; putPending (Address.ClientId d) (Message.MessageId m) due ct svc].
Proof using Type.
  intros Hd ts t t' [H1 H2 H3] H. cbn in H. apply outcome_bind_Ok in H as (t1 & Ha & H).
  apply outcome_bind_Ok in H as (t2 & Hb & [= <-]).
  apply putMessage_Ok in Ha as (k & src & dst & Hk & _ & Hd' & ->). rewrite Hd in Hd'. injection Hd' as <-.
  apply putPending_Ok in Hb as (c & k' & Hc & Hk' & Hcl & ->). rewrite Hk in Hk'. injection Hk' as <-. split; cbn.
  - apply spRefs_setPendings; [by apply spRefs_setMessages|]. intros c' j. cbn. rewrite lookup_insert. case_decide as Hj.
    + by injection Hj as <- <-.
    + apply (r_pending _ H1).
  - intros j r c'. rewrite !lookup_insert. destruct (decide (k = j)) as [->|Hne].
    + intros [= <-] _ Hw. cbn in Hw. apply wireBytes_some in Hw as [Hw _]. rewrite Hc in Hw. injection Hw as <-.
      by rewrite decide_True.
    + intros Hj Hr Hw. rewrite decide_False by congruence. by apply (H2 _ r).
  - intros c' j. rewrite !lookup_insert. intros Hj. destruct (decide (k = j)) as [->|Hne]; [done|].
    apply (H3 c'). by rewrite decide_False in Hj by congruence.
Qed.

Lemma keeps_updateResult mid res : keepsGroup spSound [updateResult mid res].
Proof using Type.
  intros ts t t' [H1 H2 H3] H. cbn in H. apply outcome_bind_Ok in H as (t1 & H & [= <-]).
  apply updateResult_Ok in H as (k & r & _ & Hr & ->). split; [by apply spRefs_setMessages|..]; cbn.
  - intros j r' c. rewrite lookup_insert. case_decide; [by intros [= <-]|apply H2].
  - intros c j Hj. rewrite lookup_insert. case_decide; [done|]. by apply (H3 c).
Qed.

Lemma keeps_resultAndDelete cid mid res : keepsGroup spSound [updateResult mid res; deletePending cid mid].
Proof using Type.
  intros ts t t' [H1 H2 H3] H. cbn in H. apply outcome_bind_Ok in H as (t1 & H & [= <-]).
  apply updateResult_Ok in H as (k & r & -> & Hr & ->). destruct cid as [c|].
  - split; cbn.
    + apply spRefs_setPendings; [by apply spRefs_setMessages|]. intros c' j [p [_ Hp]%lookup_delete_Some].
      apply (r_pending _ H1 c' j). by exists p.
    + intros j r' c'. rewrite lookup_insert. case_decide; [by intros [= <-]|]. intros Hj Hres Hc.
      rewrite lookup_delete_ne by congruence. by apply (H2 _ r').
    + intros c' j [p [_ Hp]%lookup_delete_Some]. rewrite lookup_insert. case_decide; [done|]. apply (H3 c'). by exists p.
  - split; [by apply spRefs_setMessages|..]; cbn.
    + intros j r' c. rewrite lookup_insert. case_decide; [by intros [= <-]|apply H2].
    + intros c j Hj. rewrite lookup_insert. case_decide; [done|]. by apply (H3 c).
Qed.

Lemma keeps_updatePending id mid pm due : keepsGroup spSound [updatePending id mid pm due].
Proof using Type.
  intros ts t t' [H1 H2 H3] H. cbn in H. apply outcome_bind_Ok in H as (t1 & H & [= <-]). unfold updatePending in H.
  destruct id as [c|]; [|done]. destruct (spPendings t !! (c, mid)) as [old|] eqn:Ho; [|done]. injection H as <-.
  assert (Hs : forall c' k', is_Some (<[(c, mid) := mkSpPending (wrapI64 (spRetryCount pm + 1)) due (spDestinationServiceName pm)
      (spPendingCreationTime old)]> (spPendings t) !! (c', k')) <-> is_Some (spPendings t !! (c', k'))).
  { intros c' k'. rewrite lookup_insert. case_decide as Hk; [|done]. injection Hk as <- <-. by rewrite Ho. }
  split; cbn.
  - apply spRefs_setPendings; [done|]. intros c' k'. rewrite Hs. apply (r_pending _ H1).
  - intros j r c' Hj Hr Hc. rewrite Hs. by apply (H2 _ r).
  - intros c' j. rewrite Hs. apply H3.
Qed.

Lemma keepsGroup_all ms : Forall (fun m => keepsGroup spSound [m]) ms -> keepsGroup spSound ms.
Proof using Type.
  induction 1 as [|m ms Hm _ IH]; [apply keepsGroup_closed|]. by apply (closed_app _ (keepsGroup_closed _) [m]).
Qed.

(** What only concerns clients. *)
Lemma keeps_refsOnly m :
  keepsAll spRefs m ->
  (forall ts t t', m ts t = Ok t' -> spMessages t' = spMessages t /\ spPendings t' = spPendings t) -> keepsGroup spSound [m].
Proof using Type.
  intros Hr Hs ts t t' [H1 H2 H3] H. cbn in H. apply outcome_bind_Ok in H as (t1 & H & [= <-]).
  destruct (Hs _ _ _ H) as [E1 E2]. split; [by eapply Hr|..]; rewrite E1, E2; [apply H2|apply H3].
Qed.

(** ** The operations keep it *)
#[local] Notation kept f := (preserves (onRefs spSound) f).
Let HR := keepsGroup_closed spSound.

Lemma toServer_Ok m d b : toServer m = Ok b -> Message.Destination m = Some d -> b = bool_decide (blen (Address.ClientId d) = 0).
Proof using Type. unfold toServer. intros H Hd. rewrite Hd in H. by injection H as <-. Qed.

Lemma buffers_trySetMessageResult cid mid res : buffers (keepsGroup spSound) (trySetMessageResult cid mid res).
Proof using Type.
  apply buffers_BufferWrite. destruct (ClientID.IsNil cid); [apply keeps_updateResult|apply keeps_resultAndDelete].
Qed.

Lemma buffers_tryStoreMessage m b : buffers (keepsGroup spSound) (tryStoreMessage m b).
Proof using Type.
  unfold tryStoreMessage. destruct (checkValid _); [|by apply buffers_readOnly..].
  apply buffers_lift_bind; [done|]. intros _ _. cbv zeta. destruct (Message.Result m) as [res|] eqn:Hres.
  { apply buffers_BufferWrite, keeps_putMessage. by rewrite Hres. }
  apply buffers_lift_bind; [done|]. intros srv Hsrv. destruct (Message.Destination m) as [d|] eqn:Hd.
  2:{ unfold toServer in Hsrv. by rewrite Hd in Hsrv. }
  pose proof (toServer_Ok _ _ _ Hsrv Hd) as Hsd. destruct srv.
  - symmetry in Hsd. apply bool_decide_eq_true in Hsd. apply buffers_bind; [done| |intros; by apply buffers_publish].
    apply buffers_BufferWrite, keeps_putMessage. intros d'. rewrite Hd. by intros [= <-].
  - apply buffers_bind; [done| |].
    { destruct b; apply buffers_readOnly; try done; by apply readOnly_bind. }
    intros due. apply buffers_BufferWrite. by apply keeps_putPair.
Qed.

Lemma readOnly_readInfos ids : readOnly (readInfos (E := E) ids).
Proof using Type.
  apply readOnly_bind; [apply readOnly_rowsOf|]. intros rows. apply readOnly_bind.
  - apply readOnly_foldM. intros. by apply readOnly_bind.
  - intros found. apply readOnly_bind; [apply readOnly_rowsErr|done].
Qed.

Lemma buffers_storeOne found toLink m : buffers (keepsGroup spSound) (storeOne found toLink m).
Proof using Type.
  unfold storeOne. apply buffers_lift_bind; [done|]. intros id _. apply buffers_lift_bind; [done|]. intros b _. cbv zeta.
  assert (Hst : buffers (keepsGroup spSound) (tryStoreMessage m false ≫= fun _ => mret (toLink ++ [id]))).
  { apply buffers_bind; [done|apply buffers_tryStoreMessage|]. intros _. by apply buffers_readOnly. }
  destruct b; [done|]. destruct (found !! _) as [[dst res]|]; [|done].
  destruct (match res with Some _ => _ | None => _ end); [by apply buffers_readOnly|].
  destruct (Message.Result m) as [r|]; [|by apply buffers_readOnly]. destruct (_ || _); [|by apply buffers_readOnly].
  apply buffers_lift_bind; [done|]. intros cid _. apply buffers_bind; [done|apply buffers_trySetMessageResult|].
  intros _. by apply buffers_readOnly.
Qed.

Lemma putLink_other id time mid ts t t' :
  putLink id time mid ts t = Ok t' -> spMessages t' = spMessages t /\ spPendings t' = spPendings t.
Proof using Type. unfold putLink. intros H. by inv_mutation. Qed.

Lemma buffers_tryLink cid ts ids : buffers (keepsGroup spSound) (tryLinkMessagesToContact cid ts ids).
Proof using Type.
  apply buffers_BufferWrite, keepsGroup_all, Forall_fmap, Forall_forall. intros id _. cbn.
  apply keeps_refsOnly; [apply keeps_putLink|]. intros. by eapply putLink_other.
Qed.

Lemma buffers_tryStoreMessages msgs contact : buffers (keepsGroup spSound) (tryStoreMessages msgs contact).
Proof using Type.
  unfold tryStoreMessages. apply buffers_bind; [done|apply buffers_readOnly; [done|by apply readOnly_mapMs]|]. intros ids.
  apply buffers_bind; [done|apply buffers_readOnly; [done|apply readOnly_readInfos]|]. intros found.
  apply buffers_bind; [done|apply buffers_foldM; [done|]; intros; apply buffers_storeOne|]. intros toLink.
  destruct (String.eqb contact ""); [by apply buffers_readOnly|].
  apply buffers_lift_bind; [done|]. intros ct _. apply buffers_tryLink.
Qed.

(** A read of the datastore. *)
Lemma kept_readOnly {A} (m : Sp A) : readOnly m -> kept m.
Proof using Type. intros Hm w Hw. unfold onRefs, onData in *. by rewrite Hm. Qed.

Lemma kept_SetMessageResult dest id res : kept (SetMessageResult dest id res).
Proof using Type. apply preserves_buffers, buffers_trySetMessageResult. Qed.

Lemma kept_StoreMessages msgs contact : kept (StoreMessages msgs contact).
Proof using Type.
  unfold StoreMessages. apply preserves_lift_bind. intros b Hb. destruct b.
  - unfold blindStoreProcessedMessages. intros w Hw. unfold mbind, M_bind at 1.
    destruct (mapMs _ msgs w) as [r w1] eqn:Hm.
    assert (Hw1 : w_data w1 = w_data w).
    { assert (H : readOnly (D := Datastore) (mapMs (fun m => lift (blindWrite m)) msgs)) by by apply readOnly_mapMs.
      specialize (H w). by rewrite Hm in H. }
    unfold onRefs, onData in *. rewrite <- Hw1 in Hw. destruct r as [ms| |]; [|done..].
    apply mapMs_lift_Ok in Hm as [_ Hm]. refine (preserves_buffers spSound (BufferWrite ms) _ w1 Hw).
    apply buffers_BufferWrite, keepsGroup_all. clear Hw Hw1. revert ms Hm.
    induction msgs as [|m msgs IH]; intros ms Hm; [by inversion Hm|].
    inversion Hm as [|? ms1 ? ms2 Hbw Hm2]; subst. cbn in Hb. apply outcome_bind_Ok in Hb as (b & Hbm & Hb).
    destruct b; [|done]. constructor; [|by apply IH].
    unfold blindWrite in Hbw. destruct (checkValid _); [|done..]. injection Hbw as <-. apply keeps_putMessage.
    intros d _ Hr. unfold isBlind, succeeded in Hbm. by rewrite Hr in Hbm.
  - apply preserves_buffers, buffers_tryStoreMessages.
Qed.

Lemma kept_DeletePendingMessages cids : kept (DeletePendingMessages cids).
Proof using Type.
  apply preserves_buffers. unfold tryDeletePendingMessages. apply buffers_bind; [done| |].
  { apply buffers_readOnly; [done|]. apply readOnly_try, readOnly_bind; [apply readOnly_rowsOf|]. intros rows.
    apply readOnly_bind; [|intros; apply readOnly_bind; [apply readOnly_rowsErr|done]].
    apply readOnly_foldM. intros. do 2 (apply readOnly_bind; [done|intros]). done. }
  intros r. apply buffers_bind; [done| |].
  { apply buffers_readOnly; [done|]. apply readOnly_bind; [done|]. intros t. cbv zeta. by destruct (tspbCheckValid _). }
  intros n. apply buffers_bind; [done|by apply buffers_readOnly|]. intros kvs. apply buffers_BufferWrite.
  induction kvs as [|kv kvs IH]; [apply HR|]. refine (closed_app _ HR [_; _] _ _ IH). apply keeps_resultAndDelete.
Qed.

Lemma claimRows_keeps id t rows mus mids w r w' :
  Forall (fun m => keepsGroup spSound [m]) mus -> claimRows id t rows mus mids w = (Ok r, w') ->
  Forall (fun m => keepsGroup spSound [m]) r.1.
Proof using Type.
  revert mus mids w. induction rows as [|[mid pm] rows IH]; intros mus mids w Hm H; cbn in H.
  - by apply ret_Ok in H as [<- _].
  - destruct (t <? spScheduledTime pm)%Z; [by apply ret_Ok in H as [<- _]|].
    apply bind_Ok in H as (due & w1 & _ & H). apply IH in H; [done|]. apply Forall_app. split; [done|].
    constructor; [apply keeps_updatePending|constructor].
Qed.

Lemma readOnly_claimRows id t rows mus mids : readOnly (claimRows id t rows mus mids).
Proof using Type.
  revert mus mids. induction rows as [|[mid pm] rows IH]; intros mus mids; cbn; [done|].
  destruct (_ <? _)%Z; [done|]. apply readOnly_bind; [by apply readOnly_bind|done].
Qed.
End Sound.

Section ClaimsSound.
Context `{P : Platform} `{L : ProtoLib} `{E : SpannerEngine}.

Lemma readOnly_tryGetMessages keys b : readOnly (tryGetMessages keys b).
Proof using Type. by apply readOnly_readRows. Qed.

Lemma readOnly_selectMessages id t lim sl : readOnly (selectMessages id t lim sl).
Proof using Type.
  apply readOnly_bind; [apply readOnly_rowsOf|]. intros rows. destruct (selectDue _ _ _ _ _ _) as [ids full].
  destruct full; [done|]. apply readOnly_bind; [apply readOnly_rowsErr|done].
Qed.

Lemma readOnly_tryClientMessages id t keys : readOnly (tryClientMessagesForProcessing id t keys).
Proof using Type.
  apply readOnly_bind; [apply readOnly_rowsOf|]. intros rows. apply readOnly_bind; [apply readOnly_claimRows|]. intros c.
  destruct c.2; [|done]. apply readOnly_bind; [apply readOnly_rowsErr|]. intros _.
  apply readOnly_bind; [apply readOnly_tryGetMessages|done].
Qed.

Lemma tryClientMessages_keeps id t keys w r w' :
  tryClientMessagesForProcessing id t keys w = (Ok r, w') -> Forall (fun m => keepsGroup spSound [m]) r.2.
Proof using Type.
  intros (rows & w1 & _ & H)%bind_Ok. apply bind_Ok in H as (c & w2 & Hc & H). apply claimRows_keeps in Hc; [|constructor].
  destruct c.2.
  - apply bind_Ok in H as (? & w3 & _ & H). apply bind_Ok in H as (msgs & w4 & _ & [<- _]%ret_Ok). done.
  - by apply ret_Ok in H as [<- _].
Qed.

Lemma kept_ClientMessagesForProcessing id lim sl : preserves (onRefs spSound) (ClientMessagesForProcessing id lim sl).
Proof using Type.
  unfold ClientMessagesForProcessing. apply preserves_bind; [by apply kept_readOnly|]. intros t.
  apply preserves_bind; [apply kept_readOnly, readOnly_selectMessages|]. intros keys w Hw.
  unfold mbind, M_bind at 1. pose proof (readOnly_tryClientMessages id t keys w) as Hro.
  destruct (tryClientMessagesForProcessing id t keys w) as [[r| |] w1] eqn:Hr; cbn in Hro |- *;
    unfold onRefs, onData in *; [|by rewrite Hro..].
  apply tryClientMessages_keeps in Hr.
  refine (preserves_bind (onRefs spSound) (try (inTxn (BufferWrite r.2)))
    (fun e => mret (r.1, match e with inl _ => None | inr e => Some e end)) _ _ w1 _).
  - apply preserves_try, preserves_buffers, buffers_BufferWrite. by apply keepsGroup_all.
  - intros e w2 H2. exact H2.
  - unfold onRefs, onData. by rewrite Hro.
Qed.

(** ** What a message becomes *)
Definition spStatus (t : Tables) (k : string) : status :=
  match spMessages t !! k with Some r => Present (spResult r) | None => Absent end.

(** What StoreMessages does to a message: a result of a message for the server is
    written over whatever is there, as is a new message; a message for a client
    that is there takes a first result, or a success after a failure. *)
Definition spMerge (st : status) (m : Message.t) : status :=
  match Message.Result m with
  | Some r =>
      if bool_decide (toServer m = Ok true) then Present (Some r)
      else match st with
           | Present (Some old) => if MessageResult.Failed old && negb (MessageResult.Failed r) then Present (Some r) else st
           | _ => Present (Some r)
           end
  | None => match st with Absent => Present None | _ => st end
  end.

(** The contract: a success is written over any result, a failure where there is
    none. *)
Definition contractMerge (st : status) (new : option MessageResult.t) : status :=
  match st, new with
  | Present (Some old), Some r => if MessageResult.Failed r then st else Present (Some r)
  | Present (Some _), None => st
  | _, Some r => Present (Some r)
  | _, None => Present None
  end.

(** Absent, unprocessed, failed or done. *)
Definition stage (st : status) : option (option bool) :=
  match st with Absent => None | Present r => Some (MessageResult.Failed <$> r) end.

(** Writes that leave the status of one message at [st], and all others alone. *)
Definition writesStatus (k : string) (st : status) (ms : list mutation) : Prop :=
  forall ts t t', applyAll ms ts t = Ok t' -> forall j, spStatus t' j = if decide (j = k) then st else spStatus t j.

Lemma putMessage_status m ct data ts t t' :
  putMessage m ct data ts t = Ok t' ->
  exists k, Message.MessageId m = Some k /\
    forall j, spStatus t' j = if decide (j = k) then Present (Message.Result m) else spStatus t j.
Proof using Type.
  intros (k & src & dst & Hk & _ & _ & ->)%putMessage_Ok. exists k. split; [done|]. intros j. unfold spStatus. cbn.
  rewrite lookup_insert. destruct (decide (j = k)) as [->|Hne]; [by rewrite decide_True|by rewrite decide_False].
Qed.

Lemma updateResult_status k res ts t t' :
  updateResult (Some k) res ts t = Ok t' ->
  forall j, spStatus t' j = if decide (j = k) then Present (Some res) else spStatus t j.
Proof using Type.
  intros (k' & r & [= <-] & Hr & ->)%updateResult_Ok j. unfold spStatus. cbn.
  rewrite lookup_insert. destruct (decide (j = k)) as [->|Hne]; [by rewrite decide_True|by rewrite decide_False].
Qed.

Lemma deletePending_status cid mid ts t t' : deletePending cid mid ts t = Ok t' -> spMessages t' = spMessages t.
Proof using Type. unfold deletePending. intros [= <-]. by destruct cid, mid. Qed.

Lemma putPending_status cid mid due ct svc ts t t' : putPending cid mid due ct svc ts t = Ok t' -> spMessages t' = spMessages t.
Proof using Type. by intros (c & k & _ & _ & _ & ->)%putPending_Ok. Qed.

(** Either the transaction writes nothing for a message, or its status. *)
Lemma tryStoreMessage_writes m b w u w' :
  tryStoreMessage m b w = (Ok u, w') ->
  exists ms, sWrites (w_data w') = sWrites (w_data w) ++ ms /\ sTables (w_data w') = sTables (w_data w) /\
    (forall k, Message.MessageId m = Some k -> writesStatus k (Present (Message.Result m)) ms) /\
    (Message.MessageId m = None -> forall ts t t', applyAll ms ts t <> Ok t').
Proof using Type.
  unfold tryStoreMessage. destruct (checkValid _) as [ct| |]; [|done..]. intros (_ & w1 & [_ <-]%lift_Ok & H)%bind_Ok.
  assert (Hput : forall data rest,
    (forall ts t t', applyAll rest ts t = Ok t' -> spMessages t' = spMessages t) ->
    (forall k, Message.MessageId m = Some k -> writesStatus k (Present (Message.Result m)) (putMessage m ct data :: rest)) /\
    (Message.MessageId m = None -> forall ts t t', applyAll (putMessage m ct data :: rest) ts t <> Ok t')).
  { intros data rest Hrest. split.
    - intros k Hk ts t t' Ha j. cbn in Ha. apply outcome_bind_Ok in Ha as (t1 & H1 & H2).
      apply putMessage_status in H1 as (k' & Hk' & H1). rewrite Hk in Hk'. injection Hk' as <-.
      apply Hrest in H2. rewrite <- H1. unfold spStatus. by rewrite H2.
    - intros Hn ts t t' Ha. cbn in Ha. apply outcome_bind_Ok in Ha as (t1 & H1 & _).
      apply putMessage_status in H1 as (k' & Hk' & _). congruence. }
  cbv zeta in H. destruct (Message.Result m) as [res|].
  - apply BufferWrite_Ok in H as [HT HW]. eexists. split; [exact HW|]. split; [done|]. apply Hput. by intros ??? [= <-].
  - apply bind_Ok in H as (srv & w2 & [_ <-]%lift_Ok & H). destruct srv.
    + apply bind_Ok in H as (u' & w3 & [HT HW]%BufferWrite_Ok & H). apply publish_Ok in H as [HT' HW'].
      eexists. split; [by rewrite HW', HW|]. split; [congruence|]. apply Hput. by intros ??? [= <-].
    + apply bind_Ok in H as (due & w3 & H1 & H).
      assert (Hd : w_data w3 = w_data w).
      { destruct b; [apply bind_Ok in H1 as (t0 & w4 & H1 & [_ <-]%ret_Ok)|]; by apply interact_Ok in H1 as [_ ->]. }
      rewrite <- Hd. apply BufferWrite_Ok in H as [HT HW]. eexists. split; [exact HW|]. split; [done|]. apply Hput.
      intros ts t t' H. cbn in H. apply outcome_bind_Ok in H as (t1 & H & [= <-]). by eapply putPending_status.
Qed.
End ClaimsSound.

Section Storing.
Context `{P : Platform} {HP : PlatformOK P} `{L : ProtoLib} `{E : SpannerEngine}.

Lemma BytesToMessageID_id k i : MessageID.BytesToMessageID (Some k) = Ok i -> MessageID.id i = k.
Proof using Type.
  unfold MessageID.BytesToMessageID. case_decide as H; [intros [= <-]; by destruct k|].
  case_decide; [done|]. by intros [= <-].
Qed.

(** found has the rows of the messages that are read. *)
Lemma readInfos_Ok ids found w w' :
  readInfos ids w = (Ok found, w') ->
  w_data w' = w_data w /\
  forall k, found !! k = (if decide (Some k ∈ ids) then
                            (fun r => (spDestination r, spResult r)) <$> spMessages (sTables (w_data w)) !! k
                          else None).
Proof using HP.
  intros H. split; [pose proof (readOnly_readInfos ids w) as Hd; by rewrite H in Hd|].
  apply bind_Ok in H as (rows & w1 & H1 & H). apply sp_rowsOf_Ok in H1 as [Hd Hrows]; [|done].
  apply bind_Ok in H as (found' & w2 & H2 & H). apply bind_Ok in H as (u & w3 & [He ->]%sp_rowsErr_Ok & [-> ->]%ret_Ok).
  rewrite He in Hrows. unfold tablesOf, session_tables in Hrows. set (t := sTables (w_data w)) in *.
  assert (Hin : forall k r, (k, r) ∈ rows.1 <-> Some k ∈ ids /\ spMessages t !! k = Some r).
  { intros k r. unfold messagesAt in Hrows. by rewrite Hrows, list_elem_of_filter, elem_of_map_to_list. }
  assert (HI : forall k v, found !! k = Some v <-> exists r, (k, r) ∈ rows.1 /\ v = (spDestination r, spResult r)).
  { revert H2. apply (foldM_Ok_inv _ (fun pre (acc : gmap string messageInfo) _ =>
      forall k v, acc !! k = Some v <-> exists r, (k, r) ∈ pre /\ v = (spDestination r, spResult r))).
    - intros k v. rewrite lookup_empty. split; [done|]. by intros (r & Hr%not_elem_of_nil & _).
    - intros pre [k r] post acc s acc' s' Hl HI (id & s1 & [Hid <-]%lift_Ok & [<- _]%ret_Ok)%bind_Ok j v.
      apply BytesToMessageID_id in Hid. cbn in Hid |- *. rewrite Hid, lookup_insert. case_decide as Hj.
      + subst j. split; [intros [= <-]; exists r; split; [set_solver|done]|]. intros (r' & Hr' & ->).
        assert (r' = r) as ->; [|done].
        assert (H1 : spMessages t !! k = Some r) by (apply Hin; rewrite Hl; set_solver).
        assert (H2 : spMessages t !! k = Some r'); [|congruence].
        apply Hin. rewrite Hl. set_solver.
      + rewrite HI. split; intros (r' & Hr' & ->); exists r'; (split; [|done]); set_solver. }
  intros k. destruct (found !! k) as [v|] eqn:Hf.
  - apply HI in Hf as (r & [Hk Hr]%Hin & ->). by rewrite decide_True, Hr.
  - case_decide as Hk; [|done]. destruct (spMessages t !! k) as [r|] eqn:Hr; [|done]. exfalso.
    assert (Hs : found !! k = Some (spDestination r, spResult r)); [|congruence].
    apply HI. exists r. split; [by apply Hin|done].
Qed.

(** What the writes [ms] for the message [m] do to tables in which its status is
    that of [t]. *)
Definition affects (t : Tables) (m : Message.t) (ms : list mutation) : Prop :=
  forall ts t0 t1, applyAll ms ts t0 = Ok t1 ->
    (forall j, Message.MessageId m <> Some j -> spStatus t1 j = spStatus t0 j) /\
    (forall k, Message.MessageId m = Some k -> spStatus t0 k = spStatus t k -> spStatus t1 k = spMerge (spStatus t k) m).

Lemma affects_writes t m ms :
  (forall k, Message.MessageId m = Some k -> writesStatus k (Present (Message.Result m)) ms) ->
  (Message.MessageId m = None -> forall ts t t', applyAll ms ts t <> Ok t') ->
  (forall k, Message.MessageId m = Some k -> spMerge (spStatus t k) m = Present (Message.Result m)) ->
  affects t m ms.
Proof using Type.
  intros Hw Hn Hm ts t0 t1 Ha. destruct (Message.MessageId m) as [k|] eqn:Hk; [|by apply Hn in Ha].
  specialize (Hw k eq_refl ts t0 t1 Ha). split.
  - intros j Hj. rewrite Hw, decide_False by congruence. done.
  - intros k' [= <-] _. by rewrite Hw, decide_True, Hm.
Qed.

Lemma affects_nothing t m : (forall k, Message.MessageId m = Some k -> spMerge (spStatus t k) m = spStatus t k) -> affects t m [].
Proof using Type.
  intros Hm ts t0 t1 [= <-]. split; [done|]. intros k Hk Hs. by rewrite Hs, Hm.
Qed.

Lemma trySetMessageResult_writes cid mid res w u w' :
  trySetMessageResult cid mid res w = (Ok u, w') ->
  exists ms, sWrites (w_data w') = sWrites (w_data w) ++ ms /\ sTables (w_data w') = sTables (w_data w) /\
    (forall k, MessageID.Bytes mid = Some k -> writesStatus k (Present (Some res)) ms) /\
    (MessageID.Bytes mid = None -> forall ts t t', applyAll ms ts t <> Ok t').
Proof using Type.
  intros [HT HW]%BufferWrite_Ok. eexists. split; [exact HW|]. split; [done|]. split.
  - intros k Hk ts t t' Ha j. cbn in Ha. apply outcome_bind_Ok in Ha as (t1 & H1 & H2). rewrite Hk in H1, H2.
    rewrite <- (updateResult_status _ _ _ _ _ H1). unfold spStatus. f_equal.
    destruct (ClientID.IsNil cid); [by injection H2 as <-|]. injection H2 as <-. by destruct (ClientID.Bytes cid).
  - intros Hk ts t t' Ha. cbn in Ha. rewrite Hk in Ha. done.
Qed.

Lemma tryStoreMessage_affects t m b w u w' :
  (forall k, Message.MessageId m = Some k -> spMerge (spStatus t k) m = Present (Message.Result m)) ->
  tryStoreMessage m b w = (Ok u, w') ->
  exists ms, sWrites (w_data w') = sWrites (w_data w) ++ ms /\ sTables (w_data w') = sTables (w_data w) /\ affects t m ms.
Proof using Type.
  intros Hm (ms & HW & HT & H1 & H2)%tryStoreMessage_writes. exists ms. split; [done|]. split; [done|].
  by apply affects_writes.
Qed.

Lemma BytesToMessageID_Bytes b i :
  MessageID.BytesToMessageID b = Ok i -> MessageID.Bytes i = (if decide (blen b = 0) then None else b).
Proof using Type.
  unfold MessageID.BytesToMessageID. case_decide as H; [by intros [= <-]|]. case_decide; [done|]. intros [= <-].
  unfold MessageID.Bytes, MessageID.IsNil. cbn. rewrite eqb_empty_false by done. by destruct b.
Qed.

(** One message of a batch in which it comes once. *)
Lemma storeOne_affects t found toLink m w tl w' :
  (forall k, Message.MessageId m = Some k -> toServer m = Ok true -> is_Some (Message.Result m) -> found !! k = None) ->
  (forall k, Message.MessageId m = Some k -> (toServer m <> Ok true \/ Message.Result m = None) ->
     found !! k = (fun r => (spDestination r, spResult r)) <$> spMessages t !! k) ->
  storeOne found toLink m w = (Ok tl, w') ->
  exists ms, sWrites (w_data w') = sWrites (w_data w) ++ ms /\ sTables (w_data w') = sTables (w_data w) /\ affects t m ms.
Proof using Type.
  intros Hsrv Hfound H. unfold storeOne in H. apply bind_Ok in H as (id & w1 & [Hid <-]%lift_Ok & H).
  apply bind_Ok in H as (b & w1 & [Hb <-]%lift_Ok & H). cbv zeta in H.
  assert (Hst : (forall k, Message.MessageId m = Some k -> spMerge (spStatus t k) m = Present (Message.Result m)) ->
    (tryStoreMessage m false ≫= fun _ => mret (toLink ++ [id])) w = (Ok tl, w') ->
    exists ms, sWrites (w_data w') = sWrites (w_data w) ++ ms /\ sTables (w_data w') = sTables (w_data w) /\ affects t m ms).
  { intros Hm (u & w1 & H1 & [_ <-]%ret_Ok)%bind_Ok. by eapply tryStoreMessage_affects. }
  assert (Hnone : mret (M := M (World Session)) toLink w = (Ok tl, w') ->
    (forall k, Message.MessageId m = Some k -> spMerge (spStatus t k) m = spStatus t k) ->
    exists ms, sWrites (w_data w') = sWrites (w_data w) ++ ms /\ sTables (w_data w') = sTables (w_data w) /\ affects t m ms).
  { intros [_ <-]%ret_Ok Hm. exists []. rewrite app_nil_r. split; [done|]. split; [done|]. by apply affects_nothing. }
  assert (Hkid : forall k, Message.MessageId m = Some k -> MessageID.id id = k).
  { intros k Hk. rewrite Hk in Hid. by apply BytesToMessageID_id. }
  unfold isBlind, succeeded in Hb. destruct b.
  { apply Hst; [|done]. intros k _. unfold spMerge. destruct (Message.Result m) as [r|]; [|done].
    destruct (negb _); [|done]. rewrite Hb. by rewrite bool_decide_true. }
  destruct (decide (toServer m = Ok true /\ is_Some (Message.Result m))) as [[Hs [r Hr]]|Hcl].
  { destruct (found !! MessageID.id id) as [info|] eqn:Hf.
    - destruct (Message.MessageId m) as [k|] eqn:Hk.
      + exfalso. assert (Hn : found !! k = None) by (apply Hsrv; [done|done|by rewrite Hr]).
        rewrite (Hkid k eq_refl) in Hf. unfold messageInfo in *. congruence.
      + destruct info as [dst res].
        destruct (match res with Some _ => _ | None => _ end); [by apply Hnone|].
        rewrite Hr in H. destruct (_ || _); [|by apply Hnone].
        apply bind_Ok in H as (cid & w1 & [_ <-]%lift_Ok & H). apply bind_Ok in H as (u & w1 & H & [_ <-]%ret_Ok).
        apply trySetMessageResult_writes in H as (ms & HW & HT & _ & H2). exists ms. split; [done|]. split; [done|].
        intros ts t0 t1 Ha. exfalso. revert Ha. apply H2. rewrite (BytesToMessageID_Bytes _ _ Hid). by case_decide.
    - apply Hst; [|done]. intros k _. unfold spMerge. by rewrite Hr, Hs, bool_decide_true. }
  assert (Hcl' : toServer m <> Ok true \/ Message.Result m = None).
  { destruct (Message.Result m); [|by right]. left. intros Hs. apply Hcl. split; [done|by eexists]. }
  assert (Hmerge : forall k, spMerge (spStatus t k) m =
    match Message.Result m with
    | Some r => match spStatus t k with
                | Present (Some old) => if MessageResult.Failed old && negb (MessageResult.Failed r) then Present (Some r) else spStatus t k
                | _ => Present (Some r)
                end
    | None => match spStatus t k with Absent => Present None | _ => spStatus t k end
    end).
  { intros k. unfold spMerge. destruct (Message.Result m); [|done]. rewrite bool_decide_false; [done|].
    by destruct Hcl'. }
  destruct (found !! MessageID.id id) as [[dst res]|] eqn:Hf.
  - assert (Hpres : forall k, Message.MessageId m = Some k -> spStatus t k = Present res).
    { intros k Hk. rewrite (Hkid k Hk), (Hfound k Hk Hcl') in Hf. unfold spStatus.
      destruct (spMessages t !! k); [|done]. by injection Hf as _ <-. }
    destruct res as [old|]; cbn in H.
    + destruct (MessageResult.Failed old) eqn:Hfo; cbn in H.
      * destruct (Message.Result m) as [r|] eqn:Hr.
        2:{ apply Hnone; [done|]. intros k Hk. by rewrite Hmerge, (Hpres k Hk). }
        destruct (negb (MessageResult.Failed r)) eqn:Hfr; cbn in H.
        2:{ apply Hnone; [done|]. intros k Hk. rewrite Hmerge, (Hpres k Hk). cbn. by rewrite andb_false_r. }
        apply bind_Ok in H as (cid & w1 & [_ <-]%lift_Ok & H). apply bind_Ok in H as (u & w1 & H & [_ <-]%ret_Ok).
        apply trySetMessageResult_writes in H as (ms & HW & HT & H1 & H2). exists ms. split; [done|]. split; [done|].
        destruct (decide (blen (Message.MessageId m) = 0)) as [Hz|Hz];
          rewrite (BytesToMessageID_Bytes _ _ Hid) in H1, H2.
        { rewrite decide_True in H2 by done. intros ts t0 t1 Ha. exfalso. by eapply H2. }
        rewrite decide_False in H1, H2 by done. apply affects_writes; [by rewrite Hr|by intros Hn; apply H2|].
        intros k Hk. rewrite Hmerge, (Hpres k Hk). cbn. by rewrite Hfo, Hr.
      * apply Hnone; [done|]. intros k Hk. rewrite Hmerge, (Hpres k Hk). destruct (Message.Result m); [|done]. cbn. by rewrite Hfo.
    + destruct (Message.Result m) as [r|] eqn:Hr; cbn in H.
      2:{ apply Hnone; [done|]. intros k Hk. by rewrite Hmerge, (Hpres k Hk). }
      apply bind_Ok in H as (cid & w1 & [_ <-]%lift_Ok & H). apply bind_Ok in H as (u & w1 & H & [_ <-]%ret_Ok).
      apply trySetMessageResult_writes in H as (ms & HW & HT & H1 & H2). exists ms. split; [done|]. split; [done|].
      destruct (decide (blen (Message.MessageId m) = 0)) as [Hz|Hz];
        rewrite (BytesToMessageID_Bytes _ _ Hid) in H1, H2.
      { rewrite decide_True in H2 by done. intros ts t0 t1 Ha. exfalso. by eapply H2. }
      rewrite decide_False in H1, H2 by done. apply affects_writes; [by rewrite Hr|by intros Hn; apply H2|].
      intros k Hk. by rewrite Hmerge, (Hpres k Hk), Hr.
  - apply Hst; [|done]. intros k Hk. rewrite Hmerge. assert (Ha : spStatus t k = Absent).
    { rewrite (Hkid k Hk), (Hfound k Hk Hcl') in Hf. unfold spStatus. by destruct (spMessages t !! k). }
    rewrite Ha. by destruct (Message.Result m).
Qed.

(** *** The batch *)
Lemma affects_batch t msgs mss ts t0 t1 :
  NoDup (Message.MessageId <$> msgs) -> Forall2 (affects t) msgs mss ->
  (forall k, Some k ∈ (Message.MessageId <$> msgs) -> spStatus t0 k = spStatus t k) ->
  applyAll (concat mss) ts t0 = Ok t1 ->
  (forall m k, m ∈ msgs -> Message.MessageId m = Some k -> spStatus t1 k = spMerge (spStatus t k) m) /\
  (forall k, Some k ∉ (Message.MessageId <$> msgs) -> spStatus t1 k = spStatus t0 k).
Proof using Type.
  intros Hnd Hall. revert t0 Hnd. induction Hall as [|m ms msgs mss Hm Hall IH]; intros t0 Hnd Hpre Ha; cbn in Ha.
  { injection Ha as <-. split; [by intros ?? ?%not_elem_of_nil|done]. }
  rewrite applyAll_app in Ha. apply outcome_bind_Ok in Ha as (t2 & H1 & H2). cbn in Hnd. apply NoDup_cons in Hnd as [Hni Hnd].
  destruct (Hm _ _ _ H1) as [Hother Hself].
  assert (Hne : forall k, Some k ∈ (Message.MessageId <$> msgs) -> Message.MessageId m <> Some k) by (intros k Hk E0; by rewrite E0 in Hni).
  destruct (IH t2) as [A B]; [done| |done|].
  { intros k Hk. rewrite Hother by by apply Hne. apply Hpre. cbn. by right. }
  split.
  - intros m' k [->|Hin]%elem_of_cons Hk; [|by apply A]. rewrite B by by rewrite <- Hk. apply Hself; [done|].
    apply Hpre. cbn. rewrite Hk. by left.
  - intros k Hk. cbn in Hk. apply not_elem_of_cons in Hk as [Hk1 Hk2]. rewrite B by done. apply Hother. congruence.
Qed.

Lemma elem_of_concat {A} (x : A) ls : x ∈ concat ls <-> exists l, l ∈ ls /\ x ∈ l.
Proof using Type. rewrite list_elem_of_In, in_concat. split; intros (l & H); exists l; by rewrite !list_elem_of_In in *. Qed.

(** An id that is read is that of a message of the batch that needs it. *)
Lemma idToRead_spec msgs ids k m (w w' : World Session) :
  mapMs (fun m => lift (idToRead m)) msgs w = (Ok ids, w') -> NoDup (Message.MessageId <$> msgs) ->
  m ∈ msgs -> Message.MessageId m = Some k ->
  (Some k ∈ concat ids <-> ~ (toServer m = Ok true /\ is_Some (Message.Result m))).
Proof using Type.
  intros [_ Hall]%mapMs_lift_Ok Hnd Hm Hk.
  assert (Hone : forall m l, idToRead m = Ok l -> (toServer m = Ok true /\ is_Some (Message.Result m) -> l = []) /\
    (~ (toServer m = Ok true /\ is_Some (Message.Result m)) -> l = [Message.MessageId m])).
  { intros m' l. unfold idToRead. destruct (Message.Result m') as [r|].
    - intros (b & -> & [= <-])%outcome_bind_Ok. destruct b; split; [done| |by intros [? _]|done].
      intros H. destruct H. by split.
    - intros [= <-]. split; [by intros [_ []]|done]. }
  rewrite elem_of_concat. split.
  - intros (l & Hl & Hkl) Hsrv.
    apply list_elem_of_lookup in Hl as [i Hi]. destruct (Forall2_lookup_r _ _ _ _ _ Hall Hi) as (m' & Hi' & Hl').
    apply Hone in Hl' as [H1 H2]. destruct (decide (m' = m)) as [->|Hne]; [by rewrite H1 in Hkl; [apply not_elem_of_nil in Hkl|]|].
    destruct (decide (l = [])) as [->|Hn]; [by apply not_elem_of_nil in Hkl|].
    rewrite H2 in Hkl by (intros ?; by apply Hn, H1). apply list_elem_of_singleton in Hkl.
    apply list_elem_of_lookup in Hm as [j Hj]. apply Hne.
    assert (i = j) as ->; [|congruence].
    eapply NoDup_lookup; [exact Hnd|rewrite list_lookup_fmap, Hi'; done|]. rewrite list_lookup_fmap, Hj. cbn. congruence.
  - intros Hn. apply list_elem_of_lookup in Hm as [i Hi]. destruct (Forall2_lookup_l _ _ _ _ _ Hall Hi) as (l & Hi' & Hl).
    apply Hone in Hl as [_ Hl]. exists l. split; [by eapply list_elem_of_lookup_2|]. rewrite Hl by done. rewrite Hk. by left.
Qed.

(** The loop over the batch. *)
Lemma storeAll_affects t found msgs tl w tl' w' :
  (forall m, m ∈ msgs -> forall k, Message.MessageId m = Some k -> toServer m = Ok true -> is_Some (Message.Result m) -> found !! k = None) ->
  (forall m, m ∈ msgs -> forall k, Message.MessageId m = Some k -> (toServer m <> Ok true \/ Message.Result m = None) ->
     found !! k = (fun r => (spDestination r, spResult r)) <$> spMessages t !! k) ->
  foldM (storeOne found) msgs tl w = (Ok tl', w') ->
  exists mss, sWrites (w_data w') = sWrites (w_data w) ++ concat mss /\ sTables (w_data w') = sTables (w_data w) /\
    Forall2 (affects t) msgs mss.
Proof using Type.
  revert tl w. induction msgs as [|m msgs IH]; intros tl w H1 H2 H; cbn in H.
  { apply ret_Ok in H as [_ <-]. exists []. by rewrite app_nil_r. }
  apply bind_Ok in H as (tl1 & w1 & Ha & H).
  apply (storeOne_affects t) in Ha as (ms & HW & HT & Ha); [|apply H1; by left|apply H2; by left].
  apply IH in H as (mss & HW' & HT' & Hall); [|intros m' Hm'; apply H1; by right|intros m' Hm'; apply H2; by right].
  exists (ms :: mss). rewrite HW', HW, HT', HT. cbn. rewrite app_assoc. split; [done|]. split; [done|]. by constructor.
Qed.

Lemma dropData_id m : Message.MessageId (dropData m) = Message.MessageId m.
Proof using Type. unfold dropData. by destruct (Message.Result m). Qed.
Lemma dropData_result m : Message.Result (dropData m) = Message.Result m.
Proof using Type. unfold dropData. by case_match. Qed.
Lemma dropData_toServer m : toServer (dropData m) = toServer m.
Proof using Type. unfold dropData. by destruct (Message.Result m). Qed.
Lemma spMerge_dropData st m : spMerge st (dropData m) = spMerge st m.
Proof using Type. unfold spMerge. by rewrite dropData_result, dropData_toServer. Qed.
Lemma dropData_ids (msgs : list Message.t) : Message.MessageId <$> (dropData <$> msgs) = Message.MessageId <$> msgs.
Proof using Type. rewrite <- list_fmap_compose. apply list_fmap_ext. intros ? m _. apply dropData_id. Qed.

(** Links leave every message alone. *)
Lemma links_status id time ids ts t t' :
  applyAll ((fun i => putLink id time (MessageID.Bytes i)) <$> ids) ts t = Ok t' -> spMessages t' = spMessages t.
Proof using Type.
  intros H. refine (applyAll_keeps (fun t0 => spMessages t0 = spMessages t) _ ts t t' _ eq_refl H).
  intros m t1 t2 (i & -> & _)%list_elem_of_fmap <- Hm. by eapply putLink_other.
Qed.

Lemma tryStoreMessages_wrote t msgs contact ms :
  NoDup (Message.MessageId <$> msgs) -> wrote (tryStoreMessages msgs contact) t tt ms ->
  exists mss links, ms = concat mss ++ links /\ Forall2 (affects t) (dropData <$> msgs) mss /\
    (forall ts t0 t1, applyAll links ts t0 = Ok t1 -> spMessages t1 = spMessages t0).
Proof using HP.
  intros Hnd (tp & n & s & H & <-). unfold tryStoreMessages in H.
  apply bind_Ok in H as (ids & w1 & Hids & H). pose proof Hids as [-> _]%mapMs_lift_Ok.
  apply bind_Ok in H as (found & w2 & [Hd Hfound]%readInfos_Ok & H). cbn in Hfound.
  apply bind_Ok in H as (tl & w3 & Hst & H).
  apply (storeAll_affects t) in Hst as (mss & HW & HT & Hall).
  - rewrite Hd in HW. cbn in HW.
    destruct (String.eqb contact ""); [apply ret_Ok in H as [_ <-]; exists mss, []; rewrite app_nil_r|].
    { split; [done|]. split; [done|]. by intros ??? [= <-]. }
    apply bind_Ok in H as (ct & w4 & [_ <-]%lift_Ok & H). apply BufferWrite_Ok in H as [_ HW'].
    do 2 eexists. split; [by rewrite HW', HW|]. split; [done|]. intros ts t0 t1. apply links_status.
  - intros m (m0 & -> & Hm0)%list_elem_of_fmap k. rewrite dropData_id, dropData_result, dropData_toServer. intros Hk Hs Hr.
    rewrite Hfound, decide_False; [done|]. rewrite (idToRead_spec _ _ _ _ _ _ Hids Hnd Hm0 Hk). tauto.
  - intros m (m0 & -> & Hm0)%list_elem_of_fmap k. rewrite dropData_id, dropData_result, dropData_toServer. intros Hk Hs.
    rewrite Hfound, decide_True; [done|]. rewrite (idToRead_spec _ _ _ _ _ _ Hids Hnd Hm0 Hk).
    intros [H1 [r H2]]. destruct Hs; congruence.
Qed.

Lemma blind_affects t m ms : isBlind m = Ok true -> blindWrite m = Ok ms -> affects t m [ms].
Proof using Type.
  intros Hb Hw. unfold blindWrite in Hw. destruct (checkValid _) as [ct| |]; [|done..]. injection Hw as <-.
  unfold isBlind, succeeded in Hb. destruct (Message.Result m) as [r|] eqn:Hr; [|done]. destruct (negb _); [|done].
  apply affects_writes; rewrite ?Hr.
  - intros k Hk ts t0 t1 Ha j. cbn in Ha. apply outcome_bind_Ok in Ha as (t2 & Ha & [= <-]).
    apply putMessage_status in Ha as (k' & Hk' & Ha). rewrite Hk in Hk'. injection Hk' as <-. by rewrite Ha, Hr.
  - intros Hn ts t0 t1 Ha. cbn in Ha. apply outcome_bind_Ok in Ha as (t2 & Ha & _).
    apply putMessage_status in Ha as (k' & Hk' & _). congruence.
  - intros k _. unfold spMerge. by rewrite Hr, bool_decide_true.
Qed.

Lemma allBlind_Ok msgs : allBlind msgs = Ok true -> Forall (fun m => isBlind m = Ok true) msgs.
Proof using Type.
  induction msgs as [|m msgs IH]; cbn; [constructor|]. intros ([] & Hb & H)%outcome_bind_Ok; [|done].
  constructor; [done|by apply IH].
Qed.

(** Both ways of storing. *)
Lemma StoreMessages_Ok msgs contact w u w' :
  NoDup (Message.MessageId <$> msgs) -> StoreMessages msgs contact w = (Ok u, w') ->
  let t := dTables (w_data w) in let t' := dTables (w_data w') in
  (forall m k, m ∈ msgs -> Message.MessageId m = Some k -> spStatus t' k = spMerge (spStatus t k) m) /\
  (forall k, Some k ∉ (Message.MessageId <$> msgs) -> spStatus t' k = spStatus t k).
Proof using HP.
  intros Hnd H t t'. unfold StoreMessages in H. apply bind_Ok in H as (b & w1 & [Hb <-]%lift_Ok & H). destruct b.
  - apply bind_Ok in H as (ms & w1 & Hms & H). apply mapMs_lift_Ok in Hms as [-> Hms].
    apply inTxn_Ok in H as (ms' & n & ->%wrote_BufferWrite & Ha).
    assert (Hall : Forall2 (affects t) msgs ((fun m => [m]) <$> ms)).
    { apply Forall2_fmap_r. apply allBlind_Ok in Hb. clear - Hb Hms. induction Hms; [constructor|].
      apply Forall_cons in Hb as [Hb ?]. constructor; [by apply blind_affects|by auto]. }
    refine (affects_batch t msgs _ _ t t' Hnd Hall _ _); [done|].
    replace (concat _) with ms; [exact Ha|]. clear. induction ms; cbn; congruence.
  - apply inTxn_Ok in H as (ms & n & Hw & Ha).
    apply tryStoreMessages_wrote in Hw as (mss & links & -> & Hall & Hl); [|done]. rewrite applyAll_app in Ha.
    apply outcome_bind_Ok in Ha as (t1 & H1 & H2). apply Hl in H2.
    assert (Hs : forall k, spStatus t' k = spStatus t1 k) by (intros k; unfold spStatus; by unfold t'; rewrite H2).
    destruct (affects_batch t _ _ _ t t1 ltac:(by rewrite dropData_ids) Hall ltac:(done) H1) as [A B]. split.
    + intros m k Hm Hk. rewrite Hs, <- spMerge_dropData. apply A; [by apply list_elem_of_fmap_2|by rewrite dropData_id].
    + intros k Hk. rewrite Hs. apply B. by rewrite dropData_ids.
Qed.

Lemma spMerge_stage st m :
  toServer m = Ok false -> stage (spMerge st m) = stage (contractMerge st (Message.Result m)).
Proof using Type.
  intros Hs. unfold spMerge, contractMerge. destruct (Message.Result m) as [r|].
  - rewrite bool_decide_false by by rewrite Hs. destruct st as [|[old|]]; [done| |done].
    destruct (MessageResult.Failed r) eqn:Hf; [by rewrite andb_false_r|]. cbn. destruct (MessageResult.Failed old) eqn:Ho; [done|].
    cbn. by rewrite Ho, Hf.
  - by destruct st as [|[old|]].
Qed.

(** C10: storing a batch in which no id comes twice, without or within a
    transaction, gives each message the status that the merge with what was
    there demands and leaves all others; a message for a client goes through
    the stages of the contract, and nothing unprocessed is lost. *)
Theorem sp_store_messages_spec msgs contact w u w' :
  spSound (dTables (w_data w)) -> NoDup (Message.MessageId <$> msgs) ->
  StoreMessages msgs contact w = (Ok u, w') ->
  let t := dTables (w_data w) in let t' := dTables (w_data w') in
  spSound t' /\
  (forall m k, m ∈ msgs -> Message.MessageId m = Some k ->
     spStatus t' k = spMerge (spStatus t k) m /\
     (toServer m = Ok false -> stage (spStatus t' k) = stage (contractMerge (spStatus t k) (Message.Result m)))) /\
  (forall k, Some k ∉ (Message.MessageId <$> msgs) -> spStatus t' k = spStatus t k).
Proof using HP.
  intros Hs Hnd H t t'. destruct (StoreMessages_Ok _ _ _ _ _ Hnd H) as [A B]. split.
  { pose proof (kept_StoreMessages (L := L) msgs contact w Hs) as Hk. by rewrite H in Hk. }
  split; [|exact B]. intros m k Hm Hk. split; [by apply A|]. intros Hc. unfold t'. rewrite (A m k Hm Hk). by apply spMerge_stage.
Qed.
End Storing.
