(* ===== verification/SpannerHandout.v ===== *)
(** * The Spanner datastore: messages handed out

    What the reads of messagestore.go give, which messages
    ClientMessagesForProcessing claims, when a notification is acknowledged,
    and the life of the message processor. *)
From S2P Require Import Prelude Platform Ids Proto Db Sqlite SqliteMessages SqliteClients.
From S2P Require Import Spanner SpannerClients SpannerMessages.

Section Handout.
Context `{P : Platform} {HP : PlatformOK P} `{L : ProtoLib} `{E : SpannerEngine}.

(** ** Reading messages *)
Lemma tryGetMessages_Ok keys b ms (w w' : World Datastore) :
  tryGetMessages keys b w = (Ok ms, w') ->
  w_data w' = w_data w /\
  exists rows, rows ≡ₚ messagesAt keys (dTables (w_data w)) /\ Forall2 (fun kr m => messageOfRow b kr = Ok m) rows ms.
Proof using HP.
  intros (rows & w1 & Hr & Hd & H)%readRows_Ok; [|done]. apply mapMs_lift_Ok in H as [-> H]. split; [done|]. by exists rows.
Qed.

Lemma messageOfRow_Ok b kr m :
  messageOfRow b kr = Ok m ->
  Message.MessageId m = Some kr.1 /\ Message.Result m = spResult kr.2 /\ Message.Destination m = Some (spDestination kr.2).
Proof using Type.
  unfold messageOfRow, protoMessage. destruct (spCreationTime kr.2) as [ct|]; [|done]. cbv zeta.
  destruct (tspbCheckValid _); [done|]. intros [= <-]. by destruct b.
Qed.

Lemma elem_of_messagesAt keys t k r : (k, r) ∈ messagesAt keys t <-> Some k ∈ keys /\ spMessages t !! k = Some r.
Proof using Type. unfold messagesAt. by rewrite list_elem_of_filter, elem_of_map_to_list. Qed.

(** Picking out of a list keeps its keys apart. *)
Lemma sublist_keys {A B} (f : A -> B) l l' : l `sublist_of` l' -> NoDup (f <$> l') -> NoDup (f <$> l).
Proof using Type.
  intros Hl Hnd. eapply sublist_NoDup; [exact Hnd|]. clear Hnd. induction Hl; cbn; by constructor.
Qed.

Lemma messagesAt_NoDup keys t : NoDup (messagesAt keys t).*1.
Proof using Type. eapply sublist_keys; [apply sublist_filter|apply NoDup_fst_map_to_list]. Qed.

Lemma elem_of_pendingRows c t k p : (k, p) ∈ pendingRows (Some c) t <-> spPendings t !! (c, k) = Some p.
Proof using Type.
  unfold pendingRows. rewrite list_elem_of_fmap. split.
  - intros ([[c' k'] p'] & [= -> ->] & [[= ->] Hin]%list_elem_of_filter). by apply elem_of_map_to_list in Hin.
  - intros Hp. exists ((c, k), p). split; [done|]. apply list_elem_of_filter. split; [done|]. by apply elem_of_map_to_list.
Qed.

Lemma pendingRows_NoDup c t : NoDup (pendingRows (Some c) t).*1.
Proof using Type.
  unfold pendingRows. rewrite <- list_fmap_compose. pose proof (NoDup_fst_map_to_list (spPendings t)) as H. revert H.
  induction (map_to_list (spPendings t)) as [|[[c' k] p] l IH]; cbn; [constructor|]. intros [Hn Hnd]%NoDup_cons.
  case_decide as Hc; [|by apply IH]. injection Hc as ->. cbn. apply NoDup_cons. split; [|by apply IH].
  intros ([[c' k'] p'] & [= ->] & [[= ->] Hin]%list_elem_of_filter)%list_elem_of_fmap. apply Hn.
  apply list_elem_of_fmap. by exists ((c, k'), p').
Qed.

(** ** What is selected *)
Definition toService (svc : string) (rows : list (string * spPending)) : Z :=
  Z.of_nat (length (filter (fun kr : string * spPending => spDestinationServiceName kr.2 = Some svc) rows)).

Definition selected (t lim : Z) (sl : option (gmap string Z)) (rows : list (string * spPending)) (count : Z)
    (read : gmap string Z) (ids : list string) : Prop :=
  exists picked, picked `sublist_of` rows /\ ids = picked.*1 /\ Forall (fun kr => spScheduledTime kr.2 <= t)%Z picked /\
    (count + Z.of_nat (length ids) <= Z.max count lim)%Z /\
    (forall s, sl = Some s -> (forall svc, limitOf s svc <= u64_max)%Z -> (forall svc, 0 <= default 0 (read !! svc))%Z ->
       forall svc, (default 0 (read !! svc) + toService svc picked <= Z.max (default 0 (read !! svc)) (limitOf s svc))%Z).

Lemma selectDue_spec t lim sl rows count read ids full :
  selectDue t lim sl rows count read = (ids, full) -> selected t lim sl rows count read ids.
Proof using Type.
  revert count read ids full. induction rows as [|[mid pm] rows IH]; intros count read ids full H; cbn in H.
  { injection H as <- <-. exists []. cbn. split_and!; [done..|lia|]. intros. unfold toService. cbn. lia. }
  destruct (Z.leb_spec lim count) as [Hl|Hl].
  { injection H as <- <-. exists []. cbn. split_and!; [apply sublist_nil_l|done..|lia|]. intros. unfold toService. cbn. lia. }
  assert (Hskip : selectDue t lim sl rows count read = (ids, full) -> selected t lim sl ((mid, pm) :: rows) count read ids).
  { intros (picked & Hs & Hp)%IH. exists picked. split; [by constructor|done]. }
  assert (Htake : forall read', (spScheduledTime pm <= t)%Z ->
    (forall s, sl = Some s -> (forall svc, limitOf s svc <= u64_max)%Z -> (forall svc, 0 <= default 0 (read !! svc))%Z ->
       exists n, spDestinationServiceName pm = Some n /\ read' = <[n := (default 0 (read !! n) + 1)%Z]> read /\
         (default 0 (read !! n) < limitOf s n)%Z) ->
    (let '(l, f) := selectDue t lim sl rows (count + 1) read' in (mid :: l, f)) = (ids, full) ->
    selected t lim sl ((mid, pm) :: rows) count read ids).
  { intros read' Ht Hread. destruct (selectDue t lim sl rows (count + 1) read') as [l f] eqn:Es. intros [= <- <-].
    apply IH in Es as (picked & Hs & -> & Hdue & Hlen & Hsvc). exists ((mid, pm) :: picked).
    split; [by constructor|]. split; [done|]. split; [by constructor|]. split; [cbn in *; lia|].
    intros s Es Hmax Hpos svc. destruct (Hread s Es Hmax Hpos) as (n & Hn & -> & Hlt).
    assert (Hpos' : forall svc, (0 <= default 0 (<[n := (default 0 (read !! n) + 1)%Z]> read !! svc))%Z).
    { intros svc'. rewrite lookup_insert. case_decide; [|apply Hpos]. cbn. specialize (Hpos n). lia. }
    specialize (Hsvc s Es Hmax Hpos' svc). revert Hsvc. unfold toService. rewrite filter_cons. cbn [snd]. rewrite Hn, lookup_insert.
    destruct (decide (n = svc)) as [->|Hne].
    - rewrite (decide_True (P := Some svc = Some svc)) by done. cbn. lia.
    - rewrite (decide_False (P := Some n = Some svc)) by congruence. done. }
  cbv zeta in H. destruct sl as [s|].
  - destruct (spDestinationServiceName pm) as [n|] eqn:Hn; [|by apply Hskip].
    destruct (s !! n) as [v|] eqn:Hv; [|by apply Hskip].
    destruct (Z.leb_spec v (default 0%Z (read !! n))) as [Hle|Hlt]; [by apply Hskip|].
    destruct (Z.ltb_spec t (spScheduledTime pm)); [by apply Hskip|]. eapply Htake; [lia| |exact H].
    intros s' [= <-] Hmax Hpos. exists n. split; [done|]. unfold limitOf. rewrite Hv. split; [|done]. f_equal.
    apply wrapU64_small. specialize (Hmax n). specialize (Hpos n). unfold limitOf in Hmax. rewrite Hv in Hmax. cbn in Hmax.
    unfold isU64, u64_max in *. lia.
  - destruct (Z.ltb_spec t (spScheduledTime pm)); [by apply Hskip|]. eapply Htake; [lia|done|exact H].
Qed.

Lemma selectMessages_Ok id c t lim sl w ids w' :
  ClientID.Bytes id = Some c -> selectMessages id t lim sl w = (Ok ids, w') ->
  w_data w' = w_data w /\ exists rows, NoDup rows.*1 /\
    (forall k p, (k, p) ∈ rows -> spPendings (dTables (w_data w)) !! (c, k) = Some p) /\ selected t lim sl rows 0 ∅ ids.
Proof using HP.
  intros Hc H. pose proof (readOnly_selectMessages id t lim sl w) as Hd. rewrite H in Hd. split; [done|]. clear Hd.
  unfold selectMessages in H. apply bind_Ok in H as (rows & w1 & H1 & H). apply sp_rowsOf_Ok in H1 as [_ Hrows]; [|done].
  rewrite Hc in Hrows. unfold tablesOf, datastore_tables in Hrows. set (tb := dTables (w_data w)) in *.
  assert (Hr : exists l, l ≡ₚ pendingRows (Some c) tb /\ rows.1 `sublist_of` l).
  { destruct rows.2 as [e|]; [|by exists rows.1]. destruct Hrows as (l & Hl & [suff Hpre]). exists l. split; [done|].
    rewrite Hpre. by apply sublist_inserts_r. }
  destruct Hr as (l & Hl & Hsub). exists rows.1. split; [|split].
  - eapply sublist_keys; [exact Hsub|]. rewrite Hl. apply pendingRows_NoDup.
  - intros k p Hin. apply elem_of_pendingRows. rewrite <- Hl. by eapply sublist_subseteq.
  - destruct (selectDue t lim sl rows.1 0 ∅) as [ids' full] eqn:Es. apply selectDue_spec in Es.
    destruct full; [by apply ret_Ok in H as [<- _]|].
    by apply bind_Ok in H as (u & w2 & _ & [<- _]%ret_Ok).
Qed.

(** ** What is claimed *)
Definition claimOf (id : gobytes) (kr : string * spPending) (mu : mutation) : Prop :=
  exists n, mu = updatePending id kr.1 kr.2 (clock n + 15 * Minute)%Z.

Lemma claimRows_Ok id t rows mus mids w r w' :
  Forall (fun kr => spScheduledTime kr.2 <= t)%Z rows -> claimRows id t rows mus mids w = (Ok r, w') ->
  exists mus', r = (mus ++ mus', Some (mids ++ rows.*1)) /\ Forall2 (claimOf id) rows mus'.
Proof using Type.
  revert mus mids w. induction rows as [|[k p] rows IH]; intros mus mids w Hf H; cbn in H.
  { apply ret_Ok in H as [<- _]. exists []. by rewrite !app_nil_r. }
  apply Forall_cons in Hf as [Hp Hf]. cbn in Hp. destruct (Z.ltb_spec t (spScheduledTime p)); [lia|].
  apply bind_Ok in H as (due & w1 & Hdue & H). apply IH in H as (mus' & -> & H2); [|done].
  unfold ClientRetryTime in Hdue. apply bind_Ok in Hdue as (t0 & w2 & Hnow & [<- _]%ret_Ok).
  apply interact_Ok in Hnow as [[= <-] _]. eexists. cbn. rewrite <- !app_assoc. split; [done|].
  constructor; [by eexists|exact H2].
Qed.

(** The row that a claim leaves. *)
Definition putOff (p p' : spPending) : Prop :=
  spRetryCount p' = wrapI64 (spRetryCount p + 1) /\ (exists n, spScheduledTime p' = clock n + 15 * Minute)%Z /\
  spDestinationServiceName p' = spDestinationServiceName p /\ spPendingCreationTime p' = spPendingCreationTime p.

(** [t'] is [t] but for the pending rows of [c] under [ids], which are put off. *)
Definition claimed (c : string) (ids : list string) (t t' : Tables) : Prop :=
  t' = setSpPendings (spPendings t') t /\
  (forall k, k ∈ ids -> exists p p', spPendings t !! (c, k) = Some p /\ spPendings t' !! (c, k) = Some p' /\ putOff p p') /\
  (forall key, (forall k, k ∈ ids -> key <> (c, k)) -> spPendings t' !! key = spPendings t !! key).

Lemma claims_apply c rows mus ts t t' :
  NoDup rows.*1 -> Forall2 (claimOf (Some c)) rows mus ->
  (forall k p, (k, p) ∈ rows -> spPendings t !! (c, k) = Some p) ->
  applyAll mus ts t = Ok t' -> claimed c rows.*1 t t'.
Proof using Type.
  intros Hnd Hf. revert t Hnd. induction Hf as [|[k p] mu rows mus (n & ->) Hf IH]; intros t Hnd Hp Ha; cbn in Ha.
  { injection Ha as <-. split; [by destruct t|]. split; [by intros ? ?%not_elem_of_nil|done]. }
  apply outcome_bind_Ok in Ha as (t1 & H1 & H2). cbn in Hnd. apply NoDup_cons in Hnd as [Hn Hnd].
  pose proof (Hp k p ltac:(by left)) as Hk. rewrite Hk in H1. injection H1 as <-.
  assert (Hne : forall j, j ∈ rows.*1 -> (c, j) <> (c, k)) by (intros j Hj [= ->]; done).
  apply IH in H2 as (A & B & C); [|done|].
  2:{ intros j q Hj. cbn. rewrite lookup_insert_ne; [apply Hp; by right|]. intros [= ->]. apply Hn.
      by apply (list_elem_of_fmap_2 fst) in Hj. }
  cbn in B, C. split; [|split].
  - rewrite A. by destruct t.
  - cbn. intros j [->|Hj]%elem_of_cons.
    + exists p. rewrite C, lookup_insert_eq by (intros j Hj; specialize (Hne j Hj); congruence). eexists.
      split; [done|]. split; [done|]. split_and!; try done. by eexists.
    + destruct (B j Hj) as (q & q' & Hq & Hq' & Ho). rewrite lookup_insert_ne in Hq by (specialize (Hne j Hj); congruence).
      by exists q, q'.
  - intros key Hkey. cbn in Hkey. rewrite C by (intros j Hj; apply Hkey; by right).
    apply lookup_insert_ne. intros <-. apply (Hkey k); [by left|done].
Qed.

(** What the pending row of a message says of its service. *)
Definition pendingService (t : Tables) (c k : string) : option string :=
  p ← spPendings t !! (c, k); spDestinationServiceName p.

Lemma toService_ids t c svc picked :
  (forall k p, (k, p) ∈ picked -> spPendings t !! (c, k) = Some p) ->
  toService svc picked = Z.of_nat (length (filter (fun k => pendingService t c k = Some svc) picked.*1)).
Proof using Type.
  unfold toService. intros Hp. f_equal. induction picked as [|[k p] l IH]; [done|].
  assert (Hk : pendingService t c k = spDestinationServiceName p) by (unfold pendingService; by rewrite (Hp k p) by by left).
  specialize (IH (fun k' p' H => Hp k' p' (list_elem_of_further _ _ _ H))). rewrite filter_cons. cbn [fmap list_fmap fst snd].
  rewrite filter_cons. destruct (decide (pendingService t c k = Some svc)) as [Hd|Hd]; rewrite Hk in Hd.
  - rewrite decide_True by done. cbn. by f_equal.
  - by rewrite decide_False.
Qed.

Lemma messageIds b rows ms :
  Forall2 (fun kr m => messageOfRow b kr = Ok m) rows ms -> Message.MessageId <$> ms = Some <$> rows.*1.
Proof using Type.
  induction 1 as [|kr m rows ms H _ IH]; [done|]. cbn. apply messageOfRow_Ok in H as (-> & _). by f_equal.
Qed.

(** The messages under some ids that have rows. *)
Lemma messagesAt_keys t ids :
  NoDup ids -> (forall k, k ∈ ids -> is_Some (spMessages t !! k)) -> (messagesAt (Some <$> ids) t).*1 ≡ₚ ids.
Proof using Type.
  intros Hnd Hall. apply NoDup_Permutation; [apply messagesAt_NoDup|done|]. intros k. rewrite list_elem_of_fmap. split.
  - intros ([k' r] & -> & [Hk _]%elem_of_messagesAt). by apply list_elem_of_fmap in Hk as (j & [= ->] & ?).
  - intros Hk. destruct (Hall k Hk) as [r Hr]. exists (k, r). split; [done|]. apply elem_of_messagesAt. split; [|done].
    by apply list_elem_of_fmap_2.
Qed.

Lemma tryClientMessages_Ok id c t keys w r w' :
  spSound (dTables (w_data w)) -> ClientID.Bytes id = Some c -> NoDup keys ->
  (forall k, k ∈ keys -> exists p, spPendings (dTables (w_data w)) !! (c, k) = Some p /\ (spScheduledTime p <= t)%Z) ->
  tryClientMessagesForProcessing id t keys w = (Ok r, w') ->
  Message.MessageId <$> r.1 ≡ₚ Some <$> keys /\
  exists rows, rows.*1 ≡ₚ keys /\ NoDup rows.*1 /\ Forall2 (claimOf (Some c)) rows r.2 /\
    (forall k p, (k, p) ∈ rows -> spPendings (dTables (w_data w)) !! (c, k) = Some p).
Proof using HP.
  intros Hs Hc Hnd Hkeys H. unfold tryClientMessagesForProcessing in H. rewrite Hc in H.
  apply bind_Ok in H as (rows & w1 & H1 & H). apply sp_rowsOf_Ok in H1 as [Hd Hrows]; [|done].
  unfold tablesOf, datastore_tables in Hrows. set (tb := dTables (w_data w)) in *.
  assert (Hin : forall k p, (k, p) ∈ rows.1 -> k ∈ keys /\ spPendings tb !! (c, k) = Some p).
  { intros k p Hkp. assert (Hkp' : (k, p) ∈ filter (fun kr => kr.1 ∈ keys) (pendingRows (Some c) tb)).
    { destruct rows.2; [|by rewrite <- Hrows]. destruct Hrows as (l & Hl & [suff Hpre]). rewrite <- Hl, Hpre.
      apply elem_of_app. by left. }
    apply list_elem_of_filter in Hkp' as [? ?%elem_of_pendingRows]. done. }
  apply bind_Ok in H as (cl & w2 & Hcl & H).
  pose proof (readOnly_claimRows (Some c) t rows.1 [] [] w1) as Hd2. rewrite Hcl in Hd2. cbn in Hd2.
  apply claimRows_Ok in Hcl as (mus & -> & Hmus).
  2:{ apply Forall_forall. intros [k p] [Hk Hp]%Hin. destruct (Hkeys k Hk) as (p' & Hp' & Hle). cbn. congruence. }
  cbn in H. apply bind_Ok in H as (u & w3 & [He ->]%sp_rowsErr_Ok & H). rewrite He in Hrows.
  apply bind_Ok in H as (ms & w4 & Hms & [<- _]%ret_Ok). cbn. apply tryGetMessages_Ok in Hms as [_ (rs & Hrs & Hf)].
  rewrite Hd2, Hd in Hrs. fold tb in Hrs.
  assert (Hk : rows.1.*1 ≡ₚ keys).
  { apply NoDup_Permutation; [|done|].
    - rewrite Hrows. eapply sublist_keys; [apply sublist_filter|apply pendingRows_NoDup].
    - intros k. rewrite list_elem_of_fmap. split; [by intros ([k' p] & -> & [? _]%Hin)|]. intros Hk.
      destruct (Hkeys k Hk) as (p & Hp & _). exists (k, p). split; [done|]. rewrite Hrows. apply list_elem_of_filter.
      split; [done|]. by apply elem_of_pendingRows. }
  assert (Hndk : NoDup rows.1.*1) by by rewrite Hk. split.
  - rewrite (messageIds _ _ _ Hf), Hrs, messagesAt_keys, Hk; [done|done|].
    intros k ([k' p] & -> & [Hk' Hp]%Hin)%list_elem_of_fmap. apply (p_message _ Hs c). by exists p.
  - exists rows.1. do 3 (split; [done|]). by intros k p [_ Hp]%Hin.
Qed.

(** A transaction of blind writes whose error is looked at afterwards. *)
Lemma try_inTxn ms e w w' :
  try (inTxn (BufferWrite ms)) w = (Ok e, w') ->
  let t := dTables (w_data w) in let t' := dTables (w_data w') in
  (exists n, applyAll ms (commitTimestamp n) t = Ok t') \/ (exists e', e = inr e') /\ t' = t.
Proof using Type.
  intros H. apply try_Ok in H. destruct e as [u|e].
  - left. apply inTxn_Ok in H as (ms' & n & ->%wrote_BufferWrite & Ha). by exists n.
  - unfold inTxn, mbind, M_bind in H. destruct (ReadWriteTransaction (BufferWrite ms) w) as [r w1] eqn:Hr.
    apply ReadWriteTransaction_cases in Hr. destruct r as [[a ts]|e'|]; [done| |done]. injection H as -> ->.
    destruct Hr as [->|(a & ms' & n & ->%wrote_BufferWrite & Ha)]; [right; by split; [eexists|]|left; by exists n].
Qed.

(** C11: what a client is given on Spanner, as one run: at most [lim]
    messages, each once, pending for the client and due, and for each service
    at most its limit; exactly their pending rows are counted once more and put
    off for 15 minutes, and nothing else has changed.  When the transaction that
    does this fails, the messages are returned all the same, with the error, and
    the tables are as they were, or, if only the answer to the commit was lost,
    changed in this way. *)
Theorem sp_client_messages_spec id c lim sl w msgs err w' :
  spSound (dTables (w_data w)) -> ClientID.Bytes id = Some c -> (0 <= lim)%Z ->
  ClientMessagesForProcessing id lim sl w = (Ok (msgs, err), w') ->
  let t := dTables (w_data w) in let t' := dTables (w_data w') in
  exists n ids, NoDup ids /\ (Z.of_nat (length ids) <= lim)%Z /\
    (forall k, k ∈ ids -> exists p, spPendings t !! (c, k) = Some p /\ (spScheduledTime p <= clock n)%Z) /\
    (forall s, sl = Some s -> (forall svc, 0 <= limitOf s svc <= u64_max)%Z ->
       forall svc, (Z.of_nat (length (filter (fun k => pendingService t c k = Some svc) ids)) <= limitOf s svc)%Z) /\
    Message.MessageId <$> msgs ≡ₚ Some <$> ids /\
    (claimed c ids t t' \/ is_Some err /\ t' = t) /\ spSound t'.
Proof using HP.
  intros Hs Hc Hlim H t t'. pose proof (kept_ClientMessagesForProcessing (L := L) id lim sl w Hs) as Hs'. rewrite H in Hs'.
  unfold ClientMessagesForProcessing in H. apply bind_Ok in H as (n & w1 & Hn & H). apply interact_Ok in Hn as [[= <-] ->].
  apply bind_Ok in H as (keys & w2 & [Hd (rows & Hnd & Hrows & picked & Hsub & -> & Hdue & Hlen & Hsvc)]%(selectMessages_Ok _ _ _ _ _ _ _ _ Hc) & H).
  cbn in Hd, Hrows. fold t in Hrows.
  assert (Hp : forall k p, (k, p) ∈ picked -> spPendings t !! (c, k) = Some p) by (intros; by eapply Hrows, sublist_subseteq).
  assert (Hndp : NoDup picked.*1) by by eapply sublist_keys.
  assert (Hk : forall k, k ∈ picked.*1 -> exists p, spPendings t !! (c, k) = Some p /\ (spScheduledTime p <= clock (w_step w))%Z).
  { intros k ([k' p] & -> & Hin)%list_elem_of_fmap. exists p. split; [by apply Hp|].
    rewrite Forall_forall in Hdue. by apply (Hdue (k', p)). }
  apply bind_Ok in H as (r & w3 & Hr & H). pose proof (readOnly_tryClientMessages id (clock (w_step w)) picked.*1 w2) as Hd3.
  rewrite Hr in Hd3. cbn in Hd3. apply (tryClientMessages_Ok _ c) in Hr as (Hids & rs & Hkeys & Hndr & Hcl & Hrs); [|by rewrite Hd|done|done|by rewrite Hd].
  rewrite Hd in Hrs. fold t in Hrs.
  apply bind_Ok in H as (e & w4 & Htx & [[= <- <-] <-]%ret_Ok).
  assert (Hcases : claimed c picked.*1 t (dTables (w_data w4)) \/
    is_Some (match e with inl _ => None | inr e => Some e end) /\ dTables (w_data w4) = t).
  { assert (Hw3 : dTables (w_data w3) = t) by by rewrite Hd3, Hd.
    assert (Happ : forall n' t', applyAll r.2 (commitTimestamp n') t = Ok t' -> claimed c picked.*1 t t').
    { intros n' t1 Ha. apply (claims_apply c rs) in Ha as (A & B & C); [|done|done|done]. split; [done|]. split.
      - intros k Hin. apply B. by rewrite Hkeys.
      - intros key Hkey. apply C. intros k Hin. apply Hkey. by rewrite <- Hkeys. }
    apply try_inTxn in Htx. rewrite Hw3 in Htx. destruct Htx as [(n' & Ha)|[[e' ->] ->]]; [left; by eapply Happ|right; by split]. }
  exists (w_step w), picked.*1. split; [done|]. split; [lia|]. split; [done|]. split.
  { intros s Es Hl svc. specialize (Hsvc s Es (fun v => proj2 (Hl v)) (fun v => ltac:(rewrite lookup_empty; cbn; lia)) svc).
    rewrite lookup_empty, (toService_ids t c) in Hsvc by done. specialize (Hl svc). cbn in Hsvc. lia. }
  split; [done|]. by split.
Qed.

(** ** Notifications *)
Lemma try_tryGetMessages keys b r (w w' : World Datastore) :
  try (tryGetMessages keys b) w = (Ok r, w') ->
  w_data w' = w_data w /\ forall ms, r = inl ms -> tryGetMessages keys b w = (Ok ms, w').
Proof using Type.
  intros H. split.
  - pose proof (readOnly_try _ (readOnly_tryGetMessages keys b) w) as Hd. by rewrite H in Hd.
  - intros ms ->. unfold try in H. destruct (tryGetMessages keys b w) as [[] ?]; by simplify_eq.
Qed.

Lemma tryGetMessages_one d b m (w w' : World Datastore) :
  tryGetMessages [Some d] b w = (Ok [m], w') ->
  exists r, spMessages (dTables (w_data w)) !! d = Some r /\ Message.MessageId m = Some d /\ Message.Result m = spResult r.
Proof using HP.
  intros (_ & rows & Hp & Hf)%tryGetMessages_Ok. inversion Hf as [|[k r] ? l ? Hm Hl]; subst. inversion Hl; subst.
  assert (Hin : (k, r) ∈ messagesAt [Some d] (dTables (w_data w))) by (rewrite <- Hp; by left).
  apply elem_of_messagesAt in Hin as [[= ->]%list_elem_of_singleton Hr]. apply messageOfRow_Ok in Hm as (Hi & Hres & _). by exists r.
Qed.

(** C13: a notification is acknowledged only if its message was read and given
    to the processor, and has a result in the tables then. *)
Theorem notification_ack_sound process d w w' :
  onNotification process d w = (Ok true, w') ->
  (exists m w1 w2, Message.MessageId m = Some d /\ w_data w1 = w_data w /\ process [m] w1 = (Ok tt, w2) /\ w_data w' = w_data w2) /\
  exists r, spMessages (dTables (w_data w')) !! d = Some r /\ is_Some (spResult r).
Proof using HP.
  unfold onNotification. intros (r & w1 & [Hd H1]%try_tryGetMessages & H)%bind_Ok.
  destruct r as [[|m [|]]|]; try by apply ret_Ok in H as [? _].
  specialize (H1 _ eq_refl). apply tryGetMessages_one in H1 as (row & _ & Hi & _).
  apply bind_Ok in H as ([] & w2 & Hp & H). apply bind_Ok in H as (r & w3 & [Hd' H3]%try_tryGetMessages & [Hb <-]%ret_Ok).
  destruct r as [[|m' [|]]|]; try done. specialize (H3 _ eq_refl). apply tryGetMessages_one in H3 as (row' & Hr' & _ & Hres).
  split; [by exists m, w1, w2|]. exists row'. rewrite Hd'. split; [done|]. rewrite <- Hres. by apply bool_decide_eq_true in Hb.
Qed.
End Handout.

(** ** The life of the processor

    RegisterMessageProcessor starts a call of Receive with a context of its own;
    Receive takes messages while its context is live and waits for the calls
    that it has begun, which StopMessageProcessor does not. *)
Module Processor.
Record receiver := mkReceiver { cancelled : bool; running : list string }.
Record t := mkProcessor { receivers : list receiver; pubsubCancel : option nat; topic : Topic }.
Definition init (tp : Topic) : t := mkProcessor [] None tp.

Definition cancel (i : option nat) (rs : list receiver) : list receiver :=
  match i with Some i => alter (fun r => mkReceiver true (running r)) i rs | None => rs end.

Definition RegisterMessageProcessor (p : t) : t :=
  let rs := cancel (pubsubCancel p) (receivers p) in
  mkProcessor (rs ++ [mkReceiver false []]) (Some (length rs)) (topic p).

Definition StopMessageProcessor (p : t) : t :=
  mkProcessor (cancel (pubsubCancel p) (receivers p)) None (mkTopic (published (topic p)) true).

Inductive step : t -> t -> Prop :=
| step_register p : step p (RegisterMessageProcessor p)
| step_stop p : step p (StopMessageProcessor p)
| step_deliver p i r m : receivers p !! i = Some r -> cancelled r = false -> m ∈ published (topic p) ->
    step p (mkProcessor (<[i := mkReceiver false (m :: running r)]> (receivers p)) (pubsubCancel p) (topic p))
| step_return p i r m l : receivers p !! i = Some r -> running r ≡ₚ m :: l ->
    step p (mkProcessor (<[i := mkReceiver (cancelled r) l]> (receivers p)) (pubsubCancel p) (topic p)).

(** Only the last one registered takes messages. *)
Definition oneListener (p : t) : Prop :=
  (forall i r, receivers p !! i = Some r -> cancelled r = false -> pubsubCancel p = Some i) /\
  (forall i, pubsubCancel p = Some i -> i < length (receivers p)).

Lemma cancel_length i rs : length (cancel i rs) = length rs.
Proof. destruct i; [apply length_alter|done]. Qed.

Lemma cancel_all p i r :
  oneListener p -> cancel (pubsubCancel p) (receivers p) !! i = Some r -> cancelled r = true.
Proof.
  intros [H _]. destruct (pubsubCancel p) as [j|] eqn:Hj; cbn.
  - destruct (decide (i = j)) as [->|Hne].
    + rewrite list_lookup_alter_eq. destruct (receivers p !! j); [by intros [= <-]|done].
    + rewrite list_lookup_alter_ne by done. intros Hr. destruct (cancelled r) eqn:Hc; [done|].
      specialize (H _ _ Hr Hc). congruence.
  - intros Hr. destruct (cancelled r) eqn:Hc; [done|]. by specialize (H _ _ Hr Hc).
Qed.

Lemma step_oneListener p p' : oneListener p -> step p p' -> oneListener p'.
Proof.
  intros Hp Hs. inversion Hs as [|?|? i r m Hi Hc|? i r m l Hi Hl]; subst.
  - split; cbn.
    + intros i r Hi Hc. apply lookup_app_Some in Hi as [Hi|[Hle Hi]].
      * by rewrite (cancel_all _ _ _ Hp Hi) in Hc.
      * f_equal. destruct (i - _) as [|n] eqn:E; [lia|done].
    + intros i [= <-]. rewrite length_app. cbn. lia.
  - split; [|done]. intros i r Hi Hc. by rewrite (cancel_all _ _ _ Hp Hi) in Hc.
  - destruct Hp as [H1 H2]. split; cbn; [|intros j Hj; rewrite length_insert; by apply H2].
    intros j r' Hj Hc'. destruct (decide (i = j)) as [->|Hne]; [by apply (H1 _ r)|].
    rewrite list_lookup_insert_ne in Hj by done. by apply (H1 _ r').
  - destruct Hp as [H1 H2]. split; cbn; [|intros j Hj; rewrite length_insert; by apply H2].
    intros j r' Hj Hc'. destruct (decide (i = j)) as [->|Hne].
    + rewrite list_lookup_insert_eq in Hj by by eapply lookup_lt_Some. injection Hj as <-. by apply (H1 _ r).
    + rewrite list_lookup_insert_ne in Hj by done. by apply (H1 _ r').
Qed.

(** At every time no more than one receiver takes messages; after a stop none
    does until the next registration, and the topic never takes a message
    again. *)
Lemma reachable_oneListener tp p : rtc step (init tp) p -> oneListener p.
Proof.
  intros H. remember (init tp) as p0 eqn:E. assert (H0 : oneListener p0) by (subst; by split).
  clear E. induction H; [done|]. eauto using step_oneListener.
Qed.

Lemma topic_stays_stopped p p' : rtc step p p' -> topicStopped (topic p) = true -> topicStopped (topic p') = true.
Proof. induction 1 as [|p q r Hs _ IH]; [done|]. intros Ht. apply IH. by inversion Hs; subst. Qed.

(** What db.MessageStore says of StopMessageProcessor, that it returns once all
    calls have completed, does not hold: a call is still running. *)
Example stop_leaves_calls : exists p, rtc step (init (mkTopic ["m1"%string] false)) p /\
  StopMessageProcessor p = mkProcessor [mkReceiver true ["m1"%string]] None (mkTopic ["m1"%string] true).
Proof.
  eexists. split.
  - eapply rtc_l; [apply step_register|]. eapply rtc_once, (step_deliver _ 0 _ "m1"); [done|done|]. cbn. by left.
  - done.
Qed.
End Processor.

(** ** Witnesses, and what goes wrong *)
Definition spannerClient : ClientData.t := ClientData.Mk (Some "key"%string) [Label.Mk "client" "linux"] false.
Definition spannerMessages : list Message.t := [sampleMessage 1 exampleClientID None; sampleMessage 2 ClientID.nil None].
Definition spannerEmpty : World Datastore := mkWorld (mkDatastore emptyTables (mkTopic [] false)) 0.
Definition spannerWorld : World Datastore :=
  runOk (StoreMessages spannerMessages "") (runOk (AddClient exampleClientID spannerClient) spannerEmpty).
Definition k1 : string := bytesOfNat 1 32.
Definition k2 : string := bytesOfNat 2 32.
Definition statusIn (w : World Datastore) (k : string) : status := spStatus (dTables (w_data w)) k.

(** A failure to process a message for the server is written over its success,
    which db.MessageStore excludes. *)
Example failure_over_success :
  let done := runOk (StoreMessages [sampleMessage 2 ClientID.nil (Some (sampleResult false))] "") spannerWorld in
  let again := runOk (StoreMessages [sampleMessage 2 ClientID.nil (Some (sampleResult true))] "") done in
  stage (statusIn done k2) = Some (Some false) /\ stage (statusIn again k2) = Some (Some true) /\
  stage (contractMerge (statusIn done k2) (Some (sampleResult true))) = Some (Some false).
Proof. split_and!; vm_compute; reflexivity. Qed.

(** Twice in one batch, where the reads do not see what is written: the failure
    that comes last stays. *)
Example failure_last_in_batch :
  stage (statusIn (runOk (StoreMessages [sampleMessage 1 exampleClientID (Some (sampleResult false));
    sampleMessage 1 exampleClientID (Some (sampleResult true))] "") spannerWorld) k1) = Some (Some true) /\
  stage (statusIn spannerWorld k1) = Some None.
Proof. split; vm_compute; reflexivity. Qed.

(** A blind store does not look at the contact: what is no contact id is no
    error, and no message is linked. *)
Example blind_store_ignores_contact :
  let r := StoreMessages [sampleMessage 2 ClientID.nil (Some (sampleResult false))] "no contact id" spannerWorld in
  fst r = Ok tt /\ spContactMessages (dTables (w_data (snd r))) = ∅ /\
  (exists e, fst (StoreMessages [sampleMessage 2 ClientID.nil None] "no contact id" spannerWorld) = Err e).
Proof. split_and!; try (vm_compute; reflexivity). eexists. vm_compute. reflexivity. Qed.

(** Two connections of a client: both have read what is due before either
    commits; both commit, and both have the message. *)
Definition connectionReads : outcome (list Message.t * list mutation) :=
  fst ((t ← now; keys ← selectMessages exampleClientID t 10 None; tryClientMessagesForProcessing exampleClientID t keys)
    (mkWorld (w_data spannerWorld) 100)).
Example both_connections_claim :
  match connectionReads with
  | Ok (msgs, mus) =>
      let first := inTxn (BufferWrite mus) (mkWorld (w_data spannerWorld) 200) in
      let second := inTxn (BufferWrite mus) (snd first) in
      map Message.MessageId msgs = [Some k1] /\ fst first = Ok tt /\ fst second = Ok tt /\
      (spRetryCount <$> (spPendings (dTables (w_data (snd second))) !! (contents (ClientID.Bytes exampleClientID), k1))) = Some 1%Z
  | _ => False
  end.
Proof. vm_compute. by split_and!. Qed.

(** Data with an empty value: its type is lost. *)
Definition emptyValued : Message.t := Message.setData (Some (Any.Mk "url" (Some ""%string))) (sampleMessage 3 ClientID.nil None).
Example empty_value_loses_type :
  let r := StoreMessages [emptyValued] "" spannerWorld in
  fst r = Ok tt /\
  (ms ← fst (GetMessages [sampleID 3] true (snd r)); Ok (map Message.Data ms)) = Ok [None].
Proof. split; vm_compute; reflexivity. Qed.

(** As the test library, with reads that fail at once at some steps. *)
Definition CutAt (cut : nat -> bool) : SpannerEngine := {|
  strFits := strFits (SpannerEngine := TestSpanner);
  bufferFault _ := None;
  spRowsCut n := if cut n then Some (0, 14%Z) else None;
  commitTimestamp := commitTimestamp (SpannerEngine := TestSpanner);
  spCommitLost _ := false;
  spRuns _ := 3;
  publishLost _ := false;
|}.

(** What is pending cannot be read, nothing is deleted, and DeletePendingMessages
    reports success. *)
Example delete_reports_success :
  let r := DeletePendingMessages (E := CutAt (fun _ => true)) [exampleClientID] spannerWorld in
  fst r = Ok tt /\ spPendings (dTables (w_data (snd r))) = spPendings (dTables (w_data spannerWorld)) /\
  size (spPendings (dTables (w_data spannerWorld))) = 1.
Proof. split_and!; vm_compute; reflexivity. Qed.

(** As the test platform, with an error in one call of the database. *)
Definition FaultAt (n : nat) : Platform := {|
  clock := clock (Platform := TestPlatform);
  randRead := randRead (Platform := TestPlatform);
  serverRetryDelay := serverRetryDelay (Platform := TestPlatform);
  sha256 := sha256 (Platform := TestPlatform);
  deliver _ _ l := l;
  tieBreak _ _ l := l;
  sqlFault m := if m =? n then Some codeUnknown else None;
|}.

(** The message is announced before it is committed, and then it is not. *)
Example announced_not_stored :
  let r := StoreMessages (P := FaultAt 105) [sampleMessage 3 ClientID.nil None] "" (mkWorld (w_data spannerWorld) 100) in
  fst r = Err (ErrIO codeUnknown) /\ published (dTopic (w_data (snd r))) = [k2; bytesOfNat 3 32] /\
  statusIn (snd r) (bytesOfNat 3 32) = Absent.
Proof. split_and!; vm_compute; reflexivity. Qed.

(** After StopMessageProcessor the topic takes nothing: the message is stored
    and nobody is told. *)
Definition stoppedWorld : World Datastore :=
  let d := w_data spannerWorld in
  mkWorld (mkDatastore (dTables d) (Processor.topic (Processor.StopMessageProcessor (Processor.init (dTopic d))))) 100.
Example stopped_topic_silent :
  let r := StoreMessages [sampleMessage 3 ClientID.nil None] "" stoppedWorld in
  fst r = Ok tt /\ statusIn (snd r) (bytesOfNat 3 32) = Present None /\ published (dTopic (w_data (snd r))) = [k2].
Proof. split_and!; vm_compute; reflexivity. Qed.
