(* ===== verification/SpannerBroadcasts.v ===== *)
(** * The Spanner datastore: broadcasts and files

    src/server/spanner/broadcaststore.go and src/server/spanner/filestore.go,
    operation by operation.  Counters are 64-bit signed columns, seen as
    unsigned by the arithmetic of allocations (Db.v); their invariant is that
    of the other stores (Ledger.v). *)
From Stdlib Require Import SpecFloat.
From S2P Require Import Prelude Platform Ids Proto Db Sqlite SqliteMessages SqliteClients Ledger SqliteBroadcasts.
From S2P Require Import Spanner SpannerClients SpannerMessages.

Section Broadcasts.
Context `{P : Platform} `{L : ProtoLib} `{E : SpannerEngine} `{F : FloatConv}.

(** ** Mutations *)

(** InsertOrUpdate; the key is the id in the proto. *)
Definition putBroadcast (b : option Broadcast.t) (sent allocated limit : Z) : mutation := fun _ t =>
  b ← notNull b;
  Ok (setSpBroadcasts (<[contents (Broadcast.BroadcastId b) := mkSpBroadcast (wireBroadcast b) sent allocated limit]>
        (spBroadcasts t)) t).

Definition updateBroadcast (id : gobytes) (f : spBroadcast -> spBroadcast) : mutation := fun _ t =>
  match id with
  | None => notFound
  | Some k =>
      match spBroadcasts t !! k with
      | None => notFound
      | Some b => Ok (setSpBroadcasts (<[k := f b]> (spBroadcasts t)) t)
      end
  end.

Definition setSpLimit (limit : Z) (b : spBroadcast) := mkSpBroadcast (spBroadcastProto b) (spSent b) (spAllocated b) limit.
Definition setSpSent (sent : Z) (b : spBroadcast) := mkSpBroadcast (spBroadcastProto b) sent (spAllocated b) (spMessageLimit b).
Definition setSpAllocated (n : Z) (b : spBroadcast) := mkSpBroadcast (spBroadcastProto b) (spSent b) n (spMessageLimit b).

Definition deleteAllocations (id : gobytes) (aids : list string) : mutation := fun _ t =>
  Ok (match id with
      | None => t
      | Some k => setSpAllocations (filter (fun ka => ~ (ka.1.1 = k /\ ka.1.2 ∈ aids)) (spAllocations t)) t
      end).

(** InsertOrUpdate of all columns. *)
Definition putAllocation (id aid : gobytes) (a : spAllocation) : mutation := fun _ t =>
  k ← notNull id;
  aid ← bytesNotNull 8 aid;
  _ ← parent (bool_decide (is_Some (spBroadcasts t !! k)));
  Ok (setSpAllocations (<[(k, aid) := a]> (spAllocations t)) t).

Definition updateAllocation (id aid : gobytes) (sent : Z) : mutation := fun _ t =>
  match id, aid with
  | Some k, Some aid =>
      match spAllocations t !! (k, aid) with
      | None => notFound
      | Some a => Ok (setSpAllocations (<[(k, aid) := mkSpAllocation sent (spAllocLimit a) (spExpiresTime a)]> (spAllocations t)) t)
      end
  | _, _ => notFound
  end.

Definition putSent (bid cid : gobytes) : mutation := fun _ t =>
  b ← notNull bid;
  c ← bytesNotNull 8 cid;
  _ ← parent (bool_decide (is_Some (spClients t !! c)));
  Ok (setSpSents ({[(c, b)]} ∪ spSents t) t).

(** ** Creating and disabling *)
Definition tryCreateBroadcast (b : option Broadcast.t) (limit : Z) : Txn unit :=
  let group := match b with Some b => Broadcast.GroupName b | None => ""%string end in
  if negb (String.eqb group "") then
    fail (ErrWrap "broadcast replacement feature is not supported by the spanner datastore" ErrNotSupported)
  else BufferWrite [putBroadcast b 0 0 (wrapI64 limit)].
Definition CreateBroadcast (b : option Broadcast.t) (limit : Z) : Sp unit := inTxn (tryCreateBroadcast b limit).

Definition trySetBroadcastLimit (id : BroadcastID.t) (limit : Z) : Txn unit :=
  BufferWrite [updateBroadcast (BroadcastID.Bytes id) (setSpLimit (wrapI64 limit))].
Definition SetBroadcastLimit (id : BroadcastID.t) (limit : Z) : Sp unit := inTxn (trySetBroadcastLimit id limit).

Definition broadcastAt (id : gobytes) (t : Tables) : option spBroadcast := k ← id; spBroadcasts t !! k.
Definition allocationAt (id aid : gobytes) (t : Tables) : option spAllocation :=
  k ← id; a ← aid; spAllocations t !! (k, a).
Definition allocationsIn (id : gobytes) (t : Tables) : list (string * (Z * Z)) :=
  (fun ka : string * string * spAllocation => (ka.1.2, (spAllocSent ka.2, spAllocLimit ka.2))) <$>
    filter (fun ka => Some ka.1.1 = id) (map_to_list (spAllocations t)).

(** spanner.ErrCode(err) == codes.NotFound *)
Definition codeIsNotFound (e : goerror) : bool := (ErrCode e =? codeNotFound)%Z.

Definition disabledCounters (sent allocated : Z) (b : spBroadcast) : spBroadcast :=
  mkSpBroadcast (spBroadcastProto b) sent allocated 0.

(** One round of tryDisableBroadcasts. *)
Definition disableOne (id : gobytes) : Txn unit :=
  rows ← rowsOf (allocationsIn id);
  rowsErr rows.2 ≫= fun _ =>
  let totals := foldl (fun (t : Z * Z) (r : string * (Z * Z)) => (wrapI64 (t.1 + r.2.1), wrapI64 (t.2 + r.2.2))) (0, 0)%Z rows.1 in
  e ← try (ReadRow (broadcastAt id));
  match e with
  | inr e => if codeIsNotFound e then mret tt else fail e
  | inl b =>
      let newAllocated := if (totals.2 <=? spAllocated b)%Z then wrapI64 (spAllocated b - totals.2) else 0%Z in
      BufferWrite ((if decide (rows.1 = []) then [] else [deleteAllocations id rows.1.*1]) ++
        [updateBroadcast id (disabledCounters (wrapI64 (spSent b + totals.1)) newAllocated)])
  end.
Definition tryDisableBroadcasts (ids : list BroadcastID.t) : Txn unit := forM_ ids (fun id => disableOne (BroadcastID.Bytes id)).
Definition DisableBroadcasts (ids : list BroadcastID.t) : Sp unit :=
  if decide (ids = []) then mret tt else inTxn (tryDisableBroadcasts ids).

(** ** Sending *)
Definition orBroadcastDisabled {A} (m : Txn A) : Txn A :=
  e ← try m;
  match e with inl a => mret a | inr e => if codeIsNotFound e then fail ErrBroadcastDisabled else fail e end.

Definition trySaveBroadcastMessage (msg : Message.t) (bid : BroadcastID.t) (cid : ClientID.t) (aid : AllocationID.t) : Txn unit :=
  let b := BroadcastID.Bytes bid in
  let sent := putSent b (ClientID.Bytes cid) in
  let a := AllocationID.Bytes aid in
  tryStoreMessage msg true ≫= fun _ =>
  if decide (blen a = 0) then
    r ← orBroadcastDisabled (ReadRow (broadcastAt b));
    if (spMessageLimit r =? 0)%Z then fail ErrBroadcastDisabled else BufferWrite [sent]
  else
    r ← orBroadcastDisabled (ReadRow (allocationAt b a));
    if (spAllocLimit r <=? spAllocSent r)%Z then fail (ErrText "SaveBroadcastMessage: broadcast allocation is full")
    else
      match tspbCheckValid (spExpiresTime r) with
      | Some _ => fail (ErrText "SaveBroadcastMessage: unable to convert ExpiresTime for broadcast allocation")
      | None =>
          t ← now;
          if (tspbAsTime (spExpiresTime r) <? t)%Z then fail (ErrText "SaveBroadcastMessage: broadcast allocation is expired")
          else BufferWrite [sent; updateAllocation b a (wrapI64 (spAllocSent r + 1))]
      end.
Definition SaveBroadcastMessage (msg : Message.t) (bid : BroadcastID.t) (cid : ClientID.t) (aid : AllocationID.t) : Sp unit :=
  inTxn (trySaveBroadcastMessage msg bid cid aid).

(** ** Listing *)
Definition activeBroadcast (nowSec : Z) (b : spBroadcast) : bool :=
  (spSent b <? spMessageLimit b)%Z &&
  match Broadcast.ExpirationTime (spBroadcastProto b) with
  | None => true
  | Some e => (nowSec <? Timestamp.Seconds e)%Z
  end.
Definition infoOf (b : spBroadcast) : BroadcastInfo.t :=
  BroadcastInfo.Mk (spBroadcastProto b) (wrapU64 (spSent b)) (wrapU64 (spMessageLimit b)).
Definition ListActiveBroadcasts : Sp (list BroadcastInfo.t) :=
  n ← NowProto;
  readRows (fun t => filter (fun b => activeBroadcast (Timestamp.Seconds n) b = true) (snd <$> map_to_list (spBroadcasts t)))
    (fun b => mret (infoOf b)).

Definition ListSentBroadcasts (id : ClientID.t) : Sp (list BroadcastID.t) :=
  readRows (fun t => snd <$> filter (fun cb => Some cb.1 = ClientID.Bytes id) (elements (spSents t)))
    (fun b => lift (BroadcastID.BytesToBroadcastID (Some b))).

(** ** Allocations *)
Definition tryCreateAllocation (id : BroadcastID.t) (frac : spec_float) (expiry : Z) : Txn (option AllocationInfo.t) :=
  let ep := tspbNew expiry in
  match tspbCheckValid ep with
  | Some e => fail e
  | None =>
      aid ← AllocationID.RandomAllocationID;
      b ← ReadRow (broadcastAt (BroadcastID.Bytes id));
      let '(toAllocate, newAllocated) :=
        ComputeBroadcastAllocation (wrapU64 (spMessageLimit b)) (wrapU64 (spAllocated b)) (wrapU64 (spSent b)) frac in
      if (toAllocate =? 0)%Z then mret None
      else
        BufferWrite [updateBroadcast (BroadcastID.Bytes id) (setSpAllocated (wrapI64 newAllocated));
                     putAllocation (BroadcastID.Bytes id) (AllocationID.Bytes aid) (mkSpAllocation 0 (wrapI64 toAllocate) ep)] ≫= fun _ =>
        mret (Some (AllocationInfo.Mk aid toAllocate expiry))
  end.
Definition CreateAllocation (id : BroadcastID.t) (frac : spec_float) (expiry : Z) : Sp (option AllocationInfo.t) :=
  r ← ReadWriteTransaction (tryCreateAllocation id frac expiry); mret r.1.

Definition tryCleanupAllocation (bid : BroadcastID.t) (aid : AllocationID.t) (finalSent : Z) : Txn unit :=
  let bb := BroadcastID.Bytes bid in
  let ab := AllocationID.Bytes aid in
  b ← ReadRow (broadcastAt bb);
  let sent := wrapI64 (spSent b + wrapI64 finalSent) in
  if decide (blen ab = 0) then BufferWrite [updateBroadcast bb (setSpSent sent)]
  else
    e ← try (ReadRow (allocationAt bb ab));
    match e with
    | inr e => if codeIsNotFound e then mret tt else fail e
    | inl a =>
        match ComputeBroadcastAllocationCleanup (wrapU64 (spAllocLimit a)) (wrapU64 (spAllocated b)) with
        | Ok newAllocated =>
            BufferWrite [updateBroadcast bb (fun b => setSpAllocated (wrapI64 newAllocated) (setSpSent sent b));
                         deleteAllocations bb [contents ab]]
        | _ => fail (ErrText "unable to clear allocation")
        end
    end.
Definition CleanupAllocation (bid : BroadcastID.t) (aid : AllocationID.t) (finalSent : Z) : Sp unit :=
  inTxn (tryCleanupAllocation bid aid finalSent).

(** ** Files *)
Definition putFile (service name : string) (modified : Timestamp.t) (data : string) : mutation := fun _ t =>
  s ← stringCol 128 service;
  n ← stringCol 256 name;
  Ok (setSpFiles (<[(s, n) := (Some modified, Some data)]> (spFiles t)) t).
Definition deleteFile (service name : string) : mutation := fun _ t => Ok (setSpFiles (delete (service, name) (spFiles t)) t).

(** What io.ReadAll makes of the reader is an argument. *)
Definition StoreFile (service name : string) (data : outcome string) : Sp unit :=
  b ← lift data;
  inTxn (n ← NowProto; BufferWrite [putFile service name n b]).
Definition DeleteFile (service name : string) : Sp unit := inTxn (BufferWrite [deleteFile service name]).

(** The time of a file that was read. *)
Definition fileTime (modified : option Timestamp.t) : outcome Z :=
  match modified with
  | None => Err (ErrText "Null proto message cannot be decoded")
  | Some ts => match tspbCheckValid ts with Some e => Err e | None => Ok (tspbAsTime ts) end
  end.
Definition StatFile (service name : string) : Sp Z :=
  r ← ReadRow (fun t => spFiles t !! (service, name)); lift (fileTime r.1).
Definition ReadFile (service name : string) : Sp (string * Z) :=
  r ← ReadRow (fun t => spFiles t !! (service, name));
  m ← lift (fileTime r.1);
  mret (contents r.2, m).
End Broadcasts.

(** ** The ledger *)
Definition viewB (b : spBroadcast) : broadcastRow :=
  mkBroadcastRow "" None "" None None None None (wrapU64 (spSent b)) (spAllocated b) (spMessageLimit b).
Definition viewA (a : spAllocation) : allocationRow := mkAllocationRow (spAllocSent a) (spAllocLimit a) 0 0.

Definition spOutstanding (k : string) (t : Tables) : Z := outstanding k (viewA <$> spAllocations t).
Definition spLedger (t : Tables) : Prop :=
  ledgerOn (fun _ => True) u64_max (viewB <$> spBroadcasts t) (viewA <$> spAllocations t).

Lemma spLedger_empty : spLedger emptyTables.
Proof. unfold spLedger. cbn. rewrite !fmap_empty. apply ledgerOn_empty. Qed.

Lemma sp_counters : (i64_max <= u64_max <= u64_max)%Z.
Proof. done. Qed.

(** One row of a table and its view. *)
Lemma view_update `{Countable K} {A B} (view : A -> B) g (k : K) (m : gmap K A) x y :
  m !! k = Some x -> g (view x) = view y -> view <$> <[k := y]> m = alter g k (view <$> m).
Proof.
  intros Hk Hg. apply map_eq. intros j. rewrite lookup_fmap, lookup_insert, lookup_alter, !lookup_fmap.
  case_decide as Hj; [|done]. subst. rewrite Hk. cbn. congruence.
Qed.
Lemma foldl_wrapI64 {A} (f g : A -> Z) (l : list A) x y :
  (- 2 ^ 63 <= x < 2 ^ 63)%Z -> (- 2 ^ 63 <= y < 2 ^ 63)%Z ->
  foldl (fun (t : Z * Z) a => (wrapI64 (t.1 + f a), wrapI64 (t.2 + g a))) (x, y) l =
    (wrapI64 (x + sumZ (f <$> l)), wrapI64 (y + sumZ (g <$> l))).
Proof.
  revert x y. induction l as [|a l IH]; intros x y Hx Hy; simpl; [by rewrite !Z.add_0_r, !wrapI64_small|].
  rewrite IH by apply wrapI64_range. rewrite !Z.add_assoc.
  assert (Hw : forall u v, wrapI64 (wrapI64 u + v) = wrapI64 (u + v)); [|by rewrite !Hw].
  intros u v. unfold wrapI64. f_equal.
  replace ((u + 2 ^ 63) mod 2 ^ 64 - 2 ^ 63 + v + 2 ^ 63)%Z with ((u + 2 ^ 63) mod 2 ^ 64 + v)%Z by lia.
  rewrite Z.add_mod_idemp_l by done. f_equal. lia.
Qed.

Lemma wrapU64_counter_range z : (0 <= wrapU64 z <= u64_max)%Z.
Proof. pose proof (wrapU64_range z) as H. unfold isU64, u64_max in *. lia. Qed.

Section LedgerKept.
Context `{P : Platform} {HP : PlatformOK P} `{L : ProtoLib} `{E : SpannerEngine} `{F : FloatConv} {HF : FloatConvOK F}.

Lemma applyAll_one m ts t t' : applyAll [m] ts t = Ok t' -> m ts t = Ok t'.
Proof using Type. cbn [applyAll]. by intros (t1 & H & [= <-])%outcome_bind_Ok. Qed.
Lemma applyAll_cons m ms ts t t' : applyAll (m :: ms) ts t = Ok t' -> exists t1, m ts t = Ok t1 /\ applyAll ms ts t1 = Ok t'.
Proof using Type. cbn [applyAll]. by intros (t1 & H & H')%outcome_bind_Ok; exists t1. Qed.

Lemma updateBroadcast_Ok id f ts t t' :
  updateBroadcast id f ts t = Ok t' ->
  exists k b, id = Some k /\ spBroadcasts t !! k = Some b /\ t' = setSpBroadcasts (<[k := f b]> (spBroadcasts t)) t.
Proof using Type.
  unfold updateBroadcast. destruct id as [k|]; [|done]. destruct (spBroadcasts t !! k) as [b|] eqn:Hb; [|done].
  intros [= <-]. by exists k, b.
Qed.

(** A new broadcast. *)
Lemma ledger_create b limit ts t t' :
  spLedger t -> (0 <= limit <= i64_max)%Z ->
  (forall b0, b = Some b0 -> spBroadcasts t !! contents (Broadcast.BroadcastId b0) = None) ->
  putBroadcast b 0 0 (wrapI64 limit) ts t = Ok t' -> spLedger t'.
Proof using Type.
  intros Hl Hlim Hf H. unfold putBroadcast in H. apply outcome_bind_Ok in H as (b0 & Hb & [= <-]). apply spNotNull_Ok in Hb.
  unfold spLedger in *. cbn. rewrite fmap_insert. rewrite wrapI64_small by (unfold i64_max in *; lia).
  apply (ledgerOn_fresh _ _ sp_counters); [done| |done|done|done|done]. by rewrite lookup_fmap, (Hf b0 Hb).
Qed.

Lemma ledger_counters t k b : spLedger t -> spBroadcasts t !! k = Some b ->
  (0 <= spAllocated b <= spMessageLimit b /\ spMessageLimit b <= i64_max)%Z.
Proof using Type.
  intros Hl Hb. assert (Hv : (viewB <$> spBroadcasts t) !! k = Some (viewB b)) by (by rewrite lookup_fmap, Hb).
  pose proof (l_counters _ _ _ _ Hl _ _ Hv) as H. cbn in H. lia.
Qed.

(** A limit that leaves room for what is allocated. *)
Lemma ledger_limit id limit ts t t' :
  spLedger t ->
  (forall b, broadcastAt id t = Some b ->
     (spAllocated b <= limit <= i64_max)%Z /\ limit <> BroadcastUnlimited /\ spMessageLimit b <> BroadcastUnlimited) ->
  updateBroadcast id (setSpLimit (wrapI64 limit)) ts t = Ok t' -> spLedger t'.
Proof using Type.
  intros Hl Hg H. apply updateBroadcast_Ok in H as (k & b & -> & Hb & ->). destruct (Hg b Hb) as (Hlim & Hu & Hu').
  pose proof (ledger_counters _ _ _ Hl Hb) as Hc. unfold spLedger in *. cbn. rewrite wrapI64_small by (unfold i64_max in *; lia).
  rewrite (view_update viewB (setCounters (wrapU64 (spSent b)) (spAllocated b) limit) k _ b) by done.
  assert (Hv : (viewB <$> spBroadcasts t) !! k = Some (viewB b)) by (by rewrite lookup_fmap, Hb).
  apply (ledgerOn_update _ _ _ (viewA <$> spAllocations t) _ _ (viewB b)); cbn; try done; try lia.
  - apply wrapU64_counter_range.
  - apply (l_alloc _ _ _ _ Hl).
  - intros j a Ha. right. by eexists.
  - intros _. by apply (l_sum _ _ _ _ Hl _ _ Hv).
Qed.

(** Counting what was sent without an allocation. *)
Lemma ledger_count id sent ts t t' :
  spLedger t -> updateBroadcast id (setSpSent sent) ts t = Ok t' -> spLedger t'.
Proof using Type.
  intros Hl H. apply updateBroadcast_Ok in H as (k & b & -> & Hb & ->). unfold spLedger in *. cbn.
  rewrite (view_update viewB (fun b => setCounters (wrapU64 sent) (b_allocated b) (b_messageLimit b) b) k _ b) by done.
  apply (ledgerOn_count _ _ _ _ _ (viewB b)); [done|by rewrite lookup_fmap, Hb|apply wrapU64_counter_range].
Qed.

(** *** Disabling *)
Lemma allocationsIn_perm k t :
  (allocationsIn (Some k) t).*2 ≡ₚ (fun a => (a_sent a, a_message_limit a)) <$> allocationsOf k (viewA <$> spAllocations t).
Proof using Type.
  unfold allocationsIn, allocationsOf. rewrite map_to_list_fmap. rewrite <- !list_fmap_compose.
  induction (map_to_list (spAllocations t)) as [|[[k' aid] a] l IH]; [done|]. cbn.
  repeat case_decide; simplify_eq; cbn; by rewrite IH || done.
Qed.

Lemma elem_of_allocationsIn k t aid v :
  (aid, v) ∈ allocationsIn (Some k) t <-> exists a, spAllocations t !! (k, aid) = Some a /\ v = (spAllocSent a, spAllocLimit a).
Proof using Type.
  unfold allocationsIn. rewrite list_elem_of_fmap. split.
  - intros ([[k' aid'] a] & [= -> ->] & [[= ->] Hin]%list_elem_of_filter). apply elem_of_map_to_list in Hin. by exists a.
  - intros (a & Ha & ->). exists ((k, aid), a). split; [done|]. apply list_elem_of_filter. split; [done|].
    by apply elem_of_map_to_list.
Qed.

(** What one round finds and writes. *)
Lemma sp_disableOne_Ok id w u w' :
  disableOne id w = (Ok u, w') ->
  let t := sTables (w_data w) in
  sTables (w_data w') = t /\
  (sWrites (w_data w') = sWrites (w_data w) \/
   exists k b aids sent, id = Some k /\ spBroadcasts t !! k = Some b /\
     (forall aid, aid ∈ aids <-> is_Some (spAllocations t !! (k, aid))) /\
     let total := wrapI64 (spOutstanding k t) in
     let new := if (total <=? spAllocated b)%Z then wrapI64 (spAllocated b - total) else 0%Z in
     sWrites (w_data w') = sWrites (w_data w) ++ (if decide (aids = []) then [] else [deleteAllocations id aids]) ++
       [updateBroadcast id (disabledCounters sent new)]).
Proof using HP.
  intros H t. unfold disableOne in H. apply bind_Ok in H as (rows & w1 & H1 & H). apply sp_rowsOf_Ok in H1 as [Hd Hrows]; [|done].
  apply bind_Ok in H as (? & w2 & [He ->]%sp_rowsErr_Ok & H). rewrite He in Hrows. cbv zeta in H.
  unfold tablesOf, session_tables in Hrows. fold t in Hrows.
  apply bind_Ok in H as (e & w3 & H3 & H). apply try_Ok in H3. destruct e as [b|e].
  - apply ReadRow_Ok in H3 as [Hd3 Hb]. rewrite Hd in Hb. unfold tablesOf, session_tables in Hb. fold t in Hb.
    destruct id as [k|]; [|done]. apply BufferWrite_Ok in H as [HT HW]. rewrite Hd3, Hd in HT, HW. split; [done|]. right.
    exists k, b, rows.1.*1. eexists. split; [done|]. split; [done|]. split.
    { intros aid. rewrite list_elem_of_fmap. split.
      - intros ([aid' v] & -> & Hin). rewrite Hrows in Hin. apply elem_of_allocationsIn in Hin as (a & Ha & _). by exists a.
      - intros [a Ha]. exists (aid, (spAllocSent a, spAllocLimit a)). split; [done|]. rewrite Hrows. apply elem_of_allocationsIn. by exists a. }
    rewrite HW. f_equal. rewrite (foldl_wrapI64 (fun r => r.2.1) (fun r => r.2.2)) by done. cbn [fst snd]. rewrite !Z.add_0_l.
    assert (Hsum : sumZ ((fun r => r.2.2) <$> rows.1) = spOutstanding k t).
    { unfold spOutstanding, outstanding. rewrite Hrows.
      transitivity (sumZ (snd <$> (allocationsIn (Some k) t).*2)); [by rewrite <- list_fmap_compose|].
      by rewrite allocationsIn_perm, <- list_fmap_compose. }
    rewrite Hsum. f_equal. destruct rows.1; [done|]. by rewrite !decide_False.
  - assert (Hro : w_data w3 = w_data w1).
    { pose proof (readOnly_ReadRow (broadcastAt id) w1) as Hr. by rewrite H3 in Hr. }
    destruct (codeIsNotFound e); [|done]. apply ret_Ok in H as [_ <-]. rewrite Hro, Hd. split; [done|]. by left.
Qed.

(** Disabled at the counters read: while a transaction commits, a broadcast has
    them, or is disabled already. *)
Definition fewer (t t0 : Tables) : Prop :=
  spLedger t0 /\ forall key, is_Some (spAllocations t0 !! key) -> is_Some (spAllocations t !! key).

Definition disables (t : Tables) (ms : list mutation) : Prop :=
  forall ts t0 t1, fewer t t0 -> applyAll ms ts t0 = Ok t1 -> fewer t t1.

(** Only for an unlimited broadcast can the limits of the allocations add up to
    more than a column holds. *)
Definition noOverflow (id : gobytes) (t : Tables) : Prop :=
  forall k b, id = Some k -> spBroadcasts t !! k = Some b -> spMessageLimit b = BroadcastUnlimited ->
    (0 <= wrapI64 (spOutstanding k t))%Z.

Lemma disabled_is_zero k b t :
  spLedger t -> spBroadcasts t !! k = Some b -> noOverflow (Some k) t ->
  let total := wrapI64 (spOutstanding k t) in
  (if (total <=? spAllocated b)%Z then wrapI64 (spAllocated b - total) else 0%Z) = 0%Z.
Proof using Type.
  intros Hl Hb Hno total. assert (Hv : (viewB <$> spBroadcasts t) !! k = Some (viewB b)) by (by rewrite lookup_fmap, Hb).
  pose proof (ledger_counters _ _ _ Hl Hb) as Hc.
  destruct (decide (spMessageLimit b = BroadcastUnlimited)) as [Hu|Hu].
  - pose proof (l_unlimited _ _ _ _ Hl _ _ Hv Hu) as H0. cbn in H0. rewrite H0. specialize (Hno k b eq_refl Hb Hu). fold total in Hno.
    destruct (Z.leb_spec total 0); [|done]. by replace total with 0%Z by lia.
  - pose proof (l_sum _ _ _ _ Hl _ _ Hv Hu) as H0. cbn in H0. fold (spOutstanding k t) in H0. unfold total. rewrite <- H0.
    rewrite wrapI64_small by (unfold i64_max in *; lia). rewrite Z.leb_refl, Z.sub_diag. done.
Qed.

Lemma view_filter (k : string) (m : gmap (string * string) spAllocation) :
  viewA <$> filter (fun ka : string * string * spAllocation => ka.1.1 <> k) m =
    filter (fun ka : string * string * allocationRow => ka.1.1 <> k) (viewA <$> m).
Proof using Type.
  apply map_eq. intros key. apply option_eq. intros a. rewrite lookup_fmap, fmap_Some, map_lookup_filter_Some. cbn.
  rewrite lookup_fmap, fmap_Some. split.
  - intros (x & [Hx HQ]%map_lookup_filter_Some & ->). split; [by exists x|done].
  - intros [(x & Hx & ->) HQ]. exists x. split; [|done]. by apply map_lookup_filter_Some.
Qed.

Lemma ledger_disabled k b s t :
  spLedger t -> spBroadcasts t !! k = Some b ->
  spLedger (setSpBroadcasts (<[k := disabledCounters s 0 b]> (spBroadcasts t))
    (setSpAllocations (filter (fun ka : string * string * spAllocation => ka.1.1 <> k) (spAllocations t)) t)).
Proof using Type.
  intros Hl Hb. unfold spLedger in *. cbn. assert (Hv : (viewB <$> spBroadcasts t) !! k = Some (viewB b)) by (by rewrite lookup_fmap, Hb).
  rewrite (view_update viewB (setCounters (wrapU64 s) 0 0) k _ b) by done.
  rewrite view_filter.
  apply (ledgerOn_update _ _ _ (viewA <$> spAllocations t) _ _ (viewB b)); cbn; try done.
  - apply wrapU64_counter_range.
  - intros key a [Ha _]%map_lookup_filter_Some. exact (l_alloc _ _ _ _ Hl key a Ha).
  - intros key a [Ha _]%map_lookup_filter_Some. right. by eexists.
  - intros k' Hne. unfold outstanding. by rewrite allocationsOf_filter, decide_False.
  - intros _. unfold outstanding. by rewrite allocationsOf_filter, decide_True.
Qed.

Lemma disableOne_disables id w u w' :
  let t := sTables (w_data w) in
  spLedger t -> noOverflow id t -> disableOne id w = (Ok u, w') ->
  sTables (w_data w') = t /\ exists ms, sWrites (w_data w') = sWrites (w_data w) ++ ms /\ disables t ms.
Proof using HP.
  intros t Hl Hno H. apply sp_disableOne_Ok in H as [HT H]. split; [done|]. fold t in H.
  destruct H as [->|(k & b & aids & s & -> & Hb & Haids & ->)].
  { exists []. rewrite app_nil_r. split; [done|]. by intros ts t0 t1 H [= <-]. }
  eexists. split; [done|]. cbv zeta. rewrite disabled_is_zero by done. intros ts t0 t1 [Hl0 Hf] Ha.
  assert (Hdel : forall t2, (exists b, spBroadcasts t2 !! k = Some b) -> spLedger t2 -> (forall aid, is_Some (spAllocations t2 !! (k, aid)) -> aid ∈ aids) ->
    filter (fun ka => ~ (ka.1.1 = k /\ ka.1.2 ∈ aids)) (spAllocations t2) = filter (fun ka => ka.1.1 <> k) (spAllocations t2)).
  { intros t2 _ _ Hin. apply map_filter_ext. intros [k' aid] a Hka. cbn. split; [|by intros Hne [-> _]].
    intros Hn ->. apply Hn. split; [done|]. apply Hin. by exists a. }
  assert (Hin0 : forall aid, is_Some (spAllocations t0 !! (k, aid)) -> aid ∈ aids) by (intros aid Hx; by apply Haids, Hf).
  rewrite applyAll_app in Ha. apply outcome_bind_Ok in Ha as (t2 & H1 & H2).
  apply applyAll_one, updateBroadcast_Ok in H2 as (k' & b0 & [= <-] & Hb0 & ->).
  assert (Ht2 : t2 = setSpAllocations (filter (fun ka => ka.1.1 <> k) (spAllocations t0)) t0).
  { case_decide as Hn.
    - injection H1 as <-. destruct t0. cbn in *. unfold setSpAllocations. cbn. f_equal. symmetry. apply map_filter_id.
      intros [k' aid] a Hka. cbn. intros ->. assert (Hx : aid ∈ aids) by (apply Hin0; by exists a). rewrite Hn in Hx.
      by apply not_elem_of_nil in Hx.
    - cbn in H1. injection H1 as <-. f_equal. apply Hdel; [|done|done]. exists b0.
      cbn in Hb0. done. }
  subst t2. cbn in Hb0. split.
  - refine (ledger_disabled k b0 _ t0 Hl0 Hb0).
  - cbn. intros key [a [Ha _]%map_lookup_filter_Some]. apply Hf. by exists a.
Qed.

Lemma tryDisable_disables ids w u w' :
  let t := sTables (w_data w) in
  spLedger t -> Forall (fun id => noOverflow (BroadcastID.Bytes id) t) ids -> tryDisableBroadcasts ids w = (Ok u, w') ->
  exists ms, sWrites (w_data w') = sWrites (w_data w) ++ ms /\ disables t ms.
Proof using HP.
  intros t Hl Hno. revert w t Hl Hno. induction ids as [|id ids IH]; intros w t Hl Hno H; cbn in H.
  { apply ret_Ok in H as [_ <-]. exists []. rewrite app_nil_r. split; [done|]. by intros ts t0 t1 H [= <-]. }
  apply Forall_cons in Hno as [Hno Hnos]. apply bind_Ok in H as ([] & w1 & H1 & H).
  apply disableOne_disables in H1 as (HT & ms & HW & H1); [|done|done].
  destruct (IH w1) as (ms' & HW' & H2); [by rewrite HT|by rewrite HT|done|]. exists (ms ++ ms'). rewrite HW', HW, app_assoc.
  split; [done|]. rewrite HT in H2. intros ts t0 t1 Hf Ha. rewrite applyAll_app in Ha.
  apply outcome_bind_Ok in Ha as (t2 & Ha1 & Ha2). by eapply H2, Ha2; eapply H1.
Qed.

(** *** Writes that leave the ledger alone *)
Definition leavesLedger (ms : list mutation) : Prop := forall ts t t', applyAll ms ts t = Ok t' ->
  spBroadcasts t' = spBroadcasts t /\ spAllocations t' = spAllocations t.

Lemma leavesLedger_closed : closed leavesLedger.
Proof using Type.
  split; [by intros ts t t' [= <-]|]. intros ms ms' H H' ts t t' Ha. rewrite applyAll_app in Ha.
  apply outcome_bind_Ok in Ha as (t1 & H1 & H2). destruct (H _ _ _ H1), (H' _ _ _ H2). split; congruence.
Qed.
Let HR := leavesLedger_closed.

Lemma leaves_put m ct data : leavesLedger [putMessage m ct data].
Proof using Type. intros ts t t' H%applyAll_one. by apply putMessage_Ok in H as (? & ? & ? & _ & _ & _ & ->). Qed.
Lemma leaves_pending cid mid due ct svc : leavesLedger [putPending cid mid due ct svc].
Proof using Type. intros ts t t' H%applyAll_one. by apply putPending_Ok in H as (? & ? & _ & _ & _ & ->). Qed.

Lemma putSent_Ok bid cid ts t t' :
  putSent bid cid ts t = Ok t' ->
  exists b c, bid = Some b /\ cid = Some c /\ is_Some (spClients t !! c) /\ t' = setSpSents ({[(c, b)]} ∪ spSents t) t.
Proof using Type. unfold putSent. intros H. inv_mutation. by do 2 eexists. Qed.

Lemma leaves_tryStoreMessage m b : buffers leavesLedger (tryStoreMessage m b).
Proof using Type.
  unfold tryStoreMessage. destruct (checkValid _); [|by apply buffers_readOnly..].
  apply buffers_lift_bind; [done|]. intros _ _. cbv zeta. destruct (Message.Result m).
  { apply buffers_BufferWrite, leaves_put. }
  apply buffers_lift_bind; [done|]. intros [] _.
  - apply buffers_bind; [done|apply buffers_BufferWrite, leaves_put|]. intros _. by apply buffers_publish.
  - apply buffers_bind; [done| |].
    + apply buffers_readOnly; [done|]. destruct b; [by apply readOnly_bind|done].
    + intros due. apply buffers_BufferWrite. apply (closed_app _ HR [_] [_]); [apply leaves_put|apply leaves_pending].
Qed.

Lemma spLedger_leaves t t' :
  spBroadcasts t' = spBroadcasts t -> spAllocations t' = spAllocations t -> spLedger t -> spLedger t'.
Proof using Type. unfold spLedger. by intros -> ->. Qed.

(** *** Sending under an allocation *)
Lemma ledger_send id aid a ts t t' :
  spLedger t -> allocationAt id aid t = Some a -> (spAllocSent a < spAllocLimit a)%Z ->
  updateAllocation id aid (wrapI64 (spAllocSent a + 1)) ts t = Ok t' -> spLedger t'.
Proof using Type.
  intros Hl Ha Hlt H. unfold updateAllocation in H. destruct id as [k|], aid as [x|]; try done. cbn in Ha. rewrite Ha in H.
  injection H as <-. unfold spLedger in *. cbn.
  assert (Hv : (viewA <$> spAllocations t) !! (k, x) = Some (viewA a)) by (by rewrite lookup_fmap, Ha).
  pose proof (l_alloc _ _ _ _ Hl _ _ Hv) as [H1 H2]. cbn in H1, H2.
  rewrite (view_update viewA (setAllocSent (wrapU64 (spAllocSent a + 1))) (k, x) _ a); [|done|].
  - apply (ledgerOn_send _ _ _ _ _ (viewA a)); [done|done|exact Hlt].
  - unfold setAllocSent, viewA. cbn. unfold i64_max in *. rewrite wrapI64_small, wrapU64_small by (unfold isU64; lia). done.
Qed.

Lemma orBroadcastDisabled_Ok {A} (m : Txn A) a w w' : orBroadcastDisabled m w = (Ok a, w') -> m w = (Ok a, w').
Proof using Type.
  unfold orBroadcastDisabled. intros (e & w1 & Ht%try_Ok & H)%bind_Ok. destruct e as [a'|e].
  - by apply ret_Ok in H as [<- <-].
  - by destruct (codeIsNotFound e).
Qed.

(** What is saved with an allocation, and without. *)
Lemma trySave_wrote msg bid cid aid t ms :
  wrote (trySaveBroadcastMessage msg bid cid aid) t tt ms ->
  let b := BroadcastID.Bytes bid in
  exists ms0, leavesLedger ms0 /\
  ((exists a n, allocationAt b (AllocationID.Bytes aid) t = Some a /\ (spAllocSent a < spAllocLimit a)%Z /\
     (clock n <= tspbAsTime (spExpiresTime a))%Z /\
     ms = ms0 ++ [putSent b (ClientID.Bytes cid); updateAllocation b (AllocationID.Bytes aid) (wrapI64 (spAllocSent a + 1))]) \/
  (blen (AllocationID.Bytes aid) = 0 /\ (exists r, broadcastAt b t = Some r /\ spMessageLimit r <> 0%Z) /\
     ms = ms0 ++ [putSent b (ClientID.Bytes cid)])).
Proof using Type.
  intros (tp & n & s & H & <-) b. unfold trySaveBroadcastMessage in H. cbv zeta in H.
  apply bind_Ok in H as ([] & w1 & H1 & H). apply leaves_tryStoreMessage in H1 as (HT & ms0 & HW & Hms).
  cbn [w_data sTables sWrites] in HT, HW. cbn in HW.
  assert (Hread : forall {A} (f : Tables -> option A) a w2, ReadRow f w1 = (Ok a, w2) -> w_data w2 = w_data w1 /\ f t = Some a).
  { intros A f a w2 [Hd Hf]%ReadRow_Ok. split; [done|]. unfold tablesOf, session_tables in Hf. by rewrite HT in Hf. }
  destruct (decide (blen (AllocationID.Bytes aid) = 0)) as [Hz|Hz].
  - apply bind_Ok in H as (r & w2 & [Hd Hr]%orBroadcastDisabled_Ok%Hread & H).
    destruct (Z.eqb_spec (spMessageLimit r) 0); [done|]. apply BufferWrite_Ok in H as [_ HW'].
    exists ms0. split; [done|]. right. split; [done|]. split; [by exists r|]. by rewrite HW', Hd, HW.
  - apply bind_Ok in H as (r & w2 & [Hd Hr]%orBroadcastDisabled_Ok%Hread & H).
    destruct (Z.leb_spec (spAllocLimit r) (spAllocSent r)); [done|]. destruct (tspbCheckValid _); [done|].
    apply bind_Ok in H as (c & w3 & Hc & H). apply interact_Ok in Hc as [[= <-] ->].
    destruct (Z.ltb_spec (tspbAsTime (spExpiresTime r)) (clock (w_step w2))); [done|]. apply BufferWrite_Ok in H as [_ HW'].
    exists ms0. split; [done|]. left. exists r, (w_step w2). do 3 (split; [done|]). cbn in HW'. by rewrite HW', Hd, HW.
Qed.

Lemma ledger_save msg bid cid aid t ms ts t' :
  spLedger t -> wrote (trySaveBroadcastMessage msg bid cid aid) t tt ms -> applyAll ms ts t = Ok t' -> spLedger t'.
Proof using Type.
  intros Hl (ms0 & Hms & Hc)%trySave_wrote Ha.
  assert (Hpre : forall rest, applyAll (ms0 ++ putSent (BroadcastID.Bytes bid) (ClientID.Bytes cid) :: rest) ts t = Ok t' ->
    exists t1, spLedger t1 /\ spAllocations t1 = spAllocations t /\ applyAll rest ts t1 = Ok t').
  { intros rest H. rewrite applyAll_app in H. apply outcome_bind_Ok in H as (t1 & H1 & (t2 & H2 & H3)%applyAll_cons).
    apply Hms in H1 as [HB HA]. apply putSent_Ok in H2 as (? & ? & _ & _ & _ & ->).
    eexists. split; [|split; [|exact H3]]; [|done]. by apply (spLedger_leaves t). }
  destruct Hc as [(a & n & Hal & Hlt & _ & ->)|(_ & _ & ->)]; apply Hpre in Ha as (t1 & Hl1 & HA & H).
  - apply applyAll_one in H. eapply ledger_send; [exact Hl1| |exact Hlt|exact H]. unfold allocationAt in *. by rewrite HA.
  - by injection H as <-.
Qed.

(** *** Granting an allocation *)
Lemma tryCreateAllocation_wrote id frac expiry t r ms :
  wrote (tryCreateAllocation id frac expiry) t r ms ->
  exists b k new, broadcastAt (BroadcastID.Bytes id) t = Some b /\
    ComputeBroadcastAllocation (wrapU64 (spMessageLimit b)) (wrapU64 (spAllocated b)) (wrapU64 (spSent b)) frac = (k, new) /\
    ((k = 0%Z /\ r = None /\ ms = []) \/
     (k <> 0%Z /\ exists aid, r = Some (AllocationInfo.Mk aid k expiry) /\
        ms = [updateBroadcast (BroadcastID.Bytes id) (setSpAllocated (wrapI64 new));
              putAllocation (BroadcastID.Bytes id) (AllocationID.Bytes aid) (mkSpAllocation 0 (wrapI64 k) (tspbNew expiry))])).
Proof using Type.
  intros (tp & n & s & H & <-). unfold tryCreateAllocation in H. cbv zeta in H.
  destruct (tspbCheckValid _); [done|]. apply bind_Ok in H as (aid & w1 & H1 & H).
  assert (Hd1 : w_data w1 = mkSession t [] tp).
  { unfold AllocationID.RandomAllocationID, randBytes in H1. apply bind_Ok in H1 as ([b|] & w2 & [_ ->]%interact_Ok & H1); [|done].
    by apply ret_Ok in H1 as [_ <-]. }
  apply bind_Ok in H as (b & w2 & [Hd2 Hb]%ReadRow_Ok & H). unfold tablesOf, session_tables in Hb. rewrite Hd1 in Hb, Hd2.
  destruct (ComputeBroadcastAllocation _ _ _ _) as [k new] eqn:Ec. exists b, k, new. split; [done|]. split; [done|].
  destruct (Z.eqb_spec k 0).
  - apply ret_Ok in H as [<- <-]. left. by rewrite Hd2.
  - apply bind_Ok in H as (u & w3 & [_ HW]%BufferWrite_Ok & [<- <-]%ret_Ok). right. split; [done|]. exists aid. split; [done|].
    by rewrite HW, Hd2.
Qed.

(** As unsigned numbers. *)
Lemma ledger_unsigned t k b : spLedger t -> spBroadcasts t !! k = Some b ->
  wrapU64 (spAllocated b) = spAllocated b /\ wrapU64 (spMessageLimit b) = spMessageLimit b.
Proof using Type.
  intros Hl Hb. pose proof (ledger_counters _ _ _ Hl Hb) as Hc. unfold i64_max in *. rewrite !wrapU64_small by (unfold isU64; lia). done.
Qed.

Lemma putAllocation_Ok id aid a ts t t' :
  putAllocation id aid a ts t = Ok t' ->
  exists k x, id = Some k /\ aid = Some x /\ is_Some (spBroadcasts t !! k) /\
    t' = setSpAllocations (<[(k, x) := a]> (spAllocations t)) t.
Proof using Type. unfold putAllocation. intros H. inv_mutation. by do 2 eexists. Qed.

Lemma ledger_allocate id frac expiry t r ms ts t' :
  spLedger t -> wrote (tryCreateAllocation id frac expiry) t r ms ->
  (forall ai, r = Some ai -> allocationAt (BroadcastID.Bytes id) (AllocationID.Bytes (AllocationInfo.ID ai)) t = None) ->
  applyAll ms ts t = Ok t' -> spLedger t'.
Proof using HF.
  intros Hl (b & k & new & Hb & Ec & [(_ & _ & ->)|(Hk & aid & -> & ->)])%tryCreateAllocation_wrote Hfresh Ha; [by injection Ha as <-|].
  specialize (Hfresh _ eq_refl). cbn in Hfresh. apply applyAll_cons in Ha as (t1 & H1 & H2%applyAll_one).
  apply updateBroadcast_Ok in H1 as (kb & b' & Hkb & Hb' & ->). apply putAllocation_Ok in H2 as (kb' & x & Hkb' & [= <-] & _ & ->).
  rewrite Hkb in Hkb'. injection Hkb' as <-. rewrite Hkb in Hb, Hfresh. cbn in Hb, Hfresh. rewrite Hb in Hb'. injection Hb' as <-.
  destruct (ledger_unsigned _ _ _ Hl Hb) as [Eu1 Eu2]. rewrite Eu1, Eu2 in Ec.
  assert (Hv : (viewB <$> spBroadcasts t) !! kb = Some (viewB b)) by (by rewrite lookup_fmap, Hb).
  pose proof (allocation_cases _ _ sp_counters _ _ _ (viewB b) frac k new Hl Hv Ec) as Hc. cbn in Hc.
  pose proof (ledger_counters _ _ _ Hl Hb) as Hcnt. pose proof (wrapU64_counter_range (spSent b)) as Hsr.
  assert (Hr : (0 <= new <= i64_max /\ 0 <= k <= i64_max)%Z) by (unfold BroadcastUnlimited, i64_max, u64_max in *; lia).
  unfold spLedger in *. cbn.
  rewrite (view_update viewB (fun b => setCounters (b_sent b) new (b_messageLimit b) b) kb _ b) by
    (done || (cbn; unfold viewB, setCounters; cbn; rewrite wrapI64_small by (unfold i64_max in *; lia); done)).
  rewrite fmap_insert. unfold viewA at 1. cbn. rewrite (wrapI64_small k) by (unfold i64_max in *; lia).
  apply (ledgerOn_allocate _ _ sp_counters _ _ _ (viewB b) frac); [done|done|exact Ec|done|by rewrite lookup_fmap, Hfresh].
Qed.

(** *** Giving an allocation back *)
Lemma tryCleanup_wrote bid aid finalSent t ms :
  wrote (tryCleanupAllocation bid aid finalSent) t tt ms ->
  let bb := BroadcastID.Bytes bid in let ab := AllocationID.Bytes aid in
  exists b sent, broadcastAt bb t = Some b /\ sent = wrapI64 (spSent b + wrapI64 finalSent) /\
  ((blen ab = 0 /\ ms = [updateBroadcast bb (setSpSent sent)]) \/ ms = [] \/
   exists a new, allocationAt bb ab t = Some a /\
     ComputeBroadcastAllocationCleanup (wrapU64 (spAllocLimit a)) (wrapU64 (spAllocated b)) = Ok new /\
     ms = [updateBroadcast bb (fun b => setSpAllocated (wrapI64 new) (setSpSent sent b)); deleteAllocations bb [contents ab]]).
Proof using Type.
  intros (tp & n & s & H & <-) bb ab. unfold tryCleanupAllocation in H. cbv zeta in H. fold bb ab in H.
  apply bind_Ok in H as (b & w1 & [Hd1 Hb]%ReadRow_Ok & H). unfold tablesOf, session_tables in Hb. cbn in Hd1, Hb.
  exists b, (wrapI64 (spSent b + wrapI64 finalSent)). split; [done|]. split; [done|]. case_decide as Hz.
  { left. split; [done|]. apply BufferWrite_Ok in H as [_ HW]. by rewrite HW, Hd1. }
  right. apply bind_Ok in H as (e & w2 & He%try_Ok & H). destruct e as [a|e].
  - apply ReadRow_Ok in He as [Hd2 Ha]. unfold tablesOf, session_tables in Ha. rewrite Hd1 in Ha, Hd2. right.
    destruct (ComputeBroadcastAllocationCleanup _ _) as [new| |] eqn:Ec; [|done..].
    apply BufferWrite_Ok in H as [_ HW]. exists a, new. split; [done|]. split; [done|]. by rewrite HW, Hd2.
  - left. destruct (codeIsNotFound e); [|done]. apply ret_Ok in H as [_ <-].
    pose proof (readOnly_ReadRow (allocationAt bb ab) w1) as Hro. rewrite He in Hro. cbn in Hro. by rewrite Hro, Hd1.
Qed.

Lemma ledger_cleanup bid aid finalSent t ms ts t' :
  spLedger t -> wrote (tryCleanupAllocation bid aid finalSent) t tt ms -> applyAll ms ts t = Ok t' -> spLedger t'.
Proof using Type.
  intros Hl (b & sent & Hb & _ & Hc)%tryCleanup_wrote Ha.
  destruct Hc as [[_ ->]|[->|(a & new & Hal & Ec & ->)]].
  - apply applyAll_one in Ha. by eapply ledger_count.
  - by injection Ha as <-.
  - apply applyAll_cons in Ha as (t1 & H1 & H2%applyAll_one). apply updateBroadcast_Ok in H1 as (k & b' & Hk & Hb' & ->).
    rewrite Hk in *. cbn in Hb, Hal. rewrite Hb in Hb'. injection Hb' as <-. cbn in H2. injection H2 as <-.
    destruct (ledger_unsigned _ _ _ Hl Hb) as [Eu1 _]. rewrite Eu1 in Ec.
    assert (Hv : (viewB <$> spBroadcasts t) !! k = Some (viewB b)) by (by rewrite lookup_fmap, Hb).
    assert (Hva : (viewA <$> spAllocations t) !! (k, AllocationID.id aid) = Some (viewA a)) by (by rewrite lookup_fmap, Hal).
    pose proof (l_alloc _ _ _ _ Hl _ _ Hva) as [H1 H2]. cbn in H1, H2. rewrite wrapU64_small in Ec by (unfold isU64, i64_max in *; lia).
    pose proof (ledger_counters _ _ _ Hl Hb) as Hcnt.
    assert (Hn : (0 <= new <= i64_max)%Z).
    { unfold ComputeBroadcastAllocationCleanup in Ec. destruct (_ =? _)%Z; [injection Ec as <-; lia|].
      destruct (Z.ltb_spec (spAllocated b) (spAllocLimit a)); [done|]. injection Ec as <-.
      rewrite wrapU64_small by (unfold isU64, i64_max in *; lia). lia. }
    unfold spLedger in *. cbn.
    rewrite (view_update viewB (fun b => setCounters (wrapU64 sent) new (b_messageLimit b) b) k _ b) by
      (done || (cbn; unfold viewB, setCounters; cbn; rewrite wrapI64_small by (unfold i64_max in *; lia); done)).
    replace (viewA <$> _) with (delete (k, AllocationID.id aid) (viewA <$> spAllocations t)).
    + apply (ledgerOn_cleanup _ _ _ _ _ _ (viewB b) (viewA a)); [done|done|done|apply wrapU64_counter_range|exact Ec].
    + apply map_eq. intros key. apply option_eq. intros x. rewrite lookup_delete_Some, !lookup_fmap, !fmap_Some. split.
      * intros [Hne (y & Hy & ->)]. exists y. split; [|done]. apply map_lookup_filter_Some. split; [done|]. cbn.
        intros [Hk1 Hk2%list_elem_of_singleton]. apply Hne. destruct key. cbn in *. by subst.
      * intros (y & [Hy Hn']%map_lookup_filter_Some & ->). split; [|by exists y]. intros <-. apply Hn'. cbn. split; [done|].
        by apply list_elem_of_singleton.
Qed.
End LedgerKept.

(** ** All operations on broadcasts *)
Inductive broadcastOp :=
| OpCreateBroadcast (b : option Broadcast.t) (limit : Z)
| OpSetBroadcastLimit (id : BroadcastID.t) (limit : Z)
| OpDisableBroadcasts (ids : list BroadcastID.t)
| OpSaveBroadcastMessage (msg : Message.t) (bid : BroadcastID.t) (cid : ClientID.t) (aid : AllocationID.t)
| OpListActiveBroadcasts
| OpListSentBroadcasts (id : ClientID.t)
| OpCreateAllocation (id : BroadcastID.t) (frac : spec_float) (expiry : Z)
| OpCleanupAllocation (bid : BroadcastID.t) (aid : AllocationID.t) (finalSent : Z).

Section Ops.
Context `{P : Platform} {HP : PlatformOK P} `{L : ProtoLib} `{E : SpannerEngine} `{F : FloatConv} {HF : FloatConvOK F}.

Definition runBroadcastOp (op : broadcastOp) : Sp unit :=
  match op with
  | OpCreateBroadcast b limit => CreateBroadcast b limit
  | OpSetBroadcastLimit id limit => SetBroadcastLimit id limit
  | OpDisableBroadcasts ids => DisableBroadcasts ids
  | OpSaveBroadcastMessage msg bid cid aid => SaveBroadcastMessage msg bid cid aid
  | OpListActiveBroadcasts => ListActiveBroadcasts ≫= fun _ => mret tt
  | OpListSentBroadcasts id => ListSentBroadcasts id ≫= fun _ => mret tt
  | OpCreateAllocation id frac expiry => CreateAllocation id frac expiry ≫= fun _ => mret tt
  | OpCleanupAllocation bid aid fs => CleanupAllocation bid aid fs
  end.

Definition noAllocation (f : Txn unit) : Txn (option AllocationInfo.t) := f ≫= fun _ => mret None.

(** The transaction of an operation. *)
Definition closure (op : broadcastOp) : Txn (option AllocationInfo.t) :=
  match op with
  | OpCreateBroadcast b limit => noAllocation (tryCreateBroadcast b limit)
  | OpSetBroadcastLimit id limit => noAllocation (trySetBroadcastLimit id limit)
  | OpDisableBroadcasts ids => noAllocation (tryDisableBroadcasts ids)
  | OpSaveBroadcastMessage msg bid cid aid => noAllocation (trySaveBroadcastMessage msg bid cid aid)
  | OpListActiveBroadcasts | OpListSentBroadcasts _ => mret None
  | OpCreateAllocation id frac expiry => tryCreateAllocation id frac expiry
  | OpCleanupAllocation bid aid fs => noAllocation (tryCleanupAllocation bid aid fs)
  end.

(** What an operation needs: a new broadcast has a new id; a limit that is set
    leaves room for what is allocated and is not to or from unlimited; what an
    unlimited broadcast has allocated fits its column when it is disabled; the id
    of an allocation is not in use. *)
Definition allowed (op : broadcastOp) (t : Tables) (r : option AllocationInfo.t) : Prop :=
  match op with
  | OpCreateBroadcast b limit => (0 <= limit <= i64_max)%Z /\
      forall b0, b = Some b0 -> spBroadcasts t !! contents (Broadcast.BroadcastId b0) = None
  | OpSetBroadcastLimit id limit => forall b, broadcastAt (BroadcastID.Bytes id) t = Some b ->
      (spAllocated b <= limit <= i64_max)%Z /\ limit <> BroadcastUnlimited /\ spMessageLimit b <> BroadcastUnlimited
  | OpDisableBroadcasts ids => Forall (fun id => noOverflow (BroadcastID.Bytes id) t) ids
  | OpCreateAllocation id _ _ => forall ai, r = Some ai ->
      allocationAt (BroadcastID.Bytes id) (AllocationID.Bytes (AllocationInfo.ID ai)) t = None
  | _ => True
  end.

(** A transaction that took effect: one of these, or one of another part of the
    datastore. *)
Inductive change (t t' : Tables) : Prop :=
| change_op op r ms n : allowed op t r -> wrote (closure op) t r ms -> applyAll ms (commitTimestamp n) t = Ok t' -> change t t'
| change_other ms n : leavesLedger ms -> applyAll ms (commitTimestamp n) t = Ok t' -> change t t'.

Lemma wrote_noAllocation f t r ms : wrote (noAllocation f) t r ms <-> r = None /\ wrote f t tt ms.
Proof using Type.
  split.
  - intros (tp & n & s & ([] & w1 & H1 & [<- <-]%ret_Ok)%bind_Ok & <-). split; [done|]. by exists tp, n, w1.
  - intros [-> (tp & n & s & H & <-)]. exists tp, n, s. split; [|done]. unfold noAllocation. by rewrite (bind_run _ _ _ tt s H).
Qed.

Lemma ledger_change op t r ms ts t' :
  spLedger t -> allowed op t r -> wrote (closure op) t r ms -> applyAll ms ts t = Ok t' -> spLedger t'.
Proof using HP HF.
  intros Hl Hok Hw Ha. destruct op; cbn in Hok, Hw; rewrite ?wrote_noAllocation in Hw.
  - destruct Hw as [_ (tp & n & s & Hw & <-)]. unfold tryCreateBroadcast in Hw. cbv zeta in Hw. destruct (negb _); [done|].
    apply BufferWrite_Ok in Hw as [_ HW]. rewrite HW in Ha. apply applyAll_one in Ha. destruct Hok. by eapply ledger_create.
  - destruct Hw as [_ ->%wrote_BufferWrite]. apply applyAll_one in Ha. by eapply ledger_limit.
  - destruct Hw as [_ (tp & n & s & Hw & <-)]. apply tryDisable_disables in Hw as (ms & HW & Hd); [|done|done].
    cbn in HW. rewrite HW in Ha. by apply (Hd _ _ _ (conj Hl (fun key H => H)) Ha).
  - destruct Hw as [_ Hw]. by eapply ledger_save.
  - destruct Hw as (tp & n & s & [_ <-]%ret_Ok & <-). by injection Ha as <-.
  - destruct Hw as (tp & n & s & [_ <-]%ret_Ok & <-). by injection Ha as <-.
  - by eapply ledger_allocate.
  - destruct Hw as [_ Hw]. by eapply ledger_cleanup.
Qed.

(** What an operation can do to the tables, whatever it returns. *)
Definition opEffect (op : broadcastOp) (t t' : Tables) : Prop :=
  t' = t \/ exists r ms n, wrote (closure op) t r ms /\ applyAll ms (commitTimestamp n) t = Ok t'.

Lemma txn_effect {A B} (f : Txn A) (g : A * Z -> Sp B) w :
  (forall x, readOnly (g x)) ->
  txnEffect f (dTables (w_data w)) (dTables (w_data (snd ((ReadWriteTransaction f ≫= g) w)))).
Proof using Type.
  intros Hg. unfold mbind, M_bind at 1. destruct (ReadWriteTransaction f w) as [r w1] eqn:E0.
  apply ReadWriteTransaction_cases in E0. destruct r as [[a ts]| |]; [|exact E0..].
  rewrite Hg. destruct E0 as (ms & n & H1 & -> & _ & H2). right. by exists a, ms, n.
Qed.

Lemma inTxn_effect f w : txnEffect f (dTables (w_data w)) (dTables (w_data (snd (inTxn f w)))).
Proof using Type. unfold inTxn. by apply txn_effect. Qed.

Lemma noAllocation_effect f t t' :
  txnEffect f t t' -> t' = t \/ exists r ms n, wrote (noAllocation f) t r ms /\ applyAll ms (commitTimestamp n) t = Ok t'.
Proof using Type.
  intros [->|([] & ms & n & Hw & Ha)]; [by left|]. right. exists None, ms, n. split; [|done]. by apply wrote_noAllocation.
Qed.

Lemma readOnly_effect {A} op (m : Sp A) w :
  readOnly m -> opEffect op (dTables (w_data w)) (dTables (w_data (snd ((m ≫= fun _ => mret tt) w)))).
Proof using Type.
  intros Hm. left. assert (Hr : readOnly (m ≫= fun _ => mret tt)) by by apply readOnly_bind. by rewrite Hr.
Qed.

Lemma run_effect op w : opEffect op (dTables (w_data w)) (dTables (w_data (snd (runBroadcastOp op w)))).
Proof using Type.
  destruct op; cbn [runBroadcastOp]; try (apply noAllocation_effect, inTxn_effect).
  - unfold DisableBroadcasts. case_decide; [by left|]. apply noAllocation_effect, inTxn_effect.
  - apply readOnly_effect. apply readOnly_bind; [|intros; by apply readOnly_readRows].
    apply readOnly_bind; [done|]. intros t. cbv zeta. by destruct (tspbCheckValid _).
  - apply readOnly_effect. by apply readOnly_readRows.
  - unfold CreateAllocation. unfold opEffect. pose proof (txn_effect (tryCreateAllocation id frac expiry) (fun r => mret r.1) w) as H.
    assert (Hs : forall (m : Sp (option AllocationInfo.t)), w_data (snd ((m ≫= fun _ => mret tt) w)) = w_data (snd (m w))).
    { intros m. unfold mbind, M_bind. by destruct (m w) as [[]]. }
    rewrite Hs. exact (H (fun _ => ltac:(done))).
Qed.

(** C12: an operation on broadcasts leaves the tables of Spanner as they are or does
    the writes of one run of its transaction, whatever it returns.  Over any
    such transactions that are [allowed] - a broadcast that is created is not
    there yet, a limit that is set leaves room for what is allocated and is not
    to or from "unlimited", what an unlimited broadcast has allocated fits its
    column when it is disabled, and the id of a new allocation is not in use -
    and whatever transactions of other parts come between, what a broadcast with
    a limit has allocated is the sum of what its outstanding allocations hold,
    and within the limit, and of a broadcast without a limit it is 0.  Without
    these conditions it is not so: [created_again], [unlimited_disabled]. *)
Theorem sp_broadcast_ledger :
  (forall op w, opEffect op (dTables (w_data w)) (dTables (w_data (snd (runBroadcastOp op w))))) /\
  (forall t t', spLedger t -> rtc change t t' -> spLedger t').
Proof using HP HF.
  split; [apply run_effect|]. intros t t' Hl Hc. induction Hc as [|t1 t2 t3 Hc _ IH]; [done|]. apply IH.
  destruct Hc as [op r ms n Hok Hw Ha|ms n Hms Ha].
  - by eapply ledger_change.
  - apply Hms in Ha as [HB HA]. by apply (spLedger_leaves t1).
Qed.
End Ops.

(** ** Files and sent broadcasts *)
Section Specs.
Context `{P : Platform} {HP : PlatformOK P} `{L : ProtoLib} `{E : SpannerEngine} `{F : FloatConv} {HF : FloatConvOK F}.

Lemma inTxn_write f w u w' m :
  (forall t ms, wrote f t tt ms -> exists x, ms = [m x]) -> inTxn f w = (Ok u, w') ->
  exists (x : Timestamp.t) ts, m x ts (dTables (w_data w)) = Ok (dTables (w_data w')).
Proof using Type.
  intros Hf (ms & n & Hw & Ha)%inTxn_Ok. apply Hf in Hw as (x & ->). apply applyAll_one in Ha. by eexists _, _.
Qed.

(** A file is read back byte for byte with the time that StatFile gives; no other
    file changes; a file that is deleted is not there. *)
Lemma sp_file_store_spec service name data w u w1 :
  StoreFile service name (Ok data) w = (Ok u, w1) ->
  (exists ts, spFiles (dTables (w_data w1)) !! (service, name) = Some (Some ts, Some data)) /\
  (forall key, key <> (service, name) -> spFiles (dTables (w_data w1)) !! key = spFiles (dTables (w_data w)) !! key) /\
  (forall n r w2, ReadFile service name (mkWorld (w_data w1) n) = (Ok r, w2) -> r.1 = data /\
     forall n' m w3, StatFile service name (mkWorld (w_data w1) n') = (Ok m, w3) -> m = r.2) /\
  (forall n v w2 n' r w3, DeleteFile service name (mkWorld (w_data w1) n) = (Ok v, w2) ->
     ReadFile service name (mkWorld (w_data w2) n') = (r, w3) -> isOk r = false).
Proof using Type.
  unfold StoreFile. intros (b & w0 & [[= <-] <-]%lift_Ok & H)%bind_Ok.
  apply (inTxn_write _ _ _ _ (fun ts => putFile service name ts data)) in H as (ts & n0 & H).
  2:{ intros t ms (tp & n & s & (ts & w2 & Hn & Hw)%bind_Ok & <-). apply NowProto_data in Hn.
      apply BufferWrite_Ok in Hw as [_ Hw]. exists ts. by rewrite Hw, Hn. }
  unfold putFile in H. inv_mutation.
  assert (Hf : spFiles (dTables (w_data w1)) = <[(service, name) := (Some ts, Some data)]> (spFiles (dTables (w_data w)))) by (by rewrite <- H).
  rewrite Hf, lookup_insert_eq. split; [by eexists|]. split; [intros key Hne; by rewrite lookup_insert_ne|]. split.
  - intros n r w2 (row & w3 & [_ Hr]%ReadRow_Ok & H2)%bind_Ok. unfold tablesOf, datastore_tables in Hr. cbn in Hr.
    rewrite Hf, lookup_insert_eq in Hr. injection Hr as <-. apply bind_Ok in H2 as (m & w4 & [Hm _]%lift_Ok & [<- _]%ret_Ok). split; [done|].
    intros n' m' w5 (row & w6 & [_ Hr]%ReadRow_Ok & [Hm' _]%lift_Ok)%bind_Ok. unfold tablesOf, datastore_tables in Hr. cbn in Hr.
    rewrite Hf, lookup_insert_eq in Hr. injection Hr as <-. cbn in *. congruence.
  - intros n v w2 n' r w3 Hd Hr. destruct r as [r| |]; [|done..]. exfalso.
    apply inTxn_Ok in Hd as (ms & nn & ->%wrote_BufferWrite & Ha%applyAll_one). injection Ha as Ha.
    apply bind_Ok in Hr as (row & w4 & [_ Hr]%ReadRow_Ok & _). unfold tablesOf, datastore_tables in Hr. cbn in Hr.
    rewrite <- Ha in Hr. cbn in Hr. by rewrite lookup_delete_eq in Hr.
Qed.
End Specs.

(** ** Witnesses, and what goes wrong *)
Definition broadcastWorld : World Datastore :=
  snd (runBroadcastOp (OpCreateBroadcast (Some sampleBroadcast) 10)
    (runOk (AddClient exampleClientID (ClientData.Mk (Some "key"%string) [] false)) (mkWorld (mkDatastore emptyTables (mkTopic [] false)) 0))).
Definition broadcastKey : string := contents (BroadcastID.Bytes exampleBroadcastID).
Definition countersIn (w : World Datastore) : option (Z * Z * Z * Z) :=
  let t := dTables (w_data w) in
  (fun b => (spSent b, spAllocated b, spMessageLimit b, spOutstanding broadcastKey t)) <$> spBroadcasts t !! broadcastKey.
Definition grantOn (w : World Datastore) : World Datastore :=
  runOk (CreateAllocation exampleBroadcastID floatOne (2000000000 * Second)) w.
Example granted : countersIn (grantOn broadcastWorld) = Some (0, 10, 10, 10)%Z.
Proof. vm_compute. reflexivity. Qed.

(** A broadcast that is created again, when a request is repeated say, starts
    from nothing, and its allocations stay. *)
Example created_again :
  countersIn (snd (runBroadcastOp (OpCreateBroadcast (Some sampleBroadcast) 10) (grantOn broadcastWorld))) = Some (0, 0, 10, 10)%Z.
Proof. vm_compute. reflexivity. Qed.

(** Two allocations of an unlimited broadcast: the sum of their limits wraps, and
    after it is disabled the broadcast has two messages allocated and a limit
    of zero. *)
Example unlimited_disabled :
  let w := snd (runBroadcastOp (OpCreateBroadcast (Some sampleBroadcast) BroadcastUnlimited) broadcastWorld) in
  let w := snd (runBroadcastOp (OpDisableBroadcasts [exampleBroadcastID]) (grantOn (grantOn w))) in
  countersIn w = Some (0, 2, 0, 0)%Z.
Proof. vm_compute. reflexivity. Qed.

(** The same broadcast is saved twice for one client, and counted twice: the
    row of the sent broadcast is written over. *)
Definition grantID (w : World Datastore) : AllocationID.t :=
  AllocationID.Mk (match map_to_list (spAllocations (dTables (w_data w))) with (k, _) :: _ => k.2 | [] => ""%string end).
Example saved_twice :
  let w := grantOn broadcastWorld in
  let save n := SaveBroadcastMessage (sampleMessage n exampleClientID None) exampleBroadcastID exampleClientID (grantID w) in
  let w1 := save 1 w in let w2 := save 2 (snd w1) in
  fst w1 = Ok tt /\ fst w2 = Ok tt /\ size (spSents (dTables (w_data (snd w2)))) = 1 /\
  map (fun ka => spAllocSent ka.2) (map_to_list (spAllocations (dTables (w_data (snd w2))))) = [2%Z].
Proof. split_and!; vm_compute; reflexivity. Qed.

Definition clientOnly : World Datastore :=
  runOk (AddClient exampleClientID (ClientData.Mk (Some "key"%string) [] false)) (mkWorld (mkDatastore emptyTables (mkTopic [] false)) 0).
Lemma clientOnly_ledger : spLedger (dTables (w_data clientOnly)).
Proof. apply (spLedger_leaves emptyTables); [vm_compute; reflexivity..|apply spLedger_empty]. Qed.

Lemma sp_broadcast_ledger_witness : spLedger (dTables (w_data broadcastWorld)) /\ countersIn broadcastWorld = Some (0, 0, 10, 0)%Z.
Proof.
  assert (Hc : countersIn broadcastWorld = Some (0, 0, 10, 0)%Z) by (vm_compute; reflexivity). split; [|exact Hc].
  destruct sp_broadcast_ledger as [Heff Hl].
  destruct (Heff (OpCreateBroadcast (Some sampleBroadcast) 10) clientOnly) as [Hs|(r & ms & n & Hw & Ha)].
  - exfalso. change (dTables (w_data broadcastWorld) = dTables (w_data clientOnly)) in Hs. unfold countersIn in Hc.
    rewrite Hs in Hc. vm_compute in Hc. discriminate.
  - apply (Hl (dTables (w_data clientOnly)) _ clientOnly_ledger). apply rtc_once.
    refine (change_op _ _ (OpCreateBroadcast (Some sampleBroadcast) 10) r ms n _ Hw Ha). split; [done|].
    intros b0 [= <-]. vm_compute. reflexivity.
Defined.
