(* ===== verification/SpannerStore.v ===== *)
(** * The Spanner datastore: every operation

    What all operations of the datastore keep, and the witnesses of the
    theorems on its messages. *)
From Stdlib Require Import SpecFloat.
From S2P Require Import Prelude Platform Ids Proto Db Sqlite SqliteMessages SqliteClients Ledger.
From S2P Require Import Spanner SpannerClients SpannerMessages SpannerHandout SpannerBroadcasts.

(** The operations that write. *)
Inductive storeOp :=
| OpAddClient (id : ClientID.t) (data : ClientData.t)
| OpAddClientLabel (id : ClientID.t) (l : Label.t)
| OpRemoveClientLabel (id : ClientID.t) (l : Label.t)
| OpBlacklistClient (id : ClientID.t)
| OpRecordClientContact (data : DbContactData.t)
| OpLinkMessagesToContact (contact : ContactID) (ids : list MessageID.t)
| OpRecordResourceUsageData (id : ClientID.t) (rud : ResourceUsageData.t)
| OpSetMessageResult (dest : ClientID.t) (id : MessageID.t) (res : MessageResult.t)
| OpDeletePendingMessages (ids : list ClientID.t)
| OpStoreMessages (msgs : list Message.t) (contact : ContactID)
| OpClientMessagesForProcessing (id : ClientID.t) (lim : Z) (serviceLimits : option (gmap string Z))
| OpBroadcast (op : broadcastOp)
| OpStoreFile (service name : string) (data : outcome string)
| OpDeleteFile (service name : string).

Definition validOp (op : storeOp) : Prop := match op with OpAddClient id _ => ClientID.valid id | _ => True end.

Section Store.
Context `{P : Platform} {HP : PlatformOK P} `{L : ProtoLib} `{E : SpannerEngine} `{F : FloatConv}.

Definition runStoreOp (op : storeOp) : Sp unit :=
  match op with
  | OpAddClient id data => AddClient id data
  | OpAddClientLabel id l => AddClientLabel id l
  | OpRemoveClientLabel id l => RemoveClientLabel id l
  | OpBlacklistClient id => BlacklistClient id
  | OpRecordClientContact data => RecordClientContact data ≫= fun _ => mret tt
  | OpLinkMessagesToContact contact ids => LinkMessagesToContact contact ids
  | OpRecordResourceUsageData id rud => RecordResourceUsageData id rud
  | OpSetMessageResult dest id res => SetMessageResult dest id res
  | OpDeletePendingMessages ids => DeletePendingMessages ids
  | OpStoreMessages msgs contact => StoreMessages msgs contact
  | OpClientMessagesForProcessing id lim sl => ClientMessagesForProcessing id lim sl ≫= fun _ => mret tt
  | OpBroadcast op => runBroadcastOp op
  | OpStoreFile service name data => StoreFile service name data
  | OpDeleteFile service name => DeleteFile service name
  end.

#[local] Notation kept f := (preserves (onRefs spSound) f).
Let HR := keepsGroup_closed spSound.

(** Each write of a client keeps it. *)
Lemma sound_refs m :
  keepsAll spRefs m -> (forall ts t t', m ts t = Ok t' -> spMessages t' = spMessages t /\ spPendings t' = spPendings t) ->
  keepsAll spSound m.
Proof using Type.
  intros H1 H2 ts t t' Ht H. apply (keeps_refsOnly m H1 H2 ts t t' Ht). cbn. by rewrite H.
Qed.

Lemma kept_writes ms : Forall (keepsAll spSound) ms -> kept (inTxn (BufferWrite ms)).
Proof using Type. apply preserves_writes. Qed.

Lemma sound_putClient id bl key : ClientID.valid id -> keepsAll spSound (putClient (ClientID.Bytes id) bl key).
Proof using Type. intros Hv. apply sound_refs; [by apply keeps_putClient|]. intros ts t t' H. unfold putClient in H. by inv_mutation. Qed.
Lemma sound_putLabel id l : keepsAll spSound (putLabel id l).
Proof using Type. apply sound_refs; [apply keeps_putLabel|]. intros ts t t' H. unfold putLabel in H. by inv_mutation. Qed.
Lemma sound_deleteLabel id l : keepsAll spSound (deleteLabel id l).
Proof using Type. apply sound_refs; [apply keeps_deleteLabel|]. intros ts t t' [= <-]. by destruct id. Qed.
Lemma sound_updateClient id f : keepsAll spSound (updateClient id f).
Proof using Type.
  apply sound_refs; [apply keeps_updateClient|]. intros ts t t' H. unfold updateClient in H. inv_mutation.
  destruct (spClients t !! _); [|done]. by inv_mutation.
Qed.
Lemma sound_putContact id sent received addr :
  String.length sent = 8 -> String.length received = 8 -> keepsAll spSound (putContact id sent received addr).
Proof using Type.
  intros Hs Hr. apply sound_refs; [by apply keeps_putContact|]. intros ts t t' H. unfold putContact in H. by inv_mutation.
Qed.
Lemma sound_putLink id time mid : keepsAll spSound (putLink id time mid).
Proof using Type. apply sound_refs; [apply keeps_putLink|]. intros. by eapply putLink_other. Qed.
Lemma sound_putUsage id record : keepsAll spSound (putUsage id record).
Proof using Type. apply sound_refs; [apply keeps_putUsage|]. intros ts t t' H. unfold putUsage in H. by inv_mutation. Qed.
Lemma sound_putSent bid cid : keepsAll spSound (putSent bid cid).
Proof using Type.
  apply sound_refs.
  - intros ts t t' Ht H. apply putSent_Ok in H as (b & c & -> & -> & Hc & ->). destruct Ht. split; cbn; eauto.
    intros j b'. rewrite elem_of_union, elem_of_singleton. intros [[= -> ->]|Hj]; eauto.
  - intros ts t t' H. by apply putSent_Ok in H as (b & c & _ & _ & _ & ->).
Qed.

(** What does not touch clients or messages. *)
Lemma sound_same m :
  (forall ts t t', m ts t = Ok t' ->
     t' = setSpBroadcasts (spBroadcasts t') (setSpAllocations (spAllocations t') (setSpFiles (spFiles t') t))) ->
  keepsAll spSound m.
Proof using Type.
  intros Hm ts t t' [[] H2 H3] H. rewrite (Hm _ _ _ H). split; [by split|..]; done.
Qed.

Lemma sound_updateBroadcast id f : keepsAll spSound (updateBroadcast id f).
Proof using Type.
  apply sound_same. intros ts t t' H. apply updateBroadcast_Ok in H as (k & b & _ & _ & ->).
  by destruct t.
Qed.
Lemma sound_putBroadcast b s a l : keepsAll spSound (putBroadcast b s a l).
Proof using Type.
  apply sound_same. intros ts t t' H. unfold putBroadcast in H. inv_mutation. by destruct t.
Qed.
Lemma sound_deleteAllocations id aids : keepsAll spSound (deleteAllocations id aids).
Proof using Type.
  apply sound_same. intros ts t t' [= <-]. by destruct id, t.
Qed.
Lemma sound_putAllocation id aid a : keepsAll spSound (putAllocation id aid a).
Proof using Type.
  apply sound_same. intros ts t t' H. apply putAllocation_Ok in H as (k & x & _ & _ & _ & ->).
  by destruct t.
Qed.
Lemma sound_updateAllocation id aid s : keepsAll spSound (updateAllocation id aid s).
Proof using Type.
  apply sound_same. intros ts t t' H. unfold updateAllocation in H. destruct id, aid; try done.
  destruct (spAllocations t !! _); [|done]. injection H as <-. by destruct t.
Qed.
Lemma sound_putFile s n ts0 d : keepsAll spSound (putFile s n ts0 d).
Proof using Type.
  apply sound_same. intros ts t t' H. unfold putFile in H. inv_mutation. by destruct t.
Qed.
Lemma sound_deleteFile s n : keepsAll spSound (deleteFile s n).
Proof using Type.
  apply sound_same. intros ts t t' [= <-]. by destruct t.
Qed.

Lemma keepsGroup_Forall ms : Forall (keepsAll spSound) ms -> keepsGroup spSound ms.
Proof using Type.
  intros H ts t t' Ht. apply applyAll_keeps; [|done]. intros m t1 t2 Hm. rewrite Forall_forall in H. by apply (H m Hm).
Qed.

Lemma buffers_one m : keepsAll spSound m -> buffers (keepsGroup spSound) (BufferWrite [m]).
Proof using Type. intros Hm. apply buffers_BufferWrite, keepsGroup_Forall. by constructor. Qed.

(** *** The operations *)
Lemma kept_bind_ret {A} (m : Sp A) : kept m -> kept (m ≫= fun _ => mret tt).
Proof using Type. intros H. apply preserves_bind; [done|]. intros. apply preserves_ret. Qed.

Lemma kept_lift {A B} (o : outcome A) (f : A -> Sp B) : (forall a, kept (f a)) -> kept (lift o ≫= f).
Proof using Type. intros H. apply preserves_lift_bind. intros a _. apply H. Qed.

Lemma kept_AddClient id data : ClientID.valid id -> kept (AddClient id data).
Proof using Type.
  intros Hv. apply kept_writes. constructor; [by apply sound_putClient|]. apply Forall_fmap, Forall_forall. intros l _. exact (sound_putLabel _ l).
Qed.

Lemma kept_RecordClientContact data : kept (RecordClientContact data).
Proof using Type.
  unfold RecordClientContact. apply preserves_bind; [|intros; apply preserves_ret].
  apply preserves_txn. intros t a ms ts t' Ht Hw Ha. destruct a. apply wrote_BufferWrite in Hw as ->.
  refine (keepsGroup_Forall _ _ ts t t' Ht Ha). unfold contactWrites. cbv zeta. constructor; [apply sound_updateClient|].
  constructor; [|constructor]. apply sound_putContact; apply sp_uint64ToBytes_length.
Qed.

Lemma kept_LinkMessages contact ids : kept (LinkMessagesToContact contact ids).
Proof using Type.
  unfold LinkMessagesToContact. case_decide; [apply preserves_ret|]. apply kept_lift. intros ct. apply kept_writes.
  apply Forall_fmap, Forall_forall. intros i _. exact (sound_putLink _ _ (MessageID.Bytes i)).
Qed.

Lemma kept_RecordUsage id rud : kept (RecordResourceUsageData id rud).
Proof using Type.
  apply preserves_buffers. destruct (ResourceUsageData.ResourceUsage rud); [apply buffers_one, sound_putUsage|apply buffers_crash].
Qed.

Lemma readOnly_RandomAllocationID {D} : readOnly (D := D) AllocationID.RandomAllocationID.
Proof using Type. apply readOnly_bind; [done|]. by intros []. Qed.

Lemma buffers_orBroadcastDisabled {A} (m : Txn A) : readOnly m -> buffers (keepsGroup spSound) (orBroadcastDisabled m).
Proof using Type.
  intros Hm. apply buffers_readOnly; [done|]. apply readOnly_bind; [by apply readOnly_try|]. intros [|e]; [done|].
  by destruct (codeIsNotFound e).
Qed.

Lemma buffers_disableOne id : buffers (keepsGroup spSound) (disableOne id).
Proof using Type.
  unfold disableOne. apply buffers_bind; [done|apply buffers_readOnly; [done|apply readOnly_rowsOf]|]. intros rows.
  apply buffers_bind; [done|apply buffers_readOnly; [done|apply readOnly_rowsErr]|]. intros _. cbv zeta.
  apply buffers_bind; [done|apply buffers_readOnly; [done|apply readOnly_try, readOnly_ReadRow]|]. intros [b|e].
  - apply buffers_BufferWrite, keepsGroup_Forall, Forall_app. split.
    + case_decide; [constructor|]. constructor; [apply sound_deleteAllocations|constructor].
    + constructor; [apply sound_updateBroadcast|constructor].
  - by destruct (codeIsNotFound e); apply buffers_readOnly.
Qed.

Lemma buffers_trySave msg bid cid aid : buffers (keepsGroup spSound) (trySaveBroadcastMessage msg bid cid aid).
Proof using Type.
  unfold trySaveBroadcastMessage. cbv zeta. apply buffers_bind; [done|apply buffers_tryStoreMessage|]. intros _. case_decide.
  - apply buffers_bind; [done|apply buffers_orBroadcastDisabled, readOnly_ReadRow|]. intros r.
    destruct (_ =? _)%Z; [by apply buffers_readOnly|apply buffers_one, sound_putSent].
  - apply buffers_bind; [done|apply buffers_orBroadcastDisabled, readOnly_ReadRow|]. intros r.
    destruct (_ <=? _)%Z; [by apply buffers_readOnly|]. destruct (tspbCheckValid _); [by apply buffers_readOnly|].
    apply buffers_bind; [done|by apply buffers_readOnly|]. intros t. destruct (_ <? _)%Z; [by apply buffers_readOnly|].
    apply buffers_BufferWrite, keepsGroup_Forall. constructor; [apply sound_putSent|]. constructor; [apply sound_updateAllocation|constructor].
Qed.

Lemma buffers_tryCreateAllocation id frac expiry : buffers (keepsGroup spSound) (tryCreateAllocation id frac expiry).
Proof using Type.
  unfold tryCreateAllocation. cbv zeta. destruct (tspbCheckValid _); [by apply buffers_readOnly|].
  apply buffers_bind; [done|apply buffers_readOnly; [done|apply readOnly_RandomAllocationID]|]. intros aid.
  apply buffers_bind; [done|apply buffers_readOnly; [done|apply readOnly_ReadRow]|]. intros b.
  destruct (ComputeBroadcastAllocation _ _ _ _) as [k new]. destruct (_ =? _)%Z; [by apply buffers_readOnly|].
  apply buffers_bind; [done| |intros; by apply buffers_readOnly]. apply buffers_BufferWrite, keepsGroup_Forall.
  constructor; [apply sound_updateBroadcast|]. constructor; [apply sound_putAllocation|constructor].
Qed.

Lemma buffers_tryCleanup bid aid fs : buffers (keepsGroup spSound) (tryCleanupAllocation bid aid fs).
Proof using Type.
  unfold tryCleanupAllocation. cbv zeta. apply buffers_bind; [done|apply buffers_readOnly; [done|apply readOnly_ReadRow]|]. intros b.
  case_decide; [apply buffers_one, sound_updateBroadcast|].
  apply buffers_bind; [done|apply buffers_readOnly; [done|apply readOnly_try, readOnly_ReadRow]|]. intros [a|e].
  - destruct (ComputeBroadcastAllocationCleanup _ _); [|by apply buffers_readOnly..].
    apply buffers_BufferWrite, keepsGroup_Forall. constructor; [apply sound_updateBroadcast|].
    constructor; [apply sound_deleteAllocations|constructor].
  - by destruct (codeIsNotFound e); apply buffers_readOnly.
Qed.

Lemma kept_broadcastOp op : kept (runBroadcastOp op).
Proof using Type.
  destruct op; cbn [runBroadcastOp].
  - apply preserves_buffers. unfold tryCreateBroadcast. cbv zeta. destruct (negb _); [by apply buffers_readOnly|].
    apply buffers_one, sound_putBroadcast.
  - apply preserves_buffers, buffers_one, sound_updateBroadcast.
  - unfold DisableBroadcasts. case_decide; [apply preserves_ret|]. apply preserves_buffers, buffers_forM; [done|]. intros id.
    apply buffers_disableOne.
  - apply preserves_buffers, buffers_trySave.
  - apply kept_bind_ret, kept_readOnly, readOnly_bind; [|intros; by apply readOnly_readRows].
    apply readOnly_bind; [done|]. intros t. cbv zeta. by destruct (tspbCheckValid _).
  - apply kept_bind_ret, kept_readOnly. by apply readOnly_readRows.
  - apply kept_bind_ret. unfold CreateAllocation. apply preserves_bind; [|intros; apply preserves_ret].
    apply preserves_txn. intros t r ms ts t' Ht Hw Ha.
    exact (wrote_buffers (keepsGroup spSound) _ _ _ _ (buffers_tryCreateAllocation id frac expiry) Hw ts t t' Ht Ha).
  - apply preserves_buffers, buffers_tryCleanup.
Qed.

Lemma kept_storeOp op : validOp op -> kept (runStoreOp op).
Proof using Type.
  intros Hv. destruct op; cbn [runStoreOp].
  - by apply kept_AddClient.
  - apply kept_writes. constructor; [apply sound_putLabel|constructor].
  - apply kept_writes. constructor; [apply sound_deleteLabel|constructor].
  - apply kept_writes. constructor; [apply sound_updateClient|constructor].
  - apply kept_bind_ret, kept_RecordClientContact.
  - apply kept_LinkMessages.
  - apply kept_RecordUsage.
  - apply kept_SetMessageResult.
  - apply kept_DeletePendingMessages.
  - apply kept_StoreMessages.
  - apply kept_bind_ret, kept_ClientMessagesForProcessing.
  - apply kept_broadcastOp.
  - apply kept_lift. intros b. apply preserves_buffers. apply buffers_bind; [done| |intros; apply buffers_one, sound_putFile].
    apply buffers_readOnly; [done|]. apply readOnly_bind; [done|]. intros t. cbv zeta. by destruct (tspbCheckValid _).
  - apply kept_writes. constructor; [apply sound_deleteFile|constructor].
Qed.

(** C9: whatever the operations of the Spanner datastore return, and in whatever
    order they run, no message for a client that is without a result loses its
    pending row, nothing is pending that is not stored, and rows about a client
    refer to a client that exists. *)
Theorem sp_store_sound ops w :
  Forall validOp ops -> spSound (dTables (w_data w)) ->
  spSound (dTables (w_data (foldl (fun w op => snd (runStoreOp op w)) w ops))).
Proof using Type.
  intros Hops. revert w. induction Hops as [|op ops Hop _ IH]; intros w Hw; [done|]. cbn. apply IH.
  exact (kept_storeOp op Hop w Hw).
Qed.
End Store.

(** ** Witnesses *)
Lemma runOk_keeps (op : storeOp) w : validOp op -> spSound (dTables (w_data w)) -> spSound (dTables (w_data (snd (runStoreOp op w)))).
Proof. intros Hv Hw. exact (kept_storeOp op Hv w Hw). Qed.

Definition spannerOps : list storeOp := [OpAddClient exampleClientID spannerClient; OpStoreMessages spannerMessages ""].
Definition afterOps : World Datastore := foldl (fun w op => snd (runStoreOp op w)) spannerEmpty spannerOps.

Lemma exampleClientID_valid : ClientID.valid exampleClientID.
Proof. by right. Qed.

Lemma sp_store_sound_witness :
  spSound (dTables (w_data afterOps)) /\ size (spMessages (dTables (w_data afterOps))) = 2 /\ size (spPendings (dTables (w_data afterOps))) = 1.
Proof.
  split; [|split; vm_compute; reflexivity].
  exact (sp_store_sound spannerOps spannerEmpty ltac:(repeat constructor; exact exampleClientID_valid) spSound_empty).
Defined.

Definition clientAdded : World Datastore := snd (runStoreOp (OpAddClient exampleClientID spannerClient) spannerEmpty).
Lemma clientAdded_sound : spSound (dTables (w_data clientAdded)).
Proof. apply runOk_keeps; [exact exampleClientID_valid|exact spSound_empty]. Qed.

Definition messagesStored := StoreMessages spannerMessages "" clientAdded.
#[local] Strategy expand [messagesStored].
Lemma spannerMessages_ids : NoDup (Message.MessageId <$> spannerMessages).
Proof. apply (bool_decide_eq_true_1 _). vm_compute. reflexivity. Qed.

Lemma sp_store_messages_spec_witness :
  fst messagesStored = Ok tt /\ spSound (dTables (w_data (snd messagesStored))) /\
  spStatus (dTables (w_data (snd messagesStored))) k1 = Present None.
Proof.
  assert (H : fst messagesStored = Ok tt) by (vm_compute; reflexivity). split; [exact H|].
  assert (H' : messagesStored = (Ok tt, snd messagesStored)) by (rewrite <- H; apply surjective_pairing).
  destruct (sp_store_messages_spec spannerMessages "" clientAdded tt (snd messagesStored) clientAdded_sound spannerMessages_ids H')
    as (Hs & Hm & _).
  split; [exact Hs|]. destruct (Hm (sampleMessage 1 exampleClientID None) k1) as [Hk _]; [by left|reflexivity|].
  rewrite Hk. vm_compute. reflexivity.
Defined.

Lemma messagesStored_sound : spSound (dTables (w_data (snd messagesStored))).
Proof. exact (runOk_keeps (OpStoreMessages spannerMessages "") clientAdded I clientAdded_sound). Qed.

Definition spannerClaim := ClientMessagesForProcessing exampleClientID 10 (Some sampleLimits) (snd messagesStored).
#[local] Strategy expand [spannerClaim].
Lemma sp_client_messages_spec_witness :
  exists msgs, fst spannerClaim = Ok (msgs, None) /\ length msgs = 1 /\ spSound (dTables (w_data (snd spannerClaim))).
Proof.
  assert (H : exists msgs, fst spannerClaim = Ok (msgs, None) /\ length msgs = 1) by (vm_compute; eexists; split; reflexivity).
  destruct H as (msgs & H & Hl). exists msgs. split; [exact H|]. split; [exact Hl|].
  assert (E : spannerClaim = (Ok (msgs, None), snd spannerClaim)) by (rewrite <- H; apply surjective_pairing).
  destruct (sp_client_messages_spec exampleClientID (contents (ClientID.Bytes exampleClientID)) 10 (Some sampleLimits) (snd messagesStored)
    msgs None (snd spannerClaim) messagesStored_sound eq_refl ltac:(lia) E) as (n & ids & _ & _ & _ & _ & _ & _ & Hs). exact Hs.
Defined.

(** A processor that saves a result. *)
Definition process (ms : list Message.t) : Sp unit :=
  forM_ ms (fun m => SetMessageResult ClientID.nil (MessageID.Mk (contents (Message.MessageId m))) (sampleResult false)).
Definition notified := onNotification process k2 (snd messagesStored).
#[local] Strategy expand [notified].
Lemma notification_ack_sound_witness :
  fst notified = Ok true /\ exists r, spMessages (dTables (w_data (snd notified))) !! k2 = Some r /\ is_Some (spResult r).
Proof.
  assert (H : fst notified = Ok true) by (vm_compute; reflexivity). split; [exact H|].
  assert (E : notified = (Ok true, snd notified)) by (rewrite <- H; apply surjective_pairing).
  exact (proj2 (notification_ack_sound process k2 (snd messagesStored) (snd notified) E)).
Defined.
