(* ===== verification/Monitored.v ===== *)
(** * The datastore interface and its monitoring wrapper

    server/db/store.go as a class with an instance for each datastore, and
    server/stats.go: MonitoredDatastore and MonitoredFileStore, which pass every
    operation on and report how long it took and how it ended. *)
From Stdlib Require Import SpecFloat.
From S2P Require Import Prelude Platform Ids Proto Db.
From S2P Require Sqlite SqliteMessages SqliteClients SqliteBroadcasts SqliteFiles.
From S2P Require MySql MySqlMessages MySqlClients MySqlBroadcasts.
From S2P Require Spanner SpannerClients SpannerMessages SpannerBroadcasts.

(** ** db.Store, but for the calls that give rows to a callback

    ClientMessagesForProcessing may return messages together with an error, as
    it does on Spanner; on sqlite and MySQL it never does. *)
Class Datastore (St : Type) := {
  dsClientMessagesForProcessing : ClientID.t -> Z -> option (gmap string Z) -> M (World St) (list Message.t * option goerror);
  dsStoreMessages : list Message.t -> ContactID -> M (World St) unit;
  dsDeletePendingMessages : list ClientID.t -> M (World St) unit;
  dsGetPendingMessageCount : list ClientID.t -> M (World St) Z;
  dsGetPendingMessages : list ClientID.t -> Z -> Z -> bool -> M (World St) (list Message.t);
  dsGetMessages : list MessageID.t -> bool -> M (World St) (list Message.t);
  dsSetMessageResult : ClientID.t -> MessageID.t -> MessageResult.t -> M (World St) unit;
  dsGetMessageResult : MessageID.t -> M (World St) (option MessageResult.t);
  dsListClients : list ClientID.t -> M (World St) (list Client.t);
  dsGetClientData : ClientID.t -> M (World St) ClientData.t;
  dsAddClient : ClientID.t -> ClientData.t -> M (World St) unit;
  dsAddClientLabel : ClientID.t -> Label.t -> M (World St) unit;
  dsRemoveClientLabel : ClientID.t -> Label.t -> M (World St) unit;
  dsBlacklistClient : ClientID.t -> M (World St) unit;
  dsRecordClientContact : DbContactData.t -> M (World St) ContactID;
  dsListClientContacts : ClientID.t -> M (World St) (list ClientContact.t);
  dsRecordResourceUsageData : ClientID.t -> ResourceUsageData.t -> M (World St) unit;
  dsFetchResourceUsageRecords : ClientID.t -> option Timestamp.t -> option Timestamp.t ->
    M (World St) (list ClientResourceUsageRecord.t);
  dsLinkMessagesToContact : ContactID -> list MessageID.t -> M (World St) unit;
  dsCreateBroadcast : option Broadcast.t -> Z -> M (World St) unit;
  dsSetBroadcastLimit : BroadcastID.t -> Z -> M (World St) unit;
  dsDisableBroadcasts : list BroadcastID.t -> M (World St) unit;
  dsSaveBroadcastMessage : Message.t -> BroadcastID.t -> ClientID.t -> AllocationID.t -> M (World St) unit;
  dsListActiveBroadcasts : M (World St) (list BroadcastInfo.t);
  dsListSentBroadcasts : ClientID.t -> M (World St) (list BroadcastID.t);
  dsCreateAllocation : BroadcastID.t -> spec_float -> Z -> M (World St) (option AllocationInfo.t);
  dsCleanupAllocation : BroadcastID.t -> AllocationID.t -> Z -> M (World St) unit;
  dsStoreFile : string -> string -> outcome string -> M (World St) unit;
  dsDeleteFile : string -> string -> M (World St) unit;
  dsStatFile : string -> string -> M (World St) Z;
  dsReadFile : string -> string -> M (World St) (string * Z);
  dsIsNotFound : goerror -> bool;
}.

(** The two that do; the state of the callback is beside the datastore's.  (The
    definitions of the two for sqlite, in SqliteClients, keep no state of a
    callback that has failed, and are no instance.) *)
Class StreamingStore (St : Type) := {
  dsStreamClientIds : forall X, bool -> option Z -> (X -> ClientID.t -> X * option goerror) -> M (World (St * X)) unit;
  dsStreamClientContacts : forall X, ClientID.t -> (X -> ClientContact.t -> X * option goerror) -> M (World (St * X)) unit;
}.

Import (hints) Sqlite.
Section Instances.
Context `{P : Platform} `{L : ProtoLib} `{F : FloatConv}.

Import SqliteMessages SqliteClients SqliteBroadcasts SqliteFiles.
#[export] Instance sqlite_datastore : Datastore Sqlite.Db := {|
  dsClientMessagesForProcessing id lim serviceLimits :=
    ClientMessagesForProcessing id lim serviceLimits ≫= fun msgs => mret (msgs, None);
  dsStoreMessages := StoreMessages;
  dsDeletePendingMessages := DeletePendingMessages;
  dsGetPendingMessageCount := GetPendingMessageCount;
  dsGetPendingMessages := GetPendingMessages;
  dsGetMessages := GetMessages;
  dsSetMessageResult := SetMessageResult;
  dsGetMessageResult := GetMessageResult;
  dsListClients := ListClients;
  dsGetClientData := GetClientData;
  dsAddClient := AddClient;
  dsAddClientLabel := AddClientLabel;
  dsRemoveClientLabel := RemoveClientLabel;
  dsBlacklistClient := BlacklistClient;
  dsRecordClientContact := RecordClientContact;
  dsListClientContacts := ListClientContacts;
  dsRecordResourceUsageData := RecordResourceUsageData;
  dsFetchResourceUsageRecords := FetchResourceUsageRecords;
  dsLinkMessagesToContact := LinkMessagesToContact;
  dsCreateBroadcast := CreateBroadcast;
  dsSetBroadcastLimit := SetBroadcastLimit;
  dsDisableBroadcasts := DisableBroadcasts;
  dsSaveBroadcastMessage := SaveBroadcastMessage;
  dsListActiveBroadcasts := ListActiveBroadcasts;
  dsListSentBroadcasts := ListSentBroadcasts;
  dsCreateAllocation := CreateAllocation;
  dsCleanupAllocation := CleanupAllocation;
  dsStoreFile := StoreFile;
  dsDeleteFile := DeleteFile;
  dsStatFile := StatFile;
  dsReadFile := ReadFile;
  dsIsNotFound := Sqlite.IsNotFound;
|}.
End Instances.

Section MySqlInstances.
Context `{P : Platform} `{L : ProtoLib} `{E : MySql.MySqlEngine} `{F : FloatConv}.

Import MySqlMessages MySqlClients MySqlBroadcasts.
#[export] Instance mysql_datastore : Datastore MySql.Tables := {|
  dsClientMessagesForProcessing id lim serviceLimits :=
    ClientMessagesForProcessing id lim serviceLimits ≫= fun msgs => mret (msgs, None);
  dsStoreMessages := StoreMessages;
  dsDeletePendingMessages := DeletePendingMessages;
  dsGetPendingMessageCount := GetPendingMessageCount;
  dsGetPendingMessages := GetPendingMessages;
  dsGetMessages := GetMessages;
  dsSetMessageResult := SetMessageResult;
  dsGetMessageResult := GetMessageResult;
  dsListClients := ListClients;
  dsGetClientData := GetClientData;
  dsAddClient := AddClient;
  dsAddClientLabel := AddClientLabel;
  dsRemoveClientLabel := RemoveClientLabel;
  dsBlacklistClient := BlacklistClient;
  dsRecordClientContact := RecordClientContact;
  dsListClientContacts := ListClientContacts;
  dsRecordResourceUsageData := RecordResourceUsageData;
  dsFetchResourceUsageRecords := FetchResourceUsageRecords;
  dsLinkMessagesToContact := LinkMessagesToContact;
  dsCreateBroadcast := CreateBroadcast;
  dsSetBroadcastLimit := SetBroadcastLimit;
  dsDisableBroadcasts := DisableBroadcasts;
  dsSaveBroadcastMessage := SaveBroadcastMessage;
  dsListActiveBroadcasts := ListActiveBroadcasts;
  dsListSentBroadcasts := ListSentBroadcasts;
  dsCreateAllocation := CreateAllocation;
  dsCleanupAllocation := CleanupAllocation;
  dsStoreFile := StoreFile;
  dsDeleteFile := DeleteFile;
  dsStatFile := StatFile;
  dsReadFile := ReadFile;
  dsIsNotFound := Sqlite.IsNotFound;
|}.
#[export] Instance mysql_streaming : StreamingStore MySql.Tables := {|
  dsStreamClientIds X := StreamClientIds (X := X);
  dsStreamClientContacts X := StreamClientContacts (X := X);
|}.
End MySqlInstances.

Section SpannerInstances.
Context `{P : Platform} `{L : ProtoLib} `{E : Spanner.SpannerEngine} `{F : FloatConv}.

Import SpannerMessages SpannerClients SpannerBroadcasts.
#[export] Instance spanner_datastore : Datastore Spanner.Datastore := {|
  dsClientMessagesForProcessing := ClientMessagesForProcessing;
  dsStoreMessages := StoreMessages;
  dsDeletePendingMessages := DeletePendingMessages;
  dsGetPendingMessageCount := GetPendingMessageCount;
  dsGetPendingMessages := GetPendingMessages;
  dsGetMessages := GetMessages;
  dsSetMessageResult := SetMessageResult;
  dsGetMessageResult := GetMessageResult;
  dsListClients := ListClients;
  dsGetClientData := GetClientData;
  dsAddClient := AddClient;
  dsAddClientLabel := AddClientLabel;
  dsRemoveClientLabel := RemoveClientLabel;
  dsBlacklistClient := BlacklistClient;
  dsRecordClientContact := RecordClientContact;
  dsListClientContacts := ListClientContacts;
  dsRecordResourceUsageData := RecordResourceUsageData;
  dsFetchResourceUsageRecords := FetchResourceUsageRecords;
  dsLinkMessagesToContact := LinkMessagesToContact;
  dsCreateBroadcast := CreateBroadcast;
  dsSetBroadcastLimit := SetBroadcastLimit;
  dsDisableBroadcasts := DisableBroadcasts;
  dsSaveBroadcastMessage := SaveBroadcastMessage;
  dsListActiveBroadcasts := ListActiveBroadcasts;
  dsListSentBroadcasts := ListSentBroadcasts;
  dsCreateAllocation := CreateAllocation;
  dsCleanupAllocation := CleanupAllocation;
  dsStoreFile := StoreFile;
  dsDeleteFile := DeleteFile;
  dsStatFile := StatFile;
  dsReadFile := ReadFile;
  dsIsNotFound := Spanner.IsNotFound;
|}.
#[export] Instance spanner_streaming : StreamingStore Spanner.Datastore := {|
  dsStreamClientIds X := StreamClientIds (X := X);
  dsStreamClientContacts X := StreamClientContacts (X := X);
|}.
End SpannerInstances.

(** ** Monitoring *)

(** A call of stats.Collector.DatastoreOperation. *)
Record report := mkReport {
  reportStart : Z;
  reportEnd : Z;
  reportOperation : string;
  reportResult : option goerror;
}.

Module MonitoredDatastore.
Section Monitored.
Context `{P : Platform} {St : Type} `{D : Datastore St} `{SS : StreamingStore St}.

(** The datastore, and what its collector was told. *)
Abbreviation Mon A := (M (World (St * list report)) A).

Definition DatastoreOperation (r : report) : Mon unit := fun w =>
  (Ok tt, mkWorld (fst (w_data w), snd (w_data w) ++ [r]) (w_step w)).

Definition inDatastore {A} (m : M (World St) A) : Mon A := onPart fst (fun d s => (d, snd s)) m.

(** The text of every method; [tell] is what is made of its error, [also] the
    error among its results. *)
Definition monitoredWith {A} (also : A -> option goerror) (tell : goerror -> option goerror) (operation : string) (m : M (World St) A) : Mon A :=
  s ← now;
  r ← try (inDatastore m);
  t ← now;
  DatastoreOperation (mkReport s t operation (match r with inl res => also res | inr e => tell e end)) ≫= fun _ =>
  match r with inl res => mret res | inr e => fail e end.
Definition monitored {A} : string -> M (World St) A -> Mon A := monitoredWith (fun _ => None) Some.
(** GetClientData reports that a client is not there as no error. *)
Definition monitoredRead {A} : string -> M (World St) A -> Mon A :=
  monitoredWith (fun _ => None) (fun e => if dsIsNotFound e then None else Some e).

Definition ClientMessagesForProcessing (id : ClientID.t) (lim : Z) (serviceLimits : option (gmap string Z)) :
    Mon (list Message.t * option goerror) :=
  monitoredWith snd Some "ClientMessagesForProcessing" (dsClientMessagesForProcessing id lim serviceLimits).
Definition StoreMessages (msgs : list Message.t) (contact : ContactID) : Mon unit :=
  monitored "StoreMessages" (dsStoreMessages msgs contact).
Definition DeletePendingMessages (ids : list ClientID.t) : Mon unit :=
  monitored "DeletePendingMessages" (dsDeletePendingMessages ids).
Definition GetPendingMessageCount (ids : list ClientID.t) : Mon Z :=
  monitored "GetPendingMessageCount" (dsGetPendingMessageCount ids).
Definition GetPendingMessages (ids : list ClientID.t) (offset : Z) (limit : Z) (wantData : bool) : Mon (list Message.t) :=
  monitored "GetPendingMessages" (dsGetPendingMessages ids offset limit wantData).
Definition GetMessages (ids : list MessageID.t) (wantData : bool) : Mon (list Message.t) :=
  monitored "GetMessages" (dsGetMessages ids wantData).
Definition SetMessageResult (dest : ClientID.t) (id : MessageID.t) (res : MessageResult.t) : Mon unit :=
  monitored "SetMessageResult" (dsSetMessageResult dest id res).
Definition GetMessageResult (id : MessageID.t) : Mon (option MessageResult.t) :=
  monitored "GetMessageResult" (dsGetMessageResult id).
Definition ListClients (ids : list ClientID.t) : Mon (list Client.t) :=
  monitored "ListClients" (dsListClients ids).
Definition GetClientData (id : ClientID.t) : Mon ClientData.t :=
  monitoredRead "GetClientData" (dsGetClientData id).
Definition AddClient (id : ClientID.t) (data : ClientData.t) : Mon unit :=
  monitored "AddClient" (dsAddClient id data).
Definition AddClientLabel (id : ClientID.t) (l : Label.t) : Mon unit :=
  monitored "AddClientLabel" (dsAddClientLabel id l).
Definition RemoveClientLabel (id : ClientID.t) (l : Label.t) : Mon unit :=
  monitored "RemoveClientLabel" (dsRemoveClientLabel id l).
Definition BlacklistClient (id : ClientID.t) : Mon unit :=
  monitored "BlacklistClient" (dsBlacklistClient id).
Definition RecordClientContact (data : DbContactData.t) : Mon ContactID :=
  monitored "RecordClientContact" (dsRecordClientContact data).
Definition ListClientContacts (id : ClientID.t) : Mon (list ClientContact.t) :=
  monitored "ListClientContacts" (dsListClientContacts id).
Definition RecordResourceUsageData (id : ClientID.t) (rud : ResourceUsageData.t) : Mon unit :=
  monitored "RecordResourceUsageData" (dsRecordResourceUsageData id rud).
Definition FetchResourceUsageRecords (id : ClientID.t) (startTimestamp : option Timestamp.t) (endTimestamp : option Timestamp.t) : Mon (list ClientResourceUsageRecord.t) :=
  monitored "FetchResourceUsageRecords" (dsFetchResourceUsageRecords id startTimestamp endTimestamp).
Definition LinkMessagesToContact (contact : ContactID) (msgs : list MessageID.t) : Mon unit :=
  monitored "LinkMessagesToContact" (dsLinkMessagesToContact contact msgs).
Definition CreateBroadcast (b : option Broadcast.t) (limit : Z) : Mon unit :=
  monitored "CreateBroadcast" (dsCreateBroadcast b limit).
Definition SetBroadcastLimit (id : BroadcastID.t) (limit : Z) : Mon unit :=
  monitored "SetBroadcastLimit" (dsSetBroadcastLimit id limit).
Definition DisableBroadcasts (bIDs : list BroadcastID.t) : Mon unit :=
  monitored "DisableBroadcasts" (dsDisableBroadcasts bIDs).
Definition SaveBroadcastMessage (msg : Message.t) (bid : BroadcastID.t) (cid : ClientID.t) (aid : AllocationID.t) : Mon unit :=
  monitored "SaveBroadcastMessage" (dsSaveBroadcastMessage msg bid cid aid).
Definition ListActiveBroadcasts : Mon (list BroadcastInfo.t) :=
  monitored "ListActiveBroadcasts" (dsListActiveBroadcasts).
Definition ListSentBroadcasts (id : ClientID.t) : Mon (list BroadcastID.t) :=
  monitored "ListSentBroadcasts" (dsListSentBroadcasts id).
Definition CreateAllocation (id : BroadcastID.t) (frac : spec_float) (expiry : Z) : Mon (option AllocationInfo.t) :=
  monitored "CreateAllocation" (dsCreateAllocation id frac expiry).
Definition CleanupAllocation (bid : BroadcastID.t) (aid : AllocationID.t) (finalSent : Z) : Mon unit :=
  monitored "CleanupAllocation" (dsCleanupAllocation bid aid finalSent).
Definition StoreFile (service : string) (name : string) (data : outcome string) : Mon unit :=
  monitored "StoreFile" (dsStoreFile service name data).
Definition DeleteFile (service : string) (name : string) : Mon unit :=
  monitored "DeleteFile" (dsDeleteFile service name).
Definition StatFile (service : string) (name : string) : Mon Z :=
  monitored "StatFile" (dsStatFile service name).
Definition ReadFile (service : string) (name : string) : Mon (string * Z) :=
  monitored "ReadFile" (dsReadFile service name).

(** The same around a callback. *)
Definition monitoredStream {X} (operation : string) (m : M (World (St * X)) unit) : M (World (St * list report * X)) unit :=
  s ← now;
  r ← try (onPart (fun d => (d.1.1, d.2)) (fun d s => (d.1, s.1.2, d.2)) m);
  t ← now;
  onPart fst (fun d s => (d, s.2))
    (DatastoreOperation (mkReport s t operation (match r with inl _ => None | inr e => Some e end))) ≫= fun _ =>
  match r with inl res => mret res | inr e => fail e end.

Definition StreamClientIds X (includeBlacklisted : bool) (lastContactAfter : option Z)
    (callback : X -> ClientID.t -> X * option goerror) : M (World (St * list report * X)) unit :=
  monitoredStream "StreamClientIds" (dsStreamClientIds X includeBlacklisted lastContactAfter callback).
Definition StreamClientContacts X (id : ClientID.t)
    (callback : X -> ClientContact.t -> X * option goerror) : M (World (St * list report * X)) unit :=
  monitoredStream "StreamClientContacts" (dsStreamClientContacts X id callback).
Definition IsNotFound (e : goerror) : bool := dsIsNotFound e.

(** It is a datastore itself. *)
#[export] Instance monitored_datastore : Datastore (St * list report) := {|
  dsClientMessagesForProcessing := ClientMessagesForProcessing;
  dsStoreMessages := StoreMessages;
  dsDeletePendingMessages := DeletePendingMessages;
  dsGetPendingMessageCount := GetPendingMessageCount;
  dsGetPendingMessages := GetPendingMessages;
  dsGetMessages := GetMessages;
  dsSetMessageResult := SetMessageResult;
  dsGetMessageResult := GetMessageResult;
  dsListClients := ListClients;
  dsGetClientData := GetClientData;
  dsAddClient := AddClient;
  dsAddClientLabel := AddClientLabel;
  dsRemoveClientLabel := RemoveClientLabel;
  dsBlacklistClient := BlacklistClient;
  dsRecordClientContact := RecordClientContact;
  dsListClientContacts := ListClientContacts;
  dsRecordResourceUsageData := RecordResourceUsageData;
  dsFetchResourceUsageRecords := FetchResourceUsageRecords;
  dsLinkMessagesToContact := LinkMessagesToContact;
  dsCreateBroadcast := CreateBroadcast;
  dsSetBroadcastLimit := SetBroadcastLimit;
  dsDisableBroadcasts := DisableBroadcasts;
  dsSaveBroadcastMessage := SaveBroadcastMessage;
  dsListActiveBroadcasts := ListActiveBroadcasts;
  dsListSentBroadcasts := ListSentBroadcasts;
  dsCreateAllocation := CreateAllocation;
  dsCleanupAllocation := CleanupAllocation;
  dsStoreFile := StoreFile;
  dsDeleteFile := DeleteFile;
  dsStatFile := StatFile;
  dsReadFile := ReadFile;
  dsIsNotFound := IsNotFound;
|}.
#[export] Instance monitored_streaming : StreamingStore (St * list report) := {|
  dsStreamClientIds := StreamClientIds;
  dsStreamClientContacts := StreamClientContacts;
|}.
End Monitored.
End MonitoredDatastore.
Export (hints) MonitoredDatastore.
Import MonitoredDatastore (DatastoreOperation, inDatastore, monitoredWith, monitored, monitoredRead, monitoredStream,
  monitored_datastore, monitored_streaming).

(** ** A call of the interface, with the type of what it returns *)
Inductive storeCall : Type -> Type :=
| OpClientMessagesForProcessing (id : ClientID.t) (lim : Z) (serviceLimits : option (gmap string Z)) :
    storeCall (list Message.t * option goerror)
| OpStoreMessages (msgs : list Message.t) (contact : ContactID) : storeCall unit
| OpDeletePendingMessages (ids : list ClientID.t) : storeCall unit
| OpGetPendingMessageCount (ids : list ClientID.t) : storeCall Z
| OpGetPendingMessages (ids : list ClientID.t) (offset : Z) (limit : Z) (wantData : bool) : storeCall (list Message.t)
| OpGetMessages (ids : list MessageID.t) (wantData : bool) : storeCall (list Message.t)
| OpSetMessageResult (dest : ClientID.t) (id : MessageID.t) (res : MessageResult.t) : storeCall unit
| OpGetMessageResult (id : MessageID.t) : storeCall (option MessageResult.t)
| OpListClients (ids : list ClientID.t) : storeCall (list Client.t)
| OpGetClientData (id : ClientID.t) : storeCall ClientData.t
| OpAddClient (id : ClientID.t) (data : ClientData.t) : storeCall unit
| OpAddClientLabel (id : ClientID.t) (l : Label.t) : storeCall unit
| OpRemoveClientLabel (id : ClientID.t) (l : Label.t) : storeCall unit
| OpBlacklistClient (id : ClientID.t) : storeCall unit
| OpRecordClientContact (data : DbContactData.t) : storeCall ContactID
| OpListClientContacts (id : ClientID.t) : storeCall (list ClientContact.t)
| OpRecordResourceUsageData (id : ClientID.t) (rud : ResourceUsageData.t) : storeCall unit
| OpFetchResourceUsageRecords (id : ClientID.t) (startTimestamp : option Timestamp.t) (endTimestamp : option Timestamp.t) : storeCall (list ClientResourceUsageRecord.t)
| OpLinkMessagesToContact (contact : ContactID) (msgs : list MessageID.t) : storeCall unit
| OpCreateBroadcast (b : option Broadcast.t) (limit : Z) : storeCall unit
| OpSetBroadcastLimit (id : BroadcastID.t) (limit : Z) : storeCall unit
| OpDisableBroadcasts (bIDs : list BroadcastID.t) : storeCall unit
| OpSaveBroadcastMessage (msg : Message.t) (bid : BroadcastID.t) (cid : ClientID.t) (aid : AllocationID.t) : storeCall unit
| OpListActiveBroadcasts : storeCall (list BroadcastInfo.t)
| OpListSentBroadcasts (id : ClientID.t) : storeCall (list BroadcastID.t)
| OpCreateAllocation (id : BroadcastID.t) (frac : spec_float) (expiry : Z) : storeCall (option AllocationInfo.t)
| OpCleanupAllocation (bid : BroadcastID.t) (aid : AllocationID.t) (finalSent : Z) : storeCall unit
| OpStoreFile (service : string) (name : string) (data : outcome string) : storeCall unit
| OpDeleteFile (service : string) (name : string) : storeCall unit
| OpStatFile (service : string) (name : string) : storeCall Z
| OpReadFile (service : string) (name : string) : storeCall (string * Z).

Definition runCall {St} `{D : Datastore St} {A} (c : storeCall A) : M (World St) A :=
  match c in storeCall A return M (World St) A with
  | OpClientMessagesForProcessing id lim serviceLimits => dsClientMessagesForProcessing id lim serviceLimits
  | OpStoreMessages msgs contact => dsStoreMessages msgs contact
  | OpDeletePendingMessages ids => dsDeletePendingMessages ids
  | OpGetPendingMessageCount ids => dsGetPendingMessageCount ids
  | OpGetPendingMessages ids offset limit wantData => dsGetPendingMessages ids offset limit wantData
  | OpGetMessages ids wantData => dsGetMessages ids wantData
  | OpSetMessageResult dest id res => dsSetMessageResult dest id res
  | OpGetMessageResult id => dsGetMessageResult id
  | OpListClients ids => dsListClients ids
  | OpGetClientData id => dsGetClientData id
  | OpAddClient id data => dsAddClient id data
  | OpAddClientLabel id l => dsAddClientLabel id l
  | OpRemoveClientLabel id l => dsRemoveClientLabel id l
  | OpBlacklistClient id => dsBlacklistClient id
  | OpRecordClientContact data => dsRecordClientContact data
  | OpListClientContacts id => dsListClientContacts id
  | OpRecordResourceUsageData id rud => dsRecordResourceUsageData id rud
  | OpFetchResourceUsageRecords id startTimestamp endTimestamp => dsFetchResourceUsageRecords id startTimestamp endTimestamp
  | OpLinkMessagesToContact contact msgs => dsLinkMessagesToContact contact msgs
  | OpCreateBroadcast b limit => dsCreateBroadcast b limit
  | OpSetBroadcastLimit id limit => dsSetBroadcastLimit id limit
  | OpDisableBroadcasts bIDs => dsDisableBroadcasts bIDs
  | OpSaveBroadcastMessage msg bid cid aid => dsSaveBroadcastMessage msg bid cid aid
  | OpListActiveBroadcasts => dsListActiveBroadcasts
  | OpListSentBroadcasts id => dsListSentBroadcasts id
  | OpCreateAllocation id frac expiry => dsCreateAllocation id frac expiry
  | OpCleanupAllocation bid aid finalSent => dsCleanupAllocation bid aid finalSent
  | OpStoreFile service name data => dsStoreFile service name data
  | OpDeleteFile service name => dsDeleteFile service name
  | OpStatFile service name => dsStatFile service name
  | OpReadFile service name => dsReadFile service name
  end.

Definition callName {A} (c : storeCall A) : string :=
  match c with
  | OpClientMessagesForProcessing _ _ _ => "ClientMessagesForProcessing"
  | OpStoreMessages _ _ => "StoreMessages"
  | OpDeletePendingMessages _ => "DeletePendingMessages"
  | OpGetPendingMessageCount _ => "GetPendingMessageCount"
  | OpGetPendingMessages _ _ _ _ => "GetPendingMessages"
  | OpGetMessages _ _ => "GetMessages"
  | OpSetMessageResult _ _ _ => "SetMessageResult"
  | OpGetMessageResult _ => "GetMessageResult"
  | OpListClients _ => "ListClients"
  | OpGetClientData _ => "GetClientData"
  | OpAddClient _ _ => "AddClient"
  | OpAddClientLabel _ _ => "AddClientLabel"
  | OpRemoveClientLabel _ _ => "RemoveClientLabel"
  | OpBlacklistClient _ => "BlacklistClient"
  | OpRecordClientContact _ => "RecordClientContact"
  | OpListClientContacts _ => "ListClientContacts"
  | OpRecordResourceUsageData _ _ => "RecordResourceUsageData"
  | OpFetchResourceUsageRecords _ _ _ => "FetchResourceUsageRecords"
  | OpLinkMessagesToContact _ _ => "LinkMessagesToContact"
  | OpCreateBroadcast _ _ => "CreateBroadcast"
  | OpSetBroadcastLimit _ _ => "SetBroadcastLimit"
  | OpDisableBroadcasts _ => "DisableBroadcasts"
  | OpSaveBroadcastMessage _ _ _ _ => "SaveBroadcastMessage"
  | OpListActiveBroadcasts => "ListActiveBroadcasts"
  | OpListSentBroadcasts _ => "ListSentBroadcasts"
  | OpCreateAllocation _ _ _ => "CreateAllocation"
  | OpCleanupAllocation _ _ _ => "CleanupAllocation"
  | OpStoreFile _ _ _ => "StoreFile"
  | OpDeleteFile _ _ => "DeleteFile"
  | OpStatFile _ _ => "StatFile"
  | OpReadFile _ _ => "ReadFile"
  end.

(** ** What a user of the interface does

    A program of calls, each one chosen from what the ones before returned; the
    callbacks of the two streaming calls work on a state of the caller. *)
Inductive program (X : Type) : Type :=
| Return (x : X)
| Call {A} (c : storeCall A) (k : A + goerror -> program X)
| CallStreamClientIds {Y} (includeBlacklisted : bool) (lastContactAfter : option Z)
    (callback : Y -> ClientID.t -> Y * option goerror) (y : Y) (k : Y -> unit + goerror -> program X)
| CallStreamClientContacts {Y} (id : ClientID.t)
    (callback : Y -> ClientContact.t -> Y * option goerror) (y : Y) (k : Y -> unit + goerror -> program X).
Arguments Return {X}.
Arguments Call {X A}.
Arguments CallStreamClientIds {X Y}.
Arguments CallStreamClientContacts {X Y}.

(** A streaming call with [y] as the caller's state: what it returns, and the
    caller's state after it. *)
Definition streamCall {St Y} (m : M (World (St * Y)) unit) (y : Y) : World St -> outcome unit * Y * World St := fun w =>
  let '(r, w') := m (mkWorld (w_data w, y) (w_step w)) in (r, snd (w_data w'), mkWorld (fst (w_data w')) (w_step w')).

Definition returned {A} (r : outcome A) : string + (A + goerror) :=
  match r with Ok a => inr (inl a) | Err e => inr (inr e) | Crash why => inl why end.

(** The program on a datastore; a panic of a call ends it. *)
Fixpoint run {St X} `{D : Datastore St} `{SS : StreamingStore St} (p : program X) (w : World St) : outcome X * World St :=
  match p with
  | Return x => (Ok x, w)
  | Call c k =>
      let '(r, w1) := runCall c w in
      match returned r with inr r => run (k r) w1 | inl why => (Crash why, w1) end
  | CallStreamClientIds b t callback y k =>
      let '(r, y, w1) := streamCall (dsStreamClientIds _ b t callback) y w in
      match returned r with inr r => run (k y r) w1 | inl why => (Crash why, w1) end
  | CallStreamClientContacts id callback y k =>
      let '(r, y, w1) := streamCall (dsStreamClientContacts _ id callback) y w in
      match returned r with inr r => run (k y r) w1 | inl why => (Crash why, w1) end
  end.

(** A call that returned: its name, the error to tell, and when it began and
    ended. *)
Record event := mkEvent {
  evOperation : string;
  evError : option goerror;
  evBegin : nat;
  evEnd : nat;
}.

Section Equivalence.
Context `{P : Platform} {St : Type} `{D : Datastore St} `{SS : StreamingStore St}.

(** The error among the results of a call. *)
Definition resultError {A} (c : storeCall A) : A -> option goerror :=
  match c in storeCall A return A -> option goerror with
  | OpClientMessagesForProcessing _ _ _ => snd
  | _ => fun _ => None
  end.

(** What is told of a call. *)
Definition told {A} (c : storeCall A) (r : outcome A) : option goerror :=
  match r with
  | Ok a => resultError c a
  | Err e => match c with OpGetClientData _ => if dsIsNotFound e then None else Some e | _ => Some e end
  | _ => None
  end.

Definition errorOf {A} (r : outcome A) : option goerror := match r with Err e => Some e | _ => None end.

(** The program on a datastore that is not alone: time passes before a call and
    after it.  [tr] has the calls that returned. *)
Inductive runs {X} : program X -> World St -> list event -> outcome X -> World St -> Prop :=
| runs_wait p d n tr res w : runs p (mkWorld d (S n)) tr res w -> runs p (mkWorld d n) tr res w
| runs_return x w : runs (Return x) w [] (Ok x) w
| runs_call A (c : storeCall A) k w r o w1 tr res w2 :
    runCall c w = (r, w1) -> returned r = inr o -> runs (k o) w1 tr res w2 ->
    runs (Call c k) w (mkEvent (callName c) (told c r) (w_step w) (w_step w1) :: tr) res w2
| runs_panic A (c : storeCall A) k w why w1 :
    runCall c w = (Crash why, w1) -> runs (Call c k) w [] (Crash why) w1
| runs_ids Y b t (callback : Y -> ClientID.t -> Y * option goerror) y k w r y1 o w1 tr res w2 :
    streamCall (dsStreamClientIds Y b t callback) y w = (r, y1, w1) -> returned r = inr o -> runs (k y1 o) w1 tr res w2 ->
    runs (CallStreamClientIds b t callback y k) w (mkEvent "StreamClientIds" (errorOf r) (w_step w) (w_step w1) :: tr) res w2
| runs_ids_panic Y b t (callback : Y -> ClientID.t -> Y * option goerror) y k w why y1 w1 :
    streamCall (dsStreamClientIds Y b t callback) y w = (Crash why, y1, w1) ->
    runs (CallStreamClientIds b t callback y k) w [] (Crash why) w1
| runs_contacts Y id (callback : Y -> ClientContact.t -> Y * option goerror) y k w r y1 o w1 tr res w2 :
    streamCall (dsStreamClientContacts Y id callback) y w = (r, y1, w1) -> returned r = inr o -> runs (k y1 o) w1 tr res w2 ->
    runs (CallStreamClientContacts id callback y k) w (mkEvent "StreamClientContacts" (errorOf r) (w_step w) (w_step w1) :: tr) res w2
| runs_contacts_panic Y id (callback : Y -> ClientContact.t -> Y * option goerror) y k w why y1 w1 :
    streamCall (dsStreamClientContacts Y id callback) y w = (Crash why, y1, w1) ->
    runs (CallStreamClientContacts id callback y k) w [] (Crash why) w1.

(** The report of a call: its name, its error, and the clock right before it began
    and when it had ended. *)
Definition reports (e : event) (r : report) : Prop :=
  reportOperation r = evOperation e /\ reportResult r = evError e /\
  reportStart r = clock (pred (evBegin e)) /\ reportEnd r = clock (evEnd e).

(** The state after a call: a call that panics is not reported. *)
Definition reported (calls : list report) (n : nat) (operation : string) (tell : option goerror) (panics : bool) (w : World St) :
    World (St * list report) :=
  if panics then mkWorld (w_data w, calls) (w_step w)
  else mkWorld (w_data w, calls ++ [mkReport (clock n) (clock (w_step w)) operation tell]) (S (w_step w)).

Definition panics {A} (r : outcome A) : bool := match r with Crash _ => true | _ => false end.

Lemma monitoredWith_run {A} also tell operation (m : M (World St) A) d calls n :
  let r := m (mkWorld d (S n)) in
  monitoredWith also tell operation m (mkWorld (d, calls) n) =
    (fst r, reported calls n operation (match fst r with Ok a => also a | Err e => tell e | _ => None end) (panics (fst r)) (snd r)).
Proof using Type.
  cbv zeta. unfold monitoredWith, inDatastore, onPart, try, now, interact, mbind, M_bind. cbn.
  destruct (m _) as [[a|e|why] [d' n']]; reflexivity.
Qed.

Lemma monitoredCall_run {A} (c : storeCall A) d calls n :
  let r := runCall c (mkWorld d (S n)) in
  runCall (D := monitored_datastore) c (mkWorld (d, calls) n) =
    (fst r, reported calls n (callName c) (told c (fst r)) (panics (fst r)) (snd r)).
Proof using Type. destruct c; apply monitoredWith_run. Qed.

Lemma monitoredStream_run {Y} operation (m : M (World (St * Y)) unit) y d calls n :
  let '(r, y1, w1) := streamCall m y (mkWorld d (S n)) in
  streamCall (monitoredStream operation m) y (mkWorld (d, calls) n) =
    (r, y1, reported calls n operation (errorOf r) (panics r) w1).
Proof using Type.
  unfold streamCall, monitoredStream, onPart, try, now, interact, mbind, M_bind. cbn.
  destruct (m _) as [[a|e|why] [[d' x'] n']]; reflexivity.
Qed.

(** What the continuation of a call gives is what the whole program gives. *)
Definition simulated {X} (p : program X) : Prop := forall d calls n,
  let '(res, w') := run (D := monitored_datastore) (SS := monitored_streaming) p (mkWorld (d, calls) n) in
  exists tr new, runs p (mkWorld d n) tr res (mkWorld (fst (w_data w')) (w_step w')) /\
    snd (w_data w') = calls ++ new /\ Forall2 reports tr new.

Lemma simulated_after {X} (p p' : program X) d calls n w1 name tell :
  simulated p' ->
  (forall tr res w2, runs p' w1 tr res w2 -> runs p (mkWorld d (S n)) (mkEvent name tell (S n) (w_step w1) :: tr) res w2) ->
  let '(res, w') := run (D := monitored_datastore) (SS := monitored_streaming) p' (reported calls n name tell false w1) in
  exists tr new, runs p (mkWorld d n) tr res (mkWorld (fst (w_data w')) (w_step w')) /\
    snd (w_data w') = calls ++ new /\ Forall2 reports tr new.
Proof using Type.
  intros IH Hp. unfold reported. set (rep := mkReport _ _ _ _).
  specialize (IH (w_data w1) (calls ++ [rep]) (S (w_step w1))). destruct (run _ _) as [res w'].
  destruct IH as (tr & new & Hr & Hc & Hf). exists (mkEvent name tell (S n) (w_step w1) :: tr), (rep :: new).
  split; [|split].
  - apply runs_wait, Hp. destruct w1. by apply runs_wait.
  - by rewrite Hc, <- app_assoc.
  - constructor; [|done]. unfold reports, rep. cbn. done.
Qed.

(** C14: the monitored datastore behaves as the datastore.  Whatever a program
    that uses the interface does, calls with callbacks included, what it does
    on the monitored datastore it can do on the wrapped one, the wrapper only
    taking time: it makes the same calls, each of them returns the same, the
    program ends with the same result, or panic, and the tables are the same at
    the end.  The collector has been told of every call that returned, once and
    in their order, with its name, the clock before and after it and its error,
    one beside other results included, but that a client that is not there is no error for GetClientData; it has
    been told nothing else. *)
Theorem monitored_refines {X} (p : program X) d calls n :
  let '(res, w') := run (D := monitored_datastore) (SS := monitored_streaming) p (mkWorld (d, calls) n) in
  exists tr new, runs p (mkWorld d n) tr res (mkWorld (fst (w_data w')) (w_step w')) /\
    snd (w_data w') = calls ++ new /\ Forall2 reports tr new.
Proof using Type.
  revert d calls n. change (simulated p).
  induction p as [x|A c k IH|Y b t callback y k IH|Y id callback y k IH]; intros d calls n; cbn [run].
  - exists [], []. rewrite app_nil_r. split; [apply runs_return|]. by split.
  - rewrite monitoredCall_run. destruct (runCall c (mkWorld d (S n))) as [r w1] eqn:Hc. cbn [fst snd].
    destruct r as [a|e|why]; cbn [returned panics].
    1: by eapply simulated_after; [apply IH|intros tr res w2 H; eapply runs_call; [exact Hc|reflexivity|exact H]].
    1: by eapply simulated_after; [apply IH|intros tr res w2 H; eapply runs_call; [exact Hc|reflexivity|exact H]].
    exists [], []. rewrite app_nil_r. split; [|by split]. apply runs_wait. destruct w1. by eapply runs_panic.
  - pose proof (monitoredStream_run "StreamClientIds" (dsStreamClientIds Y b t callback) y d calls n) as Hm.
    destruct (streamCall _ y (mkWorld d (S n))) as [[r y1] w1] eqn:Hc.
    change (dsStreamClientIds (St := St * list report) Y b t callback) with (monitoredStream "StreamClientIds" (dsStreamClientIds Y b t callback)).
    rewrite Hm. destruct r as [a|e|why]; cbn [returned panics].
    1: by eapply simulated_after; [apply IH|intros tr res w2 H; eapply (runs_ids _ _ _ _ _ _ _ _ _ _ _ _ _ _ Hc); [reflexivity|exact H]].
    1: by eapply simulated_after; [apply IH|intros tr res w2 H; eapply (runs_ids _ _ _ _ _ _ _ _ _ _ _ _ _ _ Hc); [reflexivity|exact H]].
    exists [], []. rewrite app_nil_r. split; [|by split]. apply runs_wait. destruct w1. by eapply runs_ids_panic.
  - pose proof (monitoredStream_run "StreamClientContacts" (dsStreamClientContacts Y id callback) y d calls n) as Hm.
    destruct (streamCall _ y (mkWorld d (S n))) as [[r y1] w1] eqn:Hc.
    change (dsStreamClientContacts (St := St * list report) Y id callback) with (monitoredStream "StreamClientContacts" (dsStreamClientContacts Y id callback)).
    rewrite Hm. destruct r as [a|e|why]; cbn [returned panics].
    1: by eapply simulated_after; [apply IH|intros tr res w2 H; eapply (runs_contacts _ _ _ _ _ _ _ _ _ _ _ _ _ Hc); [reflexivity|exact H]].
    1: by eapply simulated_after; [apply IH|intros tr res w2 H; eapply (runs_contacts _ _ _ _ _ _ _ _ _ _ _ _ _ Hc); [reflexivity|exact H]].
    exists [], []. rewrite app_nil_r. split; [|by split]. apply runs_wait. destruct w1. by eapply runs_contacts_panic.
Qed.

(** So what every call of the datastore keeps, the monitored one keeps. *)
Lemma monitored_preserves {A} (I : St -> Prop) (c : storeCall A) d calls n :
  preserves (onData I) (runCall c) -> I d ->
  I (fst (w_data (snd (runCall (D := monitored_datastore) c (mkWorld (d, calls) n))))).
Proof using Type.
  intros HI Hd. pose proof (HI (mkWorld d (S n)) Hd) as Hc. unfold onData in Hc.
  rewrite monitoredCall_run. cbv zeta. unfold reported. by destruct (panics _).
Qed.
End Equivalence.

Import (hints) MySql.

(** A client is added, and one is asked for that is not there: the program sees
    the error, the collector does not. *)
Definition addAndAsk : program bool :=
  Call (OpAddClient exampleClientID (ClientData.Mk (Some "key"%string) [] false)) (fun _ =>
  Call (OpGetClientData (ClientID.Mk "somebody"%string)) (fun r =>
  Return (match r with inl _ => true | inr _ => false end))).
Example not_found_is_not_told :
  let '(r, w) := run (D := monitored_datastore) (SS := monitored_streaming) addAndAsk (mkWorld (MySql.emptyTables, [] : list report) 0) in
  r = Ok false /\ map (fun r => (reportOperation r, reportResult r)) (snd (w_data w)) =
    [("AddClient"%string, None); ("GetClientData"%string, None)].
Proof. vm_compute. by split. Qed.
