(* ===== verification/MessageLoop.v ===== *)
(** * The loop that processes messages for the server

    messageLooper of src/server/sqlite/messagestore.go and
    src/server/mysql/messagestore.go: the goroutine of RegisterMessageProcessor
    and the caller of StopMessageProcessor as a step relation.  What a read of
    the datastore yields is an event; both datastores' reads are modelled in
    SqliteMessages and MySqlMessages.  The two loops differ in the errors they
    give up on ([fatal]): sqlite knows one, MySQL none. *)
From S2P Require Import Prelude.

Definition readonlyDatabase : string := "attempt to write a readonly database".

Section MessageLoop.
Context {Msg : Type} (fatal : goerror -> bool).

Inductive loopAt :=
| LSelect                       (* the select of messageProcessingLoop *)
| LFetch                        (* processMessages, at its read *)
| LHand (msgs : list Msg)       (* in ProcessMessages *)
| LDone.

(** StopMessageProcessor. *)
Inductive stopAt := StopIdle | StopTicker | StopWaits | StopReturned.

Record looper := mkLooper {
  loc : loopAt;
  (** The ticker runs, and has a tick in its channel. *)
  ticking : bool;
  tick : bool;
  stopCalled : bool;
  stopper : stopAt;
  (** What was read, and what ProcessMessages has returned from. *)
  fetched : list (list Msg);
  processed : list (list Msg);
}.

(** RegisterMessageProcessor. *)
Definition newLooper : looper := mkLooper LSelect true false false StopIdle [] [].

Inductive loopEvent :=
| Tick                                   (* 300 ms are over *)
| TakeTick | TakeStop                    (* the cases of the select *)
| Fetched (r : list Msg + goerror)
| Handed                                 (* ProcessMessages returns *)
| StopCalled | CloseStop | LoopDone.     (* the statements of stop *)

Definition loopStep (e : loopEvent) (s : looper) : option looper :=
  let '(mkLooper l tk t sc st f p) := s in
  match e, l, st with
  | Tick, _, _ => if tk then Some (mkLooper l tk true sc st f p) else None
  | TakeTick, LSelect, _ => if t then Some (mkLooper LFetch tk false sc st f p) else None
  | TakeStop, LSelect, _ => if sc then Some (mkLooper LDone tk t sc st f p) else None
  | Fetched (inr e), LFetch, _ => Some (mkLooper (if fatal e then LSelect else LFetch) tk t sc st f p)
  | Fetched (inl msgs), LFetch, _ => Some (mkLooper (LHand msgs) tk t sc st (f ++ [msgs]) p)
  | Handed, LHand msgs, _ =>
      Some (mkLooper (match msgs with [] => LSelect | _ => LFetch end) tk t sc st f (p ++ [msgs]))
  | StopCalled, _, StopIdle => Some (mkLooper l false t sc StopTicker f p)
  | CloseStop, _, StopTicker => Some (mkLooper l tk t true StopWaits f p)
  | LoopDone, LDone, StopWaits => Some (mkLooper l tk t sc StopReturned f p)
  | _, _, _ => None
  end.

Fixpoint runLoop (tr : list loopEvent) (s : looper) : option looper :=
  match tr with
  | [] => Some s
  | e :: tr => s' ← loopStep e s; runLoop tr s'
  end.

(** ** Properties *)

(** Reads that make the loop go on. *)
Definition goesOn (e : loopEvent) : bool :=
  match e with
  | Fetched (inr e) => negb (fatal e)
  | Fetched (inl (_ :: _)) => true
  | _ => false
  end.
Definition busy (tr : list loopEvent) : nat := length (filter (fun e => goesOn e = true) tr).

Definition loopOK (s : looper) : Prop :=
  fetched s = processed s ++ (match loc s with LHand msgs => [msgs] | _ => [] end) /\
  (stopCalled s = true <-> stopper s = StopWaits \/ stopper s = StopReturned) /\
  (loc s = LDone -> stopCalled s = true) /\ (stopper s = StopReturned -> loc s = LDone) /\
  (stopper s <> StopIdle -> ticking s = false).

Lemma loopOK_new : loopOK newLooper.
Proof. unfold loopOK, newLooper; cbn. split_and!; try done; [split; [done|by intros []]]. Qed.

Lemma loopOK_step e s s' : loopOK s -> loopStep e s = Some s' -> loopOK s'.
Proof.
  destruct s as [l tk t sc st f p]. unfold loopOK. cbn. intros (H1 & H2 & H3 & H4 & H5).
  destruct e as [| | |[msgs|e]| | | |], l as [| |ms|], st; cbn; intros E;
    repeat (case_match; simplify_eq/=); try (injection E as <-); cbn in *;
    rewrite ?app_nil_r in *; subst; split_and!; try tauto; try congruence; try (intuition congruence); by rewrite ?app_nil_r.
Qed.

Lemma loopOK_run tr s s' : loopOK s -> runLoop tr s = Some s' -> loopOK s'.
Proof.
  revert s. induction tr as [|e tr IH]; intros s Hs; cbn; [by intros [= <-]|].
  destruct (loopStep e s) as [s1|] eqn:He; [|done]. apply IH. by eapply loopOK_step.
Qed.

(** Steps that are left once stop is under way, not counting reads that make
    the loop go on. *)
Definition stepsLeft (s : looper) : nat :=
  match loc s with LFetch => 3 | LHand [] => 2 | LHand _ => 4 | LSelect => 1 | LDone => 0 end +
  (if tick s then 3 else 0) + (match stopper s with StopReturned => 0 | _ => 1 end).

Lemma stepsLeft_step e s s' : loopOK s -> stopCalled s = true -> loopStep e s = Some s' ->
  stopCalled s' = true /\ 1 + stepsLeft s' <= stepsLeft s + (if goesOn e then 2 else 0).
Proof.
  destruct s as [l tk t sc st f p]. unfold loopOK. cbn. intros (_ & H2 & _ & _ & H5) ->.
  assert (Hst : st = StopWaits \/ st = StopReturned) by by apply H2.
  assert (Htk : tk = false) by (apply H5; by destruct Hst as [-> | ->]). subst tk.
  destruct e as [| | |[[|m msgs]|e]| | | |], l as [| |[|m' ms]|], Hst as [-> | ->]; cbn; intros E;
    repeat (case_match; simplify_eq/=); try (injection E as <-); unfold stepsLeft; cbn; split; try done; try (destruct t; cbn; lia); lia.
Qed.

Lemma busy_cons e tr : busy (e :: tr) = (if goesOn e then 1 else 0) + busy tr.
Proof. unfold busy. rewrite filter_cons. by destruct (goesOn e). Qed.

Lemma stepsLeft_run tr s s' : loopOK s -> stopCalled s = true -> runLoop tr s = Some s' ->
  stopCalled s' = true /\ length tr + stepsLeft s' <= stepsLeft s + 2 * busy tr.
Proof.
  revert s. induction tr as [|e tr IH]; intros s Hs Hsc; [intros [= <-]; split; [done|cbn; lia]|].
  rewrite busy_cons. cbn [runLoop length]. destruct (loopStep e s) as [s1|] eqn:He; [|done]. cbn. intros Hr.
  destruct (stepsLeft_step _ _ _ Hs Hsc He) as [Hsc1 Hl].
  destruct (IH s1 (loopOK_step _ _ _ Hs He) Hsc1 Hr) as [Hsc' Hl'].
  split; [done|]. destruct (goesOn e); lia.
Qed.

(** C15: the loop hands every batch it reads to the service manager, once and in
    order, and StopMessageProcessor ends it: from the call on, there are at
    most two steps for each read that fails or has messages, and eight more,
    and nothing keeps the caller from returning; when it has returned, every
    batch read has been handed over and the loop does nothing more. *)
Theorem loop_stop_ends tr0 tr s s' :
  runLoop tr0 newLooper = Some s -> stopCalled s = true -> runLoop tr s = Some s' ->
  length tr <= 8 + 2 * busy tr /\
  fetched s' = processed s' ++ (match loc s' with LHand msgs => [msgs] | _ => [] end) /\
  ((forall e, loopStep e s' = None) <-> stopper s' = StopReturned) /\
  (stopper s' = StopReturned -> fetched s' = processed s').
Proof.
  intros H0 Hsc Hr. pose proof (loopOK_run _ _ _ loopOK_new H0) as Hs. pose proof (loopOK_run _ _ _ Hs Hr) as Hs'.
  destruct (stepsLeft_run _ _ _ Hs Hsc Hr) as [Hsc' Hl]. destruct Hs' as (H1 & H2 & H3 & H4 & H5).
  split. { assert (stepsLeft s <= 8); [|lia]. unfold stepsLeft. destruct (loc s) as [| |[]|], (tick s), (stopper s); cbn; lia. }
  split; [done|]. split.
  - assert (Hst : stopper s' = StopWaits \/ stopper s' = StopReturned) by by apply H2. split.
    + intros Hstuck. destruct Hst as [Hst|Hst]; [|done]. destruct s' as [l tk t sc st f p]. cbn in *. subst.
      destruct l as [| |ms|]; [by specialize (Hstuck TakeStop)|by specialize (Hstuck (Fetched (inl [])))|by specialize (Hstuck Handed)|by specialize (Hstuck LoopDone)].
    + intros Hret e. specialize (H4 Hret). assert (Htk : ticking s' = false) by (apply H5; by rewrite Hret).
      destruct s' as [l tk t sc st f p]. cbn in *. subst. by destruct e as [| | |[]| | | |].
  - intros Hret. specialize (H4 Hret). rewrite H4 in H1. by rewrite app_nil_r in H1.
Qed.
End MessageLoop.

(** The loop of sqlite gives up on a database that was removed, that of MySQL on
    nothing. *)
Definition fatalSqlite (e : goerror) : bool := match e with ErrText m => String.eqb m readonlyDatabase | _ => false end.
Definition fatalMySql (e : goerror) : bool := false.

Definition sampleRun : list (loopEvent (Msg := nat)) :=
  [Tick; TakeTick; Fetched (inl [1; 2]); StopCalled; Handed; CloseStop].

Lemma loop_stop_ends_witness :
  exists s, runLoop fatalMySql (sampleRun ++ [Fetched (inl []); Handed; TakeStop; LoopDone]) newLooper = Some s /\
    fetched s = [[1; 2]; []] /\ fetched s = processed s.
Proof.
  assert (E : exists s s', runLoop fatalMySql sampleRun newLooper = Some s /\ stopCalled s = true /\
    runLoop fatalMySql [Fetched (inl []); Handed; TakeStop; LoopDone] s = Some s' /\ stopper s' = StopReturned /\ fetched s' = [[1; 2]; []] /\
    runLoop fatalMySql (sampleRun ++ [Fetched (inl []); Handed; TakeStop; LoopDone]) newLooper = Some s')
    by (eexists _, _; split_and!; reflexivity).
  destruct E as (s & s' & H0 & Hsc & Hr & Hret & Hf & H). exists s'. split; [exact H|]. split; [exact Hf|].
  exact (proj2 (proj2 (proj2 (loop_stop_ends fatalMySql sampleRun _ s s' H0 Hsc Hr))) Hret).
Defined.

(** While the datastore cannot be read, the loop tries again at once and looks
    neither at the ticker nor at stopCalled: the end of the server waits for
    the database. *)
Example stop_waits_for_database (n : nat) (e : goerror) :
  exists s, runLoop (Msg := nat) fatalMySql ([Tick; TakeTick; StopCalled; CloseStop] ++ replicate n (Fetched (inr e))) newLooper = Some s /\
    stopper s = StopWaits /\ loc s = LFetch.
Proof.
  exists (mkLooper LFetch false false true StopWaits [] []). split; [|by split].
  cbn. induction n as [|n IH]; [reflexivity|exact IH].
Qed.
