(* ===== verification/SqliteStore.v ===== *)
(** * The sqlite datastore as a state machine

    Every operation of [db.Store] on the sqlite datastore as one step, on some
    connection of the pool, and the invariant of all reachable states.  An
    operation is one transaction of sqlite, so an execution of concurrent
    callers is a sequence of steps; it does not matter that DeletePendingMessages
    runs without the datastore's mutex. *)
From Stdlib Require Import SpecFloat.
From S2P Require Import Prelude Platform Ids Proto Db Sqlite SqliteMessages SqliteClients SqliteBroadcasts SqliteFiles.

Section Machine.
Context `{P : Platform} `{L : ProtoLib} `{F : FloatConv} `{C : Connection}.

(** The operations that can change a table. *)
Inductive storeOp : Type :=
| OpStoreMessages (msgs : list Message.t) (contact : ContactID)
| OpSetMessageResult (dest : ClientID.t) (id : MessageID.t) (res : MessageResult.t)
| OpDeletePendingMessages (ids : list ClientID.t)
| OpClientMessagesForProcessing (id : ClientID.t) (lim : Z) (sl : option (gmap string Z))
| OpAddClient (id : ClientID.t) (data : ClientData.t)
| OpAddClientLabel (id : ClientID.t) (l : Label.t)
| OpRemoveClientLabel (id : ClientID.t) (l : Label.t)
| OpBlacklistClient (id : ClientID.t)
| OpRecordClientContact (data : DbContactData.t)
| OpLinkMessagesToContact (contact : ContactID) (ids : list MessageID.t)
| OpRecordResourceUsageData (id : ClientID.t) (rud : ResourceUsageData.t)
| OpCreateBroadcast (b : option Broadcast.t) (limit : Z)
| OpSetBroadcastLimit (id : BroadcastID.t) (limit : Z)
| OpDisableBroadcasts (ids : list BroadcastID.t)
| OpSaveBroadcastMessage (msg : Message.t) (b : BroadcastID.t) (c : ClientID.t) (a : AllocationID.t)
| OpCreateAllocation (id : BroadcastID.t) (frac : spec_float) (expiry : Z)
| OpCleanupAllocation (b : BroadcastID.t) (a : AllocationID.t) (sent : Z)
| OpStoreFile (service name : string) (data : outcome string)
| OpDeleteFile (service name : string).

Definition void {A} (m : Sql A) : Sql unit := m ≫= fun _ => mret tt.

Definition runOp (op : storeOp) : Sql unit :=
  match op with
  | OpStoreMessages msgs contact => StoreMessages msgs contact
  | OpSetMessageResult dest id res => SetMessageResult dest id res
  | OpDeletePendingMessages ids => DeletePendingMessages ids
  | OpClientMessagesForProcessing id lim sl => void (ClientMessagesForProcessing id lim sl)
  | OpAddClient id data => AddClient id data
  | OpAddClientLabel id l => AddClientLabel id l
  | OpRemoveClientLabel id l => RemoveClientLabel id l
  | OpBlacklistClient id => BlacklistClient id
  | OpRecordClientContact data => void (RecordClientContact data)
  | OpLinkMessagesToContact contact ids => LinkMessagesToContact contact ids
  | OpRecordResourceUsageData id rud => RecordResourceUsageData id rud
  | OpCreateBroadcast b limit => CreateBroadcast b limit
  | OpSetBroadcastLimit id limit => SetBroadcastLimit id limit
  | OpDisableBroadcasts ids => DisableBroadcasts ids
  | OpSaveBroadcastMessage msg b c a => SaveBroadcastMessage msg b c a
  | OpCreateAllocation id frac expiry => void (CreateAllocation id frac expiry)
  | OpCleanupAllocation b a sent => CleanupAllocation b a sent
  | OpStoreFile service name data => StoreFile service name data
  | OpDeleteFile service name => DeleteFile service name
  end.

(** What callers never hand over: identifiers no constructor makes. *)
Definition opOK (op : storeOp) : Prop :=
  match op with
  | OpAddClient id _ => ClientID.valid id
  | OpCreateBroadcast b limit => (forall p, b = Some p -> hasBroadcastID p) /\ isU64 limit
  | _ => True
  end.

(** The references of the rows about broadcasts, but for those of allocations,
    which [ledger] has. *)
Record castRefs (d : Db) : Prop := {
  cr_label bid s l : (bid, s, l) ∈ broadcast_labels d -> is_Some (broadcasts d !! bid);
  cr_sent bid cid : (bid, cid) ∈ broadcast_sent d -> is_Some (broadcasts d !! bid) /\ is_Some (clients d !! cid);
}.

(** Every row refers to existing rows. *)
Definition references (d : Db) : Prop := fk d /\ castRefs d.

Definition storeOK (d : Db) : Prop := wf d /\ references d /\ ledger d.

(** ** Frames: the tables an operation leaves alone *)
Lemma preserves_part {X A} (part : Db -> X) (I : Db -> Prop) (m : Sql A) :
  (forall d d', part d' = part d -> I d -> I d') ->
  (forall c, preserves (onData (fun d => part d = c)) m) -> preserves (onData I) m.
Proof.
  intros HI Hm w Hw. apply (HI (w_data w)); [|exact Hw].
  exact (Hm (part (w_data w)) w eq_refl).
Qed.

Definition clientPart (d : Db) := (clients d, client_labels d, client_contacts d, usage_records d).
Definition castPart (d : Db) := (broadcasts d, broadcast_allocations d).
Definition messagePart (d : Db) :=
  (messages d, pending_messages d, client_contact_messages d, client_contacts d).

Lemma wf_part checked d d' : messagePart d' = messagePart d -> wfOn checked d -> wfOn checked d'.
Proof. intros [= E1 E2 E3 E4] [H1 H2 H3]. split; by rewrite ?E1, ?E2, ?E3, ?E4. Qed.

Lemma fk_part d d' : clientPart d' = clientPart d -> fk d -> fk d'.
Proof.
  intros [= E1 E2 E3 E4] [H1 H2 H3 H4 H5].
  split; rewrite ?E1, ?E2, ?E3, ?E4; assumption.
Qed.

Lemma ledger_part d d' : castPart d' = castPart d -> ledger d -> ledger d'.
Proof. intros [= E1 E2]. unfold ledger. by rewrite E1, E2. Qed.

Lemma castRefs_empty : castRefs emptyDb.
Proof. split; simpl; by intros *; rewrite elem_of_empty. Qed.

(** No broadcast and no client is ever deleted. *)
Lemma castRefs_grow d d' :
  broadcast_labels d' = broadcast_labels d -> broadcast_sent d' = broadcast_sent d ->
  (forall k, is_Some (broadcasts d !! k) -> is_Some (broadcasts d' !! k)) ->
  (forall k, is_Some (clients d !! k) -> is_Some (clients d' !! k)) -> castRefs d -> castRefs d'.
Proof.
  intros E1 E2 Hb Hc [H1 H2]. split; rewrite ?E1, ?E2; [by eauto|].
  intros bid cid [? ?]%H2. by split; [apply Hb|apply Hc].
Qed.

Lemma castRefs_part d d' :
  (clients d', broadcasts d', broadcast_labels d', broadcast_sent d') =
    (clients d, broadcasts d, broadcast_labels d, broadcast_sent d) -> castRefs d -> castRefs d'.
Proof. intros [= E1 E2 E3 E4]. by apply castRefs_grow; rewrite ?E1, ?E2, ?E3, ?E4. Qed.
End Machine.

Section Steps.
Context `{P : Platform} `{L : ProtoLib} `{F : FloatConv}.

(** One operation, whatever it returned, on a connection; with [checked], on one
    that checks foreign keys. *)
Inductive step (checked : Prop) : World Db -> World Db -> Prop :=
| step_op op (C : Connection) w r w' :
    (checked -> C = true) -> opOK op -> runOp (C := C) op w = (r, w') -> step checked w w'.

Definition reachable (checked : Prop) (w : World Db) : Prop := rtc (step checked) (mkWorld emptyDb 0) w.
End Steps.

(** The statement changes none of the tables the goal mentions. *)
Ltac frame_statement :=
  first [apply preserves_exec | apply preserves_execN]; intros;
  repeat match goal with
  | H : mbind _ _ = Ok _ |- _ => apply outcome_bind_Ok in H as (? & ? & H)
  | H : (if ?b then _ else _) = Ok _ |- _ => destruct b
  | H : match ?x with _ => _ end = Ok _ |- _ => destruct x eqn:?
  | H : Ok (_, _) = Ok (_, _) |- _ => injection H as ? <-
  | H : Ok _ = Ok _ |- _ => injection H as <-
  end; try done.

Ltac solve_frame :=
  repeat first
    [ progress intros
    | solve [auto with preserves nocore]
    | apply preserves_runInTx
    | apply preserves_bind
    | apply preserves_try
    | apply preserves_forM
    | apply preserves_mapMs
    | solve [frame_statement]
    | match goal with
      | |- preserves _ (match ?x with _ => _ end) => destruct x
      end ].

(** The statement adds or changes rows, where [castRefs] is concerned. *)
Ltac grow_rows :=
  intros; simpl; first [done|by rewrite lookup_insert_is_Some'; right
    |rewrite lookup_alter; case_decide; [subst; by rewrite fmap_is_Some|done]].
Ltac refs_statement :=
  first [apply preserves_exec | apply preserves_execN]; intros;
  repeat match goal with
  | H : mbind _ _ = Ok _ |- _ => apply outcome_bind_Ok in H as (? & ? & H)
  | H : (if ?b then _ else _) = Ok _ |- _ => destruct b
  | H : match ?x with _ => _ end = Ok _ |- _ => destruct x eqn:?
  | H : Ok (_, _) = Ok (_, _) |- _ => injection H as ? <-
  | H : Ok _ = Ok _ |- _ => injection H as <-
  end; try done; (eapply castRefs_grow; [..|eassumption]; try done; grow_rows).

Ltac solve_refs :=
  repeat first
    [ progress intros
    | solve [auto with preserves nocore]
    | apply preserves_runInTx
    | apply preserves_bind
    | apply preserves_try
    | apply preserves_forM
    | apply preserves_mapMs
    | solve [refs_statement]
    | match goal with
      | |- preserves _ (match ?x with _ => _ end) => destruct x
      end ].

Section Frames.
Context `{P : Platform} `{L : ProtoLib} `{F : FloatConv} `{C : Connection}.

(** *** Message operations change no table about clients or broadcasts *)
Definition nonMessagePart (d : Db) := (clientPart d, castPart d, (broadcast_labels d, broadcast_sent d)).

Lemma takeRows_frame c lim sl rows read res :
  preserves (onData (fun d => nonMessagePart d = c)) (takeRows lim sl rows read res).
Proof.
  revert read res. induction rows as [|dbm rows IH]; intros read res; simpl; [solve_frame|].
  destruct (match sl with Some _ => _ | None => _ end); [apply IH|].
  apply preserves_bind; [|intros m; destruct (_ <=? _)%Z; [apply preserves_ret|apply IH]].
  unfold takeRow. solve_frame.
Qed.

Lemma SaveBroadcastMessage_frame c msg b cl a :
  preserves (onData (fun d => clientPart d = c)) (SaveBroadcastMessage msg b cl a).
Proof.
  unfold SaveBroadcastMessage, tryStoreMessage, insertMessage, insertPending, orDisabled,
    insertSent, updateAllocSent. solve_frame.
Qed.

Definition isMessageOp (op : storeOp) : Prop :=
  match op with
  | OpStoreMessages _ _ | OpSetMessageResult _ _ _ | OpDeletePendingMessages _
  | OpClientMessagesForProcessing _ _ _ | OpStoreFile _ _ _ | OpDeleteFile _ _ => True
  | _ => False
  end.

Lemma message_op_frame c op :
  isMessageOp op -> preserves (onData (fun d => nonMessagePart d = c)) (runOp op).
Proof.
  destruct op; intros []; unfold runOp, void.
  - unfold StoreMessages, storeOne, tryStoreMessage, insertMessage, insertPending, recordResult,
      trySetMessageResult, selectProcessed, linkOrIgnore. solve_frame.
  - unfold SetMessageResult, trySetMessageResult. solve_frame.
  - unfold DeletePendingMessages. apply preserves_runInTx, preserves_bind;
      [apply preserves_getPendingMessageRawIds|]. solve_frame.
  - unfold ClientMessagesForProcessing, internalMessagesForProcessing.
    apply preserves_bind; [|solve_frame]. case_decide; [apply preserves_fail|].
    apply preserves_runInTx, preserves_bind; [solve_frame|]. intros dest.
    apply preserves_bind; [solve_frame|]. intros t.
    apply preserves_bind; [solve_frame|]. intros rows. apply takeRows_frame.
  - unfold StoreFile. solve_frame.
  - unfold DeleteFile. solve_frame.
Qed.

(** *** Client operations change no table about messages or broadcasts *)
Definition isClientOp (op : storeOp) : Prop :=
  match op with
  | OpAddClient _ _ | OpAddClientLabel _ _ | OpRemoveClientLabel _ _ | OpBlacklistClient _
  | OpRecordClientContact _ | OpLinkMessagesToContact _ _ | OpRecordResourceUsageData _ _ => True
  | _ => False
  end.

Lemma client_op_frame c op :
  isClientOp op ->
  preserves (onData (fun d => (messages d, pending_messages d, castPart d) = c)) (runOp op).
Proof.
  destruct op; intros []; unfold runOp, void.
  - unfold AddClient, insertClient, insertLabel. solve_frame.
  - unfold AddClientLabel, insertLabel. solve_frame.
  - unfold RemoveClientLabel. solve_frame.
  - unfold BlacklistClient. solve_frame.
  - unfold RecordClientContact, insertContact. solve_frame.
  - unfold LinkMessagesToContact, linkMessage. solve_frame.
  - unfold RecordResourceUsageData.
    destruct (checkValid (ResourceUsageData.ProcessStartTime rud)); try apply preserves_fail.
    destruct (checkValid (ResourceUsageData.DataTimestamp rud)); try apply preserves_fail.
    solve_frame.
Qed.

(** *** Broadcast operations *)
Definition isCastOp (op : storeOp) : Prop :=
  match op with
  | OpCreateBroadcast _ _ | OpSetBroadcastLimit _ _ | OpDisableBroadcasts _
  | OpCreateAllocation _ _ _ | OpCleanupAllocation _ _ _ => True
  | _ => False
  end.

Lemma cast_op_frame c op :
  isCastOp op ->
  preserves (onData (fun d => (messagePart d, clientPart d) = c)) (runOp op).
Proof.
  destruct op; intros []; unfold runOp, void.
  - unfold CreateBroadcast, insertBroadcast, insertBroadcastLabel. solve_frame.
  - unfold SetBroadcastLimit. solve_frame.
  - unfold DisableBroadcasts, tryDisableBroadcasts, disableOne. solve_frame.
  - unfold CreateAllocation, AllocationID.RandomAllocationID, readCounters, updateAllocated,
      insertAllocation. solve_frame.
  - unfold CleanupAllocation, readCounters, updateSent, updateBoth. solve_frame.
Qed.
End Frames.

(** ** The invariant is kept by every operation *)
Section Kept.
Context `{P : Platform} {HP : PlatformOK P} `{L : ProtoLib} `{F : FloatConv} {HF : FloatConvOK F}.
Context `{C : Connection} {checked : Prop} {CH : Checks checked C}.

Lemma wf_insertContact r : preserves (onData (wfOn checked)) (insertContact r).
Proof.
  apply preserves_execN. intros d n d' [H1 H2 H3] E.
  apply outcome_bind_Ok in E as (? & _ & [= <- <-]). split; [done|done|]. simpl.
  intros Hch c k Hc. destruct (H3 Hch c k Hc) as [Hcc Hm]. split; [|done].
  rewrite lookup_insert_is_Some'. by right.
Qed.

Lemma wf_linkMessage c k : preserves (onData (wfOn checked)) (linkMessage c k).
Proof.
  apply preserves_exec. intros d d' [H1 H2 H3] E.
  apply outcome_bind_Ok in E as (? & _ & E). apply outcome_bind_Ok in E as (? & _ & E).
  apply outcome_bind_Ok in E as (? & Hc & [= <-]).
  split; [done|done|]. simpl. intros Hch c' k'. rewrite elem_of_union, elem_of_singleton.
  intros [[= -> ->]|Hin]; [|by apply H3].
  apply (foreignKey_Ok (EN := checks Hch)), andb_true_iff in Hc as [Hc Hm]. by apply bool_decide_eq_true_1 in Hc, Hm.
Qed.

Lemma wf_client_op op : isClientOp op -> preserves (onData (wfOn checked)) (runOp op).
Proof.
  intros Hop.
  assert (Hpart : forall A (m : Sql A), (forall c, preserves (onData (fun d => messagePart d = c)) m) ->
    preserves (onData (wfOn checked)) m).
  { intros A m. apply preserves_part. apply wf_part. }
  destruct op; destruct Hop; unfold runOp, void.
  - apply Hpart. intros c. unfold AddClient, insertClient, insertLabel. solve_frame.
  - apply Hpart. intros c. unfold AddClientLabel, insertLabel. solve_frame.
  - apply Hpart. intros c. unfold RemoveClientLabel. solve_frame.
  - apply Hpart. intros c. unfold BlacklistClient. solve_frame.
  - apply preserves_bind; [|intros ?; apply preserves_ret].
    unfold RecordClientContact. apply preserves_runInTx, preserves_bind; [apply preserves_now|].
    intros t. apply preserves_bind; [apply wf_insertContact|]. intros id.
    apply preserves_bind; [|intros ?; apply preserves_ret]. apply Hpart. intros c. solve_frame.
  - unfold LinkMessagesToContact. destruct (Hex.ParseUint16 contact); try apply preserves_fail.
    apply preserves_runInTx, preserves_forM. intros id. apply wf_linkMessage.
  - apply Hpart. intros c. unfold RecordResourceUsageData.
    destruct (checkValid (ResourceUsageData.ProcessStartTime rud)); try apply preserves_fail.
    destruct (checkValid (ResourceUsageData.DataTimestamp rud)); try apply preserves_fail.
    solve_frame.
Qed.

Lemma wf_messages_for_processing id lim sl :
  preserves (onData (wfOn checked)) (ClientMessagesForProcessing id lim sl).
Proof.
  unfold ClientMessagesForProcessing, internalMessagesForProcessing.
  case_decide; [apply preserves_fail|].
  apply preserves_runInTx, preserves_bind; [apply preserves_lift|]. intros dest.
  apply preserves_bind; [apply preserves_now|]. intros t.
  apply preserves_bind; [apply preserves_query|]. intros rows.
  generalize (∅ : gmap string Z), (@nil Message.t).
  induction rows as [|dbm rows IH]; intros read res; simpl; [apply preserves_ret|].
  destruct (match sl with Some _ => _ | None => _ end); [apply IH|].
  apply preserves_bind; [|intros m; destruct (_ <=? _)%Z; [apply preserves_ret|apply IH]].
  unfold takeRow. apply preserves_bind; [solve_preserves|]. intros t'.
  apply preserves_bind; [|intros _; apply preserves_lift].
  apply preserves_exec. intros d d' [H1 H2 H3] [= <-]. split; [done| |done]. simpl.
  intros k. rewrite <- H2, lookup_alter. case_decide; [|done]. subst. by rewrite fmap_is_Some.
Qed.

Lemma wf_message_op op : isMessageOp op -> preserves (onData (wfOn checked)) (runOp op).
Proof.
  intros Hop. destruct op; destruct Hop; unfold runOp, void.
  - apply preserves_StoreMessages.
  - apply preserves_SetMessageResult.
  - apply preserves_DeletePendingMessages.
  - apply preserves_bind; [apply wf_messages_for_processing|]. intros ?. apply preserves_ret.
  - apply (preserves_part messagePart); [apply wf_part|]. intros c. unfold StoreFile. solve_frame.
  - apply (preserves_part messagePart); [apply wf_part|]. intros c. unfold DeleteFile. solve_frame.
Qed.

Lemma wf_save msg b c a : preserves (onData (wfOn checked)) (SaveBroadcastMessage msg b c a).
Proof.
  unfold SaveBroadcastMessage. apply preserves_bind; [apply preserves_lift|]. intros dbm.
  apply preserves_runInTx_keeps, keeps_bind; [apply keeps_tryStoreMessage|]. intros _.
  apply keeps_preserves, (preserves_part messagePart); [apply wf_part|]. intros x.
  unfold orDisabled, insertSent, updateAllocSent. solve_frame.
Qed.

Lemma fk_client_op {EN : Enforcing C} op : opOK op -> isClientOp op -> preserves (onData fk) (runOp op).
Proof.
  intros Hok Hop. destruct op; destruct Hop; unfold runOp, void; simpl in Hok.
  - by apply preserves_AddClient.
  - apply preserves_insertLabel.
  - apply preserves_RemoveClientLabel.
  - apply preserves_alterClient.
  - apply preserves_bind; [apply preserves_RecordClientContact|]. intros ?. apply preserves_ret.
  - apply preserves_LinkMessagesToContact.
  - apply preserves_RecordResourceUsageData.
Qed.

Lemma ledger_cast_op op : opOK op -> isCastOp op -> preserves (onData ledger) (runOp op).
Proof using HP HF.
  intros Hok Hop. destruct op; destruct Hop; unfold runOp, void; simpl in Hok.
  - apply preserves_CreateBroadcast; apply Hok.
  - apply (preserves_part castPart); [apply ledger_part|]. intros c. unfold SetBroadcastLimit.
    solve_frame.
  - apply preserves_DisableBroadcasts.
  - apply preserves_bind; [apply preserves_CreateAllocation|]. intros ?. apply preserves_ret.
  - apply preserves_CleanupAllocation.
Qed.

(** *** The references of broadcasts *)
Lemma refs_insertBroadcastLabel {EN : Enforcing C} bid l : preserves (onData castRefs) (insertBroadcastLabel bid l).
Proof.
  apply preserves_exec. intros d d' [H1 H2] E. apply outcome_bind_Ok in E as (? & _ & E).
  apply outcome_bind_Ok in E as (? & Hb%foreignKey_Ok%bool_decide_eq_true_1 & [= <-]). split; simpl; [|done].
  intros b s l'. rewrite elem_of_union, elem_of_singleton. intros [[= -> -> ->]|?]; [done|by eauto].
Qed.

Lemma refs_insertSent {EN : Enforcing C} bid cid : preserves (onData castRefs) (insertSent bid cid).
Proof.
  apply preserves_exec. intros d d' [H1 H2] E. apply outcome_bind_Ok in E as (? & _ & E).
  apply outcome_bind_Ok in E as (? & [Hb Hc]%foreignKey_Ok%andb_true_iff & [= <-]).
  apply bool_decide_eq_true_1 in Hb, Hc. split; simpl; [done|].
  intros b c. rewrite elem_of_union, elem_of_singleton. intros [[= -> ->]|?]; [done|by eauto].
Qed.

Lemma refs_client_op op : isClientOp op -> preserves (onData castRefs) (runOp op).
Proof.
  destruct op; intros []; unfold runOp, void.
  - unfold AddClient, insertClient, insertLabel. solve_refs.
  - unfold AddClientLabel, insertLabel. solve_refs.
  - unfold RemoveClientLabel. solve_refs.
  - unfold BlacklistClient. solve_refs.
  - unfold RecordClientContact, insertContact. solve_refs.
  - unfold LinkMessagesToContact, linkMessage. solve_refs.
  - unfold RecordResourceUsageData.
    destruct (checkValid (ResourceUsageData.ProcessStartTime rud)); try apply preserves_fail.
    destruct (checkValid (ResourceUsageData.DataTimestamp rud)); try apply preserves_fail.
    solve_refs.
Qed.

Lemma refs_cast_op {EN : Enforcing C} op : isCastOp op -> preserves (onData castRefs) (runOp op).
Proof.
  pose proof refs_insertBroadcastLabel as Hl. destruct op; intros []; unfold runOp, void.
  - unfold CreateBroadcast, insertBroadcast. solve_refs.
  - unfold SetBroadcastLimit. solve_refs.
  - unfold DisableBroadcasts, tryDisableBroadcasts, disableOne. solve_refs.
  - unfold CreateAllocation, AllocationID.RandomAllocationID, readCounters, updateAllocated,
      insertAllocation. solve_refs.
  - unfold CleanupAllocation, readCounters, updateSent, updateBoth. solve_refs.
Qed.

Lemma refs_save {EN : Enforcing C} msg b c a : preserves (onData castRefs) (SaveBroadcastMessage msg b c a).
Proof.
  pose proof refs_insertSent as Hs.
  unfold SaveBroadcastMessage, tryStoreMessage, insertMessage, insertPending, orDisabled, updateAllocSent.
  solve_refs; apply Hs.
Qed.

Lemma op_cases op :
  isMessageOp op \/ isClientOp op \/ isCastOp op \/
  exists msg b c a, op = OpSaveBroadcastMessage msg b c a.
Proof. destruct op; simpl; auto. right; right; right. eauto. Qed.

Lemma wf_op op : preserves (onData (wfOn checked)) (runOp op).
Proof.
  destruct (op_cases op) as [Hop|[Hop|[Hop|(msg & b & c & a & ->)]]].
  - by apply wf_message_op.
  - by apply wf_client_op.
  - apply (preserves_part (fun d => (messagePart d, clientPart d))); [|intros c; by apply cast_op_frame].
    intros d d' E. apply wf_part. exact (f_equal fst E).
  - apply wf_save.
Qed.

Lemma ledger_op op : opOK op -> preserves (onData ledger) (runOp op).
Proof using HP HF.
  intros Hok. destruct (op_cases op) as [Hop|[Hop|[Hop|(msg & b & c & a & ->)]]].
  - apply (preserves_part nonMessagePart); [|intros c; by apply message_op_frame].
    intros d d' [= _ _ _ _ ? ? _ _]. apply ledger_part. unfold castPart. congruence.
  - apply (preserves_part (fun d => (messages d, pending_messages d, castPart d)));
      [|intros c; by apply client_op_frame].
    intros d d' [= _ _ ? ?]. apply ledger_part. unfold castPart. congruence.
  - by apply ledger_cast_op.
  - apply preserves_SaveBroadcastMessage.
Qed.

Lemma fk_op {EN : Enforcing C} op : opOK op -> preserves (onData fk) (runOp op).
Proof.
  intros Hok. destruct (op_cases op) as [Hop|[Hop|[Hop|(msg & b & c & a & ->)]]].
  - apply (preserves_part nonMessagePart); [|intros c; by apply message_op_frame].
    intros d d' [= ? ? ? ? _ _ _ _]. apply fk_part. unfold clientPart. congruence.
  - by apply fk_client_op.
  - apply (preserves_part (fun d => (messagePart d, clientPart d))); [|intros c; by apply cast_op_frame].
    intros d d' E. apply fk_part. exact (f_equal snd E).
  - apply (preserves_part clientPart); [apply fk_part|]. intros x. apply SaveBroadcastMessage_frame.
Qed.

Lemma castRefs_op {EN : Enforcing C} op : preserves (onData castRefs) (runOp op).
Proof.
  destruct (op_cases op) as [Hop|[Hop|[Hop|(msg & b & c & a & ->)]]].
  - apply (preserves_part nonMessagePart); [|intros c; by apply message_op_frame].
    intros d d' [= ? _ _ _ ? _ ? ?]. apply castRefs_part. congruence.
  - by apply refs_client_op.
  - by apply refs_cast_op.
  - apply refs_save.
Qed.

Lemma references_op {EN : Enforcing C} op : opOK op -> preserves (onData references) (runOp op).
Proof. intros Hok w [H1 H2]. split; [by apply fk_op|by apply castRefs_op]. Qed.
End Kept.

Section Reachable.
Context `{P : Platform} {HP : PlatformOK P} `{L : ProtoLib} `{F : FloatConv} {HF : FloatConvOK F}.

Lemma storeOK_op op : opOK op -> preserves (onData storeOK) (runOp op).
Proof using HP HF.
  intros Hok w (H1 & H2 & H3). split; [by apply (wf_op (C := initialised))|].
  split; [by apply references_op|by apply ledger_op].
Qed.

(** C1: in every state the datastore can reach from an empty file, by any
    sequence of operations of any callers, on any connections of the pool and
    whatever the engine's faults, a message is pending exactly while it is
    unprocessed, every allocation is of an existing broadcast and sends no more
    than it holds, and what a broadcast with a limit has allocated is the sum
    of what its outstanding allocations hold, and within the limit; of a
    broadcast without a limit it is 0.  If all the connections that were used
    check foreign keys ([initDB] sees to it for the first one only: see
    [label_of_nobody]), every row refers to existing rows: labels, contacts and
    usage records to clients, links to contacts and messages, and the labels
    and recipients of broadcasts to broadcasts and clients. *)
Theorem reachable_storeOK checked w :
  reachable checked w ->
  wfOn checked (w_data w) /\ ledger (w_data w) /\ (checked -> references (w_data w)).
Proof using HP HF.
  intros H. assert (H0 : wfOn checked emptyDb /\ ledger emptyDb /\ (checked -> references emptyDb)).
  { split; [exact (wf_empty _)|]. split; [exact ledger_empty|]. split; [exact fk_empty|exact castRefs_empty]. }
  revert H H0. unfold reachable. change emptyDb with (w_data (mkWorld emptyDb 0)) at 2 3 4.
  generalize (mkWorld emptyDb 0). intros w0 H.
  induction H as [w'|w1 w2 w3 Hstep _ IH]; intros (H1 & H2 & H3); [done|]. apply IH.
  destruct Hstep as [op C w r w' HC Hok E].
  pose proof (wf_op (C := C) (checked := checked) (CH := HC) op w H1) as Hw.
  pose proof (ledger_op (C := C) op Hok w H2) as Hl. unfold onData in *. rewrite E in Hw, Hl.
  split; [exact Hw|]. split; [exact Hl|]. intros Hch.
  pose proof (references_op (C := C) (EN := HC Hch) op Hok w (H3 Hch)) as Hr. unfold onData in Hr. by rewrite E in Hr.
Qed.
End Reachable.

(** ** Operations are all or nothing *)
Section AllOrNothing.
Context `{P : Platform} `{L : ProtoLib} `{F : FloatConv} `{C : Connection}.

Lemma atomic_void {A} (m : Sql A) : atomic m -> atomic (void m).
Proof.
  intros Hm w r w' E Hr. unfold void, mbind, M_bind in E.
  destruct (m w) as [[a|e|c] w1] eqn:Em.
  - injection E as <- <-. done.
  - injection E as <- <-. by apply (Hm w _ _ Em).
  - injection E as <- <-. by apply (Hm w _ _ Em).
Qed.

Lemma atomic_fail {A} e : atomic (fail (A := A) e).
Proof. by intros w r w' [= <- <-]. Qed.

Lemma atomic_runOp op : atomic (runOp op).
Proof.
  destruct op; simpl; try apply atomic_void; try apply atomic_runInTx; try apply atomic_exec;
    try (apply atomic_bind_pure; intros ?; apply atomic_runInTx).
  - unfold ClientMessagesForProcessing. case_decide; [apply atomic_fail|apply atomic_runInTx].
  - unfold LinkMessagesToContact. destruct (Hex.ParseUint16 contact);
      [apply atomic_runInTx|apply atomic_fail|apply atomic_fail].
  - unfold RecordResourceUsageData.
    destruct (checkValid (ResourceUsageData.ProcessStartTime rud)); try apply atomic_fail.
    destruct (checkValid (ResourceUsageData.DataTimestamp rud)); try apply atomic_fail.
    apply atomic_runInTx.
  - unfold DisableBroadcasts. case_decide; [|apply atomic_runInTx].
    by intros w0 r0 w0' [= <- <-].
Qed.

(** C33: an operation that returns an error, or crashes, leaves every table as
    it was: whatever statement of it failed, the others are undone. *)
Theorem store_operations_atomic op w r w' :
  runOp op w = (r, w') -> isOk r = false -> w_data w' = w_data w.
Proof. apply atomic_runOp. Qed.
End AllOrNothing.

(** ** Witnesses *)
Lemma reachable_storeOK_witness : storeOK (w_data sampleClients).
Proof.
  assert (H : reachable True sampleClients).
  { unfold reachable.
    eapply rtc_l; [eapply (step_op _ (OpAddClient exampleClientID sampleClient) initialised); [done|by right|apply surjective_pairing]|].
    eapply rtc_l; [eapply (step_op _ (OpAddClient (ClientID.Mk (bytesOfNat 78 8)) sampleClient) initialised);
      [done|by right|apply surjective_pairing]|].
    eapply rtc_l; [eapply (step_op _ (OpBlacklistClient exampleClientID) initialised); [done|exact I|apply surjective_pairing]|].
    assert (E : snd (runOp (OpBlacklistClient exampleClientID)
      (snd (runOp (OpAddClient (ClientID.Mk (bytesOfNat 78 8)) sampleClient)
        (snd (runOp (OpAddClient exampleClientID sampleClient) (mkWorld emptyDb 0)))))) = sampleClients)
      by (vm_compute; reflexivity).
    rewrite E. apply rtc_refl. }
  destruct (reachable_storeOK True sampleClients H) as (H1 & H2 & H3).
  split; [exact H1|]. split; [exact (H3 I)|exact H2].
Defined.

(** On a connection that the pool has opened later, a label is given to a client
    that does not exist. *)
Example label_of_nobody :
  let w := snd (runOp (C := false) (OpAddClientLabel exampleClientID (Label.Mk "client" "linux")) (mkWorld emptyDb 0)) in
  reachable False w /\ ~ references (w_data w) /\
  exists e, fst (runOp (OpAddClientLabel exampleClientID (Label.Mk "client" "linux")) (mkWorld emptyDb 0)) = Err e.
Proof.
  intros w. split; [|split].
  - apply rtc_once. eapply (step_op _ _ false); [done| |apply surjective_pairing]. exact I.
  - intros [[_ H _ _ _] _]. specialize (H (ClientID.String exampleClientID) "client"%string "linux"%string).
    assert (E : is_Some (clients (w_data w) !! ClientID.String exampleClientID)).
    { apply H. vm_compute. done. }
    assert (N : clients (w_data w) !! ClientID.String exampleClientID = None) by (vm_compute; reflexivity).
    rewrite N in E. by destruct E.
  - eexists. vm_compute. reflexivity.
Qed.

Lemma store_operations_atomic_witness :
  w_data (snd (runOp (OpAddClient exampleClientID sampleClient) sampleClients))
    = w_data sampleClients.
Proof.
  refine (store_operations_atomic (OpAddClient exampleClientID sampleClient) sampleClients _ _
    (surjective_pairing _) _).
  vm_compute. reflexivity.
Defined.
