(* ===== verification/Cache.v ===== *)
(** * The cache of client data

    src/server/internal/cache/cache.go.  The state is the map [c.m]; entries
    hold clones, so what a caller does with its copy does not reach them.  The
    expiry goroutine is a sequence of calls of [expire].  A store is read
    through the interface [ClientReader]. *)
From S2P Require Import Prelude Platform Ids Proto Db Sqlite SqliteClients.

Definition MaxAge : Z := 45 * Second.

Record clientEntry := mkEntry { u : Z; d : ClientData.t }.

Abbreviation Clients := (gmap ClientID.t clientEntry).

(** What the cache asks of a [db.ClientStore] with state [St]. *)
Class ClientReader (St : Type) := {
  readClient : ClientID.t -> M (World St) ClientData.t;
}.

#[export] Instance sqliteReader `{Platform} : ClientReader Db := {|
  readClient := GetClientData;
|}.

Section Cache.
Context `{P : Platform}.

Definition NewClients : Clients := ∅.

(** [e == nil || db.Now().Sub(e.u) > MaxAge]: the clock is only read for an
    entry. *)
Definition Get (id : ClientID.t) : M (World Clients) (option ClientData.t) :=
  c ← readData;
  match c !! id with
  | None => mret None
  | Some e =>
      t ← now;
      if (MaxAge <? t - u e)%Z then mret None else mret (Some (ClientData.Clone (d e)))
  end.

Definition setMap (f : Clients -> Clients) : M (World Clients) unit := fun w =>
  (Ok tt, mkWorld (f (w_data w)) (w_step w)).

Definition Update (id : ClientID.t) (data : option ClientData.t) : M (World Clients) unit :=
  match data with
  | None => setMap (delete id)
  | Some data => t ← now; setMap (insert id (mkEntry t (ClientData.Clone data)))
  end.

Definition Clear : M (World Clients) unit := setMap (fun _ => ∅).

Definition Size : M (World Clients) Z := c ← readData; mret (Z.of_nat (size c)).

(** One tick of [expireLoop]. *)
Definition expire : M (World Clients) unit :=
  c ← readData;
  kvs ← rangeMap c;
  forM_ kvs (fun ke =>
    t ← now;
    if (MaxAge <? t - u ke.2)%Z then setMap (delete ke.1) else mret tt).

(** (data, hit). *)
Definition GetOrRead `{R : ClientReader St} (id : ClientID.t) :
    M (World (Clients * St)) (ClientData.t * bool) :=
  ret ← onPart fst (fun c w => (c, w.2)) (Get id);
  match ret with
  | Some data => mret (data, true)
  | None =>
      data ← onPart snd (fun s w => (w.1, s)) (readClient id);
      onPart fst (fun c w => (c, w.2)) (Update id (Some data)) ≫= fun _ =>
      mret (data, false)
  end.
End Cache.

(** ** Properties *)

(** The entry is not too old to be served at time [t]. *)
Definition freshAt (t : Z) (e : clientEntry) : Prop := (t - u e <= MaxAge)%Z.

Section CacheProperties.
Context `{P : Platform}.

Lemma Clone_idem x : ClientData.Clone (ClientData.Clone x) = ClientData.Clone x.
Proof.
  destruct x as [k l b]. unfold ClientData.Clone. simpl. f_equal.
  destruct (decide (blen k = 0)) as [Hk|Hk]; [done|].
  change (blen (Some (contents k))) with (blen k). by destruct (decide (blen k = 0)).
Qed.

Lemma Get_run id w :
  exists n, Get id w = (Ok (match w_data w !! id with
    | Some e => if (MaxAge <? clock (w_step w) - u e)%Z then None else Some (ClientData.Clone (d e))
    | None => None end), mkWorld (w_data w) n) /\ w_step w <= n.
Proof.
  unfold Get. destruct w as [c n]. erewrite bind_run by reflexivity. simpl.
  destruct (c !! id) as [e|]; [|by exists n].
  exists (S n). split; [|lia]. erewrite bind_run by reflexivity. simpl.
  by destruct (_ <? _)%Z.
Qed.

(** What [GetOrRead] hands out is either a copy of an entry no older than
    [MaxAge], in which case neither the store nor the cache is touched, or
    what the store says, in which case the cache holds it from then on, dated
    now; when the store fails the cache is as it was. *)
Theorem get_or_read_spec `{R : ClientReader St} id w r w1 :
  GetOrRead id w = (r, w1) ->
  let c := (w_data w).1 in
  let t := clock (w_step w) in
  match r with
  | Ok (data, true) => w_data w1 = w_data w /\
      exists e, c !! id = Some e /\ freshAt t e /\ data = ClientData.Clone (d e)
  | Ok (data, false) =>
      (forall e, c !! id = Some e -> ~ freshAt t e) /\
      exists n w2, readClient id (mkWorld (w_data w).2 n) = (Ok data, w2) /\
        w_data w1 = (<[id := mkEntry (clock (w_step w2)) (ClientData.Clone data)]> c, w_data w2)
  | Err e => (w_data w1).1 = c
  | Crash why => (w_data w1).1 = c
  end.
Proof.
  intros E. cbv zeta. destruct w as [[c s] k]. simpl.
  destruct (Get_run id (mkWorld c k)) as (n & Eg & _). simpl in Eg.
  unfold GetOrRead in E. erewrite bind_run in E by (apply onPart_run; simpl; exact Eg). simpl in E.
  assert (Hmiss : forall e, (MaxAge <? clock k - u e)%Z = true -> ~ freshAt (clock k) e).
  { intros e He Hf. unfold freshAt in Hf. apply Z.ltb_lt in He. lia. }
  assert (Hread : forall (Hstale : forall e, c !! id = Some e -> ~ freshAt (clock k) e)
    (E : (data ← onPart snd (fun s w => (w.1, s)) (readClient id);
          onPart fst (fun c w => (c, w.2)) (Update id (Some data)) ≫= fun _ =>
          mret (data, false)) (mkWorld (c, s) n) = (r, w1)),
    match r with
    | Ok (data, true) => False
    | Ok (data, false) => (forall e, c !! id = Some e -> ~ freshAt (clock k) e) /\
        exists n w2, readClient id (mkWorld s n) = (Ok data, w2) /\
          w_data w1 = (<[id := mkEntry (clock (w_step w2)) (ClientData.Clone data)]> c, w_data w2)
    | _ => (w_data w1).1 = c
    end).
  { intros Hstale E'. unfold mbind, M_bind, onPart in E'. simpl in E'.
    destruct (readClient id (mkWorld s n)) as [[data|e|why] w2] eqn:Er.
    - simpl in E'. injection E' as <- <-. split; [done|]. exists n, w2. by split.
    - injection E' as <- <-. done.
    - injection E' as <- <-. done. }
  destruct (c !! id) as [e|] eqn:Hc.
  - destruct (MaxAge <? clock k - u e)%Z eqn:Ht.
    + assert (Hs : forall e0, Some e = Some e0 -> ~ freshAt (clock k) e0)
        by (intros e0 [= <-]; by apply Hmiss).
      specialize (Hread Hs E). by destruct r as [[? []]| |].
    + injection E as <- <-. split; [done|]. exists e. split; [done|]. split; [|done].
      unfold freshAt. apply Z.ltb_ge in Ht. lia.
  - assert (Hs : forall e0, None = Some e0 -> ~ freshAt (clock k) e0) by done.
    specialize (Hread Hs E). by destruct r as [[? []]| |].
Qed.

(** The clock never runs backwards. *)
Definition monotoneClock : Prop := forall n m, n <= m -> (clock n <= clock m)%Z.

Lemma expire_loop kvs w :
  exists w', forM_ kvs (fun ke => t ← now;
      if (MaxAge <? t - u ke.2)%Z then setMap (delete ke.1) else mret tt) w = (Ok tt, w') /\
    w_step w' = w_step w + length kvs /\
    forall id e, w_data w' !! id = Some e <-> w_data w !! id = Some e /\
      forall n ke, kvs !! n = Some ke -> ke.1 = id -> freshAt (clock (w_step w + n)) ke.2.
Proof.
  revert w. induction kvs as [|ke kvs IH]; intros w; simpl.
  { exists w. split; [done|]. split; [lia|]. intros id e. split; [|by intros []].
    intros H. split; [done|]. by intros n ke Hn. }
  erewrite bind_run by (erewrite bind_run by reflexivity; simpl; instantiate (2 := tt);
    instantiate (1 := mkWorld (if (MaxAge <? clock (w_step w) - u ke.2)%Z
      then delete ke.1 (w_data w) else w_data w) (S (w_step w))); by destruct (_ <? _)%Z).
  destruct (IH (mkWorld (if (MaxAge <? clock (w_step w) - u ke.2)%Z
      then delete ke.1 (w_data w) else w_data w) (S (w_step w)))) as (w' & E & Hn & H).
  exists w'. split; [done|]. simpl in *. split; [lia|]. intros id e. rewrite H. split.
  - intros [Hd Hk]. split.
    + destruct (_ <? _)%Z; [by apply lookup_delete_Some in Hd as [_ ?]|done].
    + intros [|n] ke' Hke He; simpl in *; [|replace (w_step w + S n) with (S (w_step w + n)) by lia; by apply Hk].
      injection Hke as <-. rewrite Nat.add_0_r. unfold freshAt.
      destruct (Z.ltb_spec MaxAge (clock (w_step w) - u ke.2)); [|lia].
      subst. by rewrite lookup_delete_eq in Hd.
  - intros [Hd Hk]. split.
    + destruct (Z.ltb_spec MaxAge (clock (w_step w) - u ke.2)); [|done].
      apply lookup_delete_Some. split; [|done]. intros He.
      specialize (Hk 0 ke eq_refl He). rewrite Nat.add_0_r in Hk. unfold freshAt in Hk. lia.
    + intros n ke' Hke He. specialize (Hk (S n) ke' Hke He).
      by replace (w_step w + S n) with (S (w_step w + n)) in Hk by lia.
Qed.

(** The periodic cleanup is invisible: whatever the order of the map, no
    lookup at a later time is answered differently because of it, and every
    entry that was too old when it started is gone. *)
Theorem expire_invisible w :
  PlatformOK P -> monotoneClock ->
  exists w', expire w = (Ok tt, w') /\
    (forall id k, w_step w' <= k ->
       fst (Get id (mkWorld (w_data w') k)) = fst (Get id (mkWorld (w_data w) k))) /\
    (forall id e, w_data w !! id = Some e -> ~ freshAt (clock (w_step w)) e ->
       w_data w' !! id = None).
Proof.
  intros HP Hmono. destruct w as [c n]. unfold expire.
  pose proof (deliver_perm n _ (map_to_list c)) as Hperm.
  destruct (expire_loop (deliver n _ (map_to_list c)) (mkWorld c (S n))) as (w' & E & Hn & H).
  exists w'. split; [exact E|]. simpl in *.
  assert (Hin : forall ke j, deliver n _ (map_to_list c) !! j = Some ke -> c !! ke.1 = Some ke.2).
  { intros [k e] j Hj%list_elem_of_lookup_2. rewrite Hperm in Hj. by apply elem_of_map_to_list in Hj. }
  assert (Hj : forall id e, c !! id = Some e -> exists j,
    deliver n _ (map_to_list c) !! j = Some (id, e)).
  { intros id e Hc. apply list_elem_of_lookup. rewrite Hperm. by apply elem_of_map_to_list. }
  split.
  - intros id k Hk.
    destruct (Get_run id (mkWorld (w_data w') k)) as (? & -> & _).
    destruct (Get_run id (mkWorld c k)) as (? & -> & _). simpl. f_equal.
    destruct (w_data w' !! id) as [e|] eqn:He.
    + apply H in He as [-> _]. done.
    + destruct (c !! id) as [e|] eqn:Hc; [|done].
      destruct (Z.ltb_spec MaxAge (clock k - u e)) as [|Hle]; [done|]. exfalso.
      apply eq_None_not_Some in He. apply He. exists e. apply H. split; [done|].
      intros j [k' e'] Hke Heq. simpl in *. subst. pose proof (Hin _ _ Hke) as Hc'. simpl in Hc'.
      replace e' with e by congruence. unfold freshAt.
      enough (clock (S n + j) <= clock k)%Z by (simpl in *; lia).
      apply Hmono. apply lookup_lt_Some in Hke. lia.
  - intros id e Hc Hold. destruct (w_data w' !! id) as [e'|] eqn:He; [|done].
    apply H in He as [He Hall]. destruct (Hj id e Hc) as [j Hj'].
    specialize (Hall j (id, e) Hj' eq_refl). destruct Hold. unfold freshAt in *. simpl in Hall.
    pose proof (Hmono n (S n + j) ltac:(lia)). simpl in *. lia.
Qed.
End CacheProperties.

(** ** Witnesses *)
Lemma get_or_read_spec_witness :
  exists data w1, GetOrRead exampleClientID (mkWorld (∅, w_data sampleClients) 0) = (Ok (data, false), w1) /\
    is_Some ((w_data w1).1 !! exampleClientID).
Proof.
  set (res := GetOrRead exampleClientID (mkWorld (∅, w_data sampleClients) 0)).
  assert (E : exists data, fst res = Ok (data, false)) by (vm_compute; eexists; reflexivity).
  destruct E as [data E].
  assert (E' : res = (Ok (data, false), snd res)) by (rewrite <- E; apply surjective_pairing).
  exists data, (snd res). split; [exact E'|].
  destruct (get_or_read_spec exampleClientID _ (Ok (data, false)) (snd res) E')
    as (_ & n & w2 & _ & H).
  rewrite H. exists (mkEntry (clock (w_step w2)) (ClientData.Clone data)). apply lookup_insert_eq.
Defined.

Lemma monotoneClock_test : monotoneClock (P := TestPlatform).
Proof. intros n m H. simpl. lia. Qed.

Lemma expire_invisible_witness :
  exists w', expire (mkWorld {[exampleClientID := mkEntry 0 sampleClient]} 0) = (Ok tt, w') /\
    w_data w' !! exampleClientID = None.
Proof.
  destruct (expire_invisible (mkWorld {[exampleClientID := mkEntry 0 sampleClient]} 0)
    TestPlatformOK monotoneClock_test) as (w' & E & _ & H).
  exists w'. split; [exact E|].
  apply (H exampleClientID (mkEntry 0 sampleClient)); [reflexivity|].
  unfold freshAt. simpl. unfold MaxAge, Second. lia.
Defined.
