(* ===== verification/Notifications.v ===== *)
(** * Notifications

    src/server/internal/notifications/notifications.go.  A [Dispatcher]'s
    channels are a heap, because a channel outlives its registration: [chan]
    is a buffer of one and a closed flag.  Every method holds [d.l] while it
    runs, so a concurrent execution is a sequence of whole calls ([dispStep]);
    [NotifyAll] lets go of it between two [Dispatch]es, which then are the
    steps.  The receiving side of a channel is a step of its own.  [rate.Limiter] is
    third-party code and a parameter. *)
From S2P Require Import Prelude Platform Ids.

(** ** The notifier of single-server installations *)
Module LocalListenerNotifier.

(** The open channel, if any, and what its reader has received. *)
Record t := Mk { c : bool; received : list ClientID.t }.

Definition Start (n : t) : t := Mk true [].
Definition Stop (n : t) : outcome t :=
  if c n then Ok (Mk false (received n)) else Crash "close of nil channel".
Definition Address : string := "local".

(** [ctxDone]: the context ends before a reader takes the value.  Once stopped
    the channel is nil and the send never happens. *)
Definition NewMessageForClient (ctxDone : bool) (target : string) (id : ClientID.t) (n : t) :
    outcome t :=
  if negb (String.eqb target "local") then Ok n
  else if ctxDone then Err (ErrText "context")
  else if c n then Ok (Mk true (received n ++ [id]))
  else Crash "blocked on a nil channel".
End LocalListenerNotifier.

(** ** The dispatcher *)
Record chan := mkChan { pending : bool; closed : bool }.

Record Dispatcher := mkDispatcher {
  registered : gmap ClientID.t nat;
  chans : gmap nat chan;
  next : nat;
}.

Definition NewDispatcher : Dispatcher := mkDispatcher ∅ ∅ 0.

Class Limiter := { limWait : nat -> option goerror }.
#[export] Instance TestLimiter : Limiter := {| limWait _ := None |}.

Section Dispatch.
Context `{P : Platform} `{Lim : Limiter}.

Abbreviation Disp A := (M (World Dispatcher) A).

Definition setDisp (f : Dispatcher -> Dispatcher) : Disp unit := fun w =>
  (Ok tt, mkWorld (f (w_data w)) (w_step w)).

Definition setChan (ch : nat) (c : chan) (d : Dispatcher) : Dispatcher :=
  mkDispatcher (registered d) (<[ch := c]> (chans d)) (next d).

(** [select { case c <- struct{}{}: default: }] *)
Definition trySend (ch : nat) : Disp unit :=
  d ← readData;
  match chans d !! ch with
  | None => mret tt
  | Some c =>
      if closed c then crash "send on closed channel"
      else setDisp (setChan ch (mkChan true false))
  end.

Definition closeChan (ch : nat) : Disp unit :=
  d ← readData;
  match chans d !! ch with
  | None => crash "close of nil channel"
  | Some c =>
      if closed c then crash "close of closed channel"
      else setDisp (setChan ch (mkChan (pending c) true))
  end.

Definition Dispatch (id : ClientID.t) : Disp unit :=
  d ← readData;
  match registered d !! id with
  | Some ch => trySend ch
  | None => mret tt
  end.

(** [make(chan struct{}, 1)] *)
Definition makeChan : Disp nat := fun w =>
  let d := w_data w in
  (Ok (next d), mkWorld (mkDispatcher (registered d)
    (<[next d := mkChan false false]> (chans d)) (S (next d))) (w_step w)).

(** The channel; [fin] below is the function returned with it. *)
Definition Register (id : ClientID.t) : Disp nat :=
  ch ← makeChan;
  d ← readData;
  (match registered d !! id with
   | Some c => closeChan c
   | None => mret tt
   end) ≫= fun _ =>
  setDisp (fun d => mkDispatcher (<[id := ch]> (registered d)) (chans d) (next d)) ≫= fun _ =>
  mret ch.

Definition fin (id : ClientID.t) (ch : nat) : Disp unit :=
  d ← readData;
  if decide (registered d !! id = Some ch) then
    closeChan ch ≫= fun _ =>
    setDisp (fun d => mkDispatcher (delete id (registered d)) (chans d) (next d))
  else mret tt.

(** Stops at the first error of the limiter. *)
Fixpoint notifyEach (ids : list ClientID.t) : Disp unit :=
  match ids with
  | [] => mret tt
  | id :: ids' =>
      e ← interact (fun n => Ok (limWait n));
      match e with
      | Some _ => mret tt
      | None => Dispatch id ≫= fun _ => notifyEach ids'
      end
  end.

Definition NotifyAll : Disp unit :=
  d ← readData;
  kvs ← rangeMap (registered d);
  notifyEach (fst <$> kvs).

(** The reader of a channel: whether it got a notification. *)
Definition receive (ch : nat) : Disp bool :=
  d ← readData;
  match chans d !! ch with
  | Some c =>
      if pending c then setDisp (setChan ch (mkChan false (closed c))) ≫= fun _ => mret true
      else mret false
  | None => mret false
  end.

(** ** Executions *)
Inductive dispOp :=
| DDispatch (id : ClientID.t)
| DRegister (id : ClientID.t)
| DFin (id : ClientID.t) (ch : nat)
| DNotifyAll
| DReceive (ch : nat).

Definition runDisp (op : dispOp) : Disp unit :=
  match op with
  | DDispatch id => Dispatch id
  | DRegister id => Register id ≫= fun _ => mret tt
  | DFin id ch => fin id ch
  | DNotifyAll => NotifyAll
  | DReceive ch => receive ch ≫= fun _ => mret tt
  end.

Inductive dispStep : World Dispatcher -> World Dispatcher -> Prop :=
| disp_step op w r w' : runDisp op w = (r, w') -> dispStep w w'.

Definition dispReachable (w : World Dispatcher) : Prop :=
  rtc dispStep (mkWorld NewDispatcher 0) w.

(** ** The invariant: the open channels are exactly the registered ones, and
    no channel is registered twice. *)
Record dispOK (d : Dispatcher) : Prop := {
  dk_open id ch : registered d !! id = Some ch ->
    exists c, chans d !! ch = Some c /\ closed c = false;
  dk_inj id id' ch : registered d !! id = Some ch -> registered d !! id' = Some ch -> id = id';
  dk_live ch c : chans d !! ch = Some c -> closed c = false ->
    exists id, registered d !! id = Some ch;
  dk_next ch : is_Some (chans d !! ch) -> ch < next d;
}.

(** A notification waiting in a channel. *)
Definition isPending (d : Dispatcher) (ch : nat) : Prop :=
  exists c, chans d !! ch = Some c /\ pending c = true.

Lemma dispOK_new : dispOK NewDispatcher.
Proof.
  split; simpl.
  - intros id ch. by rewrite lookup_empty.
  - intros id id' ch. by rewrite lookup_empty.
  - intros ch c. by rewrite lookup_empty.
  - intros ch. rewrite lookup_empty. by intros [].
Qed.

(** What [Dispatch] does to a good state. *)
Lemma Dispatch_run id w :
  dispOK (w_data w) ->
  exists d', Dispatch id w = (Ok tt, mkWorld d' (w_step w)) /\ dispOK d' /\
    registered d' = registered (w_data w) /\
    (forall ch, isPending (w_data w) ch -> isPending d' ch) /\
    (forall ch, registered (w_data w) !! id = Some ch -> isPending d' ch).
Proof.
  intros H. unfold Dispatch. erewrite bind_run by reflexivity.
  destruct (registered (w_data w) !! id) as [ch|] eqn:Hid.
  2:{ exists (w_data w). split; [by destruct w|]. done. }
  destruct (dk_open _ H id ch Hid) as (c & Hc & Hcl).
  unfold trySend. erewrite bind_run by reflexivity. rewrite Hc, Hcl.
  eexists. split; [reflexivity|]. split; [|split; [done|split]].
  - destruct H as [H1 H2 H3 H4]. split; simpl; [|done| |].
    + intros id' ch' Hr. destruct (H1 _ _ Hr) as (c' & Hc' & ?).
      rewrite lookup_insert. case_decide; [by eexists|by exists c'].
    + intros ch' c'. rewrite lookup_insert. case_decide; [|by apply H3].
      subst. intros _ _. by exists id.
    + intros ch'. rewrite lookup_insert_is_Some'. intros [<-|?]; apply H4; [by eexists|done].
  - intros ch' (c' & Hc' & Hp). unfold isPending. simpl. rewrite lookup_insert.
    case_decide; [by eexists|by exists c'].
  - intros ch' [= <-]. unfold isPending. simpl. rewrite lookup_insert_eq. by eexists.
Qed.

Lemma notifyEach_run ids w :
  dispOK (w_data w) ->
  exists w', notifyEach ids w = (Ok tt, w') /\ dispOK (w_data w') /\
    (forall ch, isPending (w_data w) ch -> isPending (w_data w') ch).
Proof.
  revert w. induction ids as [|id ids IH]; intros w H; simpl; [by exists w|].
  erewrite bind_run by reflexivity. destruct (limWait (w_step w)); [by eexists|].
  destruct (Dispatch_run id (mkWorld (w_data w) (S (w_step w))) H) as (d' & E & Hd & _ & Hp & _).
  rewrite (bind_run _ _ _ _ _ E). destruct (IH (mkWorld d' (S (w_step w))) Hd) as (w' & E' & Hd' & Hp').
  exists w'. split; [done|]. split; [done|]. intros ch Hch. apply Hp', Hp, Hch.
Qed.

(** Closing a registered channel, and registering a new one. *)
Lemma dispOK_close d id ch c :
  dispOK d -> registered d !! id = Some ch -> chans d !! ch = Some c ->
  dispOK (mkDispatcher (delete id (registered d))
            (<[ch := mkChan (pending c) true]> (chans d)) (next d)).
Proof.
  intros [H1 H2 H3 H4] Hid Hc. split; simpl.
  - intros id' ch' [Hne Hr]%lookup_delete_Some. destruct (H1 _ _ Hr) as (c' & Hc' & ?).
    exists c'. rewrite lookup_insert_ne; [done|]. intros <-. apply Hne. by eapply H2.
  - intros i1 i2 ch' [_ Hr1]%lookup_delete_Some [_ Hr2]%lookup_delete_Some. by eapply H2.
  - intros ch' c'. rewrite lookup_insert. case_decide as He; [by intros [= <-]|].
    intros Hc' Hcl. destruct (H3 _ _ Hc' Hcl) as [id' Hr]. exists id'.
    apply lookup_delete_Some. split; [|done]. intros <-. congruence.
  - intros ch'. rewrite lookup_insert_is_Some'. intros [<-|Hs]; apply H4; [by eexists|done].
Qed.

Lemma dispOK_add d id :
  dispOK d -> registered d !! id = None ->
  dispOK (mkDispatcher (<[id := next d]> (registered d))
            (<[next d := mkChan false false]> (chans d)) (S (next d))).
Proof.
  intros [H1 H2 H3 H4] Hid.
  assert (Hneq : forall id' ch, registered d !! id' = Some ch -> ch <> next d).
  { intros id' ch Hr ->. destruct (H1 _ _ Hr) as (c & Hc & _).
    specialize (H4 _ (mk_is_Some _ _ Hc)). lia. }
  split; simpl.
  - intros id' ch'. rewrite lookup_insert. case_decide as He.
    + intros [= <-]. rewrite lookup_insert_eq. by eexists.
    + intros Hr. destruct (H1 _ _ Hr) as (c' & Hc' & ?).
      rewrite lookup_insert_ne by (intros <-; by eapply Hneq). by exists c'.
  - intros i1 i2 ch'. rewrite !lookup_insert. repeat case_decide; subst; [done| | |by apply H2].
    + intros [= <-] Hr. by apply Hneq in Hr.
    + intros Hr [= <-]. by apply Hneq in Hr.
  - intros ch' c'. rewrite lookup_insert.
    case_decide as He; [subst; intros _ _; exists id; apply lookup_insert_eq|].
    intros Hc' Hcl'. destruct (H3 _ _ Hc' Hcl') as [id' Hr]. exists id'.
    rewrite lookup_insert_ne; [done|]. intros <-. congruence.
  - intros ch'. rewrite lookup_insert_is_Some'. intros [<-|Hs]; [lia|].
    specialize (H4 ch' Hs). lia.
Qed.

Lemma Register_run id w :
  dispOK (w_data w) ->
  exists d', Register id w = (Ok (next (w_data w)), mkWorld d' (w_step w)) /\ dispOK d' /\
    registered d' !! id = Some (next (w_data w)) /\
    (forall ch, isPending (w_data w) ch -> isPending d' ch) /\
    (forall ch, registered (w_data w) !! id = Some ch ->
       exists c, chans d' !! ch = Some c /\ closed c = true).
Proof.
  intros H. destruct w as [d n]. simpl in *. unfold Register.
  erewrite bind_run by reflexivity. erewrite bind_run by reflexivity. simpl.
  assert (Hfresh : forall ch c, chans d !! ch = Some c -> ch <> next d).
  { intros ch c Hc. pose proof (dk_next _ H ch (mk_is_Some _ _ Hc)). lia. }
  destruct (registered d !! id) as [ch|] eqn:Hid.
  - destruct (dk_open _ H _ _ Hid) as (c & Hc & Hcl). pose proof (Hfresh _ _ Hc) as Hne.
    unfold closeChan. erewrite bind_run; [|erewrite bind_run by reflexivity; simpl;
      rewrite lookup_insert_ne, Hc, Hcl by done; reflexivity].
    eexists. split; [reflexivity|]. simpl. rewrite insert_insert_ne by done.
    split; [|split; [|split]].
    + pose proof (dispOK_add _ id (dispOK_close _ _ _ _ H Hid Hc) (lookup_delete_eq _ _)) as Hadd.
      simpl in Hadd. by rewrite insert_delete_eq in Hadd.
    + apply lookup_insert_eq.
    + intros ch' (c' & Hc' & Hp). pose proof (Hfresh _ _ Hc'). unfold isPending. simpl.
      rewrite lookup_insert_ne, lookup_insert by done.
      case_decide; [subst; eexists; split; [done|]; simpl; congruence|by exists c'].
    + intros ch' [= <-]. rewrite lookup_insert_ne, lookup_insert_eq by done. by eexists.
  - erewrite bind_run by reflexivity. eexists. split; [reflexivity|]. simpl.
    split; [by apply dispOK_add|]. split; [apply lookup_insert_eq|]. split; [|by intros ch'].
    intros ch' (c' & Hc' & Hp). pose proof (Hfresh _ _ Hc'). unfold isPending. simpl.
    rewrite lookup_insert_ne by done. by exists c'.
Qed.

Lemma fin_run id ch w :
  dispOK (w_data w) ->
  exists d', fin id ch w = (Ok tt, mkWorld d' (w_step w)) /\ dispOK d' /\
    registered d' !! id <> Some ch /\
    (forall ch', isPending (w_data w) ch' -> isPending d' ch').
Proof.
  intros H. destruct w as [d n]. simpl in *. unfold fin. erewrite bind_run by reflexivity. simpl.
  case_decide as Hid; [|by exists d].
  destruct (dk_open _ H _ _ Hid) as (c & Hc & Hcl).
  unfold closeChan. erewrite bind_run; [|erewrite bind_run by reflexivity; simpl;
    rewrite Hc, Hcl; reflexivity].
  eexists. split; [reflexivity|]. simpl. split; [by apply dispOK_close|].
  split; [by rewrite lookup_delete_eq|]. intros ch' (c' & Hc' & Hp). unfold isPending. simpl.
  rewrite lookup_insert. case_decide; [subst; eexists; split; [done|]; simpl; congruence|by exists c'].
Qed.

Lemma receive_run ch w :
  dispOK (w_data w) ->
  exists d' b, receive ch w = (Ok b, mkWorld d' (w_step w)) /\ dispOK d' /\
    (isPending (w_data w) ch <-> b = true) /\
    (forall ch', ch' <> ch -> isPending (w_data w) ch' -> isPending d' ch').
Proof.
  intros H. destruct w as [d n]. simpl in *. unfold receive. erewrite bind_run by reflexivity. simpl.
  unfold isPending. destruct (chans d !! ch) as [c|] eqn:Hc.
  2:{ exists d, false. split; [done|]. split; [done|]. split; [|done].
      split; [by intros (c & ? & _)|done]. }
  destruct (pending c) eqn:Hp.
  2:{ exists d, false. split; [done|]. split; [done|]. split; [|done].
      split; [intros (c' & [= <-] & ?); congruence|done]. }
  eexists _, true. split; [reflexivity|]. split; [|split].
  - destruct H as [H1 H2 H3 H4]. split; simpl; [|done| |].
    + intros id' ch' Hr. destruct (H1 _ _ Hr) as (c' & Hc' & ?).
      rewrite lookup_insert. case_decide; [|by exists c'].
      eexists. split; [done|]. simpl. congruence.
    + intros ch' c'. rewrite lookup_insert. case_decide; [|by apply H3].
      intros [= <-] Hcl. subst. by apply (H3 _ c).
    + intros ch'. rewrite lookup_insert_is_Some'. intros [<-|?]; apply H4; [by eexists|done].
  - split; [done|]. intros _. by exists c.
  - intros ch' Hne (c' & Hc' & ?). simpl. rewrite lookup_insert_ne by done. by exists c'.
Qed.

Lemma runDisp_ok op w :
  dispOK (w_data w) ->
  exists w', runDisp op w = (Ok tt, w') /\ dispOK (w_data w') /\
    (forall ch, op <> DReceive ch -> isPending (w_data w) ch -> isPending (w_data w') ch).
Proof.
  intros H. destruct op as [id|id|id ch| |ch]; simpl.
  - destruct (Dispatch_run id w H) as (d' & -> & Hd & _ & Hp & _). eexists. split; [done|]. auto.
  - destruct (Register_run id w H) as (d' & E & Hd & _ & Hp & _).
    rewrite (bind_run _ _ _ _ _ E). eexists. split; [done|]. auto.
  - destruct (fin_run id ch w H) as (d' & -> & Hd & _ & Hp). eexists. split; [done|]. auto.
  - unfold NotifyAll. erewrite bind_run by reflexivity. erewrite bind_run by reflexivity.
    match goal with |- context [notifyEach ?l ?w0] => destruct (notifyEach_run l w0 H) as (w' & -> & Hd & Hp) end.
    exists w'. auto.
  - destruct (receive_run ch w H) as (d' & b & E & Hd & _ & Hp).
    rewrite (bind_run _ _ _ _ _ E). eexists. split; [done|]. split; [done|].
    intros ch' Hne. apply Hp. intros ->. by apply Hne.
Qed.

(** However the calls of connections, dispatchers and finished
    connections interleave, nothing is sent on or closed twice, every call
    returns, a notification for a registered client waits in its channel and
    stays there until it is received, and registering again closes the
    channel registered before. *)
Theorem dispatcher_safe w :
  dispReachable w ->
  (forall op, exists w', runDisp op w = (Ok tt, w')) /\
  (forall id ch, registered (w_data w) !! id = Some ch ->
     isPending (w_data (snd (Dispatch id w))) ch) /\
  (forall op ch, op <> DReceive ch -> isPending (w_data w) ch ->
     isPending (w_data (snd (runDisp op w))) ch) /\
  (forall id ch, registered (w_data w) !! id = Some ch ->
     exists c, chans (w_data (snd (Register id w))) !! ch = Some c /\ closed c = true).
Proof.
  intros Hreach. assert (H : dispOK (w_data w)).
  { assert (H0 : dispOK (w_data (mkWorld NewDispatcher 0))) by exact dispOK_new.
    unfold dispReachable in Hreach. revert Hreach H0. generalize (mkWorld NewDispatcher 0).
    intros w0 Hreach. induction Hreach as [w1|w1 w2 w3 [op w1' r w2' E] _ IH]; intros H0; [done|].
    apply IH. destruct (runDisp_ok op w1' H0) as (w' & E' & Hd & _). congruence. }
  split; [|split; [|split]].
  - intros op. destruct (runDisp_ok op w H) as (w' & E & _). by exists w'.
  - intros id ch Hr. destruct (Dispatch_run id w H) as (d' & -> & _ & _ & _ & Hp). by apply Hp.
  - intros op ch Hne Hp. destruct (runDisp_ok op w H) as (w' & -> & _ & Hk). by apply Hk.
  - intros id ch Hr. destruct (Register_run id w H) as (d' & -> & _ & _ & _ & Hc). by apply Hc.
Qed.
End Dispatch.

Lemma dispatcher_safe_witness :
  exists w', runDisp (DFin exampleClientID 0)
    (runOk (runDisp (DRegister exampleClientID)) (mkWorld NewDispatcher 0)) = (Ok tt, w').
Proof.
  refine (proj1 (dispatcher_safe (runOk (runDisp (DRegister exampleClientID)) (mkWorld NewDispatcher 0)) _)
    (DFin exampleClientID 0)).
  eapply rtc_l; [|apply rtc_refl].
  eapply (disp_step (DRegister exampleClientID)). apply surjective_pairing.
Defined.
