(* ===== verification/Broadcasts.v ===== *)
(** * The broadcast manager

    src/server/internal/broadcasts/broadcasts.go.  A [bInfo] is reached by
    pointer, from [m.infos] and from the goroutines that use it, so they live
    in a heap.  The store is an interface ([BroadcastStore], db.BroadcastStore
    of src/server/db/store.go).

    The operations are given twice: as whole calls that run alone, and, for
    the counters that goroutines share without a lock, as a step relation at
    the grain of the atomic instructions ([castStep]). *)
From Stdlib Require Import SpecFloat.
From S2P Require Import Prelude Platform Ids Proto Db Sqlite SqliteMessages SqliteClients SqliteBroadcasts Cache.

Definition allocDuration : Z := 10 * Minute.

(** ** The store the manager is written against *)
Class BroadcastStore (St : Type) := {
  bsListActiveBroadcasts : M (World St) (list BroadcastInfo.t);
  bsListSentBroadcasts : ClientID.t -> M (World St) (list BroadcastID.t);
  bsSaveBroadcastMessage : Message.t -> BroadcastID.t -> ClientID.t -> AllocationID.t ->
    M (World St) unit;
  bsCreateAllocation : BroadcastID.t -> spec_float -> Z -> M (World St) (option AllocationInfo.t);
  bsCleanupAllocation : BroadcastID.t -> AllocationID.t -> Z -> M (World St) unit;
}.

#[export] Instance sqliteBroadcastStore `{P : Platform} `{L : ProtoLib} `{F : FloatConv} :
    BroadcastStore Db := {|
  bsListActiveBroadcasts := ListActiveBroadcasts;
  bsListSentBroadcasts := ListSentBroadcasts;
  bsSaveBroadcastMessage := SaveBroadcastMessage;
  bsCreateAllocation := CreateAllocation;
  bsCleanupAllocation := CleanupAllocation;
|}.

(** Its operations return: they do not bring the process down. *)
Class BroadcastStoreOK (St : Type) `{BS : BroadcastStore St} : Prop := {
  bs_list_returns : returns bsListActiveBroadcasts;
  bs_create_returns id frac e : returns (bsCreateAllocation id frac e);
  bs_cleanup_returns id a n : returns (bsCleanupAllocation id a n);
}.

(** The clock stays in the years [int64] nanoseconds can name. *)
Definition clockInRange `{Platform} : Prop := forall n, (- 2 ^ 63 <= clock n < 2 ^ 63)%Z.

Section SqliteReturns.
Context `{P : Platform} `{L : ProtoLib} {HL : ProtoLibOK L} `{F : FloatConv}.
Context (Hclock : clockInRange).

Lemma returns_NowProto {D} : returns (NowProto (D := D)).
Proof using HL Hclock.
  intros w why. unfold NowProto, now, interact, mbind, M_bind. simpl.
  by rewrite tspb_valid by apply Hclock.
Qed.

Lemma notCrash_BytesToBroadcastID b : notCrash (BroadcastID.BytesToBroadcastID b).
Proof. unfold BroadcastID.BytesToBroadcastID. solve_returns. Qed.

Lemma notCrash_StringToBroadcastID s : notCrash (BroadcastID.StringToBroadcastID s).
Proof.
  unfold BroadcastID.StringToBroadcastID. case_decide; [solve_returns|].
  apply notCrash_bind; [apply Hex.Decode_notCrash|]. intros b. apply notCrash_BytesToBroadcastID.
Qed.
#[local] Hint Resolve returns_NowProto notCrash_BytesToBroadcastID notCrash_StringToBroadcastID : returns.

Lemma returns_ListActiveBroadcasts : returns ListActiveBroadcasts.
Proof using HL Hclock.
  unfold ListActiveBroadcasts, readActive, readActiveLabels, toBroadcastProto.
  apply returns_runInTx. solve_returns.
Qed.

Lemma returns_CleanupAllocation bID aID n : returns (CleanupAllocation bID aID n).
Proof.
  unfold CleanupAllocation, readCounters, updateSent, updateBoth. apply returns_runInTx.
  solve_returns.
Qed.

Lemma returns_CreateAllocation id frac e : returns (CreateAllocation id frac e).
Proof.
  unfold CreateAllocation, readCounters, updateAllocated, insertAllocation, AllocationID.RandomAllocationID.
  apply returns_runInTx. solve_returns.
Qed.

Lemma sqliteBroadcastStoreOK : BroadcastStoreOK Db.
Proof using HL Hclock.
  split.
  - exact returns_ListActiveBroadcasts.
  - exact returns_CreateAllocation.
  - exact returns_CleanupAllocation.
Qed.
End SqliteReturns.

(** ** State *)
Record bInfo := mkInfo {
  bID : BroadcastID.t;
  b : Broadcast.t;
  useCount : Z;
  aID : AllocationID.t;
  limit : Z;
  sent : Z;
  expiry : Z;
}.

Record Manager := mkManager {
  infos : gmap BroadcastID.t nat;
  heap : gmap nat bInfo;
  nextInfo : nat;
  basePollWait : Z;
  (** Goroutines started to run [dispatcher.NotifyAll]. *)
  notifyAlls : nat;
}.

Definition setUse (n : Z) (i : bInfo) : bInfo :=
  mkInfo (bID i) (b i) n (aID i) (limit i) (sent i) (expiry i).
Definition setSent (n : Z) (i : bInfo) : bInfo :=
  mkInfo (bID i) (b i) (useCount i) (aID i) (limit i) n (expiry i).

Definition setInfos v m := mkManager v (heap m) (nextInfo m) (basePollWait m) (notifyAlls m).
Definition setHeap v m := mkManager (infos m) v (nextInfo m) (basePollWait m) (notifyAlls m).

Section Manager.
Context `{P : Platform} `{L : ProtoLib} {St : Type} `{BS : BroadcastStore St}.

(** The manager, the client cache it clears, and the store. *)
Abbreviation Mgr A := (M (World (Manager * Clients * St)) A).

Definition onStore {A} (m : M (World St) A) : Mgr A :=
  onPart snd (fun s w => (w.1, s)) m.
Definition onCache {A} (m : M (World Clients) A) : Mgr A :=
  onPart (fun w => w.1.2) (fun c w => (w.1.1, c, w.2)) m.
Definition mgr : Mgr Manager := gets (fun w => (w_data w).1.1).
Definition setMgr (f : Manager -> Manager) : Mgr unit := fun w =>
  (Ok tt, mkWorld (f (w_data w).1.1, (w_data w).1.2, (w_data w).2) (w_step w)).

Definition deref (l : nat) : Mgr bInfo :=
  m ← mgr;
  match heap m !! l with Some i => mret i | None => crash "nil bInfo" end.
Definition updateInfo (l : nat) (f : bInfo -> bInfo) : Mgr unit :=
  setMgr (fun m => setHeap (alter f l (heap m)) m).

Definition labelFromProto (l : Label.t) : Label.t := l.

(** [cmp.Or] *)
Definition cmpOr (s t : string) : string := if String.eqb s "" then t else s.

Definition serviceOf (a : option Address.t) : string :=
  match a with Some a => Address.ServiceName a | None => "" end.

(** Run alone, the compare-and-swap loop takes one turn. *)
Definition limitedAtomicIncrement (l : nat) (lim : Z) : Mgr bool :=
  i ← deref l;
  if (lim <=? sent i)%Z then mret false
  else updateInfo l (setSent (wrapU64 (sent i + 1))) ≫= fun _ => mret true.

Definition addUse (l : nat) (n : Z) : Mgr unit :=
  updateInfo l (fun i => setUse (useCount i + n) i).
Definition decSent (l : nat) : Mgr unit :=
  updateInfo l (fun i => setSent (wrapU64 (sent i - 1)) i).

(** One turn of the first loop: whether the info is used. *)
Definition reserve (sentSet : gset BroadcastID.t) (labelSet : gset Label.t) (l : nat) : Mgr bool :=
  i ← deref l;
  if decide (bID i ∈ sentSet) then mret false
  else
    expired ← (if IsZero (expiry i) then mret false
               else t ← now; mret (expiry i <? t)%Z);
    if (expired : bool) then mret false
    else if decide (Forall (fun kw => labelFromProto kw ∈ labelSet) (Broadcast.RequiredLabels (b i)))
    then
      addUse l 1 ≫= fun _ =>
      if (limit i =? BroadcastUnlimited)%Z then
        updateInfo l (fun i => setSent (wrapU64 (sent i + 1)) i) ≫= fun _ => mret true
      else
        ok ← limitedAtomicIncrement l (limit i);
        if (ok : bool) then mret true else addUse l (-1) ≫= fun _ => mret false
    else mret false.

Definition reserveAll (sentSet : gset BroadcastID.t) (labelSet : gset Label.t) (ls : list nat) :
    Mgr (list nat) :=
  foldM (fun used l => ok ← reserve sentSet labelSet l;
                     mret (if (ok : bool) then used ++ [l] else used)) ls [].

Definition broadcastMessage (mid : MessageID.t) (id : ClientID.t) (i : bInfo) (n : Timestamp.t) :
    Message.t :=
  Message.Mk (MessageID.Bytes mid) (Broadcast.Source (b i)) false None
    (Some (Address.Mk (ClientID.Bytes id)
       (cmpOr (serviceOf (Broadcast.Destination (b i))) (serviceOf (Broadcast.Source (b i))))))
    (Broadcast.MessageType (b i)) (Some n) (Broadcast.Data (b i)) None None Message.MEDIUM false None.

(** One turn of the second loop: the message, unless it could not be saved. *)
Definition send (id : ClientID.t) (l : nat) : Mgr (option Message.t) :=
  i ← deref l;
  r ← try MessageID.RandomMessageID;
  match r with
  | inr _ => decSent l ≫= fun _ => addUse l (-1) ≫= fun _ => mret None
  | inl mid =>
      n ← NowProto;
      let msg := broadcastMessage mid id i n in
      r ← try (onStore (bsSaveBroadcastMessage msg (bID i) id
            (if (limit i =? BroadcastUnlimited)%Z then AllocationID.nil else aID i)));
      match r with
      | inr _ => decSent l ≫= fun _ => addUse l (-1) ≫= fun _ => mret None
      | inl _ => addUse l (-1) ≫= fun _ => mret (Some msg)
      end
  end.

Definition sendAll (id : ClientID.t) (used : list nat) : Mgr (list Message.t) :=
  foldM (fun msgs l => o ← send id l;
                       mret (match o with Some m => msgs ++ [m] | None => msgs end)) used [].

Definition MakeBroadcastMessagesForClient (id : ClientID.t) (labels : list Label.t) :
    Mgr (list Message.t) :=
  let labelSet := list_to_set (labelFromProto <$> labels) in
  sentL ← onStore (bsListSentBroadcasts id);
  let sentSet := list_to_set sentL in
  m ← mgr;
  kvs ← rangeMap (infos m);
  used ← reserveAll sentSet labelSet (snd <$> kvs);
  sendAll id used.

(** ** Refreshing *)
Definition keepsAlloc (i : bInfo) (t wait : Z) : bool :=
  ((limit i =? BroadcastUnlimited) || (sent i <? limit i))%Z &&
  (IsZero (expiry i) || (t + 2 * wait <? expiry i)%Z).

(** The clock is only read where Go's [&&] and [||] get to it. *)
Definition findCurrentAllocs : Mgr (gset BroadcastID.t) :=
  m ← mgr;
  kvs ← rangeMap (infos m);
  foldM (fun r kl =>
    i ← deref kl.2;
    t ← (if ((limit i =? BroadcastUnlimited) || (sent i <? limit i))%Z && negb (IsZero (expiry i))
         then now else mret 0%Z);
    mret (if keepsAlloc i t (basePollWait m) then {[bID i]} ∪ r else r)) kvs ∅.

(** One turn over the active broadcasts. *)
Definition newAlloc (curr : gset BroadcastID.t) (bi : BroadcastInfo.t)
    (acc : gmap BroadcastID.t nat * gset BroadcastID.t) :
    Mgr (gmap BroadcastID.t nat * gset BroadcastID.t) :=
  match BroadcastID.BytesToBroadcastID (Broadcast.BroadcastId (BroadcastInfo.Broadcast bi)) with
  | Ok id =>
      let acc := (acc.1, {[id]} ∪ acc.2) in
      if decide (id ∈ curr) then mret acc
      else if (BroadcastInfo.Sent bi =? BroadcastInfo.Limit bi)%Z then mret acc
      else
        let add (a : AllocationID.t) (lim e : Z) : Mgr _ := fun w =>
          let m := (w_data w).1.1 in
          let l := nextInfo m in
          (Ok (<[id := l]> acc.1, acc.2),
           mkWorld (mkManager (infos m)
             (<[l := mkInfo id (BroadcastInfo.Broadcast bi) 0 a lim 0 e]> (heap m)) (S l)
             (basePollWait m) (notifyAlls m), (w_data w).1.2, (w_data w).2) (w_step w)) in
        if (BroadcastInfo.Limit bi =? BroadcastUnlimited)%Z then
          add AllocationID.nil (BroadcastInfo.Limit bi) zeroTime
        else
          t ← now;
          r ← try (onStore (bsCreateAllocation id allocFrac (t + allocDuration)));
          match r with
          | inr _ => mret acc
          | inl None => mret acc
          | inl (Some a) =>
              add (AllocationInfo.ID a) (AllocationInfo.Limit a) (AllocationInfo.Expiry a)
          end
  | _ => mret acc
  end.

(** One turn of the pass over [m.infos]. *)
Definition dropUnkept (keep : gset BroadcastID.t) (new : gmap BroadcastID.t nat)
    (ret : list nat) (kl : BroadcastID.t * nat) : Mgr (list nat) :=
  i ← deref kl.2;
  if decide (bID i ∈ keep) then mret ret
  else match new !! bID i with
       | None => setMgr (fun m => setInfos (delete (bID i) (infos m)) m) ≫= fun _ =>
                 mret (ret ++ [kl.2])
       | Some _ => mret ret
       end.

(** One turn of the pass over [new]. *)
Definition insertNew (ret : list nat) (kl : BroadcastID.t * nat) : Mgr (list nat) :=
  m ← mgr;
  setMgr (fun m => setInfos (<[kl.1 := kl.2]> (infos m)) m) ≫= fun _ =>
  mret (match infos m !! kl.1 with Some l => ret ++ [l] | None => ret end).

(** The infos dropped or replaced. *)
Definition updateAllocs (keep : gset BroadcastID.t) (new : gmap BroadcastID.t nat) :
    Mgr (list nat) :=
  m ← mgr;
  kvs ← rangeMap (infos m);
  ret ← foldM (dropUnkept keep new) kvs [];
  news ← rangeMap new;
  foldM insertNew news ret.

(** [a.useCount.Wait()] returns once nobody uses the info. *)
Definition waitIdle (l : nat) : Mgr unit :=
  i ← deref l; if (useCount i =? 0)%Z then mret tt else crash "blocked on useCount".

(** The messages of the errors, in order. *)
Definition cleanup (ls : list nat) : Mgr (list goerror) :=
  foldM (fun errs l =>
    waitIdle l ≫= fun _ =>
    i ← deref l;
    r ← try (onStore (bsCleanupAllocation (bID i) (aID i) (sent i)));
    mret (match r with inl _ => errs | inr e => errs ++ [e] end)) ls [].

Definition orCleanupError (errs : list goerror) : Mgr unit :=
  if decide (errs = []) then mret tt
  else fail (ErrText "errors cleaning up allocations").

(** The errors of the cleanups. *)
Definition refreshAll : Mgr (list goerror) :=
  curr ← findCurrentAllocs;
  r ← try (onStore bsListActiveBroadcasts);
  match r with
  | inr _ => fail (ErrText "unable to list active broadcasts")
  | inl bs =>
      acc ← foldM (fun acc bi => newAlloc curr bi acc) bs (∅, ∅);
      c ← updateAllocs (filter (fun id => id ∈ acc.2) curr) acc.1;
      (if decide (acc.1 = ∅) then mret tt
       else onCache Clear ≫= fun _ =>
            setMgr (fun m => mkManager (infos m) (heap m) (nextInfo m) (basePollWait m) (S (notifyAlls m)))) ≫= fun _ =>
      cleanup c
  end.

Definition refreshInfo : Mgr unit :=
  errs ← refreshAll;
  orCleanupError errs.

(** What [MakeManager] builds before it starts [refreshLoop]. *)
Definition newManager (pw : Z) : Manager := mkManager ∅ ∅ 0 pw 0.
Definition MakeManager : Mgr unit := refreshInfo.

(** [refreshLoop] runs [refreshInfo] at every tick and drops its error. *)
Fixpoint refreshLoop (ticks : nat) : Mgr unit :=
  match ticks with
  | O => mret tt
  | S n => try refreshInfo ≫= fun _ => refreshLoop n
  end.

Definition Close : Mgr unit :=
  m ← mgr;
  kvs ← rangeMap (infos m);
  errs ← cleanup (snd <$> kvs);
  setMgr (setInfos ∅) ≫= fun _ =>
  orCleanupError errs.
End Manager.

(** ** Whole calls *)
Section WholeCalls.
Context `{P : Platform} `{L : ProtoLib} {St : Type} `{BS : BroadcastStore St}.

Abbreviation MgrWorld := (World (Manager * Clients * St)).
Abbreviation mgrOf := (fun w : MgrWorld => (w_data w).1.1).

(** Everything but the heap of infos and the store. *)
Definition sameRest (m m' : Manager) : Prop :=
  infos m' = infos m /\ nextInfo m' = nextInfo m /\ basePollWait m' = basePollWait m /\
  notifyAlls m' = notifyAlls m.

Record mgrOK (m : Manager) : Prop := {
  mk_infos id l : infos m !! id = Some l -> exists i, heap m !! l = Some i /\ bID i = id;
  mk_next l : is_Some (heap m !! l) -> l < nextInfo m;
  mk_sent l i : heap m !! l = Some i -> isU64 (sent i);
}.

(** No call is using an info. *)
Definition idle (m : Manager) : Prop := forall l i, heap m !! l = Some i -> useCount i = 0%Z.

Definition bumpInfo (i : bInfo) : bInfo := setSent (wrapU64 (sent i + 1)) (setUse (useCount i + 1) i).
Definition sentInfo (i : bInfo) : bInfo := setSent (wrapU64 (sent i + 1)) i.

(** What makes a client eligible for a broadcast. *)
Definition eligible (sentSet : gset BroadcastID.t) (labelSet : gset Label.t) (i : bInfo) : Prop :=
  ~ (bID i ∈ sentSet) /\ (forall kw, kw ∈ Broadcast.RequiredLabels (b i) -> kw ∈ labelSet) /\
  (limit i <> BroadcastUnlimited -> sent i < limit i)%Z /\
  (IsZero (expiry i) = true \/ exists n, clock n <= expiry i)%Z.

Lemma deref_Ok l w i w' : deref (St := St) l w = (Ok i, w') <-> heap (mgrOf w) !! l = Some i /\ w' = w.
Proof.
  unfold deref. split.
  - intros E. apply bind_Ok in E as (m & w1 & Em & E). apply gets_Ok in Em as [<- <-].
    destruct (heap _ !! l) eqn:Hl; [|done]. by apply ret_Ok in E as [-> <-].
  - intros [Hl ->]. erewrite bind_run by reflexivity. by rewrite Hl.
Qed.

Lemma alter_use_back l (h : gmap nat bInfo) :
  alter (fun i => setUse (useCount i + -1) i) l (alter (fun i => setUse (useCount i + 1) i) l h) = h.
Proof.
  rewrite alter_alter_eq. apply alter_id. intros i _. destruct i; simpl. unfold setUse. simpl.
  f_equal. lia.
Qed.

Lemma reserve_Ok ss ls l w ok w' :
  reserve (St := St) ss ls l w = (Ok ok, w') ->
  (w_data w').1.2 = (w_data w).1.2 /\ (w_data w').2 = (w_data w).2 /\
  exists i, heap (mgrOf w) !! l = Some i /\
  if ok then mgrOf w' = setHeap (alter bumpInfo l (heap (mgrOf w))) (mgrOf w) /\ eligible ss ls i
  else mgrOf w' = mgrOf w.
Proof.
  intros E. unfold reserve in E. apply bind_Ok in E as (i & w1 & Ei & E).
  apply deref_Ok in Ei as [Hi ->].
  assert (Hskip : (Ok false, w) = (Ok ok, w') -> (w_data w').1.2 = (w_data w).1.2 /\
    (w_data w').2 = (w_data w).2 /\ exists i, heap (mgrOf w) !! l = Some i /\
    if ok then mgrOf w' = setHeap (alter bumpInfo l (heap (mgrOf w))) (mgrOf w) /\ eligible ss ls i
    else mgrOf w' = mgrOf w).
  { intros [= <- <-]. split; [done|]. split; [done|]. by exists i. }
  destruct (decide (bID i ∈ ss)) as [|Hss]; [by apply Hskip|].
  apply bind_Ok in E as (expired & w2 & Ex & E).
  assert (Hw2 : w_data w2 = w_data w /\ (expired = false ->
    IsZero (expiry i) = true \/ exists n, clock n <= expiry i)%Z).
  { destruct (IsZero (expiry i)); [apply ret_Ok in Ex as [<- <-]; split; [done|by left]|].
    apply bind_Ok in Ex as (t & w3 & Et & Ex). apply interact_Ok in Et as [[= <-] ->].
    apply ret_Ok in Ex as [<- <-]. split; [done|]. intros Hf. right. exists (w_step w).
    by apply Z.ltb_ge in Hf. }
  destruct Hw2 as [Hw2 Hexp]. destruct w2 as [d2 n2]. simpl in Hw2. subst d2.
  destruct expired.
  { injection E as <- <-. split; [done|]. split; [done|]. by exists i. }
  destruct (decide (Forall _ _)) as [Hlab|].
  2:{ injection E as <- <-. split; [done|]. split; [done|]. by exists i. }
  rewrite Forall_forall in Hlab. apply bind_Ok in E as ([] & w3 & Ea & E).
  injection Ea as <-. cbn in E. destruct (Z.eqb_spec (limit i) BroadcastUnlimited) as [Hu|Hu].
  - injection E as <- <-. cbn. split; [done|]. split; [done|]. exists i. split; [done|]. split.
    + unfold setHeap. cbn. f_equal. rewrite alter_alter_eq. done.
    + split; [done|]. split; [done|]. split; [by intros|]. by apply Hexp.
  - apply bind_Ok in E as (ok' & w4 & El & E). unfold limitedAtomicIncrement in El.
    apply bind_Ok in El as (i' & w5 & Ei' & El). apply deref_Ok in Ei' as [Hi' ->].
    cbn in Hi'. rewrite lookup_alter_eq, Hi in Hi'. injection Hi' as <-. cbn in El.
    destruct (Z.leb_spec (limit i) (sent i)).
    + injection El as <- <-. injection E as <- <-. cbn. split; [done|]. split; [done|].
      exists i. split; [done|]. unfold setHeap. cbn. rewrite alter_use_back. by destruct (w_data w).1.1.
    + injection El as <- <-. injection E as <- <-. cbn. split; [done|]. split; [done|].
      exists i. split; [done|]. split.
      * unfold setHeap. cbn. f_equal. rewrite alter_alter_eq. apply alter_ext.
        intros i0 Hi0. simpl. unfold bumpInfo. congruence.
      * split; [done|]. split; [done|]. split; [done|]. by apply Hexp.
Qed.

Lemma reserveAll_Ok ss lab ls w used w' :
  NoDup ls -> reserveAll (St := St) ss lab ls w = (Ok used, w') ->
  (w_data w').1.2 = (w_data w).1.2 /\ (w_data w').2 = (w_data w).2 /\
  sameRest (mgrOf w) (mgrOf w') /\ NoDup used /\
  (forall l, l ∈ used -> l ∈ ls /\ exists i, heap (mgrOf w) !! l = Some i /\ eligible ss lab i) /\
  (forall l, heap (mgrOf w') !! l =
     (if decide (l ∈ used) then bumpInfo else id) <$> heap (mgrOf w) !! l).
Proof.
  intros Hnd E. unfold reserveAll in E.
  refine (foldM_Ok_inv _ (fun pre used w' => (w_data w').1.2 = (w_data w).1.2 /\
    (w_data w').2 = (w_data w).2 /\ sameRest (mgrOf w) (mgrOf w') /\ NoDup used /\
    (forall l, l ∈ used -> l ∈ pre /\ exists i, heap (mgrOf w) !! l = Some i /\ eligible ss lab i) /\
    (forall l, heap (mgrOf w') !! l =
      (if decide (l ∈ used) then bumpInfo else id) <$> heap (mgrOf w) !! l)) ls [] w used w' _ _ E).
  - split; [done|]. split; [done|]. split; [by split|]. split; [constructor|].
    split; [by intros l ?%not_elem_of_nil|]. intros l.
    rewrite decide_False by apply not_elem_of_nil. by rewrite option_fmap_id.
  - intros pre l post u s u' s1 Hls (H1 & H2 & H3 & H4 & H5 & H6) Es.
    apply bind_Ok in Es as (ok & s2 & E1 & Es). injection Es as <- <-.
    apply reserve_Ok in E1 as (R1 & R2 & i & Hi & R3). rewrite R1, R2.
    assert (Hl : l ∉ u).
    { intros Hin. apply H5 in Hin as [Hin _]. rewrite Hls in Hnd. apply NoDup_app in Hnd as (_ & Hd & _).
      apply (Hd l Hin). by left. }
    rewrite H6, decide_False, option_fmap_id in Hi by done.
    destruct ok; [destruct R3 as [R3 Hel]|]; rewrite R3.
    + split; [done|]. split; [done|]. split; [done|]. split; [|split].
      * apply NoDup_app. split; [done|]. split; [|apply NoDup_singleton].
        intros x Hx ->%list_elem_of_singleton. done.
      * intros x [Hx|Hx%list_elem_of_singleton]%elem_of_app.
        -- destruct (H5 x Hx). split; [set_solver|done].
        -- subst. split; [set_solver|]. by exists i.
      * intros x. cbn. rewrite lookup_alter. case_decide as Hx.
        -- subst x. rewrite H6, (decide_False (P := l ∈ u)) by done.
           rewrite decide_True by (apply elem_of_app; right; by left). by rewrite option_fmap_id.
        -- rewrite H6. destruct (decide (x ∈ u)); [rewrite decide_True by (apply elem_of_app; by left); done|].
           rewrite decide_False; [done|]. rewrite elem_of_app, list_elem_of_singleton. naive_solver.
    + split; [done|]. split; [done|]. split; [done|]. split; [done|]. split; [|done].
      intros x Hx. destruct (H5 x Hx). split; [set_solver|done].
Qed.

Definition releaseInfo (i : bInfo) : bInfo := setUse (useCount i + -1) i.
Definition refundInfo (i : bInfo) : bInfo :=
  setUse (useCount i + -1) (setSent (wrapU64 (sent i - 1)) i).

Lemma RandomMessageID_world (w : MgrWorld) r w' :
  try MessageID.RandomMessageID w = (Ok r, w') -> w_data w' = w_data w.
Proof.
  unfold try, MessageID.RandomMessageID, mbind, M_bind, randBytes, interact.
  destruct (randRead (w_step w) 32) as [s|]; cbn;
    [destruct (MessageID.BytesToMessageID (Some s))|]; intros E; by inversion E.
Qed.

Lemma try_onStore_Ok {A} (m : M (World St) A) (w : MgrWorld) r w' :
  try (onStore m) w = (Ok r, w') ->
  (w_data w').1 = (w_data w).1 /\
  m (mkWorld (w_data w).2 (w_step w)) =
    (match r with inl a => Ok a | inr e => Err e end, mkWorld (w_data w').2 (w_step w')).
Proof.
  unfold try, onStore, onPart. destruct (m _) as [[a|e|c] [s n]]; intros [= <- <-]; done.
Qed.

(** A message handed to the client: what was sent, and that the store took it. *)
Definition saved (id : ClientID.t) (i : bInfo) (msg : Message.t) : Prop :=
  exists mid n, msg = broadcastMessage mid id i n /\ exists w w',
    bsSaveBroadcastMessage msg (bID i) id
      (if (limit i =? BroadcastUnlimited)%Z then AllocationID.nil else aID i) w = (Ok tt, w').

Lemma send_Ok id l w o w' :
  send (St := St) id l w = (Ok o, w') ->
  (w_data w').1.2 = (w_data w).1.2 /\
  exists i, heap (mgrOf w) !! l = Some i /\
    mgrOf w' = setHeap (alter (if o is Some _ then releaseInfo else refundInfo) l (heap (mgrOf w))) (mgrOf w) /\
    (forall msg, o = Some msg -> saved id i msg).
Proof.
  intros E. unfold send in E. apply bind_Ok in E as (i & w1 & Ei & E). apply deref_Ok in Ei as [Hi ->].
  apply bind_Ok in E as (r & w1 & Er & E). apply RandomMessageID_world in Er.
  destruct w1 as [d1 n1]. simpl in Er. subst d1.
  assert (Hrefund : forall d n, d.1 = (w_data w).1 ->
    (decSent l ≫= fun _ => addUse l (-1) ≫= fun _ => mret None) (mkWorld d n) = (Ok o, w') ->
    (w_data w').1.2 = (w_data w).1.2 /\ exists i, heap (mgrOf w) !! l = Some i /\
    mgrOf w' = setHeap (alter (if o is Some _ then releaseInfo else refundInfo) l (heap (mgrOf w))) (mgrOf w) /\
    (forall msg, o = Some msg -> saved id i msg)).
  { intros [[m c] s] n Hd E0. simpl in Hd. injection E0 as <- <-. cbn. rewrite <- Hd. cbn.
    split; [done|]. exists i. rewrite <- Hd in Hi. split; [done|]. split; [|done].
    unfold setHeap. cbn. f_equal. by rewrite alter_alter_eq. }
  destruct r as [mid|e]; [|by apply (Hrefund (w_data w) n1)].
  apply bind_Ok in E as (n & w2 & En & E). apply NowProto_data in En.
  apply bind_Ok in E as (r & w3 & Er & E). apply try_onStore_Ok in Er as [Hd Es].
  rewrite En in Hd. destruct r as [[]|e].
  - destruct w3 as [[[m c] s] n3]. simpl in Hd. injection E as <- <-. cbn. rewrite <- Hd. cbn.
    split; [done|]. exists i. rewrite <- Hd in Hi. split; [done|]. split; [done|].
    intros msg [= <-]. exists mid, n. split; [done|]. by eexists _, _.
  - destruct w3 as [d3 n3]. by apply (Hrefund d3 n3).
Qed.

(** The heap while the reserved infos are worked through. *)
Definition worked (used done' delivered : list nat) (h0 h : gmap nat bInfo) : Prop :=
  forall l, h !! l = (if decide (l ∈ delivered) then sentInfo
                      else if decide (l ∈ done') then id
                      else if decide (l ∈ used) then bumpInfo else id) <$> h0 !! l.

Lemma release_bump i : releaseInfo (bumpInfo i) = sentInfo i.
Proof. destruct i. unfold releaseInfo, bumpInfo, sentInfo, setUse, setSent. simpl. f_equal. lia. Qed.

Lemma refund_bump i : isU64 (sent i) -> refundInfo (bumpInfo i) = i.
Proof.
  intros H. destruct i as [x y u a li s e]. simpl in H.
  unfold refundInfo, bumpInfo, setUse, setSent. simpl. f_equal; [lia|].
  unfold wrapU64, isU64 in *. rewrite Zminus_mod_idemp_l. rewrite Z.mod_small; lia.
Qed.

Lemma sendAll_Ok id used h0 w msgs w' :
  NoDup used -> (forall l i, h0 !! l = Some i -> isU64 (sent i)) ->
  worked used [] [] h0 (heap (mgrOf w)) ->
  sendAll (St := St) id used w = (Ok msgs, w') ->
  (w_data w').1.2 = (w_data w).1.2 /\ sameRest (mgrOf w) (mgrOf w') /\
  exists delivered, NoDup delivered /\ (forall l, l ∈ delivered -> l ∈ used) /\
    Forall2 (fun l msg => exists i, h0 !! l = Some i /\ saved id i msg) delivered msgs /\
    worked used used delivered h0 (heap (mgrOf w')).
Proof.
  intros Hnd Hs Hw E. unfold sendAll in E.
  refine (foldM_Ok_inv _ (fun pre msgs w' => (w_data w').1.2 = (w_data w).1.2 /\
    sameRest (mgrOf w) (mgrOf w') /\ exists delivered, NoDup delivered /\
    (forall l, l ∈ delivered -> l ∈ pre) /\
    Forall2 (fun l msg => exists i, h0 !! l = Some i /\ saved id i msg) delivered msgs /\
    worked used pre delivered h0 (heap (mgrOf w'))) used [] w msgs w' _ _ E).
  - split; [done|]. split; [done|]. exists []. split; [constructor|]. split; [done|].
    split; [constructor|done].
  - intros pre l post ms s ms' s' Hused (H1 & H2 & del & Hdel & Hsub & Hall & Hwk) Es.
    apply bind_Ok in Es as (o & s1 & Eo & Es). injection Es as <- <-.
    apply send_Ok in Eo as (R1 & i & Hi & R2 & R3).
    assert (Hpre : l ∉ pre).
    { intros Hin. rewrite Hused in Hnd. apply NoDup_app in Hnd as (_ & Hd & _).
      apply (Hd l Hin). by left. }
    assert (Hin : l ∈ used) by (rewrite Hused; apply elem_of_app; right; by left).
    rewrite Hwk, decide_False, decide_False, decide_True in Hi by naive_solver.
    apply fmap_Some in Hi as (i0 & Hi0 & ->). rewrite R1, R2. split; [done|]. split; [done|].
    assert (Hother : forall x, x <> l -> (x ∈ pre ++ [l] <-> x ∈ pre)).
    { intros x Hx. rewrite elem_of_app, list_elem_of_singleton. naive_solver. }
    destruct o as [msg|].
    + exists (del ++ [l]). split; [|split; [|split]].
      * apply NoDup_app. split; [done|]. split; [|apply NoDup_singleton].
        intros x Hx ->%list_elem_of_singleton. naive_solver.
      * intros x [Hx|Hx]%elem_of_app; apply elem_of_app; [left; by apply Hsub|by right].
      * apply Forall2_app; [done|]. constructor; [|constructor]. exists i0. split; [done|].
        by apply (R3 msg).
      * intros x. cbn. rewrite lookup_alter. case_decide as Hx.
        -- subst x. rewrite Hwk, (decide_False (P := l ∈ del)), (decide_False (P := l ∈ pre)),
             (decide_True (P := l ∈ used)) by naive_solver.
           rewrite decide_True by (apply elem_of_app; right; by left). rewrite Hi0. simpl.
           by rewrite release_bump.
        -- rewrite Hwk. apply (f_equal (fun f => f <$> _)).
           rewrite (decide_ext (x ∈ del ++ [l]) (x ∈ del)); [|rewrite elem_of_app, list_elem_of_singleton; naive_solver].
           by rewrite (decide_ext (x ∈ pre ++ [l]) (x ∈ pre)) by (by apply Hother).
    + exists del. split; [done|]. split; [|split; [done|]].
      * intros x Hx. apply elem_of_app. left. by apply Hsub.
      * intros x. cbn. rewrite lookup_alter. case_decide as Hx.
        -- subst x. rewrite Hwk, !(decide_False (P := l ∈ del)), (decide_False (P := l ∈ pre)),
             (decide_True (P := l ∈ used)) by naive_solver.
           rewrite decide_True by (apply elem_of_app; right; by left). rewrite Hi0. simpl.
           f_equal. apply refund_bump. by apply (Hs l).
        -- rewrite Hwk. apply (f_equal (fun f => f <$> _)).
           by rewrite (decide_ext (x ∈ pre ++ [l]) (x ∈ pre)) by (by apply Hother).
Qed.

(** [MakeBroadcastMessagesForClient] makes at most one message per
    broadcast, only of broadcasts on the current list that the client has not
    been sent, whose required labels it has and whose allocation has room, and
    every message it returns was accepted by the store.  A message returned
    counts one against its allocation; nothing else does: a failed save gives
    its place back, and the use counts are as before, so that the allocation
    can be cleaned up. *)
Theorem make_broadcast_messages_spec id labels w msgs w' :
  PlatformOK P -> mgrOK (mgrOf w) ->
  MakeBroadcastMessagesForClient (St := St) id labels w = (Ok msgs, w') ->
  sameRest (mgrOf w) (mgrOf w') /\
  exists sentL w1 w2 delivered,
    bsListSentBroadcasts id w1 = (Ok sentL, w2) /\ NoDup delivered /\
    Forall2 (fun l msg => exists i, heap (mgrOf w) !! l = Some i /\
       infos (mgrOf w) !! bID i = Some l /\
       eligible (list_to_set sentL) (list_to_set labels) i /\ saved id i msg) delivered msgs /\
    forall l, heap (mgrOf w') !! l =
      (if decide (l ∈ delivered) then sentInfo else fun i => i) <$> heap (mgrOf w) !! l.
Proof.
  intros HP Hok E. unfold MakeBroadcastMessagesForClient in E.
  apply bind_Ok in E as (sentL & w1 & El & E). unfold onStore in El.
  apply onPart_Ok in El as (s1 & El & ->). destruct w as [[[m c] s] n]. simpl in *.
  apply bind_Ok in E as (m' & w2 & Em & E). apply gets_Ok in Em as [<- <-]. simpl in E.
  apply bind_Ok in E as (kvs & w3 & Ek & E). apply interact_Ok in Ek as [[= <-] ->]. simpl in E.
  set (kvs := deliver _ _ _) in *.
  assert (Hkvs : forall k l, (k, l) ∈ kvs <-> infos m !! k = Some l).
  { intros k l. unfold kvs. rewrite deliver_perm. apply elem_of_map_to_list. }
  assert (Hnd : NoDup kvs.*2).
  { apply NoDup_fmap_2_strong.
    - intros [k l] [k' l'] H1%Hkvs H2%Hkvs. simpl. intros ->.
      destruct (mk_infos _ Hok _ _ H1) as (i & Hi & <-), (mk_infos _ Hok _ _ H2) as (i' & Hi' & <-).
      congruence.
    - unfold kvs. rewrite deliver_perm. apply NoDup_map_to_list. }
  apply bind_Ok in E as (used & w4 & Er & E).
  apply reserveAll_Ok in Er as (_ & _ & Hrest & Hnu & Hused & Hheap); [|done]. simpl in *.
  apply (sendAll_Ok id used (heap m)) in E as (_ & Hrest' & del & Hdel & Hsub & Hall & Hwk); [|done| |].
  - split.
    { unfold sameRest in *. simpl in *.
      destruct Hrest as (? & ? & ? & ?), Hrest' as (? & ? & ? & ?). repeat split; congruence. }
    exists sentL, (mkWorld s n), s1, del. split; [done|]. split; [done|]. split.
    + pose proof (fun l Hl => Hused l (Hsub l Hl)) as Hel.
      eapply Forall2_impl; [apply (Forall2_elem_l _ _ _ _ Hel Hall)|]. simpl.
      intros l msg [[Hl (i & Hi & He)] (i' & Hi' & Hsv)]. exists i. split; [done|].
      replace i' with i in Hsv by congruence. split; [|by rewrite list_fmap_id in He].
      apply list_elem_of_fmap in Hl as ([k l'] & -> & Hk%Hkvs). simpl in *.
      destruct (mk_infos _ Hok _ _ Hk) as (i0 & Hi0 & <-). congruence.
    + intros l. rewrite Hwk. apply (f_equal (fun f => f <$> _)).
      destruct (decide (l ∈ del)); [done|]. by destruct (decide (l ∈ used)).
  - intros l i Hi. by apply (mk_sent _ Hok l).
  - intros l. rewrite decide_False, decide_False by apply not_elem_of_nil. apply Hheap.
Qed.
End WholeCalls.

(** ** Refreshing *)
Section Refreshing.
Context `{P : Platform} {HP : PlatformOK P} {St : Type} `{BS : BroadcastStore St}.

Abbreviation MgrWorld := (World (Manager * Clients * St)).
Abbreviation mgrOf := (fun w : MgrWorld => (w_data w).1.1).

Lemma safe_deref l (w : MgrWorld) Q :
  (exists i, heap (mgrOf w) !! l = Some i /\ Q i w) -> safe (deref l) w Q.
Proof.
  intros (i & Hi & HQ). unfold safe. rewrite (proj2 (deref_Ok l w i w)); [done|by split].
Qed.

Lemma safe_setMgr (f : Manager -> Manager) (w : MgrWorld) Q :
  Q tt (mkWorld (f (mgrOf w), (w_data w).1.2, (w_data w).2) (w_step w)) -> safe (setMgr f) w Q.
Proof. done. Qed.

(** Dropped by [updateAllocs]' first pass. *)
Definition dropped (keep : gset BroadcastID.t) (new : gmap BroadcastID.t nat) (id : BroadcastID.t) : Prop :=
  ~ (id ∈ keep) /\ new !! id = None.
#[local] Instance dropped_dec keep new id : Decision (dropped keep new id) := _.

Lemma safe_firstPass keep new kvs (w : MgrWorld) :
  mgrOK (mgrOf w) -> (forall k l, (k, l) ∈ kvs -> infos (mgrOf w) !! k = Some l) ->
  safe (foldM (dropUnkept keep new) kvs []) w (fun ret w' =>
    w_data w' = (setInfos (infos (mgrOf w')) (mgrOf w), (w_data w).1.2, (w_data w).2) /\
    ret = (filter (fun kl => dropped keep new kl.1) kvs).*2 /\
    forall id, infos (mgrOf w') !! id =
      if decide (id ∈ kvs.*1 /\ dropped keep new id) then None else infos (mgrOf w) !! id).
Proof.
  intros Hok Hkvs.
  refine (safe_foldM _ (fun pre ret w' =>
    w_data w' = (setInfos (infos (mgrOf w')) (mgrOf w), (w_data w).1.2, (w_data w).2) /\
    ret = (filter (fun kl => dropped keep new kl.1) pre).*2 /\
    forall id, infos (mgrOf w') !! id =
      if decide (id ∈ pre.*1 /\ dropped keep new id) then None else infos (mgrOf w) !! id) kvs [] w _ _).
  - split; [by destruct w as [[[[] ?] ?] ?]|]. split; [done|]. intros id.
    rewrite decide_False; [done|]. intros [Hin _]. by apply not_elem_of_nil in Hin.
  - intros pre [k l] post ret s Hk (H1 & H2 & H3).
    destruct (mk_infos _ Hok k l) as (i & Hi & Hid); [apply Hkvs; rewrite Hk; apply elem_of_app; right; by left|].
    apply safe_bind, safe_deref. exists i. split; [by rewrite H1|]. rewrite Hid.
    assert (Hpre : forall id, id ∈ (pre ++ [(k, l)]).*1 <-> id ∈ pre.*1 \/ id = k).
    { intros id. rewrite fmap_app, elem_of_app. simpl. by rewrite list_elem_of_singleton. }
    assert (Hret : (filter (fun kl => dropped keep new kl.1) (pre ++ [(k, l)])).*2 =
      (filter (fun kl => dropped keep new kl.1) pre).*2 ++ (if decide (dropped keep new k) then [l] else [])).
    { rewrite filter_app, fmap_app. f_equal. rewrite filter_cons, filter_nil. simpl. by destruct (decide (dropped keep new k)). }
    assert (Hskip : ~ dropped keep new k -> safe (mret ret) s (fun ret w' =>
      w_data w' = (setInfos (infos (mgrOf w')) (mgrOf w), (w_data w).1.2, (w_data w).2) /\
      ret = (filter (fun kl => dropped keep new kl.1) (pre ++ [(k, l)])).*2 /\
      forall id, infos (mgrOf w') !! id =
        if decide (id ∈ (pre ++ [(k, l)]).*1 /\ dropped keep new id) then None
        else infos (mgrOf w) !! id)).
    { intros Hnd. apply safe_ret. split; [done|]. split; [by rewrite Hret, decide_False, app_nil_r|].
      intros id. rewrite H3. apply decide_ext. rewrite Hpre. naive_solver. }
    destruct (decide (k ∈ keep)) as [Hkeep|Hkeep]; [apply Hskip; by intros []|].
    destruct (new !! k) eqn:Hnew; [apply Hskip; intros []; congruence|].
    assert (Hd : dropped keep new k) by (by split).
    apply safe_bind, safe_setMgr, safe_ret. cbn [w_data]. rewrite H1. cbn [fst snd].
    split; [done|].
    split; [rewrite Hret, decide_True by done; by rewrite <- H2|].
    intros id. cbn [w_data setInfos infos fst snd]. rewrite lookup_delete.
    destruct (decide (k = id)) as [<-|He].
    + rewrite decide_True; [done|]. split; [|done]. rewrite Hpre. by right.
    + rewrite H3. apply decide_ext. rewrite Hpre. naive_solver.
Qed.

Lemma safe_secondPass news ret0 (w : MgrWorld) :
  NoDup news.*1 ->
  safe (foldM insertNew news ret0) w (fun ret w' =>
    w_data w' = (setInfos (infos (mgrOf w')) (mgrOf w), (w_data w).1.2, (w_data w).2) /\
    ret = ret0 ++ omap (fun kl => infos (mgrOf w) !! kl.1) news /\
    (forall id, id ∉ news.*1 -> infos (mgrOf w') !! id = infos (mgrOf w) !! id) /\
    (forall kl, kl ∈ news -> infos (mgrOf w') !! kl.1 = Some kl.2)).
Proof.
  intros Hnd.
  refine (safe_foldM _ (fun pre ret w' =>
    w_data w' = (setInfos (infos (mgrOf w')) (mgrOf w), (w_data w).1.2, (w_data w).2) /\
    ret = ret0 ++ omap (fun kl => infos (mgrOf w) !! kl.1) pre /\
    (forall id, id ∉ pre.*1 -> infos (mgrOf w') !! id = infos (mgrOf w) !! id) /\
    (forall kl, kl ∈ pre -> infos (mgrOf w') !! kl.1 = Some kl.2)) news ret0 w _ _).
  - split; [by destruct w as [[[[] ?] ?] ?]|]. split; [by rewrite app_nil_r|].
    split; [done|]. by intros kl ?%not_elem_of_nil.
  - intros pre [k l] post ret s Hk (H1 & H2 & H3 & H4).
    assert (Hfresh : k ∉ pre.*1).
    { rewrite Hk, fmap_app in Hnd. apply NoDup_app in Hnd as (_ & Hd & _).
      intros Hin. apply (Hd k Hin). by left. }
    apply safe_bind. unfold safe at 1, mgr, gets.
    apply safe_bind, safe_setMgr, safe_ret. cbn [w_data]. rewrite H1. cbn [fst snd].
    split; [done|]. cbn [w_data setInfos infos fst snd]. split; [|split].
    + rewrite omap_app, app_assoc, <- H2. simpl. rewrite <- (H3 k) by done.
      rewrite H1. cbn [fst snd setInfos infos].
      destruct (infos (w_data s).1.1 !! k); [done|by rewrite app_nil_r].
    + intros id. rewrite fmap_app, elem_of_app. simpl. rewrite list_elem_of_singleton.
      intros Hid. rewrite lookup_insert_ne by naive_solver. apply H3. naive_solver.
    + intros [k' l'] [Hin|Hin%list_elem_of_singleton]%elem_of_app; simpl.
      * rewrite lookup_insert_ne; [by apply (H4 (k', l'))|]. intros <-. apply Hfresh.
        by apply (list_elem_of_fmap_2 fst _ (k, l')).
      * injection Hin as -> ->. apply lookup_insert_eq.
Qed.

(** The list of infos after an update, and what it gives back. *)
Definition updated (keep : gset BroadcastID.t) (new : gmap BroadcastID.t nat) (m m' : Manager)
    (ret : list nat) : Prop :=
  (forall id, infos m' !! id = match new !! id with
                               | Some l => Some l
                               | None => if decide (id ∈ keep) then infos m !! id else None
                               end) /\
  NoDup ret /\
  (forall l, l ∈ ret <-> exists id, infos m !! id = Some l /\ infos m' !! id <> Some l).

(** What the passes collect, in terms of the maps. *)
Lemma collected keep new (ifs : gmap BroadcastID.t nat) kvs news :
  (forall id id' l, ifs !! id = Some l -> ifs !! id' = Some l -> id = id') ->
  kvs ≡ₚ map_to_list ifs -> news ≡ₚ map_to_list new ->
  let ret := (filter (fun kl => dropped keep new kl.1) kvs).*2 ++
             omap (fun kl => ifs !! kl.1) news in
  NoDup ret /\
  forall l, l ∈ ret <-> exists id, ifs !! id = Some l /\ (dropped keep new id \/ is_Some (new !! id)).
Proof.
  intros Hinj Hk Hn. cbv zeta.
  assert (Hkvs : forall kl, kl ∈ kvs <-> ifs !! kl.1 = Some kl.2).
  { intros [k l]. rewrite Hk. apply elem_of_map_to_list. }
  assert (Hnews : forall kl, kl ∈ news <-> new !! kl.1 = Some kl.2).
  { intros [k l]. rewrite Hn. apply elem_of_map_to_list. }
  assert (Hleft : forall l, l ∈ (filter (fun kl => dropped keep new kl.1) kvs).*2 <->
    exists id, ifs !! id = Some l /\ dropped keep new id).
  { intros l. rewrite list_elem_of_fmap. split.
    - intros ([k l'] & -> & [Hd Hin%Hkvs]%list_elem_of_filter). by exists k.
    - intros (id & Hl & Hd). exists (id, l). split; [done|]. apply list_elem_of_filter.
      split; [done|]. by apply Hkvs. }
  assert (Hright : forall l, l ∈ omap (fun kl => ifs !! kl.1) news <->
    exists id, ifs !! id = Some l /\ is_Some (new !! id)).
  { intros l. rewrite list_elem_of_omap. split.
    - intros ([k l'] & Hin%Hnews & Hl). exists k. split; [done|]. by eexists.
    - intros (id & Hl & [l' Hl']). exists (id, l'). split; [by apply Hnews|done]. }
  split.
  - apply NoDup_app. split; [|split].
    + apply NoDup_fmap_2_strong.
      * intros [k l] [k' l'] [_ H1%Hkvs]%list_elem_of_filter [_ H2%Hkvs]%list_elem_of_filter.
        simpl in *. intros <-. by rewrite (Hinj _ _ _ H1 H2).
      * apply NoDup_filter. rewrite Hk. apply NoDup_map_to_list.
    + intros l (id & Hl & _ & Hd)%Hleft (id' & Hl' & [x Hx])%Hright.
      rewrite (Hinj _ _ _ Hl Hl') in Hd. congruence.
    + apply NoDup_omap; [rewrite Hn; apply NoDup_map_to_list|].
      intros [k l] [k' l'] z H1%Hnews H2%Hnews H3 H4. simpl in *.
      rewrite (Hinj _ _ _ H3 H4) in H1. rewrite (Hinj _ _ _ H3 H4). congruence.
  - intros l. rewrite elem_of_app, Hleft, Hright. naive_solver.
Qed.

Lemma safe_updateAllocs keep new (w : MgrWorld) :
  mgrOK (mgrOf w) ->
  (forall id id' l, new !! id = Some l -> infos (mgrOf w) !! id' <> Some l) ->
  safe (updateAllocs keep new) w (fun ret w' =>
    w_data w' = (setInfos (infos (mgrOf w')) (mgrOf w), (w_data w).1.2, (w_data w).2) /\
    updated keep new (mgrOf w) (mgrOf w') ret).
Proof using HP.
  intros Hok Hfresh. set (m := mgrOf w).
  assert (Hinj : forall id id' l, infos m !! id = Some l -> infos m !! id' = Some l -> id = id').
  { intros id id' l Hi1 Hi2. destruct (mk_infos _ Hok _ _ Hi1) as (i & Hl & <-).
    destruct (mk_infos _ Hok _ _ Hi2) as (i' & Hl' & <-). congruence. }
  apply safe_bind. unfold safe at 1, mgr, gets. fold m.
  apply safe_bind, safe_interact; [by intros|]. intros kvs [= <-]. set (kvs := deliver _ _ _).
  assert (Hkvs : forall k l, (k, l) ∈ kvs <-> infos m !! k = Some l).
  { intros k l. unfold kvs. rewrite deliver_perm. apply elem_of_map_to_list. }
  assert (Hkeys : forall k, k ∈ kvs.*1 <-> is_Some (infos m !! k)).
  { intros k. rewrite list_elem_of_fmap. split.
    - intros ([k' l] & -> & Hin%Hkvs). by eexists.
    - intros [l Hl]. exists (k, l). split; [done|by apply Hkvs]. }
  apply safe_bind. eapply safe_mono; [apply (safe_firstPass keep new kvs); [done|]|].
  { intros k l Hin. by apply Hkvs. }
  cbn [w_data]. fold m. intros ret1 w1 (H1 & H2 & H3).
  apply safe_bind, safe_interact; [by intros|]. intros news [= <-]. set (news := deliver _ _ _).
  assert (Hnews : forall k l, (k, l) ∈ news <-> new !! k = Some l).
  { intros k l. unfold news. rewrite deliver_perm. apply elem_of_map_to_list. }
  assert (Hnewkeys : forall k, k ∈ news.*1 <-> is_Some (new !! k)).
  { intros k. rewrite list_elem_of_fmap. split.
    - intros ([k' l] & -> & Hin%Hnews). by eexists.
    - intros [l Hl]. exists (k, l). split; [done|by apply Hnews]. }
  eapply safe_mono; [apply (safe_secondPass news ret1)|].
  { unfold news. rewrite deliver_perm. apply NoDup_fst_map_to_list. }
  cbn [w_data]. intros ret w2 (G1 & G2 & G3 & G4). rewrite H1 in G1. cbn [fst snd] in G1.
  split; [exact G1|].
  (* the two passes in terms of the maps *)
  assert (Hm1 : forall id, is_Some (new !! id) -> infos (mgrOf w1) !! id = infos m !! id).
  { intros id [l Hl]. rewrite H3, decide_False; [done|]. intros [_ [_ Hd]]. congruence. }
  assert (Hm2 : forall id, infos (mgrOf w2) !! id = match new !! id with
    | Some l => Some l | None => if decide (id ∈ keep) then infos m !! id else None end).
  { intros id. destruct (new !! id) as [l|] eqn:Hn; [by apply (G4 (id, l)), Hnews|].
    rewrite G3 by (rewrite Hnewkeys, Hn; by intros []). rewrite H3.
    destruct (decide (id ∈ keep)) as [Hk|Hk]; [by rewrite decide_False by (intros [_ [Hnk _]]; by apply Hnk)|].
    destruct (infos m !! id) as [l|] eqn:Hl.
    - by rewrite decide_True by (split; [apply Hkeys; by eexists|by split]).
    - by destruct (decide _). }
  split; [exact Hm2|].
  assert (Hret : ret = (filter (fun kl => dropped keep new kl.1) kvs).*2 ++
                       omap (fun kl => infos m !! kl.1) news).
  { rewrite G2, H2. f_equal. apply omap_ext_elem. intros [k l] Hin%Hnews. simpl.
    apply Hm1. by eexists. }
  rewrite Hret.
  destruct (collected keep new (infos m) kvs news Hinj) as [Hnd Hin];
    [apply deliver_perm|apply deliver_perm|].
  split; [exact Hnd|]. intros l. rewrite Hin. split.
  - intros (id & Hl & Hcase). exists id. split; [done|]. rewrite Hm2.
    destruct Hcase as [[Hk Hn]|[l' Hn]]; rewrite Hn; [by rewrite decide_False|].
    intros [= ->]. by apply (Hfresh id id l).
  - intros (id & Hl & Hne). exists id. split; [done|]. rewrite Hm2 in Hne.
    destruct (new !! id) as [l'|] eqn:Hn; [right; by eexists|left].
    split; [|done]. intros Hk. by rewrite decide_True in Hne.
Qed.

(** An allocation that is kept. *)
Definition kept (m : Manager) (id : BroadcastID.t) : Prop :=
  exists l i t, infos m !! id = Some l /\ heap m !! l = Some i /\
    keepsAlloc i t (basePollWait m) = true.

Lemma safe_findCurrentAllocs (w : MgrWorld) :
  mgrOK (mgrOf w) ->
  safe findCurrentAllocs w (fun curr w' => w_data w' = w_data w /\
    forall id, id ∈ curr -> kept (mgrOf w) id).
Proof using HP.
  intros Hok. apply safe_bind. unfold safe at 1, mgr, gets.
  apply safe_bind, safe_interact; [by intros|]. intros kvs [= <-]. set (kvs := deliver _ _ _).
  assert (Hkvs : forall k l, (k, l) ∈ kvs -> infos (mgrOf w) !! k = Some l).
  { intros k l. unfold kvs. rewrite deliver_perm. apply elem_of_map_to_list. }
  refine (safe_foldM _ (fun _ curr w' => w_data w' = w_data w /\
    forall id, id ∈ curr -> kept (mgrOf w) id) kvs ∅ _ _ _).
  - split; [done|]. by intros id ?%not_elem_of_empty.
  - intros pre [k l] post curr s Hk (H1 & H2).
    assert (Hl : infos (mgrOf w) !! k = Some l).
    { apply Hkvs. rewrite Hk. apply elem_of_app. right. by left. }
    destruct (mk_infos _ Hok k l Hl) as (i & Hi & Hid).
    apply safe_bind, safe_deref. exists i. split; [by rewrite H1|]. cbn [snd]. cbv beta.
    assert (Hend : forall t s', w_data s' = w_data w ->
      safe (mret (if keepsAlloc i t (basePollWait (mgrOf w)) then {[bID i]} ∪ curr else curr)) s'
        (fun curr w' => w_data w' = w_data w /\ forall id, id ∈ curr -> kept (mgrOf w) id)).
    { intros t s' Hs'. apply safe_ret. split; [done|]. intros id.
      destruct (keepsAlloc i t _) eqn:Hkeep; [|apply H2].
      rewrite elem_of_union, elem_of_singleton. intros [->|Hin]; [|by apply H2].
      exists l, i, t. rewrite Hid. done. }
    apply safe_bind. destruct (_ && _).
    + apply safe_interact; [by intros|]. intros t _. by apply Hend.
    + apply safe_ret. by apply Hend.
Qed.

(** The infos made for new broadcasts so far. *)
Record making (w0 : MgrWorld) (bs : list BroadcastInfo.t) (curr : gset BroadcastID.t)
    (acc : gmap BroadcastID.t nat * gset BroadcastID.t) (w : MgrWorld) : Prop := {
  mg_infos : infos (mgrOf w) = infos (mgrOf w0);
  mg_heap l i : heap (mgrOf w0) !! l = Some i -> heap (mgrOf w) !! l = Some i;
  mg_next l : is_Some (heap (mgrOf w) !! l) -> l < nextInfo (mgrOf w);
  mg_grow : nextInfo (mgrOf w0) <= nextInfo (mgrOf w);
  mg_old l i : heap (mgrOf w) !! l = Some i -> heap (mgrOf w0) !! l = Some i \/
    (nextInfo (mgrOf w0) <= l /\ sent i = 0%Z /\ useCount i = 0%Z);
  mg_new id l : acc.1 !! id = Some l -> nextInfo (mgrOf w0) <= l /\
    exists i, heap (mgrOf w) !! l = Some i /\ bID i = id;
  mg_listed id : id ∈ acc.2 -> exists bi, bi ∈ bs /\
    BroadcastID.BytesToBroadcastID (Broadcast.BroadcastId (BroadcastInfo.Broadcast bi)) = Ok id;
  mg_active id : is_Some (acc.1 !! id) -> id ∈ acc.2;
}.

(** The state around the manager changes. *)
Lemma making_world w0 bs curr acc w w' :
  making w0 bs curr acc w -> mgrOf w' = mgrOf w -> making w0 bs curr acc w'.
Proof. intros [] E. split; rewrite ?E; done. Qed.

Lemma making_add w0 bs curr acc w id bi a lim e w' :
  making w0 bs curr acc w -> id ∈ acc.2 ->
  mgrOf w' = mkManager (infos (mgrOf w))
    (<[nextInfo (mgrOf w) := mkInfo id (BroadcastInfo.Broadcast bi) 0 a lim 0 e]> (heap (mgrOf w)))
    (S (nextInfo (mgrOf w))) (basePollWait (mgrOf w)) (notifyAlls (mgrOf w)) ->
  making w0 bs curr (<[id := nextInfo (mgrOf w)]> acc.1, acc.2) w'.
Proof.
  intros [H1 H2 H3 H4 H5 H6 H7 H8] Hid E. cbv beta in *.
  assert (Hfresh : heap (w_data w).1.1 !! nextInfo (w_data w).1.1 = None).
  { apply eq_None_not_Some. intros Hs%H3. lia. }
  split; cbv beta; rewrite ?E; cbn [infos heap nextInfo fst snd].
  - done.
  - intros l i Hl. rewrite lookup_insert_ne; [by apply H2|]. intros <-. apply H2 in Hl. congruence.
  - intros l. rewrite lookup_insert_is_Some'. intros [<-|Hs%H3]; lia.
  - lia.
  - intros l i. rewrite lookup_insert. case_decide as Hl; [|apply H5].
    intros [= <-]. subst. right. by split.
  - intros id' l. rewrite lookup_insert. case_decide as Hl.
    + intros [= <-]. subst. split; [done|]. rewrite lookup_insert_eq. by eexists.
    + intros Hn. destruct (H6 _ _ Hn) as (Hge & i & Hi & Hbid). split; [done|].
      exists i. split; [|done]. rewrite lookup_insert_ne; [done|]. intros <-. congruence.
  - done.
  - intros id'. rewrite lookup_insert_is_Some'. intros [<-|Hs]; [done|by apply H8].
Qed.

Lemma safe_newAlloc `{BOK : !BroadcastStoreOK St} w0 bs curr bi acc (w : MgrWorld) :
  bi ∈ bs -> making w0 bs curr acc w ->
  safe (newAlloc curr bi acc) w (making w0 bs curr).
Proof using.
  intros Hbi Hmk. unfold newAlloc.
  destruct (BroadcastID.BytesToBroadcastID _) as [id| |] eqn:Hid; [|by apply safe_ret|by apply safe_ret].
  set (acc' := (acc.1, {[id]} ∪ acc.2)).
  assert (Hin : id ∈ acc'.2) by (apply elem_of_union; left; by apply elem_of_singleton).
  assert (Hmk' : making w0 bs curr acc' w).
  { destruct Hmk as [H1 H2 H3 H4 H5 H6 H7 H8]. split; try done; simpl.
    - intros id'. rewrite elem_of_union, elem_of_singleton. intros [->|Hin']; [by exists bi|by apply H7].
    - intros id' Hs. apply elem_of_union. right. by apply H8. }
  cbv zeta. destruct (decide (id ∈ curr)); [by apply safe_ret|].
  destruct (_ =? _)%Z; [by apply safe_ret|].
  destruct (_ =? _)%Z.
  { unfold safe. cbv beta iota. eapply (making_add _ _ _ acc' w id bi); [exact Hmk'|exact Hin|reflexivity]. }
  apply safe_bind, safe_interact; [by intros|]. intros t _.
  apply safe_bind. unfold safe at 1, try, onStore, onPart. cbn [w_data w_step].
  pose proof (bs_create_returns (St := St) id allocFrac (t + allocDuration)%Z) as Hc.
  destruct (bsCreateAllocation id allocFrac (t + allocDuration) _) as [[[a|]|e|why] s] eqn:Ec.
  - unfold safe. cbv beta iota.
    eapply (making_add _ _ _ acc' (mkWorld ((w_data w).1, w_data s) (w_step s)) id bi);
      [by apply (making_world _ _ _ _ w)|done|reflexivity].
  - apply safe_ret. by apply (making_world _ _ _ _ w).
  - apply safe_ret. by apply (making_world _ _ _ _ w).
  - specialize (Hc (mkWorld (w_data w).2 (S (w_step w))) why). rewrite Ec in Hc. by apply Hc.
Qed.

(** The store was told the final count of an allocation. *)
Definition cleanedUp (errs : list goerror) (i : bInfo) : Prop :=
  exists w r w', bsCleanupAllocation (St := St) (bID i) (aID i) (sent i) w = (r, w') /\
    (errs = [] -> r = Ok tt).

Lemma safe_cleanup `{BOK : !BroadcastStoreOK St} ls (w : MgrWorld) :
  (forall l, l ∈ ls -> exists i, heap (mgrOf w) !! l = Some i /\ useCount i = 0%Z) ->
  safe (cleanup ls) w (fun errs w' => (w_data w').1 = (w_data w).1 /\
    forall l i, l ∈ ls -> heap (mgrOf w) !! l = Some i -> cleanedUp errs i).
Proof using.
  intros Hls.
  refine (safe_foldM _ (fun pre errs w' => (w_data w').1 = (w_data w).1 /\
    forall l i, l ∈ pre -> heap (mgrOf w) !! l = Some i -> cleanedUp errs i) ls [] w _ _).
  - split; [done|]. by intros l i ?%not_elem_of_nil.
  - intros pre l post errs s Hk (H1 & H2).
    destruct (Hls l) as (i & Hi & Huse); [rewrite Hk; apply elem_of_app; right; by left|].
    apply safe_bind. unfold waitIdle. apply safe_bind, safe_deref. exists i.
    split; [by rewrite H1|]. rewrite Huse. apply safe_ret.
    apply safe_bind, safe_deref. exists i. split; [by rewrite H1|].
    apply safe_bind. unfold safe at 1, try, onStore, onPart.
    pose proof (bs_cleanup_returns (St := St) (bID i) (aID i) (sent i)) as Hc.
    destruct (bsCleanupAllocation (bID i) (aID i) (sent i) _) as [[[]|e|why] s'] eqn:Ec.
    + apply safe_ret. split; [done|]. intros l' i' [Hin|Hin%list_elem_of_singleton]%elem_of_app Hi'.
      * by apply (H2 l').
      * subst. replace i' with i by congruence. by eexists _, _, _.
    + apply safe_ret. split; [done|]. intros l' i' [Hin|Hin%list_elem_of_singleton]%elem_of_app Hi'.
      * destruct (H2 l' i' Hin Hi') as (x & r & x' & E & _). exists x, r, x'. split; [done|].
        by destruct errs.
      * subst. replace i' with i by congruence. eexists _, _, _. split; [done|]. by destruct errs.
    + specialize (Hc (mkWorld (w_data s).2 (w_step s)) why). rewrite Ec in Hc. by apply Hc.
Qed.

(** What a refresh has done to the list, once the passes are over. *)
Lemma refreshed (w w2 : MgrWorld) bs curr new act m4 ret errs :
  mgrOK (mgrOf w) -> (forall id, id ∈ curr -> kept (mgrOf w) id) ->
  making w bs curr (new, act) w2 ->
  mgrOK (mgrOf w2) -> idle (mgrOf w2) ->
  updated (filter (fun id => id ∈ act) curr) new (mgrOf w2) m4 ret ->
  heap m4 = heap (mgrOf w2) -> nextInfo m4 = nextInfo (mgrOf w2) ->
  (forall l i, l ∈ ret -> heap m4 !! l = Some i -> cleanedUp errs i) ->
  mgrOK m4 /\ idle m4 /\
  (forall id l, infos m4 !! id = Some l ->
     (exists bi, bi ∈ bs /\
        BroadcastID.BytesToBroadcastID (Broadcast.BroadcastId (BroadcastInfo.Broadcast bi)) = Ok id) /\
     (infos (mgrOf w) !! id = Some l /\ kept (mgrOf w) id \/
      nextInfo (mgrOf w) <= l /\ exists i, heap m4 !! l = Some i /\ sent i = 0%Z)) /\
  (forall id l i, infos (mgrOf w) !! id = Some l -> heap (mgrOf w) !! l = Some i ->
     infos m4 !! id = Some l \/ cleanedUp errs i).
Proof using.
  intros Hok Hcurr Hmk Hok2 Hidle2 (Hinf & _ & Hret) Hh Hn Hclean. cbv beta in *.
  assert (Hcases : forall id l, infos m4 !! id = Some l -> new !! id = Some l \/
    (id ∈ act /\ kept (w_data w).1.1 id /\ infos (w_data w).1.1 !! id = Some l)).
  { intros id l. rewrite Hinf. destruct (new !! id) as [l'|]; [intros [= ->]; by left|].
    destruct (decide _) as [Hin|]; [|done]. apply elem_of_filter in Hin as [Ha Hc].
    rewrite (mg_infos _ _ _ _ _ Hmk). intros Hl. right. split; [done|]. split; [by apply Hcurr|done]. }
  split; [split|split; [|split]].
  - intros id l [Hl|(_ & _ & Hl)]%Hcases; rewrite Hh.
    + by apply (mg_new _ _ _ _ _ Hmk).
    + destruct (mk_infos _ Hok _ _ Hl) as (i & Hi & Hb). exists i.
      split; [by apply (mg_heap _ _ _ _ _ Hmk)|done].
  - rewrite Hh, Hn. apply (mk_next _ Hok2).
  - rewrite Hh. apply (mk_sent _ Hok2).
  - intros l i. rewrite Hh. apply Hidle2.
  - intros id l [Hl|(Ha & Hk & Hl)]%Hcases.
    + split; [apply (mg_listed _ _ _ _ _ Hmk), (mg_active _ _ _ _ _ Hmk); by eexists|].
      right. destruct (mg_new _ _ _ _ _ Hmk _ _ Hl) as (Hge & i & Hi & _). split; [done|].
      exists i. rewrite Hh. split; [done|]. destruct (mg_old _ _ _ _ _ Hmk _ _ Hi) as [Hold|(_ & ? & _)]; [|done].
      pose proof (mk_next _ Hok l (mk_is_Some _ _ Hold)). lia.
    + split; [by apply (mg_listed _ _ _ _ _ Hmk)|by left].
  - intros id l i Hl Hi. destruct (decide (infos m4 !! id = Some l)) as [|Hne]; [by left|right].
    apply (Hclean l).
    + apply Hret. exists id. by rewrite (mg_infos _ _ _ _ _ Hmk).
    + rewrite Hh. by apply (mg_heap _ _ _ _ _ Hmk).
Qed.

Lemma making_ok w bs curr acc w2 :
  mgrOK (mgrOf w) -> idle (mgrOf w) -> making w bs curr acc w2 ->
  mgrOK (mgrOf w2) /\ idle (mgrOf w2).
Proof.
  intros Hok Hidle [H1 H2 H3 H4 H5 H6 H7 H8]. split; [split; cbv beta|].
  - intros id l. rewrite H1. intros Hl. destruct (mk_infos _ Hok _ _ Hl) as (i & Hi & Hb).
    exists i. split; [by apply H2|done].
  - done.
  - intros l i [Hl|(_ & -> & _)]%H5; [by apply (mk_sent _ Hok l)|by split].
  - intros l i [Hl|(_ & _ & ->)]%H5; [by apply (Hidle l)|done].
Qed.

(** Telling the connections of new allocations leaves the list alone. *)
Lemma announced (new : gmap BroadcastID.t nat) (w2 w3 : MgrWorld) :
  mgrOf w3 = setInfos (infos (mgrOf w3)) (mgrOf w2) ->
  exists m4,
    safe (if decide (new = ∅) then mret tt
      else onCache Clear ≫= fun _ => setMgr (fun m => mkManager (infos m) (heap m) (nextInfo m)
        (basePollWait m) (S (notifyAlls m)))) w3 (fun _ w4 => mgrOf w4 = m4) /\
    infos m4 = infos (mgrOf w3) /\ heap m4 = heap (mgrOf w2) /\ nextInfo m4 = nextInfo (mgrOf w2).
Proof.
  intros Hw3. destruct (decide (new = ∅)).
  - exists (mgrOf w3). split; [by apply safe_ret|]. cbv beta. by rewrite Hw3.
  - eexists. split.
    + apply safe_bind. unfold safe at 1, onCache, onPart, Clear, setMap. cbn [w_data w_step].
      apply safe_setMgr. reflexivity.
    + cbv beta in Hw3. cbn. by rewrite Hw3.
Qed.

(** A refresh that runs while no client is being served returns, and
    leaves a consistent list: every broadcast on it is active, and its
    allocation is either one that was there and is worth keeping or a new one
    with nothing sent; every allocation that was there and is no longer used
    is handed back to the store once, with its final count. *)
Theorem refresh_all_spec `{BOK : !BroadcastStoreOK St} (w : MgrWorld) :
  mgrOK (mgrOf w) -> idle (mgrOf w) ->
  safe refreshAll w (fun errs w' => mgrOK (mgrOf w') /\ idle (mgrOf w') /\
    exists bs w1 w2, bsListActiveBroadcasts (St := St) w1 = (Ok bs, w2) /\
    (forall id l, infos (mgrOf w') !! id = Some l ->
       (exists bi, bi ∈ bs /\
          BroadcastID.BytesToBroadcastID (Broadcast.BroadcastId (BroadcastInfo.Broadcast bi)) = Ok id) /\
       (infos (mgrOf w) !! id = Some l /\ kept (mgrOf w) id \/
        nextInfo (mgrOf w) <= l /\ exists i, heap (mgrOf w') !! l = Some i /\ sent i = 0%Z)) /\
    (forall id l i, infos (mgrOf w) !! id = Some l -> heap (mgrOf w) !! l = Some i ->
       infos (mgrOf w') !! id = Some l \/ cleanedUp errs i)).
Proof using HP.
  intros Hok Hidle. apply safe_bind.
  eapply safe_mono; [by apply safe_findCurrentAllocs|]. intros curr w1 (Hw1 & Hcurr).
  apply safe_bind. unfold safe at 1, try, onStore, onPart. rewrite Hw1.
  pose proof (bs_list_returns (St := St)) as Hc.
  destruct (bsListActiveBroadcasts _) as [[bs|e|why] s] eqn:El;
    [|exact I|specialize (Hc (mkWorld (w_data w).2 (w_step w1)) why); rewrite El in Hc; by apply Hc].
  apply safe_bind. eapply safe_mono.
  { refine (safe_foldM _ (fun _ acc w' => making w bs curr acc w') bs (∅, ∅) _ _ _).
    - destruct Hok as [K1 K2 K3]. split; cbn [fst snd w_data]; try done.
      + by left.
      + intros id. rewrite lookup_empty. by intros [].
    - intros pre bi post acc s' Hbs Hmk. apply safe_newAlloc; [|done].
      rewrite Hbs. apply elem_of_app. right. by left. }
  cbv beta. intros [new act] w2 Hmk. cbn [fst snd].
  destruct (making_ok _ _ _ _ _ Hok Hidle Hmk) as [Hok2 Hidle2].
  apply safe_bind. eapply safe_mono; [apply safe_updateAllocs; [done|]|].
  { intros id id' l [Hge _]%(mg_new _ _ _ _ _ Hmk). rewrite (mg_infos _ _ _ _ _ Hmk).
    intros Hl. destruct (mk_infos _ Hok _ _ Hl) as (i & Hi & _).
    pose proof (mk_next _ Hok l (mk_is_Some _ _ Hi)). lia. }
  intros ret w3 (Hw3 & Hinf & Hnd & Hret).
  apply safe_bind. destruct (announced new w2 w3 (f_equal (fun d => d.1.1) Hw3)) as (m4 & Hmid & Hi4 & Hh4 & Hn4).
  eapply safe_mono; [exact Hmid|]. cbv beta. intros [] w4 Hw4.
  eapply safe_mono; [apply safe_cleanup|].
  { intros l (id & Hl & _)%Hret. destruct (mk_infos _ Hok2 _ _ Hl) as (i & Hi & _).
    exists i. rewrite Hw4, Hh4. split; [done|]. by apply (Hidle2 l). }
  cbv beta. intros errs w5 (Hw5 & Hclean). rewrite Hw5, Hw4.
  edestruct (refreshed w w2 bs curr new act m4 ret errs Hok Hcurr Hmk Hok2 Hidle2)
    as (R1 & R2 & R3 & R4); [|done|done| |].
  - split; [intros id; rewrite Hi4; apply Hinf|]. split; [done|]. intros l. rewrite Hi4. apply Hret.
  - cbv beta in Hw4. rewrite <- Hw4. exact Hclean.
  - split; [done|]. split; [done|]. exists bs. by eexists _, _.
Qed.
End Refreshing.

(** ** Witnesses *)

(** A manager over [sampleBroadcasts], with the allocation made there. *)
Definition sampleManager : Manager :=
  mkManager {[exampleBroadcastID := 0]}
    {[0 := mkInfo exampleBroadcastID sampleBroadcast 0 sampleAllocationID 2 0 (2000000000 * Second)]}
    1 Minute 0.

Definition sampleMgrWorld : World (Manager * Clients * Db) :=
  mkWorld (sampleManager, NewClients, w_data sampleBroadcasts) (w_step sampleBroadcasts).

Lemma sampleManager_ok : mgrOK sampleManager /\ idle sampleManager.
Proof.
  assert (H0 : forall l i, heap sampleManager !! l = Some i -> l = 0 /\ isU64 (sent i) /\ useCount i = 0%Z).
  { unfold sampleManager. simpl. intros l i. rewrite lookup_singleton_Some. intros [<- <-]. by repeat split. }
  split; [split|].
  - unfold sampleManager. simpl. intros id l. rewrite lookup_singleton_Some. intros [<- <-].
    eexists. by rewrite lookup_singleton_eq.
  - intros l [i [-> _]%H0]. simpl. lia.
  - by intros l i (_ & ? & _)%H0.
  - by intros l i (_ & _ & ?)%H0.
Qed.

Definition sampleMake :=
  MakeBroadcastMessagesForClient exampleClientID [Label.Mk "svc" "linux"] sampleMgrWorld.

Lemma make_broadcast_messages_spec_witness :
  exists msg, fst sampleMake = Ok [msg] /\
    notifyAlls (w_data (snd sampleMake)).1.1 = 0.
Proof.
  assert (E : exists msg, fst sampleMake = Ok [msg]) by (vm_compute; eexists; reflexivity).
  destruct E as [msg E]. exists msg. split; [exact E|].
  assert (E' : sampleMake = (Ok [msg], snd sampleMake)) by (rewrite <- E; apply surjective_pairing).
  destruct (make_broadcast_messages_spec exampleClientID [Label.Mk "svc" "linux"] sampleMgrWorld
    [msg] (snd sampleMake) TestPlatformOK (proj1 sampleManager_ok) E') as [H _].
  exact (proj2 (proj2 (proj2 H))).
Defined.

(** A platform whose clock stands still. *)
#[local] Instance FrozenPlatform : Platform := {|
  clock _ := (1700000000 * Second)%Z;
  randRead := randRead (Platform := TestPlatform);
  serverRetryDelay _ _ := Minute;
  sha256 := sha256 (Platform := TestPlatform);
  deliver _ _ l := l;
  tieBreak _ _ l := l;
  sqlFault _ := None;
|}.

Lemma FrozenPlatformOK : PlatformOK FrozenPlatform.
Proof.
  split; simpl; try done.
  intros n k s [= <-]. apply bytesOfNat_length.
Qed.

Lemma clockInRange_frozen : clockInRange.
Proof. intros n. simpl. unfold Second. lia. Qed.

Definition frozenStoreOK : BroadcastStoreOK Db :=
  sqliteBroadcastStoreOK clockInRange_frozen.

Lemma refresh_all_spec_witness :
  fst (refreshAll sampleMgrWorld) = Ok [] /\
  mgrOK (w_data (snd (refreshAll sampleMgrWorld))).1.1.
Proof.
  assert (E : fst (refreshAll sampleMgrWorld) = Ok []) by (vm_compute; reflexivity).
  split; [exact E|].
  pose proof (refresh_all_spec (HP := FrozenPlatformOK) (BOK := frozenStoreOK)
    sampleMgrWorld (proj1 sampleManager_ok) (proj2 sampleManager_ok)) as H.
  unfold safe in H.
  destruct (refreshAll sampleMgrWorld) as [[errs|e|c] w'];
    [exact (proj1 H)|discriminate E|destruct H].
Defined.
