(* ===== verification/BroadcastCounters.v ===== *)
(** * The counters of a broadcast's allocation, shared by goroutines

    [useCount] and [sent] of a [bInfo] (src/server/internal/broadcasts/
    broadcasts.go) are touched by every goroutine that serves a client, with
    atomic instructions and no lock.  [castStep] is their interleaving at the
    grain of those instructions, for one [bInfo]: each goroutine that uses it
    has a program point, and the manager's refresh retires the info and reports
    its final count.  The read lock of [m.l] is held up to the reservation, so
    the refresh, which takes the write lock, retires only when nobody is there.
    Manager.Close is not among the steps: it waits and reports in the same way,
    but takes no lock and leaves the infos where they are, so its counts are
    exact only if no client is served any more, which its caller sees to. *)
From S2P Require Import Prelude Platform Ids Proto Db Broadcasts.

(** ** Program points of [MakeBroadcastMessagesForClient] for one info *)
Inductive pc :=
| PUsed                (* useCount added, before the atomic load *)
| PCas (c : Z)         (* the value loaded, before CompareAndSwap *)
| PFull                (* limitedAtomicIncrement returned false *)
| PReserved            (* counted in sent, not yet saved *)
| PSaved               (* the store took the message *)
| PFailed              (* it did not, or there was no message id *)
| PRefunded.           (* the failed one is taken back *)

#[export] Instance pc_eq_dec : EqDecision pc.
Proof. solve_decision. Defined.

(** The info on the list, dropped from it, waited for, and reported. *)
Inductive phase := Live | Dropped | Waited | Cleaned (finalSent : Z).

Record cast := mkCast {
  cPhase : phase;
  cUse : Z;
  cSent : Z;
  cThreads : list pc;
  (** Messages the store has accepted under this allocation. *)
  cSaved : Z;
}.

Definition castInit : cast := mkCast Live 0 0 [] 0.

(** Whether the goroutine holds [m.l] for reading. *)
Definition inLock (p : pc) : bool :=
  match p with PUsed | PCas _ | PFull => true | _ => false end.

(** What the goroutine has added to [sent] without a saved message. *)
Definition held (p : pc) : Z :=
  match p with PReserved | PFailed => 1 | _ => 0 end.

Section Counters.
Context (lim : Z).

(** A goroutine moves from one point to the next: (sent, saved). *)
Inductive pcStep : pc -> Z * Z -> pc -> Z * Z -> Prop :=
| pc_unlimited s v : lim = BroadcastUnlimited ->
    pcStep PUsed (s, v) PReserved (wrapU64 (s + 1), v)
| pc_load s v : lim <> BroadcastUnlimited ->
    pcStep PUsed (s, v) (if (lim <=? s)%Z then PFull else PCas s) (s, v)
| pc_cas s v : pcStep (PCas s) (s, v) PReserved (wrapU64 (s + 1), v)
| pc_retry c s v : c <> s -> pcStep (PCas c) (s, v) PUsed (s, v)
| pc_save s v : pcStep PReserved (s, v) PSaved (s, (v + 1)%Z)
| pc_fail s v : pcStep PReserved (s, v) PFailed (s, v)
| pc_refund s v : pcStep PFailed (s, v) PRefunded (wrapU64 (s + (2 ^ 64 - 1)), v).

(** [useCount.Done()] comes next. *)
Definition leaving (p : pc) : bool :=
  match p with PFull | PSaved | PRefunded => true | _ => false end.

Inductive castStep : cast -> cast -> Prop :=
| cast_enter n s ths v :
    castStep (mkCast Live n s ths v) (mkCast Live (n + 1) s (PUsed :: ths) v)
| cast_pc ph n s v l p r s' v' p' :
    pcStep p (s, v) p' (s', v') ->
    castStep (mkCast ph n s (l ++ p :: r) v) (mkCast ph n s' (l ++ p' :: r) v')
| cast_done ph n s v l p r :
    leaving p = true ->
    castStep (mkCast ph n s (l ++ p :: r) v) (mkCast ph (n - 1) s (l ++ r) v)
| cast_drop n s ths v :
    Forall (fun p => inLock p = false) ths ->
    castStep (mkCast Live n s ths v) (mkCast Dropped n s ths v)
| cast_wait s ths v :
    castStep (mkCast Dropped 0 s ths v) (mkCast Waited 0 s ths v)
| cast_report n s ths v :
    castStep (mkCast Waited n s ths v) (mkCast (Cleaned s) n s ths v).

(** ** The invariant *)
Definition heldBy (ths : list pc) : Z := sumZ (held <$> ths).

Record castOK (c : cast) : Prop := {
  ck_use : cUse c = Z.of_nat (length (cThreads c));
  ck_sent : cSent c = wrapU64 (cSaved c + heldBy (cThreads c));
  ck_saved : (0 <= cSaved c)%Z;
  ck_limit : lim <> BroadcastUnlimited -> (cSaved c + heldBy (cThreads c) <= lim)%Z;
  ck_pcas p : PCas p ∈ cThreads c -> (p < lim)%Z;
  ck_lock : cPhase c <> Live -> Forall (fun p => inLock p = false) (cThreads c);
  ck_quiet : match cPhase c with Waited | Cleaned _ => cThreads c = [] | _ => True end;
  ck_final n : cPhase c = Cleaned n -> n = cSent c;
}.

Lemma heldBy_app l r : heldBy (l ++ r) = (heldBy l + heldBy r)%Z.
Proof. unfold heldBy. by rewrite fmap_app, sumZ_app. Qed.

Lemma heldBy_cons p r : heldBy (p :: r) = (held p + heldBy r)%Z.
Proof. done. Qed.

Lemma heldBy_nonneg l : (0 <= heldBy l)%Z.
Proof. apply sumZ_nonneg, Forall_fmap, Forall_forall. by intros []. Qed.

Lemma castInit_ok : (0 <= lim)%Z -> castOK castInit.
Proof.
  intros H. split; simpl; try done.
  - by intros p ?%not_elem_of_nil.
Qed.

(** Adding to a count and to what it should be. *)
Lemma wrapU64_step s x k : s = wrapU64 x -> wrapU64 (s + k) = wrapU64 (x + k).
Proof. intros ->. unfold wrapU64. by rewrite Z.add_mod_idemp_l by done. Qed.

(** A goroutine's step keeps [sent] equal to what is saved or held. *)
Lemma pcStep_sent p s v p' s' v' h :
  pcStep p (s, v) p' (s', v') -> s = wrapU64 (v + (held p + h)) ->
  s' = wrapU64 (v' + (held p' + h)).
Proof.
  intros H. inversion H; subst; simpl; intros E.
  - rewrite (wrapU64_step _ _ 1 E). f_equal. lia.
  - by destruct (_ <=? _)%Z.
  - rewrite (wrapU64_step _ _ 1 E). f_equal. lia.
  - done.
  - rewrite E. f_equal. lia.
  - done.
  - rewrite (wrapU64_step _ _ _ E). unfold wrapU64.
    rewrite <- (Z.mod_add _ (-1)) by done. f_equal. lia.
Qed.

Lemma pcStep_room p s v p' s' v' h :
  pcStep p (s, v) p' (s', v') -> (0 <= v)%Z -> (0 <= h)%Z -> (0 <= lim <= u64_max)%Z ->
  s = wrapU64 (v + (held p + h)) -> (v + (held p + h) <= lim)%Z ->
  (forall c, p = PCas c -> (c < lim)%Z) -> lim <> BroadcastUnlimited ->
  (v' + (held p' + h) <= lim)%Z.
Proof.
  intros H Hv Hh Hl. inversion H; subst; simpl; intros E Hle Hc Hu; try lia; try done.
  - by destruct (_ <=? _)%Z.
  - specialize (Hc _ eq_refl). rewrite wrapU64_small in E; [lia|]. unfold isU64, u64_max in *. lia.
Qed.

(** Only a value below the limit is swapped for its successor. *)
Lemma pcStep_cas p q c q' : pcStep p q (PCas c) q' -> (c < lim)%Z.
Proof.
  remember (PCas c) as p' eqn:E. destruct 1; try done.
  destruct (Z.leb_spec lim s); [done|]. by injection E as ->.
Qed.

Lemma castOK_step c c' : (0 <= lim <= u64_max)%Z -> castOK c -> castStep c c' -> castOK c'.
Proof.
  intros Hlim [H1 H2 H3 H4 H5 H6 H7 H8] Hst. destruct Hst; simpl in *.
  - split; simpl; try done; [lia|].
    intros p [Hp|Hp]%elem_of_cons; [done|by apply H5].
  - assert (Hh : heldBy (l ++ p :: r) = (held p + (heldBy l + heldBy r))%Z)
      by (rewrite heldBy_app, heldBy_cons; lia).
    assert (Hh' : heldBy (l ++ p' :: r) = (held p' + (heldBy l + heldBy r))%Z)
      by (rewrite heldBy_app, heldBy_cons; lia).
    assert (Hpin : p ∈ l ++ p :: r) by (apply elem_of_app; right; by left).
    rewrite Hh in H2, H4. pose proof (heldBy_nonneg l). pose proof (heldBy_nonneg r).
    split; simpl; rewrite ?Hh'.
    + rewrite length_app in *. simpl in *. lia.
    + by eapply pcStep_sent.
    + by inversion H; subst; lia.
    + intros Hu. eapply pcStep_room; try done; [lia|by apply H4|].
      intros c ->. by apply H5.
    + intros c [Hc|[Hc|Hc]%elem_of_cons]%elem_of_app.
      * apply H5, elem_of_app. by left.
      * subst. by eapply pcStep_cas.
      * apply H5, elem_of_app. right. by right.
    + intros Hph. specialize (H6 Hph). rewrite Forall_app, Forall_cons in *.
      destruct H6 as (? & Hp & ?). split; [done|]. split; [|done].
      by inversion H; subst.
    + destruct ph; [done|done|by destruct l|by destruct l].
    + intros n' ->. by destruct l.
  - assert (Hz : held p = 0%Z) by (by destruct p).
    assert (Hh : heldBy (l ++ p :: r) = heldBy (l ++ r))
      by (rewrite !heldBy_app, heldBy_cons, Hz; lia).
    rewrite Hh in H2, H4. split; simpl; try done.
    + rewrite length_app in *. simpl in *. lia.
    + intros c [Hc|Hc]%elem_of_app; apply H5, elem_of_app; [by left|right; by right].
    + intros Hph. specialize (H6 Hph). rewrite Forall_app, Forall_cons in *. naive_solver.
    + destruct ph; [done|done|by destruct l|by destruct l].
  - by split.
  - split; simpl; try done; [by intros _; apply H6|by destruct ths].
  - split; simpl; try done; [by intros _; apply H6|by intros n' [= <-]].
Qed.

Definition castReachable (c : cast) : Prop := rtc castStep castInit c.

Lemma castOK_reachable c : (0 <= lim <= u64_max)%Z -> castReachable c -> castOK c.
Proof.
  intros Hl Hr. assert (H : castOK castInit) by (apply castInit_ok; lia).
  revert H. induction Hr as [|c1 c2 c3 Hs _ IH]; [done|].
  intros H. apply IH. by eapply castOK_step.
Qed.
End Counters.

(** C25: however the goroutines interleave, the number the store is told when
    an allocation is cleaned up is exactly the number of messages it accepted
    under it (modulo 2^64 for an unlimited broadcast), nothing is in flight by
    then and nothing can change any more; and at no time are more messages
    saved or about to be saved than the allocation allows. *)
Theorem cast_counters_exact lim c :
  (0 <= lim <= u64_max)%Z -> castReachable lim c ->
  (lim <> BroadcastUnlimited ->
     (cSent c = cSaved c + heldBy (cThreads c))%Z /\ (cSent c <= lim)%Z) /\
  (forall n, cPhase c = Cleaned n ->
     n = wrapU64 (cSaved c) /\ cThreads c = [] /\ forall c', ~ castStep lim c c').
Proof.
  intros Hl Hr. destruct (castOK_reachable lim c Hl Hr) as [H1 H2 H3 H4 H5 H6 H7 H8].
  split.
  - intros Hu. specialize (H4 Hu). pose proof (heldBy_nonneg (cThreads c)).
    rewrite wrapU64_small in H2 by (unfold isU64, u64_max in *; lia). lia.
  - intros n Hn. rewrite Hn in H7. split; [|split; [done|]].
    + rewrite (H8 n Hn), H2, H7. f_equal. unfold heldBy. simpl. lia.
    + intros c' Hst. destruct Hst; simpl in *; try done; by destruct l.
Qed.

(** ** Retirement ends *)
Definition pcWork (p : pc) : nat :=
  match p with PReserved => 3 | PFailed => 2 | PSaved | PRefunded => 1 | _ => 0 end.

Definition phaseWork (ph : phase) : nat :=
  match ph with Live => 3 | Dropped => 2 | Waited => 1 | Cleaned _ => 0 end.

Definition castWork (c : cast) : nat :=
  phaseWork (cPhase c) + sum_list_with pcWork (cThreads c).

Lemma work_split l p r :
  sum_list_with pcWork (l ++ p :: r) = sum_list_with pcWork (l ++ r) + pcWork p.
Proof. rewrite !sum_list_with_app. simpl. lia. Qed.

(** A goroutine out of the lock always has a next step. *)
Lemma pcStep_enabled lim p s v :
  inLock p = false -> leaving p = true \/ exists p' s' v', pcStep lim p (s, v) p' (s', v').
Proof.
  destruct p; try done; intros _; [right|by left|right|by left].
  - eexists _, _, _. apply pc_save.
  - eexists _, _, _. apply pc_refund.
Qed.

(** The refresh's wait for an info it has dropped ends: from then on every
    step of any goroutine brings the report nearer, and until it is made some
    step can be taken, so no execution goes on for ever or gets stuck before
    the final count is reported. *)
Theorem cast_retirement_ends lim c :
  (0 <= lim <= u64_max)%Z -> castReachable lim c -> cPhase c <> Live ->
  (forall c', castStep lim c c' -> cPhase c' <> Live /\ castWork c' < castWork c) /\
  ((exists n, cPhase c = Cleaned n) \/ exists c', castStep lim c c').
Proof.
  intros Hl Hr Hph. destruct (castOK_reachable lim c Hl Hr) as [H1 _ _ _ _ H6 H7 _].
  specialize (H6 Hph). split.
  - intros c' Hst. unfold castWork. destruct Hst; simpl in *; try done.
    + split; [done|]. rewrite !work_split. rewrite Forall_app, Forall_cons in H6.
      destruct H6 as (_ & Hp & _). by inversion H; subst; simpl in *; try lia; discriminate.
    + split; [done|]. rewrite work_split. rewrite Forall_app, Forall_cons in H6.
      destruct H6 as (_ & Hp & _). destruct p; simpl in *; try done; lia.
    + split; [done|]. lia.
    + split; [done|]. lia.
  - destruct c as [ph n s ths v]. simpl in *. destruct ph as [| | |k]; [done| | |left; by exists k].
    + right. destruct ths as [|p ths]; [simpl in H1; subst; eexists; apply cast_wait|].
      rewrite Forall_cons in H6. destruct H6 as [Hp _].
      destruct (pcStep_enabled lim p s v Hp) as [Hlv|(p' & s' & v' & Hs)].
      * eexists. by apply (cast_done lim Dropped n s v [] p ths).
      * eexists. by apply (cast_pc lim Dropped n s v [] p ths s' v' p').
    + right. eexists. apply cast_report.
Qed.

(** ** Whole calls are executions *)

(** Run alone, [limitedAtomicIncrement] is a run of its steps. *)
Lemma limitedAtomicIncrement_steps {St} lim l (w w' : World (Manager * Cache.Clients * St)) b i ph n v ts :
  lim <> BroadcastUnlimited ->
  limitedAtomicIncrement l lim w = (Ok b, w') -> heap (w_data w).1.1 !! l = Some i ->
  exists i', heap (w_data w').1.1 !! l = Some i' /\
    rtc (castStep lim) (mkCast ph n (sent i) (PUsed :: ts) v)
      (mkCast ph n (sent i') ((if b then PReserved else PFull) :: ts) v).
Proof.
  intros Hu E Hi. unfold limitedAtomicIncrement in E.
  apply bind_Ok in E as (i0 & w1 & E1 & E). apply deref_Ok in E1 as [Hi0 ->].
  replace i0 with i in E by congruence.
  pose proof (cast_pc lim ph n (sent i) v [] _ ts _ _ _ (pc_load lim (sent i) v Hu)) as Hload.
  destruct (lim <=? sent i)%Z.
  - apply ret_Ok in E as [<- <-]. exists i. split; [done|]. by apply rtc_once.
  - apply bind_Ok in E as ([] & w1 & E1 & E). apply ret_Ok in E as [<- <-].
    injection E1 as <-. exists (setSent (wrapU64 (sent i + 1)) i). split.
    + simpl. by rewrite lookup_alter_eq, Hi.
    + eapply rtc_l; [exact Hload|]. apply rtc_once.
      apply (cast_pc lim ph n (sent i) v [] _ ts). apply pc_cas.
Qed.

(** ** Witnesses *)

(** One goroutine fails to save, another succeeds, and the info is retired. *)
Definition sampleCast : cast := mkCast (Cleaned 1) 0 1 [] 1.

Lemma sampleCast_reachable : castReachable 5 sampleCast.
Proof.
  unfold castReachable, castInit.
  eapply rtc_l; [apply cast_enter|]. eapply rtc_l; [apply cast_enter|].
  eapply rtc_l; [by apply (cast_pc 5 _ _ _ _ [] _ _), pc_load|].
  eapply rtc_l; [by apply (cast_pc 5 _ _ _ _ [_] _ _), pc_load|].
  simpl. eapply rtc_l; [apply (cast_pc 5 _ _ _ _ [] _ _), pc_cas|].
  eapply rtc_l; [by apply (cast_pc 5 _ _ _ _ [_] _ _), pc_retry|].
  eapply rtc_l; [by apply (cast_pc 5 _ _ _ _ [_] _ _), pc_load|].
  simpl. eapply rtc_l; [apply (cast_pc 5 _ _ _ _ [_] _ _), pc_cas|].
  eapply rtc_l; [apply cast_drop; by repeat constructor|].
  eapply rtc_l; [apply (cast_pc 5 _ _ _ _ [] _ _), pc_fail|].
  eapply rtc_l; [apply (cast_pc 5 _ _ _ _ [] _ _), pc_refund|].
  eapply rtc_l; [apply (cast_pc 5 _ _ _ _ [_] _ _), pc_save|].
  eapply rtc_l; [by apply (cast_done 5 _ _ _ _ [] _ _)|].
  eapply rtc_l; [by apply (cast_done 5 _ _ _ _ [] _ _)|].
  eapply rtc_l; [apply cast_wait|].
  eapply rtc_l; [apply cast_report|]. apply rtc_refl.
Qed.

Lemma cast_counters_exact_witness : castReachable 5 sampleCast /\ 1%Z = wrapU64 (cSaved sampleCast).
Proof.
  split; [exact sampleCast_reachable|].
  refine (proj1 (proj2 (cast_counters_exact 5 sampleCast _ sampleCast_reachable) 1%Z eq_refl)).
  by split.
Defined.

Lemma cast_retirement_ends_witness :
  (exists n, cPhase sampleCast = Cleaned n) \/ exists c', castStep 5 sampleCast c'.
Proof.
  refine (proj2 (cast_retirement_ends 5 sampleCast _ sampleCast_reachable _)); [by split|done].
Defined.
