(* ===== verification/Server.v ===== *)
(** * The server's shared state and the store it is written against

    [Store] is db.Store of src/server/db/store.go as far as the server core
    uses it; [sqliteStore] is the sqlite datastore.  [Srv] is what one server
    process keeps: the broadcast manager and its allocations, the client cache,
    the notification dispatcher, the running services and the statistics
    collector, which is a log of the calls it got. *)
From S2P Require Import Prelude Platform Ids Proto Db Sqlite SqliteMessages SqliteClients SqliteBroadcasts SqliteFiles.
From S2P Require Import Cache Notifications Broadcasts.

(** ** The store *)
Class Store (St : Type) := {
  st_reader :: ClientReader St;
  st_broadcasts :: BroadcastStore St;
  stStoreMessages : list Message.t -> ContactID -> M (World St) unit;
  stClientMessagesForProcessing : ClientID.t -> Z -> option (gmap string Z) ->
    M (World St) (list Message.t);
  stGetMessages : list MessageID.t -> bool -> M (World St) (list Message.t);
  stSetMessageResult : ClientID.t -> MessageID.t -> MessageResult.t -> M (World St) unit;
  stAddClient : ClientID.t -> ClientData.t -> M (World St) unit;
  stAddClientLabel : ClientID.t -> Label.t -> M (World St) unit;
  stRemoveClientLabel : ClientID.t -> Label.t -> M (World St) unit;
  stRecordClientContact : DbContactData.t -> M (World St) ContactID;
  stLinkMessagesToContact : ContactID -> list MessageID.t -> M (World St) unit;
  stRecordResourceUsageData : ClientID.t -> ResourceUsageData.t -> M (World St) unit;
  stReadFile : string -> string -> M (World St) (string * Z);
  stIsNotFound : goerror -> bool;
}.

#[export] Instance sqliteStore `{P : Platform} `{L : ProtoLib} `{F : FloatConv} : Store Db := {|
  stStoreMessages := StoreMessages;
  stClientMessagesForProcessing := ClientMessagesForProcessing;
  stGetMessages := GetMessages;
  stSetMessageResult := SetMessageResult;
  stAddClient := AddClient;
  stAddClientLabel := AddClientLabel;
  stRemoveClientLabel := RemoveClientLabel;
  stRecordClientContact := RecordClientContact;
  stLinkMessagesToContact := LinkMessagesToContact;
  stRecordResourceUsageData := RecordResourceUsageData;
  stReadFile := ReadFile;
  stIsNotFound := IsNotFound;
|}.

(** ** Statistics

    The calls of stats.Collector, with what identifies the message; [permanent],
    [isFirstTry] and [backlogged] are the booleans passed. *)
Inductive statEvent :=
| MessageIngested (backlogged : bool) (id : gobytes)
| MessageSaved (forClient : bool) (id : gobytes)
| MessageProcessed (id : gobytes) (isFirstTry : bool)
| MessageErrored (permanent : bool) (id : gobytes) (isFirstTry : bool)
| MessageDropped (id : gobytes) (isFirstTry : bool)
| ResourceUsageDataReceived (id : ClientID.t)
| KillNotificationReceived (id : ClientID.t).

#[export] Instance statEvent_eq_dec : EqDecision statEvent.
Proof. solve_decision. Defined.

(** ** State *)

(** A running service: its load and the most it accepts, and whether it
    implements service.BatchedService. *)
Record liveService := mkLive {
  parallelism : Z;
  maxParallelism : Z;
  isBatched : bool;
}.

Record Srv (St : Type) := mkSrv {
  sManager : Manager;
  sCache : Clients;
  sStore : St;
  sDispatcher : Dispatcher;
  sServices : gmap string liveService;
  sEvents : list statEvent;
}.
Arguments mkSrv {_} _ _ _ _ _ _.
Arguments sManager {_} _.
Arguments sCache {_} _.
Arguments sStore {_} _.
Arguments sDispatcher {_} _.
Arguments sServices {_} _.
Arguments sEvents {_} _.

Section Parts.
Context {St : Type}.

Abbreviation Server A := (M (World (Srv St)) A).

Definition withStore (v : St) (d : Srv St) : Srv St :=
  mkSrv (sManager d) (sCache d) v (sDispatcher d) (sServices d) (sEvents d).
Definition withCache (v : Clients) (d : Srv St) : Srv St :=
  mkSrv (sManager d) v (sStore d) (sDispatcher d) (sServices d) (sEvents d).
Definition withDispatcher (v : Dispatcher) (d : Srv St) : Srv St :=
  mkSrv (sManager d) (sCache d) (sStore d) v (sServices d) (sEvents d).
Definition withServices (v : gmap string liveService) (d : Srv St) : Srv St :=
  mkSrv (sManager d) (sCache d) (sStore d) (sDispatcher d) v (sEvents d).
Definition withEvents (v : list statEvent) (d : Srv St) : Srv St :=
  mkSrv (sManager d) (sCache d) (sStore d) (sDispatcher d) (sServices d) v.

(** Running a part's operation in the server. *)
Definition onDb {A} (m : M (World St) A) : Server A := onPart sStore withStore m.
Definition onClients {A} (m : M (World Clients) A) : Server A := onPart sCache withCache m.
Definition onDispatcher {A} (m : M (World Dispatcher) A) : Server A :=
  onPart sDispatcher withDispatcher m.
Definition onReads {A} (m : M (World (Clients * St)) A) : Server A :=
  onPart (fun d => (sCache d, sStore d)) (fun p d => withStore p.2 (withCache p.1 d)) m.
Definition onBroadcasts {A} (m : M (World (Manager * Clients * St)) A) : Server A :=
  onPart (fun d => (sManager d, sCache d, sStore d))
    (fun p d => mkSrv p.1.1 p.1.2 p.2 (sDispatcher d) (sServices d) (sEvents d)) m.

Definition setServices (f : gmap string liveService -> gmap string liveService) : Server unit :=
  fun w => (Ok tt, mkWorld (withServices (f (sServices (w_data w))) (w_data w)) (w_step w)).
Definition count (e : statEvent) : Server unit :=
  fun w => (Ok tt, mkWorld (withEvents (sEvents (w_data w) ++ [e]) (w_data w)) (w_step w)).
Definition services : Server (gmap string liveService) := gets (fun w => sServices (w_data w)).

(** *** What a part's operation does to the whole *)
Lemma onDb_Ok {A} (m : M (World St) A) w a w' :
  onDb m w = (Ok a, w') -> exists s n, m (mkWorld (sStore (w_data w)) (w_step w)) = (Ok a, mkWorld s n) /\
    w' = mkWorld (withStore s (w_data w)) n.
Proof. intros ([s n] & E & ->)%onPart_Ok. by exists s, n. Qed.

Lemma try_onDb_Ok {A} (m : M (World St) A) w r w' :
  try (onDb m) w = (Ok r, w') -> exists s n,
    m (mkWorld (sStore (w_data w)) (w_step w)) =
      (match r with inl a => Ok a | inr e => Err e end, mkWorld s n) /\
    w' = mkWorld (withStore s (w_data w)) n.
Proof.
  unfold try, onDb, onPart. destruct (m _) as [[a|e|c] [s n]]; intros [= <- <-]; by exists s, n.
Qed.

Lemma returns_onDb {A} (m : M (World St) A) : returns m -> returns (onDb m).
Proof.
  intros H w why. unfold onDb, onPart. specialize (H (mkWorld (sStore (w_data w)) (w_step w)) why).
  by destruct (m _) as [r w'].
Qed.
End Parts.
