(* ===== verification/SystemService.v ===== *)
(** * The system service

    src/server/internal/services/system_service.go: what the server does with
    the messages clients send to the service "system".  The payloads are
    protocol buffers wrapped in an Any; unpacking them is library code
    ([AnyLib]). *)
From S2P Require Import Prelude Platform Ids Proto Db Sqlite SqliteMessages SqliteClients Cache.
From S2P Require Import Notifications Broadcasts Server.

Definition clientServiceName : string := "client".

(** anypb.Any.UnmarshalTo into the five payload types. *)
Class AnyLib := {
  unmarshalMessageAckData : Any.t -> outcome (list gobytes);
  unmarshalMessageErrorData : Any.t -> outcome (gobytes * string);
  unmarshalClientInfoData : Any.t -> outcome (list Label.t);
  unmarshalResourceUsageData : Any.t -> outcome ResourceUsageData.t;
  unmarshalKillNotification : Any.t -> outcome unit;
}.

(** A runtime that understands payloads of the shapes below. *)
#[export] Instance TestAnyLib : AnyLib := {|
  unmarshalMessageAckData a := Ok [Any.Value a];
  unmarshalMessageErrorData a := Ok (Any.Value a, "error"%string);
  unmarshalClientInfoData a := Ok [Label.Mk "client" (Any.TypeUrl a)];
  unmarshalResourceUsageData a := Ok (ResourceUsageData.Mk "scope" 1 None None None false);
  unmarshalKillNotification a := Ok tt;
|}.

Section SystemService.
Context `{P : Platform} `{L : ProtoLib} `{AL : AnyLib} {St : Type} `{SS : Store St}.

Abbreviation Server A := (M (World (Srv St)) A).

Definition processed (t : Timestamp.t) : MessageResult.t := MessageResult.Mk (Some t) false "".

Definition isRekeyRequest (msg : Message.t) : bool :=
  match Message.Source msg with
  | Some src => String.eqb (Address.ServiceName src) "system"
  | None => false
  end && String.eqb (Message.MessageType msg) "RekeyRequest".

(** One turn of the loop over the acknowledged messages. *)
Definition ackOne (cid : ClientID.t) (msg : Message.t) : Server unit :=
  match Message.Result msg with
  | Some _ => mret tt
  | None =>
      match MessageID.BytesToMessageID (Message.MessageId msg) with
      | Ok mmid =>
          match Message.Destination msg with
          | None => crash "nil Destination"
          | Some dst =>
              match ClientID.BytesToClientID (Address.ClientId dst) with
              | Ok mcid =>
                  if bool_decide (cid = mcid) || isRekeyRequest msg then
                    t ← NowProto;
                    try (onDb (stSetMessageResult mcid mmid (processed t))) ≫= fun _ => mret tt
                  else mret tt
              | _ => mret tt
              end
          end
      | _ => mret tt
      end
  end.

Definition processMessageAck (cid : ClientID.t) (d : Any.t) : Server unit :=
  data ← orFail (unmarshalMessageAckData d) (ErrText "unable to unmarshal data as MessageAckData");
  ids ← mapMs (fun b => orFail (MessageID.BytesToMessageID b)
                 (ErrText "MessageAckData contains invalid message id")) data;
  msgs ← orFailM (onDb (stGetMessages ids false))
           (ErrTemporary (ErrText "unable to retrieve messages to ack"));
  forM_ msgs (ackOne cid).

Definition processMessageError (cid : ClientID.t) (d : Any.t) : Server unit :=
  data ← orFail (unmarshalMessageErrorData d)
           (ErrText "unable to unmarshal data as MessageErrorData");
  id ← orFail (MessageID.BytesToMessageID data.1)
         (ErrText "MessageErr Data contains bad message id");
  msgs ← orFailM (onDb (stGetMessages [id] false)) (ErrTemporary (ErrText "error from GetMessage"));
  match msgs with
  | [msg] =>
      match Message.Destination msg with
      | None => crash "nil Destination"
      | Some dst =>
          mcid ← orFail (ClientID.BytesToClientID (Address.ClientId dst))
                   (ErrText "retrieved message has bad client id");
          if decide (mcid = cid) then
            t ← NowProto;
            orFailM (onDb (stSetMessageResult mcid id (MessageResult.Mk (Some t) true data.2)))
              (ErrTemporary (ErrText "unable to mark message as failed"))
          else fail (ErrText "attempt by client to ack a message meant for another client")
      end
  | _ => fail (ErrText "expected one result from GetMessages")
  end.

Definition isClientLabel (l : Label.t) : bool :=
  String.eqb (Label.ServiceName l) clientServiceName.

(** The set of the new client labels. *)
Definition newLabels (ls : list Label.t) : gset string :=
  list_to_set (Label.Label <$> filter (fun l => isClientLabel l = true) ls).

(** The labels to keep, after the others are removed. *)
Definition removeOld (cid : ClientID.t) (nl : gset string) (ls : list Label.t) : Server (gset string) :=
  foldM (fun ol l =>
    if isClientLabel l then
      if decide (Label.Label l ∈ nl) then mret ({[Label.Label l]} ∪ ol)
      else
        orFailM (onDb (stRemoveClientLabel cid l)) (ErrTemporary (ErrText "unable to remove label")) ≫= fun _ =>
        mret ol
    else mret ol) ls ∅.

Definition addNew (cid : ClientID.t) (ol : gset string) (ls : list Label.t) : Server unit :=
  forM_ ls (fun l =>
    if negb (isClientLabel l) then mret tt
    else if decide (Label.Label l ∈ ol) then mret tt
    else orFailM (onDb (stAddClientLabel cid l)) (ErrTemporary (ErrText "unable to add label"))).

Definition processClientInfo (cid : ClientID.t) (d : Any.t) : Server unit :=
  labels ← orFail (unmarshalClientInfoData d) (ErrText "unable to unmarshal data as ClientInfoData");
  cd ← orFailM (onDb (readClient cid)) (ErrTemporary (ErrText "GetClientData failed"));
  ol ← removeOld cid (newLabels labels) (ClientData.Labels cd);
  addNew cid ol labels ≫= fun _ =>
  onClients (Update cid None).

(** liveService.GetClientData. *)
Definition serviceClientData (id : ClientID.t) : Server ClientData.t :=
  r ← onReads (GetOrRead id);
  mret r.1.

Definition processResourceUsage (cid : ClientID.t) (d : Any.t) : Server unit :=
  rud ← orFail (unmarshalResourceUsageData d)
          (ErrText "unable to unmarshal data as ResourceUsageData");
  cd ← orFailM (serviceClientData cid) (ErrText "failed to get client data");
  count (ResourceUsageDataReceived cid) ≫= fun _ =>
  orFailM (onDb (stRecordResourceUsageData cid rud)) (ErrText "failed to write resource-usage data").

Definition processKillNotification (cid : ClientID.t) (d : Any.t) : Server unit :=
  orFail (unmarshalKillNotification d) (ErrText "unable to unmarshal KillNotification") ≫= fun _ =>
  cd ← orFailM (serviceClientData cid) (ErrText "failed to get client data");
  count (KillNotificationReceived cid).

(** [systemService.ProcessMessage]. *)
Definition systemProcessMessage (m : Message.t) : Server unit :=
  match Message.Source m with
  | None => fail (ErrText "source is nil")
  | Some src =>
      match ClientID.BytesToClientID (Address.ClientId src) with
      | Ok cid =>
          if ClientID.IsNil cid then fail (ErrText "invalid source client id")
          else match Message.Data m with
          | None => fail (ErrText "no Data present")
          | Some d =>
              if String.eqb (Message.MessageType m) "MessageAck" then processMessageAck cid d
              else if String.eqb (Message.MessageType m) "MessageError" then processMessageError cid d
              else if String.eqb (Message.MessageType m) "ClientInfo" then processClientInfo cid d
              else if String.eqb (Message.MessageType m) "ResourceUsage" then processResourceUsage cid d
              else if String.eqb (Message.MessageType m) "KillNotification" then
                processKillNotification cid d
              else fail (ErrText "unknown system message type")
          end
      | _ => fail (ErrText "invalid source client id")
      end
  end.
End SystemService.

(** ** Acknowledgements, over the sqlite store *)
Section Acks.
Context `{P : Platform} {HP : PlatformOK P} `{L : ProtoLib} `{F : FloatConv} `{AL : AnyLib}.

Abbreviation SrvWorld := (World (Srv Db)).
Abbreviation dbOf := (fun w : SrvWorld => sStore (w_data w)).

(** A message read back from its row. *)
Definition readFrom (d : Db) (k : string) (m : Message.t) : Prop :=
  exists r dat, messages d !! k = Some r /\
    toMessageProto (mkDbMessage (clearFailure r) 0 dat.1 dat.2) = Ok m.

Lemma getMessages_Ok ids wd (w : World Db) ms w' :
  GetMessages ids wd w = (Ok ms, w') ->
  w_data w' = w_data w /\ Forall2 (fun id m => readFrom (w_data w) (MessageID.String id) m) ids ms.
Proof.
  intros (_ & w1 & E & _ & ->)%runInTx_Ok. simpl. unfold getMessages in E.
  change (w_data w) with (w_data (mkWorld (w_data w) (S (w_step w)))).
  revert E. generalize (mkWorld (w_data w) (S (w_step w))). clear w.
  revert ms. induction ids as [|id ids IH]; intros ms w E; simpl in E.
  { apply ret_Ok in E as [<- <-]. by split; [|constructor]. }
  apply bind_Ok in E as (m & w2 & E & E2). apply bind_Ok in E2 as (ms' & w3 & E2 & E3).
  apply ret_Ok in E3 as [<- <-]. apply bind_Ok in E as (r & w4 & Er & E).
  apply queryRow_Ok in Er as (_ & Er & ->). apply fmap_Some in Er as (r0 & Hr0 & ->).
  apply bind_Ok in E as (dat & w5 & Ed & E). apply lift_Ok in E as [E ->].
  assert (Hw5 : w_data w2 = w_data w).
  { destruct wd; [|by apply ret_Ok in Ed as [_ <-]].
    apply bind_Ok in Ed as (x & w6 & Ex & Ed).
    unfold try, queryRow in Ex. simpl in Ex.
    destruct (sqlFault _); [|destruct (pending_messages _ !! _)]; injection Ex as <- <-.
    - by apply fail_Ok in Ed.
    - by apply ret_Ok in Ed as [_ <-].
    - by apply ret_Ok in Ed as [_ <-]. }
  apply IH in E2 as [H1 H2]. rewrite Hw5 in *. split; [done|].
  constructor; [|done]. by exists r0, dat.
Qed.

(** The ackable messages: the client's own, and the system's rekey requests,
    which the client answers under its new id. *)
Definition ackable (cid : ClientID.t) (r : messageRow) : Prop :=
  (exists b, fromClientIDString (destinationClientID r) = Ok b /\ ClientID.BytesToClientID b = Ok cid) \/
  (sourceServiceName r = "system"%string /\ messageType r = "RekeyRequest"%string).

Lemma fromClientIDString_read s b :
  fromClientIDString s = Ok b -> exists cid, ClientID.BytesToClientID b = Ok cid.
Proof.
  unfold fromClientIDString. destruct (String.eqb s ""); [intros [= <-]; by eexists|].
  unfold ClientID.StringToClientID. destruct (_ || _); simpl; [intros [= <-]; by eexists|].
  case_decide; [done|]. destruct (Hex.DecodeString s) as [x| |]; simpl; try done.
  destruct (ClientID.BytesToClientID (Some x)) as [cid| |] eqn:E; try done. intros [= <-].
  exists cid. apply ClientID_Bytes_read. by eapply BytesToClientID_valid.
Qed.

Lemma StringToMessageID_read s id :
  MessageID.StringToMessageID s = Ok id -> MessageID.BytesToMessageID (MessageID.Bytes id) = Ok id.
Proof.
  unfold MessageID.StringToMessageID. destruct (_ || _); simpl; [by intros [= <-]|].
  case_decide; [done|]. intros (x & _ & E)%outcome_bind_Ok.
  apply MessageID_Bytes_read. by eapply BytesToMessageID_valid.
Qed.

(** What a message read back from a row shows of it. *)
Record shows (r : messageRow) (id : MessageID.t) (m : Message.t) : Prop := {
  sh_id : MessageID.BytesToMessageID (Message.MessageId m) = Ok id;
  sh_result : Message.Result m = None <-> processedTimeSeconds r = None;
  sh_rekey : isRekeyRequest m = true <->
    sourceServiceName r = "system"%string /\ messageType r = "RekeyRequest"%string;
  sh_dest : exists a cid, Message.Destination m = Some a /\
    fromClientIDString (destinationClientID r) = Ok (Address.ClientId a) /\
    ClientID.BytesToClientID (Address.ClientId a) = Ok cid;
}.

Lemma readFrom_shows d id m :
  wf d -> MessageID.valid id -> readFrom d (MessageID.String id) m ->
  exists r, messages d !! MessageID.String id = Some r /\ shows r id m.
Proof.
  intros Hwf Hid (r & dat & Hr & E). exists r. split; [done|].
  pose proof (wf_key _ Hwf _ _ Hr) as Hk. unfold toMessageProto in E. cbn [row] in E.
  repeat match type of E with (_ ≫= _) = Ok _ =>
    let Ha := fresh "Ha" in apply outcome_bind_Ok in E as (? & Ha & E) end.
  injection E as <-. simpl in Ha. rewrite Hk, MessageID_String_read in Ha by done.
  injection Ha as <-. split; simpl.
  - by apply MessageID_Bytes_read.
  - unfold toMessageResultProto. simpl. by destruct (processedTimeSeconds r).
  - unfold isRekeyRequest. simpl. rewrite andb_true_iff, !String.eqb_eq. done.
  - destruct (fromClientIDString_read _ _ Ha2) as [cid Hc]. by eexists _, cid.
Qed.

(** The row with a success recorded. *)
Definition ackedRow (ts : Timestamp.t) (r : messageRow) : messageRow :=
  setProcessed None None (Some (Timestamp.Seconds ts)) (Some (Timestamp.Nanos ts)) r.

Definition ackDb (key : string) (ts : Timestamp.t) (d : Db) : Db :=
  setPending (delete key (pending_messages d))
    (setMessages (alter (ackedRow ts) key (messages d)) d).

Lemma SetMessageResult_run cid id ts (w : World Db) :
  faultless -> exists n, SetMessageResult cid id (processed ts) w =
    (Ok tt, mkWorld (ackDb (MessageID.String id) ts (w_data w)) n).
Proof.
  intros Hf. set (w0 := mkWorld (w_data w) (S (w_step w))).
  assert (E : trySetMessageResult id (processed ts) w0 =
    (Ok tt, mkWorld (ackDb (MessageID.String id) ts (w_data w)) (S (S (w_step w0))))).
  { unfold trySetMessageResult. simpl. erewrite bind_run by (by apply exec_run). by erewrite exec_run. }
  eexists. exact (runInTx_run _ _ _ _ Hf E).
Qed.

(** One acknowledgement: the row is marked, or nothing happens. *)
Lemma ackOne_Ok cid m id r (w : SrvWorld) w' :
  faultless -> shows r id m -> ackOne cid m w = (Ok tt, w') ->
  (processedTimeSeconds r = None /\ ackable cid r /\ exists ts,
     w_data w' = withStore (ackDb (MessageID.String id) ts (dbOf w)) (w_data w)) \/
  (~ (processedTimeSeconds r = None /\ ackable cid r) /\ w_data w' = w_data w).
Proof.
  intros Hf [Hid Hres Hrk (a & mcid & Hdst & Hfrom & Hmc)] E. unfold ackOne in E.
  destruct (Message.Result m) as [res|] eqn:Hr.
  { right. apply ret_Ok in E as [_ <-]. split; [|done]. intros [H _]. by apply Hres in H. }
  rewrite Hid, Hdst, Hmc in E. destruct (bool_decide (cid = mcid) || isRekeyRequest m) eqn:Hb.
  - left. split; [by apply Hres|]. split.
    { apply orb_prop in Hb as [->%bool_decide_eq_true|Hb%Hrk]; [left|by right]. by eexists. }
    apply bind_Ok in E as (ts & w1 & E1 & E). apply NowProto_data in E1.
    apply bind_Ok in E as (x & w2 & E2 & E). apply ret_Ok in E as [_ <-].
    apply try_onDb_Ok in E2 as (s & n & E2 & ->). exists ts. simpl.
    destruct (SetMessageResult_run mcid id ts (mkWorld (sStore (w_data w1)) (w_step w1)) Hf) as [n' E3].
    simpl in E2. rewrite E3 in E2. injection E2 as _ <- _. by rewrite E1.
  - right. apply ret_Ok in E as [_ <-]. split; [|done]. apply orb_false_elim in Hb as [Hb1 Hb2].
    apply bool_decide_eq_false in Hb1. intros [_ [(b & Hb & Hc)|Hb%Hrk]]; [|congruence].
    rewrite Hfrom in Hb. injection Hb as <-. congruence.
Qed.

(** The store after acknowledgements of the messages [keys]. *)
Record ackedBy (cid : ClientID.t) (keys : list string) (d0 d : Db) : Prop := {
  ab_frame : d = setPending (pending_messages d) (setMessages (messages d) d0);
  ab_acked k r : k ∈ keys -> messages d0 !! k = Some r -> processedTimeSeconds r = None ->
    ackable cid r ->
    (exists ts, messages d !! k = Some (ackedRow ts r)) /\ pending_messages d !! k = None;
  ab_rest k : (forall r, k ∈ keys -> messages d0 !! k = Some r ->
      ~ (processedTimeSeconds r = None /\ ackable cid r)) ->
    messages d !! k = messages d0 !! k /\ pending_messages d !! k = pending_messages d0 !! k;
}.

Lemma ackedBy_nil cid d : ackedBy cid [] d d.
Proof.
  split; [by destruct d| |done]. by intros k r ?%not_elem_of_nil.
Qed.

Lemma ackedBy_mark cid keys d0 d key r ts :
  ackedBy cid keys d0 d -> messages d0 !! key = Some r -> processedTimeSeconds r = None ->
  ackable cid r -> ackedBy cid (keys ++ [key]) d0 (ackDb key ts d).
Proof.
  intros [H1 H2 H3] Hr Hp Ha.
  assert (Hcur : exists r1, messages d !! key = Some r1 /\ ackedRow ts r1 = ackedRow ts r).
  { destruct (decide (key ∈ keys)) as [Hin|Hin].
    - destruct (H2 key r Hin Hr Hp Ha) as [[ts' E] _]. by eexists.
    - destruct (H3 key) as [E _]; [by intros r' Hin'|]. rewrite Hr in E. by eexists. }
  destruct Hcur as (r1 & Hr1 & Heq). split.
  - unfold ackDb. cbn. rewrite H1. done.
  - intros k r' Hk Hr' Hp' Ha'. unfold ackDb. cbn. destruct (decide (k = key)) as [->|Hne].
    + rewrite lookup_alter_eq, lookup_delete_eq, Hr1. simpl. split; [|done]. exists ts. congruence.
    + rewrite lookup_alter_ne, lookup_delete_ne by done. apply H2; [|done..].
      apply elem_of_app in Hk as [|Hk%list_elem_of_singleton]; [done|congruence].
  - intros k Hk. unfold ackDb. cbn. destruct (decide (k = key)) as [->|Hne].
    + destruct (Hk r); [apply elem_of_app; right; by left|done|by split].
    + rewrite lookup_alter_ne, lookup_delete_ne by done. apply H3.
      intros r' Hin. apply Hk, elem_of_app. by left.
Qed.

Lemma ackedBy_skip cid keys d0 d key r :
  ackedBy cid keys d0 d -> messages d0 !! key = Some r ->
  ~ (processedTimeSeconds r = None /\ ackable cid r) -> ackedBy cid (keys ++ [key]) d0 d.
Proof.
  intros [H1 H2 H3] Hr Hn. split; [done| |].
  - intros k r' Hk Hr' Hp Ha. apply elem_of_app in Hk as [Hk|Hk%list_elem_of_singleton]; [by apply H2|].
    subst k. destruct Hn. replace r with r' by congruence. done.
  - intros k Hk. apply H3. intros r' Hin. apply Hk, elem_of_app. by left.
Qed.

Lemma ackAll_Ok cid ids ms (w w' : SrvWorld) :
  faultless -> wf (dbOf w) -> Forall MessageID.valid ids ->
  Forall2 (fun id m => readFrom (dbOf w) (MessageID.String id) m) ids ms ->
  forM_ ms (ackOne cid) w = (Ok tt, w') ->
  exists d, w_data w' = withStore d (w_data w) /\
    ackedBy cid (MessageID.String <$> ids) (dbOf w) d.
Proof.
  intros Hf Hwf Hv H2 E.
  assert (Hgen : forall ids ms done' w1, Forall MessageID.valid ids ->
    Forall2 (fun id m => readFrom (dbOf w) (MessageID.String id) m) ids ms ->
    (exists d, w_data w1 = withStore d (w_data w) /\ ackedBy cid done' (dbOf w) d) ->
    forM_ ms (ackOne cid) w1 = (Ok tt, w') ->
    exists d, w_data w' = withStore d (w_data w) /\
      ackedBy cid (done' ++ (MessageID.String <$> ids)) (dbOf w) d).
  { clear ids ms E H2 Hv. induction ids as [|id ids IH]; intros ms done' w1 Hv H2 (d & Hd & Hack) E.
    { inversion H2; subst. apply ret_Ok in E as [_ <-]. rewrite app_nil_r. by exists d. }
    apply Forall_cons in Hv as [Hid Hv]. inversion H2 as [|? m ? ms' Hm Hms]; subst.
    simpl in E. apply bind_Ok in E as ([] & w2 & E1 & E).
    destruct (readFrom_shows _ id m Hwf Hid Hm) as (r & Hr & Hsh).
    change (?x :: ?l) with ([x] ++ l). rewrite fmap_app, app_assoc.
    apply (IH ms' _ w2); [done|done| |done].
    destruct (ackOne_Ok cid m id r w1 w2 Hf Hsh E1) as [(Hp & Ha & ts & Hw2)|[Hn Hw2]].
    - exists (ackDb (MessageID.String id) ts d). rewrite Hw2, Hd. split; [done|].
      by apply (ackedBy_mark _ _ _ _ _ r).
    - exists d. rewrite Hw2. split; [done|]. by apply (ackedBy_skip _ _ _ _ _ r). }
  apply (Hgen ids ms [] w); [done|done| |done]. exists (dbOf w).
  split; [by destruct (w_data w)|apply ackedBy_nil].
Qed.

(** C16: a MessageAck marks as successfully processed exactly those of the
    messages it names that are unprocessed and were sent to the acknowledging
    client, or are a rekey request of the system; their payloads are dropped.
    No other message, no other table and no other part of the server changes:
    a client can not acknowledge another client's messages. *)
Theorem process_message_ack_spec cid d (w w' : SrvWorld) :
  faultless -> wf (dbOf w) -> processMessageAck cid d w = (Ok tt, w') ->
  exists bs ids db, unmarshalMessageAckData d = Ok bs /\
    Forall2 (fun b id => MessageID.BytesToMessageID b = Ok id) bs ids /\
    w_data w' = withStore db (w_data w) /\
    ackedBy cid (MessageID.String <$> ids) (dbOf w) db.
Proof.
  intros Hf Hwf E. unfold processMessageAck in E.
  apply bind_Ok in E as (bs & w1 & E1 & E). apply orFail_Ok in E1 as [Hbs <-].
  apply bind_Ok in E as (ids & w1 & E1 & E).
  assert (Hids : w1 = w /\ Forall2 (fun b id => MessageID.BytesToMessageID b = Ok id) bs ids).
  { clear Hbs E. revert ids E1. induction bs as [|b bs IH]; intros ids E1; simpl in E1.
    - apply ret_Ok in E1 as [<- <-]. by split; [|constructor].
    - apply bind_Ok in E1 as (id & w2 & E2 & E1). apply orFail_Ok in E2 as [Hid <-].
      apply bind_Ok in E1 as (ids' & w2 & E2 & E1). apply ret_Ok in E1 as [<- <-].
      apply IH in E2 as [-> H]. by split; [|constructor]. }
  destruct Hids as [-> Hids]. apply bind_Ok in E as (ms & w2 & E2 & E).
  apply orFailM_Ok in E2. apply onDb_Ok in E2 as (s & n & Eg & ->).
  apply getMessages_Ok in Eg as [Hs H2]. simpl in Hs, H2. subst s.
  destruct (ackAll_Ok cid ids ms (mkWorld (withStore (sStore (w_data w)) (w_data w)) n) w') as (db & Hw' & Hack);
    [done|done| |done|done|].
  - clear -Hids. induction Hids; constructor; [|done]. by eapply BytesToMessageID_valid.
  - exists bs, ids, db. split; [done|]. split; [done|]. split; [|done]. by rewrite Hw'.
Qed.
End Acks.

(** ** Client labels, over the sqlite store *)
Section ClientLabels.
Context `{P : Platform} {HP : PlatformOK P} `{L : ProtoLib} `{F : FloatConv} `{AL : AnyLib}.

Abbreviation SrvWorld := (World (Srv Db)).
Abbreviation dbOf := (fun w : SrvWorld => sStore (w_data w)).

Definition labelRow (sid : string) (l : Label.t) : string * string * string :=
  (sid, Label.ServiceName l, Label.Label l).

Lemma isClientLabel_true l : isClientLabel l = true <-> Label.ServiceName l = clientServiceName.
Proof. apply String.eqb_eq. Qed.

Lemma elem_of_newLabels v ls :
  v ∈ newLabels ls <-> exists l, l ∈ ls /\ isClientLabel l = true /\ Label.Label l = v.
Proof.
  unfold newLabels. rewrite elem_of_list_to_set, list_elem_of_fmap. split.
  - intros (l & -> & [? ?]%list_elem_of_filter). by exists l.
  - intros (l & Hin & Hc & <-). exists l. split; [done|]. by apply list_elem_of_filter.
Qed.

(** The part of a client's labels the loops have produced. *)
Definition onlyLabels (X : gset (string * string * string)) (w w' : SrvWorld) : Prop :=
  w_data w' = withStore (setClientLabels X (dbOf w)) (w_data w).

Lemma removeOld_Ok cid nl ls (w : SrvWorld) ol w' :
  removeOld cid nl ls w = (Ok ol, w') ->
  (forall v, v ∈ ol <-> v ∈ nl /\ exists l, l ∈ ls /\ isClientLabel l = true /\ Label.Label l = v) /\
  exists X, onlyLabels X w w' /\ forall row, row ∈ X <-> row ∈ client_labels (dbOf w) /\
    ~ (exists l, l ∈ ls /\ isClientLabel l = true /\ Label.Label l ∉ nl /\
         row = labelRow (ClientID.String cid) l).
Proof.
  intros E. refine (foldM_Ok_inv _ (fun pre ol w' =>
    (forall v, v ∈ ol <-> v ∈ nl /\ exists l, l ∈ pre /\ isClientLabel l = true /\ Label.Label l = v) /\
    exists X, onlyLabels X w w' /\ forall row, row ∈ X <-> row ∈ client_labels (dbOf w) /\
      ~ (exists l, l ∈ pre /\ isClientLabel l = true /\ Label.Label l ∉ nl /\
           row = labelRow (ClientID.String cid) l)) ls ∅ w ol w' _ _ E).
  - split; [intros v; rewrite exists_nil; set_solver|].
    exists (client_labels (dbOf w)). split; [by destruct w as [[? ? [] ? ? ?] ?]|].
    intros row. rewrite exists_nil. tauto.
  - intros pre l post ol1 w1 ol2 w2 _ (Hol & X & Hw1 & HX) Es.
    destruct (isClientLabel l) eqn:Hc; [destruct (decide (Label.Label l ∈ nl)) as [Hin|Hin]|].
    + apply ret_Ok in Es as [<- <-]. split.
      * intros v. rewrite exists_snoc, elem_of_union, elem_of_singleton, Hol.
        assert (v = Label.Label l <-> Label.Label l = v) by done. split; [|tauto].
        intros [->|]; tauto.
      * exists X. split; [done|]. intros row. rewrite exists_snoc, HX. tauto.
    + apply bind_Ok in Es as ([] & w3 & Es & Er). apply ret_Ok in Er as [<- <-].
      apply orFailM_Ok in Es. apply onDb_Ok in Es as (s & n & Es & ->).
      apply exec_Ok in Es as (_ & [= <-] & _). split.
      { intros v. rewrite exists_snoc, Hol. split; [tauto|]. intros [Hv [|[_ <-]]]; tauto. }
      exists (X ∖ {[labelRow (ClientID.String cid) l]}). split.
      * unfold onlyLabels in *. simpl. rewrite Hw1. done.
      * intros row. rewrite exists_snoc, elem_of_difference, HX, elem_of_singleton. tauto.
    + apply ret_Ok in Es as [<- <-]. assert (~ (false = true)) by done.
      split; [intros v; rewrite exists_snoc, Hol, Hc; tauto|].
      exists X. split; [done|]. intros row. rewrite exists_snoc, HX, Hc. tauto.
Qed.

Lemma addNew_Ok cid ol ls (w w' : SrvWorld) :
  addNew cid ol ls w = (Ok tt, w') ->
  exists X, onlyLabels X w w' /\ forall row, row ∈ X <-> row ∈ client_labels (dbOf w) \/
    exists l, l ∈ ls /\ isClientLabel l = true /\ Label.Label l ∉ ol /\
      row = labelRow (ClientID.String cid) l.
Proof.
  intros E. refine (forM_Ok_inv _ (fun pre w' => exists X, onlyLabels X w w' /\
    forall row, row ∈ X <-> row ∈ client_labels (dbOf w) \/
      exists l, l ∈ pre /\ isClientLabel l = true /\ Label.Label l ∉ ol /\
        row = labelRow (ClientID.String cid) l) ls w w' _ _ E).
  - exists (client_labels (dbOf w)). split; [by destruct w as [[? ? [] ? ? ?] ?]|].
    intros row. rewrite exists_nil. tauto.
  - intros pre l post w1 w2 _ (X & Hw1 & HX) Es.
    destruct (isClientLabel l) eqn:Hc; simpl in Es; [destruct (decide (Label.Label l ∈ ol)) as [Hin|Hin]|].
    + apply ret_Ok in Es as [_ <-]. exists X. split; [done|]. intros row. rewrite exists_snoc, HX. tauto.
    + apply orFailM_Ok in Es. apply onDb_Ok in Es as (s & n & Es & ->).
      apply exec_Ok in Es as (_ & Es & _). simpl in Es.
      apply outcome_bind_Ok in Es as (_ & _ & Es). apply outcome_bind_Ok in Es as (_ & _ & Es).
      injection Es as <-. exists ({[labelRow (ClientID.String cid) l]} ∪ X). split.
      * unfold onlyLabels in *. simpl. rewrite Hw1. done.
      * intros row. rewrite exists_snoc, elem_of_union, HX, elem_of_singleton. tauto.
    + apply ret_Ok in Es as [_ <-]. exists X. split; [done|]. assert (~ (false = true)) by done.
      intros row. rewrite exists_snoc, HX, Hc. tauto.
Qed.

Lemma GetClientData_labels id (w : World Db) cd w' :
  GetClientData id w = (Ok cd, w') -> w_data w' = w_data w /\
  forall l, l ∈ ClientData.Labels cd <-> labelRow (ClientID.String id) l ∈ client_labels (w_data w).
Proof using HP.
  intros (_ & w1 & E & _ & ->)%runInTx_Ok. simpl.
  apply bind_Ok in E as (c & w2 & E1 & E). apply queryRow_Ok in E1 as (_ & _ & ->).
  apply bind_Ok in E as (ls & w3 & E1 & E). apply ret_Ok in E as [<- <-].
  apply query_Ok in E1 as (_ & (rows & [= <-] & ->) & ->). simpl. split; [done|].
  intros l. rewrite deliver_perm, list_elem_of_fmap. unfold labelsWith, labelRow. split.
  - intros ([[sid sv] x] & -> & Hin%elem_of_elements). apply elem_of_filter in Hin as [Hs Hin].
    simpl in *. by subst.
  - intros Hin. exists (labelRow (ClientID.String id) l). split; [by destruct l|].
    apply elem_of_elements, elem_of_filter. by split.
Qed.

(** After a ClientInfo message was processed, the labels the client gave
    itself (those of the service "client") are exactly the ones it named; its
    other labels, labels it tried to set for other services, and all other
    clients' labels are as before, nothing else in the store has changed, and
    what the cache knew of the client is forgotten. *)
Theorem process_client_info_spec cid d (w w' : SrvWorld) :
  processClientInfo cid d w = (Ok tt, w') ->
  exists ls X, unmarshalClientInfoData d = Ok ls /\
    w_data w' = withCache (delete cid (sCache (w_data w)))
                  (withStore (setClientLabels X (dbOf w)) (w_data w)) /\
    forall sid svc v, (sid, svc, v) ∈ X <->
      if decide (sid = ClientID.String cid /\ svc = clientServiceName)
      then Label.Mk clientServiceName v ∈ ls
      else (sid, svc, v) ∈ client_labels (dbOf w).
Proof using HP.
  intros E. unfold processClientInfo in E.
  apply bind_Ok in E as (ls & w1 & E1 & E). apply orFail_Ok in E1 as [Hls <-].
  apply bind_Ok in E as (cd & w1 & E1 & E). apply orFailM_Ok in E1.
  apply onDb_Ok in E1 as (s & n & E1 & ->). apply GetClientData_labels in E1 as [Hs Hcd].
  simpl in Hs, Hcd. subst s. apply bind_Ok in E as (ol & w2 & E1 & E).
  apply removeOld_Ok in E1 as (Hol & X1 & Hw2 & HX1).
  apply bind_Ok in E as ([] & w3 & E1 & E). apply addNew_Ok in E1 as (X2 & Hw3 & HX2).
  exists ls, X2. split; [done|]. unfold onlyLabels in *. split.
  - injection E as <-. simpl. rewrite Hw3, Hw2. done.
  - rewrite Hw2 in HX2. simpl in HX1, HX2. intros sid svc v.
    rewrite HX2, HX1. case_decide as Hd.
    + destruct Hd as [-> ->].
      assert (Hnl : v ∈ newLabels ls <-> Label.Mk clientServiceName v ∈ ls).
      { rewrite elem_of_newLabels. split.
        - intros ([sv x] & Hin & Hc%isClientLabel_true & <-). simpl in *. by subst.
        - intros Hin. eexists. split; [exact Hin|]. done. }
      split.
      * intros [[Hin Hno]|(l & Hin & Hc & Hnol & [= -> ->])].
        -- apply Hnl. destruct (decide (v ∈ newLabels ls)) as [|Hv]; [done|]. destruct Hno.
           exists (Label.Mk clientServiceName v). split; [by apply Hcd|]. done.
        -- apply isClientLabel_true in Hc. destruct l as [sv x]. simpl in *. by subst.
      * intros Hin. pose proof (proj2 Hnl Hin) as Hv.
        destruct (decide (v ∈ ol)) as [Ho|Ho].
        -- left. apply Hol in Ho as (_ & [sv x] & Hl & Hc%isClientLabel_true & <-). simpl in *. subst.
           split; [by apply Hcd in Hl|]. intros (l & _ & _ & Hno & [= _ Hx]). congruence.
        -- right. eexists. split; [exact Hin|]. done.
    + split.
      * intros [[Hin _]|(l & _ & Hc%isClientLabel_true & _ & [= -> -> ->])]; [done|].
        destruct Hd. by split.
      * intros Hin. left. split; [done|]. intros (l & _ & Hc%isClientLabel_true & _ & [= -> -> ->]).
        destruct Hd. by split.
Qed.
End ClientLabels.

(** ** Witnesses *)

(** A server whose store holds [sampleWorld] or [sampleClients]. *)
Definition sampleSrv (w : World Db) : World (Srv Db) :=
  mkWorld (mkSrv sampleManager NewClients (w_data w) NewDispatcher ∅ []) (w_step w).

Definition sampleAck : Any.t := Any.Mk "MessageAckData" (MessageID.Bytes (sampleID 1)).

Lemma process_message_ack_spec_witness :
  exists w', processMessageAck exampleClientID sampleAck (sampleSrv sampleWorld) = (Ok tt, w') /\
    pending_messages (sStore (w_data w')) !! MessageID.String (sampleID 2) =
    pending_messages (w_data sampleWorld) !! MessageID.String (sampleID 2).
Proof.
  set (res := processMessageAck exampleClientID sampleAck (sampleSrv sampleWorld)).
  assert (E : fst res = Ok tt) by (vm_compute; reflexivity).
  assert (E' : res = (Ok tt, snd res)) by (rewrite <- E; apply surjective_pairing).
  exists (snd res). split; [exact E'|].
  destruct (process_message_ack_spec exampleClientID sampleAck (sampleSrv sampleWorld) (snd res)
    faultless_test sampleWorld_wf E') as (bs & ids & db & Hbs & Hids & Hw & Hack).
  rewrite Hw. refine (proj2 (ab_rest _ _ _ _ Hack _ _)).
  injection Hbs as <-. inversion Hids as [|b id bs' ids' Hid Hn]; subst. inversion Hn; subst.
  assert (Hs : id = sampleID 1) by (vm_compute in Hid; injection Hid as <-; reflexivity). subst id.
  intros r Hin. apply list_elem_of_singleton in Hin. exfalso. vm_compute in Hin. discriminate Hin.
Defined.

Lemma process_client_info_spec_witness :
  exists w', processClientInfo exampleClientID (Any.Mk "linux" None) (sampleSrv sampleClients) = (Ok tt, w') /\
    (ClientID.String exampleClientID, "client"%string, "linux"%string) ∈
      client_labels (sStore (w_data w')).
Proof.
  set (res := processClientInfo exampleClientID (Any.Mk "linux" None) (sampleSrv sampleClients)).
  assert (E : fst res = Ok tt) by (vm_compute; reflexivity).
  assert (E' : res = (Ok tt, snd res)) by (rewrite <- E; apply surjective_pairing).
  exists (snd res). split; [exact E'|].
  destruct (process_client_info_spec exampleClientID (Any.Mk "linux" None) (sampleSrv sampleClients)
    (snd res) E') as (ls & X & Hls & Hw & HX).
  rewrite Hw. simpl. apply HX. injection Hls as <-.
  rewrite decide_True by (split; reflexivity). by left.
Defined.
