(* ===== verification/Services.v ===== *)
(** * Running services

    src/server/internal/services/manager.go.  The services themselves, other
    than the system service, are code of the installation: a parameter
    ([ServiceLib]) with what their interface promises in [ServiceLibOK].

    A goroutine per message works on that message alone; what goroutines share
    (cache, load counters, statistics, store) they reach one operation at a
    time, so a parallel loop ([parallelFor]) is its turns in any order.  The
    load a call finds may be any: [parallelism] counts the calls in flight. *)
From S2P Require Import Prelude Platform Ids Proto Db Sqlite SqliteMessages SqliteClients Cache.
From S2P Require Import Notifications Broadcasts Server SystemService.

Definition MaxServiceFailureReasonLength : nat := 900.

Module ServiceConfig.
Record t := Mk { Name : string; Factory : string; MaxParallelism : Z }.
End ServiceConfig.

Class ServiceLib := {
  (** The factories: whether the service made implements BatchedService. *)
  serviceRegistry : string -> option (ServiceConfig.t -> outcome bool);
  serviceStart : nat -> string -> option goerror;
  (** ProcessMessage: the message as the service leaves it, and its error. *)
  serviceProcess : nat -> string -> Message.t -> Message.t * option goerror;
  serviceProcessBatch : nat -> string -> list Message.t -> option goerror;
  (** error.Error, strconv.Quote, net.Error.Timeout and context.Context.Err. *)
  errorString : goerror -> string;
  quote : string -> string;
  isTimeout : Z -> bool;
  ctxErr : nat -> option goerror;
}.

(** service.Service: ProcessMessage "is allowed to set m.Data = nil" when it
    succeeds; when it fails m.Data must be intact. *)
Class ServiceLibOK (SL : ServiceLib) : Prop := {
  process_success n s m : snd (serviceProcess n s m) = None ->
    fst (serviceProcess n s m) = m \/ fst (serviceProcess n s m) = Message.setData None m;
  process_failure n s m : snd (serviceProcess n s m) <> None -> fst (serviceProcess n s m) = m;
}.

(** A service that fails once in a while. *)
#[export] Instance TestServiceLib : ServiceLib := {|
  serviceRegistry f := if String.eqb f "NOOP" then Some (fun _ => Ok false) else None;
  serviceStart _ _ := None;
  serviceProcess n s m :=
    if String.eqb (Message.MessageType m) "Bad" then (m, Some (ErrText "bad message"))
    else if String.eqb (Message.MessageType m) "Later" then (m, Some (ErrTemporary (ErrText "later")))
    else (m, None);
  serviceProcessBatch _ _ _ := None;
  errorString _ := "error"%string;
  quote s := s;
  isTimeout _ := false;
  ctxErr _ := None;
|}.

#[export] Instance TestServiceLibOK : ServiceLibOK TestServiceLib.
Proof.
  split; intros n s m; simpl; repeat (destruct (String.eqb _ _)); try done; by left.
Qed.

(** service.IsTemporary. *)
Definition IsTemporary `{ServiceLib} (e : goerror) : bool :=
  match e with
  | ErrTemporary _ => true
  | ErrIO c => isTimeout c
  | _ => false
  end.

Definition truncateReason (s : string) : string :=
  if decide (MaxServiceFailureReasonLength < String.length s)
  then (substring 0 (MaxServiceFailureReasonLength - 3) s ++ "...")%string else s.

Section Services.
Context `{P : Platform} `{L : ProtoLib} `{AL : AnyLib} `{SL : ServiceLib} {St : Type} `{SS : Store St}.

Abbreviation Server A := (M (World (Srv St)) A).

(** A goroutine per element; all have ended when it returns. *)
Definition parallelFor {A} (f : A -> Server A) (l : list A) : Server (list A) :=
  order ← interact (fun n => Ok (deliver n nat (seq 0 (length l))));
  foldM (fun l i => match l !! i with
                    | Some x => y ← f x; mret (<[i := y]> l)
                    | None => mret l
                    end) order l.

Definition clientData (m : Message.t) : Server ClientData.t :=
  match Message.Source m with
  | None => crash "nil Source"
  | Some src =>
      match ClientID.BytesToClientID (Address.ClientId src) with
      | Ok cid =>
          if ClientID.IsNil cid then fail (ErrText "invalid source client id")
          else r ← orFailM (onReads (GetOrRead cid)) (ErrText "can't get client data"); mret r.1
      | _ => fail (ErrText "invalid source client id")
      end
  end.

Definition setParallelism (n : Z) (l : liveService) : liveService :=
  mkLive n (maxParallelism l) (isBatched l).

Definition addParallelism (name : string) (k : Z) : Server unit :=
  setServices (alter (fun l => setParallelism (wrapU32 (parallelism l + k)) l) name).

(** [s.service.ProcessMessage]. *)
Definition runService (name : string) (m : Message.t) : Server (Message.t * option goerror) :=
  if String.eqb name "system" then
    r ← try (systemProcessMessage m);
    mret (m, match r with inl _ => None | inr e => Some e end)
  else interact (fun n => Ok (serviceProcess n name m)).

(** The message, annotated, and its result. *)
Definition processMessage (name : string) (m : Message.t) (isFirstTry : bool) :
    Server (Message.t * option MessageResult.t) :=
  cd ← try (clientData m);
  let m := match cd with
           | inl cd => Message.setIsBlocklistedSource (ClientData.Blacklisted cd) m
           | inr _ => m end in
  addParallelism name 1 ≫= fun _ =>
  ls ← services;
  match ls !! name with
  | None => crash "nil liveService"
  | Some l =>
      r ← (if (maxParallelism l <? parallelism l)%Z then
             count (MessageDropped (Message.MessageId m) isFirstTry) ≫= fun _ => mret (m, None)
           else
             match MessageID.BytesToMessageID (Message.MessageId m) with
             | Ok mid =>
                 if MessageID.IsNil mid then crash "Invalid message id presented for processing"
                 else
                   start ← now;
                   r ← runService name m;
                   finish ← now;
                   match r.2 with
                   | None =>
                       count (MessageProcessed (Message.MessageId m) isFirstTry) ≫= fun _ =>
                       t ← NowProto; mret (r.1, Some (processed t))
                   | Some e =>
                       if IsTemporary e then
                         count (MessageErrored true (Message.MessageId m) isFirstTry) ≫= fun _ =>
                         mret (r.1, None)
                       else
                         count (MessageErrored false (Message.MessageId m) isFirstTry) ≫= fun _ =>
                         t ← NowProto;
                         mret (r.1, Some (MessageResult.Mk (Some t) true (truncateReason (errorString e))))
                   end
             | _ => crash "Invalid message id presented for processing"
             end);
      addParallelism name (2 ^ 32 - 1) ≫= fun _ => mret r
  end.

Definition unknownService (name : string) (t : Timestamp.t) : MessageResult.t :=
  MessageResult.Mk (Some t) true ("unknown service " ++ quote name)%string.

(** The goroutine of [ProcessMessages]; the flag is [hasResult]. *)
Definition processBacklogged (mb : Message.t * bool) : Server (Message.t * bool) :=
  let m := mb.1 in
  match Message.Destination m with
  | None => crash "nil Destination"
  | Some dst =>
      ls ← services;
      match ls !! Address.ServiceName dst with
      | None =>
          t ← NowProto;
          count (MessageErrored true (Message.MessageId m) false) ≫= fun _ =>
          mret (Message.setResult (Some (unknownService (Address.ServiceName dst) t)) m, true)
      | Some _ =>
          try (clientData m) ≫= fun _ =>
          count (MessageIngested true (Message.MessageId m)) ≫= fun _ =>
          r ← processMessage (Address.ServiceName dst) m false;
          mret (match r.2 with
                | Some res => (Message.setResult (Some res) r.1, true)
                | None => (r.1, false) end)
      end
  end.

Definition ProcessMessages (msgs : list Message.t) : Server unit :=
  rs ← parallelFor processBacklogged ((fun m => (m, false)) <$> msgs);
  let toSave := fst <$> filter (fun mb => mb.2 = true) rs in
  if decide (toSave = []) then mret tt
  else try (onDb (stStoreMessages toSave "")) ≫= fun _ => mret tt.

(** The goroutine of [HandleNewMessages]. *)
Definition processNew (m : Message.t) : Server Message.t :=
  match Message.Destination m with
  | None => crash "nil Destination"
  | Some dst =>
      ls ← services;
      match ls !! Address.ServiceName dst with
      | None =>
          t ← NowProto;
          count (MessageErrored true (Message.MessageId m) true) ≫= fun _ =>
          mret (Message.setData None
                  (Message.setResult (Some (unknownService (Address.ServiceName dst) t)) m))
      | Some _ =>
          try (clientData m) ≫= fun _ =>
          count (MessageIngested false (Message.MessageId m)) ≫= fun _ =>
          r ← processMessage (Address.ServiceName dst) m true;
          mret (match r.2 with
                | Some res => Message.setData None (Message.setResult (Some res) r.1)
                | None => r.1 end)
      end
  end.

(** The check of a new message's destination, which also dates it. *)
Definition dateNew (t : Timestamp.t) (m : Message.t) : Server Message.t :=
  match Message.Destination m with
  | Some dst =>
      if decide (blen (Address.ClientId dst) = 0) then mret (Message.setCreationTime (Some t) m)
      else fail (ErrText "HandleNewMessage called with bad Destination")
  | None => fail (ErrText "HandleNewMessage called with bad Destination")
  end.

Definition HandleNewMessages (msgs : list Message.t) (contact : ContactID) : Server unit :=
  t ← NowProto;
  msgs ← mapMs (dateNew t) msgs;
  msgs ← parallelFor processNew msgs;
  e ← interact (fun n => Ok (ctxErr n));
  match e with
  | Some e => fail e
  | None =>
      forM_ msgs (fun m =>
        try (clientData m) ≫= fun _ => count (MessageSaved false (Message.MessageId m))) ≫= fun _ =>
      onDb (stStoreMessages msgs contact)
  end.

(** *** The configuration *)
Definition Install (cfg : ServiceConfig.t) : Server unit :=
  match serviceRegistry (ServiceConfig.Factory cfg) with
  | None => fail (ErrText "unable to find factory")
  | Some f =>
      let name := ServiceConfig.Name cfg in
      if String.eqb name "" || String.eqb name "system" || String.eqb name "client" then
        fail (ErrText "illegal service name")
      else
        batched ← lift (f cfg);
        let max := if (ServiceConfig.MaxParallelism cfg =? 0)%Z then 100%Z
                   else ServiceConfig.MaxParallelism cfg in
        e ← interact (fun n => Ok (serviceStart n name));
        match e with
        | Some e => fail e
        | None => setServices (insert name (mkLive 0 max batched))
        end
  end.

Definition Stop : Server unit := setServices (fun _ => ∅).

Definition ShouldProcessMessageBatches (name : string) : Server bool :=
  ls ← services;
  mret (match ls !! name with Some l => isBatched l | None => false end).

(** There is no return after the message about a service that can not take
    batches: the call that follows is on a nil interface. *)
Definition ProcessMessageBatch (name : string) (msgs : list Message.t) : Server unit :=
  ls ← services;
  match ls !! name with
  | None => mret tt
  | Some l =>
      if isBatched l then
        interact (fun n => Ok (serviceProcessBatch n name msgs)) ≫= fun _ => mret tt
      else crash "nil BatchedService"
  end.

(** [liveService.Send]. *)
Definition Send (name : string) (m : Message.t) : Server unit :=
  let m := Message.setSource (Some (Address.Mk None name)) m in
  match Message.Destination m with
  | None => crash "nil Destination"
  | Some dst =>
      if decide (blen (Address.ClientId dst) = 0) then HandleNewMessages [m] ""
      else onDb (stStoreMessages [m] "")
  end.
End Services.

(** The services of [NewManager]. *)
Definition newServices : gmap string liveService := {["system"%string := mkLive 0 100 false]}.

(** ** What the parts leave alone *)
Section Frames.
Context `{P : Platform} `{L : ProtoLib} `{AL : AnyLib} `{SL : ServiceLib} {St : Type} `{SS : Store St}.

Lemma preserves_onPart {D E A} (I : D -> Prop) (rd : D -> E) (wr : E -> D -> D) (m : M (World E) A) :
  (forall v d, I d -> I (wr v d)) -> preserves (onData I) (onPart rd wr m).
Proof. intros Hwr w H. unfold onPart. destruct (m _) as [r w1]. apply Hwr. exact H. Qed.

(** The services as given and the statistics extended. *)
Definition logged (S0 : gmap string liveService) (E0 : list statEvent) (d : Srv St) : Prop :=
  sServices d = S0 /\ exists extra, sEvents d = E0 ++ extra.

Lemma preserves_orFail {A} I (o : outcome A) e : preserves I (orFail (S := World (Srv St)) o e).
Proof. unfold orFail. solve_preserves. Qed.
Lemma preserves_orFailM {A} I (m : M (World (Srv St)) A) e : preserves I m -> preserves I (orFailM m e).
Proof. intros H. unfold orFailM. solve_preserves. Qed.

Lemma logged_onDb {A} S0 E0 (m : M (World St) A) : preserves (onData (logged S0 E0)) (onDb m).
Proof. by apply preserves_onPart. Qed.
Lemma logged_onClients {A} S0 E0 (m : M (World Clients) A) :
  preserves (onData (logged S0 E0)) (onClients (St := St) m).
Proof. by apply preserves_onPart. Qed.
Lemma logged_onReads {A} S0 E0 (m : M (World (Clients * St)) A) :
  preserves (onData (logged S0 E0)) (onReads m).
Proof. by apply preserves_onPart. Qed.
Lemma logged_count S0 E0 e : preserves (onData (logged S0 E0)) (count (St := St) e).
Proof. intros w [H1 [ex H2]]. split; [done|]. exists (ex ++ [e]). simpl. by rewrite H2, app_assoc. Qed.
#[local] Hint Resolve preserves_orFail preserves_orFailM logged_onDb logged_onClients logged_onReads
  logged_count : preserves.

Lemma logged_serviceClientData S0 E0 id : preserves (onData (logged S0 E0)) (serviceClientData id).
Proof. unfold serviceClientData. solve_preserves. Qed.
#[local] Hint Resolve logged_serviceClientData : preserves.

Lemma logged_system S0 E0 m : preserves (onData (logged S0 E0)) (systemProcessMessage m).
Proof.
  unfold systemProcessMessage, processMessageAck, processMessageError, processClientInfo,
    processResourceUsage, processKillNotification, ackOne, removeOld, addNew.
  solve_preserves.
Qed.

(** Reading a client's data touches neither services nor statistics. *)
Definition quiet (S0 : gmap string liveService) (E0 : list statEvent) (d : Srv St) : Prop :=
  sServices d = S0 /\ sEvents d = E0.

Lemma quiet_onReads {A} S0 E0 (m : M (World (Clients * St)) A) :
  preserves (onData (quiet S0 E0)) (onReads m).
Proof. by apply preserves_onPart. Qed.
#[local] Hint Resolve quiet_onReads : preserves.

Lemma quiet_clientData S0 E0 m : preserves (onData (quiet S0 E0)) (clientData m).
Proof. unfold clientData. solve_preserves. Qed.

Lemma try_clientData_Ok m (w : World (Srv St)) r w' :
  try (clientData m) w = (Ok r, w') ->
  sServices (w_data w') = sServices (w_data w) /\ sEvents (w_data w') = sEvents (w_data w).
Proof.
  intros E. pose proof (preserves_try _ _ (quiet_clientData (sServices (w_data w)) (sEvents (w_data w)) m) w) as H.
  rewrite E in H. by apply H.
Qed.
End Frames.

(** ** One message *)
Section ProcessMessage.
Context `{P : Platform} `{L : ProtoLib} `{AL : AnyLib} `{SL : ServiceLib} {HSL : ServiceLibOK SL}.
Context {St : Type} `{SS : Store St}.

Abbreviation SrvWorld := (World (Srv St)).

(** The message with the blocklisting of its source filled in, if it is known. *)
Definition annotated (m m1 : Message.t) : Prop :=
  m1 = m \/ exists b, m1 = Message.setIsBlocklistedSource b m.

Lemma runService_Ok name m (w : SrvWorld) r w' :
  runService name m w = (Ok r, w') ->
  sServices (w_data w') = sServices (w_data w) /\
  (exists extra, sEvents (w_data w') = sEvents (w_data w) ++ extra /\
     (name <> "system"%string -> extra = [])) /\
  match r.2 with
  | None => r.1 = m \/ r.1 = Message.setData None m
  | Some _ => r.1 = m
  end.
Proof using HSL.
  unfold runService. destruct (String.eqb_spec name "system") as [->|Hn]; intros E.
  - apply bind_Ok in E as (x & w1 & E1 & E). apply ret_Ok in E as [<- <-].
    pose proof (preserves_try _ _ (logged_system (sServices (w_data w)) (sEvents (w_data w)) m) w) as H.
    rewrite E1 in H. destruct H as [H1 [ex H2]]; [split; [done|]; exists []; by rewrite app_nil_r|].
    simpl in H1, H2. split; [done|]. split; [by exists ex|]. destruct x; [by left|done].
  - apply interact_Ok in E as [[= <-] ->]. simpl. split; [done|].
    split; [exists []; by rewrite app_nil_r|].
    destruct (serviceProcess (w_step w) name m).2 eqn:Hr.
    + apply process_failure. by rewrite Hr.
    + by apply process_success.
Qed.

(** How the handling of one message ends. *)
Inductive ending (m1 : Message.t) (first over : bool) :
    Message.t -> option MessageResult.t -> statEvent -> Prop :=
| end_dropped : over = true ->
    ending m1 first over m1 None (MessageDropped (Message.MessageId m1) first)
| end_processed m' t : over = false -> m' = m1 \/ m' = Message.setData None m1 ->
    ending m1 first over m' (Some (processed t)) (MessageProcessed (Message.MessageId m1) first)
| end_temporary : over = false ->
    ending m1 first over m1 None (MessageErrored true (Message.MessageId m1) first)
| end_failed t reason : over = false ->
    String.length reason <= MaxServiceFailureReasonLength ->
    ending m1 first over m1 (Some (MessageResult.Mk (Some t) true reason))
      (MessageErrored false (Message.MessageId m1) first).

Lemma substring_le n k s : String.length (substring n k s) <= k.
Proof.
  revert n k. induction s as [|c s IH]; intros [|n] [|k]; simpl; try lia.
  - specialize (IH 0 k). lia.
  - apply IH.
  - apply IH.
Qed.

Lemma truncateReason_length s : String.length (truncateReason s) <= MaxServiceFailureReasonLength.
Proof.
  unfold truncateReason. case_decide; [|lia]. rewrite app_length_string.
  pose proof (substring_le 0 (MaxServiceFailureReasonLength - 3) s).
  unfold MaxServiceFailureReasonLength in *. simpl String.length at 2. lia.
Qed.

(** What [processMessage] decides on the message's annotated form. *)
Lemma decide_message_Ok name m1 first (l : liveService) (w : SrvWorld) r w' :
  (if (maxParallelism l <? parallelism l)%Z then
     count (MessageDropped (Message.MessageId m1) first) ≫= fun _ => mret (m1, None)
   else
     match MessageID.BytesToMessageID (Message.MessageId m1) with
     | Ok mid =>
         if MessageID.IsNil mid then crash "Invalid message id presented for processing"
         else
           start ← now;
           r ← runService name m1;
           finish ← now;
           match r.2 with
           | None =>
               count (MessageProcessed (Message.MessageId m1) first) ≫= fun _ =>
               t ← NowProto; mret (r.1, Some (processed t))
           | Some e =>
               if IsTemporary e then
                 count (MessageErrored true (Message.MessageId m1) first) ≫= fun _ =>
                 mret (r.1, None)
               else
                 count (MessageErrored false (Message.MessageId m1) first) ≫= fun _ =>
                 t ← NowProto;
                 mret (r.1, Some (MessageResult.Mk (Some t) true (truncateReason (errorString e))))
           end
     | _ => crash "Invalid message id presented for processing"
     end) w = (Ok r, w') ->
  sServices (w_data w') = sServices (w_data w) /\
  exists extra e, sEvents (w_data w') = sEvents (w_data w) ++ extra ++ [e] /\
    (name <> "system"%string -> extra = []) /\
    ending m1 first (maxParallelism l <? parallelism l)%Z r.1 r.2 e.
Proof using HSL.
  destruct (_ <? _)%Z.
  { intros [= <- <-]. split; [done|]. eexists [], _. split; [done|]. split; [done|]. by constructor. }
  destruct (MessageID.BytesToMessageID _) as [mid| |]; [|done|done].
  destruct (MessageID.IsNil mid); [done|]. intros E.
  apply bind_Ok in E as (t0 & w1 & E1 & E). apply interact_Ok in E1 as [_ ->].
  apply bind_Ok in E as ([m' o] & w2 & E1 & E). apply runService_Ok in E1 as (Hs & (ex & Hev & Hno) & Hm).
  apply bind_Ok in E as (t1 & w3 & E1 & E). apply interact_Ok in E1 as [_ ->].
  simpl in Hs, Hev, Hm, E. destruct o as [e|]; [destruct (IsTemporary e)|].
  - injection E as <- <-. simpl. split; [done|]. exists ex. eexists.
    rewrite Hev, app_assoc. split; [done|]. split; [done|]. subst. by constructor.
  - apply bind_Ok in E as ([] & w4 & E1 & E). injection E1 as <-.
    apply bind_Ok in E as (t & w5 & E1 & E). apply NowProto_data in E1. apply ret_Ok in E as [<- <-].
    rewrite E1. simpl. split; [done|]. exists ex. eexists. rewrite Hev, app_assoc.
    split; [done|]. split; [done|]. subst. constructor; [done|apply truncateReason_length].
  - apply bind_Ok in E as ([] & w4 & E1 & E). injection E1 as <-.
    apply bind_Ok in E as (t & w5 & E1 & E). apply NowProto_data in E1. apply ret_Ok in E as [<- <-].
    rewrite E1. simpl. split; [done|]. exists ex. eexists. rewrite Hev, app_assoc.
    split; [done|]. split; [done|]. by constructor.
Qed.

Lemma process_message_spec_aux name m first (w w' : SrvWorld) l m' res :
  sServices (w_data w) !! name = Some l -> (0 <= parallelism l < 2 ^ 32 - 1)%Z ->
  processMessage name m first w = (Ok (m', res), w') ->
  sServices (w_data w') = sServices (w_data w) /\
  exists m1 extra e, annotated m m1 /\
    sEvents (w_data w') = sEvents (w_data w) ++ extra ++ [e] /\
    (name <> "system"%string -> extra = []) /\
    ending m1 first (maxParallelism l <? parallelism l + 1)%Z m' res e.
Proof using HSL.
  intros Hl Hp E. unfold processMessage in E. apply bind_Ok in E as (cd & w1 & E1 & E).
  apply try_clientData_Ok in E1 as [Hs1 He1].
  set (m1 := match cd with inl cd => _ | inr _ => m end) in E.
  assert (Ha : annotated m m1) by (destruct cd; [right; by eexists|by left]).
  apply bind_Ok in E as ([] & w2 & E1 & E). injection E1 as <-.
  apply bind_Ok in E as (ls & w2 & E1 & E). apply gets_Ok in E1 as [<- <-]. simpl in E.
  rewrite lookup_alter_eq, Hs1, Hl in E. simpl in E.
  assert (Hw : wrapU32 (parallelism l + 1) = (parallelism l + 1)%Z) by (apply Z.mod_small; lia).
  rewrite Hw in E.
  apply bind_Ok in E as (r & w3 & E1 & E).
  apply (decide_message_Ok name m1 first (setParallelism (parallelism l + 1) l)) in E1
    as (Hs & ex & e & Hev & Hno & Hend).
  apply bind_Ok in E as ([] & w4 & E1 & E). injection E1 as <-. apply ret_Ok in E as [-> <-].
  simpl in *. split.
  - rewrite Hs, alter_alter_eq. apply alter_id. intros x Hx. replace x with l by congruence.
    destruct l as [p mx bt]. unfold setParallelism. simpl in *. f_equal. unfold wrapU32.
    rewrite (Z.mod_small (p + 1)) by lia.
    replace (p + 1 + (2 ^ 32 - 1))%Z with (p + 1 * 2 ^ 32)%Z by lia.
    rewrite Z.mod_add by lia. apply Z.mod_small. lia.
  - exists m1, ex, e. split; [done|]. rewrite Hev, He1. done.
Qed.
(** [processMessage] gives the message a result exactly when the service
    handled it or failed for good; a message dropped for overload, or failed
    temporarily, gets none and is retried.  The reason of a failure is at most
    900 bytes.  Exactly one of MessageDropped, MessageProcessed and
    MessageErrored is reported, and the service's load is afterwards what it
    was before.  MessageErrored's [permanent] is true for temporary errors and
    false for permanent ones, the opposite of what stats.Collector says. *)
Theorem process_message_spec name m first (w w' : SrvWorld) l m' res :
  sServices (w_data w) !! name = Some l -> (0 <= parallelism l < 2 ^ 32 - 1)%Z ->
  processMessage name m first w = (Ok (m', res), w') ->
  sServices (w_data w') = sServices (w_data w) /\
  exists m1 extra e, annotated m m1 /\
    sEvents (w_data w') = sEvents (w_data w) ++ extra ++ [e] /\
    (name <> "system"%string -> extra = []) /\
    ending m1 first (maxParallelism l <? parallelism l + 1)%Z m' res e.
Proof using HSL. intros Hl Hp E. by eapply process_message_spec_aux. Qed.
End ProcessMessage.

(** ** Batches of messages *)
Section Batches.
Context `{P : Platform} {HP : PlatformOK P} `{L : ProtoLib} `{AL : AnyLib}.
Context `{SL : ServiceLib} {HSL : ServiceLibOK SL} {St : Type} `{SS : Store St}.

Abbreviation SrvWorld := (World (Srv St)).

(** A parallel loop does to each element what its goroutine does, whatever the
    order of the turns. *)
Lemma parallelFor_Ok {A} (f : A -> M (World (Srv St)) A) (R : A -> A -> Prop) (I : Srv St -> Prop) l
    (w : SrvWorld) l' w' :
  I (w_data w) ->
  (forall x v y v', I (w_data v) -> f x v = (Ok y, v') -> R x y /\ I (w_data v')) ->
  parallelFor f l w = (Ok l', w') -> Forall2 R l l' /\ I (w_data w').
Proof using HP.
  intros Hw Hf E. apply bind_Ok in E as (order & w1 & E1 & E).
  apply interact_Ok in E1 as [[= <-] ->].
  pose proof (deliver_perm (w_step w) nat (seq 0 (length l))) as Hperm.
  set (order := deliver _ _ _) in *.
  assert (Hnd : NoDup order) by (rewrite Hperm; apply NoDup_seq).
  pose proof (foldM_Ok_inv (fun l i => match l !! i with
    | Some x => y ← f x; mret (<[i := y]> l) | None => mret l end) (fun pre cur (w' : SrvWorld) => I (w_data w') /\ length cur = length l /\
    (forall i, i ∈ pre -> exists x y, l !! i = Some x /\ cur !! i = Some y /\ R x y) /\
    (forall i, i ∉ pre -> cur !! i = l !! i))
    order l (mkWorld (w_data w) (S (w_step w))) l' w') as H. cbv beta in H.
  destruct H as (H1 & H2 & H3 & H4); [| |exact E|].
  - split; [exact Hw|]. split; [done|]. split; [by intros i ?%not_elem_of_nil|done].
  - intros pre i post cur s cur' s1 Hord (H1 & H2 & H3 & H4) Es.
    assert (Hi : i ∉ pre).
    { rewrite Hord in Hnd. apply NoDup_app in Hnd as (_ & Hd & _). intros Hin. apply (Hd i Hin). by left. }
    assert (Hlt : i < length l).
    { enough (Hin : i ∈ seq 0 (length l)) by (apply elem_of_seq in Hin; lia).
      rewrite <- Hperm, Hord. apply elem_of_app. right. by left. }
    destruct (lookup_lt_is_Some_2 l i Hlt) as [x Hx]. rewrite H4, Hx in Es by done.
    apply bind_Ok in Es as (y & s2 & Ef & Er). apply ret_Ok in Er as [<- <-].
    destruct (Hf x s y s2 H1 Ef) as [HR HI]. split; [done|]. split; [by rewrite length_insert|].
    split.
    + intros j [Hj|Hj%list_elem_of_singleton]%elem_of_app.
      * destruct (H3 j Hj) as (x' & y' & Hx' & Hy' & HR'). exists x', y'. split; [done|].
        split; [|done]. rewrite list_lookup_insert_ne; [done|]. by intros ->.
      * subst j. exists x, y. split; [done|]. split; [|done]. apply list_lookup_insert_eq. lia.
    + intros j Hj. rewrite list_lookup_insert_ne; [apply H4|]; intros Hj'; apply Hj, elem_of_app;
        [by left|right; subst; by left].
  - split; [|done]. apply Forall2_same_length_lookup_2; [done|].
    intros i x y Hx Hy. destruct (H3 i) as (x' & y' & Hx' & Hy' & HR); [|congruence].
    rewrite Hperm. apply elem_of_seq. apply lookup_lt_Some in Hx. lia.
Qed.

(** No counter is about to wrap. *)
Definition calm (d : Srv St) : Prop :=
  forall name l, sServices d !! name = Some l -> (0 <= parallelism l < 2 ^ 32 - 1)%Z.

(** What becomes of a new message. *)
Definition handledNew (S0 : gmap string liveService) (m m' : Message.t) : Prop :=
  exists dst, Message.Destination m = Some dst /\
  match S0 !! Address.ServiceName dst with
  | None => exists t, m' = Message.setData None
      (Message.setResult (Some (unknownService (Address.ServiceName dst) t)) m)
  | Some l => exists m1 m2 res e over, annotated m m1 /\ ending m1 true over m2 res e /\
      m' = match res with
           | Some r => Message.setData None (Message.setResult (Some r) m2)
           | None => m1
           end
  end.

Lemma processNew_Ok S0 m (w : SrvWorld) m' w' :
  (forall name l, S0 !! name = Some l -> (0 <= parallelism l < 2 ^ 32 - 1)%Z) ->
  sServices (w_data w) = S0 -> processNew m w = (Ok m', w') ->
  handledNew S0 m m' /\ sServices (w_data w') = S0.
Proof using HSL.
  intros Hcalm HS E. unfold processNew in E.
  destruct (Message.Destination m) as [dst|] eqn:Hd; [|done].
  apply bind_Ok in E as (ls & w1 & E1 & E). apply gets_Ok in E1 as [<- <-]. rewrite HS in E.
  destruct (S0 !! Address.ServiceName dst) as [l|] eqn:Hl.
  - apply bind_Ok in E as (x & w2 & E1 & E). apply try_clientData_Ok in E1 as [Hs _].
    apply bind_Ok in E as ([] & w3 & E1 & E). injection E1 as <-.
    apply bind_Ok in E as ([m2 res] & w4 & E1 & E). apply ret_Ok in E as [<- <-].
    apply (process_message_spec_aux _ _ _ _ _ l) in E1 as (H1 & m1 & ex & e & Ha & _ & _ & Hend);
      [|by rewrite <- Hl, <- HS, <- Hs|by apply (Hcalm _ _ Hl)].
    split; [|by rewrite H1, <- HS, <- Hs].
    exists dst. split; [done|]. rewrite Hl. eexists m1, m2, res, e, _. split; [done|].
    split; [done|]. destruct res; [done|]. by inversion Hend.
  - apply bind_Ok in E as (t & w2 & E1 & E). apply NowProto_data in E1.
    apply bind_Ok in E as ([] & w3 & E2 & E). injection E2 as <-. apply ret_Ok in E as [<- <-].
    simpl. rewrite E1. split; [|done]. exists dst. split; [done|]. rewrite Hl. by exists t.
Qed.

Lemma mapMs_dateNew t msgs (w : SrvWorld) ms w' :
  mapMs (dateNew t) msgs w = (Ok ms, w') -> w' = w /\
  Forall (fun m => exists dst, Message.Destination m = Some dst /\ blen (Address.ClientId dst) = 0) msgs /\
  ms = Message.setCreationTime (Some t) <$> msgs.
Proof.
  revert ms w'. induction msgs as [|m msgs IH]; intros ms w' E; simpl in E.
  { by apply ret_Ok in E as [<- <-]. }
  apply bind_Ok in E as (m' & w1 & E1 & E). unfold dateNew in E1.
  destruct (Message.Destination m) as [dst|] eqn:Hd; [|done]. case_decide as Hb; [|done].
  apply ret_Ok in E1 as [<- <-]. apply bind_Ok in E as (ms' & w2 & E1 & E).
  apply IH in E1 as (-> & Hall & ->). apply ret_Ok in E as [<- <-].
  split; [done|]. split; [|done]. constructor; [by exists dst|done].
Qed.

(** When [HandleNewMessages] succeeds, every message it was given, none
    of which is meant for a client, has been stored exactly once and in the
    given order, dated with one common time: one for a service that does not
    exist as failed, one that its service handled or refused with that result
    and without its payload, and one that was dropped or failed temporarily
    with its payload and without a result, so that it is tried again. *)
Theorem handle_new_messages_spec msgs contact (w w' : SrvWorld) :
  calm (w_data w) -> HandleNewMessages msgs contact w = (Ok tt, w') ->
  Forall (fun m => exists dst, Message.Destination m = Some dst /\ blen (Address.ClientId dst) = 0) msgs /\
  sServices (w_data w') = sServices (w_data w) /\
  exists t saved w1 w2,
    Forall2 (handledNew (sServices (w_data w))) (Message.setCreationTime (Some t) <$> msgs) saved /\
    stStoreMessages saved contact w1 = (Ok tt, w2) /\ sStore (w_data w') = w_data w2.
Proof using HP HSL.
  intros Hcalm E. apply bind_Ok in E as (t & w1 & E1 & E). apply NowProto_data in E1.
  apply bind_Ok in E as (ms & w2 & E2 & E). apply mapMs_dateNew in E2 as (-> & Hdst & ->).
  apply bind_Ok in E as (saved & w3 & E2 & E).
  apply (parallelFor_Ok _ (handledNew (sServices (w_data w)))
    (fun d => sServices d = sServices (w_data w))) in E2 as [H2 HS]; [|by rewrite E1|].
  2:{ intros x v y v' Hv Ex. by eapply processNew_Ok. }
  apply bind_Ok in E as (ce & w4 & E2 & E). apply interact_Ok in E2 as [_ ->].
  destruct ce as [e|]; [done|]. apply bind_Ok in E as ([] & w5 & E2 & E).
  assert (HS5 : sServices (w_data w5) = sServices (w_data w)).
  { refine (forM_Ok_inv _ (fun _ v => sServices (w_data v) = sServices (w_data w)) saved _ w5 _ _ E2); [done|].
    intros pre x post v v1 _ Hv Ev. apply bind_Ok in Ev as (y & v2 & Ey & Ev).
    apply try_clientData_Ok in Ey as [Hs _]. injection Ev as <-. simpl. congruence. }
  apply onDb_Ok in E as (s & n & E & ->). split; [done|]. split; [done|].
  exists t, saved. eexists _, _. split; [done|]. split; [exact E|done].
Qed.

(** What becomes of a message that was in the store, and whether it has a
    result to be saved. *)
Definition handledBacklogged (S0 : gmap string liveService) (mb mb' : Message.t * bool) : Prop :=
  exists dst, Message.Destination mb.1 = Some dst /\
  match S0 !! Address.ServiceName dst with
  | None => exists t, mb' =
      (Message.setResult (Some (unknownService (Address.ServiceName dst) t)) mb.1, true)
  | Some l => exists m1 m2 res e over, annotated mb.1 m1 /\ ending m1 false over m2 res e /\
      mb' = match res with
            | Some r => (Message.setResult (Some r) m2, true)
            | None => (m1, false)
            end
  end.

Lemma processBacklogged_Ok S0 mb (w : SrvWorld) mb' w' :
  (forall name l, S0 !! name = Some l -> (0 <= parallelism l < 2 ^ 32 - 1)%Z) ->
  sServices (w_data w) = S0 -> processBacklogged mb w = (Ok mb', w') ->
  handledBacklogged S0 mb mb' /\ sServices (w_data w') = S0.
Proof using HSL.
  intros Hcalm HS E. unfold processBacklogged in E.
  destruct (Message.Destination mb.1) as [dst|] eqn:Hd; [|done].
  apply bind_Ok in E as (ls & w1 & E1 & E). apply gets_Ok in E1 as [<- <-]. rewrite HS in E.
  destruct (S0 !! Address.ServiceName dst) as [l|] eqn:Hl.
  - apply bind_Ok in E as (x & w2 & E1 & E). apply try_clientData_Ok in E1 as [Hs _].
    apply bind_Ok in E as ([] & w3 & E1 & E). injection E1 as <-.
    apply bind_Ok in E as ([m2 res] & w4 & E1 & E). apply ret_Ok in E as [<- <-].
    apply (process_message_spec_aux _ _ _ _ _ l) in E1 as (H1 & m1 & ex & e & Ha & _ & _ & Hend);
      [|by rewrite <- Hl, <- HS, <- Hs|by apply (Hcalm _ _ Hl)].
    split; [|by rewrite H1, <- HS, <- Hs].
    exists dst. split; [done|]. rewrite Hl. eexists m1, m2, res, e, _. split; [done|].
    split; [done|]. destruct res; [done|]. by inversion Hend.
  - apply bind_Ok in E as (t & w2 & E1 & E). apply NowProto_data in E1.
    apply bind_Ok in E as ([] & w3 & E2 & E). injection E2 as <-. apply ret_Ok in E as [<- <-].
    simpl. rewrite E1. split; [|done]. exists dst. split; [done|]. rewrite Hl. by exists t.
Qed.

(** [ProcessMessages] asks the store to save exactly the messages that
    got a result, once and together; a message that was dropped or failed
    temporarily is not saved, so it stays pending and comes round again, and
    when no message has a result the store is not asked. *)
Theorem process_messages_spec msgs (w w' : SrvWorld) :
  calm (w_data w) -> ProcessMessages msgs w = (Ok tt, w') ->
  sServices (w_data w') = sServices (w_data w) /\
  exists rs, Forall2 (handledBacklogged (sServices (w_data w))) ((fun m => (m, false)) <$> msgs) rs /\
    let toSave := fst <$> filter (fun mb => mb.2 = true) rs in
    (forall m, m ∈ toSave -> is_Some (Message.Result m)) /\
    ((toSave = [] /\ exists w1, parallelFor processBacklogged ((fun m => (m, false)) <$> msgs) w = (Ok rs, w1) /\
        w_data w' = w_data w1) \/
     exists w1 r w2, stStoreMessages toSave "" w1 = (r, w2) /\ sStore (w_data w') = w_data w2).
Proof using HP HSL.
  intros Hcalm E. apply bind_Ok in E as (rs & w1 & E1 & E). pose proof E1 as Erun.
  apply (parallelFor_Ok _ (handledBacklogged (sServices (w_data w)))
    (fun d => sServices d = sServices (w_data w))) in E1 as [H2 HS]; [|done|].
  2:{ intros x v y v' Hv Ex. by eapply processBacklogged_Ok. }
  assert (Hres : forall m, m ∈ fst <$> filter (fun mb : Message.t * bool => mb.2 = true) rs ->
    is_Some (Message.Result m)).
  { intros m ([m' b] & -> & [Hb Hin]%list_elem_of_filter)%list_elem_of_fmap. simpl in Hb. subst b.
    apply list_elem_of_lookup in Hin as [i Hi]. destruct (Forall2_lookup_r _ _ _ _ _ H2 Hi) as (mb & _ & dst & _ & H).
    destruct (sServices _ !! _); [|by destruct H as [t [= ->]]; eexists].
    destruct H as (m1 & m2 & [r|] & e & over & _ & _ & [= ->]). by eexists. }
  cbv zeta in E. case_decide as Hnil.
  - apply ret_Ok in E as [_ <-]. split; [done|]. exists rs. split; [done|]. split; [done|].
    left. split; [done|]. by exists w1.
  - apply bind_Ok in E as (r & w2 & E1 & E). apply ret_Ok in E as [_ <-].
    apply try_onDb_Ok in E1 as (s & n & E1 & ->). split; [done|]. exists rs. split; [done|].
    split; [done|]. right. eexists _, _, _. split; [exact E1|done].
Qed.
End Batches.

(** ** Witnesses *)

(** A server with the services "system" and "svc". *)
Definition serviceSrv : World (Srv Db) :=
  mkWorld (mkSrv sampleManager NewClients (w_data sampleClients) NewDispatcher
    (<["svc"%string := mkLive 0 100 false]> newServices) []) (w_step sampleClients).

(** A message for the server, from [exampleClientID]. *)
Definition toServer (n : nat) (svc type : string) : Message.t :=
  Message.Mk (MessageID.Bytes (sampleID n)) (Some (Address.Mk (ClientID.Bytes exampleClientID) "grr"))
    false (Some "s"%string) (Some (Address.Mk None svc)) type None
    (Some (Any.Mk "url" (Some "payload"%string))) None None Message.MEDIUM false None.

Lemma serviceSrv_calm : calm (w_data serviceSrv).
Proof.
  intros name l. unfold serviceSrv, newServices. cbn [w_data sServices].
  rewrite lookup_insert. case_decide; [by intros [= <-]|].
  rewrite lookup_singleton_Some. by intros [_ <-].
Qed.

Lemma process_message_spec_witness :
  exists w', processMessage "svc" (toServer 1 "svc" "Later") true serviceSrv =
      (Ok (Message.setIsBlocklistedSource true (toServer 1 "svc" "Later"), None), w') /\
    sServices (w_data w') = sServices (w_data serviceSrv).
Proof.
  set (res := processMessage "svc" (toServer 1 "svc" "Later") true serviceSrv).
  assert (E : fst res = Ok (Message.setIsBlocklistedSource true (toServer 1 "svc" "Later"), None))
    by (vm_compute; reflexivity).
  assert (E' : res = (Ok (Message.setIsBlocklistedSource true (toServer 1 "svc" "Later"), None), snd res))
    by (rewrite <- E; apply surjective_pairing).
  exists (snd res). split; [exact E'|].
  refine (proj1 (process_message_spec "svc" (toServer 1 "svc" "Later") true serviceSrv (snd res)
    (mkLive 0 100 false) _ None _ _ E')).
  - unfold serviceSrv. cbn [w_data sServices]. apply lookup_insert_eq.
  - by split.
Defined.

Definition sampleNew : list Message.t :=
  [toServer 1 "svc" "Fine"; toServer 2 "svc" "Later"; toServer 3 "nope" "Fine"].

Lemma handle_new_messages_spec_witness :
  exists w', HandleNewMessages sampleNew "" serviceSrv = (Ok tt, w') /\
    sServices (w_data w') = sServices (w_data serviceSrv).
Proof.
  set (res := HandleNewMessages sampleNew "" serviceSrv).
  assert (E : fst res = Ok tt) by (vm_compute; reflexivity).
  assert (E' : res = (Ok tt, snd res)) by (rewrite <- E; apply surjective_pairing).
  exists (snd res). split; [exact E'|].
  exact (proj1 (proj2 (handle_new_messages_spec sampleNew "" serviceSrv (snd res) serviceSrv_calm E'))).
Defined.

Lemma process_messages_spec_witness :
  exists w', ProcessMessages sampleNew serviceSrv = (Ok tt, w') /\
    sServices (w_data w') = sServices (w_data serviceSrv).
Proof.
  set (res := ProcessMessages sampleNew serviceSrv).
  assert (E : fst res = Ok tt) by (vm_compute; reflexivity).
  assert (E' : res = (Ok tt, snd res)) by (rewrite <- E; apply surjective_pairing).
  exists (snd res). split; [exact E'|].
  exact (proj1 (process_messages_spec sampleNew serviceSrv (snd res) serviceSrv_calm E')).
Defined.

(** A service that takes no batches brings the process down when it is sent
    one: the check that it does only logs. *)
Example process_batch_without_batches :
  fst (ProcessMessageBatch "svc" sampleNew serviceSrv) = Crash "nil BatchedService".
Proof. reflexivity. Qed.
