(* ===== verification/Comms.v ===== *)
(** * Contacts with clients

    src/server/comms.go, the connection data of src/server/comms/comms.go and
    src/server/internal/signatures/validation.go.  Keys, certificates and the
    authorizer of the installation are parameters ([CommsLib]).  A
    [ConnectionInfo] belongs to one connection; the operations that change it
    return the new one. *)
From S2P Require Import Prelude Platform Ids Proto Db Sqlite SqliteMessages SqliteClients Cache.
From S2P Require Import Notifications Broadcasts Server SystemService Services.

Definition maxMessagesPerContact : nat := 100.
Definition processingChunkSize : nat := 10.

(** ** Authorization and signatures *)
Module Signature.
Record t := Mk { Certificate : list string; Algorithm : Z; Sig : string }.
End Signature.

Module SignatureInfo.
Record t {Cert : Type} := Mk { Certificate : list Cert; Algorithm : Z; Valid : bool }.
Arguments t : clear implicits.
Arguments Mk {Cert}.
End SignatureInfo.

(** authorizer.ContactInfo; the type is always ClientContact here. *)
Module ContactInfo.
Record t := Mk { ID : ClientID.t; ContactSize : nat; ClientLabels : list string }.
End ContactInfo.

(** authorizer.ClientInfo *)
Module AuthClientInfo.
Record t := Mk { New : bool; Labels : list Label.t }.
End AuthClientInfo.

Class CommsLib := {
  PublicKey : Type;
  Cert : Type;
  marshalKey : PublicKey -> outcome string;
  parseKey : gobytes -> outcome PublicKey;
  parseCertificate : string -> outcome Cert;
  (** x509.Certificate.CheckSignature. *)
  checkSignature : Cert -> Z -> string -> string -> bool;
  allow2 : string -> ContactInfo.t -> bool;
  allow3 : string -> ContactInfo.t -> AuthClientInfo.t -> bool;
  allow4 : string -> ContactInfo.t -> AuthClientInfo.t -> list (SignatureInfo.t Cert) ->
    bool * option ValidationInfo.t;
  (** The address of the notification listener. *)
  listenerAddress : string;
}.

(** Keys are their encoding; everything is allowed but the address "bad". *)
#[export] Instance TestCommsLib : CommsLib := {|
  PublicKey := string;
  Cert := string;
  marshalKey k := Ok k;
  parseKey b := Ok (contents b);
  parseCertificate c := Ok c;
  checkSignature _ _ _ _ := true;
  allow2 addr _ := negb (String.eqb addr "bad");
  allow3 addr _ _ := true;
  allow4 addr _ _ _ := (negb (String.eqb addr "late"), None);
  listenerAddress := "local";
|}.

Section Signatures.
Context `{CL : CommsLib}.

Fixpoint mapO {A B} (f : A -> outcome B) (l : list A) : outcome (list B) :=
  match l with
  | [] => Ok []
  | x :: l' => y ← f x; ys ← mapO f l'; Ok (y :: ys)
  end.

(** x509.SHA512WithRSAPSS is 15; 0 is unknown. *)
Definition validateSignature (data : string) (sig : Signature.t) : outcome (SignatureInfo.t Cert) :=
  certs ← mapO parseCertificate (Signature.Certificate sig);
  let alg := if ((0 <? Signature.Algorithm sig) && (Signature.Algorithm sig <=? 15))%Z
             then Signature.Algorithm sig else 0%Z in
  if (alg =? 0)%Z then Ok (SignatureInfo.Mk certs alg false)
  else match certs with
       | [] => Crash "index out of range"
       | c :: _ => Ok (SignatureInfo.Mk certs alg (checkSignature c alg data (Signature.Sig sig)))
       end.

Definition ValidateWrappedContactData (wcd : WrappedContactData.t Signature.t) :
    outcome (list (SignatureInfo.t Cert)) :=
  mapO (validateSignature (WrappedContactData.ContactData wcd)) (WrappedContactData.Signatures wcd).
End Signatures.

(** ** Connections: src/server/comms/comms.go *)
Module ClientInfo.
Record t {Key : Type} := Mk {
  ID : ClientID.t;
  Key : Key;
  Labels : list Label.t;
  Blacklisted : bool;
  Cached : bool;
}.
Arguments t : clear implicits.
Arguments Mk {Key}.
End ClientInfo.

Module ConnectionInfo.
Record t {Key : Type} := Mk {
  Addr : string;
  Client : ClientInfo.t Key;
  ContactID : ContactID;
  NonceSent : Z;
  NonceReceived : Z;
  Auth : AuthClientInfo.t;
  messageTokens : option (gmap string Z);
  (** The channel registered for a streaming connection. *)
  Notices : option nat;
}.
Arguments t : clear implicits.
Arguments Mk {Key}.

Section Tokens.
Context {Key : Type}.

Definition setTokens (v : option (gmap string Z)) (i : t Key) : t Key :=
  Mk (Addr i) (Client i) (ContactID i) (NonceSent i) (NonceReceived i) (Auth i) v (Notices i).

Definition MessageTokens (i : t Key) : option (gmap string Z) := messageTokens i.

Definition AddMessageTokens (delta : gmap string Z) (i : t Key) : t Key :=
  setTokens (Some (merge (fun v old =>
    match v with
    | Some v => Some (wrapU64 (default 0%Z old + v))
    | None => old
    end) delta (default ∅ (messageTokens i)))) i.

(** [log.Exitf] when there are not enough; assigning to a nil map panics. *)
Definition SubtractMessageTokens (delta : gmap string Z) (i : t Key) : outcome (t Key) :=
  let have := default ∅ (messageTokens i) in
  if decide (map_Exists (fun k v => (default 0 (have !! k) < v)%Z) delta) then
    Crash "Attempt to consume tokens"
  else if decide (messageTokens i = None /\ delta <> ∅) then Crash "assignment to nil map"
  else Ok (match messageTokens i with
           | None => i
           | Some _ => setTokens (Some (merge (fun v old =>
               match v with
               | Some v => Some (wrapU64 (default 0%Z old - v))
               | None => old
               end) delta have)) i
           end).
End Tokens.
End ConnectionInfo.

(** ** The server's side of a contact *)
Section Comms.
Context `{P : Platform} `{L : ProtoLib} `{AL : AnyLib} `{SL : ServiceLib} `{CL : CommsLib}.
Context {St : Type} `{SS : Store St}.

Abbreviation Server A := (M (World (Srv St)) A).
Abbreviation Connection := (ConnectionInfo.t PublicKey).
Abbreviation Wrapped := (WrappedContactData.t Signature.t).

(** binary.LittleEndian.Uint64. *)
Fixpoint littleEndian (s : string) : Z :=
  match s with
  | EmptyString => 0
  | String c s' => Z.of_N (N_of_ascii c) + 256 * littleEndian s'
  end.

Definition randUint64 : Server Z :=
  b ← randBytes 8;
  match b with
  | Some b => mret (littleEndian b)
  | None => crash "unable to read random bytes"
  end.

Definition getClientInfo (id : ClientID.t) : Server (option (ClientInfo.t PublicKey)) :=
  r ← try (onReads (GetOrRead id));
  match r with
  | inr e => if stIsNotFound e then mret None else fail e
  | inl (cld, cacheHit) =>
      k ← lift (parseKey (ClientData.Key cld));
      mret (Some (ClientInfo.Mk id k (ClientData.Labels cld) (ClientData.Blacklisted cld) cacheHit))
  end.

Definition addClient (id : ClientID.t) (key : PublicKey) : Server unit :=
  k ← lift (marshalKey key);
  onDb (stAddClient id (ClientData.Mk (Some k) [] false)).

Definition isSpecialMessageToAck (m : Message.t) : bool :=
  String.eqb (Message.MessageType m) "Die" &&
  match Message.Destination m with
  | Some dst => String.eqb (Address.ServiceName dst) "system"
  | None => false
  end.

(** [cnts]: what each service is charged; [uint64] counters. *)
Definition countTokens (msgs : list Message.t) : outcome (gmap string Z) :=
  foldO (fun cnts m =>
    if isSpecialMessageToAck m then Ok cnts
    else match Message.Destination m with
         | None => Crash "nil Destination"
         | Some dst =>
             let svc := Address.ServiceName dst in
             Ok (<[svc := wrapU64 (default 0%Z (cnts !! svc) + 1)]> cnts)
         end) msgs ∅.

(** Charges the connection for the messages found. *)
Definition consumeTokens (info : Connection) (msgs : list Message.t) : outcome Connection :=
  match ConnectionInfo.MessageTokens info with
  | None => Ok info
  | Some _ => cnts ← countTokens msgs; ConnectionInfo.SubtractMessageTokens cnts info
  end.

Definition rekeyRequest (mid : MessageID.t) (id : ClientID.t) (t : Timestamp.t) : Message.t :=
  Message.Mk (MessageID.Bytes mid) (Some (Address.Mk None "system")) false None
    (Some (Address.Mk (ClientID.Bytes id) "system")) "RekeyRequest" (Some t) None None None
    Message.MEDIUM false None.

Definition MakeBlacklistMessage (info : ClientInfo.t PublicKey) (contact : ContactID) :
    Server Message.t :=
  mid ← orFailM MessageID.RandomMessageID (ErrText "unable to create message id");
  t ← NowProto;
  let msg := rekeyRequest mid (ClientInfo.ID info) t in
  orFailM (onDb (stStoreMessages [msg] contact)) (ErrText "unable to store RekeyRequest") ≫= fun _ =>
  mret msg.

(** Links the messages to the contact and acknowledges the special ones. *)
Definition linkFound (info : Connection) (msgs : list Message.t) : Server unit :=
  if decide (msgs = []) then mret tt
  else
    mids ← mapMs (fun m => lift (MessageID.BytesToMessageID (Message.MessageId m))) msgs;
    let special := omap (fun mm => if isSpecialMessageToAck mm.1 then Some mm.2 else None)
                        (zip msgs mids) in
    onDb (stLinkMessagesToContact (ConnectionInfo.ContactID info) mids) ≫= fun _ =>
    forM_ special (fun id =>
      t ← NowProto;
      onDb (stSetMessageResult (ClientInfo.ID (ConnectionInfo.Client info)) id (processed t))).

Definition findMessagesForClient (info : Connection) : Server (Connection * list Message.t) :=
  let client := ConnectionInfo.Client info in
  if ClientInfo.Blacklisted client then
    m ← MakeBlacklistMessage client (ConnectionInfo.ContactID info);
    mret (info, [m])
  else
    msgs ← onDb (stClientMessagesForProcessing (ClientInfo.ID client) 100
                   (ConnectionInfo.MessageTokens info));
    info' ← lift (consumeTokens info msgs);
    bms ← (if ClientInfo.Cached client then mret []
           else onBroadcasts (MakeBroadcastMessagesForClient (ClientInfo.ID client)
                                (ClientInfo.Labels client)));
    linkFound info (msgs ++ bms) ≫= fun _ =>
    mret (info', msgs ++ bms).

(** *** Messages from the client *)
Definition validateMessageFromClient (id : ClientID.t) (vi : option ValidationInfo.t)
    (m : Message.t) : outcome Message.t :=
  match Message.Destination m with
  | None => Err (ErrText "message must have Destination")
  | Some dst =>
      match Address.ClientId dst with
      | Some _ => Err (ErrText "cannot send a message directly to another client")
      | None =>
          match Message.Source m with
          | None => Err (ErrText "message must have a source with a ServiceName")
          | Some src =>
              if String.eqb (Address.ServiceName src) "" then
                Err (ErrText "message must have a source with a ServiceName")
              else match Message.SourceMessageId m with
              | None => Err (ErrText "source message id cannot be empty")
              | Some smid =>
                  let src := Address.Mk (ClientID.Bytes id) (Address.ServiceName src) in
                  Ok (Message.setMessageId
                        (MessageID.Bytes (MessageID.MakeMessageID (Address.ClientId src)
                           (Address.ServiceName src) (Some smid)))
                        (Message.setValidationInfo vi (Message.setSource (Some src) m)))
              end
          end
      end
  end.

(** The valid messages; the others are logged and dropped. *)
Definition validMessages (id : ClientID.t) (vi : option ValidationInfo.t) (ms : list Message.t) :
    list Message.t :=
  omap (fun m => match validateMessageFromClient id vi m with Ok m' => Some m' | _ => None end) ms.

Definition serviceName (m : Message.t) : string :=
  match Message.Destination m with Some dst => Address.ServiceName dst | None => "" end.

Definition splitByService (ms : list Message.t) : gmap string (list Message.t) :=
  foldl (fun g m => <[serviceName m := default [] (g !! serviceName m) ++ [m]]> g) ∅ ms.

(** One turn of the loop over the services: what is left for single handling. *)
Definition dispatchService (unbatched : list Message.t) (sm : string * list Message.t) :
    Server (list Message.t) :=
  if String.eqb sm.1 "" then mret unbatched
  else
    b ← ShouldProcessMessageBatches sm.1;
    if (b : bool) then ProcessMessageBatch sm.1 sm.2 ≫= fun _ => mret unbatched
    else mret (unbatched ++ sm.2).

Definition midLe (m1 m2 : Message.t) : Prop :=
  strLe (contents (Message.MessageId m1)) (contents (Message.MessageId m2)).
#[export] Instance midLe_dec : RelDecision midLe.
Proof. intros m1 m2. unfold midLe. apply _. Defined.

(** The loop over chunks.  Every turn but the last drops ten messages, so as
    many turns as there are messages are enough; with no turn left the list is
    empty and the last call is made. *)
Fixpoint handleChunks (turns : nat) (msgs : list Message.t) (contact : ContactID) : Server unit :=
  match turns with
  | O => HandleNewMessages msgs contact
  | S turns =>
      if decide (length msgs <= processingChunkSize) then HandleNewMessages msgs contact
      else
        HandleNewMessages (take processingChunkSize msgs) contact ≫= fun _ =>
        handleChunks turns (drop processingChunkSize msgs) contact
  end.

Definition handleMessagesFromClient (info : ClientInfo.t PublicKey) (contact : ContactID)
    (received : ContactData.t) (vi : option ValidationInfo.t) : Server unit :=
  let msgs := validMessages (ClientInfo.ID info) vi (ContactData.Messages received) in
  if decide (msgs = []) then mret tt
  else
    groups ← rangeMap (splitByService msgs);
    unbatched ← foldM dispatchService groups [];
    sorted ← interact (fun n => Ok (merge_sort midLe (tieBreak n Message.t unbatched)));
    handleChunks (length sorted) sorted contact.

(** [wcd.ContactData] parsed, of at most 100 messages. *)
Definition parseContactData (wcd : Wrapped) : Server ContactData.t :=
  cd ← orFail (unmarshalContactData (WrappedContactData.ContactData wcd))
         (ErrText "unable to parse contact_data");
  if decide (maxMessagesPerContact < length (ContactData.Messages cd)) then
    fail (ErrText "contact_data contains too many messages")
  else mret cd.

Definition contactInfo (id : ClientID.t) (wcd : Wrapped) : ContactInfo.t :=
  ContactInfo.Mk id (String.length (WrappedContactData.ContactData wcd))
    (WrappedContactData.ClientLabels wcd).

Definition ValidateMessagesFromClient (info : Connection) (wcd : Wrapped) :
    Server (option ValidationInfo.t) :=
  sigs ← lift (ValidateWrappedContactData wcd);
  let '(accept, vi) := allow4 (ConnectionInfo.Addr info)
    (contactInfo (ClientInfo.ID (ConnectionInfo.Client info)) wcd) (ConnectionInfo.Auth info) sigs in
  if (accept : bool) then mret vi else fail ErrNotAuthorized.

Definition HandleMessagesFromClient (info : Connection) (wcd : Wrapped) : Server Connection :=
  vi ← ValidateMessagesFromClient info wcd;
  cd ← parseContactData wcd;
  let info := ConnectionInfo.AddMessageTokens (ContactData.AllowedMessages cd) info in
  handleMessagesFromClient (ConnectionInfo.Client info) (ConnectionInfo.ContactID info) cd vi ≫= fun _ =>
  mret info.

(** None when there is nothing to send. *)
Definition GetMessagesForClient (info : Connection) :
    Server (Connection * option ContactData.t * bool) :=
  r ← findMessagesForClient info;
  if decide (r.2 = []) then mret (r.1, None, false)
  else mret (r.1, Some (ContactData.Mk (ConnectionInfo.NonceSent info) r.2 None ∅),
             bool_decide (length r.2 = maxMessagesPerContact)).

(** *** The first contact of a connection *)

(** A client the datastore does not know: its key and labels are stored. *)
Definition registerClient (id : ClientID.t) (key : PublicKey) (labels : list string) :
    Server (ClientInfo.t PublicKey) :=
  addClient id key ≫= fun _ =>
  forM_ labels (fun l => try (onDb (stAddClientLabel id (Label.Mk "client" l))) ≫= fun _ => mret tt) ≫= fun _ =>
  mret (ClientInfo.Mk id key (Label.Mk "client" <$> labels) false false).

Definition InitializeConnection (addr : string) (key : PublicKey) (wcd : Wrapped) (streaming : bool) :
    Server (Connection * ContactData.t * bool) :=
  id ← lift (ClientID.MakeClientID marshalKey key);
  let contact := contactInfo id wcd in
  if negb (allow2 addr contact) then fail ErrNotAuthorized
  else
    ci ← getClientInfo id;
    let auth := AuthClientInfo.Mk (negb (bool_decide (is_Some ci)))
                  (match ci with Some ci => ClientInfo.Labels ci | None => [] end) in
    if negb (allow3 addr contact auth) then fail ErrNotAuthorized
    else
      client ← match ci with
               | Some ci => mret ci
               | None => registerClient id key (WrappedContactData.ClientLabels wcd)
               end;
      let auth := AuthClientInfo.Mk (AuthClientInfo.New auth) (ClientInfo.Labels client) in
      sigs ← lift (ValidateWrappedContactData wcd);
      let '(accept, vi) := allow4 addr contact auth sigs in
      if negb accept then fail ErrNotAuthorized
      else
        cd ← parseContactData wcd;
        nonce ← randUint64;
        contactID ← onDb (stRecordClientContact
          (DbContactData.Mk id nonce (ContactData.SequencingNonce cd) addr (ContactData.ClientClock cd)
             (if streaming then listenerAddress else ""%string) (ClientInfo.Labels client)));
        let info := ConnectionInfo.Mk addr client contactID nonce (ContactData.SequencingNonce cd)
                      auth None None in
        let info := if decide (ContactData.AllowedMessages cd = ∅) then info
                    else ConnectionInfo.AddMessageTokens (ContactData.AllowedMessages cd) info in
        handleMessagesFromClient client contactID cd vi ≫= fun _ =>
        ch ← (if streaming then c ← onDispatcher (Register id); mret (Some c) else mret None);
        r ← try (findMessagesForClient info);
        match r with
        | inr e =>
            match ch with
            | Some c => onDispatcher (fin id c)
            | None => mret tt
            end ≫= fun _ => fail e
        | inl (info, msgs) =>
            mret (ConnectionInfo.Mk addr (ConnectionInfo.Client info) contactID nonce
                    (ConnectionInfo.NonceReceived info)
                    (AuthClientInfo.Mk false (AuthClientInfo.Labels auth))
                    (ConnectionInfo.messageTokens info) ch,
                  ContactData.Mk nonce msgs None ∅,
                  bool_decide (length msgs = maxMessagesPerContact))
        end.

(** [fileStores] holds the stores configured for single services. *)
Definition ReadServiceFile (fileStores : string -> option (string -> string -> Server (string * Z)))
    (service name : string) : Server (string * Z) :=
  match fileStores service with
  | Some f => f service name
  | None => onDb (stReadFile service name)
  end.
End Comms.

(** ** Message tokens *)

(** What the server asks of the store's delivery: messages are addressed, and
    no service gets more than its budget. *)
Class MessageSourceOK (St : Type) `{SS : Store St} : Prop := {
  source_dest id lim sl w msgs w' m :
    stClientMessagesForProcessing id lim sl w = (Ok msgs, w') -> m ∈ msgs ->
    is_Some (Message.Destination m);
  source_limits id lim s w msgs w' :
    stClientMessagesForProcessing id lim (Some s) w = (Ok msgs, w') ->
    (forall svc, 0 <= limitOf s svc <= u64_max)%Z ->
    forall svc, (countTo svc msgs <= limitOf s svc)%Z;
}.

Section SqliteSource.
Context `{P : Platform} `{L : ProtoLib} `{F : FloatConv}.

Lemma takeRows_dest lim sl rows read res w out w' :
  (forall m, m ∈ res -> is_Some (Message.Destination m)) ->
  takeRows lim sl rows read res w = (Ok out, w') ->
  forall m, m ∈ out -> is_Some (Message.Destination m).
Proof.
  revert read res w. induction rows as [|dbm rows IH]; intros read res w Hres E; simpl in E.
  { by apply ret_Ok in E as [<- _]. }
  destruct (match sl with Some _ => _ | None => _ end); [by eapply IH|].
  apply bind_Ok in E as (m & w1 & E1 & E). unfold takeRow in E1.
  apply bind_Ok in E1 as (t & w2 & _ & E1). apply bind_Ok in E1 as (? & w3 & _ & E1).
  apply lift_Ok in E1 as [Hm _]. apply toMessageProto_dest, mk_is_Some, fmap_is_Some in Hm.
  assert (Hres' : forall x, x ∈ res ++ [m] -> is_Some (Message.Destination x)).
  { intros z [Hz|Hx%list_elem_of_singleton]%elem_of_app; [by apply Hres|by subst]. }
  destruct (_ <=? _)%Z; [by apply ret_Ok in E as [<- _]|by eapply IH].
Qed.

#[export] Instance sqliteMessageSource : MessageSourceOK Db.
Proof.
  assert (Hrun : forall id lim sl w msgs w', stClientMessagesForProcessing id lim sl w = (Ok msgs, w') ->
    exists rows w1 w2, takeRows lim sl rows ∅ [] w1 = (Ok msgs, w2)).
  { intros id lim sl w msgs w' E. simpl in E. unfold ClientMessagesForProcessing in E.
    case_decide; [done|]. apply runInTx_Ok in E as (_ & w1 & E & _ & ->).
    apply bind_Ok in E as (dest & w2 & _ & E). apply bind_Ok in E as (t & w3 & _ & E).
    apply bind_Ok in E as (rows & w4 & _ & E). by eexists _, _, _. }
  split.
  - intros id lim sl w msgs w' m (rows & w1 & w2 & E)%Hrun. eapply takeRows_dest; [|exact E].
    by intros x ?%not_elem_of_nil.
  - intros id lim s w msgs w' (rows & w1 & w2 & E)%Hrun Hs.
    eapply takeRows_limits; [intros svc; apply Hs| |exact E].
    intros svc. rewrite lookup_empty. unfold countTo. simpl. specialize (Hs svc). lia.
Qed.
End SqliteSource.

Section Tokens.
Context `{CL : CommsLib}.

(** The counts are [uint64]s. *)
Definition tokensOK (s : gmap string Z) : Prop := forall svc, (0 <= limitOf s svc <= u64_max)%Z.

(** The messages to a service that cost a token. *)
Definition charged (svc : string) (msgs : list Message.t) : Z :=
  countTo svc (filter (fun m => isSpecialMessageToAck m = false) msgs).

Lemma countTo_filter_le svc msgs : (charged svc msgs <= countTo svc msgs)%Z.
Proof.
  unfold charged, countTo. rewrite list_filter_filter.
  induction msgs as [|m msgs IH]; [done|]. rewrite !filter_cons.
  repeat case_decide; simpl; try lia; naive_solver.
Qed.

Lemma charged_snoc svc msgs m s :
  Address.ServiceName <$> Message.Destination m = Some s ->
  charged svc (msgs ++ [m]) =
    (charged svc msgs + if isSpecialMessageToAck m then 0 else if decide (s = svc) then 1 else 0)%Z.
Proof.
  intros Hm. unfold charged. rewrite filter_app, filter_cons, filter_nil.
  destruct (isSpecialMessageToAck m); simpl; [by rewrite app_nil_r, Z.add_0_r|by apply countTo_snoc].
Qed.

Lemma charged_nonneg svc msgs : (0 <= charged svc msgs)%Z.
Proof. unfold charged, countTo. lia. Qed.

Lemma charged_app_le svc l k : (charged svc l <= charged svc (l ++ k))%Z.
Proof. unfold charged, countTo. rewrite !filter_app, length_app. lia. Qed.

(** No counter wraps. *)
Lemma countTokens_Ok msgs :
  (forall m, m ∈ msgs -> is_Some (Message.Destination m)) ->
  (forall svc, charged svc msgs <= u64_max)%Z ->
  exists cnts, countTokens msgs = Ok cnts /\
    forall svc, default 0%Z (cnts !! svc) = charged svc msgs.
Proof.
  intros Hdst Hmax. unfold countTokens.
  assert (Hgen : forall post pre (cnts : gmap string Z), msgs = pre ++ post ->
    (forall svc, default 0%Z (cnts !! svc) = charged svc pre) ->
    exists cnts', foldO (fun cnts m =>
      if isSpecialMessageToAck m then Ok cnts
      else match Message.Destination m with
           | None => Crash "nil Destination"
           | Some dst => Ok (<[Address.ServiceName dst :=
               wrapU64 (default 0%Z (cnts !! Address.ServiceName dst) + 1)]> cnts)
           end) post cnts = Ok cnts' /\ forall svc, default 0%Z (cnts' !! svc) = charged svc msgs).
  { induction post as [|m post IH]; intros pre cnts Hm Hc; simpl.
    { exists cnts. split; [done|]. by rewrite app_nil_r in Hm; subst. }
    destruct (Hdst m) as [dst Hd]; [rewrite Hm; apply elem_of_app; right; by left|].
    assert (Hs : Address.ServiceName <$> Message.Destination m = Some (Address.ServiceName dst)) by (by rewrite Hd).
    assert (Hm' : msgs = (pre ++ [m]) ++ post) by (by rewrite <- app_assoc).
    pose proof (charged_snoc (Address.ServiceName dst) pre m _ Hs) as Hone.
    rewrite decide_True in Hone by done.
    destruct (isSpecialMessageToAck m) eqn:Hsp; simpl.
    - apply (IH (pre ++ [m])); [done|]. intros svc. rewrite (charged_snoc _ _ _ _ Hs), Hsp, Hc. lia.
    - rewrite Hd. simpl. apply (IH (pre ++ [m])); [done|]. intros svc.
      rewrite (charged_snoc _ _ _ _ Hs), Hsp, lookup_insert. case_decide as He; [subst svc|rewrite Hc; lia].
      simpl. rewrite Hc, wrapU64_small; [done|].
      pose proof (charged_nonneg (Address.ServiceName dst) pre).
      pose proof (charged_app_le (Address.ServiceName dst) (pre ++ [m]) post).
      specialize (Hmax (Address.ServiceName dst)). rewrite Hm' in Hmax.
      unfold isU64, u64_max in *. lia. }
  apply (Hgen msgs [] ∅); [done|]. intros svc. by rewrite lookup_empty.
Qed.

Lemma AddMessageTokens_tokensOK delta (i : ConnectionInfo.t PublicKey) :
  tokensOK (default ∅ (ConnectionInfo.messageTokens i)) ->
  tokensOK (default ∅ (ConnectionInfo.messageTokens (ConnectionInfo.AddMessageTokens delta i))).
Proof.
  intros H svc. simpl. unfold limitOf. rewrite lookup_merge. specialize (H svc). unfold limitOf in H.
  destruct (delta !! svc) as [v|]; simpl; [|by destruct (_ !! svc)].
  pose proof (wrapU64_range (default 0%Z (default ∅ (ConnectionInfo.messageTokens i) !! svc) + v)) as Hr.
  unfold isU64, u64_max in *. destruct (_ !! svc); simpl in *; lia.
Qed.
End Tokens.

Section ConsumeTokens.
Context `{P : Platform} `{L : ProtoLib} `{CL : CommsLib} {St : Type} `{SS : Store St} `{MS : !MessageSourceOK St}.

(** C19: charging a connection for the messages the store handed out never
    ends in the fatal "Attempt to consume" and never wraps: the budgets the
    store was given are the connection's own counts, and each service's count
    goes down by the number of its messages, "Die" messages of the system
    apart, which are free. *)
Theorem consume_tokens_safe (info : ConnectionInfo.t PublicKey) s id lim w msgs w' :
  ConnectionInfo.MessageTokens info = Some s -> tokensOK s ->
  stClientMessagesForProcessing (St := St) id lim (ConnectionInfo.MessageTokens info) w = (Ok msgs, w') ->
  exists s', consumeTokens info msgs = Ok (ConnectionInfo.setTokens (Some s') info) /\
    tokensOK s' /\ forall svc, limitOf s svc = (limitOf s' svc + charged svc msgs)%Z.
Proof using MS.
  intros Hs Hok E. rewrite Hs in E.
  assert (Hle : forall svc, (charged svc msgs <= limitOf s svc)%Z).
  { intros svc. pose proof (source_limits _ _ _ _ _ _ E Hok svc). pose proof (countTo_filter_le svc msgs). lia. }
  destruct (countTokens_Ok msgs) as (cnts & Ec & Hc).
  { intros m. by eapply source_dest. }
  { intros svc. specialize (Hle svc). specialize (Hok svc). lia. }
  unfold consumeTokens. rewrite Hs, Ec. simpl. unfold ConnectionInfo.SubtractMessageTokens.
  change (ConnectionInfo.MessageTokens info) with (ConnectionInfo.messageTokens info) in Hs.
  rewrite Hs. cbn [default].
  rewrite decide_False.
  2:{ intros (k & v & Hv & Hlt). specialize (Hc k). rewrite Hv in Hc. simpl in Hc. specialize (Hle k).
      unfold limitOf in Hle. simpl in Hlt. lia. }
  rewrite decide_False by (by intros [? _]).
  eexists. split; [reflexivity|].
  assert (Hnew : forall svc, limitOf (merge (fun v old => match v with
      | Some v => Some (wrapU64 (default 0%Z old - v)) | None => old end) cnts s) svc =
      (limitOf s svc - charged svc msgs)%Z).
  { intros svc. unfold limitOf at 1. rewrite lookup_merge. specialize (Hc svc). specialize (Hle svc).
    specialize (Hok svc). pose proof (charged_nonneg svc msgs).
    destruct (cnts !! svc) as [v|]; simpl in Hc.
    - subst v. assert (Hw : wrapU64 (default 0%Z (s !! svc) - charged svc msgs) = (limitOf s svc - charged svc msgs)%Z)
        by (apply wrapU64_small; unfold isU64, u64_max, limitOf in *; lia).
      destruct (s !! svc); simpl in *; by rewrite Hw.
    - unfold limitOf. destruct (s !! svc); simpl; lia. }
  split; intros svc; rewrite Hnew; specialize (Hle svc); specialize (Hok svc);
    pose proof (charged_nonneg svc msgs); lia.
Qed.
End ConsumeTokens.

(** ** Messages from clients *)
Section FromClient.
Context `{P : Platform} {HP : PlatformOK P} `{L : ProtoLib} `{AL : AnyLib} `{SL : ServiceLib} `{CL : CommsLib}.
Context {St : Type} `{SS : Store St}.

Abbreviation SrvWorld := (World (Srv St)).

(** The chunks [handleChunks] hands over, whatever becomes of them. *)
Lemma handleChunks_chunks turns msgs contact (w : SrvWorld) :
  length msgs <= turns ->
  exists chunks, concat chunks = msgs /\
    Forall (fun c => length c <= processingChunkSize) chunks /\
    handleChunks turns msgs contact w =
      forM_ chunks (fun c => HandleNewMessages c contact) w.
Proof.
  assert (Hone : forall ms (v : SrvWorld),
    HandleNewMessages ms contact v = forM_ [ms] (fun c => HandleNewMessages c contact) v).
  { intros ms v. simpl. unfold mbind, M_bind. by destruct (HandleNewMessages ms contact v) as [[[]| |] ?]. }
  revert msgs w. induction turns as [|turns IH]; intros msgs w Hl; simpl.
  { exists [msgs]. split; [apply app_nil_r|]. split; [|apply Hone].
    constructor; [unfold processingChunkSize; lia|constructor]. }
  case_decide as Hd.
  { exists [msgs]. split; [apply app_nil_r|]. split; [|apply Hone]. by constructor. }
  unfold mbind at 1, M_bind at 1.
  destruct (HandleNewMessages (take processingChunkSize msgs) contact w) as [r w1] eqn:E.
  destruct (IH (drop processingChunkSize msgs) w1) as (chunks & Hc & Hall & Heq).
  { rewrite length_drop. unfold processingChunkSize in *. lia. }
  exists (take processingChunkSize msgs :: chunks). split; [|split].
  - simpl. by rewrite Hc, take_drop.
  - constructor; [|done]. rewrite length_take. lia.
  - simpl. unfold mbind, M_bind. rewrite E. by destruct r as [[]| |].
Qed.

Definition keptBy (keep : string -> bool) (groups : list (string * list Message.t)) : list Message.t :=
  concat ((fun sm => if keep sm.1 then sm.2 else []) <$> groups).

#[local] Instance keptBy_perm keep : Proper (Permutation ==> Permutation) (keptBy keep).
Proof. intros l k H. unfold keptBy. by rewrite H. Qed.

(** Grouping by service loses and repeats nothing. *)
Lemma splitByService_kept keep ms :
  keptBy keep (map_to_list (splitByService ms)) ≡ₚ filter (fun m => keep (serviceName m) = true) ms.
Proof.
  induction ms as [|m ms IH] using rev_ind; [done|].
  unfold splitByService. rewrite foldl_app. simpl. fold (splitByService ms).
  rewrite filter_app, filter_cons, filter_nil, <- IH.
  set (g := splitByService ms). set (svc := serviceName m).
  rewrite <- insert_delete_eq, map_to_list_insert by apply lookup_delete_eq.
  assert (Hsplit : map_to_list g ≡ₚ (match g !! svc with Some old => [(svc, old)] | None => [] end)
    ++ map_to_list (delete svc g)).
  { destruct (g !! svc) as [old|] eqn:Hg; [|by rewrite delete_id].
    by rewrite <- map_to_list_delete with (i := svc) (x := old). }
  rewrite Hsplit. unfold keptBy. rewrite fmap_app, concat_app. simpl. fold svc.
  destruct (g !! svc) as [old|]; simpl; destruct (keep svc) eqn:Hk; simpl.
  - rewrite app_nil_r, <- !app_assoc. apply Permutation_app_head, Permutation_app_comm.
  - by rewrite app_nil_r.
  - apply Permutation_cons_append.
  - by rewrite app_nil_r.
Qed.

(** Taken by [HandleNewMessages] rather than as a batch or not at all. *)
Definition singly (S0 : gmap string liveService) (svc : string) : bool :=
  negb (String.eqb svc "") && negb (match S0 !! svc with Some l => isBatched l | None => false end).

(** Taken as a batch. *)
Definition inBatches (S0 : gmap string liveService) (svc : string) : bool :=
  negb (String.eqb svc "") && (match S0 !! svc with Some l => isBatched l | None => false end).

Lemma ProcessMessageBatch_services svc ms (w w' : SrvWorld) u :
  ProcessMessageBatch svc ms w = (Ok u, w') -> sServices (w_data w') = sServices (w_data w).
Proof.
  intros E. apply bind_Ok in E as (ls & v2 & E2 & E). apply gets_Ok in E2 as [<- <-].
  destruct (_ !! svc) as [l|]; [|by apply ret_Ok in E as [_ <-]]. destruct (isBatched l); [|done].
  apply bind_Ok in E as (x & v2 & E2 & E). apply interact_Ok in E2 as [_ ->]. by apply ret_Ok in E as [_ <-].
Qed.

(** The loop over the services is the calls with the batches, and keeps the rest. *)
Lemma dispatchAll_Ok groups un0 (w : SrvWorld) un w' :
  foldM dispatchService groups un0 w = (Ok un, w') ->
  sServices (w_data w') = sServices (w_data w) /\
  un = un0 ++ keptBy (singly (sServices (w_data w))) groups /\
  forM_ (filter (fun sm => inBatches (sServices (w_data w)) sm.1 = true) groups)
    (fun sm => ProcessMessageBatch sm.1 sm.2) w = (Ok tt, w').
Proof.
  revert un0 w. induction groups as [|[svc ms] groups IH]; intros un0 w E; simpl in E.
  { apply ret_Ok in E as [<- <-]. unfold keptBy. simpl. by rewrite app_nil_r. }
  apply bind_Ok in E as (un1 & w1 & E1 & E). apply IH in E as (HS & -> & Hf).
  unfold keptBy in *. rewrite filter_cons. simpl.
  assert (Hin : inBatches (sServices (w_data w)) svc =
    negb (String.eqb svc "") && (match sServices (w_data w) !! svc with Some l => isBatched l | None => false end)) by done.
  assert (Hsi : singly (sServices (w_data w)) svc =
    negb (String.eqb svc "") && negb (match sServices (w_data w) !! svc with Some l => isBatched l | None => false end)) by done.
  rewrite Hsi. unfold dispatchService in E1. simpl in E1.
  destruct (String.eqb svc "") eqn:He; simpl in Hin |- *.
  { apply ret_Ok in E1 as [<- <-]. by rewrite decide_False by congruence. }
  apply bind_Ok in E1 as (b & v1 & E0 & E1). apply bind_Ok in E0 as (ls & v2 & E0 & E2).
  apply gets_Ok in E0 as [<- <-]. apply ret_Ok in E2 as [<- <-].
  destruct (match sServices (w_data w) !! svc with Some l => isBatched l | None => false end) eqn:Hb; simpl.
  - apply bind_Ok in E1 as ([] & v1 & E0 & E1). apply ret_Ok in E1 as [<- <-].
    pose proof (ProcessMessageBatch_services _ _ _ _ _ E0) as HS1. rewrite HS1 in *.
    split; [done|]. split; [done|]. rewrite decide_True by done. simpl. by rewrite (bind_run _ _ _ tt v1 E0).
  - apply ret_Ok in E1 as [<- <-]. rewrite decide_False by congruence. split; [done|]. split; [|done]. by rewrite <- app_assoc.
Qed.

(** The groups: of each service its messages, in the order they came. *)
Lemma splitByService_lookup ms svc :
  splitByService ms !! svc =
    match filter (fun m => serviceName m = svc) ms with [] => None | l => Some l end.
Proof.
  induction ms as [|m ms IH] using rev_ind; [apply lookup_empty|].
  unfold splitByService. rewrite foldl_app. simpl. fold (splitByService ms).
  rewrite filter_app, filter_cons, filter_nil, lookup_insert.
  destruct (decide (serviceName m = svc)) as [<-|Hs]; [|by rewrite app_nil_r, IH].
  rewrite IH. by destruct (filter _ ms).
Qed.

(** The client can not choose who it is: source and message id are the
    server's. *)
Definition authentic (id : ClientID.t) (vi : option ValidationInfo.t) (m : Message.t) : Prop :=
  Message.ValidationInfo m = vi /\
  (exists dst, Message.Destination m = Some dst /\ Address.ClientId dst = None) /\
  exists svc smid, Message.Source m = Some (Address.Mk (ClientID.Bytes id) svc) /\ svc <> ""%string /\
    Message.SourceMessageId m = Some smid /\
    Message.MessageId m = MessageID.Bytes (MessageID.MakeMessageID (ClientID.Bytes id) svc (Some smid)).

Lemma validMessages_authentic id vi ms m : m ∈ validMessages id vi ms -> authentic id vi m.
Proof.
  intros (m0 & _ & E)%list_elem_of_omap. unfold validateMessageFromClient in E.
  destruct (Message.Destination m0) as [dst|] eqn:Hd; [|done].
  destruct (Address.ClientId dst) eqn:Hc; [done|].
  destruct (Message.Source m0) as [src|]; [|done].
  destruct (String.eqb_spec (Address.ServiceName src) "") as [|Hn]; [done|].
  destruct (Message.SourceMessageId m0) as [smid|] eqn:Hsm; [|done].
  injection E as <-. split; [done|]. split; [by exists dst|].
  by exists (Address.ServiceName src), smid.
Qed.

#[local] Instance midLe_total : Total midLe.
Proof. intros m1 m2. unfold midLe. apply strLe_total. Qed.
#[local] Instance midLe_trans : Transitive midLe.
Proof. intros m1 m2 m3. unfold midLe. by transitivity (contents (Message.MessageId m2)). Qed.

(** C17: what a client sends is passed on only under the client's own id, with
    a message id computed from it, and only to services: invalid messages are
    dropped, and when there is no other nothing happens.  First the services that
    take batches are given theirs, each one once: all of its valid messages, in
    the order they came.  Then all the other messages that name a service, each
    exactly once, are handed to [HandleNewMessages] in the order of their ids, in
    chunks of at most ten.  Nothing else is done: the calls start on the state
    that the messages came in, and where they end is where it ends. *)
Theorem handle_messages_from_client_spec info contact cd vi (w w' : SrvWorld) :
  handleMessagesFromClient info contact cd vi w = (Ok tt, w') ->
  let valid := validMessages (ClientInfo.ID info) vi (ContactData.Messages cd) in
  (forall m, m ∈ valid -> authentic (ClientInfo.ID info) vi m) /\
  ((valid = [] /\ w' = w) \/
   exists batches w1 chunks,
     NoDup batches.*1 /\
     (forall svc ms, (svc, ms) ∈ batches <->
        inBatches (sServices (w_data w)) svc = true /\ ms <> [] /\ ms = filter (fun m => serviceName m = svc) valid) /\
     forM_ batches (fun sm => ProcessMessageBatch sm.1 sm.2) (mkWorld (w_data w) (S (w_step w))) = (Ok tt, w1) /\
     concat chunks ≡ₚ filter (fun m => singly (sServices (w_data w)) (serviceName m) = true) valid /\
     StronglySorted midLe (concat chunks) /\
     Forall (fun c => length c <= processingChunkSize) chunks /\
     forM_ chunks (fun c => HandleNewMessages c contact) (mkWorld (w_data w1) (S (w_step w1))) = (Ok tt, w')).
Proof using HP.
  intros E. cbv zeta. split; [intros m; apply validMessages_authentic|].
  unfold handleMessagesFromClient in E. set (valid := validMessages _ _ _) in *.
  case_decide as Hnil; [apply ret_Ok in E as [_ <-]; by left|]. right.
  apply bind_Ok in E as (groups & w1 & E1 & E). apply interact_Ok in E1 as [[= <-] ->].
  apply bind_Ok in E as (un & w2 & E1 & E). apply dispatchAll_Ok in E1 as (_ & Hun & Hf).
  apply bind_Ok in E as (sorted & w3 & E1 & E). apply interact_Ok in E1 as [[= <-] ->].
  simpl in Hun, Hf.
  assert (Hperm : merge_sort midLe (tieBreak (w_step w2) Message.t un) ≡ₚ
    filter (fun m => singly (sServices (w_data w)) (serviceName m) = true) valid).
  { rewrite merge_sort_Permutation, tieBreak_perm, Hun, deliver_perm. apply splitByService_kept. }
  destruct (handleChunks_chunks (length (merge_sort midLe (tieBreak (w_step w2) Message.t un)))
    (merge_sort midLe (tieBreak (w_step w2) Message.t un)) contact
    (mkWorld (w_data w2) (S (w_step w2))) ltac:(lia)) as (chunks & Hc & Hall & Heq).
  eexists _, w2, chunks. rewrite Hc. split; [|split; [|split; [exact Hf|split; [exact Hperm|]]]].
  - eapply sublist_NoDup; [|apply fmap_sublist, sublist_filter]. rewrite deliver_perm. apply NoDup_fst_map_to_list.
  - intros svc ms. rewrite list_elem_of_filter, deliver_perm, elem_of_map_to_list, splitByService_lookup. simpl.
    destruct (filter (fun m => serviceName m = svc) valid) as [|x l].
    + split; [by intros [_ [=]]|by intros (_ & Hn & ->)].
    + split; [by intros [Hb [= <-]]|by intros (Hb & _ & ->)].
  - split; [apply StronglySorted_merge_sort; apply _|]. split; [done|]. by rewrite <- Heq.
Qed.
End FromClient.

(** ** The first contact *)
Section Initialize.
Context `{P : Platform} `{L : ProtoLib} `{AL : AnyLib} `{SL : ServiceLib} `{CL : CommsLib}.
Context {St : Type} `{SS : Store St}.

Abbreviation SrvWorld := (World (Srv St)).

Lemma getClientInfo_Ok id (w : SrvWorld) ci w' :
  getClientInfo id w = (Ok (Some ci), w') -> ClientInfo.ID ci = id.
Proof.
  intros E. apply bind_Ok in E as ([[cld hit]|e] & w1 & _ & E).
  - apply bind_Ok in E as (k & w2 & _ & E). by apply ret_Ok in E as [[= <-] _].
  - destruct (stIsNotFound e); [by apply ret_Ok in E as [[=] _]|by apply fail_Ok in E].
Qed.

Lemma registerClient_Ok id key labels (w : SrvWorld) ci w' :
  registerClient id key labels w = (Ok ci, w') -> ClientInfo.ID ci = id.
Proof.
  intros E. apply bind_Ok in E as (? & w1 & _ & E). apply bind_Ok in E as (? & w2 & _ & E).
  by apply ret_Ok in E as [<- _].
Qed.

Lemma findMessagesForClient_Ok info (w : SrvWorld) info' msgs w' :
  findMessagesForClient info w = (Ok (info', msgs), w') ->
  exists v, info' = ConnectionInfo.setTokens v info.
Proof.
  intros E. unfold findMessagesForClient in E.
  assert (Hid : info = ConnectionInfo.setTokens (ConnectionInfo.messageTokens info) info) by (by destruct info).
  destruct (ClientInfo.Blacklisted _).
  { apply bind_Ok in E as (m & w1 & _ & E). apply ret_Ok in E as [[= <- _] _]. by eexists. }
  apply bind_Ok in E as (ms & w1 & _ & E). apply bind_Ok in E as (i & w2 & E1 & E).
  apply lift_Ok in E1 as [E1 _]. apply bind_Ok in E as (bms & w3 & _ & E).
  apply bind_Ok in E as (? & w4 & _ & E). apply ret_Ok in E as [[= <- _] _].
  unfold consumeTokens in E1. destruct (ConnectionInfo.MessageTokens info); [|injection E1 as <-; by eexists].
  apply outcome_bind_Ok in E1 as (cnts & _ & E1). unfold ConnectionInfo.SubtractMessageTokens in E1.
  repeat (case_decide; [done|]). injection E1 as <-.
  destruct (ConnectionInfo.messageTokens info); [by eexists|]. by eexists.
Qed.

Lemma parseContactData_Ok wcd (w : SrvWorld) cd w' :
  parseContactData wcd w = (Ok cd, w') ->
  unmarshalContactData (WrappedContactData.ContactData wcd) = Ok cd /\
  length (ContactData.Messages cd) <= maxMessagesPerContact.
Proof.
  intros E. apply bind_Ok in E as (c & w1 & E1 & E). apply orFail_Ok in E1 as [E1 _].
  case_decide; [done|]. apply ret_Ok in E as [<- _]. split; [done|lia].
Qed.

(** C18: a connection is only set up for the client whose id is computed from
    the key it proved to hold, after each of the authorizer's checks has let it
    through, with the signatures of this very contact, and with at most a
    hundred messages; the nonce recorded is the one sent back, and a streaming
    connection has a notification channel.  A contact that fails the first
    check has no effect at all. *)
Theorem initialize_connection_spec addr key wcd streaming (w : SrvWorld) :
  (forall id, ClientID.MakeClientID marshalKey key = Ok id -> allow2 addr (contactInfo id wcd) = false ->
     InitializeConnection addr key wcd streaming w = (Err ErrNotAuthorized, w)) /\
  forall info d more w', InitializeConnection addr key wcd streaming w = (Ok (info, d, more), w') ->
    exists id sigs vi cd auth3 auth4, ClientID.MakeClientID marshalKey key = Ok id /\
      allow2 addr (contactInfo id wcd) = true /\ allow3 addr (contactInfo id wcd) auth3 = true /\
      ValidateWrappedContactData wcd = Ok sigs /\
      allow4 addr (contactInfo id wcd) auth4 sigs = (true, vi) /\
      AuthClientInfo.New auth4 = AuthClientInfo.New auth3 /\
      unmarshalContactData (WrappedContactData.ContactData wcd) = Ok cd /\
      length (ContactData.Messages cd) <= maxMessagesPerContact /\
      ClientInfo.ID (ConnectionInfo.Client info) = id /\
      ConnectionInfo.NonceSent info = ContactData.SequencingNonce d /\
      ConnectionInfo.NonceReceived info = ContactData.SequencingNonce cd /\
      AuthClientInfo.New (ConnectionInfo.Auth info) = false /\
      (is_Some (ConnectionInfo.Notices info) <-> streaming = true) /\
      (more = true <-> length (ContactData.Messages d) = maxMessagesPerContact).
Proof.
  split.
  { intros id Hid Ha. unfold InitializeConnection, mbind, M_bind, lift. by rewrite Hid, Ha. }
  intros info d more w' E. apply bind_Ok in E as (id & w1 & E1 & E). apply lift_Ok in E1 as [Hid <-].
  cbv zeta in E. destruct (allow2 addr (contactInfo id wcd)) eqn:H2; simpl in E; [|by apply fail_Ok in E].
  apply bind_Ok in E as (ci & w1 & Eci & E). destruct (allow3 _ _ _) eqn:H3; simpl in E; [|by apply fail_Ok in E].
  apply bind_Ok in E as (client & w2 & Ecl & E).
  assert (Hcl : ClientInfo.ID client = id).
  { destruct ci as [ci|]; [|by eapply registerClient_Ok].
    apply ret_Ok in Ecl as [<- _]. by eapply getClientInfo_Ok. }
  apply bind_Ok in E as (sigs & w3 & E1 & E). apply lift_Ok in E1 as [Hsigs <-].
  destruct (allow4 _ _ _ _) as [accept vi] eqn:H4. destruct accept; simpl in E; [|by apply fail_Ok in E].
  apply bind_Ok in E as (cd & w4 & E1 & E). apply parseContactData_Ok in E1 as [Hcd Hlen].
  apply bind_Ok in E as (nonce & w5 & _ & E). apply bind_Ok in E as (cid & w6 & _ & E).
  apply bind_Ok in E as (? & w7 & _ & E). apply bind_Ok in E as (ch & w8 & Ech & E).
  assert (Hch : is_Some ch <-> streaming = true).
  { destruct streaming.
    - apply bind_Ok in Ech as (c & w9 & _ & Ech). apply ret_Ok in Ech as [<- _]. by split; [|eexists].
    - apply ret_Ok in Ech as [<- _]. split; [by intros []|done]. }
  apply bind_Ok in E as ([[info' msgs]|e] & w9 & Ef & E).
  2:{ apply bind_Ok in E as (? & w10 & _ & E). by apply fail_Ok in E. }
  apply try_Ok, findMessagesForClient_Ok in Ef as [v ->]. apply ret_Ok in E as [[= <- <- <-] _].
  exists id, sigs, vi, cd. eexists _, _.
  split; [done|]. split; [done|]. split; [exact H3|]. split; [done|]. split; [exact H4|].
  split; [done|]. split; [done|]. split; [done|].
  split; [by case_decide|]. split; [done|]. split; [by case_decide|]. split; [done|].
  split; [exact Hch|]. simpl. by rewrite bool_decide_eq_true.
Qed.
End Initialize.

(** ** Witnesses *)

(** A connection of [exampleClientID] with two tokens for "svc". *)
Definition sampleConnection : ConnectionInfo.t (PublicKey (CommsLib := TestCommsLib)) :=
  ConnectionInfo.Mk "addr" (ClientInfo.Mk exampleClientID "key"%string [] false true) "" 1 2
    (AuthClientInfo.Mk false []) (Some {["svc"%string := 2%Z]}) None.

Lemma sampleConnection_tokens : tokensOK {["svc"%string := 2%Z]}.
Proof. intros svc. unfold limitOf. rewrite lookup_singleton. by case_decide. Qed.

Definition sampleFound :=
  stClientMessagesForProcessing exampleClientID 100 (ConnectionInfo.MessageTokens sampleConnection) sampleWorld.

Lemma consume_tokens_safe_witness :
  exists msgs s', fst sampleFound = Ok msgs /\
    consumeTokens sampleConnection msgs = Ok (ConnectionInfo.setTokens (Some s') sampleConnection) /\
    length msgs = 2.
Proof.
  assert (E : exists msgs, fst sampleFound = Ok msgs /\ length msgs = 2)
    by (vm_compute; eexists; split; reflexivity).
  destruct E as (msgs & E & Hl).
  assert (E' : sampleFound = (Ok msgs, snd sampleFound)) by (rewrite <- E; apply surjective_pairing).
  destruct (consume_tokens_safe (St := Db) sampleConnection {["svc"%string := 2%Z]} exampleClientID 100
    sampleWorld msgs (snd sampleFound) eq_refl sampleConnection_tokens E') as (s' & H & _).
  exists msgs, s'. exact (conj E (conj H Hl)).
Defined.

(** Two good messages, one for a client and one without a source. *)
Definition sampleReceived : ContactData.t :=
  ContactData.Mk 7
    [toServer 1 "svc" "Fine"; Message.zero; toServer 2 "svc" "Fine";
     sampleMessage 3 exampleClientID None] None ∅.

Definition sampleHandled :=
  handleMessagesFromClient (ConnectionInfo.Client sampleConnection) "" sampleReceived None serviceSrv.

Lemma handle_messages_from_client_spec_witness :
  fst sampleHandled = Ok tt /\
  forall m, m ∈ validMessages exampleClientID None (ContactData.Messages sampleReceived) ->
    authentic exampleClientID None m.
Proof.
  assert (E : fst sampleHandled = Ok tt) by (vm_compute; reflexivity). split; [exact E|].
  assert (E' : sampleHandled = (Ok tt, snd sampleHandled)) by (rewrite <- E; apply surjective_pairing).
  exact (proj1 (handle_messages_from_client_spec (ConnectionInfo.Client sampleConnection) ""
    sampleReceived None serviceSrv (snd sampleHandled) E')).
Defined.

Definition sampleContact : WrappedContactData.t Signature.t :=
  WrappedContactData.Mk _ "data" [] ["linux"%string].

Definition sampleInit (addr : string) :=
  InitializeConnection (CL := TestCommsLib) (St := Db) addr "key"%string sampleContact true serviceSrv.

Lemma initialize_connection_spec_witness :
  sampleInit "bad" = (Err ErrNotAuthorized, serviceSrv) /\
  exists info d more, fst (sampleInit "addr") = Ok (info, d, more) /\
    is_Some (ConnectionInfo.Notices info).
Proof.
  destruct (initialize_connection_spec (CL := TestCommsLib) (St := Db) "bad" "key"%string sampleContact
    true serviceSrv) as [H _].
  destruct (initialize_connection_spec (CL := TestCommsLib) (St := Db) "addr" "key"%string sampleContact
    true serviceSrv) as [_ H'].
  split.
  { eapply H; [vm_compute; reflexivity|reflexivity]. }
  assert (E : exists x, fst (sampleInit "addr") = Ok x) by (vm_compute; eexists; reflexivity).
  destruct E as [[[info d] more] E]. exists info, d, more. split; [exact E|].
  assert (E' : sampleInit "addr" = (Ok (info, d, more), snd (sampleInit "addr")))
    by (rewrite <- E; apply surjective_pairing).
  destruct (H' info d more (snd (sampleInit "addr")) E') as
    (? & ? & ? & ? & ? & ? & _ & _ & _ & _ & _ & _ & _ & _ & _ & _ & _ & _ & Hn & _).
  by apply Hn.
Defined.

(** Contrary to the comment on Allow4, a contact it refuses has already
    stored its client and the client's labels. *)
Example refused_contact_registers_client :
  fst (sampleInit "late") = Err ErrNotAuthorized /\
  size (clients (sStore (w_data (snd (sampleInit "late"))))) =
    S (size (clients (sStore (w_data serviceSrv)))).
Proof. split; vm_compute; reflexivity. Qed.

(** A signature without certificates brings the process down. *)
Example no_certificate_crashes :
  ValidateWrappedContactData (CL := TestCommsLib)
    (WrappedContactData.Mk _ "data" [Signature.Mk [] 4 "sig"] []) = Crash "index out of range".
Proof. reflexivity. Qed.
