(* ===== verification/ClientFlow.v ===== *)
(** * Priorities and flow control in the client

    src/client/flow/filter.go and src/client/internal/message/sort.go.  The
    goroutine of SortLoop is a state machine whose events are the cases of its
    [select]s; a send carries the value of the filter read at the top of that
    turn of the loop, so the filter may change between any two turns. *)
From S2P Require Import Prelude Platform Ids Proto.

(** ** flow.Filter: an int32 of three bits *)
Module Filter.
Definition t := Z.
Definition lowFiltered : Z := Z.shiftl 1 0.
Definition medFiltered : Z := Z.shiftl 1 1.
Definition highFiltered : Z := Z.shiftl 1 2.

Definition NewFilter : t := 0%Z.

(** [Set] *)
Definition SetBits (low medium high : bool) : t :=
  let i := 0%Z in
  let i := if low then Z.lor i lowFiltered else i in
  let i := if medium then Z.lor i medFiltered else i in
  if high then Z.lor i highFiltered else i.

(** low, medium, high *)
Definition Get (i : t) : bool * bool * bool :=
  (negb (Z.land i lowFiltered =? 0), negb (Z.land i medFiltered =? 0),
   negb (Z.land i highFiltered =? 0))%Z.

Lemma Get_SetBits low medium high : Get (SetBits low medium high) = (low, medium, high).
Proof. by destruct low, medium, high. Qed.

Lemma Get_NewFilter : Get NewFilter = (false, false, false).
Proof. done. Qed.
End Filter.

(** ** SortLoop *)
Section SortLoop.
Context {MI : Type} (prio : MI -> Message.Priority).

Record queues := mkQueues { low : list MI; medium : list MI; high : list MI }.

Definition noQueues : queues := mkQueues [] [] [].

Definition appendMI (mi : MI) (q : queues) : queues :=
  match prio mi with
  | Message.LOW => mkQueues (low q ++ [mi]) (medium q) (high q)
  | Message.MEDIUM => mkQueues (low q) (medium q ++ [mi]) (high q)
  | Message.HIGH => mkQueues (low q) (medium q) (high q ++ [mi])
  | Message.UnknownPriority _ => mkQueues (low q) (medium q ++ [mi]) (high q)
  end.

(** What the [switch] offers on [out], and the queues once it is taken. *)
Definition nextToSend (f : Filter.t) (q : queues) : option (MI * queues) :=
  let '(lf, mf, hf) := Filter.Get f in
  match high q, hf with
  | mi :: rest, false => Some (mi, mkQueues (low q) (medium q) rest)
  | _, _ =>
      match medium q, mf with
      | mi :: rest, false => Some (mi, mkQueues (low q) rest (high q))
      | _, _ =>
          match low q, lf with
          | mi :: rest, false => Some (mi, mkQueues rest (medium q) (high q))
          | _, _ => None
          end
      end
  end.

(** The loop, the deferred draining, and the end. *)
Inductive sortState := Running (q : queues) | Draining (l : list MI) | SortDone.

Inductive sortEvent :=
| Receive (mi : MI)          (* a message comes in *)
| InputClosed                (* [in] is closed *)
| SendNext (f : Filter.t)    (* the offered message is taken *)
| Poll                       (* the ticker *)
| Drain                      (* a message is taken while draining *)
| Leave.                     (* SortLoop returns *)

(** What is sent, and the next state. *)
Definition sortStep (s : sortState) (e : sortEvent) : option (list MI * sortState) :=
  match s, e with
  | Running q, Receive mi => Some ([], Running (appendMI mi q))
  | Running q, InputClosed => Some ([], Draining (high q ++ medium q ++ low q))
  | Running q, SendNext f =>
      match nextToSend f q with
      | Some (mi, q') => Some ([mi], Running q')
      | None => None
      end
  | Running q, Poll => Some ([], s)
  | Draining l, Drain => match l with mi :: l' => Some ([mi], Draining l') | [] => None end
  | Draining l, Leave => match l with [] => Some ([], SortDone) | _ => None end
  | _, _ => None
  end.

Fixpoint sortRun (s : sortState) (es : list sortEvent) : option (list MI * sortState) :=
  match es with
  | [] => Some ([], s)
  | e :: es =>
      match sortStep s e with
      | Some (sent, s') =>
          match sortRun s' es with
          | Some (sent', s'') => Some (sent ++ sent', s'')
          | None => None
          end
      | None => None
      end
  end.

(** ** The order of messages *)
Definition level (mi : MI) : Message.Priority :=
  match prio mi with Message.UnknownPriority _ => Message.MEDIUM | p => p end.

Definition rank (p : Message.Priority) : nat :=
  match p with Message.HIGH => 2 | Message.LOW => 0 | _ => 1 end.

Definition filtered (f : Filter.t) (p : Message.Priority) : bool :=
  let '(lf, mf, hf) := Filter.Get f in
  match p with Message.HIGH => hf | Message.LOW => lf | _ => mf end.

Definition received (es : list sortEvent) : list MI :=
  omap (fun e => match e with Receive mi => Some mi | _ => None end) es.

Definition buffered (s : sortState) : list MI :=
  match s with
  | Running q => high q ++ medium q ++ low q
  | Draining l => l
  | SortDone => []
  end.

(** The messages of one level, in order. *)
Definition ofLevel (p : Message.Priority) (l : list MI) : list MI := filter (fun mi => level mi = p) l.

Record queuesOK (q : queues) : Prop := {
  qo_low : Forall (fun mi => level mi = Message.LOW) (low q);
  qo_medium : Forall (fun mi => level mi = Message.MEDIUM) (medium q);
  qo_high : Forall (fun mi => level mi = Message.HIGH) (high q);
}.

Definition sortOK (s : sortState) : Prop :=
  match s with Running q => queuesOK q | _ => True end.

Lemma ofLevel_app p l k : ofLevel p (l ++ k) = ofLevel p l ++ ofLevel p k.
Proof. apply filter_app. Qed.

Lemma ofLevel_cons p mi l :
  ofLevel p (mi :: l) = (if decide (level mi = p) then [mi] else []) ++ ofLevel p l.
Proof. unfold ofLevel. rewrite filter_cons. by destruct (decide (level mi = p)). Qed.

Lemma ofLevel_none p p' l : Forall (fun mi => level mi = p') l -> p' <> p -> ofLevel p l = [].
Proof.
  intros H Hn. apply filter_none. intros mi Hin. rewrite Forall_forall in H. rewrite (H mi Hin). done.
Qed.

Lemma ofLevel_queues p q : queuesOK q ->
  ofLevel p (high q ++ medium q ++ low q) =
    match p with
    | Message.HIGH => ofLevel p (high q)
    | Message.MEDIUM => ofLevel p (medium q)
    | Message.LOW => ofLevel p (low q)
    | Message.UnknownPriority _ => []
    end.
Proof.
  intros [Hl Hm Hh]. rewrite !ofLevel_app. destruct p.
  - by rewrite (ofLevel_none _ _ _ Hh), (ofLevel_none _ _ _ Hl), app_nil_r by done.
  - by rewrite (ofLevel_none _ _ _ Hh), (ofLevel_none _ _ _ Hm) by done.
  - by rewrite (ofLevel_none _ _ _ Hm), (ofLevel_none _ _ _ Hl), !app_nil_r by done.
  - by rewrite (ofLevel_none _ _ _ Hh), (ofLevel_none _ _ _ Hm), (ofLevel_none _ _ _ Hl) by done.
Qed.

Lemma appendMI_OK mi q : queuesOK q -> queuesOK (appendMI mi q).
Proof.
  intros [Hl Hm Hh]. unfold appendMI.
  destruct (prio mi) eqn:E; split; simpl; try done; apply Forall_app; split; try done;
    (constructor; [unfold level; by rewrite E|constructor]).
Qed.

(** The three queues, by level. *)
Definition queueOf (p : Message.Priority) (q : queues) : list MI :=
  match p with
  | Message.HIGH => high q
  | Message.LOW => low q
  | Message.MEDIUM => medium q
  | Message.UnknownPriority _ => []
  end.

Definition setQueue (p : Message.Priority) (l : list MI) (q : queues) : queues :=
  match p with
  | Message.HIGH => mkQueues (low q) (medium q) l
  | Message.LOW => mkQueues l (medium q) (high q)
  | Message.MEDIUM => mkQueues (low q) l (high q)
  | Message.UnknownPriority _ => q
  end.

Lemma queueOf_level p q mi : queuesOK q -> mi ∈ queueOf p q -> level mi = p.
Proof.
  intros [Hl Hm Hh]. rewrite !Forall_forall in *. by destruct p; simpl; auto; intros ?%elem_of_nil.
Qed.

(** The offered message is the head of its level's queue; no level above it
    has an unfiltered message. *)
Lemma nextToSend_Some f q mi q' : nextToSend f q = Some (mi, q') ->
  exists p l, filtered f p = false /\ queueOf p q = mi :: l /\ q' = setQueue p l q /\
    forall p', rank p < rank p' -> filtered f p' = true \/ queueOf p' q = [].
Proof.
  destruct q as [ql qm qh]. unfold nextToSend, filtered. destruct (Filter.Get f) as [[lf mf] hf]. simpl.
  set (Q := mkQueues ql qm qh).
  assert (Hhigh : match qh with [] => True | _ => hf = true end ->
    forall p', 2 <= rank p' -> match p' with Message.HIGH => hf | Message.LOW => lf | _ => mf end = true
      \/ queueOf p' Q = []).
  { intros H [| | |n]; simpl; try lia. destruct qh; auto. }
  assert (Hmed : match qh with [] => True | _ => hf = true end -> match qm with [] => True | _ => mf = true end ->
    forall p', 1 <= rank p' -> match p' with Message.HIGH => hf | Message.LOW => lf | _ => mf end = true
      \/ queueOf p' Q = []).
  { intros H H' [| | |n]; simpl; try lia; destruct qh, qm; auto. }
  intros H. destruct qh as [|mh h]; [|destruct hf];
    (destruct qm as [|mm m]; [|destruct mf]);
    try (destruct ql as [|ml l]; [discriminate H|destruct lf; [discriminate H|]]);
    injection H as <- <-;
    try solve [exists Message.LOW; eexists; repeat split; intros p' Hp; apply Hmed; simpl in *; done || lia
          |exists Message.MEDIUM; eexists; repeat split; intros p' Hp; apply Hhigh; simpl in *; done || lia
          |exists Message.HIGH; eexists; repeat split; intros [| | |n] Hp; simpl in *; lia].
Qed.

Lemma nextToSend_None f q : nextToSend f q = None ->
  forall p, filtered f p = true \/ queueOf p q = [].
Proof.
  unfold nextToSend, filtered. destruct (Filter.Get f) as [[lf mf] hf].
  destruct (high q) eqn:Hh; destruct hf; destruct (medium q) eqn:Hm; destruct mf;
    destruct (low q) eqn:Hl; destruct lf; intros H; try discriminate H;
    intros [| | |n]; simpl; auto.
Qed.

Lemma buffered_setQueue p mi l q : queueOf p q = mi :: l ->
  buffered (Running q) ≡ₚ mi :: buffered (Running (setQueue p l q)).
Proof.
  destruct p; simpl; [intros ->|intros ->|intros ->|done]; simpl.
  - symmetry. apply (Permutation_middle (high q) (l ++ low q)).
  - rewrite !app_assoc. symmetry. apply Permutation_middle.
  - done.
Qed.

Lemma setQueue_OK p mi l q : queuesOK q -> queueOf p q = mi :: l -> queuesOK (setQueue p l q).
Proof.
  intros [Hl Hm Hh] E. destruct p; simpl in *; [| | |done]; rewrite E in *;
    split; simpl; try done; by eapply Forall_inv_tail.
Qed.

Lemma ofLevel_setQueue p p' mi l q : queuesOK q -> queueOf p q = mi :: l ->
  ofLevel p' (buffered (Running q)) = ofLevel p' [mi] ++ ofLevel p' (buffered (Running (setQueue p l q))).
Proof.
  intros Hok E. assert (Hmi : level mi = p) by (eapply queueOf_level; [done|]; rewrite E; left).
  pose proof (setQueue_OK _ _ _ _ Hok E) as Hok'.
  unfold buffered. rewrite !ofLevel_queues, ofLevel_cons by done. rewrite Hmi.
  destruct p; simpl in E; [| | |done]; destruct p'; simpl; rewrite ?E, ?ofLevel_cons, ?Hmi; done.
Qed.

Lemma appendMI_buffered mi q :
  (high q ++ medium q ++ low q) ++ [mi] ≡ₚ buffered (Running (appendMI mi q)).
Proof.
  assert (Hm : (high q ++ medium q ++ low q) ++ [mi] ≡ₚ high q ++ (medium q ++ [mi]) ++ low q).
  { rewrite <- !app_assoc. do 2 apply Permutation_app_head. apply Permutation_app_comm. }
  unfold appendMI. destruct (prio mi); simpl; try done.
  - by rewrite !app_assoc.
  - rewrite <- !app_assoc. apply Permutation_app_head. rewrite app_assoc. apply Permutation_app_comm.
Qed.

Lemma ofLevel_appendMI p mi q : queuesOK q ->
  ofLevel p (buffered (Running q) ++ [mi]) = ofLevel p (buffered (Running (appendMI mi q))).
Proof.
  intros Hok. pose proof (appendMI_OK mi q Hok) as Hok'. rewrite ofLevel_app.
  unfold buffered. rewrite !ofLevel_queues, ofLevel_cons by done. unfold level, appendMI.
  destruct p, (prio mi) eqn:Ep; simpl; rewrite ?app_nil_r, ?ofLevel_app, ?ofLevel_cons;
    unfold level; rewrite ?Ep; simpl; rewrite ?app_nil_r; try done.
Qed.

(** One event neither loses nor repeats nor reorders a level's messages. *)
Lemma sortStep_OK s e sent s' : sortOK s -> sortStep s e = Some (sent, s') ->
  sortOK s' /\
  buffered s ++ received [e] ≡ₚ sent ++ buffered s' /\
  forall p, ofLevel p (buffered s ++ received [e]) = ofLevel p (sent ++ buffered s').
Proof.
  intros Hok E. destruct s as [q|l|]; destruct e; try discriminate E; simpl in E.
  - injection E as <- <-. split; [by apply appendMI_OK|]. unfold received. simpl.
    split.
    + apply appendMI_buffered.
    + intros p. by apply ofLevel_appendMI.
  - injection E as <- <-. simpl. by rewrite !app_nil_r.
  - destruct (nextToSend f q) as [[mi q']|] eqn:En; [|done]. injection E as <- <-.
    apply nextToSend_Some in En as (p & l & _ & Hq & -> & _).
    split; [by eapply setQueue_OK|]. unfold received. simpl omap. rewrite app_nil_r. split.
    + by apply (buffered_setQueue p mi).
    + intros p'. rewrite ofLevel_app. by eapply ofLevel_setQueue.
  - injection E as <- <-. simpl. by rewrite !app_nil_r.
  - destruct l as [|mi l]; [done|]. injection E as <- <-. simpl. by rewrite app_nil_r.
  - destruct l; [|done]. injection E as <- <-. done.
Qed.

Lemma sortRun_OK s es out s' : sortOK s -> sortRun s es = Some (out, s') ->
  sortOK s' /\
  buffered s ++ received es ≡ₚ out ++ buffered s' /\
  forall p, ofLevel p (buffered s ++ received es) = ofLevel p (out ++ buffered s').
Proof.
  revert s out. induction es as [|e es IH]; intros s out Hok E; simpl in E.
  { injection E as <- <-. simpl. by rewrite app_nil_r. }
  destruct (sortStep s e) as [[sent s1]|] eqn:Es; [|done].
  destruct (sortRun s1 es) as [[sent' s2]|] eqn:Er; [|done]. injection E as <- <-.
  destruct (sortStep_OK _ _ _ _ Hok Es) as (Hok1 & Hp1 & Hl1).
  destruct (IH _ _ Hok1 Er) as (Hok2 & Hp2 & Hl2). split; [done|].
  assert (Hr : received (e :: es) = received [e] ++ received es) by (by destruct e).
  rewrite Hr. split.
  - by rewrite app_assoc, Hp1, <- app_assoc, Hp2, app_assoc.
  - intros p. rewrite app_assoc, ofLevel_app, Hl1, ofLevel_app, <- app_assoc, <- ofLevel_app, Hl2.
    by rewrite <- app_assoc, (ofLevel_app p sent).
Qed.

Lemma drain_all l : sortRun (Draining l) (replicate (length l) Drain ++ [Leave]) = Some (l, SortDone).
Proof. induction l as [|mi l IH]; [done|]. simpl. by rewrite IH. Qed.

Lemma buffered_queueOf q mi : queuesOK q -> mi ∈ buffered (Running q) -> mi ∈ queueOf (level mi) q.
Proof.
  intros [Hl Hm Hh]. rewrite !Forall_forall in *. simpl. rewrite !elem_of_app.
  intros [H|[H|H]]; [rewrite (Hh _ H)|rewrite (Hm _ H)|rewrite (Hl _ H)]; done.
Qed.

Lemma StronglySorted_app_rank l k n :
  StronglySorted (fun mi mi' => rank (level mi') <= rank (level mi)) k ->
  Forall (fun mi => rank (level mi) = n) l -> Forall (fun mi => rank (level mi) <= n) k ->
  StronglySorted (fun mi mi' => rank (level mi') <= rank (level mi)) (l ++ k).
Proof.
  intros Hk Hl Hn. induction Hl as [|mi l Hmi Hl IH]; [done|]. simpl. constructor; [done|].
  apply Forall_app. split; (eapply Forall_impl; [eassumption|]); simpl; intros; lia.
Qed.

Lemma buffered_sorted q : queuesOK q ->
  StronglySorted (fun mi mi' => rank (level mi') <= rank (level mi)) (buffered (Running q)).
Proof.
  intros [Hl Hm Hh].
  assert (H : forall p l, Forall (fun mi => level mi = p) l -> Forall (fun mi => rank (level mi) = rank p) l).
  { intros p l HF. eapply Forall_impl; [exact HF|]. by intros mi ->. }
  assert (Hle : forall p n l, Forall (fun mi => level mi = p) l -> rank p <= n ->
    Forall (fun mi => rank (level mi) <= n) l).
  { intros p n l HF Hn. eapply Forall_impl; [exact HF|]. by intros mi ->. }
  apply (StronglySorted_app_rank _ _ 2); [|by apply (H Message.HIGH)|].
  - apply (StronglySorted_app_rank _ _ 1); [|by apply (H Message.MEDIUM)|].
    + rewrite <- (app_nil_r (low q)). apply (StronglySorted_app_rank _ _ 0); [constructor| |constructor].
      by apply (H Message.LOW).
    + apply (Hle Message.LOW); [done|simpl; lia].
  - apply Forall_app. split; [apply (Hle Message.MEDIUM)|apply (Hle Message.LOW)]; try done; simpl; lia.
Qed.

(** C30: whatever comes in, and however the filter changes, SortLoop passes
    every message on exactly once, those of one level in the order they came.
    While the input is open it offers the oldest message of the highest level
    that has one and is not filtered, or nothing if all that is buffered is
    filtered, and it can always receive.  Once the input is closed it sends all
    that is left, highest level first and filtered or not, and then returns. *)
Theorem sort_loop_spec es out s :
  sortRun (Running noQueues) es = Some (out, s) ->
  received es ≡ₚ out ++ buffered s /\
  (forall p, ofLevel p (received es) = ofLevel p out ++ ofLevel p (buffered s)) /\
  match s with
  | Running q =>
      (forall f, match sortStep s (SendNext f) with
        | Some (sent, _) => exists mi rest, sent = [mi] /\ ofLevel (level mi) (buffered s) = mi :: rest /\
            filtered f (level mi) = false /\
            forall mi', mi' ∈ buffered s -> filtered f (level mi') = false ->
              rank (level mi') <= rank (level mi)
        | None => forall mi, mi ∈ buffered s -> filtered f (level mi) = true
        end) /\
      (forall mi, is_Some (sortStep s (Receive mi))) /\
      (exists l, sortRun s (InputClosed :: replicate (length (buffered s)) Drain ++ [Leave]) =
          Some (l, SortDone) /\ l ≡ₚ buffered s /\
          StronglySorted (fun mi mi' => rank (level mi') <= rank (level mi)) l)
  | Draining l => sortRun s (replicate (length l) Drain ++ [Leave]) = Some (l, SortDone)
  | SortDone => True
  end.
Proof.
  intros E. apply sortRun_OK in E as (Hok & Hp & Hl); [|by split; constructor].
  split; [done|]. split; [intros p; rewrite <- ofLevel_app; apply Hl|].
  destruct s as [q|l|]; [|apply drain_all|done]. simpl in Hok. split; [|split].
  - intros f. simpl sortStep. destruct (nextToSend f q) as [[mi q']|] eqn:En.
    + apply nextToSend_Some in En as (p & l & Hf & Hq & -> & Htop).
      assert (Hmi : level mi = p) by (eapply queueOf_level; [done|]; rewrite Hq; left).
      exists mi. eexists. split; [done|]. rewrite Hmi. split.
      * rewrite (ofLevel_setQueue p p mi l q Hok Hq), ofLevel_cons, Hmi, decide_True by done. done.
      * split; [done|]. intros mi' Hin Hf'. destruct (decide (rank p < rank (level mi'))) as [Hr|]; [|lia].
        destruct (Htop _ Hr) as [|He]; [congruence|]. exfalso.
        by apply (buffered_queueOf q mi' Hok) in Hin; rewrite He in Hin; apply elem_of_nil in Hin.
    + intros mi Hin. destruct (nextToSend_None _ _ En (level mi)) as [|He]; [done|]. exfalso.
      by apply (buffered_queueOf q mi Hok) in Hin; rewrite He in Hin; apply elem_of_nil in Hin.
  - intros mi. by eexists.
  - exists (buffered (Running q)). simpl. rewrite drain_all. split; [done|]. split; [done|].
    by apply buffered_sorted.
Qed.
End SortLoop.

(** ** Witness: three levels, with the high one filtered for a while. *)
Definition sampleSorted : list (sortEvent (MI := Message.Priority * nat)) :=
  [Receive (Message.LOW, 1); Receive (Message.HIGH, 2); SendNext (Filter.SetBits false false true);
   Receive (Message.UnknownPriority 7, 3); Receive (Message.MEDIUM, 4); Poll;
   SendNext (Filter.SetBits false false true); SendNext Filter.NewFilter].

Lemma sort_loop_spec_witness :
  let out := [(Message.LOW, 1); (Message.UnknownPriority 7, 3); (Message.HIGH, 2)] in
  let s := Running (mkQueues [] [(Message.MEDIUM, 4)] []) in
  sortRun fst (Running noQueues) sampleSorted = Some (out, s) /\
  received sampleSorted ≡ₚ out ++ buffered s.
Proof.
  cbv zeta. split; [reflexivity|].
  exact (proj1 (sort_loop_spec fst sampleSorted [(Message.LOW, 1); (Message.UnknownPriority 7, 3); (Message.HIGH, 2)]
    (Running (mkQueues [] [(Message.MEDIUM, 4)] [])) eq_refl)).
Defined.
