(* ===== verification/ClientRetry.v ===== *)
(** * Retrying messages in the client: src/client/internal/message/retry.go

    RetryLoop as a state machine: the loop itself, its two buffered channels,
    and the consumer of its output, which owes every message it got a call of
    Ack or of Nack (comms.MessageInfo).  An event is a case of the [select], a
    delivery on the unbuffered [out], or a callback.  [int] has 64 bits. *)
From S2P Require Import Prelude Platform Ids Proto.

Section RetryLoop.
Context {Msg : Type} `{EqDecision Msg} (protoSize : Msg -> Z).
Context (maxSize maxCount : Z).

Record sizedMessage := mkSized { size : Z; m : Msg }.

#[export] Instance sizedMessage_eq_dec : EqDecision sizedMessage.
Proof using EqDecision0. solve_decision. Defined.

(** Where the loop is: at its [select], blocked on [out], or returned. *)
Inductive loopPoint := Selecting | Sending (sm : sizedMessage) | LoopDone.

Record retry := mkRetry {
  point : loopPoint;
  total : Z;
  count : Z;
  acks : list sizedMessage;
  nacks : list sizedMessage;
  (** Delivered, and neither acked nor nacked yet. *)
  held : list sizedMessage;
  (** What was read from [in], and what of it was acknowledged to its sender. *)
  taken : list Msg;
  acked : list Msg;
}.

Definition retryInit : retry := mkRetry Selecting 0 0 [] [] [] [] [].

(** [optIn] is [in] rather than nil. *)
Definition reading (r : retry) : bool := negb ((maxSize <=? total r)%Z || (maxCount <=? count r)%Z).

Inductive retryEvent :=
| Take (x : Msg)              (* a message is read *)
| InClosed                    (* the closed channel is read *)
| TakeAck
| TakeNack
| Deliver                     (* the consumer receives from [out] *)
| CallAck (sm : sizedMessage)
| CallNack (sm : sizedMessage).

(** Sending on a channel of capacity maxCount. *)
Definition hasRoom (ch : list sizedMessage) : bool := (Z.of_nat (length ch) <? maxCount)%Z.

Definition retryStep (r : retry) (e : retryEvent) : option retry :=
  match e, point r with
  | Take x, Selecting =>
      if reading r then
        let sm := mkSized (protoSize x) x in
        Some (mkRetry (Sending sm) (wrapI64 (total r + size sm)) (wrapI64 (count r + 1))
                (acks r) (nacks r) (held r) (taken r ++ [x]) (acked r))
      else None
  | InClosed, Selecting =>
      if reading r then
        Some (mkRetry LoopDone (total r) (count r) (acks r) (nacks r) (held r) (taken r) (acked r))
      else None
  | TakeAck, Selecting =>
      match acks r with
      | sm :: rest => Some (mkRetry Selecting (wrapI64 (total r - size sm)) (wrapI64 (count r - 1))
                              rest (nacks r) (held r) (taken r) (acked r))
      | [] => None
      end
  | TakeNack, Selecting =>
      match nacks r with
      | sm :: rest => Some (mkRetry (Sending sm) (total r) (count r) (acks r) rest (held r)
                              (taken r) (acked r))
      | [] => None
      end
  | Deliver, Sending sm =>
      Some (mkRetry Selecting (total r) (count r) (acks r) (nacks r) (held r ++ [sm]) (taken r) (acked r))
  | CallAck sm, _ =>
      if hasRoom (acks r) then
        match takeOut sm (held r) with
        | Some rest => Some (mkRetry (point r) (total r) (count r) (acks r ++ [sm]) (nacks r) rest
                               (taken r) (acked r ++ [m sm]))
        | None => None
        end
      else None
  | CallNack sm, _ =>
      if hasRoom (nacks r) then
        match takeOut sm (held r) with
        | Some rest => Some (mkRetry (point r) (total r) (count r) (acks r) (nacks r ++ [sm]) rest
                               (taken r) (acked r))
        | None => None
        end
      else None
  | _, _ => None
  end.

Definition retryReachable (r : retry) : Prop :=
  rtc (fun r r' => exists e, retryStep r e = Some r') retryInit r.

(** ** Invariant *)
Definition sending (r : retry) : list sizedMessage :=
  match point r with Sending sm => [sm] | _ => [] end.

(** Not acknowledged yet. *)
Definition unacked (r : retry) : list sizedMessage := sending r ++ nacks r ++ held r.

(** What [total] and [count] account for. *)
Definition pending (r : retry) : list sizedMessage := acks r ++ unacked r.

Context (maxMsg : Z) (Hmax : (0 <= maxMsg)%Z).
Context (HmaxMsg : forall x, (0 <= protoSize x <= maxMsg)%Z).
Context (Hsizes : (0 < maxSize)%Z) (Hcounts : (0 < maxCount)%Z).
Context (Hfits : (maxSize + maxMsg < 2 ^ 63)%Z) (Hfitc : (maxCount < 2 ^ 63)%Z).

Record retryOK (r : retry) : Prop := {
  ro_count : count r = Z.of_nat (length (pending r));
  ro_total : total r = sumZ (size <$> pending r);
  ro_max : (count r <= maxCount)%Z;
  ro_maxSize : (total r < maxSize + maxMsg)%Z;
  ro_sizes : Forall (fun sm => size sm = protoSize (m sm)) (pending r);
  ro_taken : taken r ≡ₚ acked r ++ (m <$> unacked r);
}.

Lemma sizes_nonneg l : Forall (fun sm => size sm = protoSize (m sm)) l -> (0 <= sumZ (size <$> l))%Z.
Proof using HmaxMsg.
  intros H. apply sumZ_nonneg. apply Forall_fmap. eapply Forall_impl; [exact H|].
  intros sm Hsm. simpl. rewrite Hsm. apply HmaxMsg.
Qed.

Lemma retryOK_init : retryOK retryInit.
Proof using Hmax Hsizes Hcounts. split; simpl; try done; try lia. Qed.

(** The pending messages after a step: one is new, one is gone, or they are
    the same, only elsewhere. *)
Lemma retryOK_same r r' :
  retryOK r -> total r' = total r -> count r' = count r -> pending r' ≡ₚ pending r ->
  taken r' ≡ₚ acked r' ++ (m <$> unacked r') -> retryOK r'.
Proof.
  intros [H1 H2 H3 H4 H5 H6] Ht Hc Hp Hk. split; rewrite ?Ht, ?Hc, ?Hp; done.
Qed.

Lemma perm_move {A} (x : A) a b c d :
  a ++ (b ++ c) ++ x :: d ≡ₚ (a ++ [x]) ++ (b ++ c) ++ d.
Proof. rewrite <- (app_assoc a). apply Permutation_app_head. symmetry. apply (Permutation_middle (b ++ c)). Qed.

(** A callback moves its message to a channel. *)
Lemma callback_OK r e r' : retryOK r -> retryStep r e = Some r' ->
  retryOK r' \/ (forall sm, e <> CallAck sm) /\ (forall sm, e <> CallNack sm).
Proof using Type.
  intros Hok E. destruct e as [x| | | | |sm|sm]; try by right. all: left.
  - simpl in E. destruct (hasRoom (acks r)); [|by destruct (point r)].
    destruct (takeOut sm (held r)) as [rest|] eqn:Hh; [|by destruct (point r)].
    assert (r' = mkRetry (point r) (total r) (count r) (acks r ++ [sm]) (nacks r) rest
      (taken r) (acked r ++ [m sm])) as -> by (by destruct (point r); injection E).
    apply takeOut_perm in Hh. pose proof Hok as [H1 H2 H3 H4 H5 H6].
    apply (retryOK_same r); try done; unfold pending, unacked, sending in *; simpl.
    + rewrite Hh, !(app_assoc _ (nacks r)). symmetry. apply perm_move.
    + rewrite H6. unfold unacked, sending. rewrite Hh, !(app_assoc _ (nacks r)), !fmap_app. apply perm_move.
  - simpl in E. destruct (hasRoom (nacks r)); [|by destruct (point r)].
    destruct (takeOut sm (held r)) as [rest|] eqn:Hh; [|by destruct (point r)].
    assert (r' = mkRetry (point r) (total r) (count r) (acks r) (nacks r ++ [sm]) rest
      (taken r) (acked r)) as -> by (by destruct (point r); injection E).
    apply takeOut_perm in Hh. pose proof Hok as [H1 H2 H3 H4 H5 H6].
    apply (retryOK_same r); try done; unfold pending, unacked, sending in *; simpl.
    + by rewrite Hh, <- (app_assoc (nacks r)).
    + rewrite H6. unfold unacked, sending. by rewrite Hh, <- (app_assoc (nacks r)).
Qed.

Lemma retryStep_OK r e r' : retryOK r -> retryStep r e = Some r' -> retryOK r'.
Proof using HmaxMsg Hsizes Hcounts Hfits Hfitc.
  intros Hok E. destruct (callback_OK r e r') as [|[Hca Hcn]]; [done|done|done|]. pose proof Hok as [H1 H2 H3 H4 H5 H6].
  pose proof (sizes_nonneg _ H5) as Hnn. rewrite <- H2 in Hnn.
  unfold retryStep in E. destruct e as [x| | | | |sm|sm]; [| | | | |by destruct (Hca sm)|by destruct (Hcn sm)];
    destruct (point r) as [|cur|] eqn:Hpt; try discriminate E.
  - unfold reading in E. destruct (_ || _) eqn:Hr; [done|]. injection E as <-.
    apply orb_false_iff in Hr as [Hs%Z.leb_gt Hc%Z.leb_gt]. pose proof (HmaxMsg x).
    unfold pending, unacked, sending in *. rewrite Hpt in *. simpl in *.
    split; unfold pending, unacked, sending; simpl.
    + rewrite wrapI64_small by lia. rewrite H1, <- Permutation_middle. simpl. lia.
    + rewrite wrapI64_small by lia. rewrite H2, <- Permutation_middle. apply Z.add_comm.
    + rewrite wrapI64_small; lia.
    + rewrite wrapI64_small; lia.
    + rewrite <- Permutation_middle. by constructor.
    + rewrite H6, <- app_assoc. apply Permutation_app_head. symmetry. apply Permutation_cons_append.
  - destruct (reading r) eqn:Hr; [|done]. injection E as <-.
    apply (retryOK_same r); try done; unfold pending, unacked, sending in *; by rewrite ?Hpt in *.
  - destruct (acks r) as [|sm rest] eqn:Ha; [done|]. injection E as <-.
    unfold pending, unacked, sending in *. rewrite Hpt, Ha in *. simpl in *.
    apply Forall_cons in H5 as [Hsm H5]. pose proof (HmaxMsg (m sm)).
    pose proof (sizes_nonneg _ H5). rewrite !length_app in H1.
    split; unfold pending, unacked, sending; simpl; rewrite ?length_app, ?wrapI64_small by lia; try done; try lia.
    rewrite H2. apply Z.add_simpl_l.
  - destruct (nacks r) as [|sm rest] eqn:Ha; [done|]. injection E as <-.
    apply (retryOK_same r); try done; unfold pending, unacked, sending in *; rewrite Hpt, ?Ha in *; done.
  - injection E as <-.
    assert (Hp : nacks r ++ held r ++ [cur] ≡ₚ cur :: nacks r ++ held r)
      by (rewrite app_assoc; symmetry; apply Permutation_cons_append).
    apply (retryOK_same r); try done; unfold pending, unacked, sending in *; rewrite ?Hpt in *; simpl in *.
    + by rewrite Hp.
    + by rewrite Hp.
Qed.

Lemma retryOK_reachable r : retryReachable r -> retryOK r.
Proof using HmaxMsg Hmax Hsizes Hcounts Hfits Hfitc.
  unfold retryReachable. intros Hr. assert (H : retryOK retryInit) by apply retryOK_init.
  induction Hr as [|r1 r2 r3 [e He] _ IH]; [done|]. apply IH. by eapply retryStep_OK.
Qed.

Lemma callback_enabled r sm : retryOK r -> sm ∈ held r ->
  is_Some (retryStep r (CallAck sm)) /\ is_Some (retryStep r (CallNack sm)).
Proof using Type.
  intros [H1 _ H3 _ _ _] Hin. destruct (takeOut_elem _ _ Hin) as [k Hk].
  assert (Hl : length (acks r) < length (pending r) /\ length (nacks r) < length (pending r)).
  { unfold pending, unacked. rewrite !length_app. apply takeOut_perm, Permutation_length in Hk.
    simpl in Hk. lia. }
  unfold retryStep, hasRoom. rewrite Hk.
  split; (rewrite (proj2 (Z.ltb_lt _ _)) by lia); destruct (point r); by eexists.
Qed.

Lemma loop_goes_on r : retryOK r -> point r = Selecting -> held r = [] ->
  is_Some (retryStep r TakeAck) \/ is_Some (retryStep r TakeNack) \/ reading r = true.
Proof using Hsizes Hcounts.
  intros [H1 H2 _ _ _ _] Hp Hh. unfold retryStep. rewrite Hp.
  destruct (acks r) as [|sm rest] eqn:Ha; [|left; by eexists].
  destruct (nacks r) as [|sm rest] eqn:Hn; [|right; left; by eexists].
  right; right. unfold pending, unacked, sending in H1, H2. rewrite Hp, Ha, Hn, Hh in H1, H2.
  apply negb_true_iff, orb_false_iff. split; apply Z.leb_gt; [rewrite H2|rewrite H1]; simpl; lia.
Qed.

(** C29: at every moment of a RetryLoop its counters are exactly the number
    and the bytes of the messages that were read and are not settled, at most
    [maxCount] messages and less than [maxSize] plus one message; every message
    read is either acknowledged to its sender or still on its way, and exactly
    one of the two; no callback ever blocks; and a loop none of whose messages
    is with the consumer can go on: it has an answer to take, or reads. *)
Theorem retry_loop_spec r :
  retryReachable r ->
  (count r = Z.of_nat (length (pending r)) /\ count r <= maxCount)%Z /\
  (total r = sumZ (protoSize ∘ m <$> pending r) /\ total r < maxSize + maxMsg)%Z /\
  taken r ≡ₚ acked r ++ (m <$> unacked r) /\
  (forall sm, sm ∈ held r ->
     is_Some (retryStep r (CallAck sm)) /\ is_Some (retryStep r (CallNack sm))) /\
  (point r = Selecting -> held r = [] ->
     is_Some (retryStep r TakeAck) \/ is_Some (retryStep r TakeNack) \/
     forall x, is_Some (retryStep r (Take x))).
Proof using HmaxMsg Hmax Hsizes Hcounts Hfits Hfitc.
  intros Hr%retryOK_reachable. pose proof Hr as [H1 H2 H3 H4 H5 H6].
  split; [done|]. split; [|split; [done|split; [by intros sm; apply callback_enabled|]]].
  - split; [|done]. rewrite H2. f_equal. by apply Forall_fmap_ext_1.
  - intros Hp Hh. destruct (loop_goes_on r Hr Hp Hh) as [H|[H|H]]; [by left|by right; left|].
    right; right. intros x. unfold retryStep. rewrite Hp, H. by eexists.
Qed.

(** Running a list of events. *)
Fixpoint retryRun (r : retry) (es : list retryEvent) : option retry :=
  match es with
  | [] => Some r
  | e :: es => match retryStep r e with Some r' => retryRun r' es | None => None end
  end.

Lemma retryRun_rtc r es r' :
  retryRun r es = Some r' -> rtc (fun r r' => exists e, retryStep r e = Some r') r r'.
Proof using Type.
  revert r. induction es as [|e es IH]; simpl; intros r E; [injection E as ->; apply rtc_refl|].
  destruct (retryStep r e) as [r1|] eqn:He; [|done]. eapply rtc_l; [by exists e|by apply IH].
Qed.
End RetryLoop.

(** ** Witness: two messages, one of them sent twice and then acknowledged. *)
Definition sampleRetryEvents : list (retryEvent (Msg := nat)) :=
  [Take 1; Deliver; Take 2; CallNack (mkSized 3 1); Deliver; TakeNack; Deliver;
   CallAck (mkSized 3 1); TakeAck].

Definition sampleRetryLoop : option (retry (Msg := nat)) :=
  retryRun (fun _ => 3%Z) 5 2 retryInit sampleRetryEvents.

Lemma retry_loop_spec_witness :
  exists r, sampleRetryLoop = Some r /\ taken r = [1; 2] /\ acked r = [1] /\
    is_Some (retryStep (fun _ => 3%Z) 5 2 r (CallAck (mkSized 3 2))).
Proof.
  eexists. split; [vm_compute; reflexivity|]. split; [reflexivity|]. split; [reflexivity|].
  refine (proj1 (proj1 (proj2 (proj2 (proj2 (retry_loop_spec (fun _ : nat => 3%Z) 5 2 3 _ _ _ _ _ _ _ _))))
    (mkSized 3 2) _)); try lia.
  - apply (retryRun_rtc _ _ _ _ sampleRetryEvents). vm_compute. reflexivity.
  - simpl. left.
Defined.
