(* ===== verification/ClientPipeline.v ===== *)
(** * The way of a message out of the client, and how Stop ends it

    The goroutines that src/client/client.go starts around its channels: one
    RetryLoop for each priority, whose output is the input of the one SortLoop,
    and the consumer of the outbox, which is the communicator until Stop and
    then a goroutine of Stop's that acknowledges whatever it gets.  All channels
    between them are unbuffered, so a message passes in one joint step.  The
    ticker of SortLoop, which changes nothing, is left out. *)
From S2P Require Import Prelude Platform Ids Proto ClientFlow ClientRetry.

(** src/client/client.go *)
Definition maxBufferCount : Z := 100.
Definition maxBufferBytes : Z := 20 * 1024 * 1024.

Section Pipeline.
Context {Msg : Type} `{EqDecision Msg} (protoSize : Msg -> Z) (priority : Msg -> Message.Priority).

(** comms.MessageInfo: the callbacks belong to the loop it came from. *)
Abbreviation MI := (nat * sizedMessage (Msg := Msg))%type.
Abbreviation Loop := (retry (Msg := Msg)).
Abbreviation loopStep := (retryStep protoSize maxBufferBytes maxBufferCount).
Abbreviation sorter := (sortState (MI := MI)).

Definition prioOf (mi : MI) : Message.Priority := priority (m mi.2).

Record client := mkClient {
  (** outLow, outMedium, outHigh *)
  loops : list Loop;
  sort : sorter;
  filt : Filter.t;
  (** What the communicator took and has not settled. *)
  com : list MI;
  stopping : bool;
  (** What Stop's goroutine took and has not acknowledged. *)
  hand : option MI;
}.

Definition clientInit : client :=
  mkClient (replicate 3 retryInit) (Running noQueues) Filter.NewFilter [] false None.

Definition setLoops v (c : client) := mkClient v (sort c) (filt c) (com c) (stopping c) (hand c).
Definition setSort v (c : client) := mkClient (loops c) v (filt c) (com c) (stopping c) (hand c).
Definition setCom v (c : client) := mkClient (loops c) (sort c) (filt c) v (stopping c) (hand c).
Definition setHand v (c : client) := mkClient (loops c) (sort c) (filt c) (com c) (stopping c) v.

(** The channel ProcessMessage picks. *)
Definition laneOf (p : Message.Priority) : nat :=
  match p with
  | Message.LOW => 0
  | Message.MEDIUM => 1
  | Message.HIGH => 2
  | Message.UnknownPriority _ => 1
  end.

Inductive clientEvent :=
| Submit (x : Msg)            (* ProcessMessage hands a message to its loop *)
| LoopAck (i : nat)
| LoopNack (i : nat)
| HandOver (i : nat)          (* a RetryLoop sends, SortLoop receives *)
| SetFilter (f : Filter.t)
| Fetch                       (* the communicator receives from the outbox *)
| ComAck (mi : MI)
| ComNack (mi : MI)
| StopClient                  (* com.Stop and sc.Stop are done; the inputs are closed *)
| CloseLoop (i : nat)         (* a RetryLoop reads its closed input *)
| CloseSort                   (* after retryLoopsDone.Wait *)
| SortLeaves
| DrainFetch                  (* Stop's goroutine receives from the outbox *)
| DrainAck.

Definition updateLoop (i : nat) (e : retryEvent) (c : client) : option client :=
  r ← loops c !! i;
  r' ← loopStep r e;
  Some (setLoops (<[i := r']> (loops c)) c).

(** What SortLoop offers now. *)
Definition offer (c : client) : option (list MI * sorter) :=
  match sort c with
  | Running _ => sortStep prioOf (sort c) (SendNext (filt c))
  | _ => sortStep prioOf (sort c) Drain
  end.

Definition loopDone (r : Loop) : bool := match point r with LoopDone => true | _ => false end.

Definition clientStep (c : client) (e : clientEvent) : option client :=
  match e with
  | Submit x => if stopping c then None else updateLoop (laneOf (priority x)) (Take x) c
  | LoopAck i => updateLoop i TakeAck c
  | LoopNack i => updateLoop i TakeNack c
  | HandOver i =>
      r ← loops c !! i;
      match point r with
      | Sending sm =>
          s ← sortStep prioOf (sort c) (Receive (i, sm));
          c' ← updateLoop i Deliver c;
          Some (setSort s.2 c')
      | _ => None
      end
  | SetFilter f =>
      if stopping c then None
      else Some (mkClient (loops c) (sort c) f (com c) (stopping c) (hand c))
  | Fetch =>
      if stopping c then None
      else o ← offer c; Some (setCom (com c ++ o.1) (setSort o.2 c))
  | ComAck mi =>
      rest ← takeOut mi (com c); c' ← updateLoop mi.1 (CallAck mi.2) c; Some (setCom rest c')
  | ComNack mi =>
      rest ← takeOut mi (com c); c' ← updateLoop mi.1 (CallNack mi.2) c; Some (setCom rest c')
  | StopClient =>
      if stopping c || negb (bool_decide (com c = [])) then None
      else Some (mkClient (loops c) (sort c) (filt c) [] true (hand c))
  | CloseLoop i => if stopping c then updateLoop i InClosed c else None
  | CloseSort =>
      if stopping c && bool_decide (Forall (fun r => loopDone r = true) (loops c))
      then s ← sortStep prioOf (sort c) InputClosed; Some (setSort s.2 c)
      else None
  | SortLeaves => s ← sortStep prioOf (sort c) Leave; Some (setSort s.2 c)
  | DrainFetch =>
      match stopping c, hand c with
      | true, None => o ← offer c; Some (setHand (head o.1) (setSort o.2 c))
      | _, _ => None
      end
  | DrainAck =>
      mi ← hand c; c' ← updateLoop mi.1 (CallAck mi.2) c; Some (setHand None c')
  end.

Definition clientMoves (c c' : client) : Prop := exists e, clientStep c e = Some c'.

Definition clientReachable (c : client) : Prop := rtc clientMoves clientInit c.

(** Stop returns. *)
Definition stopped (c : client) : Prop := stopping c = true /\ sort c = SortDone /\ hand c = None.

(** ** Every message is where its loop thinks it is *)
Context (HmaxMsg : forall x, (0 <= protoSize x < 2 ^ 31)%Z).

Abbreviation loopOK := (retryOK protoSize maxBufferBytes maxBufferCount (2 ^ 31 - 1)).

Definition ofLane (i : nat) (l : list MI) : list sizedMessage :=
  omap (fun mi => if decide (mi.1 = i) then Some mi.2 else None) l.

Definition handed (c : client) : list MI := match hand c with Some mi => [mi] | None => [] end.

(** The messages whose callbacks are still to come. *)
Definition inFlight (c : client) : list MI := buffered (sort c) ++ com c ++ handed c.

Record routed (ls : list Loop) (out : list MI) : Prop := {
  rt_loop i r : ls !! i = Some r -> loopOK r;
  rt_held i r : ls !! i = Some r -> held r ≡ₚ ofLane i out;
  rt_lane : Forall (fun mi => is_Some (ls !! mi.1)) out;
}.

Lemma ofLane_cons i mi l :
  ofLane i (mi :: l) = (if decide (mi.1 = i) then [mi.2] else []) ++ ofLane i l.
Proof. unfold ofLane. simpl. by destruct (decide (mi.1 = i)). Qed.

#[local] Instance ofLane_perm i : Proper (Permutation ==> Permutation) (ofLane i).
Proof. intros l l' Hp. by apply omap_Permutation. Qed.

Lemma routed_perm ls out out' : out ≡ₚ out' -> routed ls out -> routed ls out'.
Proof.
  intros Hp [H1 H2 H3]. split; [done| |by rewrite <- Hp].
  intros i r Hr. rewrite (H2 i r Hr). by rewrite Hp.
Qed.

Lemma loopStep_OK r e r' : loopOK r -> loopStep r e = Some r' -> loopOK r'.
Proof using HmaxMsg.
  intros Hok E. eapply retryStep_OK; try eassumption; try done.
  intros x. specialize (HmaxMsg x). lia.
Qed.

Lemma lookup_insert_Some (ls : list Loop) i j r r' :
  <[i := r']> ls !! j = Some r -> is_Some (ls !! i) -> (j = i /\ r = r') \/ (j <> i /\ ls !! j = Some r).
Proof.
  intros E [r0 Hr]. destruct (decide (j = i)) as [->|Hn].
  - rewrite list_lookup_insert_eq in E by (by eapply lookup_lt_Some). injection E as <-. by left.
  - rewrite list_lookup_insert_ne in E by done. by right.
Qed.

Lemma is_Some_insert (ls : list Loop) i j r' : is_Some (ls !! j) -> is_Some (<[i := r']> ls !! j).
Proof. rewrite !lookup_lt_is_Some, length_insert. done. Qed.

(** A step of loop [i] whose held messages change as the list in flight does. *)
Lemma routed_step ls out out' i r e r' :
  routed ls out -> ls !! i = Some r -> loopStep r e = Some r' ->
  held r' ≡ₚ ofLane i out' -> (forall j, j <> i -> ofLane j out' ≡ₚ ofLane j out) ->
  Forall (fun mi => is_Some (ls !! mi.1)) out' -> routed (<[i := r']> ls) out'.
Proof using HmaxMsg.
  intros [H1 H2 H3] Hr Hst Hh Hj Hl. split.
  - intros j r1 [[-> ->]|[_ E]]%lookup_insert_Some; [|by eapply H1|by eexists].
    eapply loopStep_OK; [by eapply H1|done].
  - intros j r1 [[-> ->]|[Hn E]]%lookup_insert_Some; [done| |by eexists].
    rewrite (H2 _ _ E). symmetry. by apply Hj.
  - eapply Forall_impl; [exact Hl|]. intros mi. apply is_Some_insert.
Qed.

Lemma routed_quiet ls out i r e r' :
  routed ls out -> ls !! i = Some r -> loopStep r e = Some r' -> held r' = held r ->
  routed (<[i := r']> ls) out.
Proof using HmaxMsg.
  intros Hrt Hr Hst Hh. eapply routed_step; [done|done|done| |done|apply Hrt].
  rewrite Hh. by apply Hrt.
Qed.

Lemma loopStep_held r e r' : loopStep r e = Some r' ->
  match e with
  | Take _ | InClosed | TakeAck | TakeNack => held r' = held r
  | Deliver => exists sm, point r = Sending sm /\ held r' = held r ++ [sm]
  | CallAck sm | CallNack sm => held r ≡ₚ sm :: held r'
  end.
Proof.
  unfold retryStep. intros E. destruct e as [x| | | | |sm|sm].
  - destruct (point r); [|done..]. destruct (reading _ _ r); [|done]. by injection E as <-.
  - destruct (point r); [|done..]. destruct (reading _ _ r); [|done]. by injection E as <-.
  - destruct (point r); [|done..]. destruct (acks r); [done|]. by injection E as <-.
  - destruct (point r); [|done..]. destruct (nacks r); [done|]. by injection E as <-.
  - destruct (point r) as [|sm|]; [done| |done]. exists sm. by injection E as <-.
  - destruct (hasRoom _ (acks r)); [|by destruct (point r)].
    destruct (takeOut sm (held r)) eqn:Hh; [|by destruct (point r)]. apply takeOut_perm in Hh.
    destruct (point r); by injection E as <-.
  - destruct (hasRoom _ (nacks r)); [|by destruct (point r)].
    destruct (takeOut sm (held r)) eqn:Hh; [|by destruct (point r)]. apply takeOut_perm in Hh.
    destruct (point r); by injection E as <-.
Qed.

Lemma routed_deliver ls out i r sm r' :
  routed ls out -> ls !! i = Some r -> point r = Sending sm -> loopStep r Deliver = Some r' ->
  routed (<[i := r']> ls) ((i, sm) :: out).
Proof using HmaxMsg.
  intros Hrt Hr Hp Hst. pose proof (loopStep_held _ _ _ Hst) as (sm' & Hp' & Hh).
  rewrite Hp in Hp'. injection Hp' as <-. eapply routed_step; [done|done|done| | |].
  - rewrite Hh, ofLane_cons, decide_True by done. rewrite (rt_held _ _ Hrt _ _ Hr).
    symmetry. apply Permutation_cons_append.
  - intros j Hj. rewrite ofLane_cons, decide_False by done. done.
  - constructor; [by eexists|apply Hrt].
Qed.

Lemma routed_call ls out mi r e r' :
  routed ls (mi :: out) -> ls !! mi.1 = Some r -> e = CallAck mi.2 \/ e = CallNack mi.2 ->
  loopStep r e = Some r' -> routed (<[mi.1 := r']> ls) out.
Proof using HmaxMsg.
  intros Hrt Hr He Hst. pose proof (loopStep_held _ _ _ Hst) as Hh.
  assert (Hh' : held r ≡ₚ mi.2 :: held r') by (by destruct He as [-> | ->]). clear Hh.
  eapply routed_step; [done|done|done| | |].
  - rewrite (rt_held _ _ Hrt _ _ Hr), ofLane_cons, decide_True in Hh' by done. simpl in Hh'.
    symmetry. by eapply Permutation_cons_inv.
  - intros j Hj. rewrite ofLane_cons, decide_False by done. done.
  - by eapply Forall_inv_tail, Hrt.
Qed.

Record clientOK (c : client) : Prop := {
  co_routed : routed (loops c) (inFlight c);
  co_sort : sortOK prioOf (sort c);
  co_com : stopping c = true -> com c = [];
  co_hand : stopping c = false -> hand c = None;
  co_done : (forall q, sort c <> Running q) ->
    stopping c = true /\ Forall (fun r => loopDone r = true) (loops c);
}.

Lemma updateLoop_Some i e c c' : updateLoop i e c = Some c' ->
  exists r r', loops c !! i = Some r /\ loopStep r e = Some r' /\ c' = setLoops (<[i := r']> (loops c)) c.
Proof.
  unfold updateLoop. destruct (loops c !! i) as [r|] eqn:Hr; [|done]. simpl.
  destruct (loopStep r e) as [r'|] eqn:Hst; [|done]. simpl. intros [= <-]. by exists r, r'.
Qed.

Lemma loopStep_done r e r' : loopStep r e = Some r' -> loopDone r = true -> loopDone r' = true.
Proof.
  unfold loopDone, retryStep. intros E Hd. destruct (point r) eqn:Hp; [done..|].
  destruct e as [x| | | | |sm|sm]; try done; destruct (hasRoom _ _); try done;
    destruct (takeOut sm (held r)); try done; by injection E as <-.
Qed.

Lemma allDone_insert (ls : list Loop) i r r' e :
  Forall (fun r => loopDone r = true) ls -> ls !! i = Some r -> loopStep r e = Some r' ->
  Forall (fun r => loopDone r = true) (<[i := r']> ls).
Proof.
  intros H Hr Hst. apply Forall_insert; [done|]. eapply loopStep_done; [done|].
  rewrite Forall_lookup in H. by eapply H.
Qed.

Lemma clientOK_init : clientOK clientInit.
Proof using Type.
  split; [|by split; constructor|done|done|by intros H; destruct (H noQueues)].
  split; [| |constructor].
  - intros i r [-> _]%lookup_replicate. by apply retryOK_init.
  - intros i r [-> _]%lookup_replicate. done.
Qed.

(** Steps of one loop that concern no message in flight. *)
Lemma clientOK_quiet i e c c' :
  clientOK c -> updateLoop i e c = Some c' -> (match e with Take _ | InClosed | TakeAck | TakeNack => True | _ => False end) ->
  clientOK c'.
Proof using HmaxMsg.
  intros [H1 H2 H3 H4 H5] (r & r' & Hr & Hst & ->)%updateLoop_Some He.
  split; try done.
  - simpl. eapply routed_quiet; [done|done|done|]. pose proof (loopStep_held _ _ _ Hst). by destruct e.
  - intros Hn. destruct (H5 Hn) as [Hs Hd]. split; [done|]. simpl. by eapply allDone_insert.
Qed.

(** A callback, with the message taken out of what is in flight. *)
Lemma routed_callback c mi e c' out :
  clientOK c -> inFlight c ≡ₚ mi :: out -> e = CallAck mi.2 \/ e = CallNack mi.2 ->
  updateLoop mi.1 e c = Some c' ->
  routed (loops c') out /\ c' = setLoops (loops c') c /\
  ((forall q, sort c <> Running q) -> Forall (fun r => loopDone r = true) (loops c')).
Proof using HmaxMsg.
  intros Hok Hp He (r & r' & Hr & Hst & ->)%updateLoop_Some. split; [|split; [done|]].
  - simpl. eapply routed_call; [|done|done|done]. eapply routed_perm; [exact Hp|apply Hok].
  - intros [_ Hd]%(co_done _ Hok). simpl. by eapply allDone_insert.
Qed.

Lemma sortStep_offer c o : clientOK c -> offer c = Some o ->
  exists mi s, o = ([mi], s) /\ sortOK prioOf s /\ buffered (sort c) ≡ₚ mi :: buffered s /\
    ((exists q, s = Running q) <-> exists q, sort c = Running q) /\ s <> SortDone.
Proof using Type.
  intros Hok E. unfold offer in E.
  assert (Hst : exists e, sortStep prioOf (sort c) e = Some o /\ received [e] = [])
    by (destruct (sort c); eexists; split; try exact E; done).
  destruct Hst as (e & Hst & Hrec). destruct o as [sent s].
  destruct (sortStep_OK _ _ _ _ _ (co_sort _ Hok) Hst) as (Hs & Hp & _). rewrite Hrec, app_nil_r in Hp.
  destruct (sort c) as [q|l|]; simpl in E; [| |done].
  - destruct (nextToSend (filt c) q) as [[mi q']|]; [|done]. injection E as <- <-.
    exists mi, (Running q'). do 3 (split; [done|]). split; [|done]. split; intros _; by eexists.
  - destruct l as [|mi l]; [done|]. injection E as <- <-.
    exists mi, (Draining l). do 3 (split; [done|]). split; [|done]. by split; intros [? [=]].
Qed.

(** SortLoop moves, the loops stay. *)
Lemma clientOK_sort c c' :
  clientOK c -> loops c' = loops c -> stopping c' = stopping c -> inFlight c ≡ₚ inFlight c' ->
  sortOK prioOf (sort c') -> (stopping c = true -> com c' = []) -> (stopping c = false -> hand c' = None) ->
  ((forall q, sort c' <> Running q) -> (forall q, sort c <> Running q) \/
     stopping c = true /\ Forall (fun r => loopDone r = true) (loops c)) ->
  clientOK c'.
Proof using Type.
  intros [H1 H2 H3 H4 H5] Hl Hs Hp Hso Hc Hh Hd. split; rewrite ?Hl, ?Hs; try done.
  - by eapply routed_perm.
  - intros [Hn|Hn]%Hd; [by apply H5|done].
Qed.

Lemma offer_stays c o : clientOK c -> offer c = Some o ->
  (forall q, o.2 <> Running q) -> forall q, sort c <> Running q.
Proof using Type.
  intros Hok E Hn q Hq. destruct (sortStep_offer _ _ Hok E) as (mi & s & -> & _ & _ & Hr & _).
  destruct (proj2 Hr (ex_intro _ q Hq)) as [q' Hq']. by destruct (Hn q').
Qed.

Lemma handOver_OK i c c' : clientOK c -> clientStep c (HandOver i) = Some c' -> clientOK c'.
Proof using HmaxMsg.
  intros Hok E. simpl in E. destruct (loops c !! i) as [r|] eqn:Hr; [|done]. simpl in E.
  destruct (point r) as [|sm|] eqn:Hp; [done| |done].
  destruct (sort c) as [q|l|] eqn:Hso; [|done..]. simpl in E.
  destruct (updateLoop i Deliver c) as [c1|] eqn:Hu; [|done]. injection E as <-.
  apply updateLoop_Some in Hu as (r0 & r' & Hr0 & Hst & ->). rewrite Hr in Hr0. injection Hr0 as <-.
  destruct Hok as [H1 H2 H3 H4 H5]. rewrite Hso in H2. split; try done.
  - simpl. eapply routed_perm; [|by eapply routed_deliver].
    unfold inFlight. simpl. rewrite Hso. rewrite app_comm_cons. apply Permutation_app_tail.
    rewrite Permutation_cons_append. apply appendMI_buffered.
  - by apply appendMI_OK.
  - intros Hn. by destruct (Hn (appendMI prioOf (i, sm) q)).
Qed.

Lemma fetch_OK c c' : clientOK c -> clientStep c Fetch = Some c' -> clientOK c'.
Proof using Type.
  intros Hok E. simpl in E. destruct (stopping c) eqn:Hs; [done|].
  destruct (offer c) as [o|] eqn:Ho; [|done]. injection E as <-. pose proof (offer_stays _ _ Hok Ho) as Hst.
  destruct (sortStep_offer _ _ Hok Ho) as (mi & s & -> & Hso & Hp & _).
  apply (clientOK_sort c); try done; [|by rewrite Hs|by intros _; apply Hok|by intros Hn; left; apply Hst].
  unfold inFlight, handed. simpl. rewrite Hp, <- (app_assoc (com c)), !(app_assoc (buffered s)). simpl.
  rewrite (app_assoc (buffered s)). apply Permutation_middle.
Qed.

Lemma drainFetch_OK c c' : clientOK c -> clientStep c DrainFetch = Some c' -> clientOK c'.
Proof using Type.
  intros Hok E. simpl in E. destruct (stopping c) eqn:Hs; [|done].
  destruct (hand c) eqn:Hh; [done|].
  destruct (offer c) as [o|] eqn:Ho; [|done]. injection E as <-. pose proof (offer_stays _ _ Hok Ho) as Hst.
  destruct (sortStep_offer _ _ Hok Ho) as (mi & s & -> & Hso & Hp & _).
  apply (clientOK_sort c); try done; [|by intros _; apply Hok|by rewrite Hs|by intros Hn; left; apply Hst].
  unfold inFlight, handed. simpl. rewrite Hh, Hp, app_nil_r, (app_assoc (buffered s)).
  apply Permutation_cons_append.
Qed.

Lemma pipeline_answer_OK c mi e rest c1 :
  clientOK c -> takeOut mi (com c) = Some rest -> e = CallAck mi.2 \/ e = CallNack mi.2 ->
  updateLoop mi.1 e c = Some c1 -> clientOK (setCom rest c1).
Proof using HmaxMsg.
  intros Hok Ht%takeOut_perm He Hu.
  destruct (routed_callback c mi e c1 (buffered (sort c) ++ rest ++ handed c)) as (Hrt & -> & Hd); [done| |done|done|].
  { unfold inFlight. rewrite Ht. symmetry. apply (Permutation_middle _ (rest ++ handed c)). }
  destruct Hok as [H1 H2 H3 H4 H5]. split; try done; simpl.
  - intros Hs. rewrite (H3 Hs) in Ht. by apply Permutation_nil_cons in Ht.
  - intros Hn. destruct (H5 Hn) as [? _]. split; [done|]. by apply Hd.
Qed.

Lemma drainAck_OK c c' : clientOK c -> clientStep c DrainAck = Some c' -> clientOK c'.
Proof using HmaxMsg.
  intros Hok E. simpl in E. destruct (hand c) as [mi|] eqn:Hh; [|done]. simpl in E.
  destruct (updateLoop _ _ c) as [c1|] eqn:Hu; [|done]. injection E as <-.
  destruct (routed_callback c mi (CallAck mi.2) c1 (buffered (sort c) ++ com c ++ [])) as (Hrt & -> & Hd);
    [done| |by left|done|].
  { unfold inFlight, handed. rewrite Hh, app_nil_r, app_assoc. symmetry. apply Permutation_cons_append. }
  destruct Hok as [H1 H2 H3 H4 H5]. split; try done; simpl.
  intros Hn. destruct (H5 Hn) as [? _]. split; [done|]. by apply Hd.
Qed.

Lemma clientStep_OK c e c' : clientOK c -> clientStep c e = Some c' -> clientOK c'.
Proof using HmaxMsg.
  intros Hok E. destruct e as [x|i|i|i|f| |mi|mi| |i| | | |].
  - simpl in E. destruct (stopping c); [done|]. by eapply clientOK_quiet.
  - by eapply clientOK_quiet.
  - by eapply clientOK_quiet.
  - by eapply handOver_OK.
  - simpl in E. destruct (stopping c) eqn:Hs; [done|]. injection E as <-.
    apply (clientOK_sort c); try done; [apply Hok|apply Hok|apply Hok|by left].
  - by eapply fetch_OK.
  - simpl in E. destruct (takeOut mi (com c)) eqn:Ht; [|done]. simpl in E.
    destruct (updateLoop _ _ c) eqn:Hu; [|done]. injection E as <-. eapply pipeline_answer_OK; [done|done| |done]. by left.
  - simpl in E. destruct (takeOut mi (com c)) eqn:Ht; [|done]. simpl in E.
    destruct (updateLoop _ _ c) eqn:Hu; [|done]. injection E as <-. eapply pipeline_answer_OK; [done|done| |done]. by right.
  - simpl in E. destruct (stopping c) eqn:Hs; [done|]. case_bool_decide as Hc; [|done]. injection E as <-.
    destruct Hok as [H1 H2 H3 H4 H5]. split; try done.
    + unfold inFlight in *. simpl. by rewrite Hc in H1.
    + intros Hn. destruct (H5 Hn). by rewrite Hs in *.
  - simpl in E. destruct (stopping c); [|done]. by eapply clientOK_quiet.
  - simpl in E. destruct (stopping c) eqn:Hs; [|done]. case_bool_decide as Hd; [|done].
    destruct (sort c) as [q|l|] eqn:Hq; [|done..]. injection E as <-.
    apply (clientOK_sort c); try done; [by unfold inFlight; simpl; rewrite Hq|by intros _; apply Hok|by rewrite Hs|].
    intros _. by right.
  - simpl in E. destruct (sort c) as [q|l|] eqn:Hq; [done| |done]. destruct l; [|done]. injection E as <-.
    apply (clientOK_sort c); try done; [by unfold inFlight; simpl; rewrite Hq|apply Hok|apply Hok|].
    intros _. left. by rewrite Hq.
  - by eapply drainFetch_OK.
  - by eapply drainAck_OK.
Qed.

(** ** Stopping *)
Definition loopWork (r : Loop) : nat :=
  5 * length (nacks r) + 4 * length (sending r) + length (acks r) + (if loopDone r then 0 else 1).

Definition sorterWork (s : sorter) : nat :=
  3 * length (buffered s) + match s with Running _ => 2 | Draining _ => 1 | SortDone => 0 end.

Definition clientWork (c : client) : nat :=
  sum_list_with loopWork (loops c) + sorterWork (sort c) + 2 * length (handed c).

Lemma sum_insert {A} (f : A -> nat) l i x y : l !! i = Some x ->
  sum_list_with f (<[i := y]> l) + f x = sum_list_with f l + f y.
Proof.
  revert i. induction l as [|z l IH]; intros [|i] E; simpl in *; try done.
  - injection E as ->. lia.
  - specialize (IH i E). lia.
Qed.

Lemma loopStep_work r e r' : loopStep r e = Some r' ->
  match e with
  | Take _ => True
  | InClosed | TakeAck | TakeNack => loopWork r' < loopWork r
  | Deliver => loopWork r' + 4 = loopWork r
  | CallAck _ => loopWork r' = loopWork r + 1
  | CallNack _ => True
  end.
Proof.
  unfold retryStep, loopWork, sending, loopDone. intros E. destruct e as [x| | | | |sm|sm]; try done.
  - destruct (point r) eqn:Hp; [|done..]. destruct (reading _ _ r); [|done]. injection E as <-. simpl. lia.
  - destruct (point r) eqn:Hp; [|done..]. destruct (acks r); [done|]. injection E as <-. simpl. lia.
  - destruct (point r) eqn:Hp; [|done..]. destruct (nacks r); [done|]. injection E as <-. simpl. lia.
  - destruct (point r) eqn:Hp; [done| |done]. injection E as <-. simpl. lia.
  - destruct (hasRoom _ (acks r)); [|by destruct (point r)].
    destruct (takeOut sm (held r)); [|by destruct (point r)].
    destruct (point r); injection E as <-; simpl; rewrite length_app; simpl; lia.
Qed.

Lemma offer_work c o : clientOK c -> offer c = Some o ->
  sorterWork (sort c) = sorterWork o.2 + 3 /\ length o.1 = 1.
Proof using Type.
  intros Hok E. unfold offer in E. unfold sorterWork. split.
  - destruct (sortStep_offer _ _ Hok E) as (mi & s & -> & _ & Hp & Hr & Hd).
    rewrite (Permutation_length Hp). simpl. destruct (sort c) as [q|l|]; simpl in E; [| |done].
    + destruct (proj2 Hr (ex_intro _ q eq_refl)) as [q' ->]. lia.
    + destruct s as [q'| |]; [|lia|done]. destruct (proj1 Hr (ex_intro _ q' eq_refl)) as [? [=]].
  - by destruct (sortStep_offer _ _ Hok E) as (mi & s & -> & _).
Qed.

Lemma clientWork_loop i r r' c : loops c !! i = Some r ->
  clientWork (setLoops (<[i := r']> (loops c)) c) + loopWork r = clientWork c + loopWork r'.
Proof using Type.
  intros Hr. unfold clientWork. change (handed (setLoops _ c)) with (handed c). cbn [loops sort setLoops].
  pose proof (sum_insert loopWork _ _ _ r' Hr). lia.
Qed.

(** A step of a loop alone. *)
Lemma quiet_work i e c c' : updateLoop i e c = Some c' -> (match e with InClosed | TakeAck | TakeNack => True | _ => False end) ->
  stopping c' = stopping c /\ clientWork c' < clientWork c.
Proof using Type.
  intros (r & r' & Hr & Hst%loopStep_work & ->)%updateLoop_Some He. split; [done|].
  pose proof (clientWork_loop i r r' c Hr). destruct e; try done; lia.
Qed.

(** While Stop runs every step brings its end nearer. *)
Lemma stopping_work c e c' : clientOK c -> stopping c = true -> clientStep c e = Some c' ->
  stopping c' = true /\ clientWork c' < clientWork c.
Proof using Type.
  intros Hok Hs E. pose proof (co_com _ Hok Hs) as Hcom.
  destruct e as [x|i|i|i|f| |mi|mi| |i| | | |]; simpl in E; rewrite ?Hs, ?Hcom in E; try done.
  - rewrite <- Hs at 1. by eapply quiet_work.
  - rewrite <- Hs at 1. by eapply quiet_work.
  - destruct (loops c !! i) as [r|] eqn:Hr; [|done]. simpl in E. destruct (point r) as [|sm|]; [done| |done].
    destruct (sort c) as [q|l|] eqn:Hq; [|done..]. simpl in E.
    destruct (updateLoop i Deliver c) as [c1|] eqn:Hu; [|done]. injection E as <-.
    apply updateLoop_Some in Hu as (r0 & r' & Hr0 & Hst%loopStep_work & ->). split; [done|].
    pose proof (clientWork_loop i r0 r' c Hr0) as Hw.
    pose proof (Permutation_length (appendMI_buffered prioOf (i, sm) q)) as Hl. rewrite length_app in Hl.
    unfold clientWork, sorterWork in *. cbn [loops sort setSort setLoops] in *. rewrite Hq in *.
    change (handed (setSort _ _)) with (handed c). change (handed (setLoops _ _)) with (handed c) in Hw.
    simpl in *. lia.
  - rewrite <- Hs at 1. by eapply quiet_work.
  - case_bool_decide; [|done]. destruct (sort c) as [q|l|] eqn:Hq; [|done..]. injection E as <-. split; [done|].
    unfold clientWork, sorterWork. cbn [loops sort setSort]. rewrite Hq.
    change (handed (setSort _ _)) with (handed c). simpl. lia.
  - destruct (sort c) as [q|l|] eqn:Hq; [done| |done]. destruct l; [|done]. injection E as <-. split; [done|].
    unfold clientWork, sorterWork. cbn [loops sort setSort]. rewrite Hq.
    change (handed (setSort _ _)) with (handed c). simpl. lia.
  - destruct (hand c) eqn:Hh; [done|]. destruct (offer c) as [o|] eqn:Ho; [|done]. injection E as <-.
    split; [done|]. destruct (offer_work _ _ Hok Ho) as [Hw Hl].
    unfold clientWork, handed. cbn [loops sort setSort setHand hand]. rewrite Hh, Hw.
    destruct o.1 as [|mi [|]]; simpl in *; lia.
  - destruct (hand c) as [mi|] eqn:Hh; [|done]. simpl in E.
    destruct (updateLoop _ _ c) as [c1|] eqn:Hu; [|done]. injection E as <-.
    apply updateLoop_Some in Hu as (r & r' & Hr & Hst%loopStep_work & ->). split; [done|].
    pose proof (clientWork_loop mi.1 r r' c Hr) as Hw.
    unfold clientWork, handed in *. cbn [loops sort setSort setHand setLoops hand] in *. rewrite Hh in *.
    simpl in *. lia.
Qed.

Lemma offer_buffered c : sortOK prioOf (sort c) -> filt c = Filter.NewFilter -> buffered (sort c) <> [] ->
  is_Some (offer c).
Proof using Type.
  intros Hso Hf Hb. unfold offer. destruct (sort c) as [q|l|]; simpl in *; [| |done].
  - destruct (nextToSend (filt c) q) as [[mi q']|] eqn:En; [by eexists|]. exfalso. rewrite Hf in En.
    pose proof (nextToSend_None _ _ En) as Hn. apply Hb.
    destruct (Hn Message.HIGH) as [|H1]; [done|]. destruct (Hn Message.MEDIUM) as [|H2]; [done|].
    destruct (Hn Message.LOW) as [|H3]; [done|]. simpl in *. by rewrite H1, H2, H3.
  - destruct l; [done|]. by eexists.
Qed.

Lemma updateLoop_enabled i e c r : loops c !! i = Some r -> is_Some (loopStep r e) ->
  exists c', updateLoop i e c = Some c'.
Proof using Type. intros Hr [r' Hst]. unfold updateLoop. rewrite Hr. simpl. rewrite Hst. by eexists. Qed.

(** While Stop runs unfiltered, something can happen until it returns. *)
Lemma stopping_progress c : clientOK c -> stopping c = true -> filt c = Filter.NewFilter ->
  stopped c \/ exists e, is_Some (clientStep c e).
Proof using HmaxMsg.
  intros Hok Hs Hf. pose proof Hok as [[H1 H2 H3] Hso Hcom Hhand Hdone]. specialize (Hcom Hs).
  destruct (hand c) as [mi|] eqn:Hh.
  { right. exists DrainAck. simpl. rewrite Hh. simpl. unfold inFlight, handed in *. rewrite Hh, Hcom in *.
    assert (Hin : mi ∈ buffered (sort c) ++ [] ++ [mi]) by (apply elem_of_app; right; left).
    rewrite Forall_forall in H3. destruct (H3 _ Hin) as [r Hr].
    destruct (callback_enabled protoSize maxBufferBytes maxBufferCount (2 ^ 31 - 1) r mi.2) as [Hen _].
    - by eapply H1.
    - rewrite (H2 _ _ Hr). apply list_elem_of_omap. exists mi. split; [done|]. by rewrite decide_True.
    - destruct (updateLoop_enabled _ _ c _ Hr Hen) as [c' ->]. by eexists. }
  destruct (decide (buffered (sort c) = [])) as [Hb|Hb].
  2:{ right. exists DrainFetch. simpl. rewrite Hs, Hh.
      destruct (offer_buffered c Hso Hf Hb) as [o ->]. by eexists. }
  destruct (sort c) as [q|l|] eqn:Hq; [|right; exists SortLeaves; simpl in *; subst; simpl; rewrite Hq; by eexists|by left].
  right. destruct (decide (Forall (fun r => loopDone r = true) (loops c))) as [Hd|Hd].
  { exists CloseSort. simpl. rewrite Hs, bool_decide_true, Hq by done. by eexists. }
  apply not_Forall_Exists in Hd; [|intros r; apply _].
  apply Exists_exists in Hd as (r & Hin & Hnd). apply list_elem_of_lookup in Hin as [i Hr].
  assert (Hheld : held r = []).
  { apply Permutation_nil_r. rewrite (H2 _ _ Hr). unfold inFlight, handed. by rewrite Hq, Hb, Hcom, Hh. }
  destruct (point r) as [|sm|] eqn:Hp; [| |by destruct Hnd; unfold loopDone; rewrite Hp].
  - destruct (loop_goes_on protoSize maxBufferBytes maxBufferCount (2 ^ 31 - 1) eq_refl eq_refl r)
      as [Hen|[Hen|Hrd]]; [by eapply H1|done|done|exists (LoopAck i)|exists (LoopNack i)|exists (CloseLoop i)].
    + by apply (updateLoop_enabled _ _ _ r).
    + by apply (updateLoop_enabled _ _ _ r).
    + simpl. rewrite Hs. apply (updateLoop_enabled _ _ _ r); [done|]. simpl. rewrite Hp, Hrd. by eexists.
  - exists (HandOver i). simpl. rewrite Hr. simpl. rewrite Hp, Hq. simpl.
    destruct (updateLoop_enabled i Deliver c r) as [c' ->]; [done| |by eexists]. simpl. rewrite Hp. by eexists.
Qed.

Lemma clientOK_reachable c c' : clientOK c -> rtc clientMoves c c' -> clientOK c'.
Proof using HmaxMsg.
  intros Hok Hr. induction Hr as [|c1 c2 c3 [e He] _ IH]; [done|]. apply IH. by eapply clientStep_OK.
Qed.

Lemma stopping_filter c e c' : stopping c = true -> clientStep c e = Some c' -> filt c' = filt c.
Proof.
  intros Hs E. destruct e; simpl in E; rewrite ?Hs in E; try done;
    repeat match type of E with
    | updateLoop _ _ _ = Some _ => apply updateLoop_Some in E as (? & ? & _ & _ & ->)
    | context [updateLoop ?i ?e ?c ≫= _] => destruct (updateLoop i e c) eqn:Hu; [simpl in E|done]
    | context [?o ≫= _] => destruct o eqn:?; [simpl in E|done]
    | context [match ?o with _ => _ end] => destruct o eqn:?; try done
    | Some _ = Some _ => injection E as <-
    end; try done;
    match goal with H : updateLoop _ _ _ = Some _ |- _ =>
      apply updateLoop_Some in H as (? & ? & _ & _ & ->); done end.
Qed.

Lemma stopping_run c c' : clientOK c -> stopping c = true -> rtc clientMoves c c' ->
  clientOK c' /\ stopping c' = true /\ filt c' = filt c.
Proof using HmaxMsg.
  intros Hok Hs Hr. induction Hr as [|c1 c2 c3 [e He] _ IH]; [done|].
  destruct (stopping_work _ _ _ Hok Hs He) as [Hs2 _]. rewrite <- (stopping_filter _ _ _ Hs He).
  apply IH; [by eapply clientStep_OK|done].
Qed.

(** What a client that has stopped did with its messages. *)
Lemma stopped_settled c : clientOK c -> stopped c ->
  Forall (fun r => loopDone r = true /\ taken r ≡ₚ acked r ++ (m <$> nacks r)) (loops c).
Proof using Type.
  intros [[H1 H2 H3] _ Hcom _ Hdone] (Hs & Hq & Hh).
  destruct Hdone as [_ Hd]; [by rewrite Hq|]. apply Forall_lookup. intros i r Hr.
  rewrite Forall_lookup in Hd. specialize (Hd i r Hr). split; [done|].
  rewrite (ro_taken _ _ _ _ _ (H1 i r Hr)). unfold unacked, sending.
  assert (held r = []) as ->.
  { apply Permutation_nil_r. rewrite (H2 i r Hr). unfold inFlight, handed. by rewrite Hq, Hh, (Hcom Hs). }
  unfold loopDone in Hd. destruct (point r); [done..|]. by rewrite app_nil_r.
Qed.

(** C26: once Stop has stopped the communicator and the services, and nothing
    is filtered, it returns, whatever the scheduling: the steps that are left
    are bounded and until it returns one can be taken.  By then all RetryLoops
    have returned, and every message they had taken was acknowledged, if only
    by Stop, or was refused by the communicator and not offered again. *)
Theorem client_stop_ends c :
  clientReachable c -> stopping c = true -> filt c = Filter.NewFilter ->
  (forall n c', nsteps clientMoves n c c' -> n <= clientWork c) /\
  (forall c', rtc clientMoves c c' -> (forall c'', ~ clientMoves c' c'') -> stopped c') /\
  (forall c', rtc clientMoves c c' -> stopped c' ->
     Forall (fun r => loopDone r = true /\ taken r ≡ₚ acked r ++ (m <$> nacks r)) (loops c')).
Proof using HmaxMsg.
  intros Hr Hs Hf. assert (Hok : clientOK c) by (by eapply clientOK_reachable, Hr; apply clientOK_init).
  split; [|split].
  - intros n c' Hn. clear Hr Hf. induction Hn as [|n c1 c2 c3 [e He] _ IH]; [lia|].
    destruct (stopping_work _ _ _ Hok Hs He) as [Hs2 Hw].
    specialize (IH Hs2 (clientStep_OK _ _ _ Hok He)). lia.
  - intros c' Hrun Hstuck. destruct (stopping_run _ _ Hok Hs Hrun) as (Hok' & Hs' & Hf').
    destruct (stopping_progress c') as [|[e [c'' He]]]; [done|done|congruence|done|].
    exfalso. apply (Hstuck c''). by exists e.
  - intros c' Hrun. destruct (stopping_run _ _ Hok Hs Hrun) as (Hok' & _). by apply stopped_settled.
Qed.

(** Running a list of events. *)
Fixpoint clientRun (c : client) (es : list clientEvent) : option client :=
  match es with
  | [] => Some c
  | e :: es => match clientStep c e with Some c' => clientRun c' es | None => None end
  end.

Lemma clientRun_rtc c es c' : clientRun c es = Some c' -> rtc clientMoves c c'.
Proof using Type.
  revert c. induction es as [|e es IH]; simpl; intros c E; [injection E as ->; apply rtc_refl|].
  destruct (clientStep c e) as [c1|] eqn:He; [|done]. eapply rtc_l; [by exists e|by apply IH].
Qed.
End Pipeline.

(** ** Witness: three messages, one refused by the communicator. *)
Definition sampleClientEvents : list (clientEvent (Msg := Message.Priority * nat)) :=
  [Submit (Message.LOW, 1); HandOver 0; Submit (Message.HIGH, 2); HandOver 2; Fetch;
   Submit (Message.LOW, 3); ComNack (2, mkSized 8 (Message.HIGH, 2)); StopClient].

Definition sampleClient : option (client (Msg := Message.Priority * nat)) :=
  clientRun (fun _ => 8%Z) fst clientInit sampleClientEvents.

Lemma client_stop_ends_witness :
  exists c, sampleClient = Some c /\ stopping c = true /\
    forall n c', nsteps (clientMoves (fun _ => 8%Z) fst) n c c' -> n <= 17.
Proof.
  eexists. split; [vm_compute; reflexivity|]. split; [reflexivity|].
  refine (proj1 (client_stop_ends (fun _ : Message.Priority * nat => 8%Z) fst _ _ _ _ _)).
  - intros _. lia.
  - apply (clientRun_rtc _ _ _ sampleClientEvents). vm_compute. reflexivity.
  - reflexivity.
  - reflexivity.
Defined.

(** The filter stays in force during Stop: here one low priority message of 20
    MiB fills its buffer, so its RetryLoop does not read its closed input, and
    SortLoop does not offer the message: Stop waits for ever. *)
Definition hungClientEvents : list (clientEvent (Msg := Message.Priority * nat)) :=
  [Submit (Message.LOW, 1); HandOver 0; SetFilter (Filter.SetBits true false false);
   StopClient; CloseLoop 1; CloseLoop 2].

Example client_stop_hangs_when_filtered :
  exists c, clientRun (fun _ => maxBufferBytes) fst clientInit hungClientEvents = Some c /\
    ~ stopped c /\ forall e, clientStep (fun _ => maxBufferBytes) fst c e = None.
Proof.
  eexists. split; [vm_compute; reflexivity|]. split; [by intros (_ & [=] & _)|].
  intros e. destruct e as [x|i|i|i|f| |mi|mi| |i| | | |]; try reflexivity;
    destruct i as [|[|[|i]]]; reflexivity.
Qed.
