(* ===== verification/ClientConfig.v ===== *)
(** * The client's persistent configuration

    src/client/internal/config/manager.go, and the state file of
    src/client/config/filesystem_persistence_handler.go.  File operations can
    fail or be cut short by the end of the process at any point ([OsLib]).
    Signed and text service files, and the windows registry, are not modelled. *)
From S2P Require Import Prelude Platform Ids Proto.

(** ** clpb.ClientState (src/client/proto/fleetspeak_client/client.proto) *)
Module ClientState.
Record t := Mk {
  ClientKey : gobytes;
  SequencingNonce : Z;
  RevokedCertSerials : list string;
}.

Definition zero : t := Mk None 0 [].

Definition setKey v (s : t) := Mk v (SequencingNonce s) (RevokedCertSerials s).
Definition setNonce v (s : t) := Mk (ClientKey s) v (RevokedCertSerials s).
Definition addSerial v (s : t) := Mk (ClientKey s) (SequencingNonce s) (RevokedCertSerials s ++ [v]).
End ClientState.

(** What ends a file operation early: an error, or the end of the process; of
    a write, so much has reached the file. *)
Inductive osFault := OsError (code : Z) (written : string) | Killed (written : string).

Class OsLib := {
  osFaultAt : nat -> option osFault;
  marshalClientState : ClientState.t -> outcome string;
  unmarshalClientState : string -> outcome ClientState.t;
}.

Class OsLibOK (O : OsLib) : Prop := {
  clientState_roundtrip s b : marshalClientState s = Ok b -> unmarshalClientState b = Ok s;
}.

(** ** The state file *)
Section Files.
Context `{O : OsLib}.

Abbreviation FS A := (M (World (gmap string string)) A).

Definition osOp {A} (partial : string -> gmap string string -> gmap string string)
    (f : gmap string string -> outcome (A * gmap string string)) : FS A := fun w =>
  let step := S (w_step w) in
  match osFaultAt (w_step w) with
  | Some (OsError c part) => (Err (ErrIO c), mkWorld (partial part (w_data w)) step)
  | Some (Killed part) => (Crash "killed", mkWorld (partial part (w_data w)) step)
  | None => match f (w_data w) with
            | Ok (a, d) => (Ok a, mkWorld d step)
            | Err e => (Err e, mkWorld (w_data w) step)
            | Crash c => (Crash c, mkWorld (w_data w) step)
            end
  end.

Definition osReadFile (p : string) : FS string :=
  osOp (fun _ fs => fs) (fun fs => match fs !! p with
    | Some b => Ok (b, fs) | None => Err (ErrText "no such file or directory") end).

Definition osRemoveAll (p : string) : FS unit := osOp (fun _ fs => fs) (fun fs => Ok (tt, delete p fs)).

Definition osWriteFile (p b : string) : FS unit :=
  osOp (fun part fs => <[p := part]> fs) (fun fs => Ok (tt, <[p := b]> fs)).

(** One step, as rename(2) is on Unix; Go does not promise that it is one on other
    systems. *)
Definition osRename (p q : string) : FS unit :=
  osOp (fun _ fs => fs) (fun fs => match fs !! p with
    | Some b => Ok (tt, <[q := b]> (delete p fs)) | None => Err (ErrText "no such file or directory") end).

(** FilesystemPersistenceHandler *)
Definition FsReadState (stateFile : string) : FS (option ClientState.t) :=
  if String.eqb stateFile "" then mret (Some ClientState.zero)
  else
    b ← osReadFile stateFile;
    match unmarshalClientState b with
    | Ok s => mret (Some s)
    | Err _ => fail (ErrText "unable to parse state file")
    | Crash c => crash c
    end.

(** [log.Fatalf] when the state can not be serialized. *)
Definition FsWriteState (stateFile : string) (s : ClientState.t) : FS unit :=
  if String.eqb stateFile "" then mret tt
  else
    match marshalClientState s with
    | Ok b =>
        let tmp := (stateFile ++ ".new")%string in
        try (osRemoveAll tmp) ≫= fun _ =>
        r ← try (osWriteFile tmp b);
        match r with
        | inr _ => fail (ErrText "unable to write new configuration")
        | inl _ =>
            r ← try (osRename tmp stateFile);
            match r with
            | inr _ => fail (ErrText "unable to rename new configuration")
            | inl _ => mret tt
            end
        end
    | _ => crash "Unable to serialize state"
    end.

Lemma stateFile_new p : (p ++ ".new")%string <> p.
Proof. intros H. apply (f_equal String.length) in H. rewrite app_length_string in H. simpl in H. lia. Qed.

(** Files other than [tmp] are as before. *)
Definition only (tmp : string) (fs fs' : gmap string string) : Prop :=
  forall q, q <> tmp -> fs' !! q = fs !! q.

Lemma osRemoveAll_run tmp w r w' : osRemoveAll tmp w = (r, w') -> only tmp (w_data w) (w_data w').
Proof.
  unfold osRemoveAll, osOp. intros E q Hq.
  destruct (osFaultAt _) as [[c x|x]|]; injection E as <- <-; simpl; try done. by rewrite lookup_delete_ne.
Qed.

Lemma osWriteFile_run tmp b w r w' : osWriteFile tmp b w = (r, w') ->
  only tmp (w_data w) (w_data w') /\ (r = Ok tt -> w_data w' !! tmp = Some b).
Proof.
  unfold osWriteFile, osOp. intros E. unfold only.
  destruct (osFaultAt _) as [[c x|x]|]; injection E as <- <-; simpl; (split; [intros q Hq; by rewrite lookup_insert_ne|]);
    try done. intros _. by rewrite lookup_insert_eq.
Qed.

Lemma osRename_run tmp q w r w' b : w_data w !! tmp = Some b -> osRename tmp q w = (r, w') ->
  r = Ok tt /\ w_data w' = <[q := b]> (delete tmp (w_data w)) \/ r <> Ok tt /\ w_data w' = w_data w.
Proof.
  unfold osRename, osOp. intros Hb E. rewrite Hb in E.
  destruct (osFaultAt _) as [[c x|x]|]; injection E as <- <-; simpl; [by right..|by left].
Qed.

Lemma FsWriteState_run `{OK : !OsLibOK O} p s w r w' :
  p <> ""%string -> FsWriteState p s w = (r, w') ->
  (w_data w' !! p = w_data w !! p \/
   exists b, marshalClientState s = Ok b /\ w_data w' !! p = Some b /\ unmarshalClientState b = Ok s) /\
  (r = Ok tt -> exists b, w_data w' !! p = Some b /\ unmarshalClientState b = Ok s) /\
  (forall q, q <> p -> q <> (p ++ ".new")%string -> w_data w' !! q = w_data w !! q).
Proof.
  intros Hp E. unfold FsWriteState in E.
  rewrite (proj2 (String.eqb_neq p "") Hp) in E.
  destruct (marshalClientState s) as [b|?|?] eqn:Hb; [|by injection E as <- <-; split; [left|]..].
  pose proof (clientState_roundtrip _ _ Hb) as Hrt. pose proof (stateFile_new p) as Hnew.
  cbv zeta in E. set (tmp := (p ++ ".new")%string) in *.
  assert (Hdone : only tmp (w_data w) (w_data w') -> r <> Ok tt ->
    (w_data w' !! p = w_data w !! p \/
     exists b', Ok b = Ok b' /\ w_data w' !! p = Some b' /\ unmarshalClientState b' = Ok s) /\
    (r = Ok tt -> exists b, w_data w' !! p = Some b /\ unmarshalClientState b = Ok s) /\
    (forall q, q <> p -> q <> tmp -> w_data w' !! q = w_data w !! q)).
  { intros Hfs Hr. split; [left; by apply Hfs|]. split; [done|]. intros q _. apply Hfs. }
  unfold mbind, M_bind, try, fail, mret, M_ret in E.
  destruct (osRemoveAll tmp w) as [r1 w1] eqn:E1. apply osRemoveAll_run in E1.
  destruct r1 as [[]|e1|c1]; [| |injection E as <- <-; by apply Hdone].
  all: destruct (osWriteFile tmp b w1) as [r2 w2] eqn:E2; apply osWriteFile_run in E2 as [E2 Hw];
    assert (Hk : only tmp (w_data w) (w_data w2)) by (intros q Hq; rewrite E2, E1 by done; done);
    destruct r2 as [[]|e2|c2]; [|injection E as <- <-; by apply Hdone..];
    destruct (osRename tmp p w2) as [r3 w3] eqn:E3;
    apply (osRename_run _ _ _ _ _ _ (Hw eq_refl)) in E3 as [[-> E3]|[Hn E3]].
  all: try (destruct r3 as [[]|e3|c3]; [done|injection E as <- <-; apply Hdone; [by rewrite E3|done]..]).
  all: injection E as <- <-; rewrite E3;
    (split; [right; exists b; by rewrite lookup_insert_eq|]);
    (split; [intros _; exists b; by rewrite lookup_insert_eq|]);
    intros q Hq Hqt; by rewrite lookup_insert_ne, lookup_delete_ne, Hk by done.
Qed.
(** C32: writing the client's state is all or nothing: whatever fails and
    wherever the process is cut short, the state file afterwards holds what it
    held, or the new state in full, and the latter is certain when the write
    reports success; and no other file but the temporary one is touched.  So
    whatever happens a later read yields the old state or the new one. *)
Theorem write_state_crash_safe `{OK : !OsLibOK O} p s w r w' :
  p <> ""%string -> FsWriteState p s w = (r, w') ->
  (w_data w' !! p = w_data w !! p \/
   exists b, marshalClientState s = Ok b /\ w_data w' !! p = Some b /\ unmarshalClientState b = Ok s) /\
  (r = Ok tt -> exists b, w_data w' !! p = Some b /\ unmarshalClientState b = Ok s) /\
  (forall q, q <> p -> q <> (p ++ ".new")%string -> w_data w' !! q = w_data w !! q).
Proof. apply FsWriteState_run. Qed.
End Files.

(** ** The configuration manager *)
Class ClientLib := {
  PrivKey : Type;
  PubKey : Type;
  (** ecdsa.GenerateKey, x509.MarshalECPrivateKey, x509.ParseECPrivateKey. *)
  generateKey : nat -> outcome PrivKey;
  marshalECPrivateKey : PrivKey -> outcome string;
  parseECPrivateKey : string -> outcome PrivKey;
  publicOf : PrivKey -> PubKey;
  marshalPub : PubKey -> outcome string;
  CommunicatorConfig : Type;
  noCommunicatorConfig : CommunicatorConfig;
  parseCommunicatorConfig : string -> outcome CommunicatorConfig;
}.

Class ClientLibOK (CL : ClientLib) : Prop := {
  ecKey_roundtrip k b : marshalECPrivateKey k = Ok b ->
    b <> ""%string /\ exists k', parseECPrivateKey b = Ok k' /\ publicOf k' = publicOf k;
}.

(** config.PersistenceHandler, as far as the manager uses it. *)
Class PersistenceHandler `{ClientLib} (St : Type) := {
  phReadState : M (World St) (option ClientState.t);
  phWriteState : ClientState.t -> M (World St) unit;
  phReadCommunicatorConfig : M (World St) (option CommunicatorConfig);
}.

(** What a handler promises: a state that was written is the one read later. *)
Class PersistenceOK `{CL : ClientLib} (St : Type) `{PH : !PersistenceHandler St} := {
  phStored : St -> option ClientState.t;
  ph_read w r w' : phReadState w = (r, w') ->
    w_data w' = w_data w /\ forall o, r = Ok o -> o = phStored (w_data w);
  ph_write s w r w' : phWriteState s w = (r, w') ->
    (phStored (w_data w') = phStored (w_data w) \/ phStored (w_data w') = Some s) /\
    (r = Ok tt -> phStored (w_data w') = Some s);
  ph_comm w r w' : phReadCommunicatorConfig w = (r, w') -> w_data w' = w_data w;
}.

Definition communicatorFilename : string := "communicator.txt".

(** FilesystemPersistenceHandler.ReadCommunicatorConfig; [filepath.Join] of a
    clean path. *)
Definition FsReadCommunicatorConfig `{OsLib} `{ClientLib} (configurationPath : string) :
    M (World (gmap string string)) (option CommunicatorConfig) :=
  if String.eqb configurationPath "" then fail (ErrText "configuration path not provided")
  else
    r ← try (osReadFile (configurationPath ++ "/" ++ communicatorFilename)%string);
    match r with
    | inr _ => fail (ErrText "can't read communicator config file")
    | inl b => match parseCommunicatorConfig b with
               | Ok c => mret (Some c)
               | Err _ => fail (ErrText "can't parse communicator config")
               | Crash c => crash c
               end
    end.

(** The handler with a state file, and NoopPersistenceHandler. *)
Definition fsHandler `{OsLib} `{ClientLib} (configurationPath stateFile : string) :
    PersistenceHandler (gmap string string) := {|
  phReadState := FsReadState stateFile;
  phWriteState := FsWriteState stateFile;
  phReadCommunicatorConfig := FsReadCommunicatorConfig configurationPath;
|}.

Definition noopHandler `{ClientLib} : PersistenceHandler unit := {|
  phReadState := mret (Some ClientState.zero);
  phWriteState _ := mret tt;
  phReadCommunicatorConfig := mret None;
|}.

Module Configuration.
Record t `{ClientLib} := Mk {
  ClientLabels : list Label.t;
  cfgCommunicatorConfig : option CommunicatorConfig;
  cfgRevokedCertSerials : list string;
}.
Arguments Mk {_} _ _ _.
End Configuration.

(** fspb.ClientInfoData *)
Module ClientInfoData.
Record t := Mk { Labels : list Label.t; Services : list (string * gobytes) }.
End ClientInfoData.

Module Config.
Record Manager `{ClientLib} := mkManager {
  cfg : Configuration.t;
  cc : CommunicatorConfig;
  state : ClientState.t;
  id : ClientID.t;
  revokedSerials : gset string;
  dirty : bool;
  runningServices : gmap string gobytes;
  (** What was sent on configChanges. *)
  changes : list ClientInfoData.t;
}.

Section Manager.
Context `{P : Platform} `{CL : ClientLib} {St : Type} `{PH : !PersistenceHandler St}.

Abbreviation Op A := (M (World (Manager * St)) A).

Definition onHandler {A} (m : M (World St) A) : Op A := onPart snd (fun s d => (d.1, s)) m.
Definition mgr : Op Manager := gets (fun w => (w_data w).1).
Definition setMgr (f : Manager -> Manager) : Op unit := fun w =>
  (Ok tt, mkWorld (f (w_data w).1, (w_data w).2) (w_step w)).

Definition setState (s : ClientState.t) (d : bool) (m : Manager) : Manager :=
  mkManager _ (cfg m) (cc m) s (id m) (revokedSerials m) d (runningServices m) (changes m).

Definition addSerial (m : Manager) (serial : string) : Manager :=
  if decide (serial ∈ revokedSerials m) then m
  else mkManager _ (cfg m) (cc m) (ClientState.addSerial serial (state m)) (id m)
         ({[serial]} ∪ revokedSerials m) true (runningServices m) (changes m).

Definition AddRevokedSerials (revoked : list string) : Op unit :=
  setMgr (fun m => foldl addSerial m revoked).

Definition Rekey : Op unit :=
  k ← interact (fun n => match generateKey n with
                         | Err _ => Err (ErrText "unable to generate new key") | o => o end);
  b ← lift (match marshalECPrivateKey k with
            | Err _ => Err (ErrText "unable to marshal new key") | o => o end);
  i ← lift (match ClientID.MakeClientID marshalPub (publicOf k) with
            | Err _ => Err (ErrText "unable to create client id") | o => o end);
  setMgr (fun m => mkManager _ (cfg m) (cc m) (ClientState.setKey (Some b) (state m)) i
                     (revokedSerials m) true (runningServices m) (changes m)).

Definition needsSync : Op bool := m ← mgr; mret (dirty m).

Definition doSync : Op unit :=
  m ← mgr;
  r ← try (onHandler (phWriteState (state m)));
  match r with
  | inr _ => fail (ErrText "Failed to sync state to writeback")
  | inl _ => setMgr (fun m => setState (state m) false m)
  end.

Definition Sync : Op unit :=
  d ← needsSync;
  if (d : bool) then doSync else mret tt.

Definition ManagerClientID : Op ClientID.t := m ← mgr; mret (id m).

Definition RecordRunningService (name : string) (sig : gobytes) : Op unit :=
  setMgr (fun m => mkManager _ (cfg m) (cc m) (state m) (id m) (revokedSerials m) true
                     (<[name := sig]> (runningServices m)) (changes m)).

Definition SequencingNonce : Op Z := m ← mgr; mret (ClientState.SequencingNonce (state m)).

Definition SetSequencingNonce (n : Z) : Op unit :=
  setMgr (fun m => setState (ClientState.setNonce n (state m)) true m).

Definition SendConfigUpdate : Op unit :=
  m ← mgr;
  l ← rangeMap (runningServices m);
  setMgr (fun m => mkManager _ (cfg m) (cc m) (state m) (id m) (revokedSerials m) (dirty m)
    (runningServices m)
    (changes m ++ [ClientInfoData.Mk (Configuration.ClientLabels (cfg m)) l])).

Definition CurrentState : Op ClientState.t := m ← mgr; mret (state m).

Definition CommunicatorConfig : Op CommunicatorConfig := m ← mgr; mret (cc m).

(** A certificate is its serial number's bytes here. *)
Definition ChainRevoked (chain : list string) : Op bool :=
  m ← mgr; mret (existsb (fun c => bool_decide (c ∈ revokedSerials m)) chain).

Definition Labels : Op (list Label.t) := m ← mgr; mret (Configuration.ClientLabels (cfg m)).

Definition validLabel (l : Label.t) : bool :=
  String.eqb (Label.ServiceName l) "client" && negb (String.eqb (Label.Label l) "").

(** The manager as StartManager first sets it up. *)
Definition fresh (c : Configuration.t) (s : ClientState.t) : Manager :=
  mkManager _ c (default noCommunicatorConfig (Configuration.cfgCommunicatorConfig c)) s
    (ClientID.Mk "") ∅ true ∅ [].

Definition StartManager (c : Configuration.t) : Op unit :=
  if negb (forallb validLabel (Configuration.ClientLabels c)) then fail (ErrText "invalid client label")
  else
    r ← try (onHandler phReadState);
    let s := match r with inl (Some s) => s | _ => ClientState.zero end in
    setMgr (fun _ => fresh c s) ≫= fun _ =>
    AddRevokedSerials (ClientState.RevokedCertSerials s) ≫= fun _ =>
    AddRevokedSerials (Configuration.cfgRevokedCertSerials c) ≫= fun _ =>
    (if decide (blen (ClientState.ClientKey s) = 0) then
       r ← try Rekey;
       match r with inr _ => fail (ErrText "no key present") | inl _ => mret tt end
     else
       k ← lift (match parseECPrivateKey (contents (ClientState.ClientKey s)) with
                 | Err _ => Err (ErrText "unable to parse client key") | o => o end);
       i ← lift (match ClientID.MakeClientID marshalPub (publicOf k) with
                 | Err _ => Err (ErrText "unable to create clientID") | o => o end);
       setMgr (fun m => mkManager _ (cfg m) (cc m) (state m) i (revokedSerials m) (dirty m)
                          (runningServices m) (changes m))) ≫= fun _ =>
    r ← try (onHandler phReadCommunicatorConfig);
    match r with
    | inl (Some x) => setMgr (fun m => mkManager _ (cfg m) x (state m) (id m) (revokedSerials m)
                                (dirty m) (runningServices m) (changes m))
    | _ => mret tt
    end ≫= fun _ =>
    r ← try Sync;
    match r with inr _ => fail (ErrText "unable to write initial writeback") | inl _ => mret tt end.
End Manager.
End Config.

(** ** Identity across restarts *)
Section Restart.
Import Config.
Context `{P : Platform} `{CL : ClientLib} {HCL : ClientLibOK CL} {St : Type}.
Context `{PH : !PersistenceHandler St} `{POK : !PersistenceOK St}.

Abbreviation CW := (World (Config.Manager * St)).
Abbreviation serials m := (ClientState.RevokedCertSerials (state m)).

(** The key and the id it determines. *)
Definition hasIdentity (key : gobytes) (i : ClientID.t) : Prop :=
  exists k b, key = Some b /\ b <> ""%string /\ parseECPrivateKey b = Ok k /\
    ClientID.MakeClientID marshalPub (publicOf k) = Ok i.

Record configOK (d : Config.Manager * St) : Prop := {
  ck_revoked s : s ∈ revokedSerials d.1 <-> s ∈ serials d.1;
  ck_key : hasIdentity (ClientState.ClientKey (state d.1)) (id d.1);
  ck_clean : dirty d.1 = false -> phStored d.2 = Some (state d.1);
}.

(** What AddRevokedSerials leaves alone, and what it adds. *)
Record addedSerials (l : list string) (m m' : Config.Manager) : Prop := {
  as_cfg : cfg m' = cfg m;
  as_id : id m' = id m;
  as_key : ClientState.ClientKey (state m') = ClientState.ClientKey (state m);
  as_nonce : ClientState.SequencingNonce (state m') = ClientState.SequencingNonce (state m);
  as_set s : s ∈ revokedSerials m' <-> s ∈ revokedSerials m \/ s ∈ l;
  as_list : exists extra, serials m' = serials m ++ extra /\
    forall s, s ∈ extra <-> s ∈ l /\ s ∉ revokedSerials m;
  as_dirty : dirty m' = false -> dirty m = false /\ state m' = state m;
}.

Lemma addSerials_all l m : addedSerials l m (foldl addSerial m l).
Proof.
  revert m. induction l as [|x l IH]; intros m; simpl.
  { split; try done; [by intros s; rewrite elem_of_nil; tauto|].
    exists []. rewrite app_nil_r. split; [done|]. intros s. rewrite elem_of_nil. tauto. }
  destruct (IH (addSerial m x)) as [H1 H2 H3 H4 H5 (ex & H6 & H6') H7].
  unfold addSerial in *. destruct (decide (x ∈ revokedSerials m)) as [Hin|Hin]; simpl in *.
  - split; try done.
    + intros s. rewrite H5, elem_of_cons. split; [tauto|]. intros [?|[->|?]]; tauto.
    + exists ex. split; [done|]. intros s. rewrite H6', elem_of_cons. split; [tauto|].
      intros [[->|?] ?]; tauto.
  - split; try done.
    + intros s. rewrite H5, elem_of_cons, elem_of_union, elem_of_singleton. tauto.
    + exists (x :: ex). rewrite H6, <- app_assoc. split; [done|]. intros s.
      rewrite !elem_of_cons, H6', elem_of_union, elem_of_singleton. split.
      * intros [->|[? ?]]; tauto.
      * intros [[->|?] ?]; [tauto|]. destruct (decide (s = x)); tauto.
    + intros Hd. by destruct (H7 Hd).
Qed.

Lemma configOK_added l m st : configOK (m, st) -> configOK (foldl addSerial m l, st).
Proof.
  intros [H1 H2 H3]. destruct (addSerials_all l m) as [_ A2 A3 _ A5 (ex & A6 & A6') A7]. split; simpl in *.
  - intros s. rewrite A5, A6, elem_of_app, A6', H1. destruct (decide (s ∈ revokedSerials m)); rewrite H1 in *; tauto.
  - by rewrite A2, A3.
  - intros Hd. destruct (A7 Hd) as [Hd' ->]. by apply H3.
Qed.

Lemma onHandler_run {A} (h : M (World St) A) (w : CW) r w' : onHandler h w = (r, w') ->
  exists s n, h (mkWorld (w_data w).2 (w_step w)) = (r, mkWorld s n) /\ w' = mkWorld ((w_data w).1, s) n.
Proof.
  unfold onHandler, onPart. destruct (h _) as [r0 [s n]] eqn:E. intros [= <- <-]. by exists s, n.
Qed.

Lemma Rekey_run (w : CW) r w' : Rekey w = (r, w') ->
  w_data w' = w_data w /\ r <> Ok tt \/
  r = Ok tt /\ exists b i, hasIdentity (Some b) i /\
    w_data w' = (mkManager _ (cfg (w_data w).1) (cc (w_data w).1)
      (ClientState.setKey (Some b) (state (w_data w).1)) i (revokedSerials (w_data w).1) true
      (runningServices (w_data w).1) (changes (w_data w).1), (w_data w).2).
Proof using HCL.
  unfold Rekey, mbind, M_bind, interact, lift. destruct (generateKey _) as [k|?|?]; simpl.
  2-3: intros [= <- <-]; by left.
  destruct (marshalECPrivateKey k) as [b|?|?] eqn:Hb; simpl.
  2-3: intros [= <- <-]; by left.
  destruct (ClientID.MakeClientID marshalPub (publicOf k)) as [i|?|?] eqn:Hi; simpl.
  2-3: intros [= <- <-]; by left.
  intros [= <- <-]. right. split; [done|]. exists b, i. split; [|done].
  destruct (ecKey_roundtrip k b Hb) as (Hn & k' & Hp & Hpub). exists k', b. rewrite Hpub. done.
Qed.

Lemma doSync_run (w : CW) r w' : doSync w = (r, w') -> configOK (w_data w) ->
  state (w_data w').1 = state (w_data w).1 /\ id (w_data w').1 = id (w_data w).1 /\
  revokedSerials (w_data w').1 = revokedSerials (w_data w).1 /\
  (r = Ok tt -> dirty (w_data w').1 = false) /\ configOK (w_data w').
Proof using Type.
  intros E [H1 H2 H3]. unfold doSync in E.
  unfold mbind, M_bind, mgr, gets, try in E. 
  destruct (onHandler (phWriteState (state (w_data w).1)) w) as [r1 w1] eqn:E1.
  apply onHandler_run in E1 as (s & n & E1 & ->). apply ph_write in E1 as [Hst Hok]. simpl in Hst, Hok.
  destruct r1 as [[]|e|c]; injection E as <- <-; simpl.
  - do 4 (split; [done|]). split; try done. intros _. by apply Hok.
  - do 4 (split; [done|]). split; try done. simpl. intros Hd. specialize (H3 Hd). destruct Hst as [->| ->]; done.
  - do 4 (split; [done|]). split; try done. simpl. intros Hd. specialize (H3 Hd). destruct Hst as [->| ->]; done.
Qed.

Lemma Sync_run (w : CW) r w' : Sync w = (r, w') -> configOK (w_data w) ->
  state (w_data w').1 = state (w_data w).1 /\ id (w_data w').1 = id (w_data w).1 /\
  revokedSerials (w_data w').1 = revokedSerials (w_data w).1 /\
  (r = Ok tt -> dirty (w_data w').1 = false) /\ configOK (w_data w').
Proof using Type.
  unfold Sync, needsSync, mbind, M_bind, mgr, gets, mret, M_ret.
  destruct (dirty (w_data w).1) eqn:Hd; [apply doSync_run|]. by intros [= <- <-] Hok.
Qed.

(** The operations on a running manager; their errors are logged. *)
Inductive configOp :=
| OpAddRevoked (l : list string)
| OpRekey
| OpSync
| OpRecordService (name : string) (sig : gobytes)
| OpSetNonce (n : Z)
| OpSendUpdate.

Definition runConfigOp (op : configOp) : M CW unit :=
  match op with
  | OpAddRevoked l => AddRevokedSerials l
  | OpRekey => Rekey
  | OpSync => Sync
  | OpRecordService name sig => RecordRunningService name sig
  | OpSetNonce n => SetSequencingNonce n
  | OpSendUpdate => SendConfigUpdate
  end.

Lemma configOK_op op w : configOK (w_data w) -> configOK (w_data (snd (runConfigOp op w))).
Proof using HCL.
  intros Hok. destruct op as [l| | |name sig|n|]; simpl.
  - unfold AddRevokedSerials, setMgr. simpl. apply configOK_added. by destruct (w_data w).
  - destruct (Rekey w) as [r w'] eqn:E. simpl. destruct (Rekey_run _ _ _ E) as [[-> _]|(_ & b & i & Hid & ->)]; [done|].
    destruct Hok as [H1 H2 H3]. by split.
  - destruct (Sync w) as [r w'] eqn:E. by apply (Sync_run _ _ _ E).
  - destruct Hok as [H1 H2 H3]. by split.
  - destruct Hok as [H1 H2 H3]. by split.
  - by destruct Hok as [H1 H2 H3].
Qed.

Lemma configOK_ops ops w :
  configOK (w_data w) -> configOK (w_data (foldl (fun w op => snd (runConfigOp op w)) w ops)).
Proof using HCL.
  revert w. induction ops as [|op ops IH]; intros w Hok; simpl; [done|]. apply IH. by apply configOK_op.
Qed.

(** A manager just set up, before its identity is known. *)
Definition loaded (c : Configuration.t) (s : ClientState.t) : Config.Manager :=
  foldl addSerial (foldl addSerial (fresh c s) (ClientState.RevokedCertSerials s))
    (Configuration.cfgRevokedCertSerials c).

Lemma loaded_spec c s :
  ClientState.ClientKey (state (loaded c s)) = ClientState.ClientKey s /\
  ClientState.SequencingNonce (state (loaded c s)) = ClientState.SequencingNonce s /\
  (forall x, x ∈ revokedSerials (loaded c s) <->
     x ∈ ClientState.RevokedCertSerials s \/ x ∈ Configuration.cfgRevokedCertSerials c) /\
  (forall x, x ∈ revokedSerials (loaded c s) <-> x ∈ serials (loaded c s)) /\
  (exists extra, serials (loaded c s) = ClientState.RevokedCertSerials s ++ extra) /\
  dirty (loaded c s) = true.
Proof.
  unfold loaded. set (m0 := fresh c s). set (l := ClientState.RevokedCertSerials s).
  destruct (addSerials_all l m0) as [_ _ A3 A4 A5 (ex & A6 & A6') A7].
  destruct (addSerials_all (Configuration.cfgRevokedCertSerials c) (foldl addSerial m0 l))
    as [_ _ B3 B4 B5 (ex' & B6 & B6') B7].
  assert (Hs : forall x, x ∈ revokedSerials (foldl addSerial m0 l) <-> x ∈ l).
  { intros x. rewrite A5. simpl. rewrite elem_of_empty. tauto. }
  split; [by rewrite B3, A3|]. split; [by rewrite B4, A4|].
  split; [intros x; by rewrite B5, Hs|]. split.
  { intros x. rewrite B5, Hs, B6, elem_of_app, B6', Hs, A6, elem_of_app, A6'. simpl.
    fold l. rewrite elem_of_empty. destruct (decide (x ∈ l)); tauto. }
  split; [exists (ex ++ ex'); by rewrite B6, A6, app_assoc|].
  apply not_false_is_true. intros Hd. destruct (B7 Hd) as [Hd' _]. by destruct (A7 Hd').
Qed.

(** What StartManager read, and the manager it leaves. *)
Lemma StartManager_run c (w w' : CW) : StartManager c w = (Ok tt, w') ->
  configOK (w_data w') /\ dirty (w_data w').1 = false /\
  (forall s, fst (phReadState (mkWorld (w_data w).2 (w_step w))) = Ok (Some s) ->
     contents (ClientState.ClientKey s) <> ""%string ->
     hasIdentity (ClientState.ClientKey s) (id (w_data w').1) /\ state (w_data w').1 = state (loaded c s) /\
     revokedSerials (w_data w').1 = revokedSerials (loaded c s)).
Proof using HCL.
  unfold StartManager. intros E. destruct (forallb validLabel _); simpl in E; [|done].
  apply bind_Ok in E as (r & w1 & Er & E). cbv zeta in E.
  set (s := match r with inl (Some s) => s | _ => ClientState.zero end) in E.
  apply bind_Ok in E as ([] & w2 & E1 & E). injection E1 as <-.
  apply bind_Ok in E as ([] & w2 & E1 & E). injection E1 as <-.
  apply bind_Ok in E as ([] & w2 & E1 & E). injection E1 as <-. simpl in E. fold (loaded c s) in E.
  destruct (loaded_spec c s) as (Lk & Ln & Lr & Ls & Le & Ld).
  apply bind_Ok in E as ([] & w3 & Eid & E).
  assert (Hid : exists key i, hasIdentity key i /\ id (w_data w3).1 = i /\
    state (w_data w3).1 = ClientState.setKey key (state (loaded c s)) /\
    revokedSerials (w_data w3).1 = revokedSerials (loaded c s) /\ dirty (w_data w3).1 = true /\
    (contents (ClientState.ClientKey s) <> ""%string -> key = ClientState.ClientKey s)).
  { case_decide as Hlen.
    - apply bind_Ok in Eid as (r2 & w4 & E1 & Eid). destruct r2 as [[]|]; [|done].
      apply ret_Ok in Eid as [_ <-]. apply try_Ok in E1.
      destruct (Rekey_run _ _ _ E1) as [[_ ?]|(_ & b & i & Hi & ->)]; [done|]. exists (Some b), i. simpl.
      do 5 (split; [done|]). intros Hc. destruct Hc. unfold blen in Hlen.
      by destruct (contents (ClientState.ClientKey s)).
    - apply bind_Ok in Eid as (k & w4 & E1 & Eid). apply lift_Ok in E1 as [Hk <-].
      apply bind_Ok in Eid as (i & w4 & E1 & Eid). apply lift_Ok in E1 as [Hi <-]. injection Eid as <-. simpl.
      destruct (parseECPrivateKey _) as [k'|?|?] eqn:Hp; simplify_eq/=.
      destruct (ClientID.MakeClientID _ _) as [i'|?|?] eqn:Hm; simplify_eq/=.
      exists (ClientState.ClientKey s), i. unfold blen, contents in Hlen.
      destruct (ClientState.ClientKey s) as [b|] eqn:Hb; [|done].
      split; [exists k, b; split; [done|]; split; [by intros ->|done]|]. split; [done|].
      split; [by destruct (state (loaded c s)); simpl in *; subst|]. done. }
  destruct Hid as (key & i & Hi & Hid & Hst & Hrev & Hdirty & Hkey).
  apply bind_Ok in E as (rc & w4 & Ec & E).
  assert (Hc4 : state (w_data w4).1 = state (w_data w3).1 /\ id (w_data w4).1 = id (w_data w3).1 /\
    revokedSerials (w_data w4).1 = revokedSerials (w_data w3).1 /\ dirty (w_data w4).1 = dirty (w_data w3).1).
  { unfold try in Ec. destruct (onHandler phReadCommunicatorConfig w3) as [r0 w0] eqn:E0.
    apply onHandler_run in E0 as (s0 & n0 & _ & ->). by destruct r0; injection Ec as _ <-. }
  destruct Hc4 as (Hst4 & Hid4 & Hrev4 & Hd4).
  apply bind_Ok in E as ([] & w5 & E1 & E).
  assert (Hc5 : state (w_data w5).1 = state (w_data w4).1 /\ id (w_data w5).1 = id (w_data w4).1 /\
    revokedSerials (w_data w5).1 = revokedSerials (w_data w4).1 /\ dirty (w_data w5).1 = dirty (w_data w4).1)
    by (destruct rc as [[x|]|]; injection E1 as <-; done).
  destruct Hc5 as (Hst5 & Hid5 & Hrev5 & Hd5).
  apply bind_Ok in E as (rs & w6 & E2 & E). destruct rs as [[]|]; [|done]. apply ret_Ok in E as [_ <-].
  apply try_Ok in E2.
  assert (Hok5 : configOK (w_data w5)).
  { split.
    - intros x. rewrite Hrev5, Hrev4, Hrev, Hst5, Hst4, Hst. simpl. apply Ls.
    - rewrite Hst5, Hst4, Hst, Hid5, Hid4, Hid. exact Hi.
    - intros Hd. congruence. }
  destruct (Sync_run _ _ _ E2 Hok5) as (S1 & S2 & S3 & S4 & S5).
  split; [done|]. split; [by apply S4|]. intros s' Hs' Hne.
  assert (s = s') as <-.
  { unfold try in Er. destruct (onHandler phReadState w) as [r0 w0] eqn:E0.
    apply onHandler_run in E0 as (s0 & n0 & E0 & ->). rewrite E0 in Hs'. simpl in Hs'. subst r0.
    injection Er as <- _. done. }
  rewrite (Hkey Hne) in *. rewrite S1, S2, S3, Hst5, Hid5, Hrev5, Hst4, Hid4, Hrev4, Hst, Hid, Hrev.
  split; [done|]. split; [|done]. by destruct (state (loaded c s)); simpl in *; subst.
Qed.

(** C31: a client keeps its identity.  Whatever happened to the manager since
    it was started, once a Sync has succeeded a manager started from what was
    persisted - if that can be read - has the same key, the same client id,
    the same sequencing nonce and knows every revoked serial number, those of
    its own configuration added, and everything it knows is persisted.  The
    stored list of serial numbers only ever grows. *)
Theorem config_survives_restart c ops c' (w0 w1 w2 w3 w4 : CW) r any n :
  StartManager c w0 = (Ok tt, w1) ->
  foldl (fun w op => snd (runConfigOp op w)) w1 ops = w2 -> Sync w2 = (Ok tt, w3) ->
  fst (phReadState (mkWorld (w_data w3).2 n)) = Ok r ->
  StartManager c' (mkWorld (any, (w_data w3).2) n) = (Ok tt, w4) ->
  id (w_data w4).1 = id (w_data w3).1 /\
  ClientState.ClientKey (state (w_data w4).1) = ClientState.ClientKey (state (w_data w3).1) /\
  ClientState.SequencingNonce (state (w_data w4).1) = ClientState.SequencingNonce (state (w_data w3).1) /\
  (forall x, x ∈ revokedSerials (w_data w4).1 <->
     x ∈ revokedSerials (w_data w3).1 \/ x ∈ Configuration.cfgRevokedCertSerials c') /\
  (exists extra, serials (w_data w4).1 = serials (w_data w3).1 ++ extra) /\
  dirty (w_data w4).1 = false /\ phStored (w_data w4).2 = Some (state (w_data w4).1).
Proof using HCL.
  intros E1 <- E3 Er E4.
  assert (Hok : configOK (w_data w1)) by (by destruct (StartManager_run _ _ _ E1)).
  destruct (Sync_run _ _ _ E3 (configOK_ops ops _ Hok)) as (_ & _ & _ & Hd & Hok3). specialize (Hd eq_refl).
  pose proof (ck_clean _ Hok3 Hd) as Hst.
  destruct (phReadState (mkWorld (w_data w3).2 n)) as [r0 w5] eqn:Erd. simpl in Er. subst r0.
  destruct (ph_read _ _ _ Erd) as [_ Hr]. rewrite (Hr _ eq_refl) in Erd. simpl in Erd. rewrite Hst in Erd.
  destruct (ck_key _ Hok3) as (k & b & Hkey & Hb & Hk & Hi).
  destruct (StartManager_run _ _ _ E4) as (Hok4 & Hd4 & Hload).
  specialize (Hload (state (w_data w3).1)). simpl in Hload. rewrite Erd, Hkey in Hload.
  destruct (Hload eq_refl Hb) as ((k' & b' & [= <-] & _ & Hk' & Hi') & Hs4 & Hr4).
  destruct (loaded_spec c' (state (w_data w3).1)) as (Lk & Ln & Lr & _ & Le & _).
  split; [congruence|]. rewrite Hs4, Hr4. split; [done|]. split; [done|].
  split; [intros x; by rewrite Lr, (ck_revoked _ Hok3)|]. split; [exact Le|].
  split; [done|]. rewrite <- Hs4. by apply (ck_clean _ Hok4).
Qed.
End Restart.

(** The handler with a state file keeps the promise. *)
Definition fsPersistenceOK `{O : OsLib} `{OK : !OsLibOK O} `{CL : ClientLib} (configurationPath p : string)
    (Hp : p <> ""%string) :
  PersistenceOK (PH := fsHandler configurationPath p) (gmap string string).
Proof.
  refine (Build_PersistenceOK _ _ (fsHandler configurationPath p)
    (fun fs => b ← fs !! p; match unmarshalClientState b with Ok s => Some s | _ => None end) _ _ _).
  - intros w r w' E. simpl in E. unfold FsReadState in E. rewrite (proj2 (String.eqb_neq p "") Hp) in E.
    unfold mbind, M_bind, osReadFile, osOp in E.
    destruct (osFaultAt _) as [[c x|x]|]; [by injection E as <- <-..|].
    destruct (w_data w !! p) as [b|] eqn:Hb; [|by injection E as <- <-]. simpl.
    destruct (unmarshalClientState b); injection E as <- <-; (split; [done|]); intros o Ho; by simplify_eq.
  - intros s w r w' E. destruct (FsWriteState_run p s w r w' Hp E) as ([H|(b & _ & H & Hu)] & Hok & _); split.
    + left. by rewrite H.
    + intros Hr. destruct (Hok Hr) as (b & Hb & Hu). rewrite Hb. simpl. by rewrite Hu.
    + right. rewrite H. simpl. by rewrite Hu.
    + intros Hr. destruct (Hok Hr) as (b' & Hb & Hu'). rewrite Hb. simpl. by rewrite Hu'.
  - intros w r w' E. simpl in E. unfold FsReadCommunicatorConfig in E.
    destruct (String.eqb configurationPath ""); [by injection E as <- <-|].
    unfold mbind, M_bind, try, osReadFile, osOp in E.
    destruct (osFaultAt _) as [[c x|x]|]; [by injection E as <- <-..|].
    destruct (w_data w !! _) as [b|]; [|by injection E as <- <-].
    destruct (parseCommunicatorConfig b); by injection E as <- <-.
Defined.

(** ** Witnesses *)

(** Only states without serial numbers and nonce are written here. *)
#[local] Instance TestOsLib : OsLib := {|
  osFaultAt n := if Nat.eqb n 1 then Some (OsError 28 "par") else None;
  marshalClientState s := match s with
    | ClientState.Mk (Some k) 0 [] => Ok k | _ => Err (ErrText "not encoded") end;
  unmarshalClientState b := Ok (ClientState.Mk (Some b) 0 []);
|}.

#[local] Instance TestOsLibOK : OsLibOK TestOsLib.
Proof. split. by intros [[k|] [|?|?] [|? ?]] b; simpl; try done; intros [= ->]. Qed.

(** The disk is full when the new state is written. *)
Lemma write_state_crash_safe_witness :
  let w := mkWorld {["state"%string := "old"%string]} 0 in
  let w' := snd (FsWriteState "state" (ClientState.Mk (Some "new"%string) 0 []) w) in
  w_data w' !! "state.new"%string = Some "par"%string /\
  (w_data w' !! "state"%string = w_data w !! "state"%string \/
   exists b, marshalClientState (ClientState.Mk (Some "new"%string) 0 []) = Ok b /\
     w_data w' !! "state"%string = Some b /\
     unmarshalClientState b = Ok (ClientState.Mk (Some "new"%string) 0 [])).
Proof.
  cbv zeta. split; [vm_compute; reflexivity|].
  set (w := mkWorld _ _).
  exact (proj1 (write_state_crash_safe "state" (ClientState.Mk (Some "new"%string) 0 []) w _ _
    ltac:(done) (surjective_pairing (FsWriteState "state" (ClientState.Mk (Some "new"%string) 0 []) w)))).
Defined.

#[local] Instance TestClientLib : ClientLib := {|
  PrivKey := string;
  PubKey := string;
  generateKey n := Ok (bytesOfNat n 4);
  marshalECPrivateKey k := Ok (String "k" k);
  parseECPrivateKey b := match b with String _ k => Ok k | _ => Err (ErrText "no key") end;
  publicOf k := k;
  marshalPub k := Ok k;
  CommunicatorConfig := unit;
  noCommunicatorConfig := tt;
  parseCommunicatorConfig _ := Ok tt;
|}.

#[local] Instance TestClientLibOK : ClientLibOK TestClientLib.
Proof. split. intros k b [= <-]. split; [done|]. by exists k. Qed.

(** A handler that keeps the state in memory. *)
#[local] Instance memHandler : PersistenceHandler (option ClientState.t) := {|
  phReadState := gets w_data;
  phWriteState s w := (Ok tt, mkWorld (Some s) (w_step w));
  phReadCommunicatorConfig := mret None;
|}.

#[local] Instance memPersistenceOK : PersistenceOK (option ClientState.t).
Proof.
  refine (Build_PersistenceOK _ _ memHandler (fun s => s) _ _ _).
  - intros w r w' [= <- <-]. split; [done|]. by intros o [= <-].
  - intros s w r w' [= <- <-]. split; [by right|done].
  - by intros w r w' [= <- <-].
Defined.

Definition sampleConfiguration : Configuration.t :=
  Configuration.Mk [Label.Mk "client" "linux"] None ["s1"%string; "s2"%string].

Definition sampleConfigOps : list configOp :=
  [OpSetNonce 7; OpAddRevoked ["s2"%string; "s3"%string]; OpRecordService "svc" None; OpRekey; OpSendUpdate].

Definition started (w : World (Config.Manager * option ClientState.t)) :=
  snd (Config.StartManager sampleConfiguration w).

Definition sampleRun : World (Config.Manager * option ClientState.t) :=
  snd (Config.Sync (foldl (fun w op => snd (runConfigOp op w))
    (started (mkWorld (Config.fresh sampleConfiguration ClientState.zero, None) 0)) sampleConfigOps)).

Lemma config_survives_restart_witness :
  let w4 := started (mkWorld (w_data sampleRun) 50) in
  Config.id (w_data w4).1 = Config.id (w_data sampleRun).1 /\
  ClientState.SequencingNonce (Config.state (w_data w4).1) = 7%Z.
Proof.
  cbv zeta.
  set (w0 := mkWorld (Config.fresh sampleConfiguration ClientState.zero, @None ClientState.t) 0).
  destruct (config_survives_restart sampleConfiguration sampleConfigOps sampleConfiguration w0
    (started w0) (foldl (fun w op => snd (runConfigOp op w)) (started w0) sampleConfigOps) sampleRun
    (started (mkWorld (w_data sampleRun) 50)) (Some (Config.state (w_data sampleRun).1))
    (w_data sampleRun).1 50) as (H1 & _ & H2 & _).
  - vm_compute. reflexivity.
  - reflexivity.
  - vm_compute. reflexivity.
  - vm_compute. reflexivity.
  - vm_compute. reflexivity.
  - split; [exact H1|]. rewrite H2. vm_compute. reflexivity.
Defined.

(** StartManager adds the serial numbers it has just read to the very list it
    read them from: each start of the client writes all of them once more. *)
Example restart_repeats_serials :
  let w1 := started (mkWorld (w_data sampleRun) 50) in
  let w2 := started (mkWorld (w_data w1) 60) in
  length (ClientState.RevokedCertSerials (Config.state (w_data sampleRun).1)) = 3 /\
  length (ClientState.RevokedCertSerials (Config.state (w_data w1).1)) = 6 /\
  length (ClientState.RevokedCertSerials (Config.state (w_data w2).1)) = 9.
Proof. vm_compute. done. Qed.

(** A state file that can not be read when the client starts costs it its
    identity: a new key is made and takes the place of the old one. *)
Definition unreadableHandler : PersistenceHandler (option ClientState.t) := {|
  phReadState := fail (ErrIO 5);
  phWriteState s w := (Ok tt, mkWorld (Some s) (w_step w));
  phReadCommunicatorConfig := mret None;
|}.

Example unreadable_state_is_replaced :
  exists s, (w_data (snd (Config.StartManager (PH := unreadableHandler)
    sampleConfiguration (mkWorld (w_data sampleRun) 50)))).2 = Some s /\
  ClientState.ClientKey s <> ClientState.ClientKey (Config.state (w_data sampleRun).1).
Proof. eexists. split; [vm_compute; reflexivity|]. vm_compute. discriminate. Qed.
