(* ===== verification/ClientServices.v ===== *)
(** * Services and messages in the client

    src/client/services.go, ProcessMessage of src/client/client.go, the message
    part of src/client/comms.go and the loops of src/client/system_service.go.
    One [Cli] is the state those share.  The steps are whole calls; the finer
    interleaving of the message counters is in FlowControl.v.  A send on a full
    channel waits for room or for the end of its context: here it ends, and
    waiting is the same call made later. *)
From S2P Require Import Prelude Platform Ids Proto.

Definition inboxSize : nat := 100.

(** fspb.ClientServiceConfig *)
Module ClientServiceConfig.
Record t := Mk { Name : string; Factory : string; RequiredLabels : list Label.t }.
End ClientServiceConfig.

Class ClientServiceLib := {
  (** The factories a client was built with: creating and starting a service. *)
  clientFactory : string -> option (ClientServiceConfig.t -> outcome unit);
  (** The installed services' ProcessMessage. *)
  runClientService : string -> Message.t -> outcome unit;
  errText : goerror -> string;
  (** anypb.New of the three payloads of the system service. *)
  packMessageAckData : list gobytes -> Any.t;
  packMessageErrorData : gobytes * string -> Any.t;
}.

Record serviceData := mkService {
  serviceConfig : option ClientServiceConfig.t;
  (** A channel and its capacity. *)
  inbox : list Message.t;
  capacity : nat;
  acceptCount : Z;
  processedCount : Z;
}.

Record Cli := mkCli {
  cID : ClientID.t;
  cNonce : Z;
  cLabels : list Label.t;
  cServices : gmap string serviceData;
  (** RecordRunningService *)
  cRunning : gmap string gobytes;
  cAcks : list MessageID.t;
  cErrs : list (gobytes * string);
  cBeacon : bool;
  (** What went to outLow, outMedium and outHigh. *)
  cOut : list (nat * Message.t);
}.

Definition acksSize : nat := 500.
Definition errsSize : nat := 50.

(** A service as InstallService makes it, and the built-in one. *)
Definition newService (cfg : ClientServiceConfig.t) : serviceData := mkService (Some cfg) [] inboxSize 0 0.
Definition systemServiceData : serviceData := mkService None [] 5 0 0.

Definition newCli (i : ClientID.t) (labels : list Label.t) : Cli :=
  mkCli i 0 labels {["system"%string := systemServiceData]} ∅ [] [] false [].

Section ClientServices.
Context `{P : Platform} `{CSL : ClientServiceLib}.

Abbreviation Client A := (M (World Cli) A).

Definition cli : Client Cli := gets w_data.
Definition setCli (f : Cli -> Cli) : Client unit := fun w => (Ok tt, mkWorld (f (w_data w)) (w_step w)).

Definition withServices v (c : Cli) :=
  mkCli (cID c) (cNonce c) (cLabels c) v (cRunning c) (cAcks c) (cErrs c) (cBeacon c) (cOut c).
Definition withRunning v (c : Cli) :=
  mkCli (cID c) (cNonce c) (cLabels c) (cServices c) v (cAcks c) (cErrs c) (cBeacon c) (cOut c).
Definition withAcks v (c : Cli) :=
  mkCli (cID c) (cNonce c) (cLabels c) (cServices c) (cRunning c) v (cErrs c) (cBeacon c) (cOut c).
Definition withErrs v (c : Cli) :=
  mkCli (cID c) (cNonce c) (cLabels c) (cServices c) (cRunning c) (cAcks c) v (cBeacon c) (cOut c).
Definition withBeacon v (c : Cli) :=
  mkCli (cID c) (cNonce c) (cLabels c) (cServices c) (cRunning c) (cAcks c) (cErrs c) v (cOut c).
Definition withOut v (c : Cli) :=
  mkCli (cID c) (cNonce c) (cLabels c) (cServices c) (cRunning c) (cAcks c) (cErrs c) (cBeacon c) v.
Definition withNonce v (c : Cli) :=
  mkCli (cID c) v (cLabels c) (cServices c) (cRunning c) (cAcks c) (cErrs c) (cBeacon c) (cOut c).

Definition setService (name : string) (d : serviceData) (c : Cli) : Cli :=
  withServices (<[name := d]> (cServices c)) c.

(** ** Taking messages in *)

Definition destination (m : Message.t) : string :=
  match Message.Destination m with Some dst => Address.ServiceName dst | None => "" end.

(** serviceConfiguration.ProcessMessage *)
Definition deliverLocally (m : Message.t) : Client unit :=
  c ← cli;
  match cServices c !! destination m with
  | None => fail (ErrText "destination service not installed")
  | Some d =>
      if decide (length (inbox d) < capacity d) then
        setCli (setService (destination m) (mkService (serviceConfig d) (inbox d ++ [m]) (capacity d)
          (wrapU64 (acceptCount d + 1)) (processedCount d)))
      else fail (ErrText "context deadline exceeded")
  end.

(** The channel for a priority, and the priority the message is given. *)
Definition lane (p : Message.Priority) : nat * Message.Priority :=
  match p with
  | Message.LOW => (0, p)
  | Message.MEDIUM => (1, p)
  | Message.HIGH => (2, p)
  | Message.UnknownPriority _ => (1, Message.MEDIUM)
  end.

Definition setPriority (p : Message.Priority) (m : Message.t) : Message.t :=
  Message.Mk (Message.MessageId m) (Message.Source m) (Message.IsBlocklistedSource m)
    (Message.SourceMessageId m) (Message.Destination m) (Message.MessageType m) (Message.CreationTime m)
    (Message.Data m) (Message.ValidationInfo m) (Message.Result m) p (Message.Background m)
    (Message.Annotations m).

(** Client.ProcessMessage *)
Definition clientProcessMessage (m : Message.t) : Client unit :=
  match Message.Destination m with
  | None => fail (ErrText "destination must have ServiceName")
  | Some dst =>
      if String.eqb (Address.ServiceName dst) "" then fail (ErrText "destination must have ServiceName")
      else if negb (Nat.eqb (blen (Address.ClientId dst)) 0) then
        c ← cli;
        if negb (String.eqb (contents (Address.ClientId dst)) (contents (ClientID.Bytes (cID c)))) then
          fail (ErrText "cannot send directly to client")
        else deliverLocally m
      else
        let '(i, p) := lane (Message.priority m) in
        setCli (fun c => withOut (cOut c ++ [(i, setPriority p m)]) c)
  end.

(** serviceData.Send *)
Definition serviceSend (name : string) (m : Message.t) : Client unit :=
  c ← cli;
  let m := Message.setSource (Some (Address.Mk (ClientID.Bytes (cID c)) name)) m in
  m ← (if Nat.eqb (blen (Message.SourceMessageId m)) 0 then
         b ← randBytes 16;
         match b with
         | None => fail (ErrText "unable to create random source message id")
         | Some b => mret (Message.Mk (Message.MessageId m) (Message.Source m)
             (Message.IsBlocklistedSource m) (Some b) (Message.Destination m) (Message.MessageType m)
             (Message.CreationTime m) (Message.Data m) (Message.ValidationInfo m) (Message.Result m)
             (Message.priority m) (Message.Background m) (Message.Annotations m))
         end
       else mret m);
  clientProcessMessage m.

(** ** Processing *)

(** [processingBeacon] has room for one. *)
Definition beacon (cnt : Z) : Client unit :=
  if Z.eqb (Z.land cnt 31) 0 then setCli (withBeacon true) else mret tt.

(** One turn of a processingLoop that got a message. *)
Definition countMessage (name : string) : Client (option Message.t) :=
  c ← cli;
  match cServices c !! name with
  | None => mret None
  | Some d =>
      match inbox d with
      | [] => mret None
      | m :: rest =>
          let cnt := wrapU64 (processedCount d + 1) in
          setCli (setService name (mkService (serviceConfig d) rest (capacity d) (acceptCount d) cnt)) ≫= fun _ =>
          beacon cnt ≫= fun _ =>
          mret (Some m)
      end
  end.

Definition isDie (m : Message.t) : bool :=
  String.eqb (Message.MessageType m) "Die" &&
  match Message.Destination m with
  | Some dst => String.eqb (Address.ServiceName dst) "system"
  | None => false
  end.

(** [c.acks <- id] and [c.errs <- e] *)
Definition sendAck (i : MessageID.t) : Client unit :=
  c ← cli;
  if decide (length (cAcks c) < acksSize) then setCli (fun c => withAcks (cAcks c ++ [i]) c)
  else fail (ErrText "blocked on acks").
Definition sendErr (e : gobytes * string) : Client unit :=
  c ← cli;
  if decide (length (cErrs c) < errsSize) then setCli (fun c => withErrs (cErrs c ++ [e]) c)
  else fail (ErrText "blocked on errs").

Definition answer (name : string) (m : Message.t) : Client unit :=
  match MessageID.BytesToMessageID (Message.MessageId m) with
  | Crash c => crash c
  | Err _ => mret tt
  | Ok i =>
      r ← try (lift (runClientService name m));
      if isDie m then mret tt
      else match r with
           | inr e => sendErr (MessageID.Bytes i, errText e)
           | inl _ => sendAck i
           end
  end.

Definition processingTurn (name : string) : Client unit :=
  m ← countMessage name;
  match m with None => mret tt | Some m => answer name m end.

(** serviceData.stop: its processingLoop goes through what is left in the
    closed inbox, and counts the closing like a message. *)
Definition stopService (name : string) (d : serviceData) : Client unit :=
  cnt ← foldM (fun cnt m =>
    let cnt := wrapU64 (cnt + 1) in
    beacon cnt ≫= fun _ => answer name m ≫= fun _ => mret cnt) (inbox d) (processedCount d);
  beacon (wrapU64 (cnt + 1)).

(** ** Installing and removing services *)
Definition validateServiceName (sname : string) : outcome unit :=
  if String.eqb sname "" || String.eqb sname "system" || String.eqb sname "client" then
    Err (ErrText "illegal service name")
  else Ok tt.

(** Required labels of other services are not looked at. *)
Definition hasRequiredLabels (have required : list Label.t) : bool :=
  forallb (fun l => negb (String.eqb (Label.ServiceName l) "client") ||
    existsb (fun cl => String.eqb (Label.Label cl) (Label.Label l)) have) required.

(** The service that had the name is stopped after the new one has taken its
    place. *)
Definition InstallService (cfg : ClientServiceConfig.t) (sig : gobytes) : Client unit :=
  lift (match validateServiceName (ClientServiceConfig.Name cfg) with
        | Err _ => Err (ErrText "can't install service") | o => o end) ≫= fun _ =>
  c ← cli;
  if negb (hasRequiredLabels (cLabels c) (ClientServiceConfig.RequiredLabels cfg)) then
    fail (ErrText "service config requires label")
  else
    match clientFactory (ClientServiceConfig.Factory cfg) with
    | None => fail (ErrText "factory not found")
    | Some f =>
        lift (match f cfg with Err _ => Err (ErrText "unable to create service") | o => o end) ≫= fun _ =>
        setCli (fun c => withRunning (<[ClientServiceConfig.Name cfg := sig]> (cRunning c))
          (setService (ClientServiceConfig.Name cfg) (newService cfg) c)) ≫= fun _ =>
        match cServices c !! ClientServiceConfig.Name cfg with
        | Some old => stopService (ClientServiceConfig.Name cfg) old
        | None => mret tt
        end
    end.

Definition removeService (sname : string) : Client serviceData :=
  c ← cli;
  match cServices c !! sname with
  | None => fail (ErrText "failed to remove non-existent service")
  | Some d => setCli (fun c => withServices (delete sname (cServices c)) c) ≫= fun _ => mret d
  end.

Definition RestartService (sname : string) : Client unit :=
  lift (validateServiceName sname) ≫= fun _ =>
  d ← removeService sname;
  stopService sname d ≫= fun _ =>
  match serviceConfig d with
  | None => crash "nil serviceConfig"
  | Some cfg =>
      r ← try (InstallService cfg None);
      match r with inr _ => fail (ErrText "can't reinstall service") | inl _ => mret tt end
  end.

Definition StopServices : Client unit :=
  c ← cli;
  l ← rangeMap (cServices c);
  forM_ l (fun sd => stopService sd.1 sd.2) ≫= fun _ =>
  setCli (withServices ∅).

(** Counts *)
Definition accepted (c : Cli) : gmap string Z := acceptCount <$> cServices c.
Definition processedCounts (c : Cli) : gmap string Z := processedCount <$> cServices c.

(** GetLocalInfo: the services but the built-in one. *)
Definition localServices : Client (list string) :=
  c ← cli;
  l ← rangeMap (cServices c);
  mret (filter (fun s => s <> "system"%string) (fst <$> l)).

(** ** Contact data *)

(** The tokens MakeContactData gives. *)
Definition allowedMessages (am pm : gmap string Z) (base : gmap string Z) : gmap string Z :=
  map_imap (fun k a => Some
    (match base !! k with
     | None => wrapU64 (Z.of_nat inboxSize - wrapU64 (a - default 0%Z (pm !! k)))
     | Some b => wrapU64 (default 0%Z (pm !! k) - b)
     end)) am.

(** The contact data, and the counts it was made from; [base] is empty for nil. *)
Definition makeContactData (toSend : list Message.t) (base : gmap string Z) :
    Client (ContactData.t * list string * gmap string Z) :=
  c ← cli;
  t ← now;
  mret (ContactData.Mk (cNonce c) toSend (Some (Timestamp.Mk (t / 1000000000) (t mod 1000000000)))
          (allowedMessages (accepted c) (processedCounts c) base),
        Label.Label <$> cLabels c, processedCounts c).

Definition ProcessContactData (cd : ContactData.t) (streaming : bool) : Client unit :=
  (if streaming then mret tt else setCli (withNonce (ContactData.SequencingNonce cd))) ≫= fun _ =>
  forM_ (ContactData.Messages cd) (fun m => try (clientProcessMessage m) ≫= fun _ => mret tt).

(** ** The loops of the system service *)
Definition systemMessage (type : string) (d : Any.t) : Message.t :=
  Message.Mk None None false None (Some (Address.Mk None "system")) type None (Some d) None None
    Message.HIGH true None.

(** One turn of ackLoop: everything acknowledged within the second. *)
Definition ackTurn : Client unit :=
  c ← cli;
  match cAcks c with
  | [] => mret tt
  | ids =>
      setCli (withAcks []) ≫= fun _ =>
      try (serviceSend "system" (systemMessage "MessageAck"
        (packMessageAckData (MessageID.Bytes <$> ids)))) ≫= fun _ => mret tt
  end.

Definition errTurn : Client unit :=
  c ← cli;
  match cErrs c with
  | [] => mret tt
  | e :: rest =>
      setCli (withErrs rest) ≫= fun _ =>
      try (serviceSend "system" (systemMessage "MessageError" (packMessageErrorData e))) ≫= fun _ => mret tt
  end.
End ClientServices.

(** ** The counters and the inboxes *)
Section Counters.
Context `{P : Platform} `{CSL : ClientServiceLib}.

Record svcOK (name : string) (d : serviceData) : Prop := {
  so_len : length (inbox d) <= capacity d;
  so_cap : capacity d = if decide (name = "system"%string) then 5 else inboxSize;
  so_count : wrapU64 (acceptCount d - processedCount d) = Z.of_nat (length (inbox d));
  so_u64 : isU64 (processedCount d);
}.

Definition cliOK (c : Cli) : Prop := map_Forall svcOK (cServices c).

Abbreviation keepsOK m := (preserves (onData cliOK) m).

Lemma cliOK_setService name d c : svcOK name d -> cliOK c -> cliOK (setService name d c).
Proof. intros Hd Hc. by apply map_Forall_insert_2. Qed.

Lemma cliOK_new i labels : cliOK (newCli i labels).
Proof.
  intros name d. unfold newCli. simpl. intros [<- <-]%lookup_singleton_Some.
  split; simpl; [lia|done|done|done].
Qed.

Lemma svcOK_new cfg : validateServiceName (ClientServiceConfig.Name cfg) = Ok tt ->
  svcOK (ClientServiceConfig.Name cfg) (newService cfg).
Proof.
  intros Hv. split; simpl; [unfold inboxSize; lia| |done|done]. rewrite decide_False; [done|].
  intros Hs. rewrite Hs in Hv. done.
Qed.

Lemma wrapU64_add_l x y : wrapU64 (wrapU64 x + y) = wrapU64 (x + y).
Proof. unfold wrapU64. by rewrite Z.add_mod_idemp_l. Qed.
Lemma wrapU64_sub_r x y : wrapU64 (x - wrapU64 y) = wrapU64 (x - y).
Proof. unfold wrapU64. by rewrite Zminus_mod_idemp_r. Qed.

Lemma svcOK_accept name d m : svcOK name d -> length (inbox d) < capacity d ->
  svcOK name (mkService (serviceConfig d) (inbox d ++ [m]) (capacity d)
    (wrapU64 (acceptCount d + 1)) (processedCount d)).
Proof.
  intros [H1 H2 H3 H4] Hlt. split; simpl; [rewrite length_app; simpl; lia|done| |done].
  assert (Hcap : capacity d <= 100) by (rewrite H2; case_decide; unfold inboxSize; lia).
  unfold Z.sub in *. rewrite wrapU64_add_l.
  replace (acceptCount d + 1 + - processedCount d)%Z with ((acceptCount d + - processedCount d) + 1)%Z by lia.
  rewrite <- wrapU64_add_l, H3, length_app. simpl. rewrite wrapU64_small; unfold isU64; lia.
Qed.

Lemma svcOK_take name d m rest : svcOK name d -> inbox d = m :: rest ->
  svcOK name (mkService (serviceConfig d) rest (capacity d) (acceptCount d)
    (wrapU64 (processedCount d + 1))).
Proof.
  intros [H1 H2 H3 H4] Hi. rewrite Hi in *. simpl in *. split; simpl; [lia|done| |apply wrapU64_range].
  assert (Hcap : capacity d <= 100) by (rewrite H2; case_decide; unfold inboxSize; lia).
  rewrite wrapU64_sub_r. replace (acceptCount d - (processedCount d + 1))%Z
    with ((acceptCount d - processedCount d) + -1)%Z by lia.
  rewrite <- wrapU64_add_l, H3. rewrite wrapU64_small; unfold isU64; lia.
Qed.

(** *** Every operation keeps them *)
Lemma keeps_setCli f : (forall c, cliOK c -> cliOK (f c)) -> keepsOK (setCli f).
Proof. intros H w Hw. by apply H. Qed.

Lemma keeps_cli : keepsOK cli.
Proof. apply preserves_gets. Qed.

Lemma deliverLocally_OK m : keepsOK (deliverLocally m).
Proof.
  intros w Hw. unfold deliverLocally, mbind, M_bind, cli, gets.
  destruct (cServices (w_data w) !! destination m) as [d|] eqn:Hd; [|done].
  case_decide; [|done]. simpl. apply cliOK_setService; [|done]. apply svcOK_accept; [by apply Hw|done].
Qed.

#[local] Hint Resolve keeps_cli deliverLocally_OK preserves_randBytes preserves_rangeMap : preserves.
#[local] Hint Extern 1 (preserves _ (setCli _)) => (apply keeps_setCli; done) : preserves.

Lemma clientProcessMessage_OK m : keepsOK (clientProcessMessage m).
Proof. unfold clientProcessMessage. solve_preserves. Qed.
#[local] Hint Resolve clientProcessMessage_OK : preserves.

Lemma serviceSend_OK name m : keepsOK (serviceSend name m).
Proof. unfold serviceSend. cbv zeta. solve_preserves. Qed.

Lemma beacon_OK cnt : keepsOK (beacon cnt).
Proof. unfold beacon. solve_preserves. Qed.
#[local] Hint Resolve serviceSend_OK beacon_OK : preserves.

Lemma inbox_answer_OK name m : keepsOK (answer name m).
Proof. unfold answer, sendAck, sendErr. solve_preserves. Qed.
#[local] Hint Resolve inbox_answer_OK : preserves.

Lemma stopService_OK name d : keepsOK (stopService name d).
Proof. unfold stopService. cbv zeta. solve_preserves. Qed.
#[local] Hint Resolve stopService_OK : preserves.

Lemma processingTurn_OK name : keepsOK (processingTurn name).
Proof.
  unfold processingTurn. apply preserves_bind; [|intros [m|]; [apply inbox_answer_OK|apply preserves_ret]].
  intros w Hw. unfold countMessage, mbind, M_bind, cli, gets.
  destruct (cServices (w_data w) !! name) as [d|] eqn:Hd; [|done].
  destruct (inbox d) as [|m rest] eqn:Hi; [done|]. cbv zeta.
  assert (Hw1 : onData cliOK (mkWorld (setService name
    (mkService (serviceConfig d) rest (capacity d) (acceptCount d) (wrapU64 (processedCount d + 1)))
    (w_data w)) (w_step w))).
  { apply cliOK_setService; [|done]. eapply svcOK_take; [by apply Hw|done]. }
  unfold setCli at 1. pose proof (beacon_OK (wrapU64 (processedCount d + 1)) _ Hw1) as Hb.
  destruct (beacon _ _) as [[|?|?] w2]; done.
Qed.

Lemma InstallService_OK cfg sig : keepsOK (InstallService cfg sig).
Proof.
  unfold InstallService. apply preserves_lift_bind. intros [] Hv.
  destruct (validateServiceName _) as [[]| |] eqn:Hn; try done.
  apply preserves_bind; [apply keeps_cli|]. intros c. destruct (negb _); [apply preserves_fail|].
  destruct (clientFactory _); [|apply preserves_fail]. apply preserves_bind; [apply preserves_lift|]. intros _.
  apply preserves_bind; [|intros _; destruct (cServices c !! _); [apply stopService_OK|apply preserves_ret]].
  apply keeps_setCli. intros c' Hc'. apply (cliOK_setService _ (newService cfg) c'); [|done]. by apply svcOK_new.
Qed.

Lemma RestartService_OK name : keepsOK (RestartService name).
Proof.
  unfold RestartService, removeService. apply preserves_bind; [apply preserves_lift|]. intros _.
  apply preserves_bind.
  - apply preserves_bind; [apply keeps_cli|]. intros c. destruct (cServices c !! name); [|apply preserves_fail].
    apply preserves_bind; [|intros _; apply preserves_ret]. apply keeps_setCli. intros c' Hc'.
    by apply map_Forall_delete.
  - intros d. apply preserves_bind; [apply stopService_OK|]. intros _.
    destruct (serviceConfig d); [|apply preserves_crash].
    apply preserves_bind; [apply preserves_try, InstallService_OK|].
    intros [|]; [apply preserves_ret|apply preserves_fail].
Qed.

Lemma StopServices_OK : keepsOK StopServices.
Proof.
  unfold StopServices. apply preserves_bind; [apply keeps_cli|]. intros c.
  apply preserves_bind; [apply preserves_rangeMap|]. intros l.
  apply preserves_bind; [solve_preserves|]. intros _.
  apply keeps_setCli. intros c' _. apply map_Forall_empty.
Qed.

Lemma ProcessContactData_OK cd streaming : keepsOK (ProcessContactData cd streaming).
Proof. unfold ProcessContactData. solve_preserves. Qed.

Lemma ackTurn_OK : keepsOK ackTurn.
Proof. unfold ackTurn. solve_preserves. Qed.

Lemma errTurn_OK : keepsOK errTurn.
Proof. unfold errTurn. solve_preserves. Qed.
End Counters.

(** ** Properties *)
Section Properties.
Context `{P : Platform} {HP : PlatformOK P} `{CSL : ClientServiceLib}.

(** What can happen to a client, in any order; errors are logged. *)
Inductive clientOp :=
| OpProcess (m : Message.t)
| OpSend (name : string) (m : Message.t)
| OpTurn (name : string)
| OpInstall (cfg : ClientServiceConfig.t) (sig : gobytes)
| OpRestart (name : string)
| OpStop
| OpContact (cd : ContactData.t) (streaming : bool)
| OpAcks
| OpErrs.

Definition runClientOp (op : clientOp) : M (World Cli) unit :=
  match op with
  | OpProcess m => clientProcessMessage m
  | OpSend name m => serviceSend name m
  | OpTurn name => processingTurn name
  | OpInstall cfg sig => InstallService cfg sig
  | OpRestart name => RestartService name
  | OpStop => StopServices
  | OpContact cd streaming => ProcessContactData cd streaming
  | OpAcks => ackTurn
  | OpErrs => errTurn
  end.

Definition runClientOps (ops : list clientOp) (w : World Cli) : World Cli :=
  foldl (fun w op => snd (runClientOp op w)) w ops.

Lemma cliOK_ops ops w : cliOK (w_data w) -> cliOK (w_data (runClientOps ops w)).
Proof using Type.
  revert w. unfold runClientOps. induction ops as [|op ops IH]; intros w Hw; simpl; [done|]. apply IH.
  destruct op; [apply clientProcessMessage_OK|apply serviceSend_OK|apply processingTurn_OK|apply InstallService_OK
    |apply RestartService_OK|apply StopServices_OK|apply ProcessContactData_OK|apply ackTurn_OK|apply errTurn_OK]; done.
Qed.

Lemma deliver_many ms (w : World Cli) name d :
  cServices (w_data w) !! name = Some d -> Forall (fun m => destination m = name) ms ->
  length (inbox d) + length ms <= capacity d ->
  exists d' w', forM_ ms deliverLocally w = (Ok tt, w') /\ cServices (w_data w') !! name = Some d' /\
    inbox d' = inbox d ++ ms.
Proof using Type.
  revert w d. induction ms as [|m ms IH]; intros w d Hd Hms Hl; simpl.
  { exists d, w. by rewrite app_nil_r. }
  apply Forall_cons in Hms as [Hm Hms]. simpl in Hl.
  set (d1 := mkService (serviceConfig d) (inbox d ++ [m]) (capacity d) (wrapU64 (acceptCount d + 1)) (processedCount d)).
  set (w1 := mkWorld (setService name d1 (w_data w)) (w_step w)).
  assert (E : deliverLocally m w = (Ok tt, w1)).
  { unfold deliverLocally, mbind, M_bind, cli, gets. rewrite Hm, Hd, decide_True by lia. done. }
  destruct (IH w1 d1) as (d' & w' & E' & Hd' & Hi'); [by apply lookup_insert_eq|done| |].
  { simpl. rewrite length_app. simpl. lia. }
  exists d', w'. unfold mbind, M_bind. rewrite E, E'. split; [done|]. split; [done|].
  rewrite Hi'. simpl. by rewrite <- app_assoc.
Qed.

(** Whatever the services, the server and the user have done, the tokens
    a client offers at the start of a contact are, for every installed service,
    exactly the free places of its inbox, which never holds more than it can;
    and so many messages can then be delivered to the service without waiting.
    (The built-in service has fewer places than it is credited with.) *)
Theorem offered_tokens_are_free_places i labels ops n w name d toSend cd ls pm w' :
  w = runClientOps ops (mkWorld (newCli i labels) n) ->
  cServices (w_data w) !! name = Some d ->
  makeContactData toSend ∅ w = (Ok (cd, ls, pm), w') ->
  length (inbox d) <= capacity d /\
  ContactData.AllowedMessages cd !! name = Some (Z.of_nat (inboxSize - length (inbox d))) /\
  (name <> "system"%string -> forall ms, Forall (fun m => destination m = name) ms ->
     length ms <= inboxSize - length (inbox d) -> fst (forM_ ms deliverLocally w) = Ok tt).
Proof using Type.
  intros -> Hd E. set (w := runClientOps ops _) in *.
  assert (Hok : cliOK (w_data w)) by (apply cliOK_ops, cliOK_new).
  destruct (Hok _ _ Hd) as [H1 H2 H3 _]. split; [done|].
  assert (Hcap : capacity d <= inboxSize) by (rewrite H2; case_decide; unfold inboxSize; lia).
  split.
  - injection E as <- _ _ _. simpl. unfold allowedMessages, accepted, processedCounts.
    rewrite map_lookup_imap, lookup_empty, !lookup_fmap, Hd. simpl. rewrite H3.
    rewrite wrapU64_small by (unfold isU64, inboxSize in *; lia). f_equal. lia.
  - intros Hn ms Hms Hl. rewrite decide_False in H2 by done.
    destruct (deliver_many ms w name d) as (d' & w'' & E' & _); [done|done|rewrite H2; lia|].
    by rewrite E'.
Qed.

(** How Send completes a message. *)
Record completed (i : ClientID.t) (name : string) (m m' : Message.t) : Prop := {
  cp_source : Message.Source m' = Some (Address.Mk (ClientID.Bytes i) name);
  cp_id : 0 < blen (Message.SourceMessageId m');
  cp_fresh : blen (Message.SourceMessageId m) = 0 -> blen (Message.SourceMessageId m') = 16;
  cp_given : blen (Message.SourceMessageId m) <> 0 -> Message.SourceMessageId m' = Message.SourceMessageId m;
  cp_destination : Message.Destination m' = Message.Destination m;
  cp_type : Message.MessageType m' = Message.MessageType m;
  cp_data : Message.Data m' = Message.Data m;
}.

Lemma serviceSend_inv name m (w w' : World Cli) r : serviceSend name m w = (r, w') ->
  (exists m' w1, w_data w1 = w_data w /\ clientProcessMessage m' w1 = (r, w') /\
     completed (cID (w_data w)) name m m') \/
  (exists e, r = Err e) /\ w_data w' = w_data w.
Proof using HP.
  unfold serviceSend, mbind, M_bind at 1, cli, gets. cbv zeta. intros E.
  destruct (Nat.eqb_spec (blen (Message.SourceMessageId m)) 0) as [H0|H0].
  - simpl in E. rewrite H0 in E. simpl in E. unfold randBytes, interact, mbind, M_bind in E.
    destruct (randRead (w_step w) 16) as [b|] eqn:Hb; simpl in E.
    + left. eexists _, _. split; [|split; [exact E|]]; [done|].
      assert (Hl : String.length b = 16) by (by eapply randRead_length).
      split; try done; simpl; unfold blen, contents; simpl; lia.
    + right. injection E as <- <-. split; [by eexists|done].
  - simpl in E. rewrite (proj2 (Nat.eqb_neq _ _) H0) in E. left. eexists _, _.
    split; [|split; [exact E|]]; [done|]. split; try done. simpl. lia.
Qed.

Lemma clientProcessMessage_inv m (w w' : World Cli) r : clientProcessMessage m w = (r, w') ->
  (r <> Ok tt -> w_data w' = w_data w) /\
  (r = Ok tt -> exists dst, Message.Destination m = Some dst /\ Address.ServiceName dst <> ""%string /\
     ((blen (Address.ClientId dst) = 0 /\
       w_data w' = withOut (cOut (w_data w) ++ [((lane (Message.priority m)).1,
         setPriority (lane (Message.priority m)).2 m)]) (w_data w)) \/
      (contents (Address.ClientId dst) = contents (ClientID.Bytes (cID (w_data w))) /\
       exists d d', cServices (w_data w) !! Address.ServiceName dst = Some d /\
         inbox d' = inbox d ++ [m] /\
         w_data w' = setService (Address.ServiceName dst) d' (w_data w)))).
Proof using Type.
  unfold clientProcessMessage. destruct (Message.Destination m) as [dst|] eqn:Hdst.
  2:{ intros [= <- <-]. by split. }
  destruct (String.eqb_spec (Address.ServiceName dst) "") as [|Hn]; [intros [= <- <-]; by split|].
  destruct (Nat.eqb_spec (blen (Address.ClientId dst)) 0) as [H0|H0]; simpl.
  - destruct (lane (Message.priority m)) as [l p]. intros [= <- <-]. split; [done|].
    intros _. exists dst. split; [done|]. split; [done|]. by left.
  - unfold mbind, M_bind, cli, gets. destruct (String.eqb_spec (contents (Address.ClientId dst))
      (contents (ClientID.Bytes (cID (w_data w))))) as [Hid|]; simpl; [|intros [= <- <-]; by split].
    unfold deliverLocally, mbind, M_bind, cli, gets.
    assert (Hd : destination m = Address.ServiceName dst) by (unfold destination; by rewrite Hdst). rewrite Hd.
    destruct (cServices (w_data w) !! Address.ServiceName dst) as [d|] eqn:Hs; [|intros [= <- <-]; by split].
    case_decide; intros [= <- <-]; [|by split]. split; [done|]. intros _. exists dst.
    split; [done|]. split; [done|]. right. split; [done|]. eexists d, _. split; [done|].
    by split; [|reflexivity].
Qed.

(** A service can only speak for itself: what it sends carries its own
    name and the client's id as source and a source message id, 16 random bytes
    when it had none; for the server it is queued by its priority, and it only
    stays on the client when it names this very client, where it goes to the
    named service's inbox.  If Send fails nothing has changed. *)
Theorem service_send_spec name m (w w' : World Cli) r :
  serviceSend name m w = (r, w') ->
  (forall e, r = Err e -> w_data w' = w_data w) /\
  (r = Ok tt -> exists m' dst, completed (cID (w_data w)) name m m' /\
     Message.Destination m = Some dst /\ Address.ServiceName dst <> ""%string /\
     ((blen (Address.ClientId dst) = 0 /\
       w_data w' = withOut (cOut (w_data w) ++ [((lane (Message.priority m')).1,
         setPriority (lane (Message.priority m')).2 m')]) (w_data w)) \/
      (contents (Address.ClientId dst) = contents (ClientID.Bytes (cID (w_data w))) /\
       exists d d', cServices (w_data w) !! Address.ServiceName dst = Some d /\
         inbox d' = inbox d ++ [m'] /\
         w_data w' = setService (Address.ServiceName dst) d' (w_data w)))).
Proof using HP.
  intros [(m' & w1 & Hw1 & E & Hc)|[[e ->] Hw]]%serviceSend_inv; [|by split].
  destruct (clientProcessMessage_inv _ _ _ _ E) as [Herr Hok]. rewrite Hw1 in *. split.
  - intros e ->. by apply Herr.
  - intros Hr. destruct (Hok Hr) as (dst & Hdst & Hrest). rewrite (cp_destination _ _ _ _ Hc) in Hdst.
    by exists m', dst.
Qed.
End Properties.

(** ** Witnesses *)
#[local] Instance TestClientServiceLib : ClientServiceLib := {|
  clientFactory f := if String.eqb f "echo" then Some (fun _ => Ok tt) else None;
  runClientService name m := if String.eqb (Message.MessageType m) "Bad" then Err (ErrText "bad") else Ok tt;
  errText _ := "error";
  packMessageAckData _ := Any.Mk "MessageAckData" None;
  packMessageErrorData _ := Any.Mk "MessageErrorData" None;
|}.

Definition sampleID : ClientID.t := ClientID.Mk "12345678".

(** A message for service "svc" of the client. *)
Definition sampleIn (type : string) : Message.t :=
  Message.Mk (Some (zeros 32)) None false None (Some (Address.Mk (ClientID.Bytes sampleID) "svc")) type
    None None None None Message.MEDIUM false None.

Definition sampleCliOps : list clientOp :=
  [OpInstall (ClientServiceConfig.Mk "svc" "echo" [Label.Mk "client" "linux"]) None;
   OpProcess (sampleIn "One"); OpProcess (sampleIn "Bad"); OpProcess (sampleIn "Three");
   OpTurn "svc"; OpTurn "svc"; OpAcks; OpErrs].

Definition sampleCli : World Cli :=
  runClientOps sampleCliOps (mkWorld (newCli sampleID [Label.Mk "client" "linux"]) 0).

Lemma offered_tokens_are_free_places_witness :
  exists d cd ls pm w', cServices (w_data sampleCli) !! "svc"%string = Some d /\
    makeContactData [] ∅ sampleCli = (Ok (cd, ls, pm), w') /\
    ContactData.AllowedMessages cd !! "svc"%string = Some 99%Z.
Proof.
  assert (E : exists d, cServices (w_data sampleCli) !! "svc"%string = Some d /\ length (inbox d) = 1)
    by (vm_compute; eexists; split; reflexivity).
  destruct E as (d & Hd & Hl).
  destruct (makeContactData [] ∅ sampleCli) as [[[[cd ls] pm]| |] w'] eqn:E; [|vm_compute in E; discriminate E..].
  exists d, cd, ls, pm, w'. split; [exact Hd|]. split; [reflexivity|].
  destruct (offered_tokens_are_free_places sampleID [Label.Mk "client" "linux"] sampleCliOps 0 sampleCli
    "svc" d [] cd ls pm w' eq_refl Hd E) as (_ & H & _).
  rewrite Hl in H. exact H.
Defined.

Lemma service_send_spec_witness :
  let m := systemMessage "Hello" (Any.Mk "url" None) in
  exists m' dst, completed sampleID "svc" m m' /\ Message.Destination m = Some dst.
Proof.
  cbv zeta. set (m := systemMessage "Hello" (Any.Mk "url" None)).
  assert (E : serviceSend "svc" m sampleCli = (Ok tt, snd (serviceSend "svc" m sampleCli))) by (vm_compute; reflexivity).
  destruct (service_send_spec "svc" m sampleCli _ _ E) as [_ H].
  destruct (H eq_refl) as (m' & dst & Hc & Hd & _). exists m', dst. split; [exact Hc|exact Hd].
Defined.

(** The built-in service is credited with a hundred messages, but its inbox
    takes five: the sixth has to wait. *)
Example system_is_offered_more_than_it_takes :
  let w := mkWorld (newCli sampleID []) 0 in
  let die := Message.Mk (Some (zeros 32)) None false None
    (Some (Address.Mk (ClientID.Bytes sampleID) "system")) "Die" None None None None Message.MEDIUM false None in
  allowedMessages (accepted (w_data w)) (processedCounts (w_data w)) ∅ !! "system"%string = Some 100%Z /\
  fst (forM_ (replicate 6 die) deliverLocally w) = Err (ErrText "context deadline exceeded").
Proof. split; vm_compute; reflexivity. Qed.
