(* ===== verification/FlowControl.v ===== *)
(** * Message tokens, from the server to the inbox of a client's service

    One service of one streaming connection, both ends together: the server's
    tokens (ConnectionInfo of src/server/comms/comms.go, charged by
    findMessagesForClient), the messages and the contact data under way, and
    the client's inbox with its two counters (src/client/services.go), from
    which MakeContactData (src/client/comms.go) computes what it allows.  A
    message enters the inbox before it is counted as accepted, and leaves it
    before it is counted as processed, so these are separate steps.  The inbox
    of the system service is smaller than those of the configured ones, and the
    client offers the same room for it.

    The first contact of the connection has been taken by the server, and at
    that moment no message was half accepted and at most [inboxSize] were in the
    inbox or being processed; the service is not restarted meanwhile, and gets
    no messages from other services of the client.  The examples at the end show
    what happens otherwise. *)
From S2P Require Import Prelude Platform Ids Proto Db SqliteMessages Comms ClientServices.

Section Flow.
Context {Key : Type} (svc : string).

Record flow := mkFlow {
  fInfo : ConnectionInfo.t Key;
  (** AllowedMessages on the way to the server, messages on the way back. *)
  fUp : list Z;
  fDown : nat;
  fInbox : nat;
  (** In the inbox, but not counted as accepted; taken out, but not counted. *)
  fPushed : bool;
  fTaken : bool;
  fAccept : Z;
  fProcessed : Z;
  (** The processed count of the last contact data. *)
  fBase : Z;
}.

(** The capacity of the service's inbox. *)
Definition inboxRoom : nat := if decide (svc = "system"%string) then 5 else inboxSize.

(** The tokens the server has for the service. *)
Definition tokens (i : ConnectionInfo.t Key) : Z := limitOf (default ∅ (ConnectionInfo.MessageTokens i)) svc.

(** What MakeContactData allows for the service. *)
Definition allowed (accept processed : Z) (base : option Z) : option Z :=
  allowedMessages {[svc := accept]} {[svc := processed]}
    (match base with Some b => {[svc := b]} | None => ∅ end) !! svc.

Inductive flowStep : flow -> flow -> Prop :=
| flow_send i i' up down n pu tk a p b k :
    (0 < k)%Z -> (k <= tokens i)%Z ->
    ConnectionInfo.SubtractMessageTokens {[svc := k]} i = Ok i' ->
    flowStep (mkFlow i up down n pu tk a p b) (mkFlow i' up (down + Z.to_nat k) n pu tk a p b)
| flow_push i up down n tk a p b :
    n < inboxRoom ->
    flowStep (mkFlow i up (S down) n false tk a p b) (mkFlow i up down (S n) true tk a p b)
| flow_accept i up down n tk a p b :
    flowStep (mkFlow i up down n true tk a p b) (mkFlow i up down n false tk (wrapU64 (a + 1)) p b)
| flow_take i up down n pu a p b :
    flowStep (mkFlow i up down (S n) pu false a p b) (mkFlow i up down n pu true a p b)
| flow_count i up down n pu a p b :
    flowStep (mkFlow i up down n pu true a p b) (mkFlow i up down n pu false a (wrapU64 (p + 1)) b)
| flow_report i up down n pu tk a p b d :
    allowed a p (Some b) = Some d ->
    flowStep (mkFlow i up down n pu tk a p b) (mkFlow i (up ++ [d]) down n pu tk a p p)
| flow_credit i up down n pu tk a p b d :
    flowStep (mkFlow i (d :: up) down n pu tk a p b)
      (mkFlow (ConnectionInfo.AddMessageTokens {[svc := d]} i) up down n pu tk a p b).

(** The start of the stream: the client counts [a] and [p] and has [n] messages
    in the inbox and perhaps one taken out; none is half accepted. *)
Inductive flowStart : flow -> Prop :=
| flow_start i n (tk : bool) a p d :
    ConnectionInfo.MessageTokens i = None -> isU64 p -> n + (if tk then 1 else 0) <= inboxSize ->
    wrapU64 (a - p) = Z.of_nat (n + if tk then 1 else 0) ->
    allowed a p None = Some d ->
    flowStart (mkFlow (ConnectionInfo.AddMessageTokens {[svc := d]} i) [] 0 n false tk a p p).

Definition flowReachable (s : flow) : Prop := exists s0, flowStart s0 /\ rtc flowStep s0 s.

(** ** The invariant *)
Definition unreported (s : flow) : Z := wrapU64 (fProcessed s - fBase s).

Record flowOK (s : flow) : Prop := {
  fo_tokens : (0 <= tokens (fInfo s))%Z;
  fo_set : is_Some (ConnectionInfo.MessageTokens (fInfo s));
  fo_up : Forall (fun d => 0 <= d)%Z (fUp s);
  fo_sum : (tokens (fInfo s) + sumZ (fUp s) + Z.of_nat (fDown s) + Z.of_nat (fInbox s) +
    (if fTaken s then 1 else 0) + unreported s = Z.of_nat inboxSize)%Z;
}.

Lemma allowed_None a p : allowed a p None = Some (wrapU64 (Z.of_nat inboxSize - wrapU64 (a - p))).
Proof. unfold allowed, allowedMessages. by rewrite map_lookup_imap, lookup_empty, !lookup_singleton_eq. Qed.

Lemma allowed_Some a p b : allowed a p (Some b) = Some (wrapU64 (p - b)).
Proof. unfold allowed, allowedMessages. by rewrite map_lookup_imap, !lookup_singleton_eq. Qed.

Lemma tokens_add d i : (0 <= tokens i)%Z -> (0 <= d)%Z -> (tokens i + d < 2 ^ 64)%Z ->
  tokens (ConnectionInfo.AddMessageTokens {[svc := d]} i) = (tokens i + d)%Z.
Proof.
  intros Ht Hd Hs. unfold tokens, limitOf, ConnectionInfo.AddMessageTokens in *. simpl.
  rewrite lookup_merge, lookup_singleton_eq. simpl.
  unfold ConnectionInfo.MessageTokens in *. destruct (default ∅ (ConnectionInfo.messageTokens i) !! svc) eqn:E;
    simpl in *; rewrite wrapU64_small; unfold isU64; lia.
Qed.

Lemma tokens_subtract k i i' : ConnectionInfo.SubtractMessageTokens {[svc := k]} i = Ok i' ->
  is_Some (ConnectionInfo.MessageTokens i) -> (0 <= k)%Z -> (k <= tokens i < 2 ^ 64)%Z ->
  tokens i' = (tokens i - k)%Z /\ is_Some (ConnectionInfo.MessageTokens i').
Proof.
  intros E [s Hs] Hk Hle. unfold ConnectionInfo.SubtractMessageTokens, ConnectionInfo.MessageTokens in *.
  rewrite Hs in E. simpl in E. repeat (case_decide; [done|]). injection E as <-. simpl. split; [|by eexists].
  unfold tokens, limitOf, ConnectionInfo.MessageTokens in *. simpl. rewrite Hs in *. simpl in *.
  rewrite lookup_merge, lookup_singleton_eq. simpl.
  destruct (s !! svc); simpl in *; rewrite wrapU64_small; unfold isU64; lia.
Qed.

Lemma wrapU64_succ p b : (wrapU64 (p - b) < 2 ^ 64 - 1)%Z -> wrapU64 (wrapU64 (p + 1) - b) = (wrapU64 (p - b) + 1)%Z.
Proof.
  intros H. unfold Z.sub in *. rewrite wrapU64_add_l.
  replace (p + 1 + - b)%Z with (p + - b + 1)%Z by lia. rewrite <- wrapU64_add_l.
  pose proof (wrapU64_range (p + - b)) as Hr. unfold isU64 in Hr. rewrite (wrapU64_small (wrapU64 _ + 1)); [done|].
  unfold isU64. lia.
Qed.

Lemma flowOK_start s : flowStart s -> flowOK s.
Proof.
  intros [i n tk a p d Hi Hp Hn Hc Hd]. rewrite allowed_None in Hd. injection Hd as <-. rewrite Hc.
  assert (Ht : tokens i = 0%Z) by (unfold tokens; by rewrite Hi).
  rewrite wrapU64_small by (unfold isU64, inboxSize in *; lia).
  assert (Ha := tokens_add (Z.of_nat inboxSize - Z.of_nat (n + (if tk then 1 else 0))) i).
  rewrite Ht in Ha. unfold inboxSize in *.
  split; unfold unreported; cbn [fInfo fUp fDown fInbox fTaken fProcessed fBase].
  - rewrite Ha; lia.
  - by eexists.
  - constructor.
  - rewrite Ha by lia. rewrite Z.sub_diag. simpl sumZ. change (wrapU64 0) with 0%Z. unfold inboxSize. destruct tk; cbv iota in *; lia.
Qed.

Lemma flowOK_step s s' : flowOK s -> flowStep s s' -> flowOK s'.
Proof.
  intros [H1 H2 H3 H4] Hst. pose proof (sumZ_nonneg _ H3) as Hup.
  pose proof (wrapU64_range (fProcessed s - fBase s)) as Hr. unfold isU64 in Hr. unfold unreported, inboxSize in *.
  assert (Htk : (0 <= if fTaken s then 1 else 0)%Z) by (by destruct (fTaken s)).
  destruct Hst as [i i' up down n pu tk a p b k Hk Hle E|i up down n tk a p b Hn|i up down n tk a p b
    |i up down n pu a p b|i up down n pu a p b|i up down n pu tk a p c d E|i up down n pu tk a p c d];
    cbn [fInfo fUp fDown fInbox fTaken fProcessed fBase] in *;
    split; unfold unreported, inboxSize; cbn [fInfo fUp fDown fInbox fTaken fProcessed fBase]; try done; try lia.
  - destruct (tokens_subtract k i i' E H2) as [-> _]; lia.
  - destruct (tokens_subtract k i i' E H2) as [_ ?]; [lia|lia|done].
  - destruct (tokens_subtract k i i' E H2) as [-> _]; lia.
  - rewrite wrapU64_succ by lia. lia.
  - rewrite allowed_Some in E. injection E as <-. apply Forall_app. split; [done|]. constructor; [lia|constructor].
  - rewrite allowed_Some in E. injection E as <-. rewrite sumZ_app, Z.sub_diag. simpl sumZ.
    change (wrapU64 0) with 0%Z. lia.
  - apply Forall_cons in H3 as [Hd H3]. pose proof (sumZ_nonneg _ H3). simpl in *. rewrite tokens_add; lia.
  - by apply Forall_cons in H3 as [_ H3].
  - apply Forall_cons in H3 as [Hd H3]. pose proof (sumZ_nonneg _ H3). simpl in *. rewrite tokens_add; lia.
Qed.

Lemma flowOK_reachable s : flowReachable s -> flowOK s.
Proof.
  intros (s0 & H0 & Hr). apply flowOK_start in H0. induction Hr as [|s1 s2 s3 Hst _ IH]; [done|].
  apply IH. by eapply flowOK_step.
Qed.

End Flow.

(** ** Witness: two messages, one of them processed and reported. *)
Definition sampleFlowInfo : ConnectionInfo.t unit :=
  ConnectionInfo.Mk "addr" (ClientInfo.Mk exampleClientID tt [] false false) "" 1 2 (AuthClientInfo.Mk false []) None None.


(** Six messages for the system service, with five of them in its inbox: the
    sixth, which the tokens allowed, finds no room. *)
Example system_inbox_is_full :
  exists s : flow (Key := unit), flowReachable "system" s /\ fDown s = 1 /\ fInbox s = 5 /\ inboxRoom "system" = 5.
Proof.
  eexists. split; [|split; [|split]].
  - eexists. split; [apply (flow_start "system" sampleFlowInfo 0 false 7 7 100); try reflexivity; [done|unfold inboxSize; lia]|].
    eapply rtc_l; [eapply (flow_send "system" _ _ _ _ _ _ _ _ _ _ 6); [done|by vm_compute|vm_compute; reflexivity]|].
    do 5 (eapply rtc_l; [apply (flow_push "system"); unfold inboxRoom; simpl; lia|];
          eapply rtc_l; [apply (flow_accept "system")|]).
    apply rtc_refl.
  - reflexivity.
  - reflexivity.
  - reflexivity.
Qed.

(** A message that is processed before it is counted as accepted makes the
    first contact of a stream offer one place too many. *)
Example uncounted_message_is_offered_twice : allowed "svc" 0 1 None = Some 101%Z.
Proof. vm_compute. reflexivity. Qed.

(** A service that is restarted while a stream is up counts from zero again,
    but the next contact data is relative to the old count: the difference
    wraps, and so do the server's tokens - after 150 messages the server may
    send that service 2^64-50 more, with room for a hundred. *)
Definition countedClient : World Cli :=
  runClientOps (CSL := TestClientServiceLib)
    (OpInstall (ClientServiceConfig.Mk "svc" "echo" []) None ::
     concat (replicate 150 [OpProcess (sampleIn "One"); OpTurn "svc"]))
    (mkWorld (newCli sampleID []) 0).

Example restart_gives_unlimited_tokens :
  let base := processedCounts (w_data countedClient) in
  let w := snd (RestartService (CSL := TestClientServiceLib) "svc" countedClient) in
  let delta := allowedMessages (accepted (w_data w)) (processedCounts (w_data w)) base in
  let before := ConnectionInfo.AddMessageTokens {["svc"%string := 100%Z]} sampleFlowInfo in
  base !! "svc"%string = Some 150%Z /\ delta !! "svc"%string = Some (2 ^ 64 - 150)%Z /\
  tokens "svc" (ConnectionInfo.AddMessageTokens delta before) = (2 ^ 64 - 50)%Z.
Proof. vm_compute. done. Qed.
