(* ===== verification/ClientHosts.v ===== *)
(** * The servers a client tries

    What src/client/https/polling.go, streaming.go and https.go share: the
    thresholds of a contact and the loops that try one server address after
    the other.  The address that answered comes first the next time. *)
From S2P Require Import Prelude.

Definition sendBytesThreshold : Z := 15 * 1024 * 1024.
Definition minSendBytesThreshold : Z := 256 * 1024.
Definition sendCountThreshold : nat := 100.

Lemma sendCountThreshold_pos : 1 <= sendCountThreshold.
Proof. unfold sendCountThreshold. lia. Qed.
#[global] Opaque sendCountThreshold.

(** [c.hosts[0], c.hosts[i] = c.hosts[i], c.hosts[0]], when [i] is not 0. *)
Definition swapFirst (i : nat) (hosts : list string) : list string :=
  match i, hosts !! 0, hosts !! i with
  | S _, Some a, Some b => <[0 := b]> (<[i := a]> hosts)
  | _, _, _ => hosts
  end.

(** ** connectLoop and poll

    [attempt i h] is what the call for the i-th address returns, [ctxErr i]
    whether the context is done after it failed. *)
Section Try.
Context {A : Type} (attempt : nat -> string -> outcome A) (ctxErr : nat -> bool).

Inductive tried := Reached (i : nat) (a : A) | Stopped | Unreachable.

Fixpoint tryFrom (i : nat) (hosts : list string) : tried :=
  match hosts with
  | [] => Unreachable
  | h :: rest =>
      match attempt i h with
      | Ok a => Reached i a
      | _ => if ctxErr i then Stopped else tryFrom (S i) rest
      end
  end.

(** The result, and the addresses in their new order. *)
Definition tryHosts (hosts : list string) : tried * list string :=
  match tryFrom 0 hosts with
  | Reached i a => (Reached i a, swapFirst i hosts)
  | r => (r, hosts)
  end.

(** getFileIfModified: the addresses keep their order, and no other is tried
    after the context is done.  The error quotes the last one; the quotation
    is left out. *)
Fixpoint getFileFrom (i : nat) (hosts : list string) : outcome A :=
  match hosts with
  | [] => Err (ErrText "unable to retrieve file")
  | h :: rest =>
      match attempt i h with
      | Ok a => Ok a
      | Err e => if ctxErr i then Err (ErrText "unable to retrieve file") else getFileFrom (S i) rest
      | Crash w => Crash w
      end
  end.
Definition getFileIfModified (hosts : list string) : outcome A := getFileFrom 0 hosts.

Lemma tryFrom_reached i hosts j a :
  tryFrom i hosts = Reached j a ->
  exists k h, j = i + k /\ hosts !! k = Some h /\ attempt j h = Ok a /\
    forall k' h', k' < k -> hosts !! k' = Some h' -> isOk (attempt (i + k') h') = false /\ ctxErr (i + k') = false.
Proof.
  revert i. induction hosts as [|h hosts IH]; intros i; simpl; [done|].
  destruct (attempt i h) as [a'| |] eqn:Ha.
  { intros [= <- <-]. exists 0, h. rewrite Nat.add_0_r. repeat split; try done; lia. }
  all: destruct (ctxErr i) eqn:Hc; [done|]; intros (k & h1 & -> & H1 & H2 & H3)%IH;
    exists (S k), h1; rewrite Nat.add_succ_r; (split; [done|]); (split; [done|]); (split; [done|]);
    intros [|k'] h' Hk Hl; simpl in Hl;
    [injection Hl as <-; rewrite Nat.add_0_r; by rewrite Ha
    |rewrite Nat.add_succ_r; apply (H3 k'); [lia|done]].
Qed.

Lemma swapFirst_perm i hosts : swapFirst i hosts ≡ₚ hosts.
Proof.
  unfold swapFirst. destruct i as [|i]; [done|].
  destruct hosts as [|a hosts]; [done|]. simpl. destruct (hosts !! i) as [b|] eqn:Hi; [|done]. simpl.
  rewrite <- (take_drop_middle hosts i b Hi) at 2. rewrite insert_take_drop by (by eapply lookup_lt_Some).
  rewrite <- Permutation_middle. etrans; [apply perm_swap|]. constructor. by rewrite <- Permutation_middle.
Qed.

Lemma swapFirst_head i hosts h : hosts !! i = Some h -> head (swapFirst i hosts) = Some h.
Proof.
  intros Hi. unfold swapFirst. destruct i as [|i]; [by destruct hosts|].
  destruct hosts as [|a hosts]; [done|]. simpl in *. by rewrite Hi.
Qed.

(** The first address that answers is the one used, it is tried first the
    next time, and no address is lost. *)
Lemma tryHosts_spec hosts r hosts' :
  tryHosts hosts = (r, hosts') ->
  hosts' ≡ₚ hosts /\
  (forall i a, r = Reached i a ->
     exists h, hosts !! i = Some h /\ attempt i h = Ok a /\ head hosts' = Some h /\
       forall j h', j < i -> hosts !! j = Some h' -> isOk (attempt j h') = false) /\
  (r = Unreachable -> hosts' = hosts /\ forall i h, hosts !! i = Some h -> isOk (attempt i h) = false).
Proof.
  unfold tryHosts. destruct (tryFrom 0 hosts) as [i a| |] eqn:E; intros [= <- <-].
  - split; [apply swapFirst_perm|]. split; [|done]. intros j b [= <- <-].
    apply tryFrom_reached in E as (k & h & -> & H1 & H2 & H3). exists h. split; [done|]. split; [done|].
    split; [by apply swapFirst_head|]. intros j h' Hj Hl. by apply (H3 j h').
  - done.
  - split; [done|]. split; [done|]. intros _. split; [done|].
    assert (Hall : forall i, tryFrom i hosts = Unreachable ->
      forall k h, hosts !! k = Some h -> isOk (attempt (i + k) h) = false); [|by apply (Hall 0)].
    clear E. induction hosts as [|h hosts IH]; intros i E k h'; [done|]. simpl in E.
    destruct (attempt i h) eqn:Ha; [done|..]; (destruct (ctxErr i); [done|]);
      (destruct k as [|k]; simpl; [intros [= <-]; by rewrite Nat.add_0_r, Ha
        |rewrite Nat.add_succ_r; by apply (IH (S i))]).
Qed.
End Try.
