(* ===== verification/StreamClient.v ===== *)
(** * The client's end of a streaming connection

    src/client/https/streaming.go: the two goroutines of a [connection] with
    the map of contacts that wait for an acknowledgement, Flush, the initial
    exchange and the choice of a host.  A goroutine is a state machine whose
    steps are the turns of its loop between two points where it can wait; what
    the network, the outbox and the contexts do is in the event.  A contact is
    the list of messages it carries.  Statistics, logs and the byte format are
    left out; Framing has the format. *)
From S2P Require Import Prelude ClientHosts.

(** What the client reads from the server's stream: fspb.ContactData.  The
    messages of the server stand for themselves. *)
Record cdata {In : Type} := mkCData { AckIndex : nat; Messages : list In; DoneSending : bool }.
Arguments cdata : clear implicits.
Arguments mkCData {In}.

(** ** groupMessages *)
Section Group.
Context {Msg : Type} (protoSize : Msg -> Z).

(** The first [select] and the ones of the loop. *)
Inductive firstCase := CaseServerDone | CaseCtxDone | CaseBeacon | CaseMessage (m : Msg).
Inductive gatherCase := CaseTimeout | CaseMore (m : Msg).

(** [ns] is what int(rate * 10.0) yields, when the rate is a positive number. *)
Definition sizeThreshold (ns : option Z) : Z :=
  let sizeT := (sendBytesThreshold / 2)%Z in
  match ns with
  | Some ns => let sizeT := if (ns <? sizeT)%Z then ns else sizeT in
               if (sizeT <? minSendBytesThreshold)%Z then minSendBytesThreshold else sizeT
  | None => sizeT
  end.

(** The loop, over the cases its [select] takes; [None] while it waits. *)
Fixpoint gather (ns : option Z) (size : Z) (r : list Msg) (es : list gatherCase) : option (list Msg) :=
  if (sizeThreshold ns <=? size)%Z || (sendCountThreshold <=? length r) then Some r
  else match es with
       | [] => None
       | CaseTimeout :: _ => Some r
       | CaseMore m :: es => gather ns (wrapI64 (size + protoSize m)) (r ++ [m]) es
       end.

(** The group, or [None] for nil, and whether to shut down. *)
Definition groupMessages (ns : option Z) (first : firstCase) (es : list gatherCase) :
    option (option (list Msg) * bool) :=
  match first with
  | CaseServerDone => Some (None, true)
  | CaseCtxDone => Some (None, true)
  | CaseBeacon => Some (None, false)
  | CaseMessage m => r ← gather ns (wrapI64 (2 + protoSize m)) [m] es; Some (Some r, false)
  end.

Definition bytes (r : list Msg) : Z := sumZ (protoSize <$> r).

(** The messages the cases deliver, in their order. *)
Definition offered (first : firstCase) (es : list gatherCase) : list Msg :=
  match first with CaseMessage m => [m] | _ => [] end ++
  omap (fun e => match e with CaseMore m => Some m | CaseTimeout => None end) es.
End Group.
Arguments firstCase : clear implicits.
Arguments gatherCase : clear implicits.

(** ** The connection *)
Section Connection.
Context {Msg In : Type} (protoSize : Msg -> Z).

(** writeLoop: at groupMessages, with a group in hand, writing it, waiting for
    the context after a stepped shutdown, returned. *)
Inductive writer :=
| Grouping
| Grouped (msgs : list Msg)
| Writing (msgs : list Msg)
| WaitingCtx
| WriterDone.

(** readLoop: reading, waiting for the writer after DoneSending, returned. *)
Inductive reader :=
| Reading
| WaitingWriter (cd : cdata In)
| ReaderDone.

Inductive flusher := FlushIdle | FlushWaiting | FlushReturned (ok : bool).

Record connection := mkConn {
  pending : gmap nat (list Msg);
  ctxDone : bool;
  serverDone : bool;
  writingDone : bool;
  (** The buffered channel holds a token. *)
  pendingEmpty : bool;
  wr : writer;
  wcnt : nat;
  rd : reader;
  rcnt : nat;
  rWritingDone : bool;
  fl : flusher;
  (** connectLoop has taken the connection back. *)
  cleared : bool;
  panicked : bool;
  (** History: the groups, by their number less one, with nil as the empty
      group; the callbacks of their messages; the contacts put on the wire; the
      messages handed to ProcessContactData. *)
  groups : list (list Msg);
  acked : list Msg;
  nacked : list Msg;
  written : list (list Msg);
  received : list In;
}.

Definition connInit : connection :=
  mkConn ∅ false false false false Grouping 1 Reading 1 false FlushIdle false false [] [] [] [] [].

#[export] Instance connection_eta : Eta connection := fun c =>
  mkConn (pending c) (ctxDone c) (serverDone c) (writingDone c) (pendingEmpty c) (wr c) (wcnt c)
    (rd c) (rcnt c) (rWritingDone c) (fl c) (cleared c) (panicked c) (groups c) (acked c) (nacked c)
    (written c) (received c).

(** *** writeLoop *)

(** [close]: panics when the channel is closed already. *)
Definition closeServerDone (c : connection) : connection :=
  if serverDone c then c <| panicked := true |> else c <| serverDone := true |>.
Definition closeWritingDone (c : connection) : connection :=
  if writingDone c then c <| panicked := true |> else c <| writingDone := true |>.

(** The deferred function of writeLoop. *)
Definition leaveWriter (steppedShutdown : bool) (c : connection) : connection :=
  let c := c <| ctxDone := true |> <| wr := WriterDone |> in
  if steppedShutdown then c else closeWritingDone c.

#[local] Arguments leaveWriter : simpl never.
#[local] Arguments closeWritingDone : simpl never.

Inductive writeEvent :=
| Group (ns : option Z) (first : firstCase Msg) (es : list (gatherCase Msg))
| Prepare                  (* the test of the context before MakeContactData *)
| PrepareFails             (* MakeContactData or proto.Marshal fails *)
| Write                    (* both writes and the flush succeed *)
| WriteFails (through : bool)  (* one fails; the record may still get through *)
| CtxEnds.                 (* <-c.ctx.Done() after a stepped shutdown *)

Definition writeLoopStep (c : connection) (e : writeEvent) : option connection :=
  match e, wr c with
  | Group ns first es, Grouping =>
      g ← groupMessages protoSize ns first es;
      match g with
      | (_, true) =>
          if (match first with CaseServerDone => serverDone c | _ => ctxDone c end) then
            if ctxDone c then Some (leaveWriter false c)
            else Some ((closeWritingDone c) <| wr := WaitingCtx |>)
          else None
      | (None, false) => Some (c <| wcnt := S (wcnt c) |> <| groups := groups c ++ [[]] |>
                               <| wr := Grouped [] |>)
      | (Some msgs, false) =>
          Some (c <| pending := <[wcnt c := msgs]> (pending c) |> <| wcnt := S (wcnt c) |>
                  <| groups := groups c ++ [msgs] |> <| wr := Grouped msgs |>)
      end
  | Prepare, Grouped msgs =>
      if ctxDone c then Some (leaveWriter false c) else Some (c <| wr := Writing msgs |>)
  | PrepareFails, Writing _ => Some (leaveWriter false c)
  | Write, Writing msgs => Some (c <| written := written c ++ [msgs] |> <| wr := Grouping |>)
  | WriteFails through, Writing msgs =>
      let c := if through then c <| written := written c ++ [msgs] |> else c in
      Some (leaveWriter false c)
  | CtxEnds, WaitingCtx => if ctxDone c then Some (leaveWriter true c) else None
  | _, _ => None
  end.

(** *** readLoop *)

Definition leaveReader (c : connection) : connection := c <| ctxDone := true |> <| rd := ReaderDone |>.

(** The part of a turn after DoneSending was dealt with. *)
Definition handleRecord (cd : cdata In) (c : connection) : connection :=
  let process c := (c <| received := received c ++ Messages cd |>) <| rd := Reading |> in
  if decide (AckIndex cd = 0) then process c
  else
    let toAck := default [] (pending c !! rcnt c) in
    let c := c <| pending := delete (rcnt c) (pending c) |> in
    let l := size (pending c) in
    let c := if decide (l = 0) then c <| pendingEmpty := true |> else c in
    let c := c <| rcnt := S (rcnt c) |> <| acked := acked c ++ toAck |> in
    if rWritingDone c && bool_decide (l = 0) then leaveReader c else process c.

Inductive readEvent :=
| ReadRecord (cd : cdata In)
| ReadFails
| SeesCtx                 (* the [select] after DoneSending *)
| SeesWritingDone.

Definition readLoopStep (c : connection) (e : readEvent) : option connection :=
  match e, rd c with
  | ReadRecord cd, Reading =>
      Some (if DoneSending cd then (closeServerDone c) <| rd := WaitingWriter cd |>
            else handleRecord cd c)
  | ReadFails, Reading => Some (leaveReader c)
  | SeesCtx, WaitingWriter _ => if ctxDone c then Some (leaveReader c) else None
  | SeesWritingDone, WaitingWriter cd =>
      if writingDone c then
        let c := c <| rWritingDone := true |> in
        Some (if decide (pending c = ∅) then leaveReader c else handleRecord cd c)
      else None
  | _, _ => None
  end.

(** *** Flush, Reset and connectLoop *)

Inductive otherEvent :=
| StartFlush              (* Flush has found the connection *)
| FlushToken
| FlushGivesUp            (* the context of Flush ends *)
| Cancel                  (* Reset, the life time, Stop *)
| Clear.                  (* connectLoop after working.Wait() *)

Definition flushStep (c : connection) (e : otherEvent) : option connection :=
  match e, fl c with
  | StartFlush, FlushWaiting => None
  | StartFlush, _ =>
      if ctxDone c || cleared c then None
      else Some (c <| fl := if decide (size (pending c) = 0) then FlushReturned true else FlushWaiting |>)
  | FlushToken, FlushWaiting =>
      if pendingEmpty c then Some (c <| pendingEmpty := false |> <| fl := FlushReturned true |>) else None
  | FlushGivesUp, FlushWaiting => Some (c <| fl := FlushReturned false |>)
  | _, _ => None
  end.

(** What was not acknowledged is nacked, contact by contact in some order. *)
Definition clearStep (c : connection) : option connection :=
  match wr c, rd c, cleared c with
  | WriterDone, ReaderDone, false =>
      Some (c <| cleared := true |>
              <| nacked := nacked c ++ concat (snd <$> map_to_list (pending c)) |>)
  | _, _, _ => None
  end.

Inductive connEvent :=
| OfWriter (e : writeEvent)
| OfReader (e : readEvent)
| Other (e : otherEvent).

(** A process that panicked takes no step. *)
Definition connStep (c : connection) (e : connEvent) : option connection :=
  if panicked c then None
  else match e with
       | OfWriter e => writeLoopStep c e
       | OfReader e => readLoopStep c e
       | Other Cancel => Some (c <| ctxDone := true |>)
       | Other Clear => clearStep c
       | Other e => flushStep c e
       end.

Definition connMoves (c c' : connection) : Prop := exists e, connStep c e = Some c'.
Definition connReachable : connection -> Prop := rtc connMoves connInit.

Fixpoint connRun (c : connection) (es : list connEvent) : option connection :=
  match es with
  | [] => Some c
  | e :: es => match connStep c e with Some c' => connRun c' es | None => None end
  end.

(** Messages in contacts that wait for an acknowledgement. *)
Definition unsettled (c : connection) : list Msg := concat (snd <$> map_to_list (pending c)).

(** ** What holds whatever the server sends *)
Record settleOK (c : connection) : Prop := {
  so_cnt : wcnt c = S (length (groups c));
  so_keys k : is_Some (pending c !! k) -> k < wcnt c;
  so_settled : concat (groups c) ≡ₚ acked c ++ unsettled c;
  so_nacked : nacked c = if cleared c then unsettled c else [];
  so_cleared : cleared c = true -> wr c = WriterDone /\ rd c = ReaderDone;
  so_writing : writingDone c = match wr c with WaitingCtx | WriterDone => true | _ => false end;
  so_ctx : wr c = WriterDone \/ rd c = ReaderDone -> ctxDone c = true;
  so_sizes : Forall (fun g => length g <= sendCountThreshold) (groups c);
}.
End Connection.
#[global] Arguments leaveWriter : simpl never.
#[global] Arguments closeWritingDone : simpl never.
#[global] Arguments handleRecord : simpl never.

Section Settling.
Context {Msg In : Type} (protoSize : Msg -> Z).
Abbreviation conn := (connection (Msg := Msg) (In := In)).
Implicit Types c : conn.

Lemma gather_spec ns sz r es g :
  gather protoSize ns sz r es = Some g -> length r <= sendCountThreshold ->
  length g <= sendCountThreshold /\ exists rest, g = r ++ rest /\
    rest `prefix_of` omap (fun e => match e with CaseMore m => Some m | CaseTimeout => None end) es.
Proof.
  revert sz r. induction es as [|[|m] es IH]; intros sz r; simpl; destruct (_ || _) eqn:Hf; try done;
    intros E Hr; try (injection E as <-; split; [done|]; exists []; rewrite app_nil_r; split; [done|apply prefix_nil]).
  apply orb_false_iff in Hf as [_ Hl%Nat.leb_gt].
  apply IH in E as (Hg & rest & -> & Hp); [|rewrite length_app; simpl; lia].
  split; [done|]. exists (m :: rest). rewrite <- app_assoc. split; [done|]. by apply prefix_cons.
Qed.

Lemma groupMessages_length ns first es g :
  groupMessages protoSize ns first es = Some (Some g, false) -> length g <= sendCountThreshold.
Proof.
  destruct first as [| | |m]; simpl; try done. destruct (gather _ _ _ _ _) as [g'|] eqn:Hg; [|done].
  intros [= ->]. apply gather_spec in Hg as [H _]; [done|apply sendCountThreshold_pos].
Qed.

Lemma unsettled_insert k g (p : gmap nat (list Msg)) :
  p !! k = None -> concat (snd <$> map_to_list (<[k := g]> p)) ≡ₚ concat (snd <$> map_to_list p) ++ g.
Proof. intros Hk. rewrite map_to_list_insert by done. simpl. apply Permutation_app_comm. Qed.

Lemma unsettled_delete k (p : gmap nat (list Msg)) :
  concat (snd <$> map_to_list p) ≡ₚ default [] (p !! k) ++ concat (snd <$> map_to_list (delete k p)).
Proof.
  destruct (p !! k) as [g|] eqn:Hk; simpl.
  - by rewrite <- (map_to_list_delete p k g Hk).
  - by rewrite delete_id.
Qed.

Lemma settleOK_init : settleOK (connInit : conn).
Proof. split; simpl; try done; try by intros [].
  - intros k. rewrite lookup_empty. by intros [].
Qed.

(** Steps that leave pending, the groups and the callbacks alone. *)
Lemma settleOK_frame c c' :
  settleOK c -> cleared c = false -> cleared c' = false ->
  pending c' = pending c -> wcnt c' = wcnt c -> groups c' = groups c -> acked c' = acked c ->
  nacked c' = nacked c ->
  writingDone c' = (match wr c' with WaitingCtx | WriterDone => true | _ => false end) ->
  (wr c' = WriterDone \/ rd c' = ReaderDone -> ctxDone c' = true) ->
  settleOK c'.
Proof.
  intros [H1 H2 H3 H4 H5 H6 H7 H8] Hc Hc' Ep Ew Eg Ea En Hw Hx.
  split; rewrite ?Ep, ?Ew, ?Eg, ?Ea, ?En, ?Hc'; try done.
  - unfold unsettled. by rewrite Ep.
  - by rewrite H4, Hc.
Qed.

(** An acknowledgement settles the contact it names. *)
Lemma settleOK_ack k c c' :
  settleOK c -> cleared c = false -> cleared c' = false ->
  pending c' = delete k (pending c) -> acked c' = acked c ++ default [] (pending c !! k) ->
  wcnt c' = wcnt c -> groups c' = groups c -> nacked c' = nacked c ->
  wr c' = wr c -> writingDone c' = writingDone c ->
  (wr c' = WriterDone \/ rd c' = ReaderDone -> ctxDone c' = true) ->
  settleOK c'.
Proof.
  intros [H1 H2 H3 H4 H5 H6 H7 H8] Hc Hc' Ep Ea Ew Eg En Er Ed Hx.
  split; rewrite ?Ew, ?Eg, ?En, ?Hc', ?Er, ?Ed; try done.
  - intros j Hj. apply H2. rewrite Ep, lookup_delete_is_Some in Hj. apply Hj.
  - rewrite Ea, H3, <- app_assoc. apply Permutation_app_head. unfold unsettled. rewrite Ep.
    apply unsettled_delete.
  - by rewrite H4, Hc.
  - by rewrite <- Er.
Qed.

Lemma handleRecord_OK cd c : settleOK c -> cleared c = false -> settleOK (handleRecord cd c).
Proof.
  intros Hok Hc. pose proof (so_ctx _ Hok) as H7. pose proof (so_writing _ Hok). unfold handleRecord.
  destruct (decide (AckIndex cd = 0)).
  { apply (settleOK_frame c); try done. simpl. intros [H'|H']; [auto|done]. }
  case_decide; destruct (_ && _); (apply (settleOK_ack (rcnt c) c); try done; simpl; intros [H'|H']; auto; done).
Qed.

Lemma leaveWriter_OK b c :
  settleOK c -> cleared c = false -> writingDone c = b ->
  settleOK (leaveWriter b c) /\ panicked (leaveWriter b c) = panicked c.
Proof.
  intros Hok Hc <-. unfold leaveWriter, closeWritingDone. destruct (writingDone c) eqn:Hw; simpl;
    rewrite ?Hw; (split; [by apply (settleOK_frame c)|done]).
Qed.

(** A step of the writer that does not leave its loop. *)
Lemma settleOK_writer c s w :
  settleOK c -> cleared c = false -> s <> WriterDone ->
  writingDone c = (match s with WaitingCtx | WriterDone => true | _ => false end) ->
  settleOK (c <| written := w |> <| wr := s |>).
Proof.
  intros Hok Hc Hn Hw. apply (settleOK_frame c); try done.
  simpl. intros [|H]; [done|]. apply (so_ctx _ Hok). by right.
Qed.

Lemma leaveReader_OK c : settleOK c -> cleared c = false -> settleOK (leaveReader c).
Proof. intros Hok Hc. apply (settleOK_frame c); try done. apply Hok. Qed.

Lemma newGroup_OK c g p :
  settleOK c -> cleared c = false -> writingDone c = false -> length g <= sendCountThreshold ->
  (p = <[wcnt c := g]> (pending c) \/ p = pending c /\ g = []) ->
  settleOK (c <| pending := p |> <| wcnt := S (wcnt c) |> <| groups := groups c ++ [g] |> <| wr := Grouped g |>).
Proof.
  intros [H1 H2 H3 H4 H5 H6 H7 H8] Hc Hw Hg Hp.
  assert (Hk : pending c !! wcnt c = None).
  { destruct (pending c !! wcnt c) eqn:Hk; [|done]. assert (wcnt c < wcnt c) by (apply H2; by eexists). lia. }
  split; simpl; rewrite ?length_app, ?Hc in *; simpl; try done; try lia.
  - intros k Hk'. destruct Hp as [->|[-> _]]; [|apply H2 in Hk'; lia].
    destruct (decide (k = wcnt c)) as [->|Hne]; [lia|].
    rewrite lookup_insert_ne in Hk' by done. apply H2 in Hk'. lia.
  - unfold unsettled in *. simpl. rewrite concat_app, H3. simpl. rewrite app_nil_r, <- app_assoc.
    apply Permutation_app_head. destruct Hp as [->|[-> ->]]; [by rewrite unsettled_insert|by rewrite app_nil_r].
  - intros [|H']; [done|]. auto.
  - apply Forall_app. split; [done|]. by apply Forall_singleton.
Qed.

Lemma writeLoopStep_OK c e c' :
  settleOK c -> writeLoopStep protoSize c e = Some c' ->
  settleOK c' /\ panicked c' = panicked c.
Proof.
  intros Hok E. assert (Hc : cleared c = false).
  { destruct (cleared c) eqn:Hc; [|done]. destruct (so_cleared _ Hok Hc) as [Hw _].
    unfold writeLoopStep in E. rewrite Hw in E. by destruct e. }
  pose proof (so_writing _ Hok) as Hwd. unfold writeLoopStep in E.
  destruct e as [ns first es| | | |b|]; destruct (wr c) as [|g|g| |] eqn:Hw; try done.
  - destruct (groupMessages _ _ _ _) as [[o fin]|] eqn:Hg; [|done]. simpl in E. destruct fin.
    + assert (H : (if ctxDone c then Some (leaveWriter false c)
        else Some ((closeWritingDone c) <| wr := WaitingCtx |>)) = Some c')
        by (by destruct o, (match first with CaseServerDone => _ | _ => _ end)).
      clear E. destruct (ctxDone c) eqn:Hx; injection H as <-; [by apply leaveWriter_OK|].
      unfold closeWritingDone. rewrite Hwd.
      split; [|done]. apply (settleOK_frame c); try done.
      simpl. intros [|H']; [done|]. apply (so_ctx _ Hok). by right.
    + destruct o as [g|]; injection E as <-; (split; [|done]).
      * apply newGroup_OK; auto. by eapply groupMessages_length.
      * apply (newGroup_OK c [] (pending c)); auto. simpl. lia.
  - destruct (ctxDone c); injection E as <-; [by apply leaveWriter_OK|split; [|done]].
    by apply (settleOK_writer c _ (written c)).
  - injection E as <-. by apply leaveWriter_OK.
  - injection E as <-. split; [|done]. by apply settleOK_writer.
  - injection E as <-. assert (H : settleOK (if b then c <| written := written c ++ [g] |> else c)).
    { destruct b; [|done]. apply (settleOK_frame c); try done; simpl; rewrite ?Hw; [done|].
      intros [|H]; [done|]. apply (so_ctx _ Hok). by right. }
    destruct b; by apply (leaveWriter_OK false) in H.
  - destruct (ctxDone c); [|done]. injection E as <-. by apply leaveWriter_OK.
Qed.

Lemma readLoopStep_OK c e c' :
  settleOK c -> readLoopStep c e = Some c' ->
  settleOK c' /\ (panicked c' = panicked c \/ exists cd, e = ReadRecord cd /\ DoneSending cd = true /\ serverDone c = true).
Proof.
  intros Hok E. assert (Hc : cleared c = false).
  { destruct (cleared c) eqn:Hc; [|done]. destruct (so_cleared _ Hok Hc) as [_ Hw].
    unfold readLoopStep in E. rewrite Hw in E. by destruct e. }
  pose proof (so_ctx _ Hok) as Hx. pose proof (so_writing _ Hok) as Hw. unfold readLoopStep in E.
  assert (Hh : forall cd c, panicked (handleRecord cd c) = panicked c).
  { intros cd d. unfold handleRecord. repeat case_match; done. }
  destruct e as [cd| | |]; destruct (rd c) as [|cd'|] eqn:Hr; try done.
  - injection E as <-. destruct (DoneSending cd) eqn:Hd.
    + unfold closeServerDone. destruct (serverDone c) eqn:Hs; (split; [|eauto; right; eauto]);
        apply (settleOK_frame c); try done; intros [H|H]; simpl in *; auto; done.
    + split; [by apply handleRecord_OK|]. left. apply Hh.
  - injection E as <-. split; [by apply leaveReader_OK|by left].
  - destruct (ctxDone c); [|done]. injection E as <-. split; [by apply leaveReader_OK|by left].
  - destruct (writingDone c) eqn:Hwd; [|done]. injection E as <-.
    assert (H : settleOK (c <| rWritingDone := true |>)).
    { apply (settleOK_frame c); try done; simpl; [by rewrite Hwd|by rewrite Hr]. }
    split; [|left; case_decide; [done|by rewrite Hh]].
    case_decide; [by apply leaveReader_OK|by apply handleRecord_OK].
Qed.

Lemma connStep_OK c e c' :
  settleOK c -> connStep protoSize c e = Some c' -> settleOK c'.
Proof.
  intros Hok E. unfold connStep in E. destruct (panicked c); [done|]. destruct e as [e|e|e].
  - by eapply writeLoopStep_OK.
  - by eapply readLoopStep_OK.
  - assert (Hfl : forall f b, settleOK (c <| pendingEmpty := b |> <| fl := f |>)).
    { intros f b. destruct Hok. by split. }
    destruct e; simpl in E; unfold flushStep, clearStep in E;
      repeat case_match; simplify_eq/=; try (by apply (Hfl _ (pendingEmpty c))); try (by apply Hfl).
    + destruct Hok. by split.
    + destruct Hok as [? ? ? Hn]. split; simpl; try done.
      rewrite Hn. by match goal with H : cleared c = false |- _ => rewrite H end.
Qed.

Lemma settleOK_reachable c : connReachable protoSize c -> settleOK c.
Proof.
  unfold connReachable. intros H. assert (H0 : settleOK (connInit : conn)) by apply settleOK_init.
  induction H as [|c1 c2 c3 [e He] _ IH]; [done|]. apply IH. by eapply connStep_OK.
Qed.

(** *** The bounds of a group *)
Lemma sizeThreshold_bounds ns :
  (0 < minSendBytesThreshold <= sizeThreshold ns)%Z /\
  (sizeThreshold ns <= sendBytesThreshold / 2 < 2 ^ 23)%Z.
Proof.
  assert (H : (0 < minSendBytesThreshold /\ minSendBytesThreshold <= sendBytesThreshold / 2 < 2 ^ 23)%Z) by by vm_compute.
  unfold sizeThreshold. destruct ns as [n|]; [|lia].
  repeat case_match; rewrite ?Z.ltb_lt, ?Z.ltb_ge in *; lia.
Qed.

Lemma gather_bytes maxMsg ns sz r es g :
  (forall m, 0 <= protoSize m <= maxMsg)%Z -> (maxMsg < 2 ^ 31)%Z ->
  (sz = 2 + bytes protoSize r)%Z -> (sz < sizeThreshold ns + maxMsg + 2)%Z ->
  gather protoSize ns sz r es = Some g -> (2 + bytes protoSize g < sizeThreshold ns + maxMsg + 2)%Z.
Proof.
  intros Hm Hmax. revert sz r. induction es as [|[|m] es IH]; intros sz r Hsz Hlt; simpl;
    destruct (_ || _) eqn:Hf; try done; intros E; try (injection E as <-; lia).
  apply orb_false_iff in Hf as [Hs%Z.leb_gt _]. pose proof (Hm m).
  pose proof (sizeThreshold_bounds ns) as Hns.
  assert (Hr : (0 <= bytes protoSize r)%Z).
  { apply sumZ_nonneg, Forall_fmap, Forall_forall. intros x _. apply Hm. }
  apply (IH (sz + protoSize m)%Z (r ++ [m])); unfold bytes in *.
  - rewrite fmap_app, sumZ_app. simpl. lia.
  - lia.
  - rewrite wrapI64_small in E; [done|]. lia.
Qed.

(** Every group takes what is next in the outbox, at most 100 messages, and
    stops at the first that makes it reach the threshold, which adapts to the
    speed of the connection between 256 KiB and 7.5 MiB. *)
Lemma group_bounds maxMsg ns first es g :
  (forall m, 0 <= protoSize m <= maxMsg)%Z -> (maxMsg < 2 ^ 31)%Z ->
  groupMessages protoSize ns first es = Some (Some g, false) ->
  1 <= length g <= sendCountThreshold /\ g `prefix_of` offered first es /\
  (bytes protoSize g < sizeThreshold ns + maxMsg)%Z /\
  (minSendBytesThreshold <= sizeThreshold ns <= sendBytesThreshold / 2)%Z.
Proof.
  intros Hm Hmax. pose proof (sizeThreshold_bounds ns) as Hns.
  destruct first as [| | |m]; simpl; try done. destruct (gather _ _ _ _ _) as [g'|] eqn:Hg; [|done].
  intros [= ->]. pose proof (Hm m). rewrite wrapI64_small in Hg by lia.
  pose proof (gather_bytes maxMsg ns (2 + protoSize m)%Z [m] es g Hm Hmax ltac:(unfold bytes; simpl; lia) ltac:(lia) Hg).
  apply gather_spec in Hg as (Hl & rest & -> & Hp); [|simpl; apply sendCountThreshold_pos].
  rewrite length_app in *. simpl in *. repeat split; try lia. by apply prefix_cons.
Qed.

(** *** The end of a connection *)
Lemma connRun_app c es c1 es' : connRun protoSize c es = Some c1 ->
  connRun protoSize c (es ++ es') = connRun protoSize c1 es'.
Proof.
  revert c. induction es as [|e es IH]; simpl; intros c E; [by injection E as ->|].
  destruct (connStep protoSize c e); [|done]. by apply IH.
Qed.

Lemma connRun_rtc c es c' : connRun protoSize c es = Some c' -> rtc (connMoves protoSize) c c'.
Proof.
  revert c. induction es as [|e es IH]; simpl; intros c E; [injection E as ->; apply rtc_refl|].
  destruct (connStep protoSize c e) as [c1|] eqn:He; [|done]. eapply rtc_l; [by exists e|by apply IH].
Qed.

Lemma writer_ends c : settleOK c -> panicked c = false -> ctxDone c = true ->
  exists es c', connRun protoSize c es = Some c' /\ length es <= 1 /\ wr c' = WriterDone /\
    rd c' = rd c /\ cleared c' = cleared c /\ panicked c' = false /\ ctxDone c' = true.
Proof.
  intros Hok Hp Hx. pose proof (so_writing _ Hok) as Hw.
  assert (Hone : forall e, writeLoopStep protoSize c e = Some (leaveWriter (writingDone c) c) ->
    exists es c', connRun protoSize c es = Some c' /\ length es <= 1 /\ wr c' = WriterDone /\
      rd c' = rd c /\ cleared c' = cleared c /\ panicked c' = false /\ ctxDone c' = true).
  { intros e He. exists [OfWriter e], (leaveWriter (writingDone c) c). simpl. unfold connStep.
    rewrite Hp, He. split; [done|]. unfold leaveWriter, closeWritingDone.
    destruct (writingDone c) eqn:Hd; simpl; rewrite ?Hd; simpl; repeat split; auto. }
  destruct (wr c) as [|g|g| |] eqn:Hwr; rewrite ?Hw in Hone.
  - apply (Hone (Group None CaseCtxDone [])). unfold writeLoopStep. rewrite Hwr. simpl. by rewrite Hx.
  - apply (Hone Prepare). unfold writeLoopStep. by rewrite Hwr, Hx.
  - apply (Hone PrepareFails). unfold writeLoopStep. by rewrite Hwr.
  - apply (Hone CtxEnds). unfold writeLoopStep. by rewrite Hwr, Hx.
  - exists [], c. simpl. repeat split; (done || lia).
Qed.

Lemma reader_ends c : panicked c = false -> ctxDone c = true ->
  exists es c', connRun protoSize c es = Some c' /\ length es <= 1 /\ rd c' = ReaderDone /\
    wr c' = wr c /\ cleared c' = cleared c /\ panicked c' = false.
Proof.
  intros Hp Hx. destruct (rd c) as [|cd|] eqn:Hr.
  - exists [OfReader ReadFails], (leaveReader c). simpl. unfold connStep. rewrite Hp. simpl. rewrite Hr.
    repeat split; (done || lia).
  - exists [OfReader SeesCtx], (leaveReader c). simpl. unfold connStep. rewrite Hp. simpl. rewrite Hr, Hx.
    repeat split; (done || lia).
  - exists [], c. repeat split; try done; simpl; lia.
Qed.

Lemma connection_clears c : settleOK c -> panicked c = false -> ctxDone c = true -> cleared c = false ->
  exists es c', connRun protoSize c es = Some c' /\ length es <= 3 /\ cleared c' = true.
Proof.
  intros Hok Hp Hx Hc.
  destruct (writer_ends c Hok Hp Hx) as (es1 & c1 & E1 & L1 & W1 & R1 & C1 & P1 & X1).
  destruct (reader_ends c1 P1 X1) as (es2 & c2 & E2 & L2 & R2 & W2 & C2 & P2).
  exists (es1 ++ es2 ++ [Other Clear]). eexists. split; [|rewrite !length_app; simpl; split; [lia|]].
  - rewrite (connRun_app _ _ _ _ E1), (connRun_app _ _ _ _ E2). simpl. unfold connStep, clearStep.
    rewrite P2, W2, W1, R2, C2, C1, Hc. reflexivity.
  - done.
Qed.

Lemma cleared_step c e c' : settleOK c -> cleared c = true -> connStep protoSize c e = Some c' ->
  cleared c' = true /\ groups c' = groups c /\ acked c' = acked c /\ nacked c' = nacked c.
Proof.
  intros Hok Hc E. destruct (so_cleared _ Hok Hc) as [Hw Hr]. unfold connStep in E.
  destruct (panicked c); [done|]. destruct e as [e|e|e].
  - unfold writeLoopStep in E. rewrite Hw in E. by destruct e.
  - unfold readLoopStep in E. rewrite Hr in E. by destruct e.
  - destruct e; simpl in E; unfold flushStep, clearStep in E; rewrite ?Hc, ?Hw, ?Hr, ?orb_true_r in E;
      repeat case_match; by simplify_eq/=.
Qed.

End Settling.

(** ** The initial exchange

    [connect] groups messages with a rate of 0, sends them with the request and
    reads one record.  What its calls return is in the record [exchange]. *)
Section Connect.
Context {Msg In : Type}.

Inductive doResult := DoCanceled | DoFails | DoStatus (code : Z).

Record exchange := mkExchange {
  xCtxErr : bool;                    (* ctx has ended before the request is made *)
  xPrepared : bool;                  (* MakeContactData, Marshal, NewRequest *)
  xDo : doResult;                    (* hc.Do and the goroutine that watches ctx *)
  xAnswer : outcome (cdata In);      (* readContact *)
  xProcessed : bool;                 (* ProcessContactData *)
}.

(** The connection or an error, the messages acknowledged, the ones nacked. *)
Definition connect (toSend : list Msg) (x : exchange) :
    outcome (connection (Msg := Msg) (In := In)) * list Msg * list Msg :=
  if xCtxErr x then (Err (ErrText "context"), [], toSend)
  else if negb (xPrepared x) then (Err (ErrText "request"), [], toSend)
  else match xDo x with
       | DoCanceled => (Err (ErrText "context"), [], toSend)
       | DoFails => (Err (ErrText "Do"), [], toSend)
       | DoStatus code =>
           if negb (code =? 200)%Z then (Err (ErrText "failed with status"), [], toSend)
           else match xAnswer x with
                | Ok cd =>
                    if xProcessed x then (Ok connInit, toSend, [])
                    else (Err (ErrText "process"), [], toSend)
                | Err e => (Err e, [], toSend)
                | Crash w => (Crash w, [], toSend)
                end
       end.

Lemma connect_settles toSend x r acks nacks :
  connect toSend x = (r, acks, nacks) ->
  (isOk r = true /\ acks = toSend /\ nacks = []) \/ (isOk r = false /\ acks = [] /\ nacks = toSend).
Proof. unfold connect. intros E. repeat case_match; simplify_eq; auto. Qed.
End Connect.

(** ** Examples

    A token stays in pendingEmpty when the last acknowledgement finds nobody
    flushing.  The next Flush takes it and returns, although its message has
    not been acknowledged. *)
Definition staleFlush : list (connEvent (Msg := nat) (In := nat)) :=
  [OfWriter (Group None (CaseMessage 1) [CaseTimeout]); OfWriter Prepare; OfWriter Write;
   OfReader (ReadRecord (mkCData 1 [] false));
   OfWriter (Group None (CaseMessage 2) [CaseTimeout]); OfWriter Prepare; OfWriter Write;
   Other StartFlush; Other FlushToken].

Example flush_returns_early :
  exists c, connRun (fun _ => 8%Z) connInit staleFlush = Some c /\
    fl c = FlushReturned true /\ acked c = [1] /\ pending c = {[2 := [2]]}.
Proof. eexists. split; [vm_compute; reflexivity|]. split; [done|]. split; [done|]. by vm_compute. Qed.

Definition lostConnection : list (connEvent (Msg := nat) (In := nat)) :=
  [OfWriter (Group None (CaseMessage 1) [CaseMore 2; CaseTimeout]); OfWriter Prepare; OfWriter Write;
   OfWriter (Group None (CaseMessage 3) [CaseTimeout]); OfWriter Prepare;
   OfReader (ReadRecord (mkCData 1 [] false)); OfReader ReadFails].

