(* ===== verification/StreamServer.v ===== *)
(** * The server's end of a streaming connection

    The streamManager of src/server/https/streaming_message_server.go: readLoop
    and the goroutines it starts for each contact, notifyLoop, writeLoop, the
    channel [out] between them and the WaitGroup that decides when [out] is
    closed.  Each goroutine is a state machine at the grain of its channel
    operations and of the calls of comms.Context, whose results are in the
    events.  A contact is numbered by its place in the stream, which the code
    does not see. *)
From S2P Require Import Prelude StreamClient.

(** Capacity of [out]; readLoop's [batchCh] has Params.MaxPerClientBatchProcessors. *)
Definition outCapacity : nat := 5.

Section Manager.
Context {C In : Type} (maxBatch : nat).

Inductive sreader := SReading | SHave (c : C) | SReaderDone.

(** notifyLoop: choosing how long to wait, the second of patience after a
    notification, GetMessagesForClient, and the sends on [out]. *)
Inductive notifier :=
| NWaiting
| NSettling
| NGetting
| NSending (cd : cdata In) (last : bool)
| NDone.

Record manager := mkManager {
  (** m.ctx.Err() is not nil. *)
  mctx : bool;
  srd : sreader;
  cnt : nat;
  (** With its place in the stream, the first of which is 1. *)
  batchCh : list (nat * C);
  (** Goroutines that have not received from batchCh, by their curCnt. *)
  spawned : list nat;
  (** Goroutines in processOne: curCnt and the contact they hold. *)
  working : list (nat * (nat * C));
  (** Goroutines that send their acknowledgement. *)
  acking : list nat;
  nt : notifier;
  errCnt : nat;
  moreMsgs : bool;
  localNotice : bool;
  out : list (cdata In);
  outClosed : bool;
  swriting : bool;
  (** The WaitGroup [reading]. *)
  reading : nat;
  spanicked : bool;
  (** History: contacts read, processed, and refused; the acknowledgements and
      the marks of the end put in [out]. *)
  got : list C;
  handled : list (nat * C);
  failed : list (nat * C);
}.

Definition managerInit (more : bool) : manager :=
  mkManager false SReading 0 [] [] [] [] NWaiting 0 more false [] false true 2 false [] [] [].

#[export] Instance manager_eta : Eta manager := fun m =>
  mkManager (mctx m) (srd m) (cnt m) (batchCh m) (spawned m) (working m) (acking m) (nt m) (errCnt m)
    (moreMsgs m) (localNotice m) (out m) (outClosed m) (swriting m) (reading m) (spanicked m) (got m)
    (handled m) (failed m).

(** [m.out <- cd]: waits for room, panics on a closed channel. *)
Definition sendOut (cd : cdata In) (m : manager) : option manager :=
  if outClosed m then Some (m <| spanicked := true |>)
  else if decide (length (out m) < outCapacity) then Some (m <| out := out m ++ [cd] |>) else None.

(** [m.reading.Done()]: panics below zero. *)
Definition doneReading (m : manager) : manager :=
  match reading m with
  | O => m <| spanicked := true |>
  | S n => m <| reading := n |>
  end.

(** ** readLoop and the goroutines of its contacts *)
Inductive sreadEvent :=
| SRead (c : C)           (* readOne succeeds *)
| SReadFails              (* readOne fails, be it for the context *)
| SSpawn                  (* batchCh <- wcd, reading.Add(1), go *)
| STake (i : nat)         (* goroutine i: <-batchCh *)
| SProcessed (i : nat) (before after : option (gmap string Z))  (* processOne returns nil *)
| SRefused (i : nat)      (* processOne returns an error *)
| SAck (i : nat).         (* m.out <- AckIndex *)

(** processOne: a service that had no tokens has some now. *)
Definition unblocks (before after : option (gmap string Z)) : bool :=
  let blocked := filter (fun kv => kv.2 = 0%Z) (map_to_list (default ∅ before)) in
  existsb (fun k => (0 <? default 0 (default ∅ after !! k))%Z) (fst <$> blocked).

(** The first of the goroutines [i] in a list. *)
Fixpoint pick {A} (i : nat) (l : list (nat * A)) : option (A * list (nat * A)) :=
  match l with
  | [] => None
  | (j, a) :: l' =>
      if decide (i = j) then Some (a, l')
      else match pick i l' with Some (b, k) => Some (b, (j, a) :: k) | None => None end
  end.

Definition readerStep (m : manager) (e : sreadEvent) : option manager :=
  match e with
  | SRead c =>
      match srd m with
      | SReading => Some (m <| srd := SHave c |> <| cnt := S (cnt m) |> <| got := got m ++ [c] |>)
      | _ => None
      end
  | SReadFails =>
      match srd m with
      | SReading => Some ((doneReading m) <| srd := SReaderDone |> <| mctx := true |>)
      | _ => None
      end
  | SSpawn =>
      match srd m with
      | SHave c =>
          if decide (length (batchCh m) < maxBatch) then
            Some (m <| batchCh := batchCh m ++ [(cnt m, c)] |> <| reading := S (reading m) |>
                    <| spawned := spawned m ++ [cnt m] |> <| srd := SReading |>)
          else None
      | _ => None
      end
  | STake i =>
      match takeOut i (spawned m), batchCh m with
      | Some rest, c :: cs =>
          Some (m <| spawned := rest |> <| batchCh := cs |> <| working := working m ++ [(i, c)] |>)
      | _, _ => None
      end
  | SProcessed i before after =>
      match pick i (working m) with
      | Some (c, rest) =>
          Some (m <| working := rest |> <| acking := acking m ++ [i] |> <| handled := handled m ++ [c] |>
                  <| localNotice := localNotice m || unblocks before after |>)
      | None => None
      end
  | SRefused i =>
      match pick i (working m) with
      | Some (c, rest) => Some ((doneReading m) <| working := rest |> <| failed := failed m ++ [c] |>)
      | None => None
      end
  | SAck i =>
      match takeOut i (acking m) with
      | Some rest => m ← sendOut (mkCData i [] false) m; Some ((doneReading m) <| acking := rest |>)
      | None => None
      end
  end.

(** ** notifyLoop

    [deadlined] is whether the deadline less closeTime has passed; the timers
    and the context are the events. *)
Inductive notifyEvent :=
| NBackoffOver                  (* errCnt > 0: the delay is over *)
| NStop                         (* the stop timer, or the test of the deadline *)
| NMore                         (* moreMsgs: go on at once *)
| NNotice                       (* a notification *)
| NLocalNotice                  (* a local notice *)
| NNoticesClosed                (* m.info.Notices is closed *)
| NSettled                      (* the second is over, or Notices is closed *)
| NCtx                          (* the context is done *)
| NGot (msgs : option (list In)) (more : bool)  (* GetMessagesForClient returns no error *)
| NGotError (msgs : option (list In)) (more : bool) (isCtx : bool)
| NSend.                        (* m.out <- cd *)

Definition leaveNotifier (m : manager) : manager := (doneReading m) <| nt := NDone |>.

Definition afterGet (msgs : option (list In)) (m : manager) : manager :=
  m <| nt := match msgs with
             | Some msgs => NSending (mkCData 0 msgs false) false
             | None => NWaiting
             end |>.

Definition notifyLoopStep (m : manager) (e : notifyEvent) : option manager :=
  match nt m, e with
  | NWaiting, NStop => Some (m <| nt := NSending (mkCData 0 [] true) true |>)
  | NWaiting, NCtx => if mctx m then Some (leaveNotifier m) else None
  | NWaiting, NBackoffOver => if decide (0 < errCnt m) then Some (m <| nt := NGetting |>) else None
  | NWaiting, NMore =>
      if decide (errCnt m = 0) then
        if moreMsgs m && negb (mctx m) then Some (m <| nt := NGetting |>) else None
      else None
  | NWaiting, NNotice =>
      if decide (errCnt m = 0) then
        if moreMsgs m then None else Some (m <| nt := NSettling |>)
      else None
  | NWaiting, NLocalNotice =>
      if decide (errCnt m = 0) then
        if moreMsgs m || negb (localNotice m) then None
        else Some (m <| localNotice := false |> <| nt := NSettling |>)
      else None
  | NWaiting, NNoticesClosed =>
      if decide (errCnt m = 0) then
        if moreMsgs m then None else Some (leaveNotifier m)
      else None
  | NSettling, NNotice => Some m
  | NSettling, NSettled => Some (m <| nt := NGetting |>)
  | NSettling, NCtx => if mctx m then Some (leaveNotifier m) else None
  | NGetting, NGot msgs more => Some (afterGet msgs (m <| moreMsgs := more |> <| errCnt := 0 |>))
  | NGetting, NGotError msgs more isCtx =>
      if isCtx then if mctx m then Some (leaveNotifier (m <| moreMsgs := more |>)) else None
      else Some (afterGet msgs (m <| moreMsgs := more |> <| errCnt := S (errCnt m) |>))
  | NSending cd last, NSend =>
      m ← sendOut cd m;
      Some (if last then leaveNotifier m else m <| nt := NWaiting |>)
  | _, _ => None
  end.

(** ** writeLoop, and the shutdown of ServeHTTP *)
Inductive swriteEvent :=
| SWrite                  (* writeOne succeeds *)
| SWriteFails             (* writeOne fails *)
| SWriterStops            (* the context is done, or [out] is closed and empty *)
| SDiscard                (* the deferred [for range m.out] *)
| SCancel                 (* the life time is over, or the server stops *)
| SClose.                 (* reading.Wait(); close(m.out) *)

(** What goes on the wire, and the manager after the step. *)
Definition writeStep (m : manager) (e : swriteEvent) : option (list (cdata In) * manager) :=
  match e, out m with
  | SWrite, cd :: rest => if swriting m then Some ([cd], m <| out := rest |>) else None
  | SWriteFails, _ :: rest =>
      if swriting m then
        let m := if mctx m then m <| mctx := true |> else m in
        Some ([], m <| out := rest |> <| swriting := false |>)
      else None
  | SWriterStops, rest =>
      if swriting m && (mctx m || outClosed m && bool_decide (length rest = 0)) then
        Some ([], m <| swriting := false |>)
      else None
  | SDiscard, _ :: rest => if swriting m then None else Some ([], m <| out := rest |>)
  | SCancel, _ => Some ([], m <| mctx := true |>)
  | SClose, _ =>
      if mctx m && bool_decide (reading m = 0) && negb (outClosed m) then
        Some ([], m <| outClosed := true |>)
      else None
  | _, _ => None
  end.

Inductive managerEvent :=
| OfReaders (e : sreadEvent)
| OfNotifier (e : notifyEvent)
| OfSWriter (e : swriteEvent).

Definition managerStep (m : manager) (e : managerEvent) : option (list (cdata In) * manager) :=
  if spanicked m then None
  else match e with
       | OfReaders e => m ← readerStep m e; Some ([], m)
       | OfNotifier e => m ← notifyLoopStep m e; Some ([], m)
       | OfSWriter e => writeStep m e
       end.
End Manager.

(** ** What always holds *)
Section ManagerOK.
Context {C In : Type} (maxBatch : nat).
Abbreviation mgr := (manager (C := C) (In := In)).
Implicit Types m : mgr.

Lemma pick_perm {A} i (l : list (nat * A)) a k : pick i l = Some (a, k) -> l ≡ₚ (i, a) :: k.
Proof.
  revert k. induction l as [|[j b] l IH]; intros k; simpl; [done|]. case_decide as Hi.
  - intros [= -> ->]. by subst.
  - destruct (pick i l) as [[b' k']|]; [|done]. intros [= -> <-]. rewrite (IH k' eq_refl). apply perm_swap.
Qed.

Definition inHand m : list (nat * C) := match srd m with SHave c => [(cnt m, c)] | _ => [] end.

(** Contacts that were read and are neither handled nor refused. *)
Definition inWork m : list (nat * C) := (snd <$> working m) ++ batchCh m ++ inHand m.

(** Goroutines that have not called reading.Done. *)
Definition busy m : nat :=
  (match srd m with SReaderDone => 0 | _ => 1 end) + (match nt m with NDone => 0 | _ => 1 end) +
  length (spawned m) + length (working m) + length (acking m).

Record managerOK m : Prop := {
  mo_panicked : spanicked m = false;
  mo_reading : reading m = busy m;
  mo_closed : outClosed m = true -> reading m = 0;
  mo_spawned : length (batchCh m) = length (spawned m);
  mo_cnt : cnt m = length (got m);
  mo_contacts : zip (seq 1 (length (got m))) (got m) ≡ₚ handled m ++ failed m ++ inWork m;
  mo_sending cd last : nt m = NSending cd last ->
    AckIndex cd = 0 /\ DoneSending cd = last;
}.

Lemma managerOK_init more : managerOK (managerInit more).
Proof. by split. Qed.

Lemma zip_seq_snoc (l : list C) c :
  zip (seq 1 (length (l ++ [c]))) (l ++ [c]) = zip (seq 1 (length l)) l ++ [(S (length l), c)].
Proof.
  rewrite length_app. simpl. rewrite Nat.add_1_r, seq_S, zip_with_app by by rewrite length_seq. done.
Qed.

Lemma sendOut_OK cd m m1 :
  managerOK m -> 0 < reading m -> sendOut cd m = Some m1 -> m1 = m <| out := out m ++ [cd] |>.
Proof.
  intros Hok Hr E. unfold sendOut in E. destruct (outClosed m) eqn:Hc.
  - apply (mo_closed _ Hok) in Hc. lia.
  - case_decide; by simplify_eq.
Qed.

Lemma doneReading_pos m : 0 < reading m -> doneReading m = m <| reading := reading m - 1 |>.
Proof. unfold doneReading. destruct (reading m); simpl; [lia|]. by rewrite Nat.sub_0_r. Qed.

(** The parts of the invariant that count. *)
Ltac counting H3 :=
  split; simpl in *; try done; try (let Hc := fresh in intros Hc; apply H3 in Hc; lia);
  try (unfold busy; simpl; rewrite ?length_app; simpl; lia); rewrite ?length_app; simpl; try lia.

Lemma readerStep_OK m e m' : managerOK m -> readerStep maxBatch m e = Some m' -> managerOK m'.
Proof.
  intros Hok E. pose proof Hok as [H1 H2 H3 H4 H5 H6 H7]. unfold busy, inWork, inHand in *.
  destruct e as [c| | |i|i b a|i|i]; simpl in E.
  - destruct (srd m) eqn:Hs; try done. injection E as <-. counting H3.
    unfold inWork, inHand. simpl. replace (length (got m) + 1) with (length (got m ++ [c])) by (rewrite length_app; simpl; lia).
    rewrite zip_seq_snoc, H6, H5. simpl. rewrite !app_nil_r. by rewrite <- !app_assoc.
  - destruct (srd m) eqn:Hs; try done. injection E as <-. rewrite doneReading_pos by (simpl in *; lia).
    counting H3.
  - destruct (srd m) as [|c|] eqn:Hs; try done. case_decide; [|done]. injection E as <-. counting H3.
    rewrite H6. unfold inWork, inHand. simpl. by rewrite app_nil_r.
  - destruct (takeOut i (spawned m)) as [rest|] eqn:Ht; [|done]. destruct (batchCh m) as [|c cs]; [done|].
    injection E as <-. apply takeOut_perm, Permutation_length in Ht. counting H3.
    rewrite H6. unfold inWork, inHand. simpl. by rewrite fmap_app, <- app_assoc.
  - destruct (pick i (working m)) as [[c rest]|] eqn:Hp; [|done]. injection E as <-.
    apply pick_perm in Hp. pose proof (Permutation_length Hp) as Hl. counting H3.
    rewrite H6. unfold inWork, inHand. simpl. rewrite Hp. simpl. rewrite <- app_assoc. simpl.
    apply Permutation_app_head. symmetry. apply Permutation_middle.
  - destruct (pick i (working m)) as [[c rest]|] eqn:Hp; [|done]. injection E as <-.
    apply pick_perm in Hp. pose proof (Permutation_length Hp) as Hl. simpl in Hl.
    rewrite doneReading_pos by lia. counting H3.
    rewrite H6. unfold inWork, inHand. simpl. rewrite Hp. simpl. by rewrite <- app_assoc.
  - destruct (takeOut i (acking m)) as [rest|] eqn:Ht; [|done].
    destruct (sendOut _ m) as [m1|] eqn:Ho; [|done]. injection E as <-.
    apply takeOut_perm, Permutation_length in Ht. simpl in Ht.
    apply sendOut_OK in Ho as ->; [|done|lia]. rewrite doneReading_pos by (simpl; lia). counting H3.
Qed.

Lemma leaveNotifier_OK m : managerOK m -> nt m <> NDone -> managerOK (leaveNotifier m).
Proof.
  intros [H1 H2 H3 H4 H5 H6 H7] Hn. unfold busy in *. unfold leaveNotifier.
  rewrite doneReading_pos by (destruct (nt m); [simpl in *; lia..|done]).
  destruct (nt m); [counting H3..|done].
Qed.

(** A step of notifyLoop that stays in it. *)
Lemma notifier_OK m s n b l o :
  managerOK m -> nt m <> NDone -> s <> NDone ->
  (forall cd last, s = NSending cd last -> AckIndex cd = 0 /\ DoneSending cd = last) ->
  managerOK (m <| localNotice := l |> <| out := o |> <| moreMsgs := b |> <| errCnt := n |> <| nt := s |>).
Proof.
  intros [H1 H2 H3 H4 H5 H6 H7] Hn Hs Hcd. split; simpl; try done. rewrite H2. unfold busy. simpl.
  by destruct (nt m), s.
Qed.

Lemma notifyLoopStep_OK m e m' : managerOK m -> notifyLoopStep m e = Some m' -> managerOK m'.
Proof.
  intros Hok E. unfold notifyLoopStep in E.
  assert (Hn : nt m <> NDone) by (intros Hn; by rewrite Hn in E).
  assert (Hr : 0 < reading m) by (rewrite (mo_reading _ Hok); unfold busy; destruct (nt m); [lia..|done]).
  assert (Hstay : forall s n b l o, s <> NDone ->
    (forall cd last, s = NSending cd last -> AckIndex cd = 0 /\ DoneSending cd = last) ->
    managerOK (m <| localNotice := l |> <| out := o |> <| moreMsgs := b |> <| errCnt := n |> <| nt := s |>)).
  { intros. by apply notifier_OK. }
  assert (Hw : forall s, s <> NDone -> (forall cd last, s = NSending cd last -> AckIndex cd = 0 /\ DoneSending cd = last) ->
    managerOK (m <| nt := s |>)).
  { intros s. apply (Hstay s (errCnt m) (moreMsgs m) (localNotice m) (out m)). }
  assert (Hl : forall b o, managerOK (leaveNotifier (m <| out := o |> <| moreMsgs := b |>))).
  { intros b o. apply leaveNotifier_OK; [|done].
    apply (Hstay (nt m) (errCnt m) b (localNotice m) o Hn). apply (mo_sending _ Hok). }
  destruct (nt m) as [| | |cd last|] eqn:Hnt; destruct e; try done; repeat case_match; simplify_eq/=; try done;
    try (apply Hw; [done|naive_solver]); try apply (Hl (moreMsgs m) (out m));
    try apply (Hl _ (out m)).
  - by apply (Hstay NSettling (errCnt m) (moreMsgs m) false (out m)).
  - destruct msgs; apply (Hstay _ 0 more (localNotice m) (out m)); naive_solver.
  - destruct msgs; apply (Hstay _ (S (errCnt m)) more (localNotice m) (out m)); naive_solver.
  - destruct (sendOut cd m) as [m1|] eqn:Ho; [|done]. apply sendOut_OK in Ho as ->; [|done..].
    injection E as <-. apply (Hl (moreMsgs m)).
  - destruct (sendOut cd m) as [m1|] eqn:Ho; [|done]. apply sendOut_OK in Ho as ->; [|done..].
    injection E as <-. by apply (Hstay NWaiting (errCnt m) (moreMsgs m) (localNotice m)).
Qed.

Lemma writeStep_OK m e o m' : managerOK m -> writeStep m e = Some (o, m') -> managerOK m'.
Proof.
  intros [H1 H2 H3 H4 H5 H6 H7] E. unfold writeStep in E.
  destruct e; repeat case_match; simplify_eq/=; try by split.
  split; try done. simpl. intros _. apply andb_true_iff in H as [[_ H]%andb_true_iff _].
  by apply bool_decide_eq_true_1 in H.
Qed.

Lemma managerStep_OK m e o m' : managerOK m -> managerStep maxBatch m e = Some (o, m') -> managerOK m'.
Proof.
  intros Hok E. unfold managerStep in E. destruct (spanicked m); [done|]. destruct e as [e|e|e].
  - destruct (readerStep maxBatch m e) eqn:He; [|done]. injection E as <- <-. by eapply readerStep_OK.
  - destruct (notifyLoopStep m e) eqn:He; [|done]. injection E as <- <-. by eapply notifyLoopStep_OK.
  - by eapply writeStep_OK.
Qed.
End ManagerOK.

(** ** Acknowledgements and the mark of the end *)
Section Records.
Context {C In : Type} (maxBatch : nat).
Abbreviation mgr := (manager (C := C) (In := In)).
Implicit Types m : mgr.

Definition isAck (cd : cdata In) : bool := negb (AckIndex cd =? 0).
Definition acks (l : list (cdata In)) : nat := length (List.filter isAck l).
Definition ends (l : list (cdata In)) : nat := length (List.filter DoneSending l).

Lemma acks_app l k : acks (l ++ k) = acks l + acks k.
Proof. unfold acks. by rewrite List.filter_app, length_app. Qed.
Lemma ends_app l k : ends (l ++ k) = ends l + ends k.
Proof. unfold ends. by rewrite List.filter_app, length_app. Qed.

(** A record is an acknowledgement, messages, or the end. *)
Definition plain (cd : cdata In) : Prop := DoneSending cd = true -> AckIndex cd = 0.

Record recordsOK m : Prop := {
  ro_goroutines : Forall (fun i => 0 < i) (spawned m ++ (fst <$> working m) ++ acking m);
  ro_have c : srd m = SHave c -> 0 < cnt m;
  ro_out : Forall plain (out m);
}.

Lemma recordsOK_init more : recordsOK (managerInit more).
Proof. split; simpl; [constructor|done|constructor]. Qed.

(** Acknowledgements the goroutines and writeLoop still have to send. *)
Definition owed m : nat := length (acking m) + acks (out m).

Lemma sendOut_records cd m m1 :
  managerOK m -> 0 < reading m -> sendOut cd m = Some m1 ->
  owed m1 = owed m + acks [cd] /\ ends (out m1) = ends (out m) + ends [cd].
Proof.
  intros Hok Hr E. apply sendOut_OK in E as ->; [|done..]. unfold owed. simpl.
  rewrite acks_app, ends_app. split; lia.
Qed.

Definition toEnd m : nat := match nt m with NDone => 0 | _ => 1 end.

(** What a step does to the records: it may add contacts that are handled, each
    of which owes one acknowledgement; no acknowledgement comes from elsewhere
    and, while writeLoop runs, none is lost; the end is marked at most once. *)
Record accounts m (o : list (cdata In)) m' (l : list (nat * C)) : Prop := {
  ac_records : recordsOK m';
  ac_plain : Forall plain o;
  ac_handled : handled m' = handled m ++ l;
  ac_owed : owed m' + acks o <= owed m + length l;
  ac_exact : swriting m' = true -> owed m' + acks o = owed m + length l /\ swriting m = true;
  ac_ends : ends (out m') + ends o + toEnd m' <= ends (out m) + toEnd m;
}.

(** Steps that touch none of it. *)
Lemma accounts_same m m' :
  recordsOK m -> spawned m' = spawned m -> working m' = working m -> acking m' = acking m ->
  out m' = out m -> handled m' = handled m -> swriting m' = swriting m -> toEnd m' <= toEnd m ->
  (forall c, srd m' = SHave c -> 0 < cnt m') -> accounts m [] m' [].
Proof.
  intros [H1 H2 H3] E1 E2 E3 E4 E5 E6 E7 E8. unfold owed.
  split; rewrite ?app_nil_r, ?E3, ?E4, ?E6; try done; unfold owed; rewrite ?E3, ?E4;
    change (acks []) with 0; change (ends []) with 0; simpl; try lia; try (intros; split; [lia|done]).
  split; rewrite ?E1, ?E2, ?E3, ?E4; done.
Qed.

Ltac account :=
  split; unfold owed, toEnd; simpl; rewrite ?app_nil_r, ?length_app, ?acks_app, ?ends_app;
  change (@nil (cdata In)) with ([] : list (cdata In)) in *;
  change (acks []) with 0; change (ends []) with 0; simpl; try done; try lia; try (intros; split; [lia|done]).

Lemma readerStep_accounts m e m' :
  managerOK m -> recordsOK m -> readerStep maxBatch m e = Some m' -> exists l, accounts m [] m' l.
Proof.
  intros Hok Hro E. pose proof Hro as [H1 H2 H3]. pose proof (mo_reading _ Hok) as Hr. unfold busy in Hr.
  destruct e as [c| | |i|i b a|i|i]; simpl in E.
  - destruct (srd m); try done. injection E as <-. exists []. apply accounts_same; try done. simpl. lia.
  - destruct (srd m) eqn:Hs; try done. injection E as <-. exists [].
    rewrite doneReading_pos by lia. by apply accounts_same.
  - destruct (srd m) as [|c|] eqn:Hs; try done. case_decide; [|done]. injection E as <-. exists [].
    account. split; simpl; try done.
    specialize (H2 _ eq_refl). rewrite Forall_forall in *. set_solver.
  - destruct (takeOut i (spawned m)) as [rest|] eqn:Ht; [|done]. destruct (batchCh m) as [|c cs]; [done|].
    injection E as <-. exists []. apply takeOut_perm in Ht.
    account. split; simpl; try done.
    rewrite Ht in H1. rewrite fmap_app. simpl. rewrite Forall_forall in *. set_solver.
  - destruct (pick i (working m)) as [[c rest]|] eqn:Hp; [|done]. injection E as <-. exists [c].
    apply pick_perm in Hp. unfold owed.
    account. split; simpl; try done.
    rewrite Hp in H1. simpl in H1. rewrite Forall_forall in *. set_solver.
  - destruct (pick i (working m)) as [[c rest]|] eqn:Hp; [|done]. injection E as <-. exists [].
    apply pick_perm in Hp. pose proof (Permutation_length Hp) as Hl. simpl in Hl. rewrite doneReading_pos by lia.
    account. split; simpl; try done.
    rewrite Hp in H1. simpl in H1. rewrite Forall_forall in *. set_solver.
  - destruct (takeOut i (acking m)) as [rest|] eqn:Ht; [|done].
    destruct (sendOut _ m) as [m1|] eqn:Ho; [|done]. injection E as <-. exists [].
    apply takeOut_perm in Ht. pose proof (Permutation_length Ht) as Hl. simpl in Hl.
    apply sendOut_OK in Ho as ->; [|done|lia]. rewrite doneReading_pos by (simpl; lia).
    rewrite Ht in H1. rewrite Forall_forall in H1.
    assert (Hi : 0 < i) by (apply H1; set_solver).
    assert (Ha : acks [mkCData (In := In) i [] false] = 1).
    { unfold acks, isAck. simpl. destruct (Nat.eqb_spec i 0); [lia|done]. }
    assert (He : ends [mkCData (In := In) i [] false] = 0) by done.
    account. split; simpl; try done.
    + rewrite Forall_forall. set_solver.
    + apply Forall_app. split; [done|]. by apply Forall_singleton.
Qed.

(** notifyLoop sends messages or, last of all, the mark of the end. *)
Lemma notifier_accounts m cd last m1 m' :
  managerOK m -> recordsOK m -> nt m = NSending cd last -> sendOut cd m = Some m1 ->
  m' = (if last then leaveNotifier m1 else m1 <| nt := NWaiting |>) -> accounts m [] m' [].
Proof.
  intros Hok [H1 H2 H3] Hn Ho ->. destruct (mo_sending _ Hok _ _ Hn) as [Ha Hd].
  assert (Hr : 0 < reading m) by (rewrite (mo_reading _ Hok); unfold busy; rewrite Hn; lia).
  apply sendOut_OK in Ho as ->; [|done..].
  assert (Hack : acks [cd] = 0) by (unfold acks, isAck; simpl; by rewrite Ha).
  assert (Hend : ends [cd] = if last then 1 else 0) by (unfold ends; simpl; by rewrite Hd; destruct last).
  destruct last; unfold leaveNotifier; rewrite ?doneReading_pos by (simpl; lia); account;
    try (rewrite Hn, Hend; lia); (split; simpl; [done..|]); apply Forall_app; (split; [done|]);
    apply Forall_singleton; intros _; done.
Qed.

Lemma notifyLoopStep_accounts m e m' :
  managerOK m -> recordsOK m -> notifyLoopStep m e = Some m' -> accounts m [] m' [].
Proof.
  intros Hok Hro E. pose proof (ro_have _ Hro) as Hh. unfold notifyLoopStep in E.
  destruct (nt m) as [| | |cd last|] eqn:Hnt; destruct e; try done.
  all: try (destruct (sendOut cd m) as [m1|] eqn:Ho; [|done]; injection E as <-; by eapply notifier_accounts).
  all: repeat case_match; simplify_eq/=; try (by apply accounts_same);
    try (apply accounts_same; unfold leaveNotifier, doneReading, toEnd; rewrite ?Hnt; simpl;
         destruct (reading m); simpl; (done || lia || by rewrite Hnt)).
  all: destruct msgs; apply accounts_same; unfold toEnd; simpl; rewrite ?Hnt; (done || lia).
Qed.

Lemma writeStep_accounts m e o m' :
  recordsOK m -> writeStep m e = Some (o, m') -> accounts m o m' [].
Proof.
  intros [H1 H2 H3] E. unfold writeStep in E.
  destruct e; destruct (out m) as [|cd rest] eqn:Ho; repeat case_match; simplify_eq/=.
  all: try (assert (Hp : plain cd /\ Forall plain rest) by (by apply Forall_cons)).
  all: try (assert (Hacks : acks (cd :: rest) = acks [cd] + acks rest) by (by rewrite <- acks_app)).
  all: try (assert (Hends : ends (cd :: rest) = ends [cd] + ends rest) by (by rewrite <- ends_app)).
  all: account; rewrite ?Ho, ?Hacks, ?Hends; try lia; try (intros; split; [lia|done]).
  all: try (split; simpl; rewrite ?Ho; naive_solver).
  all: try (apply Forall_singleton; naive_solver).
  intros Hw. congruence.
Qed.

Lemma managerStep_accounts m e o m' :
  managerOK m -> recordsOK m -> managerStep maxBatch m e = Some (o, m') -> exists l, accounts m o m' l.
Proof.
  intros Hok Hro E. unfold managerStep in E. destruct (spanicked m); [done|]. destruct e as [e|e|e].
  - destruct (readerStep maxBatch m e) eqn:He; [|done]. injection E as <- <-. by eapply readerStep_accounts.
  - destruct (notifyLoopStep m e) eqn:He; [|done]. injection E as <- <-. exists []. by eapply notifyLoopStep_accounts.
  - exists []. by eapply writeStep_accounts.
Qed.

(** Only reading a contact adds to what was read. *)
Lemma managerStep_got m e o m' : managerStep maxBatch m e = Some (o, m') ->
  got m' = got m ++ match e with OfReaders (SRead c) => [c] | _ => [] end.
Proof.
  intros E. unfold managerStep in E. destruct (spanicked m); [done|].
  assert (Hs : forall cd m1, sendOut cd m = Some m1 -> got m1 = got m).
  { intros cd m1 Ho. unfold sendOut in Ho. repeat case_match; by simplify_eq/=. }
  assert (Hd : forall m, got (doneReading m) = got m).
  { intros m1. unfold doneReading. by destruct (reading m1). }
  destruct e as [e|e|e].
  - destruct (readerStep maxBatch m e) as [m1|] eqn:He; [|done]. injection E as <- <-. unfold readerStep in He.
    destruct e; try (rewrite app_nil_r);
      try (destruct (takeOut i (acking m)); [|done]; destruct (sendOut _ m) as [m2|] eqn:Ho; [|done]; simpl in He;
           injection He as <-; simpl; rewrite Hd; by eapply Hs);
      repeat case_match; simplify_eq/=; rewrite ?Hd; done.
  - destruct (notifyLoopStep m e) as [m1|] eqn:He; [|done]. injection E as <- <-. rewrite app_nil_r.
    unfold notifyLoopStep, leaveNotifier in He.
    destruct (nt m) as [| | |cd last|] eqn:Hnt; destruct e; try done;
      try (destruct (sendOut cd m) as [m2|] eqn:Ho; [|done]; apply Hs in Ho);
      repeat case_match; simplify_eq/=; rewrite ?Hd; done.
  - unfold writeStep in E. rewrite app_nil_r. destruct e; repeat case_match; by simplify_eq/=.
Qed.
End Records.
