(* ===== verification/Streams.v ===== *)
(** * A streaming connection, both ends

    StreamClient and StreamServer joined by the two directions of one HTTP
    exchange, each a queue of records that may break off at any point.  The
    initial exchange is over: both sides count from there. *)
From S2P Require Import Prelude StreamClient StreamServer.

(** ** The client with a server that keeps to the protocol *)
Section Order.
Context {Msg In : Type} (protoSize : Msg -> Z).
Abbreviation conn := (connection (Msg := Msg) (In := In)).
Implicit Types c : conn.

(** What the client relies on: it gets no more acknowledgements than it has
    written contacts, and one mark of the end. *)
Definition fair c (e : connEvent (Msg := Msg) (In := In)) : Prop :=
  match e with
  | OfReader (ReadRecord cd) =>
      (DoneSending cd = true -> serverDone c = false /\ AckIndex cd = 0) /\
      (AckIndex cd <> 0 -> rcnt c <= length (written c))
  | _ => True
  end.

Record orderOK c : Prop := {
  oo_panicked : panicked c = false;
  oo_rcnt : 1 <= rcnt c <= S (length (written c));
  oo_acked : acked c = concat (take (rcnt c - 1) (groups c));
  oo_later k : is_Some (pending c !! k) -> rcnt c <= k;
  oo_pending k g : rcnt c <= k -> groups c !! (k - 1) = Some g -> default [] (pending c !! k) = g;
  oo_written : written c `prefix_of` groups c /\
    match wr c with
    | Grouping | WaitingCtx => written c = groups c
    | Grouped g | Writing g => groups c = written c ++ [g]
    | WriterDone => True
    end;
  oo_waiting cd : rd c = WaitingWriter cd -> AckIndex cd = 0;
  oo_final : rWritingDone c = true -> writingDone c = true;
  (** After the mark of the end readLoop reads on for what is pending only. *)
  oo_stage : serverDone c = true -> rd c = Reading -> rWritingDone c = true /\ pending c <> ∅;
}.

Lemma orderOK_init : orderOK (connInit : conn).
Proof.
  split; simpl; try done; try lia.
  intros k. rewrite lookup_empty. by intros [].
Qed.

(** Steps of the writer that add no group. *)
Lemma orderOK_writer c c' :
  orderOK c -> rcnt c' = rcnt c -> groups c' = groups c -> acked c' = acked c -> pending c' = pending c ->
  rd c' = rd c -> rWritingDone c' = rWritingDone c -> panicked c' = false ->
  serverDone c' = serverDone c ->
  (writingDone c = true -> writingDone c' = true) ->
  written c `prefix_of` written c' ->
  (written c' `prefix_of` groups c /\
    match wr c' with
    | Grouping | WaitingCtx => written c' = groups c
    | Grouped g | Writing g => groups c = written c' ++ [g]
    | WriterDone => True
    end) -> orderOK c'.
Proof.
  intros [H1 H2 H3 H4 H5 H6 H7 H8 HS] E1 E2 E3 E4 E5 E6 E7 E0 E8 E9 E10.
  split; rewrite ?E1, ?E2, ?E3, ?E4, ?E5, ?E6, ?E0; try done; [|by auto].
  apply prefix_length in E9. lia.
Qed.

Lemma take_snoc_group (l : list (list Msg)) n g :
  l !! n = Some g -> concat (take (S n) l) = concat (take n l) ++ g.
Proof.
  intros Hl. rewrite (take_S_r _ _ g Hl), concat_app. simpl. by rewrite app_nil_r.
Qed.

(** Handling a record: an acknowledgement goes to the oldest contact. *)
Lemma handleRecord_order cd c :
  orderOK c -> settleOK c -> (AckIndex cd <> 0 -> rcnt c <= length (written c)) ->
  (serverDone c = true -> rWritingDone c = true /\ pending c <> ∅) ->
  orderOK (handleRecord cd c) /\
  rcnt (handleRecord cd c) = rcnt c + (if decide (AckIndex cd = 0) then 0 else 1) /\
  written (handleRecord cd c) = written c /\ serverDone (handleRecord cd c) = serverDone c.
Proof.
  intros [H1 H2 H3 H4 H5 H6 H7 H8 _] Hset Hfair HS. unfold handleRecord.
  destruct (decide (AckIndex cd = 0)) as [Ha|Ha].
  { split; [|split; [simpl; lia|done]]. split; try done. simpl. auto. }
  assert (Hlen : rcnt c <= length (groups c)).
  { destruct H6 as [H6%prefix_length _]. specialize (Hfair Ha). lia. }
  destruct (lookup_lt_is_Some_2 (groups c) (rcnt c - 1)) as [g Hg]; [lia|].
  assert (Hc : default [] (pending c !! rcnt c) = g) by (apply H5; [lia|done]).
  assert (Hok : forall b s x r, (forall cd, s <> WaitingWriter cd) ->
    (serverDone c = true -> s = Reading -> size (delete (rcnt c) (pending c)) <> 0) ->
    orderOK (c <| pending := delete (rcnt c) (pending c) |> <| pendingEmpty := b |> <| rcnt := S (rcnt c) |>
      <| acked := acked c ++ g |> <| ctxDone := x |> <| received := r |> <| rd := s |>)).
  { intros b s x r Hs Hz. split; simpl; try done.
    - specialize (Hfair Ha). lia.
    - rewrite H3. replace (S (rcnt c) - 1) with (S (rcnt c - 1)) by lia.
      rewrite Nat.sub_0_r. replace (rcnt c) with (S (rcnt c - 1)) at 2 by lia. by rewrite <- take_snoc_group.
    - intros k Hk. rewrite lookup_delete_is_Some in Hk. destruct Hk as [Hne Hk]. apply H4 in Hk. lia.
    - intros k g' Hk. rewrite lookup_delete_ne by lia. apply H5. lia.
    - intros cd'. by intros []%Hs.
    - intros Hd Hrd. destruct (HS Hd) as [Hw _]. split; [done|]. by apply map_size_non_empty_iff, Hz. }
  rewrite Hc. split; [|repeat case_match; simpl; repeat split; lia].
  assert (Hstay : forall b, (size (delete (rcnt c) (pending c)) <> 0 \/ rWritingDone c = false) -> orderOK
    (c <| pending := delete (rcnt c) (pending c) |> <| pendingEmpty := b |> <| rcnt := S (rcnt c) |>
       <| acked := acked c ++ g |> <| received := received c ++ Messages cd |> <| rd := Reading |>)).
  { intros b Hb. apply (Hok b Reading (ctxDone c) (received c ++ Messages cd)); [done|].
    intros Hd _. destruct (HS Hd) as [Hw _]. destruct Hb; congruence. }
  assert (Hleave : forall b, orderOK
    (c <| pending := delete (rcnt c) (pending c) |> <| pendingEmpty := b |> <| rcnt := S (rcnt c) |>
       <| acked := acked c ++ g |> <| ctxDone := true |> <| rd := ReaderDone |>)).
  { intros b. by apply (Hok b ReaderDone true (received c)). }
  destruct (decide (size _ = 0)) as [Hz|Hz]; simpl; destruct (_ && _) eqn:Hb;
    [apply (Hleave true)|apply (Hstay true)|apply (Hleave (pendingEmpty c))|apply (Hstay (pendingEmpty c))];
    (apply andb_false_iff in Hb as [?|?%bool_decide_eq_false_1]; [by right|by left]).
Qed.

Definition acksRead (e : connEvent (Msg := Msg) (In := In)) : nat :=
  match e with
  | OfReader (ReadRecord cd) => if decide (AckIndex cd = 0) then 0 else 1
  | _ => 0
  end.

Definition endRead (e : connEvent (Msg := Msg) (In := In)) : bool :=
  match e with OfReader (ReadRecord cd) => DoneSending cd | _ => false end.

(** What a step of the client does, as far as the server is concerned. *)
Record clientTurn c (e : connEvent (Msg := Msg) (In := In)) c' : Prop := {
  ct_order : orderOK c';
  ct_written : written c `prefix_of` written c';
  ct_rcnt : rcnt c' = rcnt c + acksRead e;
  ct_done : serverDone c' = serverDone c || endRead e;
}.

Lemma leaveWriter_turn b c e w :
  orderOK c -> writingDone c = b -> acksRead e = 0 -> endRead e = false ->
  written c `prefix_of` w -> w `prefix_of` groups c ->
  clientTurn c e (leaveWriter b (c <| written := w |>)).
Proof.
  intros Ho Hb Ha He Hw Hg. subst b. unfold leaveWriter, closeWritingDone.
  destruct (writingDone c) eqn:Hwd; simpl; rewrite ?Hwd;
    (split; simpl; rewrite ?Ha, ?He, ?Nat.add_0_r, ?orb_false_r; [|done..]);
    (apply (orderOK_writer c); try done; apply Ho).
Qed.

Lemma newGroup_order c g p :
  orderOK c -> settleOK c -> wr c = Grouping ->
  (p = <[wcnt c := g]> (pending c) \/ p = pending c /\ g = []) ->
  orderOK (c <| pending := p |> <| wcnt := S (wcnt c) |> <| groups := groups c ++ [g] |> <| wr := Grouped g |>).
Proof.
  intros [H1 H2 H3 H4 H5 [H6 H6'] H7 H8 HS] Hset Hw Hp. rewrite Hw in H6'.
  pose proof (so_cnt _ Hset) as Hcnt.
  assert (Hk : pending c !! wcnt c = None).
  { destruct (pending c !! wcnt c) eqn:Hk; [|done]. assert (wcnt c < wcnt c) by (apply (so_keys _ Hset); by eexists). lia. }
  assert (Hp' : default [] (p !! wcnt c) = g /\ forall k, k <> wcnt c -> p !! k = pending c !! k).
  { destruct Hp as [->|[-> ->]].
    - rewrite lookup_insert_eq. split; [done|]. intros k Hk'. by rewrite lookup_insert_ne.
    - by rewrite Hk. }
  destruct Hp' as [Hnew Hold]. rewrite H6' in H2.
  split; simpl; try done.
  - by rewrite H6'.
  - by rewrite H3, take_app_le by lia.
  - intros k Hk'. destruct (decide (k = wcnt c)) as [->|Hne]; [lia|]. rewrite Hold in Hk' by done. by apply H4.
  - intros k g' Hk' Hg. destruct (decide (k = wcnt c)) as [->|Hne].
    + rewrite Hcnt in Hg. simpl in Hg. rewrite Nat.sub_0_r, lookup_app_r, Nat.sub_diag in Hg by lia.
      simpl in Hg. by injection Hg as <-.
    + rewrite Hold by done. apply H5; [done|]. apply lookup_app_Some in Hg as [Hg|[Hl Hg]]; [done|].
      apply lookup_lt_Some in Hg. simpl in Hg. lia.
  - rewrite H6'. split; [by apply prefix_app_r|done].
  - intros Hd Hr. destruct (HS Hd Hr) as [Hf _]. apply H8 in Hf. rewrite (so_writing _ Hset), Hw in Hf. done.
Qed.

Lemma writeLoopStep_turn c e c' :
  orderOK c -> settleOK c -> writeLoopStep protoSize c e = Some c' -> clientTurn c (OfWriter e) c'.
Proof.
  intros Hok Hset E. pose proof (so_writing _ Hset) as Hwd. pose proof (oo_written _ Hok) as [Hw1 Hw2].
  unfold writeLoopStep in E.
  destruct e as [ns first es| | | |b|]; destruct (wr c) as [|g|g| |] eqn:Hw; try done.
  - destruct (groupMessages _ _ _ _) as [[o fin]|] eqn:Hg; [|done]. simpl in E. destruct fin.
    + assert (H : (if ctxDone c then Some (leaveWriter false c)
        else Some ((closeWritingDone c) <| wr := WaitingCtx |>)) = Some c')
        by (by destruct o, (match first with CaseServerDone => _ | _ => _ end)).
      clear E. destruct (ctxDone c); injection H as <-.
      { by apply (leaveWriter_turn false c _ (written c)). }
      unfold closeWritingDone. rewrite Hwd. split; simpl; rewrite ?orb_false_r, ?Nat.add_0_r; try done.
      apply (orderOK_writer c); try done. apply Hok.
    + destruct o as [g|]; injection E as <-; (split; simpl; rewrite ?orb_false_r, ?Nat.add_0_r; [|done..]).
      * apply newGroup_order; auto.
      * apply (newGroup_order c [] (pending c)); auto.
  - destruct (ctxDone c); injection E as <-.
    { by apply (leaveWriter_turn false c _ (written c)). }
    split; simpl; rewrite ?orb_false_r, ?Nat.add_0_r; try done. apply (orderOK_writer c); try done. apply Hok.
  - injection E as <-. by apply (leaveWriter_turn false c _ (written c)).
  - injection E as <-. split; simpl; rewrite ?orb_false_r, ?Nat.add_0_r; try done; [|by apply prefix_app_r].
    apply (orderOK_writer c); try done; [apply Hok|by apply prefix_app_r|]. simpl. by rewrite Hw2.
  - injection E as <-. destruct b; [|by apply (leaveWriter_turn false c _ (written c))].
    apply leaveWriter_turn; try done; [by apply prefix_app_r|by rewrite Hw2].
  - destruct (ctxDone c); [|done]. injection E as <-. by apply (leaveWriter_turn true c _ (written c)).
Qed.

(** Steps that leave the contacts alone. *)
Lemma orderOK_same c c' :
  orderOK c -> rcnt c' = rcnt c -> groups c' = groups c -> acked c' = acked c -> pending c' = pending c ->
  written c' = written c -> wr c' = wr c -> panicked c' = panicked c ->
  (rWritingDone c' = true -> writingDone c' = true) ->
  (forall cd, rd c' = WaitingWriter cd -> AckIndex cd = 0) ->
  (serverDone c' = true -> rd c' = Reading -> rWritingDone c' = true /\ pending c <> ∅) -> orderOK c'.
Proof.
  intros [H1 H2 H3 H4 H5 H6 H7 H8 _] E1 E2 E3 E4 E5 E6 E7 E8 E9 E10.
  split; rewrite ?E1, ?E2, ?E3, ?E4, ?E5, ?E6, ?E7; done.
Qed.

Lemma readLoopStep_turn c e c' :
  orderOK c -> settleOK c -> fair c (OfReader e) -> readLoopStep c e = Some c' -> clientTurn c (OfReader e) c'.
Proof.
  intros Hok Hset Hfair E. unfold readLoopStep in E.
  destruct e as [cd| | |]; destruct (rd c) as [|cd'|] eqn:Hr; try done.
  - injection E as <-. destruct Hfair as [Hf1 Hf2]. destruct (DoneSending cd) eqn:Hd.
    + destruct (Hf1 eq_refl) as [Hs Ha]. unfold closeServerDone. rewrite Hs.
      split; simpl; rewrite ?Hd, ?orb_true_r, ?Ha; try done.
      apply (orderOK_same c); try done; [apply Hok|]. by intros cd' [= <-].
    + destruct (handleRecord_order cd c Hok Hset Hf2 (fun Hsd => oo_stage _ Hok Hsd Hr)) as (H1 & H2 & H3 & H4).
      split; simpl; rewrite ?Hd, ?orb_false_r; try done. by rewrite H3.
  - injection E as <-. split; simpl; rewrite ?orb_false_r, ?Nat.add_0_r; try done.
    apply (orderOK_same c); try done; apply Hok.
  - destruct (ctxDone c); [|done]. injection E as <-.
    split; simpl; rewrite ?orb_false_r, ?Nat.add_0_r; try done.
    apply (orderOK_same c); try done; apply Hok.
  - destruct (writingDone c) eqn:Hwd; [|done]. injection E as <-. simpl.
    pose proof (oo_waiting _ Hok _ Hr) as Ha.
    case_decide.
    + split; simpl; rewrite ?orb_false_r, ?Nat.add_0_r; try done. by apply (orderOK_same c).
    + unfold handleRecord. rewrite decide_True by done.
      split; simpl; rewrite ?orb_false_r, ?Nat.add_0_r; try done. by apply (orderOK_same c).
Qed.

Lemma connStep_turn c e c' :
  orderOK c -> settleOK c -> fair c e -> connStep protoSize c e = Some c' -> clientTurn c e c'.
Proof.
  intros Hok Hset Hfair E. unfold connStep in E. rewrite (oo_panicked _ Hok) in E. destruct e as [e|e|e].
  - by apply writeLoopStep_turn.
  - by apply readLoopStep_turn.
  - assert (Hany : c' = c <| pendingEmpty := pendingEmpty c' |> <| fl := fl c' |> <| ctxDone := ctxDone c' |>
      <| cleared := cleared c' |> <| nacked := nacked c' |>).
    { destruct e; simpl in E; unfold flushStep, clearStep in E; repeat case_match; simplify_eq/=; try done; by destruct c. }
    rewrite Hany. split; simpl; rewrite ?orb_false_r, ?Nat.add_0_r; try done.
    apply (orderOK_same c); try done; apply Hok.
Qed.
End Order.

(** ** The two ends together *)
Section Stream.
Context {Msg In : Type} (protoSize : Msg -> Z) (maxBatch : nat).

(** The records on the way, oldest first. *)
Record stream := mkStream {
  cl : connection (Msg := Msg) (In := In);
  up : list (list Msg);
  down : list (cdata In);
  sv : manager (C := list Msg) (In := In);
}.

Definition streamInit (more : bool) : stream := mkStream connInit [] [] (managerInit more).

Inductive streamEvent :=
| ClientReads                         (* the client reads the next record *)
| ClientDoes (e : connEvent (Msg := Msg) (In := In))
| ServerReads                         (* the server reads the next contact *)
| ServerDoes (e : managerEvent (C := list Msg) (In := In)).

Definition streamStep (s : stream) (e : streamEvent) : option stream :=
  match e with
  | ClientReads =>
      match down s with
      | cd :: rest =>
          c ← connStep protoSize (cl s) (OfReader (ReadRecord cd));
          Some (mkStream c (up s) rest (sv s))
      | [] => None
      end
  | ClientDoes (OfReader (ReadRecord _)) => None
  | ClientDoes e =>
      c ← connStep protoSize (cl s) e;
      Some (mkStream c (up s ++ drop (length (written (cl s))) (written c)) (down s) (sv s))
  | ServerReads =>
      match up s with
      | c :: rest =>
          r ← managerStep maxBatch (sv s) (OfReaders (SRead c));
          Some (mkStream (cl s) rest (down s ++ r.1) r.2)
      | [] => None
      end
  | ServerDoes (OfReaders (SRead _)) => None
  | ServerDoes e =>
      r ← managerStep maxBatch (sv s) e;
      Some (mkStream (cl s) (up s) (down s ++ r.1) r.2)
  end.

Definition streamMoves (s s' : stream) : Prop := exists e, streamStep s e = Some s'.
Definition streamReachable (s : stream) : Prop := exists more, rtc streamMoves (streamInit more) s.

Fixpoint streamRun (s : stream) (es : list streamEvent) : option stream :=
  match es with
  | [] => Some s
  | e :: es => match streamStep s e with Some s' => streamRun s' es | None => None end
  end.

Lemma streamRun_rtc s es s' : streamRun s es = Some s' -> rtc streamMoves s s'.
Proof.
  revert s. induction es as [|e es IH]; simpl; intros s E; [injection E as ->; apply rtc_refl|].
  destruct (streamStep s e) as [s1|] eqn:He; [|done]. eapply rtc_l; [by exists e|by apply IH].
Qed.

Definition b2n (b : bool) : nat := if b then 1 else 0.

Record streamOK (s : stream) : Prop := {
  st_settle : settleOK (cl s);
  st_order : orderOK (cl s);
  st_manager : managerOK (sv s);
  st_records : recordsOK (sv s);
  st_up : written (cl s) = got (sv s) ++ up s;
  st_acks : rcnt (cl s) + acks (down s) + owed (sv s) <= S (length (handled (sv s)));
  st_exact : swriting (sv s) = true ->
    rcnt (cl s) + acks (down s) + owed (sv s) = S (length (handled (sv s)));
  st_plain : Forall plain (down s);
  st_ends : b2n (serverDone (cl s)) + ends (down s) + ends (out (sv s)) + toEnd (sv s) <= 1;
}.

Lemma streamOK_init more : streamOK (streamInit more).
Proof.
  split; simpl; first [apply settleOK_init|apply orderOK_init|apply managerOK_init|apply recordsOK_init|done].
Qed.

Lemma handled_got m : managerOK (C := list Msg) (In := In) m -> length (handled m) <= length (got m).
Proof.
  intros Hm. pose proof (Permutation_length (mo_contacts _ Hm)) as Hl.
  rewrite length_zip, length_seq, !length_app in Hl. lia.
Qed.

(** What the client reads from this server is fair. *)
Lemma stream_fair s cd rest :
  streamOK s -> down s = cd :: rest -> fair (cl s) (OfReader (ReadRecord cd)).
Proof.
  intros [H1 H2 H3 H4 H5 H6 H7 H8 H9] Hd. rewrite Hd in *. split.
  - intros Hend. apply Forall_cons in H8 as [Hp _]. split; [|by apply Hp].
    change (cd :: rest) with ([cd] ++ rest) in H9. rewrite ends_app in H9.
    assert (He : ends [cd] = 1) by (unfold ends; simpl; by rewrite Hend).
    destruct (serverDone (cl s)); [simpl in H9; lia|done].
  - intros Ha. change (cd :: rest) with ([cd] ++ rest) in H6. rewrite acks_app in H6.
    assert (He : acks [cd] = 1) by (unfold acks, isAck; simpl; by destruct (Nat.eqb_spec (AckIndex cd) 0)).
    pose proof (handled_got _ H3). rewrite H5, length_app. lia.
Qed.

Lemma client_turn s c e rest :
  streamOK s -> clientTurn (cl s) e c -> settleOK c ->
  acks (down s) = acks rest + acksRead e -> ends (down s) = ends rest + b2n (endRead e) ->
  Forall plain rest ->
  streamOK (mkStream c (up s ++ drop (length (written (cl s))) (written c)) rest (sv s)).
Proof.
  intros [H1 H2 H3 H4 H5 H6 H7 H8 H9] [T1 [w T2] T3 T4] Hset Ha He Hp.
  split; simpl; try done.
  - by rewrite T2, drop_app_length, H5, app_assoc.
  - lia.
  - intros Hw. specialize (H7 Hw). lia.
  - rewrite T4. destruct (serverDone (cl s)), (endRead e); simpl in *; lia.
Qed.

Lemma manager_turn s e o m :
  streamOK s -> managerStep maxBatch (sv s) e = Some (o, m) ->
  forall rest, up s = (match e with OfReaders (SRead c) => [c] | _ => [] end) ++ rest ->
  streamOK (mkStream (cl s) rest (down s ++ o) m).
Proof.
  intros [H1 H2 H3 H4 H5 H6 H7 H8 H9] E rest Hup.
  destruct (managerStep_accounts _ _ _ _ _ H3 H4 E) as [l [A1 A2 A3 A4 A5 A6]].
  pose proof (managerStep_got _ _ _ _ _ E) as Hg.
  split; simpl; try done.
  - by eapply managerStep_OK.
  - by rewrite H5, Hg, Hup, <- app_assoc.
  - rewrite acks_app, A3, length_app. lia.
  - intros Hw. destruct (A5 Hw) as [Hex Hw']. specialize (H7 Hw'). rewrite acks_app, A3, length_app. lia.
  - by apply Forall_app.
  - rewrite ends_app. lia.
Qed.

Lemma read_written c e c' : connStep protoSize c (OfReader e) = Some c' -> written c' = written (c : connection (Msg := Msg) (In := In)).
Proof.
  unfold connStep. destruct (panicked c); [done|]. intros E. unfold readLoopStep in E.
  assert (Hh : forall cd c, written (handleRecord cd c) = written (c : connection (Msg := Msg) (In := In))).
  { intros cd d. unfold handleRecord. repeat case_match; done. }
  destruct e, (rd c); repeat case_match; simplify_eq/=; rewrite ?Hh; try done.
  unfold closeServerDone. by destruct (serverDone c).
Qed.

Lemma streamStep_OK s e s' : streamOK s -> streamStep s e = Some s' -> streamOK s'.
Proof.
  intros Hok E. destruct e as [|e| |e].
  - simpl in E. destruct (down s) as [|cd rest] eqn:Hd; [done|].
    destruct (connStep _ _ _) as [c|] eqn:Hc; [|done]. injection E as <-.
    pose proof (stream_fair _ _ _ Hok Hd) as Hf.
    pose proof (connStep_turn _ _ _ _ (st_order _ Hok) (st_settle _ Hok) Hf Hc) as Ht.
    pose proof (st_plain _ Hok) as Hp. rewrite Hd in Hp. apply Forall_cons in Hp as [_ Hp].
    pose proof (client_turn s c _ rest Hok Ht (connStep_OK _ _ _ _ (st_settle _ Hok) Hc)) as Hturn.
    rewrite (read_written _ _ _ Hc), drop_all, app_nil_r, Hd in Hturn.
    change (cd :: rest) with ([cd] ++ rest) in Hturn. rewrite acks_app, ends_app in Hturn.
    apply Hturn; [|unfold ends; simpl; destruct (DoneSending cd); simpl; lia|done].
    unfold acks, isAck. simpl. case_decide as Ha; destruct (Nat.eqb_spec (AckIndex cd) 0); simpl; lia.
  - assert (Hnr : acksRead e = 0 /\ endRead e = false /\ fair (cl s) e).
    { destruct e as [|[]|]; simpl in E; try done; by repeat split. }
    destruct Hnr as (Ha & He & Hf). simpl in E.
    assert (Hc : exists c, connStep protoSize (cl s) e = Some c /\
      s' = mkStream c (up s ++ drop (length (written (cl s))) (written c)) (down s) (sv s)).
    { destruct e as [e|e|e]; [| |]; try (destruct e as [cd| | |]; [done|..]);
        destruct (connStep _ _ _) as [c|]; try done; injection E as <-; eauto. }
    destruct Hc as (c & Hc & ->).
    apply (client_turn s c e); rewrite ?Ha, ?He; simpl; try lia; try done.
    + by apply (connStep_turn protoSize _ _ _ (st_order _ Hok) (st_settle _ Hok)).
    + by eapply connStep_OK, Hc; apply Hok.
    + apply Hok.
  - simpl in E. destruct (up s) as [|c rest] eqn:Hup; [done|].
    destruct (managerStep _ _ _) as [[o m]|] eqn:Hm; [|done]. injection E as <-.
    by apply (manager_turn s _ o m Hok Hm).
  - assert (Hm : exists o m, managerStep maxBatch (sv s) e = Some (o, m) /\
      s' = mkStream (cl s) (up s) (down s ++ o) m /\ forall c, e <> OfReaders (SRead c)).
    { simpl in E. destruct e as [[]| |]; try done;
        destruct (managerStep _ _ _) as [[o m]|]; try done; injection E as <-; eauto 6. }
    destruct Hm as (o & m & Hm & -> & Hn). apply (manager_turn s e); [done|done|].
    destruct e as [[]| |]; try done; by destruct (Hn _ eq_refl).
Qed.

Lemma streamOK_reachable s : streamReachable s -> streamOK s.
Proof.
  intros [more H]. assert (H0 : streamOK (streamInit more)) by apply streamOK_init.
  induction H as [|s1 s2 s3 [e He] _ IH]; [done|]. apply IH. by eapply streamStep_OK.
Qed.

(** *** Which messages the server has dealt with *)
Lemma zip_seq_lookup {A} (l : list A) k c :
  (k, c) ∈ zip (seq 1 (length l)) l -> 1 <= k /\ l !! (k - 1) = Some c.
Proof.
  intros (i & Hi)%list_elem_of_lookup. apply lookup_zip_with_Some in Hi as (a & b & [= <- <-] & Ha & Hb).
  apply lookup_seq in Ha as [-> Hlt]. split; [lia|]. by replace (1 + i - 1) with i by lia.
Qed.

Lemma handled_group s k g : streamOK s -> (k, g) ∈ handled (sv s) -> groups (cl s) !! (k - 1) = Some g /\ 1 <= k.
Proof.
  intros Hok Hin. assert (Hz : (k, g) ∈ zip (seq 1 (length (got (sv s)))) (got (sv s))).
  { rewrite (mo_contacts _ (st_manager _ Hok)). apply elem_of_app. by left. }
  apply zip_seq_lookup in Hz as [Hk Hg]. split; [|done].
  destruct (oo_written _ (st_order _ Hok)) as [[w Hw] _]. rewrite Hw, (st_up _ Hok).
  by do 2 apply lookup_app_l_Some.
Qed.

(** C21: along a whole streaming connection neither end closes a channel twice,
    sends on a closed one or takes its WaitGroup below zero; the server reads
    the contacts the client wrote, in their order; the client acknowledges
    whole contacts, the oldest first, and never more of them than the server
    has processed; and when the contacts processed so far are the first ones,
    every message it acknowledged was processed. *)
Theorem stream_acks_spec s :
  streamReachable s ->
  panicked (cl s) = false /\ spanicked (sv s) = false /\
  written (cl s) = got (sv s) ++ up s /\ written (cl s) `prefix_of` groups (cl s) /\
  acked (cl s) = concat (take (rcnt (cl s) - 1) (groups (cl s))) /\
  rcnt (cl s) - 1 <= length (handled (sv s)) /\
  (fst <$> handled (sv s) ≡ₚ seq 1 (length (handled (sv s))) ->
     forall m, m ∈ acked (cl s) -> exists k g, (k, g) ∈ handled (sv s) /\ m ∈ g).
Proof.
  intros Hr. pose proof (streamOK_reachable _ Hr) as Hok.
  pose proof (st_order _ Hok) as Ho. pose proof (oo_rcnt _ Ho). pose proof (st_acks _ Hok).
  split; [apply Ho|]. split; [apply Hok|]. split; [apply Hok|].
  split; [apply Ho|]. split; [apply Ho|]. split; [lia|].
  intros Hseq m Hm. rewrite (oo_acked _ Ho) in Hm.
  apply list_elem_of_In, in_concat in Hm as (g & Hg%list_elem_of_In & Hm%list_elem_of_In).
  apply list_elem_of_lookup in Hg as [i Hi].
  apply lookup_take_Some in Hi as [Hi Hlt].
  assert (Hk : S i ∈ fst <$> handled (sv s)) by (rewrite Hseq; apply elem_of_seq; lia).
  apply list_elem_of_fmap in Hk as ([k g'] & Hk & Hin). simpl in Hk. subst k.
  exists (S i), g'. split; [done|]. destruct (handled_group _ _ _ Hok Hin) as [Hg' _].
  replace (S i - 1) with i in Hg' by lia. by simplify_eq.
Qed.

(** *** The staged shutdown

    Once the client has read the mark of the end, it stops writing and waits
    for what it has written.  The steps that take it there: *)
Definition calm (e : streamEvent) : bool :=
  match e with
  | ClientReads | ServerReads => true
  | ClientDoes (OfWriter (Group _ CaseServerDone _)) => true
  | ClientDoes (OfWriter Prepare) | ClientDoes (OfWriter Write) => true
  | ClientDoes (OfReader SeesWritingDone) => true
  | ServerDoes (OfReaders (SRefused _)) | ServerDoes (OfReaders SReadFails) => false
  | ServerDoes (OfReaders _) | ServerDoes (OfSWriter SWrite) => true
  | _ => false
  end.

Definition calmMoves (s s' : stream) : Prop := exists e, calm e = true /\ streamStep s e = Some s'.

(** The [select] of groupMessages may take a message or the beacon although the
    server is done, when several of its cases are ready. *)
Definition regroups (e : streamEvent) : bool :=
  match e with
  | ClientDoes (OfWriter (Group _ (CaseMessage _) _)) | ClientDoes (OfWriter (Group _ CaseBeacon _)) => true
  | _ => false
  end.

(** What ends the connection in another way: an error of the network or of the
    data, a contact that is refused, a context that is cancelled. *)
Definition failure (e : streamEvent) : bool :=
  match e with
  | ClientDoes (OfWriter PrepareFails) | ClientDoes (OfWriter (WriteFails _)) => true
  | ClientDoes (OfReader ReadFails) | ClientDoes (Other Cancel) => true
  | ServerDoes (OfReaders (SRefused _)) | ServerDoes (OfReaders SReadFails) => true
  | ServerDoes (OfSWriter SWriteFails) | ServerDoes (OfSWriter SWriterStops) | ServerDoes (OfSWriter SCancel) => true
  | _ => false
  end.

Definition countOf (f : streamEvent -> bool) (es : list streamEvent) : nat := length (List.filter f es).

Definition writerWork (c : connection (Msg := Msg) (In := In)) : nat :=
  match wr c with Grouped _ => 10 | Writing _ => 9 | Grouping => 1 | _ => 0 end.
Definition readerWork (c : connection (Msg := Msg) (In := In)) : nat :=
  match rd c with WaitingWriter _ => 1 | _ => 0 end.
Definition serverWork (m : manager (C := list Msg) (In := In)) : nat :=
  2 * length (out m) + 3 * length (acking m) + 4 * length (working m) + 5 * length (spawned m) +
  match srd m with SHave _ => 6 | _ => 0 end.

(** How many calm steps are left. *)
Definition work (s : stream) : nat :=
  writerWork (cl s) + readerWork (cl s) + 7 * length (up s) + serverWork (sv s) + length (down s).

(** The shutdown is under way and nothing has gone wrong. *)
Record closing (s : stream) : Prop := {
  cg_done : serverDone (cl s) = true;
  cg_ctx : ctxDone (cl s) = false;
  cg_writer : wr (cl s) <> WriterDone;
  cg_reader : rd (cl s) <> ReaderDone;
  cg_failed : failed (sv s) = [];
  cg_swriting : swriting (sv s) = true;
  cg_sreader : srd (sv s) <> SReaderDone;
}.

(** The client has left, with every message it took acknowledged. *)
Record ended (s : stream) : Prop := {
  en_reader : rd (cl s) = ReaderDone;
  en_writer : wr (cl s) = WaitingCtx \/ wr (cl s) = WriterDone;
  en_pending : pending (cl s) = ∅;
  en_acked : acked (cl s) = concat (groups (cl s));
}.

Lemma all_acked c : orderOK c -> pending c = ∅ -> acked c = concat (groups (c : connection (Msg := Msg) (In := In))).
Proof.
  intros Ho Hp. rewrite (oo_acked _ Ho). rewrite <- (take_drop (rcnt c - 1) (groups c)) at 2.
  rewrite concat_app. assert (H : concat (drop (rcnt c - 1) (groups c)) = []); [|by rewrite H, app_nil_r].
  apply concat_nil_Forall, Forall_forall. intros g (i & Hi)%list_elem_of_lookup.
  rewrite lookup_drop in Hi. pose proof (oo_rcnt _ Ho).
  pose proof (oo_pending _ Ho (rcnt c + i) g ltac:(lia)) as Hg. rewrite Hp, lookup_empty in Hg.
  symmetry. apply Hg. by replace (rcnt c + i - 1) with (rcnt c - 1 + i) by lia.
Qed.

(** Between two records the reader stays, or has nothing left to wait for. *)
Lemma handleRecord_stage cd c :
  ctxDone c = false ->
  serverDone (handleRecord cd c) = serverDone c /\ wr (handleRecord cd c) = wr c /\
  ((rd (handleRecord cd c) = Reading /\ ctxDone (handleRecord cd c) = false) \/
   rd (handleRecord cd c) = ReaderDone /\ rWritingDone c = true /\
   pending (handleRecord cd c : connection (Msg := Msg) (In := In)) = ∅).
Proof.
  intros Hx. unfold handleRecord. case_decide; [by auto|]. simpl.
  destruct (_ && _) eqn:Hb; [|repeat case_match; auto].
  apply andb_true_iff in Hb as [Hw Hz%bool_decide_eq_true_1].
  case_decide; simpl in *; (split; [done|split; [done|right; split; [done|split; [done|]]]]); by apply map_size_empty_iff.
Qed.

Lemma reader_calm s e c s' :
  streamOK s -> closing s -> (forall cd, e = ReadRecord cd -> DoneSending cd = false) ->
  (e = SeesWritingDone \/ exists cd, e = ReadRecord cd) ->
  connStep protoSize (cl s) (OfReader e) = Some c ->
  cl s' = c -> sv s' = sv s -> streamOK s' ->
  readerWork c = 0 /\ writerWork c = writerWork (cl s) /\ (closing s' \/ ended s').
Proof.
  intros Hok [C1 C2 C3 C4 C5 C6 C7] Hnd He E Hc Hs Hok'. unfold connStep in E.
  rewrite (oo_panicked _ (st_order _ Hok)) in E. unfold readLoopStep in E.
  assert (Hout : forall c1, c = c1 -> serverDone c1 = true -> wr c1 = wr (cl s) ->
    rd c1 = Reading /\ ctxDone c1 = false \/
      rd c1 = ReaderDone /\ rWritingDone (cl s) || writingDone (cl s) = true /\ pending c1 = ∅ ->
    readerWork c = 0 /\ writerWork c = writerWork (cl s) /\ (closing s' \/ ended s')).
  { intros c1 <- Hd Hw Hr. unfold readerWork, writerWork. rewrite Hw.
    split; [by destruct Hr as [[-> _]|[-> _]]|]. split; [done|].
    destruct Hr as [[Hr Hx]|(Hr & Hwd & Hp)]; [left|right].
    - split; rewrite ?Hc, ?Hs; congruence.
    - split; rewrite ?Hc; try done; [left|apply all_acked; [rewrite <- Hc; exact (st_order _ Hok')|done]]. rewrite Hw.
      assert (Hwd' : writingDone (cl s) = true).
      { apply orb_true_iff in Hwd as [Hwd|]; [by apply (oo_final _ (st_order _ Hok))|done]. }
      rewrite (so_writing _ (st_settle _ Hok)) in Hwd'. by destruct (wr (cl s)). }
  destruct He as [->|[cd ->]].
  - destruct (rd (cl s)) as [|cd|] eqn:Hr; try done. destruct (writingDone (cl s)) eqn:Hwd; [|done].
    injection E as <-. case_decide as Hp.
    + apply (Hout _ eq_refl); try done. right. simpl. by rewrite orb_true_r.
    + destruct (handleRecord_stage cd ((cl s) <| rWritingDone := true |>)) as (H1 & H2 & H3); [done|].
      apply (Hout _ eq_refl); [exact (eq_trans H1 C1)|exact H2|]. rewrite orb_true_r.
      destruct H3 as [H3|(H3 & _ & H4)]; [by left|by right].
  - destruct (rd (cl s)) eqn:Hr; try done. rewrite (Hnd cd) in E by done. injection E as <-.
    destruct (handleRecord_stage cd (cl s)) as (H1 & H2 & H3); [done|].
    apply (Hout _ eq_refl); [exact (eq_trans H1 C1)|exact H2|].
    destruct H3 as [H3|(H3 & -> & H4)]; [by left|by right].
Qed.

Lemma writer_calm c e c' :
  orderOK c -> settleOK c -> ctxDone c = false -> calm (ClientDoes (OfWriter e)) = true ->
  connStep protoSize c (OfWriter e) = Some c' ->
  writerWork c' + 7 * length (drop (length (written c)) (written c')) < writerWork c /\
  rd c' = rd c /\ serverDone c' = serverDone c /\ ctxDone c' = false /\ wr c' <> WriterDone.
Proof.
  intros Ho Hset Hx Hcalm E. unfold connStep in E. rewrite (oo_panicked _ Ho) in E.
  pose proof (so_writing _ Hset) as Hwd. unfold writeLoopStep, writerWork in *.
  destruct e as [ns [| | |m] es| | | | |]; destruct (wr c) as [|g|g| |] eqn:Hw; try done; simpl in E.
  - rewrite Hx in E. destruct (serverDone c) eqn:Hd; [|done]. injection E as <-.
    unfold closeWritingDone. rewrite Hwd. simpl. rewrite drop_all. simpl. rewrite Hd. repeat split; (done || lia).
  - rewrite Hx in E. injection E as <-. simpl. rewrite drop_all. simpl. repeat split; (done || lia).
  - injection E as <-. simpl. rewrite drop_app_length. simpl. repeat split; (done || lia).
Qed.

(** A step of the server's goroutines that is neither a failure nor a new
    contact does one unit of work. *)
Lemma server_calm m e o m' :
  managerOK m -> calm (ServerDoes e) = true -> managerStep maxBatch m e = Some (o, m') ->
  serverWork m' + length o < serverWork m + (match e with OfReaders (SRead _) => 7 | _ => 0 end) /\
  failed m' = failed m /\ swriting m' = swriting m /\ (srd m <> SReaderDone -> srd m' <> SReaderDone).
Proof.
  intros Hok Hcalm E. unfold managerStep in E. rewrite (mo_panicked _ Hok) in E.
  pose proof (mo_reading _ Hok) as Hr. unfold busy in Hr. unfold serverWork.
  destruct e as [[c| | |i|i b a|i|i]| |[]]; try done; simpl in E.
  - destruct (srd m) eqn:Hs; try done. injection E as <- <-. simpl. repeat split; (done || lia).
  - destruct (srd m) eqn:Hs; try done. case_decide; [|done]. injection E as <- <-. simpl.
    rewrite length_app. simpl. repeat split; (done || lia).
  - destruct (takeOut i (spawned m)) eqn:Ht; [|done]. destruct (batchCh m); [done|]. injection E as <- <-. simpl.
    apply takeOut_perm, Permutation_length in Ht. rewrite Ht, length_app. simpl. repeat split; (done || lia).
  - destruct (pick i (working m)) as [[c rest]|] eqn:Ht; [|done]. injection E as <- <-. simpl.
    apply pick_perm, Permutation_length in Ht. rewrite Ht, length_app. simpl. repeat split; (done || lia).
  - destruct (takeOut i (acking m)) as [rest|] eqn:Ht; [|done]. apply takeOut_perm, Permutation_length in Ht.
    simpl in Ht. destruct (sendOut _ m) as [m1|] eqn:Ho; [|done]. simpl in E. injection E as <- <-.
    apply sendOut_OK in Ho as ->; [|done|lia]. rewrite doneReading_pos by (simpl; lia). simpl.
    rewrite length_app. simpl. repeat split; (done || lia).
  - destruct (out m) eqn:Ho; [done|]. destruct (swriting m) eqn:Hw; [|done]. injection E as <- <-. simpl.
    repeat split; (done || lia).
Qed.

Lemma calm_server_step s e o m rest :
  closing s -> managerOK (sv s) -> calm (ServerDoes e) = true ->
  managerStep maxBatch (sv s) e = Some (o, m) ->
  up s = (match e with OfReaders (SRead c) => [c] | _ => [] end) ++ rest ->
  work (mkStream (cl s) rest (down s ++ o) m) < work s /\ closing (mkStream (cl s) rest (down s ++ o) m).
Proof.
  intros [] Hok Hcalm E Hup. destruct (server_calm _ _ _ _ Hok Hcalm E) as (H1 & H2 & H3 & H4). split.
  - unfold work. simpl. rewrite Hup, !length_app. destruct e as [[]| |]; simpl in *; lia.
  - split; simpl; auto; congruence.
Qed.

Lemma calm_step s e s' :
  streamOK s -> closing s -> calm e = true -> streamStep s e = Some s' ->
  work s' < work s /\ (closing s' \/ ended s').
Proof.
  intros Hok Hc Hcalm E. pose proof (streamStep_OK _ _ _ Hok E) as Hok'.
  destruct e as [|e| |e].
  - simpl in E. destruct (down s) as [|cd rest] eqn:Hd; [done|].
    destruct (connStep _ _ _) as [c|] eqn:Hs; [|done]. injection E as <-.
    assert (Hnd : DoneSending cd = false).
    { destruct (DoneSending cd) eqn:Hds; [|done]. destruct (stream_fair _ _ _ Hok Hd) as [Hf _].
      destruct (Hf Hds) as [Hf' _]. by rewrite (cg_done _ Hc) in Hf'. }
    destruct (reader_calm s (ReadRecord cd) c (mkStream c (up s) rest (sv s))) as (H1 & H2 & H3); eauto.
    { by intros cd' [= <-]. }
    split; [|done]. unfold work. simpl. rewrite H1, H2, Hd. simpl. lia.
  - assert (Hd : exists c, connStep protoSize (cl s) e = Some c /\
      s' = mkStream c (up s ++ drop (length (written (cl s))) (written c)) (down s) (sv s)).
    { simpl in E. destruct e as [e|[]|]; try done; destruct (connStep _ _ _) as [c|]; try done; injection E as <-; eauto. }
    destruct Hd as (c & Hs & ->). destruct e as [e|[]|]; try done.
    + destruct (writer_calm _ e _ (st_order _ Hok) (st_settle _ Hok) (cg_ctx _ Hc) Hcalm Hs) as (H1 & H2 & H3 & H4 & H5).
      split.
      * unfold work, readerWork. simpl. rewrite H2, length_app. lia.
      * left. destruct Hc as [C1 C2 C3 C4 C5 C6 C7]. split; simpl; congruence.
    + destruct (reader_calm s SeesWritingDone c (mkStream c (up s ++ drop (length (written (cl s))) (written c)) (down s) (sv s)))
        as (H1 & H2 & H3); eauto; [done|].
      split; [|done]. unfold work. simpl. rewrite H1, H2, (read_written _ _ _ Hs), drop_all, app_nil_r.
      unfold connStep in Hs. rewrite (oo_panicked _ (st_order _ Hok)) in Hs. unfold readLoopStep in Hs.
      unfold readerWork. destruct (rd (cl s)); [done| |done]. lia.
  - simpl in E. destruct (up s) as [|c rest] eqn:Hup; [done|].
    destruct (managerStep _ _ _) as [[o m]|] eqn:Hm; [|done]. injection E as <-.
    destruct (calm_server_step s (OfReaders (SRead c)) o m rest); try done; [apply Hok|]. by auto.
  - assert (Hm : exists o m, managerStep maxBatch (sv s) e = Some (o, m) /\
      s' = mkStream (cl s) (up s) (down s ++ o) m /\ forall c, e <> OfReaders (SRead c)).
    { simpl in E. destruct e as [[]| |]; try done;
        destruct (managerStep _ _ _) as [[o m]|]; try done; injection E as <-; eauto 6. }
    destruct Hm as (o & m & Hm & -> & Hn). destruct (calm_server_step s e o m (up s)); try done; [apply Hok| |by auto].
    destruct e as [[]| |]; try done; by destruct (Hn _ eq_refl).
Qed.

(** The steps that neither fail nor lead to the end: more groups, and Flush. *)
Lemma other_client_step s e c :
  streamOK s -> closing s -> failure (ClientDoes e) = false -> calm (ClientDoes e) = false ->
  (forall cd, e <> OfReader (ReadRecord cd)) -> connStep protoSize (cl s) e = Some c ->
  written c = written (cl s) /\ rd c = rd (cl s) /\ serverDone c = serverDone (cl s) /\ ctxDone c = false /\ wr c <> WriterDone /\
  writerWork c <= writerWork (cl s) + (if regroups (ClientDoes e) then 9 else 0).
Proof.
  intros Hok [C1 C2 C3 C4 C5 C6 C7] Hf Hca Hn E. unfold connStep in E.
  rewrite (oo_panicked _ (st_order _ Hok)) in E.
  destruct e as [e|e|e]; [| |].
  - unfold writeLoopStep, writerWork in *.
    destruct e as [ns [| | |m] es| | | | |]; try done; destruct (wr (cl s)) eqn:Hw; try done; simpl in E.
    + by rewrite C2 in E.
    + injection E as <-. simpl. repeat split; (done || lia).
    + destruct (gather _ _ _ _ _) as [g|]; [|done]. injection E as <-. simpl. repeat split; (done || lia).
    + by rewrite C2 in E.
  - unfold readLoopStep in E. destruct e as [cd| | |]; try done; [by destruct (Hn cd)|].
    destruct (rd (cl s)); try done. by rewrite C2 in E.
  - destruct e; try done; simpl in E; unfold clearStep in E.
    all: try (destruct (fl (cl s)); repeat case_match; simplify_eq/=; repeat split; (done || (unfold writerWork; simpl; lia))).
Qed.

Lemma other_server_step s e o m :
  streamOK s -> closing s -> failure (ServerDoes e) = false -> calm (ServerDoes e) = false ->
  managerStep maxBatch (sv s) e = Some (o, m) -> False.
Proof.
  intros Hok [C1 C2 C3 C4 C5 C6 C7] Hf Hca E. unfold managerStep in E.
  rewrite (mo_panicked _ (st_manager _ Hok)) in E. destruct e as [[]|e|[]]; try done.
  - pose proof (st_ends _ Hok) as Hends. rewrite C1 in Hends. simpl in Hends. unfold toEnd in Hends.
    destruct (nt (sv s)) eqn:Hn; try lia. simpl in E. unfold notifyLoopStep in E. by rewrite Hn in E.
  - simpl in E. destruct (out (sv s)); [done|]. by rewrite C6 in E.
  - simpl in E. pose proof (mo_reading _ (st_manager _ Hok)) as Hr. unfold busy in Hr.
    destruct (mctx (sv s)); [|done]. rewrite bool_decide_false in E; [done|]. destruct (srd (sv s)); [lia|lia|done].
Qed.

Lemma closing_step s e s' :
  streamOK s -> closing s -> failure e = false -> streamStep s e = Some s' ->
  ended s' \/ closing s' /\ work s' + (if calm e then 1 else 0) <= work s + (if regroups e then 9 else 0).
Proof.
  intros Hok Hc Hf E. destruct (calm e) eqn:Hca.
  { destruct (calm_step _ _ _ Hok Hc Hca E) as [Hw [H|H]]; [right; split; [done|lia]|by left]. }
  right. destruct e as [|e| |e]; try done.
  - assert (Hd : (forall cd, e <> OfReader (ReadRecord cd)) /\ exists c, connStep protoSize (cl s) e = Some c /\
      s' = mkStream c (up s ++ drop (length (written (cl s))) (written c)) (down s) (sv s)).
    { simpl in E. destruct e as [e|[]|]; try done; destruct (connStep _ _ _) as [c|]; try done; injection E as <-; eauto. }
    destruct Hd as (Hn & c & Hs & ->).
    destruct (other_client_step s e c Hok Hc Hf Hca Hn Hs) as (H1 & H2 & H3 & H4 & H5 & H6). split.
    + destruct Hc as [C1 C2 C3 C4 C5 C6 C7]. split; simpl; congruence.
    + unfold work, readerWork. cbn [cl up down sv]. rewrite H1, H2, drop_all, app_nil_r. lia.
  - exfalso. simpl in E. destruct e as [[c| | | | | |]|e|e]; try done;
      destruct (managerStep _ _ _) as [[o m]|] eqn:Hm; try done; by eapply other_server_step.
Qed.

Lemma ended_step s e s' : ended s -> streamStep s e = Some s' -> ended s'.
Proof.
  intros [E1 E2 E3 E4] E.
  assert (Hcl : forall e c, connStep protoSize (cl s) e = Some c ->
    rd c = ReaderDone /\ (wr c = WaitingCtx \/ wr c = WriterDone) /\ pending c = ∅ /\ acked c = concat (groups c)).
  { clear E. intros e' c. unfold connStep. destruct (panicked (cl s)); [done|]. destruct e' as [e'|e'|e'].
    - unfold writeLoopStep. destruct E2 as [Hw|Hw]; rewrite Hw; destruct e' as [ns [] es| | | | |]; try done.
      destruct (ctxDone (cl s)); [|done]. intros [= <-]. unfold leaveWriter. simpl. auto.
    - unfold readLoopStep. rewrite E1. by destruct e'.
    - destruct e'; simpl; unfold clearStep; repeat case_match; intros; simplify_eq/=; auto. }
  destruct e as [|e| |e]; simpl in E.
  - destruct (down s) as [|cd rest]; [done|]. destruct (connStep _ _ _) as [c|] eqn:Hs; [|done]. injection E as <-.
    apply Hcl in Hs as (? & ? & ? & ?). by split.
  - destruct e as [e|[cd| | |]|e]; try done; destruct (connStep _ _ _) as [c|] eqn:Hs; try done; injection E as <-;
      apply Hcl in Hs as (? & ? & ? & ?); by split.
  - destruct (up s); [done|]. destruct (managerStep _ _ _) as [[]|]; [|done]. injection E as <-. by split.
  - destruct e as [[]| |]; try done; destruct (managerStep _ _ _) as [[]|]; try done; injection E as <-; by split.
Qed.

Lemma takeOut_head {A} `{EqDecision A} (x : A) l : takeOut x (x :: l) = Some l.
Proof. simpl. by rewrite decide_True. Qed.

(** While something is on its way the server or the wire can move it. *)
Lemma server_progress s :
  streamOK s -> closing s -> 0 < maxBatch -> 0 < 7 * length (up s) + serverWork (sv s) ->
  exists s', calmMoves s s'.
Proof.
  intros Hok [C1 C2 C3 C4 C5 C6 C7] Hmax Hw. pose proof (st_manager _ Hok) as Hm.
  assert (Hgo : forall e o m, calm (ServerDoes e) = true -> (forall c, e <> OfReaders (SRead c)) ->
    managerStep maxBatch (sv s) e = Some (o, m) -> exists s', calmMoves s s').
  { intros e o m Hc Hn E. exists (mkStream (cl s) (up s) (down s ++ o) m), (ServerDoes e).
    split; [done|]. simpl. destruct e as [[c| | | | | |]| |]; rewrite ?E; try done. by destruct (Hn c). }
  assert (Hopen : outClosed (sv s) = false).
  { destruct (outClosed (sv s)) eqn:Hoc; [|done]. apply (mo_closed _ Hm) in Hoc.
    rewrite (mo_reading _ Hm) in Hoc. unfold busy in Hoc. destruct (srd (sv s)); simpl in Hoc; [lia|lia|done]. }
  unfold serverWork in Hw. unfold managerStep in Hgo. rewrite (mo_panicked _ Hm) in Hgo.
  destruct (out (sv s)) as [|cd rest] eqn:Ho.
  2:{ eapply (Hgo (OfSWriter SWrite)); [done|done|]. simpl. by rewrite Ho, C6. }
  destruct (acking (sv s)) as [|i rest] eqn:Ha.
  2:{ eapply (Hgo (OfReaders (SAck i))); [done|done|]. cbn [readerStep]. rewrite Ha, takeOut_head.
      unfold sendOut. by rewrite Hopen, Ho. }
  destruct (working (sv s)) as [|[i c] rest] eqn:Hwk.
  2:{ eapply (Hgo (OfReaders (SProcessed i None None))); [done|done|]. simpl. by rewrite Hwk; simpl; rewrite decide_True. }
  pose proof (mo_spawned _ Hm) as Hsp.
  destruct (spawned (sv s)) as [|i rest] eqn:Hs.
  2:{ destruct (batchCh (sv s)) as [|c cs] eqn:Hb; [done|].
      eapply (Hgo (OfReaders (STake i))); [done|done|]. cbn [readerStep]. by rewrite Hs, takeOut_head, Hb. }
  destruct (srd (sv s)) as [|c|] eqn:Hr; [| |done].
  2:{ eapply (Hgo (OfReaders SSpawn)); [done|done|]. simpl. rewrite Hr, decide_True by (rewrite Hsp; done). done. }
  destruct (up s) as [|c rest] eqn:Hu; [simpl in Hw; lia|].
  eexists. exists ServerReads. split; [done|]. simpl. rewrite Hu. unfold managerStep.
  rewrite (mo_panicked _ Hm). simpl. by rewrite Hr.
Qed.

(** Nothing is on its way only when nothing is pending. *)
Lemma nothing_pending s :
  streamOK s -> closing s -> wr (cl s) = WaitingCtx -> up s = [] -> down s = [] -> serverWork (sv s) = 0 ->
  pending (cl s) = ∅.
Proof.
  intros Hok [C1 C2 C3 C4 C5 C6 C7] Hw Hu Hd Hs. pose proof (st_manager _ Hok) as Hm.
  pose proof (st_exact _ Hok C6) as Hex. unfold serverWork in Hs. unfold owed in Hex.
  assert (Hz : length (acking (sv s)) = 0 /\ out (sv s) = [] /\ working (sv s) = [] /\ length (spawned (sv s)) = 0 /\
    inHand (sv s) = []).
  { unfold inHand. destruct (out (sv s)), (working (sv s)), (srd (sv s)); simpl in Hs; (done || lia || (repeat split; lia)). }
  destruct Hz as (Ha & Ho & Hwk & Hsp & Hih). rewrite Ha, Ho, Hd in Hex.
  change (acks []) with 0 in Hex.
  pose proof (Permutation_length (mo_contacts _ Hm)) as Hl.
  unfold inWork in Hl. rewrite C5, Hwk, Hih in Hl.
  rewrite length_zip, length_seq, !length_app, (mo_spawned _ Hm), Hsp in Hl. simpl in Hl.
  assert (Hg : written (cl s) = groups (cl s)).
  { destruct (oo_written _ (st_order _ Hok)) as [_ Hwr]. by rewrite Hw in Hwr. }
  pose proof (st_up _ Hok) as Hup. rewrite Hu, app_nil_r in Hup.
  apply map_empty. intros k. destruct (pending (cl s) !! k) eqn:Hk; [|done]. exfalso.
  assert (Hk' : is_Some (pending (cl s) !! k)) by (by eexists).
  pose proof (oo_later _ (st_order _ Hok) _ Hk'). pose proof (so_keys _ (st_settle _ Hok) _ Hk') as Hlt.
  rewrite (so_cnt _ (st_settle _ Hok)), <- Hg, Hup in Hlt. lia.
Qed.

Lemma calm_progress s : streamOK s -> closing s -> 0 < maxBatch -> exists s', calmMoves s s'.
Proof.
  intros Hok Hc Hmax. pose proof Hc as [C1 C2 C3 C4 C5 C6 C7].
  pose proof (oo_panicked _ (st_order _ Hok)) as Hp. pose proof (so_writing _ (st_settle _ Hok)) as Hwd.
  assert (Hwrite : forall e c, calm (ClientDoes (OfWriter e)) = true -> writeLoopStep protoSize (cl s) e = Some c ->
    exists s', calmMoves s s').
  { intros e c He E. eexists. exists (ClientDoes (OfWriter e)). split; [done|]. simpl. unfold connStep.
    by rewrite Hp, E. }
  destruct (wr (cl s)) as [|g|g| |] eqn:Hw; [| | | |done].
  { eapply (Hwrite (Group None CaseServerDone [])); [done|]. unfold writeLoopStep. rewrite Hw. simpl. by rewrite C1, C2. }
  { eapply (Hwrite Prepare); [done|]. unfold writeLoopStep. by rewrite Hw, C2. }
  { eapply (Hwrite Write); [done|]. unfold writeLoopStep. by rewrite Hw. }
  destruct (rd (cl s)) as [|cd|] eqn:Hr; [| |done].
  2:{ eexists. exists (ClientDoes (OfReader SeesWritingDone)). split; [done|]. simpl. unfold connStep.
      rewrite Hp. unfold readLoopStep. by rewrite Hr, Hwd. }
  destruct (down s) as [|cd rest] eqn:Hd.
  2:{ eexists. exists ClientReads. split; [done|]. simpl. rewrite Hd. unfold connStep. rewrite Hp. simpl.
      by rewrite Hr. }
  destruct (decide (0 < 7 * length (up s) + serverWork (sv s))) as [Hwork|Hwork]; [by apply server_progress|].
  destruct (oo_stage _ (st_order _ Hok) C1 Hr) as [_ []].
  apply nothing_pending; try done; [|lia]. destruct (up s); [done|]. simpl in Hwork. lia.
Qed.

(** C22: once the client of a streaming connection has read that the server is
    done sending, the connection comes to its orderly end, unless a contact is
    refused, a context ends or the network fails.  After any steps without such
    a failure, readLoop has returned and every message the client ever took for
    this connection has been acknowledged, or a step towards this end can be
    taken; and of these the run has had no more than were left at first and nine
    for each group that groupMessages has taken since, which its [select] may do
    as long as messages or beacons are there: so the end is reached under every
    schedule in which it takes the case of the server's end at last. *)
Theorem staged_shutdown_ends s es s' :
  streamReachable s -> 0 < maxBatch -> closing s ->
  streamRun s es = Some s' -> Forall (fun e => failure e = false) es ->
  (rd (cl s') = ReaderDone /\ pending (cl s') = ∅ /\ acked (cl s') = concat (groups (cl s'))) \/
  (countOf calm es + work s' <= work s + 9 * countOf regroups es /\ exists s'', calmMoves s' s'').
Proof.
  intros Hr Hmax Hc Hrun Hf. assert (Hok : streamOK s) by by apply streamOK_reachable. clear Hr.
  assert (H : ended s' \/ closing s' /\ streamOK s' /\ countOf calm es + work s' <= work s + 9 * countOf regroups es).
  { assert (Hend : forall es s, ended s -> streamRun s es = Some s' -> ended s').
    { intros es'. induction es' as [|e es' IH]; simpl; intros s0 He E; [by injection E as <-|].
      destruct (streamStep s0 e) as [s1|] eqn:Hs; [|done]. eapply IH; [by eapply ended_step|done]. }
    unfold countOf. revert s Hok Hc Hrun. induction Hf as [|e es Hfe _ IH]; intros s Hok Hc Hrun; simpl in Hrun.
    { injection Hrun as <-. right. split; [done|]. split; [done|]. simpl. lia. }
    destruct (streamStep s e) as [s1|] eqn:Hs; [|done].
    destruct (closing_step s e s1 Hok Hc Hfe Hs) as [He|[Hc1 Hw]]; [left; by eapply Hend|].
    destruct (IH s1 (streamStep_OK _ _ _ Hok Hs) Hc1 Hrun) as [He|(Hc' & Hok' & Hw')]; [by left|right].
    split; [done|]. split; [done|]. simpl. destruct (calm e), (regroups e); simpl; lia. }
  destruct H as [[]|(Hc' & Hok' & Hw)]; [by left|right]. split; [done|]. by apply calm_progress.
Qed.
End Stream.

(** The contacts of one client are processed concurrently, and an
    acknowledgement that overtakes another, or one that never comes because its
    contact was refused, is counted for the oldest contact: the client ignores
    AckIndex.  Here message 1 is acknowledged to its sender, and lost. *)
Definition overtaken : list (streamEvent (Msg := nat) (In := nat)) :=
  [ClientDoes (OfWriter (Group None (CaseMessage 1) [CaseTimeout])); ClientDoes (OfWriter Prepare);
   ClientDoes (OfWriter Write);
   ClientDoes (OfWriter (Group None (CaseMessage 2) [CaseTimeout])); ClientDoes (OfWriter Prepare);
   ClientDoes (OfWriter Write);
   ServerReads; ServerDoes (OfReaders SSpawn); ServerReads; ServerDoes (OfReaders SSpawn);
   ServerDoes (OfReaders (STake 1)); ServerDoes (OfReaders (STake 2));
   ServerDoes (OfReaders (SRefused 1)); ServerDoes (OfReaders (SProcessed 2 None None));
   ServerDoes (OfReaders (SAck 2)); ServerDoes (OfSWriter SWrite); ClientReads].

Example stream_acknowledges_refused :
  exists s, streamRun (fun _ => 8%Z) 10 (streamInit false) overtaken = Some s /\
    acked (cl s) = [1] /\ handled (sv s) = [(2, [2])] /\ failed (sv s) = [(1, [1])].
Proof. eexists. split; [vm_compute; reflexivity|]. done. Qed.

(** Capacity of batchCh does not bound the goroutines: three contacts are in
    processOne although [maxBatch] is 1. *)
Definition manyBatches : list (streamEvent (Msg := nat) (In := nat)) :=
  flat_map (fun i => [ClientDoes (OfWriter (Group None (CaseMessage i) [CaseTimeout]));
    ClientDoes (OfWriter Prepare); ClientDoes (OfWriter Write); ServerReads;
    ServerDoes (OfReaders SSpawn); ServerDoes (OfReaders (STake i))]) [1; 2; 3].

Example batches_are_not_bounded :
  exists s, streamRun (fun _ => 8%Z) 1 (streamInit false) manyBatches = Some s /\ length (working (sv s)) = 3.
Proof. eexists. split; [vm_compute; reflexivity|]. done. Qed.

(** A failed write does not end the stream: writeLoop cancels the context only
    if it is done already, and discards what follows.  The contact is processed
    and its acknowledgement never sent. *)
Definition deadWriter : list (streamEvent (Msg := nat) (In := nat)) :=
  [ServerDoes (OfNotifier NNotice); ServerDoes (OfNotifier NSettled);
   ServerDoes (OfNotifier (NGot (Some [7]) false)); ServerDoes (OfNotifier NSend);
   ServerDoes (OfSWriter SWriteFails);
   ClientDoes (OfWriter (Group None (CaseMessage 1) [CaseTimeout])); ClientDoes (OfWriter Prepare);
   ClientDoes (OfWriter Write); ServerReads; ServerDoes (OfReaders SSpawn);
   ServerDoes (OfReaders (STake 1)); ServerDoes (OfReaders (SProcessed 1 None None));
   ServerDoes (OfReaders (SAck 1)); ServerDoes (OfSWriter SDiscard)].

Example stream_outlives_its_writer :
  exists s, streamRun (fun _ => 8%Z) 10 (streamInit false) deadWriter = Some s /\
    mctx (sv s) = false /\ swriting (sv s) = false /\ handled (sv s) = [(1, [1])] /\
    out (sv s) = [] /\ down s = [] /\ acked (cl s) = [].
Proof. eexists. split; [vm_compute; reflexivity|]. done. Qed.

Definition inOrder : list (streamEvent (Msg := nat) (In := nat)) :=
  [ClientDoes (OfWriter (Group None (CaseMessage 1) [CaseMore 2; CaseTimeout])); ClientDoes (OfWriter Prepare);
   ClientDoes (OfWriter Write); ServerReads; ServerDoes (OfReaders SSpawn);
   ServerDoes (OfReaders (STake 1)); ServerDoes (OfReaders (SProcessed 1 None None));
   ServerDoes (OfReaders (SAck 1)); ServerDoes (OfSWriter SWrite); ClientReads].

Lemma stream_acks_spec_witness :
  exists s, streamRun (fun _ => 8%Z) 10 (streamInit false) inOrder = Some s /\ acked (cl s) = [1; 2] /\
    forall m, m ∈ acked (cl s) -> exists k g, (k, g) ∈ handled (sv s) /\ m ∈ g.
Proof.
  eexists. split; [vm_compute; reflexivity|]. split; [done|].
  refine (proj2 (proj2 (proj2 (proj2 (proj2 (proj2
    (stream_acks_spec (fun _ : nat => 8%Z) 10 _ _)))))) _).
  - exists false. apply (streamRun_rtc _ _ _ inOrder). vm_compute. reflexivity.
  - reflexivity.
Defined.

Definition endOfStream : list (streamEvent (Msg := nat) (In := nat)) :=
  [ClientDoes (OfWriter (Group None (CaseMessage 1) [CaseMore 2; CaseTimeout])); ClientDoes (OfWriter Prepare);
   ClientDoes (OfWriter Write); ServerDoes (OfNotifier NStop); ServerDoes (OfNotifier NSend);
   ServerDoes (OfSWriter SWrite);
   ClientDoes (OfWriter (Group None (CaseMessage 3) [CaseTimeout])); ClientReads].

(** From here the client takes one more message, and then comes to the end. *)
Definition orderlyEnd : list (streamEvent (Msg := nat) (In := nat)) :=
  [ClientDoes (OfWriter Prepare); ClientDoes (OfWriter Write);
   ClientDoes (OfWriter (Group None (CaseMessage 4) [CaseTimeout])); ClientDoes (OfWriter Prepare);
   ClientDoes (OfWriter Write); ClientDoes (OfWriter (Group None CaseServerDone []))].

Lemma staged_shutdown_ends_witness :
  exists s s', streamRun (fun _ => 8%Z) 10 (streamInit false) endOfStream = Some s /\ closing s /\
    streamRun (fun _ => 8%Z) 10 s orderlyEnd = Some s' /\ rd (cl s') <> ReaderDone /\
    exists s'', calmMoves (fun _ => 8%Z) 10 s' s''.
Proof.
  eexists _, _. split; [vm_compute; reflexivity|]. split; [split; (reflexivity || discriminate)|].
  split; [vm_compute; reflexivity|]. split; [discriminate|].
  refine (or_ind _ _ (staged_shutdown_ends (fun _ : nat => 8%Z) 10 _ orderlyEnd _ _ _ _ _ _)); cycle 2.
  - exists false. apply (streamRun_rtc _ _ _ endOfStream). vm_compute. reflexivity.
  - lia.
  - split; (reflexivity || discriminate).
  - vm_compute. reflexivity.
  - repeat constructor.
  - intros [H _]. discriminate H.
  - intros [_ H]. exact H.
Defined.
