(* ===== verification/Polling.v ===== *)
(** * The polling communicator of the client: src/client/https/polling.go

    processingLoop as a state machine: an event is what the loop waits for, the
    return of a poll, or a call of Reset, Flush or Stop from another goroutine.
    Times are nanoseconds; a point in time that was never set is Go's zero
    time.  The channels pollDone has held are numbered, and so are the contexts:
    configure makes a new one when the client has got a new id. *)
From S2P Require Import Prelude ClientHosts.

(** time.Time{} in nanoseconds since the Unix epoch. *)
Definition zeroTime : Z := (- 62135596800 * 1000000000)%Z.
Definition isZero (t : Z) : bool := (t =? zeroTime)%Z.

(** ** When to poll next

    The jittered delays are arguments. *)
Definition nextDeadline (lastPoll pollDelay lastActive oldestUnsent bufferDelay now : Z) : Z :=
  let deadline := (lastPoll + pollDelay)%Z in
  let deadline :=
    if isZero lastActive then deadline
    else let fpd := (lastPoll + (200 * 1000000 + Z.quot (now - lastActive) 10))%Z in
         if (fpd <? deadline)%Z then fpd else deadline in
  if isZero oldestUnsent then deadline
  else let bd := (oldestUnsent + bufferDelay)%Z in
       if (bd <? deadline)%Z then bd else deadline.

(** What is buffered waits at most the buffer delay, and the next poll comes
    after the poll delay at the latest; after something was received the
    delay grows with a tenth of the time since. *)
Lemma nextDeadline_bounds lastPoll pd lastActive oldest bd now :
  let d := nextDeadline lastPoll pd lastActive oldest bd now in
  (d <= lastPoll + pd)%Z /\ (oldest <> zeroTime -> d <= oldest + bd)%Z /\
  (lastActive <> zeroTime -> d <= lastPoll + 200 * 1000000 + Z.quot (now - lastActive) 10)%Z.
Proof.
  unfold nextDeadline, isZero. destruct (Z.eqb_spec lastActive zeroTime), (Z.eqb_spec oldest zeroTime);
    repeat case_match; rewrite ?Z.ltb_lt, ?Z.ltb_ge in *; repeat split; intros; (lia || done).
Qed.

Section Poller.
Context {Msg : Type} (protoSize : Msg -> Z) (background : Msg -> bool).

(** ** One poll

    [made] is what MakeContactData and proto.Marshal return, [process] what
    ProcessContactData returns; a host's answer is its number of messages. *)
Definition poll (toSend : list Msg) (made : option goerror) (attempt : nat -> string -> outcome nat)
    (ctxErr : nat -> bool) (process : option goerror) (hosts : list string) :
    (bool + goerror) * list string :=
  let sent := existsb (fun m => negb (background m)) toSend in
  match made with
  | Some e => (inr e, hosts)
  | None =>
      match tryHosts attempt ctxErr hosts with
      | (Reached _ n, hosts') =>
          match process with
          | Some e => (inr e, hosts')
          | None => (inl (sent || negb (n =? 0)), hosts')
          end
      | (Stopped, hosts') => (inr (ErrText "context canceled"), hosts')
      | (Unreachable, hosts') => (inr (ErrText "unable to contact any server"), hosts')
      end
  end.

(** ** processingLoop *)

(** After a poll the loop goes on or, in the case of the context, returns. *)
Inductive afterPoll := Continue | Return.

Inductive point :=
| Top
| Waiting
| Checking (myDone : nat) (k : afterPoll)   (* is the client's id still c.id? *)
| InPoll (myDone : nat) (dead : bool) (k : afterPoll)
| Sleeping (myDone : nat) (err : goerror) (k : afterPoll)
| LoopReturned.

(** Flush: at the top of its loop, at its [select], returned; with the number
    of messages received from the outbox when it was called.  At the [select]
    it has read c.pollDone and c.ctx.  It returns c.lastPollErr, or what a
    context that is done tells. *)
Inductive flushResult :=
| FlushPolled (err : option goerror)
| FlushGaveUp (err : option goerror).

Inductive flushPoint :=
| NoFlush
| FlushLooks (n : nat)
| FlushWaits (done ctx : nat) (n : nat)
| FlushReturns (n : nat) (res : flushResult).

Record poller := mkPoller {
  pt : point;
  toSend : list Msg;
  toSendSize : Z;
  lastPoll : Z;
  oldestUnsent : Z;
  lastActive : Z;
  (** c.pollDone, and which of the channels made so far are closed. *)
  pollDone : nat;
  chans : list bool;
  lastPollErr : option goerror;
  (** c.pollCancel is set, and has been called. *)
  polling : bool;
  reqCanceled : bool;
  (** The parent of the request's context is no longer c.ctx. *)
  reqOld : bool;
  wakeUp : bool;
  (** c.ctx is done; which of the contexts before it are. *)
  pctxDone : bool;
  oldCtxs : list bool;
  (** log.Fatalf, or a panic. *)
  crashed : bool;
  flush : flushPoint;
  (** History: messages received from the outbox; settled messages in order;
      among them the acknowledged ones. *)
  fromOutbox : list Msg;
  settled : list Msg;
  packed : list Msg;
  pnacked : list Msg;
}.

#[export] Instance poller_eta : Eta poller := fun p =>
  mkPoller (pt p) (toSend p) (toSendSize p) (lastPoll p) (oldestUnsent p) (lastActive p) (pollDone p)
    (chans p) (lastPollErr p) (polling p) (reqCanceled p) (reqOld p) (wakeUp p) (pctxDone p) (oldCtxs p)
    (crashed p) (flush p) (fromOutbox p) (settled p) (packed p) (pnacked p).

Definition pollerInit : poller :=
  mkPoller Top [] 0 zeroTime zeroTime zeroTime 0 [true] None false false false false false [] false NoFlush
    [] [] [] [].

Definition isClosed (i : nat) (p : poller) : bool := default false (chans p !! i).

(** The context with number c; the last one is c.ctx. *)
Definition ctxIsDone (c : nat) (p : poller) : bool := default (pctxDone p) (oldCtxs p !! c).

(** A new open channel in c.pollDone. *)
Definition newDone (p : poller) : poller :=
  p <| pollDone := length (chans p) |> <| chans := chans p ++ [false] |>.

Definition renewIfClosed (p : poller) : poller := if isClosed (pollDone p) p then newDone p else p.

(** The first critical section of [poll]. *)
Definition enterPoll (k : afterPoll) (p : poller) : poller :=
  let p := renewIfClosed p in
  p <| polling := true |> <| reqCanceled := pctxDone p |> <| reqOld := false |>
    <| pt := Checking (pollDone p) k |>.

(** The end of configure: a context that is not done and a channel for Reset. *)
Definition configure (p : poller) : poller :=
  p <| oldCtxs := oldCtxs p ++ [pctxDone p] |> <| pctxDone := false |> <| reqOld := true |> <| wakeUp := false |>.

(** Acks or nacks all of toSend and forgets it. *)
Definition settleAll (ack : bool) (p : poller) : poller :=
  let p := if ack then p <| packed := packed p ++ toSend p |> else p <| pnacked := pnacked p ++ toSend p |> in
  p <| settled := settled p ++ toSend p |> <| toSend := [] |> <| toSendSize := 0%Z |>
    <| oldestUnsent := zeroTime |>.

(** The deferred nacks of processingLoop. *)
Definition leaveLoop (p : poller) : poller := (settleAll false p) <| pt := LoopReturned |>.

(** The deferred function of [poll]; closing a closed channel panics. *)
Definition leavePoll (myDone : nat) (err : option goerror) (k : afterPoll) (p : poller) : poller :=
  if isClosed myDone p then p <| crashed := true |>
  else
    let p := p <| polling := false |> <| lastPollErr := err |> <| chans := <[myDone := true]> (chans p) |> in
    match k with Continue => p <| pt := Top |> | Return => leaveLoop p end.

Inductive pollEvent :=
| TurnTop (pollDelay bufferDelay now : Z)
| SeesDone                     (* <-c.ctx.Done() *)
| Timer
| WokenUp
| Receives (m : Msg) (now : Z)
| SameId                       (* or configure fails *)
| Configures
| PollOk (active : bool) (now : Z)
| PollCanceled (e : goerror)   (* the request context was canceled *)
| PollFails (e : goerror) (now : Z)
| SleepOver | SleepDone | SleepWoken
| Stop                         (* c.done() *)
| Reset
| Flush
| FlushReadsDone               (* done := c.pollDone *)
| FlushSeesDone
| FlushSeesCtx (e : goerror)   (* <-c.ctx.Done() *)
| FlushCtx (e : goerror).

Definition overThreshold (p : poller) : bool :=
  (sendBytesThreshold <=? toSendSize p)%Z || (sendCountThreshold <=? length (toSend p)).

Definition processingStep (suicide : Z) (p : poller) (e : pollEvent) : option poller :=
  match pt p, e with
  | Top, TurnTop pd bd now =>
      if pctxDone p then Some (leaveLoop p)
      else
        let deadline := nextDeadline (lastPoll p) pd (lastActive p) (oldestUnsent p) bd now in
        if (deadline <? now)%Z || (sendBytesThreshold <? toSendSize p)%Z
           || (sendCountThreshold <=? length (toSend p))
        then Some (enterPoll Continue p) else Some (p <| pt := Waiting |>)
  | Waiting, SeesDone =>
      if pctxDone p then
        Some (if (0 <? toSendSize p)%Z then enterPoll Return p else leaveLoop p)
      else None
  | Waiting, Timer => Some (enterPoll Continue p)
  | Waiting, WokenUp =>
      if wakeUp p then Some (enterPoll Continue (p <| wakeUp := false |>)) else None
  | Waiting, Receives m now =>
      let p := renewIfClosed p in
      let p := p <| fromOutbox := fromOutbox p ++ [m] |> <| toSend := toSend p ++ [m] |>
                 <| toSendSize := wrapI64 (toSendSize p + (2 + protoSize m)) |> in
      Some (if overThreshold p then enterPoll Continue p
            else (if isZero (oldestUnsent p) then p <| oldestUnsent := now |> else p) <| pt := Top |>)
  | Checking myDone k, SameId => Some (p <| pt := InPoll myDone (reqCanceled p) k |>)
  | Checking myDone k, Configures => Some ((configure p) <| pt := InPoll myDone (reqCanceled p) k |>)
  | InPoll myDone dead k, PollOk active now =>
      if dead then None
      else
        let p := settleAll true p in
        let p := p <| lastPoll := now |> in
        let p := if active then p <| lastActive := now |> else p in
        Some (leavePoll myDone None k p)
  | InPoll myDone _ k, PollCanceled e =>
      if reqCanceled p && negb (pctxDone p) then Some (leavePoll myDone (Some e) k p) else None
  | InPoll myDone _ k, PollFails e now =>
      let p := settleAll false p in
      if negb (isZero (lastPoll p)) && (suicide <? now - lastPoll p)%Z then Some (p <| crashed := true |>)
      else Some (p <| pt := Sleeping myDone e k |>)
  | Sleeping myDone e k, SleepOver => Some (leavePoll myDone (Some e) k p)
  | Sleeping myDone e k, SleepDone => if pctxDone p then Some (leavePoll myDone (Some e) k p) else None
  | Sleeping myDone e k, SleepWoken =>
      if wakeUp p then Some (leavePoll myDone (Some e) k (p <| wakeUp := false |>)) else None
  | _, _ => None
  end.

(** The calls of other goroutines. *)
Definition callStep (p : poller) (e : pollEvent) : option poller :=
  match e, flush p with
  | Stop, _ => Some (p <| pctxDone := true |> <| reqCanceled := reqCanceled p || (polling p && negb (reqOld p)) |>)
  | Reset, _ => Some ((newDone (p <| reqCanceled := reqCanceled p || polling p |>)) <| wakeUp := true |>)
  | Flush, (NoFlush | FlushReturns _ _) => Some (p <| flush := FlushLooks (length (fromOutbox p)) |>)
  | FlushReadsDone, FlushLooks n => Some (p <| flush := FlushWaits (pollDone p) (length (oldCtxs p)) n |>)
  | FlushSeesDone, FlushWaits done _ n =>
      if isClosed done p then
        Some (if bool_decide (is_Some (lastPollErr p)) && negb (pollDone p =? done)
              then p <| flush := FlushLooks n |>
              else p <| flush := FlushReturns n (FlushPolled (lastPollErr p)) |>)
      else None
  | FlushSeesCtx e, FlushWaits _ c n =>
      if ctxIsDone c p then Some (p <| flush := FlushReturns n (FlushGaveUp (if pctxDone p then Some e else None)) |>)
      else None
  | FlushCtx e, FlushWaits _ _ n => Some (p <| flush := FlushReturns n (FlushGaveUp (Some e)) |>)
  | _, _ => None
  end.

Definition pollerStep (suicide : Z) (p : poller) (e : pollEvent) : option poller :=
  if crashed p then None
  else match e with
       | Stop | Reset | Flush | FlushReadsDone | FlushSeesDone | FlushSeesCtx _ | FlushCtx _ => callStep p e
       | _ => processingStep suicide p e
       end.

Definition pollerMoves (suicide : Z) (p p' : poller) : Prop := exists e, pollerStep suicide p e = Some p'.
Definition pollerReachable (suicide : Z) : poller -> Prop := rtc (pollerMoves suicide) pollerInit.

Fixpoint pollerRun (suicide : Z) (p : poller) (es : list pollEvent) : option poller :=
  match es with
  | [] => Some p
  | e :: es => match pollerStep suicide p e with Some p' => pollerRun suicide p' es | None => None end
  end.
End Poller.

(** ** What always holds *)
Section PollerOK.
Context {Msg : Type} (protoSize : Msg -> Z) (suicide maxMsg : Z).
Context (Hsize : forall m, (0 <= protoSize m <= maxMsg)%Z) (Hmax : (0 <= maxMsg < 2 ^ 31)%Z).
Implicit Types p : poller (Msg := Msg).

Definition bufferBytes (l : list Msg) : Z := sumZ ((fun m => 2 + protoSize m)%Z <$> l).

(** The channel a poll in progress will close. *)
Definition currentDone p : option nat :=
  match pt p with Checking d _ | InPoll d _ _ | Sleeping d _ _ => Some d | _ => None end.

(** A poll whose request may have been cancelled and which has not reported yet. *)
Definition requesting p : option nat :=
  match pt p with Checking d _ | InPoll d _ _ => Some d | _ => None end.

(** The client has got a new id since it started. *)
Definition rekeyed p : Prop := oldCtxs p <> [].

Record buffersOK p : Prop := {
  bo_split : fromOutbox p = settled p ++ toSend p;
  bo_settled : settled p ≡ₚ packed p ++ pnacked p;
  bo_size : toSendSize p = bufferBytes (toSend p);
  bo_bound : length (toSend p) <= sendCountThreshold /\
    (toSendSize p <= sendBytesThreshold + maxMsg + 2)%Z;
  bo_waiting : pt p = Waiting -> length (toSend p) < sendCountThreshold /\ (toSendSize p <= sendBytesThreshold)%Z;
  bo_empty d e k : pt p = Sleeping d e k -> toSend p = [];
  bo_returned : pt p = LoopReturned -> toSend p = [];
}.

Record channelsOK p : Prop := {
  co_done : pollDone p < length (chans p);
  co_open : toSend p <> [] -> isClosed (pollDone p) p = false \/ (rekeyed p /\ is_Some (lastPollErr p));
  co_current d : currentDone p = Some d -> d < length (chans p) /\ isClosed d p = false;
  co_canceled d : requesting p = Some d -> reqCanceled p = true -> pctxDone p = false -> pollDone p <> d \/ rekeyed p;
}.

Definition flushOK p : Prop :=
  match flush p with
  | NoFlush => True
  | FlushLooks n => n <= length (fromOutbox p)
  | FlushWaits d c n => n <= length (fromOutbox p) /\ d < length (chans p) /\ c <= length (oldCtxs p) /\
      (isClosed d p = true -> n <= length (settled p) \/ is_Some (lastPollErr p) /\ (pollDone p <> d \/ rekeyed p))
  | FlushReturns n (FlushPolled err) => n <= length (settled p) \/ is_Some err /\ rekeyed p
  | FlushReturns n (FlushGaveUp err) => is_Some err \/ rekeyed p
  end.

Record pollerOK p : Prop := {
  po_buffers : buffersOK p;
  po_channels : channelsOK p;
  po_flush : flushOK p;
  po_crashed : crashed p = true -> toSend p = [] /\ lastPoll p <> zeroTime;
}.

Lemma pollerOK_init : pollerOK pollerInit.
Proof using Hsize Hmax. split; [split|split| |]; simpl; try done; try lia. split; [lia|]. unfold sendBytesThreshold. lia. Qed.

(** *** Channels *)
Lemma isClosed_newDone d p : d < length (chans p) -> isClosed d (newDone p) = isClosed d p.
Proof. intros Hd. unfold isClosed, newDone. simpl. by rewrite lookup_app_l. Qed.

Lemma isClosed_new p : isClosed (pollDone (newDone p)) (newDone p) = false.
Proof. unfold isClosed, newDone. simpl. by rewrite lookup_app_r, Nat.sub_diag. Qed.

Lemma newDone_OK p b r : pollerOK p -> pollerOK ((newDone (p <| reqCanceled := r |>)) <| wakeUp := b |>).
Proof using Hsize Hmax.
  intros [[B1 B2 B3 B4 B5 B6 B7] [C1 C2 C3 C4] F X]. split; [by split|split| |done]; simpl.
  - rewrite length_app. simpl. lia.
  - intros _. left. apply isClosed_new.
  - intros d Hd. destruct (C3 d Hd) as [H1 H2]. rewrite length_app. split; [lia|].
    exact (eq_trans (isClosed_newDone d p H1) H2).
  - intros d Hp _ _. left. assert (Hd : currentDone p = Some d).
    { unfold currentDone, requesting in *. simpl in Hp. by destruct (pt p). }
    destruct (C3 d Hd). lia.
  - unfold flushOK in *. simpl. destruct (flush p) as [|n|d c n|n err]; try done.
    destruct F as (F1 & F2 & F4 & F3). rewrite length_app. split; [done|]. split; [lia|]. split; [done|].
    intros Hc. assert (Hc' : isClosed d p = true) by (rewrite <- Hc; symmetry; by apply (isClosed_newDone d p)).
    destruct (F3 Hc') as [|[]]; [by left|right]. split; [done|left; lia].
Qed.

Lemma renew_OK p : pollerOK p ->
  pollerOK (renewIfClosed p) /\ isClosed (pollDone (renewIfClosed p)) (renewIfClosed p) = false /\
  pt (renewIfClosed p) = pt p /\ crashed (renewIfClosed p) = crashed p.
Proof using Hsize Hmax.
  intros Hok. unfold renewIfClosed. destruct (isClosed (pollDone p) p) eqn:Hc; [|done].
  split; [apply (newDone_OK p (wakeUp p) (reqCanceled p) Hok)|]. split; [apply isClosed_new|done].
Qed.

(** A change of [pt] and the flags around it. *)
Lemma pollerOK_pt p s b c o x :
  pollerOK p -> currentDone p = None ->
  (s = Top \/ (exists k, s = Checking (pollDone p) k /\ isClosed (pollDone p) p = false /\ c = pctxDone p) \/
   s = Waiting /\ length (toSend p) < sendCountThreshold /\ (toSendSize p <= sendBytesThreshold)%Z) ->
  pollerOK (p <| polling := b |> <| reqCanceled := c |> <| reqOld := o |> <| oldestUnsent := x |> <| pt := s |>).
Proof using Hsize Hmax.
  intros [[B1 B2 B3 B4 B5 B6 B7] [C1 C2 C3 C4] F X] Hcur Hs. split; [split|split| |]; simpl; try done.
  - intros ->. naive_solver.
  - intros d e k ->. naive_solver.
  - intros ->. naive_solver.
  - intros d Hd. unfold currentDone in Hd. simpl in Hd. destruct Hs as [->|[(k & -> & Hc & _)|[-> _]]]; try done.
    injection Hd as <-. done.
  - intros d Hd Hc Hx. unfold requesting in Hd. simpl in Hd.
    destruct Hs as [->|[(k & -> & _ & ->)|[-> _]]]; try done. congruence.
Qed.

Lemma enterPoll_OK k p : pollerOK p -> currentDone p = None -> pollerOK (enterPoll k p).
Proof using Hsize Hmax.
  intros Hok Hcur. unfold enterPoll. destruct (renew_OK p Hok) as (H1 & H2 & H3 & _).
  apply (pollerOK_pt (renewIfClosed p) (Checking (pollDone (renewIfClosed p)) k) true
    (pctxDone (renewIfClosed p)) false (oldestUnsent (renewIfClosed p))); [done| |].
  - unfold currentDone in *. by rewrite H3.
  - right; left. by exists k.
Qed.

(** Settling what is buffered. *)
Lemma settleAll_OK ack p : pollerOK p -> pollerOK (settleAll ack p) /\ toSend (settleAll ack p) = [].
Proof using Hsize Hmax.
  intros [[B1 B2 B3 B4 B5 B6 B7] [C1 C2 C3 C4] F X]. split; [|by destruct ack].
  assert (Hb : (0 < sendBytesThreshold)%Z) by done. pose proof sendCountThreshold_pos as Hc.
  assert (Hz : 0 <= sendCountThreshold /\ (0 <= sendBytesThreshold + maxMsg + 2)%Z) by lia.
  assert (HF : forall p', flush p' = flush p -> fromOutbox p' = fromOutbox p -> chans p' = chans p ->
    lastPollErr p' = lastPollErr p -> pollDone p' = pollDone p -> oldCtxs p' = oldCtxs p ->
    (settled p' = settled p ++ toSend p) -> flushOK p').
  { intros p' E1 E2 E3 E4 E5 E7 E6. unfold flushOK, rekeyed, isClosed in *.
    rewrite E1, E2, E3, E4, E5, E6, E7, length_app.
    destruct (flush p) as [|n|d c n|n [err|err]]; try done; [|destruct F; [left; lia|by right]].
    destruct F as (F1 & F2 & F4 & F3). repeat split; [done..|]. intros Hd. destruct (F3 Hd); [left; lia|by right]. }
  split; [split|split| |]; destruct ack; simpl; try done; rewrite ?app_nil_r; try done; try (by apply HF).
  - rewrite B2, <- !app_assoc. apply Permutation_app_head, Permutation_app_comm.
  - by rewrite B2, <- app_assoc.
  - intros Hx. by destruct (X Hx).
  - intros Hx. by destruct (X Hx).
Qed.

Lemma leaveLoop_OK p : pollerOK p -> pollerOK (leaveLoop p).
Proof using Hsize Hmax.
  intros Hok. unfold leaveLoop. destruct (settleAll_OK false p Hok) as [[[B1 B2 B3 B4 B5 B6 B7] [C1 C2 C3 C4] F X] He].
  set (q := settleAll false p) in *. split; [by split|split| |]; try done.
Qed.

(** The end of a poll closes its channel. *)
Lemma leavePoll_OK d err k p :
  pollerOK p -> currentDone p = Some d -> (toSend p = [] \/ (pollDone p <> d \/ rekeyed p) /\ is_Some err) ->
  pollerOK (leavePoll d err k p) /\ crashed (leavePoll d err k p) = crashed p.
Proof using Hsize Hmax.
  intros Hok Hcur He. pose proof Hok as [[B1 B2 B3 B4 B5 B6 B7] [C1 C2 C3 C4] F X].
  destruct (C3 d Hcur) as [Hd Ho]. unfold leavePoll. rewrite Ho.
  set (q := (p <| polling := false |> <| lastPollErr := err |> <| chans := <[d := true]> (chans p) |>) <| pt := Top |>).
  assert (Hq : pollerOK q).
  { split; [by split|split| |done]; simpl; rewrite ?length_insert; try done.
    - intros Hne. destruct He as [|[[He|He] Herr]]; [done| |by right]. unfold isClosed in *. simpl.
      rewrite list_lookup_insert_ne by done. destruct (C2 Hne) as [|[Hre _]]; [by left|by right].
    - unfold flushOK in *. simpl. destruct (flush p) as [|n|d' c n|n err']; try done.
      destruct F as (F1 & F2 & F4 & F3). rewrite length_insert. split; [done|]. split; [done|]. split; [done|].
      destruct He as [He|[He Herr]]; [intros _; left; rewrite B1, He, app_nil_r in F1; done|].
      intros Hc. destruct (decide (d' = d)) as [->|Hne]; [by right|].
      unfold isClosed in Hc, F3. simpl in Hc. rewrite list_lookup_insert_ne in Hc by done.
      destruct (F3 Hc) as [|[]]; [by left|by right]. }
  destruct k; [done|]. split; [|done]. by apply (leaveLoop_OK q) in Hq.
Qed.

(** A message is received. *)
Lemma receive_OK p m x :
  pollerOK p -> pt p = Waiting -> crashed p = false ->
  pollerOK ((renewIfClosed p) <| fromOutbox := fromOutbox (renewIfClosed p) ++ [m] |>
    <| toSend := toSend (renewIfClosed p) ++ [m] |>
    <| toSendSize := wrapI64 (toSendSize (renewIfClosed p) + (2 + protoSize m)) |>
    <| oldestUnsent := x |> <| pt := Top |>).
Proof using Hsize Hmax.
  intros Hok Hp Hcr. destruct (renew_OK p Hok) as (Hok1 & Hopen & Hpt & Hq). rewrite Hp in Hpt. rewrite Hcr in Hq.
  set (q := renewIfClosed p) in *. destruct Hok1 as [[B1 B2 B3 B4 B5 B6 B7] [C1 C2 C3 C4] F X].
  destruct (B5 Hpt) as [Hl Hs]. pose proof (Hsize m) as Hm.
  assert (H0 : (0 <= toSendSize q)%Z).
  { rewrite B3. apply sumZ_nonneg, Forall_fmap, Forall_forall. intros y _. simpl. pose proof (Hsize y). lia. }
  assert (Hb : (sendBytesThreshold < 2 ^ 24)%Z) by done.
  split; [split|split| |]; simpl; rewrite ?wrapI64_small by lia; try done.
  - by rewrite B1, app_assoc.
  - unfold bufferBytes in *. rewrite fmap_app, sumZ_app. simpl. lia.
  - rewrite length_app. simpl. lia.
  - by left.
  - unfold flushOK, rekeyed, isClosed in *. simpl. rewrite length_app.
    destruct (flush q) as [|n|d c n|n err]; try done; [lia|]. destruct F as (F1 & F2 & F3).
    split; [lia|]. by split.
  - congruence.
Qed.

Lemma pollFails_OK d dead k e p :
  pollerOK p -> pt p = InPoll d dead k -> pollerOK ((settleAll false p) <| pt := Sleeping d e k |>).
Proof using Hsize Hmax.
  intros Hok Hp. destruct (settleAll_OK false p Hok) as [[[B1 B2 B3 B4 B5 B6 B7] [C1 C2 C3 C4] F X] He].
  split; [split|split| |]; try done. simpl. intros d' Hd. apply C3. unfold currentDone in *.
  simpl in *. by rewrite Hp.
Qed.

(** The id of the client is looked at. *)
Lemma request_OK d k p dead : pollerOK p -> pt p = Checking d k -> pollerOK (p <| pt := InPoll d dead k |>).
Proof using Hsize Hmax.
  intros [[B1 B2 B3 B4 B5 B6 B7] [C1 C2 C3 C4] F X] Hp. split; [by split|split|done|done]; try done; simpl.
  - intros d' Hd. apply C3. unfold currentDone. by rewrite Hp.
  - intros d' Hd. apply C4. unfold requesting. by rewrite Hp.
Qed.

Lemma configure_OK p : pollerOK p -> pollerOK (configure p).
Proof using Hsize Hmax.
  intros [[B1 B2 B3 B4 B5 B6 B7] [C1 C2 C3 C4] F X].
  assert (Hre : rekeyed (configure p)) by (unfold rekeyed; simpl; intros H; by apply app_eq_nil in H as [_ H]).
  split; [by split|split|unfold flushOK in *|done]; try done; simpl.
  - intros Hne. destruct (C2 Hne) as [|[_ ?]]; [by left|by right].
  - intros d _ _ _. by right.
  - destruct (flush p) as [|n|d c n|n [err|err]]; try done.
    + destruct F as (F1 & F2 & F3 & F4). rewrite length_app. split; [done|]. split; [done|]. split; [lia|].
      intros Hc. destruct (F4 Hc) as [|[? _]]; [by left|by right; split; [|right]].
    + destruct F as [|[? _]]; [by left|by right].
    + by right.
Qed.

Lemma enterPoll_pt k p s : enterPoll k (p <| oldestUnsent := oldestUnsent p |> <| pt := s |>) = enterPoll k p.
Proof.
  unfold enterPoll, renewIfClosed, newDone, isClosed. simpl. by destruct (default false _).
Qed.

Lemma processingStep_OK p e p' :
  pollerOK p -> crashed p = false -> processingStep protoSize suicide p e = Some p' -> pollerOK p'.
Proof using Hsize Hmax.
  intros Hok Hcr E. unfold processingStep in E.
  assert (Hcur : forall d, (exists x k, pt p = InPoll d x k) \/ (exists x k, pt p = Sleeping d x k) -> currentDone p = Some d).
  { unfold currentDone. by intros d [(x & k & ->)|(x & k & ->)]. }
  destruct (pt p) as [| |d k|d dead k|d err k|] eqn:Hp; destruct e as [pd bd now| | | |m now| | |a now|e|e now| | | | | | | | |e|e]; try done.
  - destruct (pctxDone p); [injection E as <-; by apply leaveLoop_OK|].
    destruct (_ || _) eqn:Ht; injection E as <-.
    { apply enterPoll_OK; [done|]. unfold currentDone. by rewrite Hp. }
    apply orb_false_iff in Ht as [[_ Hs%Z.ltb_ge]%orb_false_iff Hl%Nat.leb_gt].
    apply (pollerOK_pt p Waiting (polling p) (reqCanceled p) (reqOld p) (oldestUnsent p)); [done| |auto].
    unfold currentDone. by rewrite Hp.
  - destruct (pctxDone p); [|done]. injection E as <-. case_match; [|by apply leaveLoop_OK].
    apply enterPoll_OK; [done|]. unfold currentDone. by rewrite Hp.
  - injection E as <-. apply enterPoll_OK; [done|]. unfold currentDone. by rewrite Hp.
  - destruct (wakeUp p); [|done]. injection E as <-.
    assert (Hok' : pollerOK (p <| wakeUp := false |>)) by (destruct Hok as [[] [] ? ?]; by split).
    apply enterPoll_OK; [done|]. unfold currentDone. simpl. by rewrite Hp.
  - pose proof (fun x => receive_OK p m x Hok Hp Hcr) as Hr. injection E as <-.
    destruct (overThreshold _).
    + rewrite <- (enterPoll_pt _ _ Top). apply enterPoll_OK; [apply Hr|done].
    + case_match; [apply Hr|apply (Hr (oldestUnsent (renewIfClosed p)))].
  - injection E as <-. by apply request_OK.
  - injection E as <-. apply (request_OK d k (configure p)); [by apply configure_OK|exact Hp].
  - destruct dead; [done|]. injection E as <-. destruct (settleAll_OK true p Hok) as [Hok' He].
    assert (Hq : forall x y, pollerOK ((settleAll true p) <| lastPoll := x |> <| lastActive := y |>)).
    { intros x y. destruct Hok' as [[] [] ? Hx]. split; [by split|by split|done|]. simpl. by rewrite Hcr. }
    assert (Hc : currentDone (settleAll true p) = Some d) by (apply Hcur; simpl; eauto).
    destruct a; (apply leavePoll_OK; [|exact Hc|by left]).
    + apply (Hq now now).
    + apply (Hq now (lastActive (settleAll true p))).
  - destruct (reqCanceled p && negb (pctxDone p)) eqn:Hr; [|done]. injection E as <-.
    apply andb_true_iff in Hr as [Hr Hx%negb_true_iff].
    apply leavePoll_OK; [done|apply Hcur; eauto|]. right. split; [|done].
    apply (co_canceled _ (po_channels _ Hok) d); [unfold requesting; by rewrite Hp|done..].
  - case_match eqn:Hf; injection E as <-; [|by eapply pollFails_OK].
    apply andb_true_iff in Hf as [Hz%negb_true_iff _]. destruct (settleAll_OK false p Hok) as [[[] [] ? ?] He].
    split; [by split|by split|done|]. intros _. split; [done|]. by apply Z.eqb_neq in Hz.
  - injection E as <-. apply leavePoll_OK; [done|apply Hcur; eauto|].
    left. by eapply (bo_empty _ (po_buffers _ Hok)).
  - destruct (pctxDone p); [|done]. injection E as <-. apply leavePoll_OK; [done|apply Hcur; eauto|].
    left. by eapply (bo_empty _ (po_buffers _ Hok)).
  - destruct (wakeUp p); [|done]. injection E as <-.
    assert (Hok' : pollerOK (p <| wakeUp := false |>)) by (destruct Hok as [[] [] ? ?]; by split).
    apply leavePoll_OK; [done|apply Hcur; simpl; eauto|].
    left. by eapply (bo_empty _ (po_buffers _ Hok)).
Qed.

Lemma callStep_OK p e p' : pollerOK p -> callStep p e = Some p' -> pollerOK p'.
Proof using Hsize Hmax.
  intros Hok E. pose proof Hok as [[B1 B2 B3 B4 B5 B6 B7] [C1 C2 C3 C4] F X]. unfold callStep in E.
  assert (Hfl : forall f, flushOK (p <| flush := f |>) -> pollerOK (p <| flush := f |>)).
  { intros f Hf. split; [by split|by split|done|done]. }
  destruct e; try done.
  - injection E as <-. split; [by split|split; try done|done|done].
  - injection E as <-. by apply (newDone_OK p true).
  - assert (E' : p' = p <| flush := FlushLooks (length (fromOutbox p)) |>) by (destruct (flush p); by simplify_eq).
    rewrite E'. apply Hfl. unfold flushOK. simpl. lia.
  - destruct (flush p) as [|n|d c n|n err] eqn:Hf; try done. injection E as <-. apply Hfl.
    unfold flushOK in *. rewrite Hf in F. simpl. split; [done|]. split; [done|]. split; [done|]. intros Hc.
    destruct (decide (toSend p = [])) as [Ht|Ht]; [left; by rewrite B1, Ht, app_nil_r in F|].
    assert (Hc' : isClosed (pollDone p) p = true) by exact Hc.
    destruct (C2 Ht) as [Ho|[? ?]]; [by rewrite Ho in Hc'|]. right. split; [done|by right].
  - destruct (flush p) as [|n|d c n|n err] eqn:Hf; try done. destruct (isClosed d p) eqn:Hc; [|done].
    injection E as <-. unfold flushOK in F. rewrite Hf in F. destruct F as (F1 & F2 & _ & F3).
    destruct (_ && _) eqn:Hb; apply Hfl; unfold flushOK; simpl; [done|].
    destruct (F3 Hc) as [|[Hl [Hd|Hd]]]; [by left| |by right]. apply Nat.eqb_neq in Hd.
    by rewrite Hd, bool_decide_true in Hb.
  - destruct (flush p) as [|n|d c n|n err] eqn:Hf; try done. destruct (ctxIsDone c p) eqn:Hc; [|done].
    injection E as <-. apply Hfl. unfold flushOK, ctxIsDone, rekeyed in *. simpl.
    destruct (pctxDone p); [by left|right]. intros Hn. by rewrite Hn in Hc.
  - destruct (flush p) as [|n|d c n|n err]; try done. injection E as <-. apply Hfl. by left.
Qed.

Lemma pollerOK_reachable p : pollerReachable protoSize suicide p -> pollerOK p.
Proof using Hsize Hmax.
  unfold pollerReachable. intros H. assert (H0 : pollerOK pollerInit) by apply pollerOK_init.
  induction H as [|p1 p2 p3 [e He] _ IH]; [done|]. apply IH. unfold pollerStep in He.
  destruct (crashed p1) eqn:Hc; [done|].
  destruct e; first [by eapply processingStep_OK|by eapply callStep_OK].
Qed.

(** *** Stop *)
Lemma pollerRun_rtc p es p' :
  pollerRun protoSize suicide p es = Some p' -> rtc (pollerMoves protoSize suicide) p p'.
Proof.
  revert p. induction es as [|e es IH]; simpl; intros p E; [injection E as ->; apply rtc_refl|].
  destruct (pollerStep protoSize suicide p e) as [p1|] eqn:He; [|done]. eapply rtc_l; [by exists e|by apply IH].
Qed.

(** A step of the loop, which is not a call from another goroutine. *)
Definition ofLoop (e : pollEvent (Msg := Msg)) : bool :=
  match e with Stop | Reset | Flush | FlushReadsDone | FlushSeesDone | FlushSeesCtx _ | FlushCtx _ => false | _ => true end.

(** The steps a loop whose context is done can still take. *)
Definition stepsLeft p : nat :=
  if crashed p then 0
  else match pt p with
       | LoopReturned => 0 | Top => 1 | Sleeping _ _ _ => 2 | InPoll _ _ _ => 3 | Checking _ _ => 4 | Waiting => 5
       end.

Lemma stepsLeft_bound p : stepsLeft p <= 5.
Proof. unfold stepsLeft. destruct (crashed p), (pt p); lia. Qed.

Lemma renewIfClosed_pt p :
  crashed (renewIfClosed p) = crashed p /\ pctxDone (renewIfClosed p) = pctxDone p /\ pt (renewIfClosed p) = pt p.
Proof. unfold renewIfClosed. by destruct (isClosed (pollDone p) p). Qed.

Lemma enterPoll_stepsLeft k p : stepsLeft (enterPoll k p) <= 4 /\ pctxDone (enterPoll k p) = pctxDone p.
Proof.
  unfold stepsLeft, enterPoll. simpl. destruct (renewIfClosed_pt p) as (_ & -> & _).
  split; [|done]. destruct (crashed _); lia.
Qed.

Lemma leavePoll_stepsLeft d err k p :
  stepsLeft (leavePoll d err k p) <= 1 /\ pctxDone (leavePoll d err k p) = pctxDone p.
Proof.
  unfold stepsLeft, leavePoll. destruct (isClosed d p); [simpl; split; [lia|done]|].
  destruct k; simpl; (split; [destruct (crashed p); lia|done]).
Qed.

(** Every step of the loop leaves fewer of them, and a call leaves as many. *)
Lemma stopped_step p e p' :
  pctxDone p = true -> e <> Configures -> pollerStep protoSize suicide p e = Some p' ->
  pctxDone p' = true /\ (if ofLoop e then 1 else 0) + stepsLeft p' <= stepsLeft p.
Proof.
  intros Hx Hne E. unfold pollerStep in E. destruct (crashed p) eqn:Hcr; [done|].
  assert (Hl : stepsLeft p = match pt p with
    LoopReturned => 0 | Top => 1 | Sleeping _ _ _ => 2 | InPoll _ _ _ => 3 | Checking _ _ => 4 | Waiting => 5 end)
    by (unfold stepsLeft; by rewrite Hcr).
  assert (Hen : forall k q, pctxDone q = true -> pctxDone (enterPoll k q) = true /\ 1 + stepsLeft (enterPoll k q) <= 5).
  { intros k q Hq. destruct (enterPoll_stepsLeft k q) as [? ->]. split; [done|lia]. }
  assert (Hle : forall d err k q, pctxDone q = true ->
    pctxDone (leavePoll d err k q) = true /\ 1 + stepsLeft (leavePoll d err k q) <= 2).
  { intros d err k q Hq. destruct (leavePoll_stepsLeft d err k q) as [? ->]. split; [done|lia]. }
  destruct e; unfold processingStep, callStep in E; destruct (pt p) as [| |d k|d dead k|d err k|] eqn:Hp; try done;
    rewrite ?Hx in E; simpl in E; rewrite ?andb_false_r in E; try done; rewrite Hl; cbn [ofLoop].
  all: try (repeat case_match; simplify_eq; unfold stepsLeft; simpl; rewrite ?Hcr, ?Hp; (done || (split; [done|lia]))).
  all: try (injection E as <-; by apply Hen).
  all: try (injection E as <-; by apply Hle).
  - case_match; injection E as <-; [by apply Hen|]. unfold stepsLeft. simpl. rewrite Hcr. split; [done|lia].
  - destruct (wakeUp p); [|done]. injection E as <-. by apply Hen.
  - injection E as <-. destruct (renewIfClosed_pt p) as (H1 & H2 & _). rewrite Hx in H2.
    destruct (overThreshold _); [by apply Hen|].
    destruct (isZero _); unfold stepsLeft; simpl; rewrite H1, Hcr; (split; [exact H2|lia]).
  - destruct dead; [done|]. injection E as <-.
    match goal with |- context [leavePoll d None k ?q] => destruct (Hle d None k q) as [H1 H2]; [by destruct active|] end.
    split; [exact H1|lia].
  - destruct (wakeUp p); [|done]. injection E as <-. by apply Hle.
Qed.

Definition loopSteps (es : list (pollEvent (Msg := Msg))) : nat := length (filter (fun e => ofLoop e = true) es).

Lemma stopped_run es p p' :
  pctxDone p = true -> Forall (fun e => e <> Configures) es -> pollerRun protoSize suicide p es = Some p' ->
  pctxDone p' = true /\ loopSteps es + stepsLeft p' <= stepsLeft p.
Proof.
  unfold loopSteps. revert p. induction es as [|e es IH]; simpl; intros p Hx Hes E; [injection E as <-; split; [done|lia]|].
  apply Forall_cons in Hes as [He Hes]. destruct (pollerStep protoSize suicide p e) as [p1|] eqn:Hs; [|done].
  destruct (stopped_step p e p1 Hx He Hs) as [Hx1 H1]. destruct (IH p1 Hx1 Hes E) as [Hx' H2]. split; [done|].
  rewrite filter_cons. destruct (ofLoop e); simpl in *; lia.
Qed.

(** And there is one to take, until it has returned. *)
Lemma stopped_progress p :
  pctxDone p = true -> crashed p = false -> pt p <> LoopReturned ->
  exists e, ofLoop e = true /\ e <> Configures /\ is_Some (pollerStep protoSize suicide p e).
Proof.
  intros Hx Hc Hn. unfold pollerStep, processingStep. rewrite Hc, Hx. destruct (pt p); [..|done].
  - exists (TurnTop 0 0 0). by repeat split.
  - exists SeesDone. by repeat split.
  - exists SameId. by repeat split.
  - exists (PollFails (ErrText "context canceled") 0). split; [done|]. split; [done|]. by case_match.
  - exists SleepDone. by repeat split.
Qed.

End PollerOK.

(** ** What does not work *)
Section Flaws.
Context {Msg : Type} (protoSize : Msg -> Z) (suicide : Z).
Implicit Types p : poller (Msg := Msg).

(** After Stop no message is delivered any more, although the loop polls once
    more for those in its buffer: the request inherits the context of the
    communicator, which is done. *)
Definition pollerStopped p : Prop :=
  pctxDone p = true /\
  match pt p with Checking _ _ => reqCanceled p = true | InPoll _ dead _ => dead = true | _ => True end.

Lemma pollerStopped_step p e p' :
  pollerStopped p -> e <> Configures -> pollerStep protoSize suicide p e = Some p' ->
  pollerStopped p' /\ packed p' = packed p.
Proof.
  intros [Hx Hd] Hne E. unfold pollerStep in E. destruct (crashed p); [done|].
  assert (Hen : forall k q, pctxDone q = true -> packed q = packed p ->
    pollerStopped (enterPoll k q) /\ packed (enterPoll k q) = packed p).
  { intros k q Hq Hk. unfold pollerStopped, enterPoll, renewIfClosed. simpl. by destruct (isClosed _ _). }
  assert (Hle : forall d err k q, pctxDone q = true -> packed q = packed p ->
    match pt q with Sleeping _ _ _ => True | InPoll _ dead _ => dead = true | _ => False end ->
    pollerStopped (leavePoll d err k q) /\ packed (leavePoll d err k q) = packed p).
  { intros d err k q Hq Hk Hdq. unfold pollerStopped, leavePoll. simpl.
    destruct (isClosed d q); [by destruct (pt q)|]. by destruct k. }
  destruct e; unfold processingStep, callStep in E; destruct (pt p) as [| |d k|d dead k|d err k|] eqn:Hp; try done;
    rewrite ?Hx in E; subst; simpl in E; rewrite ?andb_false_r in E; try done.
  all: try (injection E as <-; by apply Hen).
  all: try (injection E as <-; apply Hle; simpl; by rewrite ?Hp).
  all: try (repeat case_match; simplify_eq/=; unfold pollerStopped; simpl; rewrite ?Hp, ?Hd; by repeat split).
  - case_match; injection E as <-; [by apply Hen|done].
  - destruct (wakeUp p); [|done]. injection E as <-. by apply Hen.
  - injection E as <-.
    assert (Hren : pctxDone (renewIfClosed p) = true /\ packed (renewIfClosed p) = packed p).
    { unfold renewIfClosed. by destruct (isClosed _ _). }
    destruct Hren as [H1 H2]. destruct (overThreshold _); [by apply Hen|].
    unfold pollerStopped. destruct (isZero _); simpl; by rewrite H1, H2.
  - destruct (wakeUp p); [|done]. injection E as <-.
    apply Hle; simpl; by rewrite ?Hp.
Qed.

Lemma nothing_sent_after_stop es p p' :
  pollerStopped p -> Forall (fun e => e <> Configures) es -> pollerRun protoSize suicide p es = Some p' ->
  packed p' = packed p.
Proof.
  revert p. induction es as [|e es IH]; simpl; intros p Hs Hes E; [by injection E as <-|].
  apply Forall_cons in Hes as [He Hes]. destruct (pollerStep protoSize suicide p e) as [p1|] eqn:H1; [|done].
  destruct (pollerStopped_step p e p1 Hs He H1) as [Hs1 <-]. by apply IH.
Qed.

(** A Flush that waits while Reset replaces the channel, and no poll is under
    way, waits for a channel that nobody will close. *)
Definition orphaned (d : nat) p : Prop :=
  d < length (chans p) /\ isClosed d p = false /\ pollDone p <> d /\ currentDone p <> Some d.

Lemma orphan_renew d p : orphaned d p -> orphaned d (renewIfClosed p).
Proof.
  intros (H1 & H2 & H3 & H4). unfold renewIfClosed. destruct (isClosed (pollDone p) p); [|done].
  split; [|split; [|split; [|done]]]; simpl; rewrite ?length_app; [lia| |lia].
  by rewrite isClosed_newDone.
Qed.

Lemma orphan_leavePoll d d' err k p :
  orphaned d p -> d' <> d -> orphaned d (leavePoll d' err k p).
Proof.
  intros (H1 & H2 & H3 & H4) Hd. unfold leavePoll. destruct (isClosed d' p); [done|].
  assert (H : isClosed d (p <| chans := <[d' := true]> (chans p) |>) = false).
  { unfold isClosed in *. simpl. by rewrite list_lookup_insert_ne. }
  destruct k; (split; [simpl; by rewrite length_insert|split; [exact H|done]]).
Qed.

Lemma orphan_enterPoll d k p : orphaned d p -> orphaned d (enterPoll k p).
Proof.
  intros Hp. destruct (orphan_renew _ _ Hp) as (H1 & H2 & H3 & _). unfold enterPoll. repeat split; try done.
  unfold currentDone. simpl. congruence.
Qed.

(** Steps that change no channel. *)
Lemma orphan_keep d p q :
  orphaned d p -> chans q = chans p -> pollDone q = pollDone p ->
  match pt q with Checking d' _ | InPoll d' _ _ | Sleeping d' _ _ => d' <> d | _ => True end -> orphaned d q.
Proof.
  intros (O1 & O2 & O3 & O4) E1 E2 E3. unfold orphaned, isClosed, currentDone in *. rewrite E1, E2.
  repeat split; try done. destruct (pt q); congruence.
Qed.

Lemma orphan_call d p e p' : orphaned d p -> callStep p e = Some p' -> orphaned d p'.
Proof.
  intros Ho E. pose proof Ho as (O1 & O2 & O3 & O4).
  assert (Hpt : match pt p with Checking d' _ | InPoll d' _ _ | Sleeping d' _ _ => d' <> d | _ => True end).
  { unfold currentDone in O4. destruct (pt p); try done; congruence. }
  assert (Hk : forall q, chans q = chans p -> pollDone q = pollDone p -> pt q = pt p -> orphaned d q).
  { intros q E1 E2 E3. apply (orphan_keep d p); try done. by rewrite E3. }
  clear Hpt. unfold callStep in E. destruct e; try done; try (repeat case_match; simplify_eq; by apply Hk).
  injection E as <-. repeat split; simpl; rewrite ?length_app; try done; try lia.
  exact (eq_trans (isClosed_newDone d p O1) O2).
Qed.

Lemma orphan_loop d p e p' : orphaned d p -> processingStep protoSize suicide p e = Some p' -> orphaned d p'.
Proof.
  intros Ho E. pose proof Ho as (O1 & O2 & O3 & O4). unfold currentDone in O4.
  assert (Hleave : forall d' err k q, pt p = InPoll d' true k \/ pt p = InPoll d' false k \/ (exists e, pt p = Sleeping d' e k) ->
    chans q = chans p -> pollDone q = pollDone p -> pt q = pt p -> orphaned d (leavePoll d' err k q)).
  { intros d' err k q Hp E1 E2 E3.
    assert (Hd : d' <> d) by (destruct Hp as [Hp|[Hp|[? Hp]]]; rewrite Hp in O4; congruence).
    apply orphan_leavePoll; [|done]. apply (orphan_keep d p); try done. rewrite E3.
    by destruct Hp as [->|[->|[? ->]]]. }
  unfold processingStep in E.
  destruct (pt p) as [| |d' k|d' dead k|d' err k|] eqn:Hp; destruct e as [pd bd now| | | |m now| | |a now|e|e now| | | | | | | | |e|e]; try done.
  - repeat case_match; simplify_eq; try (by apply orphan_enterPoll); by apply (orphan_keep d p).
  - repeat case_match; simplify_eq; try (by apply orphan_enterPoll); by apply (orphan_keep d p).
  - simplify_eq. by apply orphan_enterPoll.
  - case_match; simplify_eq. apply orphan_enterPoll. apply (orphan_keep d p); try done. simpl. by rewrite Hp.
  - pose proof (orphan_renew _ _ Ho) as Hr.
    assert (Hpr : pt (renewIfClosed p) = Waiting) by (unfold renewIfClosed; destruct (isClosed (pollDone p) p); exact Hp).
    injection E as <-. case_match; [apply orphan_enterPoll|case_match]; apply (orphan_keep d (renewIfClosed p)); try done.
    simpl. by rewrite Hpr.
  - simplify_eq. apply (orphan_keep d p); try done; simpl; congruence.
  - simplify_eq. apply (orphan_keep d p); try done; simpl; congruence.
  - case_match; simplify_eq. apply Hleave; [auto|by destruct a..].
  - case_match; simplify_eq. apply Hleave; [destruct dead; auto|done..].
  - case_match; simplify_eq; apply (orphan_keep d p); try done; simpl; rewrite ?Hp; congruence.
  - simplify_eq. apply Hleave; [eauto|done..].
  - case_match; simplify_eq. apply Hleave; [eauto|done..].
  - case_match; simplify_eq. apply Hleave; [eauto|done..].
Qed.

(** So the Flush is still waiting whatever happens, until its context ends. *)
Lemma orphaned_flush_waits d p p' :
  orphaned d p -> rtc (pollerMoves protoSize suicide) p p' ->
  isClosed d p' = false.
Proof.
  intros Ho Hr. induction Hr as [p|p1 p2 p3 [e He] _ IH]; [apply Ho|]. apply IH.
  unfold pollerStep in He. destruct (crashed p1); [done|].
  destruct e; first [by eapply orphan_call|by eapply orphan_loop].
Qed.
End Flaws.

(** ** Examples *)

(** The message is acknowledged, and Flush waits. *)
Definition orphanEvents : list (pollEvent (Msg := nat)) :=
  [TurnTop 0 0 0; SameId; PollOk false 100; TurnTop 1000 0 200; Receives 1 200; Flush; FlushReadsDone; Reset;
   TurnTop 1000 1000 300; WokenUp; SameId; PollOk false 400].

Example flush_is_orphaned :
  exists p, pollerRun (fun _ => 8%Z) 1000 pollerInit orphanEvents = Some p /\
    packed p = [1] /\ flush p = FlushWaits 2 0 1 /\ orphaned 2 p.
Proof.
  eexists. split; [vm_compute; reflexivity|]. split; [done|]. split; [done|].
  repeat split; simpl; (lia || done).
Qed.

(** Stop cancels the context poll has in hand, configure makes another one, and
    the loop goes on polling. *)
Definition rekeyEvents : list (pollEvent (Msg := nat)) :=
  [TurnTop 0 0 0; Stop; Configures; PollCanceled (ErrText "context canceled");
   TurnTop 0 0 100; SameId; PollOk true 200; TurnTop 1000 0 300; Receives 1 300].

Example stop_is_lost :
  exists p, pollerRun (fun _ => 8%Z) 1000 pollerInit rekeyEvents = Some p /\
    pctxDone p = false /\ oldCtxs p = [true] /\ pt p = Top /\ toSend p = [1].
Proof. eexists. split; [vm_compute; reflexivity|done]. Qed.

(** And a Flush that watches the old context returns nil, having settled nothing. *)
Example flush_gives_up_with_nil :
  exists p, pollerRun (fun _ => 8%Z) 1000 pollerInit
      [TurnTop 0 0 0; SameId; PollOk true 100; TurnTop 1000 0 200; Receives 1 200; TurnTop 1000 1000 300; Timer;
       Flush; FlushReadsDone; Stop; Configures; FlushSeesCtx (ErrText "context canceled")] = Some p /\
    flush p = FlushReturns 1 (FlushGaveUp None) /\ settled p = [].
Proof. eexists. split; [vm_compute; reflexivity|done]. Qed.

Definition resetEvents : list (pollEvent (Msg := nat)) :=
  [TurnTop 0 0 0; SameId; PollOk false 100; TurnTop 1000 0 200; Receives 1 200; Flush; FlushReadsDone;
   TurnTop 1000 1000 300; Timer; Reset; SameId; PollCanceled (ErrText "context canceled"); FlushSeesDone;
   FlushReadsDone; TurnTop 1000 1000 400; WokenUp; SameId; PollOk true 500; FlushSeesDone; Stop].

