(* ===== verification/Framing.v ===== *)
(** * Bytes on the wire

    The framing of messages between the client and its daemon processes
    (src/client/channel/channel.go) and of contacts on a streaming connection
    (src/client/https/streaming.go, src/server/https/streaming_message_server.go
    and readWrappedContactData of src/server/https/https.go), with what they use
    of encoding/binary and io.  The other end of a pipe is what it has written
    before it closed; timeouts are left out.  Encoding and parsing of the
    messages themselves are parameters. *)
From S2P Require Import Prelude.

Definition magic : Z := 0xf1ee1001.
(** Of a message on a channel, and of a contact. *)
Definition maxSize : Z := 2 * 1024 * 1024.
Definition MaxContactSize : Z := 20 * 1024 * 1024.

(** ** encoding/binary and io; LittleEndian is in the prelude *)
Inductive ioError := EOF | UnexpectedEOF.

(** io.ReadFull: what was read and what is left. *)
Definition readFull (n : Z) (s : bytes) : (bytes * bytes) + ioError :=
  if (Z.of_nat (length s) <? n)%Z then inr (match s with [] => EOF | _ => UnexpectedEOF end)
  else inl (take (Z.to_nat n) s, drop (Z.to_nat n) s).

Definition blenZ (b : bytes) : Z := Z.of_nat (length b).

(** binary.AppendUvarint; ten groups of 7 bits hold any uint64. *)
Fixpoint putUvarint (fuel : nat) (x : Z) : bytes :=
  match fuel with
  | O => []
  | S fuel =>
      if (128 <=? x)%Z then byteOf (Z.lor (x mod 256) 128) :: putUvarint fuel (Z.shiftr x 7)
      else [byteOf x]
  end.
Definition appendUvarint (x : Z) : bytes := putUvarint 10 x.

(** binary.ReadUvarint, at its i-th byte. *)
Inductive varintError := VarintIO (e : ioError) | VarintOverflow.
Fixpoint readUvarintFrom (n : nat) (i : nat) (x : Z) (s : bytes) : (Z * bytes) + varintError :=
  match n with
  | O => inr VarintOverflow
  | S n =>
      match s with
      | [] => inr (VarintIO (if decide (i = 0) then EOF else UnexpectedEOF))
      | c :: s =>
          let b := byteVal c in
          let shift := Z.of_nat (7 * i) in
          if (b <? 128)%Z then
            if decide (i = 9) then
              if (1 <? b)%Z then inr VarintOverflow else inl (Z.lor x (wrapU64 (Z.shiftl b shift)), s)
            else inl (Z.lor x (wrapU64 (Z.shiftl b shift)), s)
          else readUvarintFrom n (S i) (Z.lor x (wrapU64 (Z.shiftl (Z.land b 127) shift))) s
      end
  end.
Definition readUvarint (s : bytes) : (Z * bytes) + varintError := readUvarintFrom 10 0 0 s.

(** *** Their round trips *)
Lemma readFull_take k x y n :
  blenZ x = k ->
  readFull k (take n (x ++ y)) =
    if (Z.of_nat n <? k)%Z then inr (match take n (x ++ y) with [] => EOF | _ => UnexpectedEOF end)
    else inl (x, take (n - length x) y).
Proof.
  unfold blenZ, readFull. intros <-. rewrite length_take, length_app.
  destruct (Z.ltb_spec (Z.of_nat n) (Z.of_nat (length x))).
  - by rewrite (proj2 (Z.ltb_lt _ _)) by lia.
  - rewrite (proj2 (Z.ltb_ge _ _)) by lia. rewrite Nat2Z.id, take_app_ge by lia.
    by rewrite take_app_length, drop_app_length.
Qed.

Lemma readFull_app x y : readFull (blenZ x) (x ++ y) = inl (x, y).
Proof.
  rewrite <- (take_ge (x ++ y) (length (x ++ y))) by done.
  rewrite readFull_take, length_app by done. unfold blenZ.
  rewrite (proj2 (Z.ltb_ge _ _)) by lia. by rewrite take_ge by lia.
Qed.

(** A byte with the continuation bit. *)
Lemma continued x :
  let b := byteVal (byteOf (Z.lor (x mod 256) 128)) in (128 <= b)%Z /\ Z.land b 127 = (x mod 128)%Z.
Proof.
  set (r := (x mod 128)%Z). pose proof (Z.mod_pos_bound x 128 ltac:(lia)) as Hr. fold r in Hr.
  assert (H1 : Z.lor r 128 = (r + 128)%Z) by (apply (lor_shift r 1 7); lia).
  assert (H2 : Z.lor (x mod 256) 128 = (r + 128)%Z).
  { assert (Hx : (x mod 256 = r \/ x mod 256 = r + 128)%Z).
    { unfold r. pose proof (Z.mod_pos_bound (x / 128) 2 ltac:(lia)).
      change 256%Z with (128 * 2)%Z. rewrite Z.rem_mul_r by lia. lia. }
    destruct Hx as [->| ->]; [done|]. by rewrite <- H1, <- Z.lor_assoc, Z.lor_diag. }
  simpl. rewrite H2, byteVal_byteOf, Z.mod_small by lia. split; [lia|].
  change 127%Z with (Z.ones 7). rewrite Z.land_ones by lia. change (2 ^ 7)%Z with 128%Z.
  replace (r + 128)%Z with (r + 1 * 128)%Z by lia. rewrite Z_mod_plus_full. by apply Z.mod_small.
Qed.

Lemma readUvarint_from n i acc x rest :
  n + i = 10 -> (0 <= x < 2 ^ (64 - 7 * Z.of_nat i))%Z -> (0 <= acc < 2 ^ (7 * Z.of_nat i))%Z ->
  readUvarintFrom n i acc (putUvarint n x ++ rest) = inl ((acc + x * 2 ^ (7 * Z.of_nat i))%Z, rest).
Proof.
  revert i acc x. induction n as [|n IH]; intros i acc x Hi Hx Hacc.
  { replace i with 10 in * by lia. simpl in Hx. lia. }
  assert (Hsh : Z.of_nat (7 * i) = (7 * Z.of_nat i)%Z) by lia.
  assert (Hsmall : forall b, (0 <= b)%Z -> (b <= x)%Z ->
    Z.lor acc (wrapU64 (Z.shiftl b (Z.of_nat (7 * i)))) = (acc + b * 2 ^ (7 * Z.of_nat i))%Z).
  { intros b Hb Hbx. rewrite Hsh, wrapU64_small; [apply lor_shift; [lia|done]|].
    rewrite Z.shiftl_mul_pow2 by lia. unfold isU64.
    replace (2 ^ 64)%Z with (2 ^ (64 - 7 * Z.of_nat i) * 2 ^ (7 * Z.of_nat i))%Z
      by (rewrite <- Z.pow_add_r by lia; f_equal; lia). nia. }
  cbn [putUvarint]. destruct (Z.leb_spec 128 x) as [Hbig|Hlow].
  - destruct (continued x) as [Hb Hl]. cbn [app readUvarintFrom].
    rewrite (proj2 (Z.ltb_ge _ _)) by done. rewrite Hl.
    assert (Hi8 : i <= 8).
    { destruct (decide (i = 9)) as [->|]; [|lia]. simpl in Hx. lia. }
    pose proof (Z.mod_pos_bound x 128 ltac:(lia)). pose proof (Z.mod_le x 128 ltac:(lia) ltac:(lia)).
    rewrite Hsmall by lia. rewrite Z.shiftr_div_pow2 by lia. change (2 ^ 7)%Z with 128%Z.
    assert (Hp : (2 ^ (7 * Z.of_nat (S i)) = 128 * 2 ^ (7 * Z.of_nat i))%Z).
    { replace (7 * Z.of_nat (S i))%Z with (7 + 7 * Z.of_nat i)%Z by lia. by rewrite Z.pow_add_r by lia. }
    rewrite IH; [|lia| |].
    + do 2 f_equal. rewrite Hp. rewrite (Z.div_mod x 128) at 3 by lia. ring.
    + split; [apply Z.div_pos; lia|]. apply Z.div_lt_upper_bound; [lia|].
      replace (128 * 2 ^ (64 - 7 * Z.of_nat (S i)))%Z with (2 ^ (64 - 7 * Z.of_nat i))%Z; [lia|].
      change 128%Z with (2 ^ 7)%Z. rewrite <- Z.pow_add_r by lia. f_equal. lia.
    + rewrite Hp. nia.
  - cbn [app readUvarintFrom]. rewrite byteVal_byteOf, Z.mod_small by lia.
    rewrite (proj2 (Z.ltb_lt _ _)) by lia. rewrite Hsmall by lia.
    case_decide as Hi9; [|done]. subst i. simpl in Hx. by rewrite (proj2 (Z.ltb_ge _ _)) by lia.
Qed.

Lemma readUvarint_append x rest : isU64 x -> readUvarint (appendUvarint x ++ rest) = inl (x, rest).
Proof.
  intros Hx. unfold readUvarint, appendUvarint. rewrite readUvarint_from; [|done|exact Hx|simpl; lia].
  simpl. do 2 f_equal. lia.
Qed.

(** ** Contacts on a streaming connection *)
Section Stream.
Context {Msg : Type} (unmarshal : bytes -> outcome Msg).

(** What writeLoop and writeOne write for one encoded record. *)
Definition frame (b : bytes) : bytes := appendUvarint (blenZ b) ++ b.

(** The first record of the client comes after the magic number. *)
Definition firstFrame (b : bytes) : bytes := putLE 4 magic ++ frame b.

Inductive readError := ReadSize (e : varintError) | ReadTooLarge | ReadBody (e : ioError) | ReadParse | ReadMagic.

(** readContact of the client: the record, and what is left to read.  A size
    that no slice can have would panic; there is no other limit. *)
Definition readContact (s : bytes) : (Msg * bytes) + readError :=
  match readUvarint s with
  | inr e => inr (ReadSize e)
  | inl (size, s) =>
      match readFull size s with
      | inr e => inr (ReadBody e)
      | inl (b, s) => match unmarshal b with Ok m => inl (m, s) | _ => inr ReadParse end
      end
  end.

(** readWrappedContactData of the server: a size of 0 reads to the end. *)
Definition readWrappedContactData (size : Z) (s : bytes) : (Msg * bytes) + readError :=
  match (if (0 <? size)%Z then readFull size s else inl (s, [])) with
  | inr e => inr (ReadBody EOF)
  | inl (b, s) => match unmarshal b with Ok m => inl (m, s) | _ => inr ReadParse end
  end.

(** readOne of the server. *)
Definition readOne (s : bytes) : (Msg * bytes) + readError :=
  match readUvarint s with
  | inr e => inr (ReadSize e)
  | inl (size, s) =>
      if (MaxContactSize <? size)%Z then inr ReadTooLarge else readWrappedContactData size s
  end.

(** initialPoll up to the first contact. *)
Definition readFirst (s : bytes) : (Msg * bytes) + readError :=
  match readFull 4 s with
  | inr e => inr ReadMagic
  | inl (b, s) => if (getLE b =? magic)%Z then readOne s else inr ReadMagic
  end.

(** Reading one record after the other. *)
Fixpoint readAll (one : bytes -> (Msg * bytes) + readError) (fuel : nat) (s : bytes) : list Msg * readError :=
  match fuel with
  | O => ([], ReadSize VarintOverflow)
  | S fuel =>
      match one s with
      | inr e => ([], e)
      | inl (m, s) => let '(ms, e) := readAll one fuel s in (m :: ms, e)
      end
  end.

Context (marshal : Msg -> bytes) (Hround : forall m, unmarshal (marshal m) = Ok m).

Lemma readOne_frame m rest :
  (0 < blenZ (marshal m) <= MaxContactSize)%Z -> readOne (frame (marshal m) ++ rest) = inl (m, rest).
Proof using Hround.
  intros Hl. unfold readOne, frame. rewrite <- app_assoc, readUvarint_append.
  2:{ unfold isU64. unfold MaxContactSize in Hl. lia. }
  rewrite (proj2 (Z.ltb_ge _ _)) by lia. unfold readWrappedContactData.
  rewrite (proj2 (Z.ltb_lt _ _)) by lia. by rewrite readFull_app, Hround.
Qed.

Lemma readContact_frame m rest :
  (blenZ (marshal m) < 2 ^ 64)%Z -> readContact (frame (marshal m) ++ rest) = inl (m, rest).
Proof using Hround.
  intros Hl. unfold readContact, frame. rewrite <- app_assoc, readUvarint_append.
  2:{ unfold isU64, blenZ in *. lia. }
  by rewrite readFull_app, Hround.
Qed.

Lemma readAll_frames one ms :
  (forall m rest, m ∈ ms -> one (frame (marshal m) ++ rest) = inl (m, rest)) ->
  one [] = inr (ReadSize (VarintIO EOF)) ->
  readAll one (S (length ms)) (concat (frame ∘ marshal <$> ms)) = (ms, ReadSize (VarintIO EOF)).
Proof using Type.
  intros Hone He. assert (Estep : forall n s, readAll one (S n) s =
    match one s with inr e => ([], e) | inl (m, s) => let '(ms, e) := readAll one n s in (m :: ms, e) end) by done.
  induction ms as [|m ms IH]; [rewrite Estep; simpl; by rewrite He|].
  cbn [fmap list_fmap concat length]. unfold compose at 1. rewrite Estep.
  rewrite Hone by by left. rewrite IH; [done|]. intros m' rest Hm. apply Hone. by right.
Qed.

(** C38: what one end of a streaming connection writes the other end reads,
    record by record, and then a clean end of the stream: the client any
    record, the server contacts of at most 20 MiB that are not empty, the
    first of them after the magic number. *)
Theorem stream_frames_roundtrip ms first :
  ((forall m, m ∈ ms -> blenZ (marshal m) < 2 ^ 64)%Z ->
     readAll readContact (S (length ms)) (concat (frame ∘ marshal <$> ms)) = (ms, ReadSize (VarintIO EOF))) /\
  ((forall m, m ∈ first :: ms -> 0 < blenZ (marshal m) <= MaxContactSize)%Z ->
     readFirst (firstFrame (marshal first) ++ concat (frame ∘ marshal <$> ms)) =
       inl (first, concat (frame ∘ marshal <$> ms)) /\
     readAll readOne (S (length ms)) (concat (frame ∘ marshal <$> ms)) = (ms, ReadSize (VarintIO EOF))).
Proof using Hround.
  split; [|intros H; split].
  - intros Hl. apply readAll_frames; [|done]. intros m rest Hm. by apply readContact_frame, Hl.
  - unfold readFirst, firstFrame. rewrite <- app_assoc.
    change 4%Z with (blenZ (putLE 4 magic)). rewrite readFull_app. rewrite getLE_putLE.
    change (magic mod _ =? magic)%Z with true. cbv iota. apply readOne_frame, H. by left.
  - apply readAll_frames; [|done]. intros m rest Hm. apply readOne_frame, H. by right.
Qed.

(** A record of size 0 makes the server read everything that follows, without
    any limit, as one contact. *)
Lemma empty_record_swallows_stream s m :
  unmarshal s = Ok m -> readOne (frame [] ++ s) = inl (m, []).
Proof using Type. intros Hm. unfold readOne. simpl. unfold readWrappedContactData. simpl. by rewrite Hm. Qed.
End Stream.

(** ** Channels to daemon processes *)
Module Channel.
Section Channel.
Context {Msg : Type} (marshal : Msg -> outcome bytes) (unmarshal : bytes -> outcome Msg).

(** A message writeLoop does not skip. *)
Definition sendable (m : Msg) : option bytes :=
  match marshal m with
  | Ok b => if (maxSize <? blenZ b)%Z then None else Some b
  | _ => None
  end.

Definition packet (b : bytes) : bytes := putLE 4 (blenZ b) ++ b ++ putLE 4 magic.

(** All that writeLoop writes for the messages of [o], when the other end's
    first magic number was read or not. *)
Definition writeLoop (magicRead : bool) (o : list Msg) : bytes :=
  putLE 4 magic ++ if magicRead then concat (packet <$> omap sendable o) else [].

Inductive error :=
| ErrMagic (e : ioError) | ErrBadMagic (z : Z) | ErrSize | ErrTooLarge (z : Z) | ErrBody (e : ioError) | ErrParse.

(** readLoop: the messages sent on [i], the error sent on [e] if there is one;
    [None] when the fuel does not reach the end of the input. *)
Fixpoint readLoop (fuel : nat) (s : bytes) : option (list Msg * option error) :=
  match fuel with
  | O => None
  | S fuel =>
      match readFull 4 s with
      | inr e => Some ([], Some (ErrMagic e))
      | inl (b, s) =>
          if negb (getLE b =? magic)%Z then Some ([], Some (ErrBadMagic (getLE b)))
          else match readFull 4 s with
               | inr EOF => Some ([], None)
               | inr UnexpectedEOF => Some ([], Some ErrSize)
               | inl (b, s) =>
                   let size := getLE b in
                   if (maxSize <? size)%Z then Some ([], Some (ErrTooLarge size))
                   else match readFull size s with
                        | inr e => Some ([], Some (ErrBody e))
                        | inl (b, s) =>
                            match unmarshal b with
                            | Ok m => r ← readLoop fuel s; Some (m :: r.1, r.2)
                            | _ => Some ([], Some ErrParse)
                            end
                        end
               end
      end
  end.

Definition read (s : bytes) : option (list Msg * option error) := readLoop (S (length s)) s.

(** The value readLoop puts in c.magicRead for writeLoop. *)
Definition sawMagic (s : bytes) : bool :=
  match readFull 4 s with inl (b, _) => (getLE b =? magic)%Z | _ => false end.

Lemma readFull_length n s b s' : (0 <= n)%Z -> readFull n s = inl (b, s') -> length s = length b + length s' /\ blenZ b = n.
Proof.
  unfold readFull, blenZ. intros Hn. destruct (Z.ltb_spec (Z.of_nat (length s)) n); [done|].
  intros [= <- <-]. rewrite length_take, length_drop. lia.
Qed.

(** Every turn takes a magic number. *)
Lemma readLoop_total fuel s : length s < fuel -> is_Some (readLoop fuel s).
Proof.
  revert s. induction fuel as [|fuel IH]; intros s Hl; [lia|]. simpl.
  destruct (readFull 4 s) as [[b s1]|] eqn:H1; [|done]. destruct (negb _); [done|].
  destruct (readFull 4 s1) as [[b2 s2]|[]] eqn:H2; [|done|done]. case_match; [done|].
  destruct (readFull (getLE b2) s2) as [[b3 s3]|] eqn:H3; [|done]. destruct (unmarshal b3) as [m| |]; [|done|done].
  apply readFull_length in H1 as [H1 H1']; [|lia]. apply readFull_length in H2 as [H2 H2']; [|lia].
  unfold readFull in H3. case_match; [done|]. simplify_eq.
  destruct (IH (drop (Z.to_nat (getLE b2)) s2)) as [r ->]; [|by eexists].
  rewrite length_drop. unfold blenZ in *. lia.
Qed.

(** More fuel changes nothing. *)
Lemma readLoop_fuel fuel fuel' s r : readLoop fuel s = Some r -> fuel <= fuel' -> readLoop fuel' s = Some r.
Proof.
  revert fuel' s r. induction fuel as [|fuel IH]; intros fuel' s r E Hl; [done|].
  destruct fuel' as [|fuel']; [lia|]. simpl in *. repeat case_match; try done.
  destruct (readLoop fuel _) as [r'|] eqn:Hr; [|done]. rewrite (IH fuel' _ _ Hr) by lia. done.
Qed.

Context (Hround : forall m b, marshal m = Ok b -> unmarshal b = Ok m).

(** The messages of [o] that are written. *)
Definition written (o : list Msg) : list Msg := filter (fun m => is_Some (sendable m)) o.

Lemma writeLoop_skip m o : sendable m = None -> writeLoop true (m :: o) = writeLoop true o.
Proof using Type. intros E. unfold writeLoop. cbn [omap list_omap]. by rewrite E. Qed.

Lemma writeLoop_cons m b o :
  sendable m = Some b ->
  writeLoop true (m :: o) = putLE 4 magic ++ putLE 4 (blenZ b) ++ b ++ writeLoop true o.
Proof using Type.
  intros E. unfold writeLoop. cbn [omap list_omap]. rewrite E. cbn [fmap list_fmap concat].
  unfold packet. by rewrite <- !app_assoc.
Qed.

Lemma sendable_inv m b : sendable m = Some b -> marshal m = Ok b /\ (blenZ b <= maxSize)%Z.
Proof using Type.
  unfold sendable. destruct (marshal m) as [c| |]; [|done|done].
  destruct (Z.ltb_spec maxSize (blenZ c)); [done|]. by intros [= ->].
Qed.

(** One turn of readLoop on a part of the stream that starts with a packet. *)
Lemma readLoop_packet fuel n m b rest :
  marshal m = Ok b -> (blenZ b <= maxSize)%Z ->
  (exists err, readLoop (S fuel) (take n (putLE 4 magic ++ putLE 4 (blenZ b) ++ b ++ rest)) = Some ([], err) /\
     n < 8 + length b) \/
  readLoop (S fuel) (take n (putLE 4 magic ++ putLE 4 (blenZ b) ++ b ++ rest)) =
    (r ← readLoop fuel (take (n - (8 + length b)) rest); Some (m :: r.1, r.2)) /\ 8 + length b <= n.
Proof using Hround.
  intros Hm Hb. cbn [readLoop]. rewrite (readFull_take 4 (putLE 4 magic)), putLE_length by done.
  destruct (Z.ltb_spec (Z.of_nat n) 4); [left; eexists; split; [done|lia]|].
  rewrite getLE_putLE. change (magic mod _ =? magic)%Z with true. cbn [negb].
  rewrite (readFull_take 4 (putLE 4 (blenZ b))), putLE_length by done.
  destruct (Z.ltb_spec (Z.of_nat (n - 4)) 4).
  { left. case_match; eexists; (split; [done|lia]). }
  assert (Hmod : (blenZ b mod 2 ^ (8 * Z.of_nat 4))%Z = blenZ b).
  { apply Z.mod_small. unfold blenZ, maxSize in *. simpl. lia. }
  rewrite getLE_putLE, Hmod, (proj2 (Z.ltb_ge _ _) Hb), (readFull_take (blenZ b) b) by done.
  unfold blenZ. destruct (Z.ltb_spec (Z.of_nat (n - 4 - 4)) (Z.of_nat (length b))).
  { left. eexists. split; [done|lia]. }
  right. rewrite (Hround _ _ Hm). replace (n - 4 - 4 - length b) with (n - (8 + length b)) by lia. split; [done|lia].
Qed.

Lemma readLoop_prefix fuel n (o : list Msg) :
  n < fuel ->
  exists k err, readLoop fuel (take n (writeLoop true o)) = Some (take k (written o), err) /\
    (length (writeLoop true o) <= n -> take k (written o) = written o /\ err = None).
Proof using Hround.
  revert fuel n. induction o as [|m o IH]; intros [|fuel] n Hf; [lia| |lia|].
  - exists 0. cbn [readLoop]. unfold writeLoop. cbn [omap list_omap fmap list_fmap concat].
    rewrite (readFull_take 4 (putLE 4 magic)), putLE_length by done.
    destruct (Z.ltb_spec (Z.of_nat n) 4).
    + eexists. split; [done|]. rewrite length_app, putLE_length. simpl. lia.
    + rewrite getLE_putLE. change (magic mod _ =? magic)%Z with true. cbn [negb].
      rewrite take_nil. by exists None.
  - unfold written. rewrite filter_cons. destruct (sendable m) as [b|] eqn:E.
    + rewrite decide_True by done. rewrite (writeLoop_cons _ _ _ E). apply sendable_inv in E as [Hm Hb].
      destruct (readLoop_packet fuel n m b (writeLoop true o) Hm Hb) as [(err & -> & Hn)|[-> Hn]].
      * exists 0, err. split; [done|]. rewrite !length_app, !putLE_length. lia.
      * destruct (IH fuel (n - (8 + length b)) ltac:(lia)) as (k & err & -> & Hall).
        exists (S k), err. split; [done|]. rewrite !length_app, !putLE_length. intros Hlen.
        destruct Hall as [Hk ->]; [lia|]. split; [|done]. cbn [take]. by f_equal.
    + rewrite decide_False by (by intros [? ?]). rewrite (writeLoop_skip _ _ E).
      apply IH. lia.
Qed.

(** What a daemon process reads when the pipe breaks after any number of
    bytes is a prefix of the messages written to it that can be marshalled and
    are not overlarge, each of them whole; when the pipe is closed in good
    order it is all of them and no error is reported.  A process that never
    sent its magic number is sent nothing. *)
Theorem channel_roundtrip n (o : list Msg) :
  (exists k err, read (take n (writeLoop true o)) = Some (take k (written o), err)) /\
  read (writeLoop true o) = Some (written o, None) /\
  read (writeLoop false o) = Some ([], None).
Proof using Hround.
  split_and!.
  - destruct (readLoop_prefix (S n) n o ltac:(lia)) as (k & err & E & _). exists k, err. unfold read.
    destruct (readLoop_total (S (length (take n (writeLoop true o)))) (take n (writeLoop true o))) as [r Hr]; [lia|].
    assert (Hle : length (take n (writeLoop true o)) <= n) by (rewrite length_take; lia).
    rewrite <- E. symmetry. rewrite Hr. apply (readLoop_fuel _ _ _ _ Hr). lia.
  - unfold read. destruct (readLoop_prefix (S (length (writeLoop true o))) (length (writeLoop true o)) o ltac:(lia))
      as (k & err & E & Hall). destruct Hall as [Hk ->]; [done|]. rewrite take_ge in E by done. by rewrite E, Hk.
  - reflexivity.
Qed.
End Channel.

(** Messages that are their encoding. *)
Example channel_roundtrip_witness :
  (forall m b : bytes, Ok m = Ok b -> (Ok b : outcome bytes) = Ok m) /\
  let o := [list_ascii_of_string "a"; []; list_ascii_of_string "bc"] in
  (exists k err, read Ok (take 17 (writeLoop Ok true o)) = Some (take k (written Ok o), err)) /\
  read Ok (writeLoop Ok true o) = Some (written Ok o, None) /\
  read Ok (writeLoop (Msg := bytes) Ok false o) = Some ([], None).
Proof.
  assert (H : forall m b : bytes, Ok m = Ok b -> (Ok b : outcome bytes) = Ok m) by congruence.
  split; [exact H|]. intros o. apply (channel_roundtrip Ok Ok H 17 o).
Defined.

(** Cut in the middle of the second message, the first is read and an error reported. *)
Example channel_broken_pipe :
  read Ok (take 22 (writeLoop Ok true [list_ascii_of_string "a"; list_ascii_of_string "bcdefg"])) =
    Some ([list_ascii_of_string "a"], Some (ErrBody UnexpectedEOF)).
Proof. vm_compute. reflexivity. Qed.
End Channel.

Example stream_frames_roundtrip_witness :
  let marshal (m : string) := list_ascii_of_string m in
  let unmarshal b : outcome string := Ok (string_of_list_ascii b) in
  let ms := ["b"; "cd"]%string in
  readAll (readContact unmarshal) 3 (concat (frame ∘ marshal <$> ms)) = (ms, ReadSize (VarintIO EOF)) /\
  readFirst unmarshal (firstFrame (marshal "a"%string) ++ concat (frame ∘ marshal <$> ms)) =
    inl ("a"%string, concat (frame ∘ marshal <$> ms)) /\
  readAll (readOne unmarshal) 3 (concat (frame ∘ marshal <$> ms)) = (ms, ReadSize (VarintIO EOF)).
Proof.
  intros marshal unmarshal ms.
  assert (H : forall m, unmarshal (marshal m) = Ok m) by (intros m; unfold unmarshal, marshal; by rewrite string_of_list_ascii_of_string).
  assert (Hl : forall m, m ∈ "a"%string :: ms -> (0 < blenZ (marshal m) <= MaxContactSize)%Z).
  { intros m Hm. unfold ms in Hm. rewrite !elem_of_cons, elem_of_nil in Hm.
    destruct Hm as [->|[->|[->|[]]]]; vm_compute; split; congruence. }
  destruct (stream_frames_roundtrip unmarshal marshal H ms "a"%string) as [Hc Hs].
  split; [|exact (Hs Hl)]. apply Hc. intros m Hm. assert (Hm' : m ∈ "a"%string :: ms) by by right.
  specialize (Hl _ Hm'). unfold MaxContactSize in Hl. lia.
Defined.
