(* ===== verification/Execution.v ===== *)
(** * One execution of a daemon process

    src/client/daemonservice/execution/execution.go: the buffers for what the
    process writes to its standard output and error, the messages it sends, and
    the monitor of its heartbeats.  Starting, feeding and ending an execution
    are in DaemonService.  Times are nanoseconds. *)
From S2P Require Import Prelude Framing.

(** ** Parameters, as New fills them in *)
Definition maxFlushBytes : Z := Z.shiftl 1 20.
Definition defaultFlushTimeSeconds : Z := 60.
Definition second : Z := 1000000000.

Record StdParams := mkStdParams { ServiceName : string; FlushBytes : Z; FlushTimeSeconds : Z }.

(** cfg.StdParams after the checks of New; [stdForward] is the flag. *)
Definition stdParams (stdForward : bool) (cfg : option StdParams) : option StdParams :=
  p ← cfg;
  if (ServiceName p =? "")%string then None
  else if stdForward then Some p
  else Some (mkStdParams (ServiceName p)
               (if (FlushBytes p <=? 0)%Z || (maxFlushBytes <? FlushBytes p)%Z then maxFlushBytes else FlushBytes p)
               (if (FlushTimeSeconds p <=? 0)%Z then defaultFlushTimeSeconds else FlushTimeSeconds p)).

(** time.NewTicker panics unless the period is positive. *)
Definition newTicker (period : Z) : outcome Z :=
  if (period <=? 0)%Z then Crash "non-positive interval for NewTicker" else Ok period.

(** The ticker of stdFlushRoutine, when New starts it. *)
Definition flushTicker (stdForward : bool) (cfg : option StdParams) : option (outcome Z) :=
  p ← stdParams stdForward cfg; Some (newTicker (second * FlushTimeSeconds p)%Z).

(** A timeout given as a duration, or else in seconds. *)
Definition timeoutOf (duration seconds : Z) : Z :=
  if (duration <=? 0)%Z then wrapI64 (seconds * second) else duration.

(** ** Standard output *)
Record StdOutputData := mkStdOutput { Pid : Z; MessageIndex : Z; Stdout : bytes; Stderr : bytes }.

Definition dataSize (o : StdOutputData) : Z := (blenZ (Stdout o) + blenZ (Stderr o))%Z.

Section Output.
Context {Any : Type} (anypbNew : StdOutputData -> outcome Any) (pid : Z) (outFlushBytes : Z).

Record output := mkOutput {
  outData : StdOutputData;
  lastOut : Z;
  (** Seconds since the epoch. *)
  lastActive : Z;
  (** Messages handed to sc.Send. *)
  sent : list Any;
  (** History: what was flushed. *)
  flushed : list StdOutputData;
}.

#[export] Instance output_eta : Eta output := fun o =>
  mkOutput (outData o) (lastOut o) (lastActive o) (sent o) (flushed o).

Definition newOutput (now : Z) : output := mkOutput (mkStdOutput 0 0 [] []) now 0 [] [].

Definition setLastActive (t : Z) (o : output) : output := o <| lastActive := (t / second)%Z |>.

(** sc.Send may wait, which is in DaemonService, and may refuse the message, which
    the code does not look at. *)
Definition flushOut (n : Z) (o : output) : output :=
  let o := o <| lastOut := n |> in
  if (dataSize (outData o) =? 0)%Z then o
  else
    let o := setLastActive n o in
    let d := mkStdOutput pid (MessageIndex (outData o)) (Stdout (outData o)) (Stderr (outData o)) in
    let o := match anypbNew d with
             | Ok a => o <| sent := sent o ++ [a] |>
             | _ => o
             end in
    o <| flushed := flushed o ++ [d] |>
      <| outData := mkStdOutput 0 (wrapI64 (MessageIndex d + 1)) [] [] |>.

Definition appendOut (p : bytes) (isErr : bool) (o : output) : output :=
  let d := outData o in
  o <| outData := if isErr then mkStdOutput (Pid d) (MessageIndex d) (Stdout d) (Stderr d ++ p)
                  else mkStdOutput (Pid d) (MessageIndex d) (Stdout d ++ p) (Stderr d) |>.

(** The loop of writeToOut; [now i] is the time of the flush when [i] turns of
    fuel are left; [None] when there is no end within the fuel. *)
Fixpoint writeToOut (fuel : nat) (now : nat -> Z) (p : bytes) (isErr : bool) (o : output) :
    option (outcome output) :=
  match fuel with
  | O => None
  | S fuel =>
      let currSize := dataSize (outData o) in
      if (currSize + blenZ p <=? outFlushBytes)%Z then Some (Ok (appendOut p isErr o))
      else
        let toWrite := (outFlushBytes - currSize)%Z in
        if (toWrite <? 0)%Z then Some (Crash "slice bounds out of range")
        else writeToOut fuel now (drop (Z.to_nat toWrite) p) isErr
               (flushOut (now fuel) (appendOut (take (Z.to_nat toWrite) p) isErr o))
  end.

(** What the writers and stdFlushRoutine do, under outLock. *)
Inductive outEvent :=
| WriteOut (isErr : bool) (p : bytes) (now : nat -> Z)
| FlushTick (period now : Z)
| FlushLast (now : Z).

Definition outStep (e : outEvent) (o : output) : option (outcome output) :=
  match e with
  | WriteOut isErr p now => writeToOut (S (S (length p))) now p isErr o
  | FlushTick period now =>
      Some (Ok (if (lastOut o + period <? now)%Z then flushOut now o else o))
  | FlushLast now => Some (Ok (flushOut now o))
  end.

Fixpoint outRun (es : list outEvent) (o : output) : option (outcome output) :=
  match es with
  | [] => Some (Ok o)
  | e :: es =>
      match outStep e o with
      | Some (Ok o') => outRun es o'
      | r => r
      end
  end.

(** The bytes written to one of the two. *)
Definition writtenTo (isErr : bool) (es : list outEvent) : bytes :=
  concat (omap (fun e => match e with
                         | WriteOut b p _ => if eqb b isErr then Some p else None
                         | _ => None
                         end) es).

Definition stream (isErr : bool) (d : StdOutputData) : bytes := if isErr then Stderr d else Stdout d.

(** *** What holds between two calls *)
Record outputOK (wr : bool -> bytes) (o : output) : Prop := {
  ou_bytes b : concat (stream b <$> flushed o) ++ stream b (outData o) = wr b;
  ou_size : (dataSize (outData o) <= outFlushBytes)%Z;
  ou_flushed : Forall (fun d => 0 < dataSize d <= outFlushBytes /\ Pid d = pid)%Z (flushed o);
  ou_index : MessageIndex <$> flushed o = (fun i => wrapI64 (Z.of_nat i)) <$> seq 0 (length (flushed o));
  ou_next : MessageIndex (outData o) = wrapI64 (Z.of_nat (length (flushed o)));
  ou_sent : sent o = omap (fun d => match anypbNew d with Ok a => Some a | _ => None end) (flushed o);
}.

Lemma dataSize_nonneg d : (0 <= dataSize d)%Z.
Proof using Type. unfold dataSize, blenZ. lia. Qed.

Lemma wrapI64_succ z : wrapI64 (wrapI64 z + 1) = wrapI64 (z + 1).
Proof using Type.
  unfold wrapI64.
  replace ((z + 2 ^ 63) mod 2 ^ 64 - 2 ^ 63 + 1 + 2 ^ 63)%Z with ((z + 2 ^ 63) mod 2 ^ 64 + 1)%Z by lia.
  rewrite Zplus_mod_idemp_l. do 2 f_equal. lia.
Qed.

Lemma appendOut_size p b o : dataSize (outData (appendOut p b o)) = (dataSize (outData o) + blenZ p)%Z.
Proof using Type. destruct b; unfold dataSize, blenZ; simpl; rewrite length_app; lia. Qed.

Lemma appendOut_OK wr p b o :
  outputOK wr o -> (dataSize (outData o) + blenZ p <= outFlushBytes)%Z ->
  outputOK (fun b' => wr b' ++ if eqb b b' then p else []) (appendOut p b o).
Proof using Type.
  intros [H1 H2 H3 H4 H5 H6] Hs. split; [| |destruct b; done..].
  - intros b'. rewrite <- H1. destruct b, b'; simpl; by rewrite <- ?app_assoc, ?app_nil_r.
  - by rewrite appendOut_size.
Qed.

Lemma flushOut_OK wr n o : outputOK wr o -> outputOK wr (flushOut n o).
Proof using Type.
  intros [H1 H2 H3 H4 H5 H6]. unfold flushOut. destruct (Z.eqb_spec (dataSize (outData (o <| lastOut := n |>))) 0) as [Hz|Hz].
  { by split. }
  assert (Hd : (0 < dataSize (outData o))%Z) by (pose proof (dataSize_nonneg (outData o)); simpl in Hz; lia).
  set (d := mkStdOutput pid _ _ _).
  assert (Hflush : outputOK wr (o <| sent := sent o ++ match anypbNew d with Ok a => [a] | _ => [] end |>
      <| flushed := flushed o ++ [d] |> <| outData := mkStdOutput 0 (wrapI64 (MessageIndex d + 1)) [] [] |>)).
  { split; simpl.
    - intros b. rewrite <- H1, fmap_app, concat_app. destruct b; simpl; by rewrite !app_nil_r.
    - unfold dataSize, blenZ in *. simpl. lia.
    - apply Forall_app. split; [done|]. apply Forall_singleton. unfold d, dataSize in *. simpl in *. lia.
    - rewrite fmap_app, length_app, seq_app, fmap_app, H4. simpl. by rewrite H5.
    - rewrite H5, length_app, wrapI64_succ. f_equal. simpl. lia.
    - rewrite omap_app, H6. simpl. by destruct (anypbNew d). }
  destruct (anypbNew d) eqn:Ha; rewrite ?app_nil_r in Hflush; destruct Hflush; split; done.
Qed.

Lemma flushOut_empties n o : dataSize (outData (flushOut n o)) = 0%Z.
Proof using Type.
  unfold flushOut. destruct (Z.eqb_spec (dataSize (outData (o <| lastOut := n |>))) 0) as [Hz|Hz]; [done|].
  by destruct (anypbNew _).
Qed.

Lemma outputOK_ext wr wr' o : (forall b, wr b = wr' b) -> outputOK wr o -> outputOK wr' o.
Proof using Type. intros E [H1 H2 H3 H4 H5 H6]. split; try done. intros b. by rewrite <- E. Qed.

(** A turn that does not start with a full buffer takes bytes off [p]. *)
Lemma writeToOut_OK fuel now wr p b o :
  (0 < outFlushBytes)%Z -> outputOK wr o ->
  length p + (if (dataSize (outData o) =? outFlushBytes)%Z then 1 else 0) < fuel ->
  exists o', writeToOut fuel now p b o = Some (Ok o') /\
    outputOK (fun b' => wr b' ++ if eqb b b' then p else []) o'.
Proof using Type.
  intros HF. revert wr p o. induction fuel as [|fuel IH]; intros wr p o Hok Hf; [lia|]. simpl.
  destruct (Z.leb_spec (dataSize (outData o) + blenZ p) outFlushBytes) as [Hle|Hgt].
  { eexists. split; [done|]. by apply appendOut_OK. }
  pose proof (ou_size _ _ Hok) as Hs. rewrite (proj2 (Z.ltb_ge _ _)) by lia.
  set (k := Z.to_nat (outFlushBytes - dataSize (outData o))).
  assert (Hk : k <= length p) by (unfold k, blenZ in *; lia).
  edestruct (IH (fun b' => wr b' ++ if eqb b b' then take k p else []) (drop k p)
    (flushOut (now fuel) (appendOut (take k p) b o))) as (o' & E & Hok').
  - apply flushOut_OK, appendOut_OK; [done|]. unfold blenZ. rewrite length_take. unfold k. lia.
  - rewrite flushOut_empties, length_drop. rewrite (proj2 (Z.eqb_neq _ _)) by lia.
    destruct (Z.eqb_spec (dataSize (outData o)) outFlushBytes); unfold k in *; lia.
  - exists o'. split; [done|]. eapply outputOK_ext; [|exact Hok'].
    intros b'. simpl. rewrite <- app_assoc. destruct (eqb b b'); [by rewrite take_drop|done].
Qed.

Lemma writtenTo_snoc b es e : writtenTo b (es ++ [e]) = writtenTo b es ++ writtenTo b [e].
Proof using Type. unfold writtenTo. by rewrite omap_app, concat_app. Qed.

Lemma outStep_OK es e o :
  (0 < outFlushBytes)%Z -> outputOK (fun b => writtenTo b es) o ->
  exists o', outStep e o = Some (Ok o') /\ outputOK (fun b => writtenTo b (es ++ [e])) o'.
Proof using Type.
  intros HF Hok. destruct e as [b p now|period now|now]; simpl outStep.
  - destruct (writeToOut_OK (S (S (length p))) now _ p b o HF Hok) as (o' & E & Hok').
    { destruct (_ =? _)%Z; lia. }
    exists o'. split; [done|]. eapply outputOK_ext; [|exact Hok']. intros b'.
    rewrite writtenTo_snoc. unfold writtenTo at 3. simpl. by destruct (eqb b b'); simpl; rewrite ?app_nil_r.
  - eexists. split; [done|]. apply outputOK_ext with (fun b => writtenTo b es).
    { intros b. rewrite writtenTo_snoc. symmetry. apply app_nil_r. }
    destruct (_ <? _)%Z; [by apply flushOut_OK|done].
  - eexists. split; [done|]. apply outputOK_ext with (fun b => writtenTo b es); [|by apply flushOut_OK].
    intros b. rewrite writtenTo_snoc. symmetry. apply app_nil_r.
Qed.

Lemma outRun_OK pre es o :
  (0 < outFlushBytes)%Z -> outputOK (fun b => writtenTo b pre) o ->
  exists o', outRun es o = Some (Ok o') /\ outputOK (fun b => writtenTo b (pre ++ es)) o'.
Proof using Type.
  intros HF. revert pre o. induction es as [|e es IH]; intros pre o Hok; simpl.
  { exists o. by rewrite app_nil_r. }
  destruct (outStep_OK pre e o HF Hok) as (o1 & -> & Hok1).
  destruct (IH _ _ Hok1) as (o2 & -> & Hok2). exists o2. split; [done|]. by rewrite <- app_assoc in Hok2.
Qed.
End Output.

(** C37: the output of a daemon process that is forwarded to a service arrives
    whole: with the parameters New accepts every write returns, nothing panics,
    the messages flushed so far and what is buffered are together the bytes
    written, for both streams and in order; each message has a number, in
    sequence, and at least one and at most FlushBytes bytes, itself at most 1
    MiB; after the last flush nothing is left behind. *)
Theorem std_output_spec {Any} (anypbNew : StdOutputData -> outcome Any) pid cfg p now es :
  stdParams false cfg = Some p ->
  (1 <= FlushBytes p <= maxFlushBytes)%Z /\ isOk (default (Ok 0%Z) (flushTicker false cfg)) = true /\
  exists o, outRun anypbNew pid (FlushBytes p) es (newOutput now) = Some (Ok o) /\
    (forall b, concat (stream b <$> flushed o) ++ stream b (outData o) = writtenTo b es) /\
    (dataSize (outData o) <= FlushBytes p)%Z /\
    Forall (fun d => 0 < dataSize d <= FlushBytes p)%Z (flushed o) /\
    MessageIndex <$> flushed o = (fun i => wrapI64 (Z.of_nat i)) <$> seq 0 (length (flushed o)) /\
    ((forall d, isOk (anypbNew d) = true) -> length (sent o) = length (flushed o)) /\
    (forall es' t, es = es' ++ [FlushLast t] -> forall b, concat (stream b <$> flushed o) = writtenTo b es).
Proof.
  intros Hp. assert (Hb : (1 <= FlushBytes p <= maxFlushBytes /\ 0 < FlushTimeSeconds p)%Z).
  { unfold stdParams in Hp. destruct cfg as [c|]; [|done]. simpl in Hp. destruct (ServiceName c =? "")%string; [done|].
    injection Hp as <-. simpl. unfold defaultFlushTimeSeconds. change maxFlushBytes with 1048576%Z.
    destruct (Z.leb_spec (FlushBytes c) 0), (Z.ltb_spec 1048576 (FlushBytes c)),
      (Z.leb_spec (FlushTimeSeconds c) 0); simpl in *; lia. }
  destruct Hb as [Hb Ht]. split; [done|]. split.
  { unfold flushTicker. rewrite Hp. simpl. unfold newTicker.
    destruct (Z.leb_spec (second * FlushTimeSeconds p) 0) as [Hle|]; [|done]. unfold second in Hle. lia. }
  assert (H0 : outputOK anypbNew pid (FlushBytes p) (fun b => writtenTo b []) (newOutput now : output (Any := Any))).
  { split; simpl; try done; [by intros []|]. change (0 <= FlushBytes p)%Z. lia. }
  destruct (outRun_OK anypbNew pid (FlushBytes p) [] es (newOutput now) ltac:(lia) H0) as (o & E & Hok).
  exists o. split; [done|]. destruct Hok as [H1 H2 H3 H4 H5 H6]. split; [done|]. split; [done|]. split.
  { eapply Forall_impl; [exact H3|]. by intros d [H _]. }
  split; [done|]. split.
  - intros Hall. rewrite H6. clear -Hall. induction (flushed o) as [|d l IH]; [done|]. simpl.
    specialize (Hall d). destruct (anypbNew d); [|done..]. simpl. by f_equal.
  - intros es' t -> b. rewrite <- H1.
    destruct (outRun_OK anypbNew pid (FlushBytes p) [] es' (newOutput now) ltac:(lia) H0) as (o1 & E1 & Hok1).
    destruct (outStep_OK anypbNew pid (FlushBytes p) _ (FlushLast t) o1 ltac:(lia) Hok1) as (o2 & E2 & _).
    assert (o = o2).
    { clear -E E1 E2. revert E E1. generalize (newOutput now : output (Any := Any)). induction es' as [|e es' IH]; intros i E E1.
      - injection E1 as ->. simpl in E, E2. congruence.
      - simpl in E, E1. destruct (outStep _ _ _ e i) as [[i'| |]|]; [|done..]. by eapply IH. }
    subst o2. simpl in E2. injection E2 as <-.
    pose proof (flushOut_empties anypbNew pid t o1) as Hz. unfold dataSize, blenZ in Hz.
    assert (Hnil : stream b (outData (flushOut anypbNew pid t o1)) = []).
    { apply length_zero_iff_nil. destruct b; simpl; lia. }
    by rewrite Hnil, app_nil_r.
Qed.

Example std_output_spec_witness :
  let cfg := Some (mkStdParams "svc" 3 0) in
  let es := [WriteOut false (list_ascii_of_string "abcdefgh") (fun _ => 7); WriteOut true (list_ascii_of_string "x") (fun _ => 8);
             FlushLast 9]%Z in
  exists o, outRun Ok 42 3 es (newOutput 1) = Some (Ok o) /\
    forall b, concat (stream b <$> flushed o) = writtenTo b es.
Proof.
  intros cfg es. destruct (std_output_spec Ok 42 cfg (mkStdParams "svc" 3 60) 1 es eq_refl)
    as (_ & _ & o & E & _ & _ & _ & _ & _ & H).
  exists o. split; [exact E|]. exact (H (take 2 es) 9%Z eq_refl).
Defined.

(** With the flag std_forward the parameters are taken as they are, and a
    period of 0 brings the client down. *)
Example std_forward_panics :
  flushTicker true (Some (mkStdParams "svc" 0 0)) = Some (Crash "non-positive interval for NewTicker").
Proof. reflexivity. Qed.

(** ** Sleeping

    busySleep, over the ticks of its timer: the time it takes in all. *)
Fixpoint busyLoop (fuel : nat) (timer d : Z) : option Z :=
  if (d <=? 0)%Z then Some 0%Z
  else match fuel with
       | O => None
       | S fuel => let step := Z.min d second in r ← busyLoop fuel step (d - step)%Z; Some (timer + r)%Z
       end.
Definition busySleep (d : Z) : option Z := busyLoop (Z.to_nat (d / second + 1)) second d.

Lemma busyLoop_spec fuel d :
  (d < Z.of_nat fuel * second)%Z -> (0 < d)%Z ->
  exists r, busyLoop fuel second d = Some r /\ (d <= r < d + second)%Z.
Proof.
  revert d. induction fuel as [|fuel IH]; intros d Hf Hd; [simpl in Hf; lia|].
  cbn [busyLoop]. rewrite (proj2 (Z.leb_gt _ _)) by done.
  destruct (Z.le_gt_cases d second) as [Hle|Hgt].
  - rewrite Z.min_l, Z.sub_diag by done. exists second. destruct fuel; simpl; (split; [f_equal; lia|lia]).
  - rewrite Z.min_r by lia. destruct (IH (d - second)%Z) as (r & -> & Hr); [unfold second in *; lia|lia|].
    exists (second + r)%Z. split; [done|lia].
Qed.

(** A busySleep that is not cancelled returns after at most as many ticks as
    it lasts seconds, rounded up, and sleeps at least as long as it was asked
    to and less than a second longer. *)
Theorem busySleep_bounds d : (0 < d)%Z -> exists r, busySleep d = Some r /\ (d <= r < d + second)%Z.
Proof.
  intros Hd. apply busyLoop_spec; [|done]. unfold second in *.
  pose proof (Z.div_pos d 1000000000 ltac:(lia) ltac:(lia)). rewrite Z2Nat.id by lia.
  pose proof (Z.mod_pos_bound d 1000000000 ltac:(lia)). pose proof (Z.div_mod d 1000000000 ltac:(lia)). lia.
Qed.

Lemma busySleep_bounds_witness : exists r, busySleep 2500000000 = Some r /\ (2500000000 <= r < 3500000000)%Z.
Proof. exact (busySleep_bounds 2500000000 ltac:(lia)). Defined.

(** ** Messages from the process *)
Section Incoming.
Context {Msg Data : Type}.

(** What inRoutine looks at. *)
Record incoming := mkIncoming {
  body : Msg;
  isSystem : bool;         (* Destination is "system" *)
  MessageType : string;
  startup : outcome Data;  (* Data.UnmarshalTo(&StartupData) *)
}.

Record inState := mkInState {
  startupDone : bool;
  (** The buffered channel startupData, its capacity is 1. *)
  startupData : list Data;
  startupClosed : bool;
  forwarded : list Msg;
}.

Definition inInit : inState := mkInState false [] false [].

(** One message; statistics, the version and the clock are left out. *)
Definition inMessage (s : inState) (m : incoming) : outcome inState :=
  if isSystem m then
    if (MessageType m =? "StartupData")%string then
      if startupDone s then Ok s
      else if startupClosed s then Crash "send on closed channel"
      else Ok (mkInState true (match startup m with Ok sd => startupData s ++ [sd] | _ => startupData s end) true
                 (forwarded s))
    else Ok s
  else Ok (mkInState (startupDone s) (startupData s) (startupClosed s) (forwarded s ++ [body m])).

Definition isStartup (m : incoming) : bool := isSystem m && (MessageType m =? "StartupData")%string.

Definition inOK (s : inState) : Prop :=
  startupClosed s = startupDone s /\ length (startupData s) <= (if startupDone s then 1 else 0).

Lemma inMessage_OK s m :
  inOK s -> exists s', inMessage s m = Ok s' /\ inOK s' /\
    forwarded s' = forwarded s ++ (if isSystem m then [] else [body m]) /\
    startupDone s' = startupDone s || isStartup m.
Proof.
  intros [Hc Hl]. unfold inMessage, isStartup, inOK. destruct (isSystem m); simpl.
  2:{ eexists. split; [done|]. by rewrite orb_false_r. }
  destruct (MessageType m =? "StartupData")%string; [|exists s; by rewrite app_nil_r, orb_false_r].
  rewrite Hc. destruct (startupDone s) eqn:Hd; [exists s; by rewrite app_nil_r, Hd|].
  eexists. split; [done|]. rewrite app_nil_r. simpl. destruct (startup m); rewrite ?length_app; simpl; (split; [|done]); (split; [done|lia]).
Qed.

(** Nothing is sent on the closed channel, and every message that is not for
    the client itself is forwarded, in order. *)
Lemma inMessages_spec ms s :
  inOK s -> exists s', foldO inMessage ms s = Ok s' /\ inOK s' /\
    forwarded s' = forwarded s ++ (body <$> List.filter (fun m => negb (isSystem m)) ms) /\
    startupDone s' = startupDone s || existsb isStartup ms.
Proof.
  revert s. induction ms as [|m ms IH]; intros s Hs; cbn [foldO].
  { exists s. simpl. by rewrite app_nil_r, orb_false_r. }
  destruct (inMessage_OK s m Hs) as (s1 & -> & H1 & Hf & Hd). destruct (IH s1 H1) as (s2 & E & H2 & Hf2 & Hd2).
  exists s2. simpl. rewrite E, Hf2, Hd2, Hf, Hd, <- app_assoc, orb_assoc. split; [done|]. split; [done|].
  split; [|done]. by destruct (isSystem m).
Qed.
End Incoming.
Arguments incoming : clear implicits.

(** ** Heartbeats

    heartbeatMonitorRoutine: at a check, [now] is the time, [hb] the time of
    the last message and [sending] whether a message waits for room in the
    client; [killed] is what KillByPid returns. *)
Inductive heartbeat :=
| HbCheck                       (* the top of the loop *)
| HbSleep (d : Z)               (* busySleep, then the top of the loop *)
| HbConfirm                     (* busySleep of two seconds, then once more *)
| HbKilled.

Definition heartbeatStep (heartbeatTimeout now hb : Z) (sending killed : bool) (s : heartbeat) : heartbeat :=
  match s with
  | HbCheck =>
      if sending then HbSleep heartbeatTimeout
      else if (heartbeatTimeout <? now - hb)%Z then HbConfirm
      else HbSleep (heartbeatTimeout - (now - hb))
  | HbSleep _ => HbCheck
  | HbConfirm =>
      if (heartbeatTimeout <? now - hb)%Z && negb sending then if killed then HbKilled else HbCheck
      else HbSleep (heartbeatTimeout - (now - hb))
  | HbKilled => HbKilled
  end.

(** A process is killed only after it was silent for longer than the timeout,
    at two checks, while nothing of its own was being sent. *)
Lemma heartbeat_spares T now hb sending killed s :
  heartbeatStep T now hb sending killed s = HbKilled -> s <> HbKilled ->
  s = HbConfirm /\ (T < now - hb)%Z /\ sending = false.
Proof.
  destruct s; simpl; try done.
  - destruct sending; [done|]. by destruct (_ <? _)%Z.
  - destruct (Z.ltb_spec T (now - hb)), sending, killed; done.
Qed.

(** And a silent one is killed at the second check. *)
Lemma heartbeat_kills T now now' hb s :
  (T < now - hb)%Z -> (now <= now')%Z -> s = HbCheck ->
  heartbeatStep T now' hb false true (heartbeatStep T now hb false true s) = HbKilled.
Proof.
  intros H1 H2 ->. simpl. destruct (Z.ltb_spec T (now - hb)) as [_|]; [|lia]. simpl.
  destruct (Z.ltb_spec T (now' - hb)); [done|lia].
Qed.
