(* ===== verification/DaemonService.v ===== *)
(** * The life of a daemon process

    src/client/daemonservice/daemonservice.go with New, Wait, Shutdown, SendMsg
    and readMsg of execution/execution.go and the loops of channel/channel.go:
    the goroutines of one execution as they wait for each other, and the loop
    that starts one execution after the other.  A step is the turn of one
    goroutine between two points where it can wait; a [select] that finds
    several cases ready takes any of them.  The process may die at any
    time, and what it has started may keep its pipes open.  sc.Send waits for
    room in the client: with context.Background() it waits without end, so that
    its return is a step of somebody else.
    The bytes are in Framing and Channel of that file; the messages themselves
    in Execution. *)
From S2P Require Import Prelude Execution.

Section Daemon.
Context {Msg : Type}.
(** s.inactivityTimeout in nanoseconds, s.cfg.LazyStart, and whether New starts
    statsRoutine and stdFlushRoutine. *)
Context (inactivityTimeout : Z) (lazyStart withStats withOutput : bool).

(** ** One execution *)

(** feedExecution: at its [select]; before, at the lock of and in the [select]
    of SendMsg; returned, with the message left over. *)
Inductive feeder :=
| FNext
| FHave (m : Msg)
| FLock (m : Msg)
| FSend (m : Msg)
| FLeft (m : option Msg).

(** channel.writeLoop: before its first message, waiting for one, writing. *)
Inductive chWriter := WrStart | WrIdle | WrWriting | WrDone.
(** channel.readLoop: reading, and with a message for In. *)
Inductive chReader := RdReading | RdHolding | RdDone.
(** The goroutines of inRoutine and cmd.Wait, which call Shutdown at their end;
    [Sends]: in sc.Send. *)
Inductive task := Runs | Sends | Shuts | Done.
(** Who holds outLock, in sc.Send: the goroutines that copy the output of the
    process, stdFlushRoutine at a tick, and at its end. *)
Inductive outUser := OutFree | OutCopies | OutTick | OutLast.
(** The one run of the function in Shutdown. *)
Inductive shutter := SdNone | SdLock | SdSleep (k : nat) | SdDone.
(** Execution.Wait. *)
Inductive waiter := WtShutdown | WtDrain | WtChannel | WtRoutines | WtReturned.
(** executionManagerLoop from eg.Wait() on. *)
Inductive supervisor := SupWaits | SupShuts | SupReaps | SupDone.

Record execution := mkExecution {
  (** The context of the three goroutines of executionManagerLoop is done; the
      one of the goroutines of New. *)
  xctx : bool;
  rctx : bool;
  shuttingDown : bool;
  outClosed : bool;
  sd : shutter;
  alive : bool;
  (** Another process has the pipes open as well. *)
  held : bool;
  dead : bool;
  fd : feeder;
  wr : chWriter;
  rd : chReader;
  (** Messages of the process that were not read yet. *)
  pipe : nat;
  chErr : bool;
  inR : task;
  procW : task;
  stats : bool;
  flusher : bool;
  (** cmd copies standard output and error; e.outData is not empty. *)
  copying : bool;
  outBuf : bool;
  outUse : outUser;
  wt : waiter;
  monitoring : bool;
  lastActive : Z;
  sup : supervisor;
  xpanicked : bool;
  (** History: messages taken from s.msgs, and messages the channel took. *)
  taken : list Msg;
  passed : list Msg;
}.

#[export] Instance execution_eta : Eta execution := fun x =>
  mkExecution (xctx x) (rctx x) (shuttingDown x) (outClosed x) (sd x) (alive x) (held x) (dead x) (fd x) (wr x)
    (rd x) (pipe x) (chErr x) (inR x) (procW x) (stats x) (flusher x) (copying x) (outBuf x) (outUse x) (wt x) (monitoring x) (lastActive x)
    (sup x) (xpanicked x) (taken x) (passed x).

(** New, and the goroutines of executionManagerLoop; [msg] is left over. *)
Definition newExecution (stopped : bool) (msg : option Msg) : execution :=
  mkExecution stopped stopped false false SdNone true false false
    (match msg with Some m => FHave m | None => FNext end) WrStart RdReading 0 false Runs Runs withStats withOutput
    withOutput false OutFree WtShutdown true 0 SupWaits false [] [].

(** The context of executionManagerLoop ends, and those below it. *)
Definition cancelAll (x : execution) : execution := x <| xctx := true |> <| rctx := true |>.

(** SendMsg holds e.mu. *)
Definition locked (x : execution) : bool := match fd x with FSend _ => true | _ => false end.

Inductive execEvent :=
| Cancel
| MonitorFires (now : Z) | MonitorLeaves
| FeedTake (m : Msg) | FeedCtx | FeedCheck | FeedLock | FeedSend | FeedSendCtx
| WriterStarts | WriterNoMagic | WriterWrites | WriterFails | WriterEnds
| ProcessWrites | ReaderReads | ReaderEnds | ReaderFails
| InReceives (system : bool) (now : Z) | InSent | InCtx | InClosed | InError | InLeaves
| Forks | Dies | HoldersEnd | Reaped (failed : bool) | ProcSent | ProcLeaves
| Outputs (full : bool) (now : Z) | FlushTick (now : Z) | OutSent | CopyEnds
| ShutStarts | ShutLocks | ShutTimer | ShutSeesDeath
| StatsLeaves (fails : bool) | FlusherLeaves
| WaitStarts | WaitDrains | WaitClosed | WaitChannel | WaitRoutines
| SupCollects | SupLeaves | SupReaped.

(** monitorExecution. *)
Definition monitorStep (x : execution) (e : execEvent) : option execution :=
  match e, monitoring x with
  | MonitorFires now, true =>
      if (0 <? inactivityTimeout)%Z && (lastActive x * second + inactivityTimeout <=? now)%Z then
        Some (cancelAll (x <| monitoring := false |>))
      else None
  | MonitorLeaves, true => if xctx x then Some (x <| monitoring := false |>) else None
  | _, _ => None
  end.

(** feedExecution and SendMsg; an error of the first ends the errgroup. *)
Definition feedStep (x : execution) (e : execEvent) : option execution :=
  match e, fd x with
  | FeedTake m, FNext => Some (x <| fd := FHave m |> <| taken := taken x ++ [m] |>)
  | FeedCtx, FNext => if xctx x then Some (cancelAll (x <| fd := FLeft None |>)) else None
  | FeedCheck, FHave m =>
      Some (if shuttingDown x then cancelAll (x <| fd := FLeft (Some m) |>) else x <| fd := FLock m |>)
  | FeedLock, FLock m => Some (x <| fd := FSend m |>)
  | FeedSend, FSend m =>
      if outClosed x then Some (x <| xpanicked := true |>)
      else match wr x with
           | WrIdle => Some (x <| wr := WrWriting |> <| fd := FNext |> <| passed := passed x ++ [m] |>)
           | _ => None
           end
  | FeedSendCtx, FSend m => if xctx x then Some (cancelAll (x <| fd := FLeft (Some m) |>)) else None
  | _, _ => None
  end.

(** The two loops of the channel.  writeLoop waits for the outcome of reading
    the first magic number.  A write fails once nobody reads the pipe. *)
Definition channelStep (x : execution) (e : execEvent) : option execution :=
  match e, wr x, rd x with
  | WriterStarts, WrStart, _ => if alive x || held x then Some (x <| wr := WrIdle |>) else None
  | WriterNoMagic, WrStart, RdDone => Some (x <| wr := WrDone |>)
  | WriterWrites, WrWriting, _ => if alive x || held x then Some (x <| wr := WrIdle |>) else None
  | WriterFails, (WrStart | WrWriting), _ => Some (x <| wr := WrDone |> <| chErr := true |>)
  | WriterEnds, WrIdle, _ => if outClosed x then Some (x <| wr := WrDone |>) else None
  | ProcessWrites, _, _ => if alive x || held x then Some (x <| pipe := S (pipe x) |>) else None
  | ReaderReads, _, RdReading =>
      match pipe x with S n => Some (x <| pipe := n |> <| rd := RdHolding |>) | O => None end
  | ReaderEnds, _, RdReading =>
      if alive x || held x then None else match pipe x with O => Some (x <| rd := RdDone |>) | S _ => None end
  | ReaderFails, _, RdReading => Some (x <| rd := RdDone |> <| chErr := true |>)
  | _, _, _ => None
  end.

(** inRoutine with readMsg.  What is not for the client itself goes to sc.Send. *)
Definition inStep (x : execution) (e : execEvent) : option execution :=
  match e, inR x with
  | InReceives system now, Runs =>
      match rd x with
      | RdHolding =>
          Some (x <| rd := RdReading |> <| lastActive := (now / second)%Z |> <| inR := if system then Runs else Sends |>)
      | _ => None
      end
  | InSent, Sends => Some (x <| inR := Runs |>)
  | InCtx, Runs => if rctx x then Some (x <| inR := Shuts |>) else None
  | InClosed, Runs =>
      match rd x with RdDone => Some (x <| inR := Shuts |> <| rctx := true |>) | _ => None end
  | InError, Runs => if chErr x then Some (x <| chErr := false |> <| inR := Shuts |> <| rctx := true |>) else None
  | InLeaves, Shuts => match sd x with SdDone => Some (x <| inR := Done |>) | _ => None end
  | _, _ => None
  end.

(** The process, cmd.Wait, and statsRoutine.  cmd.Wait waits for the output to be
    copied; the report that follows is sent with a timeout. *)
Definition processStep (x : execution) (e : execEvent) : option execution :=
  match e, procW x with
  | Forks, _ => if alive x || held x then Some (x <| held := true |>) else None
  | Dies, _ => if alive x then Some (x <| alive := false |>) else None
  | HoldersEnd, _ => if held x then Some (x <| held := false |>) else None
  | Reaped failed, Runs =>
      if alive x || copying x then None
      else Some (x <| dead := true |> <| procW := Sends |> <| rctx := rctx x || failed |>)
  | ProcSent, Sends => Some (x <| procW := Shuts |> <| rctx := true |>)
  | ProcLeaves, Shuts => match sd x with SdDone => Some (x <| procW := Done |>) | _ => None end
  | StatsLeaves fails, _ =>
      if stats x && (rctx x || fails) then Some (x <| stats := false |> <| rctx := true |>) else None
  | _, _ => None
  end.

(** The output of the process: writeToOut, of which each message it fills is a
    step, and stdFlushRoutine; flushOut holds outLock while it is in sc.Send. *)
Definition outputStep (x : execution) (e : execEvent) : option execution :=
  match e, outUse x with
  | Outputs full now, OutFree =>
      if copying x then
        Some (if full then x <| outBuf := false |> <| lastActive := (now / second)%Z |> <| outUse := OutCopies |>
              else x <| outBuf := true |>)
      else None
  | FlushTick now, OutFree =>
      if flusher x && outBuf x then
        Some (x <| outBuf := false |> <| lastActive := (now / second)%Z |> <| outUse := OutTick |>)
      else None
  | OutSent, OutCopies => Some (x <| outUse := OutFree |> <| outBuf := true |>)
  | OutSent, OutTick => Some (x <| outUse := OutFree |>)
  | OutSent, OutLast => Some (x <| outUse := OutFree |> <| flusher := false |>)
  | CopyEnds, (OutFree | OutTick | OutLast) =>
      if copying x && negb (alive x || held x) then Some (x <| copying := false |>) else None
  | FlusherLeaves, OutFree =>
      if flusher x && dead x then
        Some (if outBuf x then x <| outBuf := false |> <| outUse := OutLast |> else x <| flusher := false |>)
      else None
  | _, _ => None
  end.

(** Shutdown: the one run of it; the others wait until it is done. *)
Definition shutStep (x : execution) (e : execEvent) : option execution :=
  match e, sd x with
  | ShutStarts, SdNone =>
      match inR x, procW x, sup x with
      | Shuts, _, _ | _, Shuts, _ | _, _, SupShuts =>
          Some (x <| shuttingDown := true |> <| rctx := true |> <| sd := SdLock |>)
      | _, _, _ => None
      end
  | ShutLocks, SdLock => if locked x then None else Some (x <| outClosed := true |> <| sd := SdSleep 3 |>)
  | ShutTimer, SdSleep k => Some (x <| sd := match k with O | 1 => SdDone | S k => SdSleep k end |>)
  | ShutSeesDeath, SdSleep _ => if dead x then Some (x <| sd := SdDone |>) else None
  | _, _ => None
  end.

(** Execution.Wait, and what follows it in executionManagerLoop. *)
Definition waitStep (x : execution) (e : execEvent) : option execution :=
  match e, wt x with
  | WaitStarts, WtShutdown => if shuttingDown x then Some (x <| wt := WtDrain |>) else None
  | WaitDrains, WtDrain => match rd x with RdHolding => Some (x <| rd := RdReading |>) | _ => None end
  | WaitClosed, WtDrain => match rd x with RdDone => Some (x <| wt := WtChannel |>) | _ => None end
  | WaitChannel, WtChannel =>
      match wr x with WrDone => Some (x <| wt := WtRoutines |> <| rctx := true |>) | _ => None end
  | WaitRoutines, WtRoutines =>
      match inR x, procW x with
      | Done, Done => if stats x || flusher x then None else Some (cancelAll (x <| wt := WtReturned |>))
      | _, _ => None
      end
  | SupCollects, _ =>
      match sup x, fd x with
      | SupWaits, FLeft _ => if monitoring x then None else Some (cancelAll (x <| sup := SupShuts |>))
      | _, _ => None
      end
  | SupLeaves, _ =>
      match sup x, sd x with SupShuts, SdDone => Some (x <| sup := SupReaps |>) | _, _ => None end
  | SupReaped, WtReturned => match sup x with SupReaps => Some (x <| sup := SupDone |>) | _ => None end
  | _, _ => None
  end.

Definition execStep (x : execution) (e : execEvent) : option execution :=
  if xpanicked x then None
  else match e with
       | Cancel => if xctx x then None else Some (cancelAll x)
       | MonitorFires _ | MonitorLeaves => monitorStep x e
       | FeedTake _ | FeedCtx | FeedCheck | FeedLock | FeedSend | FeedSendCtx => feedStep x e
       | WriterStarts | WriterNoMagic | WriterWrites | WriterFails | WriterEnds | ProcessWrites | ReaderReads | ReaderEnds
       | ReaderFails => channelStep x e
       | InReceives _ _ | InSent | InCtx | InClosed | InError | InLeaves => inStep x e
       | Forks | Dies | HoldersEnd | Reaped _ | ProcSent | ProcLeaves | StatsLeaves _ => processStep x e
       | Outputs _ _ | FlushTick _ | OutSent | CopyEnds | FlusherLeaves => outputStep x e
       | ShutStarts | ShutLocks | ShutTimer | ShutSeesDeath => shutStep x e
       | WaitStarts | WaitDrains | WaitClosed | WaitChannel | WaitRoutines | SupCollects | SupLeaves
       | SupReaped => waitStep x e
       end.

(** ** executionManagerLoop *)
Inductive managerAt :=
| MgTop                        (* the test of the context *)
| MgLazy                       (* waiting for a message *)
| MgDelay | MgNew              (* newExec: the respawn delay, execution.New *)
| MgRun (x : execution)
| MgReturned.

Record daemon := mkDaemon {
  mg : managerAt;
  msg : option Msg;
  (** Stop was called. *)
  stopped : bool;
  (** History: messages ProcessMessage returned nil for; messages that went to
      an execution that is over. *)
  accepted : list Msg;
  delivered : list Msg;
}.

#[export] Instance daemon_eta : Eta daemon := fun d =>
  mkDaemon (mg d) (msg d) (stopped d) (accepted d) (delivered d).

Definition daemonInit : daemon := mkDaemon MgTop None false [] [].

Inductive daemonEvent :=
| Stop
| Top
| LazyTake (m : Msg) | LazyCtx
| DelayOver | DelayCtx | NewFails | NewSucceeds
| Exec (e : execEvent)
| Next.

(** The message an execution hands on. *)
Definition leftOver (x : execution) : option Msg := match fd x with FLeft m => m | _ => None end.

Definition daemonStep (d : daemon) (e : daemonEvent) : option daemon :=
  match e, mg d with
  | Stop, MgRun x =>
      if stopped d || xpanicked x then None
      else Some (d <| stopped := true |> <| mg := MgRun (cancelAll x) |>)
  | Stop, _ => if stopped d then None else Some (d <| stopped := true |>)
  | Top, MgTop =>
      Some (d <| mg := if stopped d then MgReturned else if lazyStart then MgLazy else MgDelay |>)
  | LazyTake m, MgLazy => Some (d <| msg := Some m |> <| accepted := accepted d ++ [m] |> <| mg := MgDelay |>)
  | LazyCtx, MgLazy => if stopped d then Some (d <| mg := MgReturned |>) else None
  | DelayOver, MgDelay => Some (d <| mg := MgNew |>)
  | DelayCtx, MgDelay => if stopped d then Some (d <| mg := MgReturned |>) else None
  | NewFails, MgNew => Some (d <| mg := MgDelay |>)
  | NewSucceeds, MgNew => Some (d <| mg := MgRun (newExecution (stopped d) (msg d)) |>)
  | Exec Cancel, _ => None
  | Exec e, MgRun x =>
      x' ← execStep x e;
      Some (d <| mg := MgRun x' |>
              <| accepted := match e with FeedTake m => accepted d ++ [m] | _ => accepted d end |>)
  | Next, MgRun x =>
      match sup x with
      | SupDone => Some (d <| msg := leftOver x |> <| delivered := delivered d ++ passed x |> <| mg := MgTop |>)
      | _ => None
      end
  | _, _ => None
  end.

Definition daemonMoves (d d' : daemon) : Prop := exists e, daemonStep d e = Some d'.
Definition daemonReachable : daemon -> Prop := rtc daemonMoves daemonInit.

(** Steps that bring something new in from outside: a message for or from the
    process, output, a child of the process, a failed start. *)
Definition intake (e : daemonEvent) : bool :=
  match e with
  | LazyTake _ | NewFails | Exec (FeedTake _) | Exec ProcessWrites | Exec (Outputs _ _) | Exec Forks => true
  | _ => false
  end.

(** Steps that come by themselves as soon as they are possible: not those that
    bring something in, not those that are up to the process as long as it was
    not killed, to what it has started, or to the client's outbox. *)
Definition owed (d : daemon) (e : daemonEvent) : bool :=
  negb (intake e) &&
  match e, mg d with
  | Stop, _ => false
  | Exec Dies, MgRun x => match sd x with SdSleep 1 | SdDone => true | _ => false end
  | Exec WriterFails, MgRun x => negb (alive x || held x)
  | Exec (Cancel | MonitorFires _ | WriterStarts | WriterWrites | ReaderFails | StatsLeaves true), _ => false
  | Exec (InSent | OutSent | HoldersEnd), _ => false
  | _, _ => true
  end.

(** What others have to do: take the message out of the client's outbox that a
    goroutine waits to put there, and close the pipes. *)
Definition release (e : daemonEvent) : bool :=
  match e with Exec (InSent | OutSent | HoldersEnd) => true | _ => false end.

Definition waitsForOthers (x : execution) : bool :=
  held x || match inR x with Sends => true | _ => false end || match outUse x with OutFree => false | _ => true end.

Fixpoint daemonRun (d : daemon) (es : list daemonEvent) : option daemon :=
  match es with
  | [] => Some d
  | e :: es => match daemonStep d e with Some d' => daemonRun d' es | None => None end
  end.

(** ** What holds in every execution *)
Definition holding (f : feeder) : list Msg :=
  match f with FNext => [] | FHave m | FLock m | FSend m => [m] | FLeft m => option_list m end.

Record execOK (start : list Msg) (x : execution) : Prop := {
  eo_proc : procW x <> Runs -> dead x = true;
  eo_dead : dead x = true -> alive x = false;
  eo_sd_proc : procW x = Done -> sd x = SdDone;
  eo_sd_in : inR x = Done -> sd x = SdDone;
  eo_sd_sup : sup x = SupReaps \/ sup x = SupDone -> sd x = SdDone;
  eo_shut : sd x <> SdNone -> shuttingDown x = true;
  eo_out : sd x <> SdNone -> sd x <> SdLock -> outClosed x = true;
  eo_rd : wt x <> WtShutdown -> wt x <> WtDrain -> rd x = RdDone;
  eo_rctx : wt x = WtRoutines \/ wt x = WtReturned -> rctx x = true;
  eo_sup : sup x <> SupWaits -> monitoring x = false /\ exists m, fd x = FLeft m;
  eo_msgs : start ++ taken x = passed x ++ holding (fd x);
}.

Lemma execOK_new b m : execOK (option_list m) (newExecution b m).
Proof using Type. split; simpl; try done; try (by intros [?|?]). by destruct m. Qed.

(** Closes a field of [execOK] after a step from the fields before it. *)
Ltac solve_exec H3 H4 H5 H8 H9 H10 H11 :=
  first
    [ assumption | done | intros Ht; rewrite (H9 Ht); done | intros; congruence | intros; solve [auto]
    | intros [?|?]; solve [congruence|auto]
    | intros Hne; destruct (H10 Hne) as [? [? ?]]; solve [congruence|split; [done|by eexists]]
    | split; [done|by eexists]
    | intros Ha Hb; specialize (H8 Ha Hb); congruence
    | intros Ha; exfalso; first [specialize (H3 Ha)|specialize (H4 Ha)|specialize (H5 Ha)]; congruence
    | rewrite app_assoc, H11; match goal with |- context [fd ?x] => destruct (fd x); simplify_eq/= end; by rewrite ?app_nil_r
    | simplify_eq/=; rewrite ?app_assoc; rewrite H11; by rewrite ?app_nil_r ].

Lemma execStep_OK start x e x' : execOK start x -> execStep x e = Some x' -> execOK start x'.
Proof using Type.
  intros [H1 H2 H3 H4 H5 H6 H7 H8 H9 H10 H11] E. unfold execStep in E. destruct (xpanicked x); [done|].
  destruct e; simpl in E; unfold monitorStep, feedStep, channelStep, inStep, processStep, outputStep, shutStep, waitStep in E;
    repeat case_match; simplify_eq/=; repeat match goal with H : _ || _ = false |- _ => apply orb_false_iff in H as [? ?] end;
    split; simpl; solve_exec H3 H4 H5 H8 H9 H10 H11.
Qed.


(** ** Once the context is done

    Some step is left that brings in nothing new, until Wait was collected. *)
Ltac noStep Hno Hp e := let H := fresh "N" in
  assert (H := Hno e ltac:(repeat first [by left|right]) eq_refl); unfold execStep in H; rewrite Hp in H; simpl in H;
  unfold monitorStep, feedStep, channelStep, inStep, processStep, outputStep, shutStep, waitStep in H.

Definition candidates : list execEvent :=
  [MonitorLeaves; FeedCtx; FeedCheck; FeedLock; FeedSendCtx; SupCollects; ShutStarts; ShutLocks; ShutTimer; Dies; CopyEnds;
   Reaped false; ProcSent; ProcLeaves; WaitStarts; WaitDrains; WaitClosed; ReaderReads; ReaderEnds; WriterNoMagic;
   WriterEnds; WriterFails; WaitChannel; InClosed; InLeaves; StatsLeaves false; FlusherLeaves; WaitRoutines; SupLeaves;
   SupReaped].

Lemma exec_stuck start x d :
  mg d = MgRun x -> execOK start x -> xpanicked x = false -> xctx x = true -> waitsForOthers x = false ->
  (forall e, In e candidates -> owed d (Exec e) = true -> execStep x e = None) -> sup x = SupDone.
Proof using Type.
  intros Em [H1 H2 H3 H4 H5 H6 H7 H8 H9 H10 H11] Hp Hx [[Hh Hi]%orb_false_iff Ho]%orb_false_iff Hno.
  noStep Hno Hp MonitorLeaves. rewrite Hx in N. assert (Hmon : monitoring x = false) by by destruct (monitoring x).
  noStep Hno Hp FeedCtx. noStep Hno Hp FeedCheck. noStep Hno Hp FeedLock. noStep Hno Hp FeedSendCtx. rewrite Hx in N0, N3.
  assert (Hf : exists m, fd x = FLeft m) by (destruct (fd x); [done..|by eexists]). destruct Hf as [ml Hf].
  noStep Hno Hp SupCollects. rewrite Hf, Hmon in N4.
  assert (Hsup : sup x <> SupWaits) by (intros E; by rewrite E in N4).
  noStep Hno Hp ShutStarts. noStep Hno Hp ShutLocks. noStep Hno Hp ShutTimer. unfold locked in N6. rewrite Hf in N6.
  assert (Hsd : sd x = SdDone).
  { destruct (sd x) eqn:E; try done. exfalso.
    destruct (sup x) eqn:Es; [done| |by specialize (H5 ltac:(by left))|by specialize (H5 ltac:(by right))].
    by destruct (inR x), (procW x). }
  assert (Hsh : shuttingDown x = true) by (apply H6; congruence).
  assert (Hout : outClosed x = true) by (apply H7; congruence).
  clear N N0 N1 N2 N3 N4 N5 N6 N7.
  assert (Ha : alive x = false).
  { assert (Hd : owed d (Exec Dies) = true) by (unfold owed; simpl; by rewrite Em, Hsd).
    specialize (Hno Dies ltac:(repeat first [by left|right]) Hd). unfold execStep in Hno. rewrite Hp in Hno. simpl in Hno. by destruct (alive x). }
  assert (Hu : outUse x = OutFree) by by destruct (outUse x).
  noStep Hno Hp CopyEnds. rewrite Hu, Ha, Hh in N. assert (Hc : copying x = false) by by destruct (copying x).
  noStep Hno Hp (Reaped false). rewrite Ha, Hc in N0. simpl in N0. noStep Hno Hp ProcSent. noStep Hno Hp ProcLeaves.
  rewrite Hsd in N2. assert (Hpw : procW x = Done) by by destruct (procW x).
  assert (Hd : dead x = true) by (apply H1; by rewrite Hpw). clear N N0 N1 N2.
  noStep Hno Hp WaitStarts. rewrite Hsh in N. noStep Hno Hp WaitDrains. noStep Hno Hp WaitClosed.
  noStep Hno Hp ReaderReads. noStep Hno Hp ReaderEnds. rewrite Ha, Hh in N3. simpl in N3.
  assert (Hrd : rd x = RdDone).
  { destruct (rd x) eqn:E; [by destruct (wr x), (pipe x)| |done]. destruct (wt x) eqn:Ew; try done; apply H8; done. }
  rewrite Hrd in N1.
  noStep Hno Hp WriterNoMagic. noStep Hno Hp WriterEnds. rewrite Hrd in N4. rewrite Hout in N5.
  assert (Hwr : wr x = WrDone).
  { destruct (wr x) eqn:E; [done|done| |done].
    assert (Hw : owed d (Exec WriterFails) = true) by (unfold owed; simpl; by rewrite Em, Ha, Hh).
    specialize (Hno WriterFails ltac:(repeat first [by left|right]) Hw). unfold execStep in Hno. rewrite Hp in Hno. simpl in Hno. by rewrite E in Hno. }
  noStep Hno Hp WaitChannel. rewrite Hwr in N6.
  noStep Hno Hp InClosed. rewrite Hrd in N7. noStep Hno Hp InLeaves. rewrite Hsd in N8.
  assert (Hin : inR x = Done) by by destruct (inR x).
  assert (Hwt : wt x = WtRoutines \/ wt x = WtReturned) by (destruct (wt x); try done; [by left|by right]).
  noStep Hno Hp (StatsLeaves false). noStep Hno Hp FlusherLeaves. noStep Hno Hp WaitRoutines.
  rewrite (H9 Hwt) in N9. rewrite Hd, Hu in N10. rewrite Hin, Hpw in N11.
  assert (Hst : stats x = false) by by destruct (stats x).
  assert (Hfl : flusher x = false) by by destruct (flusher x).
  rewrite Hst, Hfl in N11. simpl in N11.
  assert (Hwr' : wt x = WtReturned) by (by destruct Hwt as [E|E]; [rewrite E in N11|]).
  noStep Hno Hp SupLeaves. noStep Hno Hp SupReaped. rewrite Hsd in N12. rewrite Hwr' in N12, N13.
  by destruct (sup x).
Qed.

(** What others have to do is a step as well. *)
Lemma others_step x :
  xpanicked x = false -> waitsForOthers x = true ->
  exists e, release (Exec e) = true /\ e <> Cancel /\ is_Some (execStep x e).
Proof using Type.
  intros Hp Hw. unfold waitsForOthers in Hw. unfold execStep. rewrite Hp. destruct (held x) eqn:Hh; simpl in Hw.
  { exists HoldersEnd. simpl. rewrite Hh. by destruct (procW x). }
  destruct (inR x) eqn:Hi; simpl in Hw; try (exists InSent; simpl; by rewrite Hi).
  all: exists OutSent; simpl; by destruct (outUse x).
Qed.

(** *** The work an execution has left *)
Definition feedWork (f : feeder) : nat :=
  match f with FLeft _ => 0 | FNext => 1 | FSend _ => 3 | FLock _ => 4 | FHave _ => 5 end.
Definition wrWork (w : chWriter) : nat := match w with WrDone => 0 | WrIdle => 1 | WrWriting => 2 | WrStart => 3 end.
Definition rdWork (r : chReader) : nat := match r with RdDone => 0 | RdReading => 1 | RdHolding => 3 end.
Definition inWork (t : task) : nat := match t with Done => 0 | Shuts => 1 | Runs => 2 | Sends => 3 end.
Definition procWork (t : task) : nat := match t with Done => 0 | Shuts => 1 | Sends => 2 | Runs => 3 end.
Definition outWork (u : outUser) : nat := match u with OutFree => 0 | OutTick | OutLast => 1 | OutCopies => 3 end.
Definition sdWork (s : shutter) : nat := match s with SdDone => 0 | SdSleep k => S k | SdLock => 5 | SdNone => 6 end.
Definition wtWork (w : waiter) : nat :=
  match w with WtReturned => 0 | WtRoutines => 1 | WtChannel => 2 | WtDrain => 3 | WtShutdown => 4 end.
Definition supWork (s : supervisor) : nat := match s with SupDone => 0 | SupReaps => 1 | SupShuts => 2 | SupWaits => 3 end.
Definition bitWork (b : bool) : nat := if b then 1 else 0.

Definition execWork (x : execution) : nat :=
  feedWork (fd x) + wrWork (wr x) + rdWork (rd x) + 3 * pipe x + inWork (inR x) + procWork (procW x) +
  outWork (outUse x) + 2 * bitWork (outBuf x) + bitWork (copying x) + bitWork (held x) + sdWork (sd x) + wtWork (wt x) + supWork (sup x) + bitWork (alive x) + bitWork (monitoring x) +
  bitWork (stats x) + bitWork (flusher x) + bitWork (negb (xctx x)) + bitWork (negb (xpanicked x)).

Lemma execStep_work x e x' :
  execStep x e = Some x' ->
  if intake (Exec e) then execWork x' <= execWork x + 4 else execWork x' < execWork x.
Proof using Type.
  intros E. unfold execStep in E. destruct (xpanicked x) eqn:Hp; [done|].
  destruct e; simpl in E; unfold monitorStep, feedStep, channelStep, inStep, processStep, outputStep, shutStep, waitStep in E;
    repeat case_match; simplify_eq; unfold execWork, cancelAll; cbn;
    repeat match goal with H : _ && _ = true |- _ => apply andb_true_iff in H as [? ?] end;
    repeat match goal with H : ?l = _ |- context [?l] => rewrite H end; cbn; clear; lia.
Qed.

(** ** The loop *)
Definition current (d : daemon) : list Msg := match mg d with MgRun x => taken x | _ => [] end.

Record daemonOK (d : daemon) : Prop := {
  do_exec x : mg d = MgRun x -> execOK (option_list (msg d)) x /\ (stopped d = true -> xctx x = true);
  do_order : delivered d ++ option_list (msg d) ++ current d `sublist_of` accepted d;
  do_kept : lazyStart = false -> accepted d = delivered d ++ option_list (msg d) ++ current d /\ mg d <> MgLazy;
}.

Lemma daemonOK_init : daemonOK daemonInit.
Proof using Type. by split. Qed.

Lemma execStep_taken x e x' :
  execStep x e = Some x' -> taken x' = taken x ++ match e with FeedTake m => [m] | _ => [] end.
Proof using Type.
  intros E. unfold execStep in E. destruct (xpanicked x); [done|].
  destruct e; simpl in E; unfold monitorStep, feedStep, channelStep, inStep, processStep, outputStep, shutStep, waitStep in E;
    repeat case_match; simplify_eq; cbn; by rewrite ?app_nil_r.
Qed.

(** The context is never taken back. *)
Lemma execStep_xctx x e x' : execStep x e = Some x' -> xctx x = true -> xctx x' = true.
Proof using Type.
  intros E Hx. unfold execStep in E. destruct (xpanicked x); [done|].
  destruct e; simpl in E; unfold monitorStep, feedStep, channelStep, inStep, processStep, outputStep, shutStep, waitStep in E;
    repeat case_match; simplify_eq; done.
Qed.

Lemma cancelAll_OK start x : execOK start x -> execOK start (cancelAll x).
Proof using Type. intros [H1 H2 H3 H4 H5 H6 H7 H8 H9 H10 H11]. by split. Qed.

(** A step of the loop that is outside of an execution on both sides, or
    enters one. *)
Lemma daemonOK_outside d d' :
  daemonOK d -> current d = [] -> msg d' = msg d -> accepted d' = accepted d -> delivered d' = delivered d ->
  (lazyStart = false -> mg d' <> MgLazy) ->
  (forall x, mg d' = MgRun x -> x = newExecution (stopped d') (msg d')) ->
  daemonOK d'.
Proof using Type.
  intros [H1 H2 H3] Hc Em Ea Ed Hl Hg.
  assert (Hc' : current d' = []).
  { unfold current. destruct (mg d') as [| | | |x|] eqn:E; try done. by rewrite (Hg x eq_refl). }
  rewrite Hc in H2, H3. split; rewrite ?Hc', ?Em, ?Ea, ?Ed; [|done|].
  - intros x E. rewrite (Hg x E), Em. split; [apply execOK_new|]. simpl. by intros ->.
  - intros Hlz. split; [by apply H3|by apply Hl].
Qed.

Lemma daemonOK_stop d d' :
  daemonOK d -> msg d' = msg d -> accepted d' = accepted d -> delivered d' = delivered d ->
  mg d' = match mg d with MgRun x => MgRun (cancelAll x) | g => g end -> daemonOK d'.
Proof using Type.
  intros [H1 H2 H3] Em Ea Ed Eg. assert (Hc : current d' = current d).
  { unfold current. rewrite Eg. by destruct (mg d). }
  split; rewrite ?Hc, ?Em, ?Ea, ?Ed; [|done|].
  - intros y Ey. rewrite Eg in Ey. destruct (mg d) as [| | | |x|]; try done. injection Ey as <-.
    split; [|done]. by apply cancelAll_OK, H1.
  - intros Hl. destruct (H3 Hl) as [H Hne]. split; [done|]. rewrite Eg. by destruct (mg d).
Qed.

Lemma daemonStep_OK d e d' : daemonOK d -> daemonStep d e = Some d' -> daemonOK d'.
Proof using Type.
  intros Hok E. pose proof Hok as [H1 H2 H3]. destruct e as [| |m| | | | | |e|]; simpl in E.
  - assert (Hst : d' = d <| stopped := true |> <| mg := match mg d with MgRun x => MgRun (cancelAll x) | g => g end |>).
    { destruct d as [[| | | |x|] ? [|] ? ?]; simpl in *; try done; try (destruct (xpanicked x); [done|]); by injection E as <-. }
    subst d'. by eapply (daemonOK_stop d).
  - destruct (mg d) eqn:Em; try done. injection E as <-.
    apply (daemonOK_outside d); try done; [unfold current; by rewrite Em| |]; simpl; destruct (stopped d), lazyStart; done.
  - destruct (mg d) eqn:Em; try done. injection E as <-. split; [done| |].
    + unfold current in *. simpl. rewrite Em, app_nil_r in H2.
      apply sublist_app; [|done]. etrans; [|exact H2]. by apply sublist_inserts_r.
    + intros Hl. by destruct (H3 Hl).
  - destruct (mg d) eqn:Em; try done. destruct (stopped d); [|done]. injection E as <-.
    apply (daemonOK_outside d); try done. unfold current. by rewrite Em.
  - destruct (mg d) eqn:Em; try done. injection E as <-. apply (daemonOK_outside d); try done. unfold current. by rewrite Em.
  - destruct (mg d) eqn:Em; try done. destruct (stopped d); [|done]. injection E as <-.
    apply (daemonOK_outside d); try done. unfold current. by rewrite Em.
  - destruct (mg d) eqn:Em; try done. injection E as <-. apply (daemonOK_outside d); try done. unfold current. by rewrite Em.
  - destruct (mg d) eqn:Em; try done. injection E as <-.
    apply (daemonOK_outside d); try done; [unfold current; by rewrite Em|]. by intros x [= <-].
  - assert (Hx : exists x x', mg d = MgRun x /\ execStep x e = Some x' /\
      d' = d <| mg := MgRun x' |> <| accepted := match e with FeedTake m => accepted d ++ [m] | _ => accepted d end |>).
    { destruct e, (mg d) as [| | | |x|]; try done; destruct (execStep x _) as [x'|] eqn:Ex; try done;
        injection E as <-; by exists x, x'. }
    destruct Hx as (x & x' & Em & Ex & ->). destruct (H1 x Em) as [Hx Hctx].
    assert (Ha : match e with FeedTake m => accepted d ++ [m] | _ => accepted d end =
      accepted d ++ match e with FeedTake m => [m] | _ => [] end) by (destruct e; by rewrite ?app_nil_r).
    rewrite Ha. unfold current in *. rewrite Em in *. split; simpl.
    + intros y [= <-]. split; [by eapply execStep_OK|]. intros Hs. by eapply execStep_xctx; [|apply Hctx].
    + unfold current. simpl. rewrite (execStep_taken _ _ _ Ex), !app_assoc. rewrite !app_assoc in H2. by apply sublist_app.
    + intros Hl. unfold current. simpl. destruct (H3 Hl) as [Eq _]. split; [|done].
      rewrite (execStep_taken _ _ _ Ex). by rewrite Eq, <- !app_assoc.
  - destruct (mg d) as [| | | |x|] eqn:Em; try done. destruct (sup x) eqn:Es; try done. injection E as <-.
    destruct (H1 x eq_refl) as [Hx _]. destruct (eo_sup _ _ Hx) as (_ & ml & Ef); [by rewrite Es|].
    pose proof (eo_msgs _ _ Hx) as Hm. rewrite Ef in Hm. simpl in Hm. unfold current in *. rewrite Em in *.
    assert (Hl : leftOver x = ml) by (unfold leftOver; by rewrite Ef).
    split; simpl; unfold current; simpl; rewrite ?Hl, ?app_nil_r, <- ?app_assoc, <- ?Hm; try done.
    intros Hlz. by destruct (H3 Hlz).
Qed.

Lemma daemonOK_reachable d : daemonReachable d -> daemonOK d.
Proof using Type.
  intros Hr. unfold daemonReachable in Hr. pose proof daemonOK_init as H0. revert Hr H0. generalize daemonInit.
  intros d0 Hr. induction Hr as [|d1 d2 d3 [e He] _ IH]; [done|]. intros H. by eapply IH, daemonStep_OK.
Qed.

(** What the channel has taken, and the message that waits for it. *)
Definition handedOver (d : daemon) : list Msg :=
  delivered d ++ match mg d with MgRun x => passed x | _ => [] end.
Definition waiting (d : daemon) : list Msg :=
  match mg d with MgRun x => holding (fd x) | _ => option_list (msg d) end.

Lemma handed_waiting d : daemonOK d -> handedOver d ++ waiting d = delivered d ++ option_list (msg d) ++ current d.
Proof using Type.
  intros [H1 _ _]. unfold handedOver, waiting, current. rewrite <- app_assoc. f_equal.
  destruct (mg d) as [| | | |x|]; rewrite ?app_nil_r; try done. destruct (H1 x eq_refl) as [Hx _].
  by rewrite (eo_msgs _ _ Hx).
Qed.

(** The messages a daemon service accepts go to its process in their order
    and each at most once, through all restarts; at most one waits; and none
    is lost, unless the service starts its process lazily. *)
Theorem daemon_messages_kept d :
  daemonReachable d ->
  handedOver d ++ waiting d `sublist_of` accepted d /\ length (waiting d) <= 1 /\
  (lazyStart = false -> accepted d = handedOver d ++ waiting d).
Proof using Type.
  intros Hr. pose proof (daemonOK_reachable d Hr) as Hok. rewrite (handed_waiting d Hok).
  split; [apply Hok|]. split; [|intros Hl; by apply (do_kept d Hok)].
  unfold waiting. destruct (mg d) as [| | | |x|]; try (by destruct (msg d); simpl; lia).
  destruct (fd x) as [| | | |[]]; simpl; lia.
Qed.

(** ** Stop *)

(** The most a new execution has to do, and the most a step that brings in
    something new can add. *)
Definition newWork : nat := 33.
Definition intakeWork : nat := 36.

Definition daemonWork (d : daemon) : nat :=
  match mg d with
  | MgReturned => 0
  | MgTop | MgLazy => 1
  | MgRun x => 2 + execWork x
  | MgNew => 3 + newWork
  | MgDelay => 4 + newWork
  end.

Definition crashed (d : daemon) : bool := match mg d with MgRun x => xpanicked x | _ => false end.

Lemma newExecution_work m : execWork (newExecution true m) <= newWork.
Proof using Type. destruct m; unfold execWork, newWork; simpl; destruct withStats, withOutput; simpl; lia. Qed.

#[local] Arguments newExecution : simpl never.
#[local] Arguments execWork : simpl never.

Lemma daemonStep_work d e d' :
  stopped d = true -> daemonStep d e = Some d' ->
  stopped d' = true /\
  (if intake e then daemonWork d' <= daemonWork d + intakeWork else daemonWork d' < daemonWork d).
Proof using Type.
  intros Hs E. unfold intakeWork.
  destruct e as [| |m| | | | | |e|]; simpl in E; [by destruct (mg d) as [| | | |x|]; rewrite Hs in E|..];
    try (destruct (mg d) eqn:Em; try done; rewrite ?Hs in E; injection E as <-; split; [done|];
         unfold daemonWork, newWork; rewrite Em; simpl; lia).
  - destruct (mg d) eqn:Em; try done. injection E as <-. split; [done|]. unfold daemonWork. rewrite Em, Hs. simpl.
    pose proof (newExecution_work (msg d)). lia.
  - assert (Hx : exists x x', mg d = MgRun x /\ execStep x e = Some x' /\ mg d' = MgRun x' /\ stopped d' = stopped d).
    { destruct e, (mg d) as [| | | |x|]; try done; destruct (execStep x _) as [x'|] eqn:Ex; try done;
        injection E as <-; by exists x, x'. }
    destruct Hx as (x & x' & Em & Ex & Em' & ->). split; [done|]. unfold daemonWork. rewrite Em, Em'.
    apply execStep_work in Ex. destruct (intake (Exec e)); lia.
  - destruct (mg d) as [| | | |x|] eqn:Em; try done. destruct (sup x); try done. injection E as <-.
    split; [done|]. unfold daemonWork. rewrite Em. simpl. lia.
Qed.

Lemma daemon_progress d :
  daemonOK d -> stopped d = true ->
  mg d = MgReturned \/ crashed d = true \/ (exists e, owed d e = true /\ is_Some (daemonStep d e)) \/
  exists x e, mg d = MgRun x /\ waitsForOthers x = true /\ release e = true /\ is_Some (daemonStep d e).
Proof using Type.
  intros [H1 _ _] Hs. destruct (mg d) as [| | | |x|] eqn:Em; [..|by left]; right.
  - right. left. exists Top. unfold owed. simpl. rewrite Em. by eexists.
  - right. left. exists LazyCtx. unfold owed. simpl. rewrite Em, Hs. by eexists.
  - right. left. exists DelayCtx. unfold owed. simpl. rewrite Em, Hs. by eexists.
  - right. left. exists NewSucceeds. unfold owed. simpl. rewrite Em. by eexists.
  - unfold crashed. rewrite Em. destruct (xpanicked x) eqn:Hp; [by left|right].
    assert (Hexec : forall e, e <> Cancel -> is_Some (execStep x e) -> is_Some (daemonStep d (Exec e))).
    { intros e Hc [x' E]. simpl. rewrite Em, E. by destruct e. }
    destruct (waitsForOthers x) eqn:Hw.
    { right. destruct (others_step x Hp Hw) as (e & He & Hc & Hx). exists x, (Exec e). by auto. }
    left. destruct (H1 x eq_refl) as [Hx Hc].
    destruct (sup x) eqn:Hsup; [| | |exists Next; unfold owed; simpl; rewrite Em, Hsup; by eexists].
    all: destruct (existsb (fun e => owed d (Exec e) && bool_decide (is_Some (execStep x e))) candidates) eqn:Hn.
    all: try (apply existsb_exists in Hn as (e & _ & [He Hx'%bool_decide_eq_true]%andb_true_iff); exists (Exec e);
      split; [done|]; apply Hexec; [|done]; intros ->; unfold owed in He; by rewrite andb_false_r in He).
    all: assert (Hd : sup x = SupDone); [|by rewrite Hsup in Hd].
    all: apply (exec_stuck _ x d Em Hx Hp (Hc Hs) Hw); intros e Hin He; destruct (execStep x e) eqn:E; [|done].
    all: rewrite (proj2 (existsb_exists _ _)) in Hn; [done|].
    all: exists e; rewrite He, E, bool_decide_true; [done|by eexists].
Qed.

(** C34: once Stop of a daemon service was called, its manager returns after a
    bounded number of steps, but for messages, output, children of the process
    and failed starts that still come in: as long as it has not returned, and
    the client has not panicked, there is a step that comes by itself - that
    the process dies counts as one only when it was killed - or the manager
    waits for others: for the client to take the message that a goroutine has
    in sc.Send, or for another process to close the pipes it has inherited.
    Then this is the step that is left, and it may never come: see
    [stop_waits_for_room] and [stop_waits_for_children]. *)
Theorem daemon_stop_ends d :
  daemonReachable d -> stopped d = true ->
  forall es d', daemonRun d es = Some d' ->
    length es <= daemonWork d + (1 + intakeWork) * length (List.filter intake es) /\
    (mg d' = MgReturned \/ crashed d' = true \/ (exists e, owed d' e = true /\ is_Some (daemonStep d' e)) \/
     exists x e, mg d' = MgRun x /\ waitsForOthers x = true /\ release e = true /\ is_Some (daemonStep d' e)).
Proof using Type.
  intros Hr Hs. pose proof (daemonOK_reachable d Hr) as Hok. clear Hr.
  intros es d'. revert d Hs Hok. induction es as [|e es IH]; intros d Hs Hok E; simpl in E.
  { injection E as <-. split; [cbn; lia|by apply daemon_progress]. }
  destruct (daemonStep d e) as [d1|] eqn:E1; [|done].
  destruct (daemonStep_work d e d1 Hs E1) as [Hs1 Hw].
  destruct (IH d1 Hs1 (daemonStep_OK _ _ _ Hok E1) E) as [Hle Hp]. split; [|done].
  cbn [List.filter length]. destruct (intake e); cbn [length]; unfold intakeWork in *; lia.
Qed.

Lemma daemonRun_reachable es d : daemonRun daemonInit es = Some d -> daemonReachable d.
Proof using Type.
  unfold daemonReachable. generalize daemonInit. induction es as [|e es IH]; intros d0 E; simpl in E.
  { by injection E as <-. }
  destruct (daemonStep d0 e) as [d1|] eqn:E1; [|done]. eapply rtc_l; [by exists e|]. by apply IH.
Qed.
End Daemon.

(** ** What goes wrong

    With LazyStart, the message that an execution left over is overwritten by
    the next one: ProcessMessage has returned nil for message 1, which no
    process sees. *)
Definition startLazily : list (daemonEvent (Msg := nat)) :=
  [Top; LazyTake 1; DelayOver; NewSucceeds; Exec ReaderFails; Exec InClosed; Exec ShutStarts; Exec ShutLocks;
   Exec FeedCheck; Exec MonitorLeaves; Exec SupCollects; Exec Dies; Exec CopyEnds; Exec (Reaped false);
   Exec ShutSeesDeath; Exec SupLeaves; Exec InLeaves; Exec ProcSent; Exec ProcLeaves; Exec WriterNoMagic; Exec WaitStarts; Exec WaitClosed;
   Exec WaitChannel; Exec (StatsLeaves false); Exec FlusherLeaves; Exec WaitRoutines; Exec SupReaped; Next;
   Top; LazyTake 2].

Example lazy_start_loses :
  option_map (fun d => (accepted d, handedOver d ++ waiting d)) (daemonRun 0 true true true daemonInit startLazily) =
    Some ([1; 2], [2]).
Proof. vm_compute. reflexivity. Qed.

(** SendMsg waits for the channel with e.mu held, and Shutdown waits for e.mu:
    when the process dies while the channel writes to it, nothing but Stop goes
    on, so that the process is never started again. *)
Definition wedged : list (daemonEvent (Msg := nat)) :=
  [Top; DelayOver; NewSucceeds; Exec WriterStarts; Exec (FeedTake 1); Exec FeedCheck; Exec FeedLock; Exec FeedSend;
   Exec (FeedTake 2); Exec FeedCheck; Exec FeedLock; Exec Dies; Exec WriterFails; Exec ReaderEnds; Exec InClosed;
   Exec CopyEnds; Exec (Reaped false); Exec ProcSent; Exec ShutStarts; Exec WaitStarts; Exec WaitClosed; Exec WaitChannel; Exec (StatsLeaves false);
   Exec FlusherLeaves].

Example daemon_wedges :
  exists d, daemonRun 0 false true true daemonInit wedged = Some d /\ crashed d = false /\ waiting d = [2] /\
    forall e d', daemonStep 0 false true true d e = Some d' -> e = Stop.
Proof.
  eexists. split; [vm_compute; reflexivity|]. split; [done|]. split; [done|].
  intros e d'. destruct e as [| | | | | | | |e|]; try done. by destruct e.
Qed.

(** SendMsg looks at shuttingDown before it takes the lock: in between the
    channel's Out may be closed. *)
Definition closedUnderway : list (daemonEvent (Msg := nat)) :=
  [Top; DelayOver; NewSucceeds; Exec WriterStarts; Exec (FeedTake 1); Exec FeedCheck; Exec ReaderFails; Exec InClosed;
   Exec ShutStarts; Exec ShutLocks; Exec FeedLock; Exec FeedSend].

Example send_on_closed_channel :
  crashed <$> daemonRun 0 false true true daemonInit closedUnderway = Some true.
Proof. reflexivity. Qed.

(** lastActive is zero until the process has sent or written something, so
    that with an inactivity timeout of a minute the process is given up at
    once, in 2020 for instance. *)
Example inactive_at_birth :
  let now := (1577836800 * second)%Z in
  (fun d => match mg d with MgRun x => (monitoring x, xctx x) | _ => (true, false) end)
    <$> daemonRun (60 * second)%Z true true true daemonInit
          [Top; LazyTake 1; DelayOver; NewSucceeds; Exec (MonitorFires now)] = Some (false, true).
Proof. reflexivity. Qed.

(** A message of the process waits for room in the client, and the service is
    stopped: everything else ends, but the manager waits for inRoutine.
    Client.Stop stops the communicator, which makes that room, before it stops
    the services. *)
Definition stoppedInSend : list (daemonEvent (Msg := nat)) :=
  [Top; DelayOver; NewSucceeds; Exec WriterStarts; Exec ProcessWrites; Exec ReaderReads;
   Exec (InReceives false 5); Stop; Exec MonitorLeaves; Exec FeedCtx; Exec SupCollects; Exec ShutStarts;
   Exec ShutLocks; Exec ShutTimer; Exec ShutTimer; Exec Dies; Exec CopyEnds; Exec (Reaped true); Exec ProcSent;
   Exec ShutSeesDeath; Exec ProcLeaves; Exec SupLeaves; Exec WriterEnds; Exec ReaderEnds; Exec WaitStarts;
   Exec WaitClosed; Exec WaitChannel; Exec (StatsLeaves false); Exec FlusherLeaves].

Example stop_waits_for_room :
  exists d, daemonRun 0 false true true daemonInit stoppedInSend = Some d /\ crashed d = false /\ mg d <> MgReturned /\
    forall e d', daemonStep 0 false true true d e = Some d' -> e = Exec InSent.
Proof.
  eexists. split; [vm_compute; reflexivity|]. split; [done|]. split; [done|].
  intros e d'. destruct e as [| | | | | | | |e|]; try done. by destruct e.
Qed.

(** The process has started another one, which keeps its standard output open
    when the process is killed: cmd.Wait does not return before that one ends. *)
Definition stoppedWithChild : list (daemonEvent (Msg := nat)) :=
  [Top; DelayOver; NewSucceeds; Exec WriterStarts; Exec Forks; Stop; Exec MonitorLeaves; Exec FeedCtx;
   Exec SupCollects; Exec ShutStarts; Exec ShutLocks; Exec ShutTimer; Exec ShutTimer; Exec Dies; Exec ShutTimer;
   Exec SupLeaves; Exec WriterEnds; Exec WaitStarts; Exec InCtx; Exec InLeaves; Exec (StatsLeaves false)].

Example stop_waits_for_children :
  exists d, daemonRun 0 false true true daemonInit stoppedWithChild = Some d /\ crashed d = false /\
    mg d <> MgReturned /\
    forall e d', daemonStep 0 false true true d e = Some d' -> owed d e = false.
Proof.
  eexists. split; [vm_compute; reflexivity|]. split; [done|]. split; [done|].
  intros e d'. destruct e as [| | | | | | | |e|]; try done. by destruct e.
Qed.

(** *** Witnesses *)
Definition stopEarly : list (daemonEvent (Msg := nat)) :=
  [Top; DelayOver; NewSucceeds; Exec (FeedTake 1); Stop].

Lemma daemon_stop_ends_witness :
  exists d, daemonRun 0 false true true daemonInit stopEarly = Some d /\
    forall es d', daemonRun 0 false true true d es = Some d' ->
      length es <= daemonWork d + (1 + intakeWork) * length (List.filter intake es) /\
      (mg d' = MgReturned \/ crashed d' = true \/
       (exists e, owed d' e = true /\ is_Some (daemonStep 0 false true true d' e)) \/
       exists x e, mg d' = MgRun x /\ waitsForOthers x = true /\ release e = true /\
         is_Some (daemonStep 0 false true true d' e)).
Proof.
  destruct (daemonRun 0 false true true daemonInit stopEarly) as [d|] eqn:E; [|vm_compute in E; discriminate E].
  exists d. split; [done|]. apply (daemon_stop_ends 0 false true true d).
  - exact (daemonRun_reachable _ _ _ _ _ _ E).
  - vm_compute in E. by injection E as <-.
Defined.

Lemma daemon_messages_kept_witness :
  exists d, daemonRun 0 false true true daemonInit wedged = Some d /\ accepted d = handedOver d ++ waiting d.
Proof.
  destruct (daemonRun 0 false true true daemonInit wedged) as [d|] eqn:E; [|vm_compute in E; discriminate E].
  exists d. split; [done|]. apply (daemon_messages_kept 0 false true true d); [|done].
  exact (daemonRun_reachable _ _ _ _ _ _ E).
Defined.
