(* ===== verification/Relentless.v ===== *)
(** * Messages that survive their channel

    src/client/channel/relentless.go: a RelentlessChannel, which keeps every
    message until the other end has acknowledged it and sends what it keeps
    again over each new channel, and the RelentlessAcknowledger at the other
    end.  In between are the two directions of the current channel, in order
    and whole as long as it lasts (see Framing); what is on it when it breaks
    is lost.  A step is the turn of one loop between two points where it can
    wait. *)
From S2P Require Import Prelude.

Abbreviation id := string.

(** What processAck looks at of a message from the other end: the service in
    its source, and what unmarshalling its data as MessageAckData yields. *)
Record inMsg := mkIn { MessageType : string; Source : option string; Data : outcome (list id) }.

Section Relentless.
Context {A : Type}.

(** A service.AckMessage, with the SourceMessageId. *)
Record ackMsg := mkAckMsg { mid : id; payload : A }.

(** ** processAck

    Whether the message was an acknowledgement, the messages to acknowledge in
    their order, and what is left pending. *)
Definition ackIds (p : gmap id ackMsg) (ids : list id) : list ackMsg * gmap id ackMsg :=
  foldl (fun r k => match r.2 !! k with Some m => (r.1 ++ [m], delete k r.2) | None => r end) ([], p) ids.

Definition processAck (p : gmap id ackMsg) (m : inMsg) : outcome (bool * (list ackMsg * gmap id ackMsg)) :=
  if negb (MessageType m =? "LocalAck")%string then Ok (false, ([], p))
  else match Source m with
       | None => Crash "nil Source"
       | Some s =>
           if negb (s =? "client")%string then Ok (false, ([], p))
           else match Data m with
                | Ok ids => Ok (true, ackIds p ids)
                | _ => Ok (true, ([], p))
                end
       end.

(** The message flush sends. *)
Definition ackMessage (ids : list id) : inMsg := mkIn "LocalAck" (Some "client") (Ok ids).

(** ** Both ends

    The places of processingLoop: at builder(); in the loop over pending, with
    what the range has not reached; in sendOne there, and after receiveOne; in
    receiveOne; returned. *)
Inductive place :=
| Building
| Resending (todo : list id)
| SendingAgain (m : ackMsg) (todo : list id)
| Receiving
| Sending (m : ackMsg)
| Returned.

Record link := mkLink {
  at_ : place;
  pending : gmap id ackMsg;
  (** The current channel works; what is on it, in both directions. *)
  up : bool;
  down : list ackMsg;
  back : list inMsg;
  (** The acknowledger: a message for In; the messages its user has; the
      channel acks and the list toAck. *)
  offered : option ackMsg;
  inUse : list id;
  acks : list id;
  toAck : list id;
  (** History: what came from Out, with ids given; the callbacks; what the users
      of the other end got, and acknowledged; what was passed on to In. *)
  got : list ackMsg;
  acked : list ackMsg;
  seen : list ackMsg;
  confirmed : list id;
  forwarded : list inMsg;
}.

#[export] Instance link_eta : Eta link := fun s =>
  mkLink (at_ s) (pending s) (up s) (down s) (back s) (offered s) (inUse s) (acks s) (toAck s) (got s) (acked s)
    (seen s) (confirmed s) (forwarded s).

Definition linkInit : link := mkLink Building ∅ false [] [] None [] [] [] [] [] [] [] [].

(** NewRelentlessAcknowledger's [size]. *)
Context (size : nat).

Inductive linkEvent :=
| Built                      (* builder() returns a channel to a new process *)
| BuiltNothing
| ResendNext (k : id)        (* the range yields an entry *)
| ResendDone
| Sent                       (* c.ch.Out <- m *)
| Get (m : ackMsg) (fresh : id)  (* a message from Out; [fresh] is random *)
| Shutdown                   (* Out is closed *)
| FromIn                     (* a message from c.ch.In *)
| Fails                      (* c.ch.Err, or In is closed *)
| Break (flushed : bool)     (* the channel breaks, or the other end stops *)
| Take                       (* the acknowledger: <-a.c.In *)
| Hand                       (* out <- ac *)
| UserAcks (k : id)          (* ac.Ack() *)
| Collect                    (* <-a.acks *)
| Flush                      (* the ticker *)
| Says (m : inMsg).          (* the other end sends a message of its own *)

Definition withId (m : ackMsg) (fresh : id) : ackMsg := if (mid m =? "")%string then mkAckMsg fresh (payload m) else m.

(** cleanupChan. *)
Definition cleanup (s : link) : link := s <| up := false |>.

(** A message from In, in sendOne and receiveOne.  What is no acknowledgement goes
    to the user, who reads his In: the channel to him has room for five, and the
    loop would wait while it is full. *)
Definition fromIn (s : link) : option link :=
  match back s with
  | m :: rest =>
      match processAck (pending s) m with
      | Ok (true, (done, p)) => Some (s <| back := rest |> <| pending := p |> <| acked := acked s ++ done |>)
      | Ok (false, _) => Some (s <| back := rest |> <| forwarded := forwarded s ++ [m] |>)
      | _ => None
      end
  | [] => None
  end.

Definition relentlessStep (s : link) (e : linkEvent) : option link :=
  match e, at_ s with
  | Built, Building =>
      Some ((cleanup s) <| up := true |> <| down := [] |> <| back := [] |> <| offered := None |> <| inUse := [] |>
              <| acks := [] |> <| toAck := [] |> <| at_ := Resending (fst <$> map_to_list (pending s)) |>)
  | BuiltNothing, Building => Some ((cleanup s) <| at_ := Returned |>)
  | ResendNext k, Resending todo =>
      match takeOut k todo, pending s !! k with
      | Some todo, Some m => Some (s <| at_ := SendingAgain m todo |>)
      | _, _ => None
      end
  | ResendDone, Resending todo =>
      if forallb (fun k => negb (bool_decide (is_Some (pending s !! k)))) todo then Some (s <| at_ := Receiving |>) else None
  | Sent, SendingAgain m todo => Some (s <| down := down s ++ [m] |> <| at_ := Resending todo |>)
  | Sent, Sending m => Some (s <| down := down s ++ [m] |> <| at_ := Receiving |>)
  | Get m fresh, Receiving =>
      let m := withId m fresh in
      Some (s <| pending := <[mid m := m]> (pending s) |> <| got := got s ++ [m] |> <| at_ := Sending m |>)
  | Shutdown, Receiving => Some ((cleanup s) <| at_ := Returned |>)
  | FromIn, (SendingAgain _ _ | Sending _ | Receiving) => fromIn s
  | Fails, (SendingAgain _ _ | Sending _ | Receiving) => Some ((cleanup s) <| at_ := Building |>)
  | _, _ => None
  end.

Definition acknowledgerStep (s : link) (e : linkEvent) : option link :=
  if up s then
    match e, offered s with
    | Take, None => match down s with m :: rest => Some (s <| down := rest |> <| offered := Some m |>) | [] => None end
    | Hand, Some m => Some (s <| offered := None |> <| inUse := inUse s ++ [mid m] |> <| seen := seen s ++ [m] |>)
    | UserAcks k, _ =>
        match takeOut k (inUse s) with
        | Some rest =>
            if decide (length (acks s) < size) then
              Some (s <| inUse := rest |> <| acks := acks s ++ [k] |> <| confirmed := confirmed s ++ [k] |>)
            else None
        | None => None
        end
    | Collect, None =>
        match acks s with k :: rest => Some (s <| acks := rest |> <| toAck := toAck s ++ [k] |>) | [] => None end
    | Flush, None =>
        match toAck s with [] => None | _ => Some (s <| back := back s ++ [ackMessage (toAck s)] |> <| toAck := [] |>) end
    | Says m, _ => if (MessageType m =? "LocalAck")%string then None else Some (s <| back := back s ++ [m] |>)
    | Break flushed, _ =>
        let s := s <| up := false |> in
        Some (if flushed && bool_decide (toAck s <> []) then s <| back := back s ++ [ackMessage (toAck s)] |> else s)
    | _, _ => None
    end
  else None.

Definition linkStep (s : link) (e : linkEvent) : option link :=
  match e with
  | Break _ | Take | Hand | UserAcks _ | Collect | Flush | Says _ => acknowledgerStep s e
  | _ => relentlessStep s e
  end.

Definition linkMoves (s s' : link) : Prop := exists e, linkStep s e = Some s'.
Definition linkReachable : link -> Prop := rtc linkMoves linkInit.

Fixpoint linkRun (s : link) (es : list linkEvent) : option link :=
  match es with
  | [] => Some s
  | e :: es => match linkStep s e with Some s' => linkRun s' es | None => None end
  end.

(** ** What always holds *)
Abbreviation values p := (snd <$> map_to_list p).

Lemma ackIds_snoc (p : gmap id ackMsg) ids k :
  ackIds p (ids ++ [k]) =
    (let r := ackIds p ids in
     match r.2 !! k with Some m => (r.1 ++ [m], delete k r.2) | None => r end).
Proof using Type. unfold ackIds. by rewrite foldl_snoc. Qed.

Lemma ackIds_spec (p : gmap id ackMsg) ids :
  values p ≡ₚ (ackIds p ids).1 ++ values (ackIds p ids).2 /\
  (forall k, (ackIds p ids).2 !! k = if decide (k ∈ ids) then None else p !! k) /\
  (forall m, m ∈ (ackIds p ids).1 -> exists k, k ∈ ids /\ p !! k = Some m).
Proof using Type.
  induction ids as [|k ids IH] using rev_ind.
  { split; [done|]. split; [done|]. by intros m ?%not_elem_of_nil. }
  rewrite ackIds_snoc. cbv zeta. destruct IH as (Hp & Hl & Hm). set (r := ackIds p ids) in *.
  destruct (r.2 !! k) as [m|] eqn:Hk; simpl; (split; [|split]).
  - rewrite Hp, <- app_assoc. apply Permutation_app_head. simpl. by rewrite <- (map_to_list_delete r.2 k m Hk).
  - intros j. destruct (decide (j = k)) as [->|Hne].
    + rewrite lookup_delete_eq, decide_True; [done|]. apply elem_of_app. right. by apply list_elem_of_singleton.
    + rewrite lookup_delete_ne, Hl by done.
      destruct (decide (j ∈ ids)), (decide (j ∈ ids ++ [k])) as [H|H]; try done; exfalso;
        rewrite elem_of_app, list_elem_of_singleton in H; naive_solver.
  - intros x [Hx|Hx%list_elem_of_singleton]%elem_of_app.
    + destruct (Hm x Hx) as (j & Hj & E). exists j. split; [apply elem_of_app; by left|done].
    + subst x. exists k. split; [apply elem_of_app; right; by apply list_elem_of_singleton|].
      rewrite Hl in Hk. by case_decide.
  - done.
  - intros j. rewrite Hl. destruct (decide (j = k)) as [->|Hne].
    + rewrite Hl in Hk. rewrite (decide_True (P := k ∈ ids ++ [k])).
      * by case_decide.
      * apply elem_of_app. right. by apply list_elem_of_singleton.
    + destruct (decide (j ∈ ids)), (decide (j ∈ ids ++ [k])) as [H|H]; try done; exfalso;
        rewrite elem_of_app, list_elem_of_singleton in H; naive_solver.
  - intros x Hx. destruct (Hm x Hx) as (j & Hj & E). exists j. split; [apply elem_of_app; by left|done].
Qed.

(** The ids that messages on their way acknowledge. *)
Definition idsOf (m : inMsg) : list id :=
  if (MessageType m =? "LocalAck")%string && match Source m with Some s => (s =? "client")%string | None => false end
  then match Data m with Ok ids => ids | _ => [] end else [].
Definition backIds (l : list inMsg) : list id := concat (idsOf <$> l).

(** What is still to be sent on this channel. *)
Definition toSend (a : place) : list id :=
  match a with
  | Resending todo => todo
  | SendingAgain m todo => mid m :: todo
  | Sending m => [mid m]
  | _ => []
  end.

(** Where an id is, on its way there and back. *)
Definition underway (s : link) : list id :=
  toSend (at_ s) ++ (mid <$> down s) ++ (mid <$> option_list (offered s)) ++ inUse s ++ acks s ++ toAck s ++ backIds (back s).

Definition atMsg (a : place) : list ackMsg := match a with SendingAgain m _ | Sending m => [m] | _ => [] end.

(** The steps of a channel that lasts while nothing new is sent, and how many of
    them can be left. *)
Definition calm (e : linkEvent) : bool :=
  match e with
  | ResendNext _ | ResendDone | Sent | FromIn | Take | Hand | UserAcks _ | Collect | Flush => true
  | _ => false
  end.
Definition placeWork (a : place) : nat :=
  match a with
  | Resending todo => 8 * length todo + 1
  | SendingAgain _ todo => 8 * length todo + 8
  | Sending _ => 7
  | _ => 0
  end.
Definition linkWork (s : link) : nat :=
  placeWork (at_ s) + 6 * length (down s) + 5 * length (option_list (offered s)) + 4 * length (inUse s) +
  3 * length (acks s) + 2 * length (toAck s) + length (back s).

(** The places where there is a channel. *)
Definition linked (a : place) : Prop := match a with Building | Returned => False | _ => True end.

Record linkOK (s : link) : Prop := {
  lo_keys k m : pending s !! k = Some m -> mid m = k /\ m ∈ got s;
  lo_got : NoDup (mid <$> got s) -> got s ≡ₚ acked s ++ values (pending s);
  lo_acked m : m ∈ acked s -> mid m ∈ confirmed s /\ m ∈ got s;
  lo_confirmed k : k ∈ acks s ++ toAck s ++ backIds (back s) -> k ∈ confirmed s;
  lo_seen k : k ∈ inUse s ++ confirmed s -> k ∈ mid <$> seen s;
  lo_source m : m ∈ seen s ++ option_list (offered s) ++ down s ++ atMsg (at_ s) -> m ∈ got s;
  lo_back m : m ∈ back s -> MessageType m = "LocalAck"%string -> is_Some (Source m);
  lo_path : up s = true -> linked (at_ s) /\ forall k, is_Some (pending s !! k) -> k ∈ underway s;
}.
End Relentless.
Arguments ackMsg : clear implicits.
Arguments link : clear implicits.
Arguments linkEvent : clear implicits.

Section RelentlessOK.
Context {A : Type} (size : nat).
Implicit Types s : link A.
Abbreviation values p := (snd <$> map_to_list p).

Lemma linkOK_init : linkOK (linkInit : link A).
Proof. split; simpl; try done; set_solver. Qed.

Lemma processAck_ids (p : gmap id (ackMsg A)) m done p' :
  processAck p m = Ok (true, (done, p')) -> (done, p') = ackIds p (idsOf m).
Proof.
  unfold processAck, idsOf. destruct (MessageType m =? "LocalAck")%string; [|done]. simpl.
  destruct (Source m) as [sv|]; [|done]. destruct (sv =? "client")%string; [|done]. simpl.
  destruct (Data m); intros E; injection E; intros; by subst.
Qed.

Lemma fromIn_OK s s' : linkOK s -> fromIn s = Some s' -> linkOK s'.
Proof.
  intros [H1 H2 H3 H4 H5 H6 Hs H7] E. unfold fromIn in E. destruct (back s) as [|m rest] eqn:Eb; [done|].
  assert (Hback : forall k, k ∈ backIds (m :: rest) <-> k ∈ idsOf m \/ k ∈ backIds rest).
  { intros k. unfold backIds. cbn. by rewrite elem_of_app. }
  destruct (processAck (pending s) m) as [[[|] [dn p]]| |] eqn:Ep; [| |done..]; injection E as <-.
  - apply processAck_ids in Ep. pose proof (ackIds_spec (pending s) (idsOf m)) as (Hp & Hl & Hm).
    rewrite <- Ep in Hp, Hl, Hm. simpl in Hp, Hl, Hm.
    split; simpl; try done.
    + intros k x. rewrite Hl. case_decide; [done|apply H1].
    + intros Hnd. rewrite (H2 Hnd), Hp. by rewrite app_assoc.
    + intros x [Hx|Hx]%elem_of_app; [by apply H3|]. destruct (Hm x Hx) as (k & Hk & Hpx).
      destruct (H1 _ _ Hpx) as [<- Hg]. split; [|done]. apply H4. rewrite !elem_of_app, Hback. tauto.
    + intros k Hk. apply H4. rewrite !elem_of_app in *. rewrite Hback. tauto.
    + intros x Hx. apply Hs. by right.
    + intros Hup. destruct (H7 Hup) as [Hb Hpath]. split; [done|]. intros k. rewrite Hl. case_decide as Hn; [by intros []|].
      intros Hk. specialize (Hpath k Hk). unfold underway in *. rewrite Eb in Hpath. simpl.
      rewrite !elem_of_app in *. rewrite Hback in Hpath. tauto.
  - assert (Hno : forall k, k ∈ idsOf m -> False).
    { unfold processAck, idsOf in *. intros k. destruct (MessageType m =? "LocalAck")%string; simpl in *; [|by intros ?%not_elem_of_nil].
      destruct (Source m) as [sv|]; simpl in *; [|by intros ?%not_elem_of_nil].
      destruct (sv =? "client")%string; simpl in *; [by destruct (Data m)|by intros ?%not_elem_of_nil]. }
    split; simpl; try done.
    + intros k Hk. apply H4. rewrite !elem_of_app in *. rewrite Hback. tauto.
    + intros x Hx. apply Hs. by right.
    + intros Hup. destruct (H7 Hup) as [Hb Hpath]. split; [done|]. intros k Hk. specialize (Hpath k Hk). specialize (Hno k).
      unfold underway in *. rewrite Eb in Hpath. simpl. rewrite !elem_of_app in *. rewrite Hback in Hpath. tauto.
Qed.

Lemma values_insert (p : gmap id (ackMsg A)) k m : p !! k = None -> values (<[k := m]> p) ≡ₚ m :: values p.
Proof. intros Hk. by rewrite map_to_list_insert. Qed.

Lemma backIds_snoc l m k : k ∈ backIds (l ++ [m]) <-> k ∈ backIds l \/ k ∈ idsOf m.
Proof. unfold backIds. rewrite fmap_app, concat_app, elem_of_app. simpl. by rewrite app_nil_r. Qed.

Lemma idsOf_ack ids k : k ∈ idsOf (ackMessage ids) <-> k ∈ ids.
Proof. done. Qed.

Lemma option_list_None {B} : option_list (None : option B) = [].
Proof. done. Qed.
Lemma option_list_Some {B} (x : B) : option_list (Some x) = [x].
Proof. done. Qed.

(** Membership in concatenations and in the lists of what is underway. *)
Ltac solve_in :=
  unfold underway in *; simpl; cbn [atMsg toSend] in *;
  repeat progress (rewrite ?option_list_None, ?option_list_Some, ?fmap_cons, ?fmap_nil, ?elem_of_app, ?elem_of_cons, ?elem_of_nil, ?backIds_snoc, ?idsOf_ack in * );
  tauto.

(** Steps of the acknowledger keep what waits, and pass it along. *)
Lemma acknowledgerStep_OK s e s' : linkOK s -> acknowledgerStep size s e = Some s' -> linkOK s'.
Proof.
  intros [H1 H2 H3 H4 H5 H6 Hs H7] E. unfold acknowledgerStep in E. destruct (up s) eqn:Hup; [|done].
  destruct (H7 eq_refl) as [Hb Hpath]. clear H7. unfold underway in Hpath.
  destruct e as [| | | | | | | | |fl| | |k| | |m]; try done.
  - injection E as <-. destruct (fl && bool_decide (toAck s <> [])); [|by split; simpl].
    split; simpl; try done.
    + intros k Hk. apply H4. rewrite !elem_of_app, ?backIds_snoc in *. unfold ackMessage, idsOf in Hk. simpl in Hk. tauto.
    + intros x [Hx| ->%list_elem_of_singleton]%elem_of_app ?; [by apply Hs|done].
  - destruct (offered s) eqn:Eo; [done|]. destruct (down s) as [|m rest] eqn:Ed; [done|]. injection E as <-.
    split; simpl; try done.
    + intros _. split; [done|]. intros k Hk. specialize (Hpath k Hk). solve_in.
  - destruct (offered s) as [m|] eqn:Eo; [|done]. injection E as <-. split; simpl; try done.
    + intros k Hk. specialize (H5 k). rewrite fmap_app. solve_in.
    + intros x Hx. apply H6. solve_in.
    + intros _. split; [done|]. intros k Hk. specialize (Hpath k Hk). solve_in.
  - assert (E' : (match takeOut k (inUse s) with Some rest => if decide (length (acks s) < size) then
       Some (s <| inUse := rest |> <| acks := acks s ++ [k] |> <| confirmed := confirmed s ++ [k] |>) else None | None => None end) = Some s')
      by by destruct (offered s).
    clear E. destruct (takeOut k (inUse s)) as [rest|] eqn:Et; [|done]. apply takeOut_perm in Et.
    assert (Hin : forall j, j ∈ inUse s <-> j = k \/ j ∈ rest) by (intros j; by rewrite Et, elem_of_cons).
    case_decide; [|done]. injection E' as <-. split; simpl; try done.
    + intros x Hx. destruct (H3 x Hx). split; [|done]. apply elem_of_app. by left.
    + intros j Hj. specialize (H4 j). solve_in.
    + intros j Hj. specialize (H5 j). rewrite !elem_of_app, ?elem_of_cons, ?elem_of_nil, ?Hin in *. tauto.
    + intros _. split; [done|]. intros j Hj. specialize (Hpath j Hj). unfold underway. simpl in *.
      rewrite !elem_of_app, ?elem_of_cons, ?elem_of_nil, ?Hin in *. tauto.
  - destruct (offered s) eqn:Eo; [done|]. destruct (acks s) as [|k rest] eqn:Ea; [done|]. injection E as <-.
    split; simpl; try done.
    + intros j Hj. specialize (H4 j). solve_in.
    + intros x Hx. apply H6. by rewrite Eo in *.
    + intros _. split; [done|]. intros j Hj. specialize (Hpath j Hj). rewrite Eo in *. unfold underway. simpl.
      solve_in.
  - destruct (offered s) eqn:Eo; [done|]. destruct (toAck s) as [|k rest] eqn:Ea; [done|]. injection E as <-.
    split; simpl; try done.
    + intros j Hj. specialize (H4 j). solve_in.
    + intros x Hx. apply H6. by rewrite Eo in *.
    + intros x [Hx| ->%list_elem_of_singleton]%elem_of_app ?; [by apply Hs|done].
    + intros _. split; [done|]. intros j Hj. specialize (Hpath j Hj). rewrite Eo in *. solve_in.
  - assert (E' : (if (MessageType m =? "LocalAck")%string then None else Some (s <| back := back s ++ [m] |>)) = Some s')
      by by destruct (offered s).
    clear E. destruct (MessageType m =? "LocalAck")%string eqn:Et; [done|]. injection E' as <-.
    assert (Hno : forall j, j ∈ idsOf m <-> False) by (intros j; unfold idsOf; rewrite Et; apply elem_of_nil).
    split; simpl; try done.
    + intros j Hj. specialize (H4 j). rewrite !elem_of_app, ?backIds_snoc, ?Hno in *. tauto.
    + intros x [Hx| ->%list_elem_of_singleton]%elem_of_app Hm; [by apply Hs|]. by rewrite Hm in Et.
    + intros _. split; [done|]. intros j Hj. specialize (Hpath j Hj). unfold underway. simpl in *.
      rewrite !elem_of_app, ?backIds_snoc, ?Hno in *. tauto.
Qed.

(** A step of processingLoop that only moves its place. *)
Lemma linkOK_place s s' :
  linkOK s -> pending s' = pending s -> got s' = got s -> acked s' = acked s -> acks s' = acks s -> toAck s' = toAck s ->
  back s' = back s -> inUse s' = inUse s -> confirmed s' = confirmed s -> seen s' = seen s -> offered s' = offered s ->
  down s' = down s -> (forall m, m ∈ atMsg (at_ s') -> m ∈ got s) ->
  (up s' = true -> up s = true /\ linked (at_ s') /\
     forall k, is_Some (pending s !! k) -> k ∈ toSend (at_ s) -> k ∈ toSend (at_ s')) -> linkOK s'.
Proof.
  intros [H1 H2 H3 H4 H5 H6 Hs H7] E1 E2 E3 E4 E5 E6 E7 E8 E9 E10 E11 Hm Hup.
  split; rewrite ?E1, ?E2, ?E3, ?E4, ?E5, ?E6, ?E7, ?E8, ?E9, ?E10, ?E11; try done.
  - intros m Hin. specialize (H6 m). specialize (Hm m). solve_in.
  - intros Hu. destruct (Hup Hu) as (Hu' & Hb & Ht). split; [done|]. destruct (H7 Hu') as [_ Hp]. intros k Hk.
    specialize (Hp k Hk). specialize (Ht k Hk). unfold underway. rewrite E4, E5, E6, E7, E10, E11. solve_in.
Qed.

Lemma linkOK_sent s m a :
  linkOK s -> atMsg (at_ s) = [m] -> atMsg a = [] -> linked a ->
  (forall k, k ∈ toSend (at_ s) -> k = mid m \/ k ∈ toSend a) ->
  linkOK (s <| down := down s ++ [m] |> <| at_ := a |>).
Proof.
  intros [H1 H2 H3 H4 H5 H6 Hs H7] Em Ea Hb Ht. split; simpl; try done.
  - intros x Hx. specialize (H6 x). rewrite Em in H6. rewrite Ea in Hx. solve_in.
  - intros Hu. split; [done|]. destruct (H7 Hu) as [_ Hp]. intros k Hk. specialize (Hp k Hk). specialize (Ht k).
    unfold underway in *. simpl. rewrite fmap_app. solve_in.
Qed.

Lemma linkOK_get s m :
  linkOK s -> at_ s = Receiving ->
  linkOK (s <| pending := <[mid m := m]> (pending s) |> <| got := got s ++ [m] |> <| at_ := Sending m |>).
Proof.
  intros [H1 H2 H3 H4 H5 H6 Hs H7] Ea. split; simpl; try done.
  - intros k x. destruct (decide (k = mid m)) as [->|Hne].
    + rewrite lookup_insert_eq. intros [= ->]. split; [done|]. apply elem_of_app. right. by apply list_elem_of_singleton.
    + rewrite lookup_insert_ne by done. intros Hx. destruct (H1 _ _ Hx). split; [done|]. apply elem_of_app. by left.
  - intros Hnd. rewrite fmap_app in Hnd. apply NoDup_app in Hnd as (Hnd & Hdis & _).
    rewrite values_insert.
    + rewrite (H2 Hnd). simpl. by rewrite <- app_assoc, <- Permutation_cons_append.
    + destruct (pending s !! mid m) as [x|] eqn:Hx; [|done]. destruct (H1 _ _ Hx) as [Hk Hg].
      exfalso. apply (Hdis (mid m)); [|by left]. rewrite <- Hk. by apply list_elem_of_fmap_2.
  - intros x Hx. destruct (H3 x Hx). split; [done|]. apply elem_of_app. by left.
  - intros x Hx. specialize (H6 x). rewrite Ea in H6. solve_in.
  - intros Hu. split; [done|]. destruct (H7 Hu) as [_ Hp]. intros k Hk. unfold underway in *. simpl.
    destruct (decide (k = mid m)) as [->|Hne]; [by left|]. rewrite lookup_insert_ne in Hk by done.
    specialize (Hp k Hk). rewrite Ea in Hp. solve_in.
Qed.

Lemma linkOK_built s :
  linkOK s ->
  linkOK ((cleanup s) <| up := true |> <| down := [] |> <| back := [] |> <| offered := None |> <| inUse := [] |>
    <| acks := [] |> <| toAck := [] |> <| at_ := Resending (fst <$> map_to_list (pending s)) |>).
Proof.
  intros [H1 H2 H3 H4 H5 H6 Hs H7]. split; simpl; try done.
  - intros k Hk. by apply not_elem_of_nil in Hk.
  - intros k Hk. apply H5, elem_of_app. by right.
  - intros m Hm. apply H6. solve_in.
  - intros m Hm. by apply not_elem_of_nil in Hm.
  - intros _. split; [done|]. intros k [m Hk]. unfold underway. simpl. apply elem_of_app. left.
    apply list_elem_of_fmap. exists (k, m). split; [done|]. by apply elem_of_map_to_list.
Qed.

Lemma relentlessStep_OK s e s' : linkOK s -> relentlessStep s e = Some s' -> linkOK s'.
Proof.
  intros Hok E. pose proof Hok as [H1 H2 H3 H4 H5 H6 Hs H7].
  assert (Hsrc : forall m, m ∈ atMsg (at_ s) -> m ∈ got s) by (intros m Hm; specialize (H6 m); solve_in).
  unfold relentlessStep in E. destruct e, (at_ s) as [|todo|m1 todo| |m1|] eqn:Ea; try done; cbv zeta in E.
  - injection E as <-. by apply linkOK_built.
  - injection E as <-. apply (linkOK_place s); try done; by intros x ?%not_elem_of_nil.
  - destruct (takeOut k todo) as [rest|] eqn:Et; [|done]. destruct (pending s !! k) as [m|] eqn:Em; [|done].
    injection E as <-. apply takeOut_perm in Et. destruct (H1 _ _ Em) as [Hk Hg].
    apply (linkOK_place s); try done; simpl.
    + by intros x ->%list_elem_of_singleton.
    + intros Hu. split; [done|]. split; [done|]. intros j _. rewrite Ea. simpl. by rewrite Et, Hk.
  - destruct (forallb _ _) eqn:Hf; [|done]. injection E as <-. apply (linkOK_place s); try done; simpl.
    intros Hu. split; [done|]. split; [done|]. intros j Hj. rewrite Ea. simpl. intros Hin.
      rewrite forallb_forall in Hf. specialize (Hf j). rewrite <- list_elem_of_In in Hf. specialize (Hf Hin).
      by rewrite bool_decide_eq_true_2 in Hf.
  - injection E as <-. apply linkOK_sent; rewrite ?Ea; try done. intros j. simpl. by rewrite elem_of_cons.
  - injection E as <-. apply linkOK_sent; rewrite ?Ea; try done. intros j. simpl. by rewrite elem_of_cons, elem_of_nil.
  - injection E as <-. by apply linkOK_get.
  - injection E as <-. apply (linkOK_place s); try done; by intros x ?%not_elem_of_nil.
  - by apply (fromIn_OK s).
  - by apply (fromIn_OK s).
  - by apply (fromIn_OK s).
  - injection E as <-. apply (linkOK_place s); try done; by intros x ?%not_elem_of_nil.
  - injection E as <-. apply (linkOK_place s); try done; by intros x ?%not_elem_of_nil.
  - injection E as <-. apply (linkOK_place s); try done; by intros x ?%not_elem_of_nil.
Qed.

Lemma linkStep_OK s e s' : linkOK s -> linkStep size s e = Some s' -> linkOK s'.
Proof.
  intros Hok E. destruct e; cbv beta iota delta [linkStep] in E;
    first [exact (relentlessStep_OK s _ s' Hok E)|exact (acknowledgerStep_OK s _ s' Hok E)].
Qed.

Lemma linkOK_reachable s : linkReachable size s -> linkOK s.
Proof.
  unfold linkReachable. intros Hr. pose proof (linkOK_init) as H0. revert H0. generalize (linkInit : link A) Hr.
  intros s0 Hr0. induction Hr0 as [|s1 s2 s3 [e He] _ IH]; [done|]. intros H. by eapply IH, linkStep_OK.
Qed.


Lemma takeOut_length (k : id) l rest : takeOut k l = Some rest -> length l = S (length rest).
Proof. intros H%takeOut_perm. by rewrite H. Qed.

Lemma link_calm_step s e s' : calm e = true -> linkStep size s e = Some s' -> linkWork s' < linkWork s /\ up s' = up s /\ got s' = got s.
Proof.
  intros Hc E. unfold linkStep, relentlessStep, acknowledgerStep, fromIn in E. unfold linkWork.
  destruct e; try done; clear Hc; cbv zeta in E;
  repeat match type of E with
  | context [match takeOut ?k ?l with _ => _ end] => destruct (takeOut k l) eqn:?H; [apply takeOut_length in H|]; try done
  | context [match ?x with _ => _ end] => destruct x eqn:?; try done
  end; injection E as <-; simplify_eq; cbn;
  repeat match goal with H : ?f s = _ |- _ => rewrite H; clear H end; cbn;
  rewrite ?length_app; cbn; (split; [|done]); lia.
Qed.

Lemma calm_run es s s' :
  Forall (fun e => calm e = true) es -> linkReachable size s -> linkRun size s es = Some s' ->
  length es + linkWork s' <= linkWork s /\ up s' = up s /\ got s' = got s /\ linkReachable size s'.
Proof.
  intros Hc. revert s. induction Hc as [|e es He _ IH]; intros s Hr E; cbn in E.
  - injection E as <-. split; [cbn [length]; lia|done].
  - destruct (linkStep size s e) as [s1|] eqn:E1; [|done].
    destruct (link_calm_step s e s1 He E1) as (Hw & Hu & Hg).
    assert (Hr1 : linkReachable size s1) by (eapply rtc_r; [done|by exists e]).
    destruct (IH s1 Hr1 E) as (Hw' & Hu' & Hg' & Hr'). simpl. rewrite Hu', Hg'. split; [lia|done].
Qed.

(** Every step that is possible is a calm one, unless nothing is left to do. *)
Lemma calm_stuck s :
  0 < size -> linkOK s -> up s = true -> (forall e, calm e = true -> linkStep size s e = None) -> underway s = [].
Proof.
  intros Hsz [_ _ _ _ _ _ Hs H7] Hup Hno. destruct (H7 Hup) as [Hl _]. clear H7.
  assert (Hat : at_ s = Receiving).
  { destruct (at_ s) as [|todo|m todo| |m|] eqn:Ea; try done.
    - destruct (list_find (fun k => is_Some (pending s !! k)) todo) as [[i k]|] eqn:Ef.
      + apply list_find_Some in Ef as (Hi & [m Hm] & _). specialize (Hno (ResendNext k) eq_refl). simpl in Hno.
        rewrite Ea, Hm in Hno. apply list_elem_of_lookup_2 in Hi. by destruct (takeOut_elem k todo Hi) as [r E]; rewrite E in Hno.
      + specialize (Hno ResendDone eq_refl). simpl in Hno. rewrite Ea in Hno.
        apply list_find_None in Ef. destruct (forallb _ _) eqn:Hf; [done|]. apply not_true_iff_false in Hf. exfalso. apply Hf.
        apply forallb_forall. intros k Hk%list_elem_of_In. rewrite Forall_forall in Ef. by rewrite bool_decide_eq_false_2 by by apply Ef.
    - specialize (Hno Sent eq_refl). simpl in Hno. by rewrite Ea in Hno.
    - specialize (Hno Sent eq_refl). simpl in Hno. by rewrite Ea in Hno. }
  assert (Hback : back s = []).
  { destruct (back s) as [|m rest] eqn:Eb; [done|]. specialize (Hno FromIn eq_refl). simpl in Hno. rewrite Hat in Hno.
    unfold fromIn, processAck in Hno. rewrite Eb in Hno. specialize (Hs m ltac:(by left)).
    destruct (MessageType m =? "LocalAck")%string eqn:Et; [|done]. apply String.eqb_eq in Et. destruct (Hs Et) as [v Hv].
    rewrite Hv in Hno. simpl in Hno. destruct (v =? "client")%string; simpl in Hno; [|done]. destruct (Data m); simpl in Hno; try done.
    by destruct (ackIds (pending s) _). }
  assert (Hoff : offered s = None).
  { destruct (offered s) eqn:Eo; [|done]. specialize (Hno Hand eq_refl). simpl in Hno. unfold acknowledgerStep in Hno. by rewrite Hup, Eo in Hno. }
  unfold underway. rewrite Hat, Hback, Hoff. simpl.
  pose proof (Hno Take eq_refl) as HT. pose proof (Hno Collect eq_refl) as HC. pose proof (Hno Flush eq_refl) as HF.
  simpl in HT, HC, HF. unfold acknowledgerStep in HT, HC, HF. rewrite Hup, Hoff in HT, HC, HF.
  destruct (down s); [|done]. destruct (acks s) eqn:Ek; [|done]. destruct (toAck s); [|done]. simpl.
  destruct (inUse s) as [|k rest] eqn:Eu; [done|]. specialize (Hno (UserAcks k) eq_refl). simpl in Hno. unfold acknowledgerStep in Hno.
  rewrite Hup, Eu, Ek in Hno. simpl in Hno. rewrite decide_True in Hno by done. by rewrite decide_True in Hno.
Qed.

Lemma linkRun_reachable es s : linkRun size (linkInit : link A) es = Some s -> linkReachable size s.
Proof.
  intros E. assert (Hg : forall es s0, linkRun size s0 es = Some s -> rtc (linkMoves size) s0 s).
  { clear E es. induction es as [|e es IH]; intros s0 E; cbn in E; [by injection E as <-|].
    destruct (linkStep size s0 e) as [s1|] eqn:E1; [|done]. eapply rtc_l; [by exists e|by apply IH]. }
  by apply Hg with es.
Qed.

(** C35: a RelentlessChannel and the RelentlessAcknowledger at the other end,
    over any sequence of channels that break where they like: when messages
    have distinct ids, each message taken from Out is either pending or has been
    acknowledged, once; its Ack is called only after a user at the other end
    acknowledged it, which only happens to a message that got there; and
    nothing gets there that was not sent.  While a channel works, every
    pending message is about to be sent on it, on its way, with its user, or
    its acknowledgement is on its way back. *)
Theorem relentless_keeps s :
  linkReachable size s ->
  (NoDup (mid <$> got s) -> got s ≡ₚ acked s ++ values (pending s)) /\
  (forall m, m ∈ acked s -> m ∈ got s /\ mid m ∈ confirmed s) /\
  (forall k, k ∈ confirmed s -> k ∈ mid <$> seen s) /\
  (forall m, m ∈ seen s -> m ∈ got s) /\
  (up s = true -> forall k, is_Some (pending s !! k) -> k ∈ underway s).
Proof.
  intros Hr%linkOK_reachable. destruct Hr as [H1 H2 H3 H4 H5 H6 Hs H7]. split; [done|]. split; [|split; [|split]].
  - intros m Hm. by destruct (H3 m Hm).
  - intros k Hk. apply H5, elem_of_app. by right.
  - intros m Hm. apply H6, elem_of_app. by left.
  - intros Hu. by destruct (H7 Hu).
Qed.

(** C36: a channel that lasts ends with everything acknowledged: with nothing new
    to send, the steps of both ends, in any order, come to an end, and where
    none of them is possible nothing is pending: every message from Out has had
    its Ack called. *)
Theorem relentless_drains s es s' :
  0 < size -> linkReachable size s -> up s = true -> Forall (fun e => calm e = true) es -> linkRun size s es = Some s' ->
  length es <= linkWork s /\
  ((forall e, calm e = true -> linkStep size s' e = None) ->
   pending s' = ∅ /\ (NoDup (mid <$> got s) -> got s ≡ₚ acked s')).
Proof.
  intros Hsz Hr Hu Hc E. destruct (calm_run es s s' Hc Hr E) as (Hw & Hu' & Hg & Hr'). split; [lia|]. intros Hno.
  pose proof (linkOK_reachable s' Hr') as Hok. rewrite Hu in Hu'. pose proof (calm_stuck s' Hsz Hok Hu' Hno) as Hun.
  assert (Hp : pending s' = ∅).
  { apply map_empty. intros k. destruct (pending s' !! k) eqn:Hk; [|done]. exfalso.
    destruct (lo_path s' Hok Hu') as [_ Hp]. specialize (Hp k (ltac:(by eexists))). rewrite Hun in Hp. by apply not_elem_of_nil in Hp. }
  split; [done|]. rewrite <- Hg. intros Hnd. rewrite (lo_got s' Hok Hnd), Hp. by rewrite map_to_list_empty, app_nil_r.
Qed.
End RelentlessOK.

(** A message whose first channel breaks after it got there; the second one
    brings it again, and a message of the other process comes in between. *)
Definition brokenOnce : list (linkEvent nat) :=
  [Built; ResendDone; Get (mkAckMsg "a" 1) ""; Sent; Take; Hand; UserAcks "a"; Get (mkAckMsg "" 2) "r"; Sent;
   Break false; Fails; Built; ResendNext "r"; Sent; ResendNext "a"; Sent; ResendDone; Take; Hand;
   Says (mkIn "Reply" None (Crash "")); FromIn; UserAcks "r"; Collect; Flush].

Lemma relentless_keeps_witness :
  exists s : link nat, linkRun 1 linkInit brokenOnce = Some s /\ size (pending s) = 2 /\ confirmed s = ["a"; "r"] /\
    (NoDup (mid <$> got s) -> got s ≡ₚ acked s ++ (snd <$> map_to_list (pending s))) /\ NoDup (mid <$> got s).
Proof.
  destruct (linkRun 1 linkInit brokenOnce) as [s|] eqn:E; [|by vm_compute in E]. exists s. split; [done|].
  split; [by vm_compute in E; injection E as <-|]. split; [by vm_compute in E; injection E as <-|]. split.
  - exact (proj1 (relentless_keeps 1 s (linkRun_reachable 1 brokenOnce s E))).
  - vm_compute in E. injection E as <-. cbn. repeat constructor; set_solver.
Defined.

Lemma relentless_drains_witness :
  exists s s' : link nat, linkRun 1 linkInit brokenOnce = Some s /\
    linkRun 1 s [FromIn; Take; Hand; UserAcks "a"; Collect; Flush; FromIn] = Some s' /\
    pending s' = ∅ /\ got s = [mkAckMsg "a" 1; mkAckMsg "r" 2] /\ acked s' = [mkAckMsg "r" 2; mkAckMsg "a" 1].
Proof.
  destruct (linkRun 1 linkInit brokenOnce) as [s|] eqn:E; [|by vm_compute in E].
  destruct (linkRun 1 s [FromIn; Take; Hand; UserAcks "a"; Collect; Flush; FromIn]) as [s'|] eqn:E';
    [|vm_compute in E; injection E as <-; by vm_compute in E'].
  assert (Hu : up s = true) by (by vm_compute in E; injection E as <-).
  assert (Hc : Forall (fun e : linkEvent nat => calm e = true) [FromIn; Take; Hand; UserAcks "a"; Collect; Flush; FromIn])
    by by repeat constructor.
  pose proof (relentless_drains 1 s _ s' ltac:(lia) (linkRun_reachable 1 brokenOnce s E) Hu
    Hc E') as [_ HD].
  exists s, s'. split; [done|]. split; [done|].
  vm_compute in E. injection E as <-. vm_compute in E'. injection E' as <-.
  split; [apply HD; intros [] ?; done|done].
Defined.

(** ** What the code does not guard against *)

(** An acknowledgement without a source is a nil dereference: any process at the
    other end can bring this one down. *)
Example ack_without_source (p : gmap id (ackMsg nat)) : exists why, processAck p (mkIn "LocalAck" None (Ok ["a"])) = Crash why.
Proof. by eexists. Qed.

(** A second message with the id of a pending one takes its place: the first
    one's Ack is not called, ever. *)
Example same_id_forgets :
  exists s : link nat,
    linkRun 1 linkInit [Built; ResendDone; Get (mkAckMsg "a" 1) ""; Sent; Get (mkAckMsg "a" 2) ""; Sent] = Some s /\
    got s = [mkAckMsg "a" 1; mkAckMsg "a" 2] /\ acked s = [] /\ pending s !! "a" = Some (mkAckMsg "a" 2).
Proof. eexists. split; [vm_compute; reflexivity|]. by vm_compute. Qed.
