(* ===== verification/Admin.v ===== *)
(** * The administrative service

    src/server/admin/admin.go: the gRPC methods by which operators and server
    side services reach the datastore.  The service is written against the
    interface [AdminStore]; the sqlite datastore is an instance.  A request is
    a value of [adminReq] and [adminCall] is the method that serves it; what
    notifications.Notifier was asked to do is part of the state. *)
From Stdlib Require Import SpecFloat.
From S2P Require Import Prelude Platform Ids Proto Db Sqlite SqliteMessages SqliteClients SqliteBroadcasts SqliteFiles.
From S2P Require Import SqliteStore Cache Notifications Broadcasts Server.

(** Max size of messages accepted by clients: 2 MiB. *)
Definition maxMsgSize : Z := Z.shiftl 2 20.

(** ** What the service uses of db.Store *)
Class AdminStore (St : Type) := {
  as_store :: Store St;
  asCreateBroadcast : option Broadcast.t -> Z -> M (World St) unit;
  asDisableBroadcasts : list BroadcastID.t -> M (World St) unit;
  asListClients : list ClientID.t -> M (World St) (list Client.t);
  asStreamClientIds : forall X, bool -> option Z -> (X -> ClientID.t -> outcome X) -> X -> M (World St) X;
  asListClientContacts : ClientID.t -> M (World St) (list ClientContact.t);
  asStreamClientContacts : forall X, ClientID.t -> (X -> ClientContact.t -> outcome X) -> X -> M (World St) X;
  asDeletePendingMessages : list ClientID.t -> M (World St) unit;
  asGetPendingMessages : list ClientID.t -> Z -> Z -> bool -> M (World St) (list Message.t);
  asGetPendingMessageCount : list ClientID.t -> M (World St) Z;
  asStoreFile : string -> string -> outcome string -> M (World St) unit;
  asDeleteFile : string -> string -> M (World St) unit;
  asBlacklistClient : ClientID.t -> M (World St) unit;
  asFetchResourceUsageRecords : ClientID.t -> option Timestamp.t -> option Timestamp.t ->
    M (World St) (list ClientResourceUsageRecord.t);
}.

#[export] Instance sqliteAdminStore `{P : Platform} `{L : ProtoLib} `{F : FloatConv} : AdminStore Db := {|
  asCreateBroadcast := CreateBroadcast;
  asDisableBroadcasts := DisableBroadcasts;
  asListClients := ListClients;
  asStreamClientIds X := StreamClientIds (X := X);
  asListClientContacts := ListClientContacts;
  asStreamClientContacts X := StreamClientContacts (X := X);
  asDeletePendingMessages := DeletePendingMessages;
  asGetPendingMessages := GetPendingMessages;
  asGetPendingMessageCount := GetPendingMessageCount;
  asStoreFile := StoreFile;
  asDeleteFile := DeleteFile;
  asBlacklistClient := BlacklistClient;
  asFetchResourceUsageRecords := FetchResourceUsageRecords;
|}.

(** ** Requests and responses *)
Inductive adminReq :=
| CreateBroadcastReq (b : option Broadcast.t) (limit : Z)
| ListActiveBroadcastsReq (service : string)
| DisableBroadcastsReq (ids : list gobytes)
| GetMessageStatusReq (id : gobytes)
| ListClientsReq (ids : list gobytes)
| StreamClientIdsReq (includeBlacklisted : bool) (lastContactAfter : option Timestamp.t)
| ListClientContactsReq (id : gobytes)
| StreamClientContactsReq (id : gobytes)
| InsertMessageReq (m : Message.t)
| DeletePendingMessagesReq (ids : list gobytes)
| GetPendingMessagesReq (ids : list gobytes) (offset limit : Z) (wantData : bool)
| GetPendingMessageCountReq (ids : list gobytes)
| StoreFileReq (service name data : string)
| DeleteFileReq (service name : string)
| KeepAliveReq
| BlacklistClientReq (id : gobytes)
| FetchRecordsReq (id : gobytes) (start stop : option Timestamp.t).

Inductive adminReply :=
| EmptyReply
| BroadcastsReply (bs : list Broadcast.t)
| StatusReply (created : option Timestamp.t) (result : option MessageResult.t)
| ClientsReply (cs : list Client.t)
| ClientIdsReply (ids : list gobytes)
| ContactsReply (cs : list ClientContact.t)
| InsertReply (id : gobytes)
| MessagesReply (ms : list Message.t)
| CountReply (n : Z)
| RecordsReply (rs : list ClientResourceUsageRecord.t).

Definition setBroadcastId (v : gobytes) (b : Broadcast.t) : Broadcast.t :=
  Broadcast.Mk v (Broadcast.Source b) (Broadcast.MessageType b) (Broadcast.RequiredLabels b)
    (Broadcast.ExpirationTime b) (Broadcast.Data b) (Broadcast.Destination b) (Broadcast.GroupName b).

Definition bytesToClientIds (ids : list gobytes) : outcome (list ClientID.t) := mapM ClientID.BytesToClientID ids.

(** The zero value of time.Time, and time.Since, which saturates. *)
Definition zeroTime : Z := (- 62135596800 * 1000000000)%Z.
Definition since (now t : Z) : Z := Z.max (- 2 ^ 63) (Z.min i64_max (now - t)).
Definition notifyWithin : Z := (10 * 60 * 1000000000)%Z.

Section Admin.
Context `{P : Platform} `{L : ProtoLib} {St : Type} `{AS : AdminStore St}.
(** Options.RestrictPayloadRetrieval; proto.Size; what sending the [n]th part
    of a stream returns; what NewMessageForClient returns. *)
Context (RestrictPayloadRetrieval : bool) (protoSize : Message.t -> Z).
Context (srvSend : nat -> option goerror) (notifyError : string -> ClientID.t -> option goerror).

Record Adm := mkAdm { aStore : St; aNotified : list (string * ClientID.t) }.

Abbreviation Admin A := (M (World Adm) A).

Definition onStore {A} (m : M (World St) A) : Admin A :=
  onPart aStore (fun s d => mkAdm s (aNotified d)) m.

Definition notify (st : string) (cid : ClientID.t) : Admin (option goerror) := fun w =>
  (Ok (notifyError st cid), mkWorld (mkAdm (aStore (w_data w)) (aNotified (w_data w) ++ [(st, cid)])) (w_step w)).

(** srv.Send in a callback: what was sent so far. *)
Definition sendTo {A B} (f : A -> B) (sent : list B) (a : A) : outcome (list B) :=
  match srvSend (length sent) with None => Ok (sent ++ [f a]) | Some e => Err e end.

(** *** Broadcasts *)
Definition adminCreateBroadcast (b : option Broadcast.t) (limit : Z) : Admin adminReply :=
  match b with
  | None => crash "nil Broadcast"
  | Some b =>
      b ← (if decide (blen (Broadcast.BroadcastId b) = 0) then
             bid ← BroadcastID.RandomBroadcastID; mret (setBroadcastId (BroadcastID.Bytes bid) b)
           else mret b);
      onStore (asCreateBroadcast (Some b) limit) ≫= fun _ => mret EmptyReply
  end.

Definition adminListActiveBroadcasts (service : string) : Admin adminReply :=
  bis ← onStore bsListActiveBroadcasts;
  bs ← foldM (fun acc bi =>
         let b := BroadcastInfo.Broadcast bi in
         if String.eqb service "" then mret (acc ++ [b])
         else match Broadcast.Source b with
              | None => crash "nil Source"
              | Some a => mret (if String.eqb service (Address.ServiceName a) then acc ++ [b] else acc)
              end) bis [];
  mret (BroadcastsReply bs).

Definition adminDisableBroadcasts (ids : list gobytes) : Admin adminReply :=
  if decide (ids = []) then mret EmptyReply
  else
    bIDs ← lift (mapM BroadcastID.BytesToBroadcastID ids);
    onStore (asDisableBroadcasts bIDs) ≫= fun _ => mret EmptyReply.

(** *** Messages *)
Definition adminGetMessageStatus (id : gobytes) : Admin adminReply :=
  mid ← lift (MessageID.BytesToMessageID id);
  r ← try (onStore (stGetMessages [mid] false));
  match r with
  | inr e => if stIsNotFound e then mret (StatusReply None None) else fail e
  | inl [m] => mret (StatusReply (Message.CreationTime m) (Message.Result m))
  | inl _ => fail (ErrText "Internal error, expected 1 message")
  end.

(** The sanity checks at the start of InsertMessage. *)
Definition insertCheck (m : Message.t) : outcome unit :=
  let named (a : option Address.t) := match a with Some a => negb (String.eqb (Address.ServiceName a) "") | None => false end in
  if negb (named (Message.Destination m)) then Err (ErrText "message must have Destination")
  else if negb (named (Message.Source m)) then Err (ErrText "message must have Source")
  else if Message.Result m is Some _ then Err (ErrText "cannot insert message with pre-set Result")
  else Ok tt.

(** Generates missing metadata. *)
Definition insertComplete (m : Message.t) : Admin Message.t :=
  m ← (if decide (blen (Message.MessageId m) = 0) then
         id ← orFailM MessageID.RandomMessageID (ErrText "unable to create random MessageID");
         mret (Message.setMessageId (MessageID.Bytes id) m)
       else mret m);
  if Message.CreationTime m is Some _ then mret m
  else t ← NowProto; mret (Message.setCreationTime (Some t) m).

(** The client a message is for: its id, the server it streams to and the time
    of its last contact. *)
Definition insertDestination (m : Message.t) : Admin (ClientID.t * string * Z) :=
  match a ← Message.Destination m; Address.ClientId a with
  | None => mret (ClientID.nil, "", zeroTime)%string
  | Some b =>
      cid ← orFail (ClientID.BytesToClientID (Some b)) (ErrText "error parsing destination.client_id");
      cls ← orFailM (onStore (asListClients [cid])) (ErrText "error listing destination client");
      match cls with
      | [c] =>
          if (maxMsgSize <? protoSize m)%Z then fail (ErrText "message exceeds the limit")
          else mret (cid, Client.LastContactStreamingTo c,
                     match tspbCheckValid (Client.LastContactTime c) with
                     | Some _ => zeroTime
                     | None => tspbAsTime (Client.LastContactTime c)
                     end)
      | _ => fail (ErrText "expected 1 destination client result")
      end
  end.

Definition adminInsertMessage (m : Message.t) : Admin adminReply :=
  lift (insertCheck m) ≫= fun _ =>
  m ← insertComplete m;
  dst ← insertDestination m;
  let '(cid, st, lc) := dst in
  onStore (stStoreMessages [m] "") ≫= fun _ =>
  (if String.eqb st "" then mret tt
   else t ← now;
        if (since t lc <? notifyWithin)%Z then notify st cid ≫= fun _ => mret tt else mret tt) ≫= fun _ =>
  mret (InsertReply (Message.MessageId m)).

Definition adminDeletePendingMessages (ids : list gobytes) : Admin adminReply :=
  ids ← lift (bytesToClientIds ids);
  orFailM (onStore (asDeletePendingMessages ids)) (ErrText "Can't delete pending messages") ≫= fun _ => mret EmptyReply.

Definition adminGetPendingMessages (ids : list gobytes) (offset limit : Z) (wantData : bool) : Admin adminReply :=
  if wantData && RestrictPayloadRetrieval then
    fail (ErrText "retrieving payloads of pending messages is not permitted")
  else
    ids ← lift (bytesToClientIds ids);
    res ← orFailM (onStore (asGetPendingMessages ids offset limit wantData)) (ErrText "Can't read pending messages");
    mret (MessagesReply res).

Definition adminGetPendingMessageCount (ids : list gobytes) : Admin adminReply :=
  ids ← lift (bytesToClientIds ids);
  n ← orFailM (onStore (asGetPendingMessageCount ids)) (ErrText "Can't read pending message count");
  mret (CountReply n).

(** *** Clients *)
Definition adminListClients (ids : list gobytes) : Admin adminReply :=
  ids ← orFail (mapM ClientID.BytesToClientID ids) (ErrText "unable to parse id");
  cs ← onStore (asListClients ids);
  mret (ClientsReply cs).

(** AsTime of a nil timestamp is the epoch. *)
Definition adminStreamClientIds (includeBlacklisted : bool) (lastContactAfter : option Timestamp.t) : Admin adminReply :=
  let t := match lastContactAfter with Some t => tspbAsTime t | None => 0%Z end in
  ids ← onStore (asStreamClientIds _ includeBlacklisted (Some t) (sendTo ClientID.Bytes) []);
  mret (ClientIdsReply ids).

Definition adminListClientContacts (id : gobytes) : Admin adminReply :=
  id ← orFail (ClientID.BytesToClientID id) (ErrText "unable to parse id");
  cs ← onStore (asListClientContacts id);
  mret (ContactsReply cs).

Definition adminStreamClientContacts (id : gobytes) : Admin adminReply :=
  id ← lift (ClientID.BytesToClientID id);
  cs ← onStore (asStreamClientContacts _ id (sendTo (fun c => c)) []);
  mret (ContactsReply cs).

Definition adminBlacklistClient (id : gobytes) : Admin adminReply :=
  id ← orFail (ClientID.BytesToClientID id) (ErrText "unable to parse id");
  onStore (asBlacklistClient id) ≫= fun _ => mret EmptyReply.

Definition adminFetchRecords (id : gobytes) (start stop : option Timestamp.t) : Admin adminReply :=
  id ← lift (ClientID.BytesToClientID id);
  rs ← onStore (asFetchResourceUsageRecords id start stop);
  mret (RecordsReply rs).

(** *** Files *)
Definition named (service name : string) : outcome unit :=
  if String.eqb service "" || String.eqb name "" then Err (ErrText "file must have service_name and file_name") else Ok tt.

Definition adminStoreFile (service name data : string) : Admin adminReply :=
  lift (named service name) ≫= fun _ => onStore (asStoreFile service name (Ok data)) ≫= fun _ => mret EmptyReply.

Definition adminDeleteFile (service name : string) : Admin adminReply :=
  lift (named service name) ≫= fun _ => onStore (asDeleteFile service name) ≫= fun _ => mret EmptyReply.

Definition adminCall (r : adminReq) : Admin adminReply :=
  match r with
  | CreateBroadcastReq b limit => adminCreateBroadcast b limit
  | ListActiveBroadcastsReq service => adminListActiveBroadcasts service
  | DisableBroadcastsReq ids => adminDisableBroadcasts ids
  | GetMessageStatusReq id => adminGetMessageStatus id
  | ListClientsReq ids => adminListClients ids
  | StreamClientIdsReq b t => adminStreamClientIds b t
  | ListClientContactsReq id => adminListClientContacts id
  | StreamClientContactsReq id => adminStreamClientContacts id
  | InsertMessageReq m => adminInsertMessage m
  | DeletePendingMessagesReq ids => adminDeletePendingMessages ids
  | GetPendingMessagesReq ids offset limit wantData => adminGetPendingMessages ids offset limit wantData
  | GetPendingMessageCountReq ids => adminGetPendingMessageCount ids
  | StoreFileReq service name data => adminStoreFile service name data
  | DeleteFileReq service name => adminDeleteFile service name
  | KeepAliveReq => mret EmptyReply
  | BlacklistClientReq id => adminBlacklistClient id
  | FetchRecordsReq id start stop => adminFetchRecords id start stop
  end.
End Admin.
Arguments Adm : clear implicits.
Arguments mkAdm {_} _ _.
Arguments aStore {_} _.
Arguments aNotified {_} _.

(** ** Effects of requests on the sqlite datastore *)
Section Effects.
Context `{P : Platform} `{L : ProtoLib} `{F : FloatConv}.
Context {HP : PlatformOK P} {HF : FloatConvOK F}.

Abbreviation Admin A := (M (World (Adm Db)) A).

(** Changes nothing at all. *)
Definition quiet {A} (m : Admin A) : Prop := forall w, w_data (snd (m w)) = w_data w.

(** Keeps the invariant of the store, and changes nothing when it fails. *)
Definition sound {A} (m : Admin A) : Prop :=
  forall w, storeOK (aStore (w_data w)) ->
    storeOK (aStore (w_data (snd (m w)))) /\ (isOk (fst (m w)) = false -> w_data (snd (m w)) = w_data w).

(** Returns, and leaves the store as it is. *)
Definition finishes {A} (m : Admin A) : Prop :=
  forall w, isOk (fst (m w)) = true /\ aStore (w_data (snd (m w))) = aStore (w_data w).

Lemma quiet_ret {A} (a : A) : quiet (mret a).
Proof. done. Qed.
Lemma quiet_lift {A} (o : outcome A) : quiet (lift o).
Proof. done. Qed.
Lemma quiet_fail {A} e : quiet (fail (A := A) e).
Proof. done. Qed.
Lemma quiet_crash {A} e : quiet (crash (A := A) e).
Proof. done. Qed.
Lemma quiet_interact {A} (f : nat -> outcome A) : quiet (interact f).
Proof. done. Qed.
Lemma quiet_orFail {A} (o : outcome A) e : quiet (orFail o e).
Proof. by destruct o. Qed.

Lemma quiet_bind {A B} (m : Admin A) (f : A -> Admin B) : quiet m -> (forall a, quiet (f a)) -> quiet (m ≫= f).
Proof.
  intros Hm Hf w. specialize (Hm w). unfold mbind, M_bind. destruct (m w) as [[a| |] w1]; simpl in *; [|done..].
  by rewrite (Hf a w1).
Qed.

Lemma quiet_try {A} (m : Admin A) : quiet m -> quiet (try m).
Proof. intros Hm w. specialize (Hm w). unfold try. by destruct (m w) as [[]]. Qed.

Lemma quiet_orFailM {A} (m : Admin A) e : quiet m -> quiet (orFailM m e).
Proof. intros Hm. apply quiet_bind; [by apply quiet_try|]. by intros []. Qed.

Lemma quiet_foldM {A B} (f : B -> A -> Admin B) l acc : (forall b a, quiet (f b a)) -> quiet (foldM f l acc).
Proof. intros Hf. revert acc. induction l as [|x l IH]; intros acc; simpl; [done|]. by apply quiet_bind. Qed.

(** A read of the store. *)
Lemma quiet_onStore {A} (m : Sql A) : (forall I, preserves (onData I) m) -> quiet (onStore m).
Proof.
  intros Hm w. unfold onStore, onPart. specialize (Hm (fun d => d = aStore (w_data w)) (mkWorld (aStore (w_data w)) (w_step w)) eq_refl).
  unfold onData in Hm. destruct (m _) as [r [d n]]. simpl in *. subst. by destruct (w_data w).
Qed.

Lemma sound_quiet {A} (m : Admin A) : quiet m -> sound m.
Proof. intros Hm w Hw. by rewrite Hm. Qed.

Lemma sound_bind_quiet_Ok {A B} (m : Admin A) (f : A -> Admin B) :
  quiet m -> (forall a w w', m w = (Ok a, w') -> sound (f a)) -> sound (m ≫= f).
Proof.
  intros Hm Hf w Hw. specialize (Hm w). unfold mbind, M_bind. destruct (m w) as [[a| |] w1] eqn:E; simpl in *.
  - rewrite <- Hm in Hw. destruct (Hf a w w1 E w1 Hw) as [H1 H2]. split; [done|]. rewrite <- Hm. exact H2.
  - by rewrite Hm.
  - by rewrite Hm.
Qed.

Lemma sound_bind_quiet {A B} (m : Admin A) (f : A -> Admin B) : quiet m -> (forall a, sound (f a)) -> sound (m ≫= f).
Proof. intros Hm Hf. by apply sound_bind_quiet_Ok. Qed.

Lemma sound_bind_finishes {A B} (m : Admin A) (f : A -> Admin B) : sound m -> (forall a, finishes (f a)) -> sound (m ≫= f).
Proof.
  intros Hm Hf w Hw. destruct (Hm w Hw) as [H1 H2]. unfold mbind, M_bind. destruct (m w) as [[a| |] w1]; simpl in *; [|done..].
  destruct (Hf a w1) as [E1 E2]. rewrite E1, E2. done.
Qed.

Lemma finishes_ret {A} (a : A) : finishes (mret a).
Proof. done. Qed.
Lemma finishes_bind {A B} (m : Admin A) (f : A -> Admin B) : finishes m -> (forall a, finishes (f a)) -> finishes (m ≫= f).
Proof.
  intros Hm Hf w. destruct (Hm w) as [H1 H2]. unfold mbind, M_bind. destruct (m w) as [[a| |] w1]; simpl in *; [|done..].
  destruct (Hf a w1) as [E1 E2]. by rewrite E1, E2.
Qed.

Lemma sound_orFailM {A} (m : Admin A) e : sound m -> sound (orFailM m e).
Proof.
  intros Hm w Hw. destruct (Hm w Hw) as [H1 H2]. unfold orFailM, mbind, M_bind, try. by destruct (m w) as [[a| |] w1].
Qed.

(** One operation of the store. *)
Lemma sound_op op : opOK op -> sound (onStore (runOp op)).
Proof using HP HF.
  intros Hop w Hw. pose proof (storeOK_op op Hop (mkWorld (aStore (w_data w)) (w_step w)) Hw) as H1.
  pose proof (atomic_runOp op (mkWorld (aStore (w_data w)) (w_step w))) as H2.
  unfold onStore, onPart, onData in *. destruct (runOp op _) as [r w1]. simpl in *. split; [done|].
  intros Hr. rewrite (H2 r w1 eq_refl Hr). by destruct (w_data w).
Qed.

(** *** The reads of sqlite *)
Ltac solve_read := try intros ?I; unfold ListClients, StreamClientIds, ListClientContacts, StreamClientContacts, GetMessages, getMessages,
    GetPendingMessages, getPendingMessageRawIds, GetPendingMessageCount, ListActiveBroadcasts, FetchResourceUsageRecords,
    readClients, readLabels, addLabelRow, readActive, readActiveLabels;
  repeat first [progress solve_preserves | apply preserves_runInTx | case_decide].

Lemma quiet_ListClients ids : quiet (onStore (ListClients ids)).
Proof. apply quiet_onStore. solve_read. Qed.
Lemma quiet_StreamClientIds b t srv : quiet (onStore (StreamClientIds b t (sendTo srv ClientID.Bytes) [])).
Proof. apply quiet_onStore. solve_read. Qed.
Lemma quiet_StreamClientContacts {X} id (f : X -> ClientContact.t -> outcome X) x : quiet (onStore (StreamClientContacts id f x)).
Proof. apply quiet_onStore. solve_read. Qed.
Lemma quiet_GetMessages ids b : quiet (onStore (GetMessages ids b)).
Proof. apply quiet_onStore. solve_read. Qed.
Lemma quiet_GetPendingMessages ids off lim b : quiet (onStore (GetPendingMessages ids off lim b)).
Proof.
  apply quiet_onStore. intros I. apply preserves_runInTx, preserves_bind; [|solve_read].
  unfold getPendingMessageRawIds. destruct (_ && _); [apply preserves_fail|].
  intros w Hw. pose proof (preserves_query I (fun d => _ ← argUint64 lim; _ ← argUint64 off; Ok (pendingFor ids d)) w Hw) as Hq.
  by destruct (query _ w).
Qed.
Lemma quiet_GetPendingMessageCount ids : quiet (onStore (GetPendingMessageCount ids)).
Proof. apply quiet_onStore. solve_read. Qed.
Lemma quiet_ListActiveBroadcasts : quiet (onStore ListActiveBroadcasts).
Proof. apply quiet_onStore. solve_read. Qed.
Lemma quiet_FetchResourceUsageRecords id s t : quiet (onStore (FetchResourceUsageRecords id s t)).
Proof. apply quiet_onStore. solve_read. Qed.

(** ** Every request *)

(** The wire carries 64 bits. *)
Definition reqOK (r : adminReq) : Prop := match r with CreateBroadcastReq _ limit => isU64 limit | _ => True end.

(** The messages in a response. *)
Definition replyMessages (r : adminReply) : list Message.t := match r with MessagesReply ms => ms | _ => [] end.

Context (restrict : bool) (protoSize : Message.t -> Z).
Context (srvSend : nat -> option goerror) (notifyError : string -> ClientID.t -> option goerror).

Lemma quiet_insertComplete m : quiet (insertComplete (St := Db) m).
Proof.
  unfold insertComplete. apply quiet_bind.
  - case_decide; [|apply quiet_ret]. apply quiet_bind; [|intros; apply quiet_ret]. apply quiet_orFailM.
    apply quiet_bind; [apply quiet_interact|]. intros [b|]; [apply quiet_lift|apply quiet_fail].
  - intros m'. destruct (Message.CreationTime m'); [apply quiet_ret|]. apply quiet_bind; [|intros; apply quiet_ret].
    unfold NowProto. apply quiet_bind; [apply quiet_interact|]. intros t. cbv zeta.
    destruct (tspbCheckValid (tspbNew t)); [apply quiet_crash|apply quiet_ret].
Qed.

Lemma quiet_insertDestination m : quiet (insertDestination (St := Db) protoSize m).
Proof.
  unfold insertDestination. destruct (_ ≫= _) as [b|]; [|apply quiet_ret].
  apply quiet_bind; [apply quiet_orFail|]. intros cid.
  apply quiet_bind; [apply quiet_orFailM, quiet_ListClients|]. intros [|c [|? ?]]; [apply quiet_fail| |apply quiet_fail].
  destruct (_ <? _)%Z; [apply quiet_fail|apply quiet_ret].
Qed.

Lemma finishes_notify st cid : finishes (notify (St := Db) notifyError st cid ≫= fun _ => mret tt).
Proof. done. Qed.

Lemma finishes_afterStore st cid lc (id : gobytes) :
  finishes ((if String.eqb st "" then mret tt
    else t ← now; if (since t lc <? notifyWithin)%Z then notify (St := Db) notifyError st cid ≫= fun _ => mret tt else mret tt)
    ≫= fun _ => mret (InsertReply id)).
Proof.
  apply finishes_bind; [|intros; apply finishes_ret]. destruct (String.eqb st ""); [apply finishes_ret|].
  apply finishes_bind; [done|]. intros t. destruct (_ <? _)%Z; [apply finishes_notify|apply finishes_ret].
Qed.

Lemma sound_op_reply op : opOK op -> sound (onStore (runOp op) ≫= fun _ => mret EmptyReply).
Proof using HP HF. intros Hop. apply sound_bind_finishes; [by apply sound_op|]. intros. apply finishes_ret. Qed.

Lemma adminCreateBroadcast_sound b limit : isU64 limit -> sound (adminCreateBroadcast (St := Db) b limit).
Proof using HP HF.
  intros Hl. destruct b as [b|]; [|apply sound_quiet, quiet_crash]. simpl.
  apply sound_bind_quiet_Ok.
  { case_decide; [|apply quiet_ret]. apply quiet_bind; [|intros; apply quiet_ret].
    apply quiet_bind; [apply quiet_interact|]. intros [r|]; [apply quiet_ret|apply quiet_fail]. }
  intros b' w w' E. apply (sound_op_reply (OpCreateBroadcast (Some b') limit)). split; [|done]. intros p [= <-].
  unfold hasBroadcastID. case_decide as Hb; [|by apply ret_Ok in E as [<- _]].
  apply bind_Ok in E as (bid & w1 & E & [<- _]%ret_Ok). apply bind_Ok in E as (r & w2 & Hr & E).
  apply interact_Ok in Hr as [[= Hr] _]. destruct r as [r|]; [|by apply fail_Ok in E].
  apply ret_Ok in E as [<- _]. apply randRead_length in Hr. destruct r; [done|]. unfold blen. simpl. lia.
Qed.

Lemma adminInsertMessage_sound m : sound (adminInsertMessage (St := Db) protoSize notifyError m).
Proof using HP HF.
  apply sound_bind_quiet; [apply quiet_lift|]. intros _. apply sound_bind_quiet; [apply quiet_insertComplete|].
  intros m'. apply sound_bind_quiet; [apply quiet_insertDestination|]. intros [[cid st] lc].
  apply sound_bind_finishes; [by apply (sound_op (OpStoreMessages [m'] ""))|]. intros _. apply finishes_afterStore.
Qed.

Lemma adminCall_sound r : reqOK r -> sound (adminCall restrict protoSize srvSend notifyError r).
Proof using HP HF.
  intros Hr. destruct r; simpl adminCall.
  - by apply adminCreateBroadcast_sound.
  - apply sound_quiet. apply quiet_bind; [apply quiet_ListActiveBroadcasts|]. intros bis. apply quiet_bind; [|intros; apply quiet_ret].
    apply quiet_foldM. intros acc bi. cbv zeta. destruct (String.eqb service ""); [apply quiet_ret|].
    destruct (Broadcast.Source (BroadcastInfo.Broadcast bi)); [apply quiet_ret|apply quiet_crash].
  - unfold adminDisableBroadcasts. case_decide; [apply sound_quiet, quiet_ret|].
    apply sound_bind_quiet; [apply quiet_lift|]. intros bids. by apply (sound_op_reply (OpDisableBroadcasts bids)).
  - apply sound_quiet. apply quiet_bind; [apply quiet_lift|]. intros mid. apply quiet_bind; [apply quiet_try, quiet_GetMessages|].
    intros [[|m [|? ?]]|e]; [apply quiet_fail|apply quiet_ret|apply quiet_fail|]. simpl.
    destruct (IsNotFound e); [apply quiet_ret|apply quiet_fail].
  - apply sound_quiet. apply quiet_bind; [apply quiet_orFail|]. intros cids. apply quiet_bind; [apply quiet_ListClients|]. intros; apply quiet_ret.
  - apply sound_quiet. apply quiet_bind; [apply quiet_StreamClientIds|]. intros; apply quiet_ret.
  - apply sound_quiet. apply quiet_bind; [apply quiet_orFail|]. intros cid. apply quiet_bind; [apply quiet_StreamClientContacts|]. intros; apply quiet_ret.
  - apply sound_quiet. apply quiet_bind; [apply quiet_lift|]. intros cid. apply quiet_bind; [apply quiet_StreamClientContacts|]. intros; apply quiet_ret.
  - apply adminInsertMessage_sound.
  - apply sound_bind_quiet; [apply quiet_lift|]. intros cids. apply sound_bind_finishes; [|intros; apply finishes_ret].
    apply sound_orFailM. by apply (sound_op (OpDeletePendingMessages cids)).
  - apply sound_quiet. unfold adminGetPendingMessages. destruct (_ && _); [apply quiet_fail|]. apply quiet_bind; [apply quiet_lift|].
    intros cids. apply quiet_bind; [apply quiet_orFailM, quiet_GetPendingMessages|]. intros; apply quiet_ret.
  - apply sound_quiet. apply quiet_bind; [apply quiet_lift|]. intros cids.
    apply quiet_bind; [apply quiet_orFailM, quiet_GetPendingMessageCount|]. intros; apply quiet_ret.
  - apply sound_bind_quiet; [apply quiet_lift|]. intros _. by apply (sound_op_reply (OpStoreFile service name (Ok data))).
  - apply sound_bind_quiet; [apply quiet_lift|]. intros _. by apply (sound_op_reply (OpDeleteFile service name)).
  - apply sound_quiet, quiet_ret.
  - apply sound_bind_quiet; [apply quiet_orFail|]. intros cid. by apply (sound_op_reply (OpBlacklistClient cid)).
  - apply sound_quiet. apply quiet_bind; [apply quiet_lift|]. intros cid. apply quiet_bind; [apply quiet_FetchResourceUsageRecords|]. intros; apply quiet_ret.
Qed.

(** *** What responses contain *)
Definition replies (m : Admin adminReply) (Q : adminReply -> Prop) : Prop := forall w rep w', m w = (Ok rep, w') -> Q rep.

Lemma replies_bind {A} (m : Admin A) f Q : (forall a, replies (f a) Q) -> replies (m ≫= f) Q.
Proof. intros Hf w rep w' (a & w1 & _ & E)%bind_Ok. by eapply Hf. Qed.
Lemma replies_ret rep (Q : adminReply -> Prop) : Q rep -> replies (mret rep) Q.
Proof. by intros HQ w r w' [<- _]%ret_Ok. Qed.
Lemma replies_fail e Q : replies (fail e) Q.
Proof. by intros w r w' ?%fail_Ok. Qed.
Lemma replies_crash e Q : replies (crash e) Q.
Proof. by intros w r w' ?%crash_Ok. Qed.

Ltac solve_replies :=
  repeat first
    [ apply replies_ret; by constructor | apply replies_fail | apply replies_crash | apply replies_bind; intros
    | match goal with |- replies (match ?x with _ => _ end) _ => destruct x end ].

(** Without data, a message has no payload. *)
Lemma getMessages_no_data ids w ms w' :
  getMessages ids false w = (Ok ms, w') -> Forall (fun m => Message.Data m = None) ms.
Proof.
  unfold getMessages. revert w ms w'. induction ids as [|id ids IH]; intros w ms w' E; cbn [mapMs] in E.
  { by apply ret_Ok in E as [<- _]. }
  apply bind_Ok in E as (m & w1 & E1 & E). apply bind_Ok in E as (ms' & w2 & E2 & E). apply ret_Ok in E as [<- _].
  constructor; [|by eapply IH]. apply bind_Ok in E1 as (r & w3 & _ & E1). apply bind_Ok in E1 as (d & w4 & Ed & E1).
  apply ret_Ok in Ed as [<- _]. apply lift_Ok in E1 as [E1 _]. unfold toMessageProto in E1.
  repeat (apply outcome_bind_Ok in E1 as (? & _ & E1)). by injection E1 as <-.
Qed.

Lemma adminCall_no_payload r :
  restrict = true ->
  replies (adminCall restrict protoSize srvSend notifyError r) (fun rep => Forall (fun m => Message.Data m = None) (replyMessages rep)).
Proof.
  intros Hres. destruct r; simpl adminCall;
    unfold adminCreateBroadcast, adminListActiveBroadcasts, adminDisableBroadcasts, adminGetMessageStatus, adminListClients,
      adminStreamClientIds, adminListClientContacts, adminStreamClientContacts, adminInsertMessage, adminDeletePendingMessages,
      adminGetPendingMessageCount, adminStoreFile, adminDeleteFile, adminBlacklistClient, adminFetchRecords; try by solve_replies.
  unfold adminGetPendingMessages. rewrite Hres. destruct wantData; simpl; [apply replies_fail|].
  apply replies_bind. intros cids w rep w' E. apply bind_Ok in E as (ms & w1 & E & [<- _]%ret_Ok).
  apply orFailM_Ok, onPart_Ok in E as (w2 & E & _). simpl in E. apply runInTx_Ok in E as (_ & w3 & E & _).
  apply bind_Ok in E as (raw & w4 & _ & E). apply bind_Ok in E as (mids & w5 & _ & E). by eapply getMessages_no_data.
Qed.

(** C24: what administrators ask for is checked before it reaches the datastore,
    is done whole or not at all, and keeps the datastore consistent: a request
    that is refused or fails changes no table and notifies nobody; each request
    is one that the store accepts, so that its invariant holds on; and with
    RestrictPayloadRetrieval no response contains the payload of a message. *)
Theorem admin_requests_sound r w :
  reqOK r -> storeOK (aStore (w_data w)) ->
  let '(o, w') := adminCall restrict protoSize srvSend notifyError r w in
  storeOK (aStore (w_data w')) /\
  (isOk o = false -> w_data w' = w_data w) /\
  (restrict = true -> forall rep, o = Ok rep -> Forall (fun m => Message.Data m = None) (replyMessages rep)).
Proof using HP HF.
  intros Hr Hw. destruct (adminCall_sound r Hr w Hw) as [H1 H2].
  pose proof (adminCall_no_payload r) as H3.
  destruct (adminCall restrict protoSize srvSend notifyError r w) as [o w'] eqn:E. split; [done|]. split; [done|].
  intros Hres rep ->. by apply (H3 Hres w rep w').
Qed.

(** ** InsertMessage *)

(** The metadata InsertMessage fills in. *)
Definition completes (m m' : Message.t) : Prop :=
  exists id t, m' = Message.setCreationTime (Some t) (Message.setMessageId id m) /\
    (if decide (blen (Message.MessageId m) = 0) then blen id = 32 else id = Message.MessageId m) /\
    (forall t0, Message.CreationTime m = Some t0 -> t = t0).

Lemma insertComplete_Ok m w m' w' : insertComplete (St := Db) m w = (Ok m', w') -> completes m m'.
Proof using HP.
  unfold insertComplete, completes. intros (m1 & w1 & E1 & E2)%bind_Ok.
  assert (H1 : exists id, m1 = Message.setMessageId id m /\
    if decide (blen (Message.MessageId m) = 0) then blen id = 32 else id = Message.MessageId m).
  { case_decide.
    - apply bind_Ok in E1 as (id & w2 & E1 & [<- _]%ret_Ok). eexists. split; [done|].
      apply orFailM_Ok, bind_Ok in E1 as (r & w3 & Hr & E1). apply interact_Ok in Hr as [[= Hr] _].
      destruct r as [r|]; [|by apply fail_Ok in E1]. apply randRead_length in Hr. apply lift_Ok in E1 as [E1 _].
      unfold MessageID.BytesToMessageID, blen in E1. simpl in E1. rewrite Hr in E1. simpl in E1. injection E1 as <-.
      unfold MessageID.Bytes, MessageID.IsNil. simpl. by destruct r.
    - apply ret_Ok in E1 as [<- _]. exists (Message.MessageId m). by destruct m. }
  destruct H1 as (id & -> & Hid). exists id. simpl in E2. destruct (Message.CreationTime m) as [t0|] eqn:Et.
  - apply ret_Ok in E2 as [<- _]. exists t0. split; [|split; [done|by intros t1 [= ->]]].
    unfold Message.setCreationTime, Message.setMessageId. simpl. by rewrite Et.
  - apply bind_Ok in E2 as (t & w2 & _ & [<- _]%ret_Ok). by exists t.
Qed.

(** What the service knows of the client a message is for. *)
Definition destinationOf (d : Db) (m : Message.t) (dst : ClientID.t * string * Z) : Prop :=
  match a ← Message.Destination m; Address.ClientId a with
  | None => dst.1.2 = ""%string
  | Some b => exists r, ClientID.BytesToClientID (Some b) = Ok dst.1.1 /\ clients d !! ClientID.String dst.1.1 = Some r /\
      (protoSize m <= maxMsgSize)%Z /\ dst.1.2 = fromNULLString (last_contact_streaming_to r) /\ dst.2 = last_contact_time r
  end.

Lemma insertDestination_Ok m w dst w' :
  ProtoLibOK L -> fk (aStore (w_data w)) -> insertDestination protoSize m w = (Ok dst, w') ->
  destinationOf (aStore (w_data w)) m dst.
Proof using HP.
  intros HL Hfk E. unfold insertDestination, destinationOf in *. destruct (_ ≫= _) as [b|].
  2:{ by apply ret_Ok in E as [<- _]. }
  apply bind_Ok in E as (cid & w1 & E1 & E). apply orFail_Ok in E1 as [Hcid <-].
  apply bind_Ok in E as (cls & w2 & E1 & E). apply orFailM_Ok, onPart_Ok in E1 as (w3 & E1 & ->).
  destruct cls as [|c [|? ?]]; [by apply fail_Ok in E| |by apply fail_Ok in E].
  destruct (Z.ltb_spec maxMsgSize (protoSize m)) as [|Hsz]; [by apply fail_Ok in E|]. apply ret_Ok in E as [<- _]. simpl.
  destruct (list_clients_spec [cid] (mkWorld (aStore (w_data w)) (w_step w)) HP Hfk) as [_ Hlist].
  destruct (Hlist (NoDup_singleton _) _ _ E1) as (sids & _ & Hasked & HF2).
  apply Forall2_cons_inv_r in HF2 as (sid & ? & (r & c0 & ls & Hr & Hc0 & _ & ->) & Hnil & ->).
  apply Forall2_nil_inv_r in Hnil as ->.
  assert (Hsid : sid = ClientID.String cid).
  { destruct (proj1 (Hasked sid)) as [[?|Hin%list_elem_of_singleton] _]; [by left|done|done]. }
  subst sid. exists r. split; [done|]. split; [exact Hr|]. split; [lia|].
  unfold clientOfRow in Hc0. apply outcome_bind_Ok in Hc0 as (id & _ & Hc0). cbv zeta in Hc0.
  destruct (tspbCheckValid (tspbNew _)) eqn:Hv; [done|]. injection Hc0 as <-. simpl. rewrite Hv. by rewrite tspb_roundtrip.
Qed.

(** Whether and whom InsertMessage notifies, at the time [t]. *)
Definition notified (dst : ClientID.t * string * Z) (t : Z) : list (string * ClientID.t) :=
  if negb (String.eqb dst.1.2 "") && (since t dst.2 <? notifyWithin)%Z then [(dst.1.2, dst.1.1)] else [].

Lemma afterStore_Ok (cid : ClientID.t) st lc (id : gobytes) w rep w' :
  ((if String.eqb st "" then mret tt
    else t ← now; if (since t lc <? notifyWithin)%Z then notify (St := Db) notifyError st cid ≫= fun _ => mret tt else mret tt)
    ≫= fun _ => mret (InsertReply id)) w = (Ok rep, w') ->
  rep = InsertReply id /\ aStore (w_data w') = aStore (w_data w) /\
  exists n, aNotified (w_data w') = aNotified (w_data w) ++ notified (cid, st, lc) (clock n).
Proof.
  unfold notified. cbn [fst snd]. intros (u & w1 & E & [<- <-]%ret_Ok)%bind_Ok. split; [done|].
  destruct (String.eqb st ""); cbn [negb andb].
  { apply ret_Ok in E as [_ <-]. split; [done|]. exists 0. by rewrite app_nil_r. }
  apply bind_Ok in E as (t & w2 & Ht & E). apply interact_Ok in Ht as [[= <-] ->].
  destruct (_ <? _)%Z eqn:Hs.
  - apply bind_Ok in E as (o & w3 & E & [_ <-]%ret_Ok). injection E as <- <-. split; [done|]. exists (w_step w). by rewrite Hs.
  - apply ret_Ok in E as [_ <-]. split; [done|]. exists (w_step w). by rewrite Hs, app_nil_r.
Qed.

(** InsertMessage stores a message once, completely, and lets the right
    server know: when it returns an id, that is the id of a message that is the
    one asked for with the id and creation time filled in if they were missing;
    it had no result; a message with an id that is new is now pending, one with
    an id that is known changes nothing, and no other message is affected;
    a client it is for exists and the message is within the limit its clients
    accept; and the server the client last streamed to is notified exactly when
    that contact is less than ten minutes old. *)
Theorem insert_message_spec m w rep w' :
  ProtoLibOK L -> storeOK (aStore (w_data w)) ->
  adminInsertMessage protoSize notifyError m w = (Ok rep, w') ->
  exists m' dst, rep = InsertReply (Message.MessageId m') /\ completes m m' /\ Message.Result m = None /\
    destinationOf (aStore (w_data w)) m' dst /\
    (forall id, MessageID.valid id ->
       let old := statusOf (aStore (w_data w)) (MessageID.String id) in
       let mine := bool_decide (MessageID.BytesToMessageID (Message.MessageId m') = Ok id) in
       statusOf (aStore (w_data w')) (MessageID.String id) = (if mine then mergeStatus old None else old) /\
       (mine = true -> old = Absent -> is_Some (pending_messages (aStore (w_data w')) !! MessageID.String id))) /\
    exists n, aNotified (w_data w') = aNotified (w_data w) ++ notified dst (clock n).
Proof using HP HF.
  intros HL Hok E. pose proof (adminInsertMessage_sound m w Hok) as [Hok' _].
  rewrite E in Hok'. simpl in Hok'. destruct Hok' as [Hwf' _].
  unfold adminInsertMessage in E. apply bind_Ok in E as (u & w0 & Hchk & E). apply lift_Ok in Hchk as [Hchk <-].
  assert (Hres : Message.Result m = None).
  { unfold insertCheck in Hchk. destruct (negb _); [done|]. destruct (negb _); [done|]. by destruct (Message.Result m). }
  apply bind_Ok in E as (m' & w1 & E1 & E).
  pose proof (quiet_insertComplete m w) as Hq1. rewrite E1 in Hq1. simpl in Hq1.
  apply insertComplete_Ok in E1 as Hc.
  apply bind_Ok in E as ([[cid st] lc] & w2 & E2 & E).
  pose proof (quiet_insertDestination m' w1) as Hq2. rewrite E2 in Hq2. simpl in Hq2.
  apply insertDestination_Ok in E2 as Hd; [|done|rewrite Hq1; apply Hok].
  apply bind_Ok in E as (u' & w3 & E3 & E). apply onPart_Ok in E3 as (w4 & E3 & ->). cbn [w_data w_step] in *.
  apply afterStore_Ok in E as (-> & Hst & n & Hn). simpl in Hst, Hn. rewrite Hq2, Hq1 in *.
  exists m', (cid, st, lc). split; [done|]. split; [done|]. split; [done|]. split; [done|]. split; [|by exists n].
  assert (Hres' : Message.Result m' = None) by (by destruct Hc as (id & t & -> & _)).
  intros id Hid. pose proof (StoreMessages_status [m'] "" _ _ _ id Hid E3) as Hs. simpl in Hs. rewrite Hres' in Hs.
  rewrite Hst. split; [exact Hs|]. intros Hmine Hold. rewrite Hmine, Hold in Hs. simpl in Hs.
  rewrite Hst in Hwf'. apply (wf_pending _ Hwf'). unfold statusOf in Hs.
  destruct (messages (w_data w4) !! _) as [r|]; [|done]. exists r. split; [done|].
  injection Hs as Hs. unfold toMessageResultProto in Hs. by destruct (processedTimeSeconds r).
Qed.
End Effects.

(** ** What brings the server down *)

(** CreateBroadcast without a broadcast is a nil dereference. *)
Example create_broadcast_crashes (w : World (Adm Db)) :
  exists why, fst (adminCall true (fun _ => 0%Z) (fun _ => None) (fun _ _ => None) (CreateBroadcastReq None 1) w) = Crash why.
Proof. by eexists. Qed.

(** A source client id that is not 8 bytes is not refused by InsertMessage, and
    ends the process in the datastore's conversion. *)
Example insert_source_crashes :
  let m := Message.setSource (Some (Address.Mk (Some "abc"%string) "sys")) (sampleMessage 1 ClientID.nil None) in
  exists why, fst (adminCall true (fun _ => 0%Z) (fun _ => None) (fun _ _ => None) (InsertMessageReq m)
    (mkWorld (mkAdm emptyDb []) 0)) = Crash why.
Proof. eexists. vm_compute. reflexivity. Qed.

(** *** Witnesses *)
Definition streamingContact : DbContactData.t :=
  DbContactData.Mk exampleClientID 1 2 "127.0.0.1:1" None "server1" [].

Definition sampleAdminDb : World Db :=
  runOk (runOp (OpRecordClientContact streamingContact)) (runOk (runOp (OpAddClient exampleClientID sampleClient)) (mkWorld emptyDb 0)).

Definition sampleAdmin : World (Adm Db) := mkWorld (mkAdm (w_data sampleAdminDb) []) (w_step sampleAdminDb).

Lemma sampleAdmin_OK : storeOK (aStore (w_data sampleAdmin)).
Proof.
  apply (storeOK_op (OpRecordClientContact streamingContact) I), (storeOK_op (OpAddClient exampleClientID sampleClient)).
  - by right.
  - split; [exact (wf_empty _)|]. split; [split; [exact fk_empty|exact castRefs_empty]|exact ledger_empty].
Qed.

(** A message without an id for a client that streams to server1. *)
Definition newMessage : Message.t := Message.setMessageId None (sampleMessage 1 exampleClientID None).

Definition insertRun := adminInsertMessage (fun _ => 5%Z) (fun _ _ => None) newMessage sampleAdmin.
Definition insertedID : MessageID.t := MessageID.Mk (bytesOfNat 11 32).

Lemma insert_message_spec_witness :
  exists w', insertRun = (Ok (InsertReply (MessageID.Bytes insertedID)), w') /\
    aNotified (w_data w') = [("server1"%string, exampleClientID)] /\
    is_Some (pending_messages (aStore (w_data w')) !! MessageID.String insertedID).
Proof.
  exists (snd insertRun).
  assert (E : insertRun = (Ok (InsertReply (MessageID.Bytes insertedID)), snd insertRun)).
  { rewrite (surjective_pairing insertRun) at 1. f_equal. }
  split; [exact E|]. split; [vm_compute; reflexivity|].
  destruct (insert_message_spec (fun _ => 5%Z) (fun _ _ => None) newMessage sampleAdmin _ _ TestProtoLibOK sampleAdmin_OK E)
    as (m' & dst & Hid & _ & _ & _ & Hs & _).
  injection Hid as Hid. apply (Hs insertedID (or_intror eq_refl)); [|vm_compute; reflexivity].
  rewrite <- Hid. vm_compute. reflexivity.
Defined.

Lemma admin_requests_sound_witness :
  let r := GetPendingMessagesReq [ClientID.Bytes exampleClientID] 0 0 true in
  let '(o, w') := adminCall true (fun _ => 5%Z) (fun _ => None) (fun _ _ => None) r sampleAdmin in
  o = Err (ErrText "retrieving payloads of pending messages is not permitted") /\ w_data w' = w_data sampleAdmin.
Proof.
  intros r. pose proof (admin_requests_sound true (fun _ => 5%Z) (fun _ => None) (fun _ _ => None) r sampleAdmin I sampleAdmin_OK) as H.
  destruct (adminCall true _ _ _ r sampleAdmin) as [o w'] eqn:E.
  assert (Eo : o = Err (ErrText "retrieving payloads of pending messages is not permitted")) by (by injection E as <- _).
  split; [done|]. destruct H as (_ & H & _). apply H. by rewrite Eo.
Defined.
