(* ===== verification/Frontend.v ===== *)
(** * What a request says: client certificates and file names

    src/server/https/client_certificate.go, which finds the certificate of a
    client in the TLS connection or in the headers a frontend sets, and the
    names of files in requests: the path a client asks for
    (src/client/https/https.go) and parseFilePath of
    src/server/https/file_server.go.  The parts of net/url, path, strings and
    encoding/base64 they use are defined here; encoding/pem, x509 and the hash
    are parameters. *)
From S2P Require Import Prelude Platform Ids Framing.

Abbreviation text s := (list_ascii_of_string s).

(** ** net/url *)
Module Url.

(** encodePath and encodePathSegment. *)
Inductive mode := Path | PathSegment.

Definition alnum (c : ascii) : bool :=
  let n := nat_of_ascii c in
  ((97 <=? n) && (n <=? 122) || (65 <=? n) && (n <=? 90) || (48 <=? n) && (n <=? 57))%nat.

Definition shouldEscape (m : mode) (c : ascii) : bool :=
  if alnum c then false
  else if bool_decide (c ∈ text "-_.~") then false
  else if bool_decide (c ∈ text "$&+,/:;=?@") then
    match m with
    | Path => bool_decide (c = "?"%char)
    | PathSegment => bool_decide (c ∈ text "/;,?")
    end
  else true.

Definition upperhex (n : nat) : ascii := ascii_of_nat (if n <? 10 then 48 + n else 55 + n).

Definition escapeChar (m : mode) (c : ascii) : bytes :=
  if shouldEscape m c then
    let n := nat_of_ascii c in ["%"%char; upperhex (n / 16); upperhex (n mod 16)]
  else [c].
Definition escape (m : mode) (s : bytes) : bytes := concat (escapeChar m <$> s).

Definition PathEscape : bytes -> bytes := escape PathSegment.

Fixpoint unescape (s : bytes) : outcome bytes :=
  match s with
  | [] => Ok []
  | c :: s' =>
      if decide (c = "%"%char) then
        match s' with
        | a :: b :: s'' =>
            match Hex.fromHexChar a, Hex.fromHexChar b with
            | Some x, Some y => r ← unescape s''; Ok (ascii_of_nat (16 * x + y) :: r)
            | _, _ => Err (ErrText "invalid URL escape")
            end
        | _ => Err (ErrText "invalid URL escape")
        end
      else r ← unescape s'; Ok (c :: r)
  end.
Definition PathUnescape : bytes -> outcome bytes := unescape.

Lemma fromHexChar_upperhex n : n < 16 -> Hex.fromHexChar (upperhex n) = Some n.
Proof. intros H. do 16 (destruct n as [|n]; [reflexivity|]). lia. Qed.

Lemma unescape_escape m s : unescape (escape m s) = Ok s.
Proof.
  unfold escape. induction s as [|c s IH]; [done|]. cbn [fmap list_fmap concat]. unfold escapeChar at 1.
  destruct (shouldEscape m c) eqn:Hc.
  - cbn [app unescape]. rewrite decide_True by done. pose proof (nat_ascii_bounded c) as Hb.
    rewrite !fromHexChar_upperhex; [|apply Nat.mod_upper_bound; lia|apply Nat.Div0.div_lt_upper_bound; lia].
    rewrite IH. cbn [mbind outcome_bind]. rewrite <- Nat.div_mod_eq. by rewrite ascii_nat_embedding.
  - cbn [app unescape]. rewrite decide_False; [by rewrite IH|]. intros ->. by destruct m.
Qed.

Lemma escape_inj m s s' : escape m s = escape m s' -> s = s'.
Proof. intros E. pose proof (unescape_escape m s) as H. rewrite E, unescape_escape in H. by injection H. Qed.

(** No separator is left in an escaped segment. *)
Lemma PathEscape_slash s : "/"%char ∉ PathEscape s.
Proof.
  unfold PathEscape, escape. intros (l & H1 & H2)%list_elem_of_In%in_concat.
  apply list_elem_of_In, list_elem_of_fmap in H1 as (c & -> & _). apply list_elem_of_In in H2. revert H2. unfold escapeChar.
  destruct (shouldEscape PathSegment c) eqn:Hc; [|by intros <-%list_elem_of_singleton].
  intros H2. apply elem_of_cons in H2 as [?|H2]; [done|].
  assert (Hx : forall n, n < 16 -> "/"%char <> upperhex n) by (intros n Hn; do 16 (destruct n as [|n]; [done|]); lia).
  pose proof (nat_ascii_bounded c) as Hb. apply elem_of_cons in H2 as [E|E%list_elem_of_singleton]; revert E; apply Hx.
  - apply Nat.Div0.div_lt_upper_bound. lia.
  - apply Nat.mod_upper_bound. lia.
Qed.
End Url.

(** ** Names of files *)
Module Files.

Fixpoint join (l : list bytes) : bytes :=
  match l with
  | [] => []
  | [x] => x
  | x :: l => x ++ "/"%char :: join l
  end.

(** path.Clean of a path that starts with a slash. *)
Definition cleanStep (acc : list bytes) (x : bytes) : list bytes :=
  if bool_decide (x = []) || bool_decide (x = text ".") then acc
  else if bool_decide (x = text "..") then removelast acc
  else acc ++ [x].
Definition clean (s : bytes) : bytes := "/"%char :: join (foldl cleanStep [] (splitBytes "/"%char s)).

(** path.Join, its first element starts with a slash. *)
Definition pathJoin (l : list bytes) : bytes := clean (join (List.filter (fun x => negb (bool_decide (x = []))) l)).

(** The path in the request of getFileIfModifiedFromHost, as u.String() has
    it, and what the server finds in URL.Path. *)
Definition filePath (service name : bytes) : bytes :=
  pathJoin [text "/files"; Url.PathEscape service; Url.PathEscape name].
Definition requestPath (service name : bytes) : bytes := Url.escape Url.Path (filePath service name).

Definition trimSlash (s : bytes) : bytes :=
  match s with c :: s' => if decide (c = "/"%char) then s' else s | [] => [] end.

Definition parseFilePath (pathStr : bytes) : outcome (bytes * bytes) :=
  match splitBytes "/"%char (trimSlash pathStr) with
  | [files; service; name] =>
      if decide (files = text "files") then
        service ← Url.PathUnescape service;
        name ← Url.PathUnescape name;
        Ok (service, name)
      else Err (ErrText "unable to parse files URI")
  | _ => Err (ErrText "unable to parse files URI")
  end.

(** Names that can be asked for. *)
Definition regular (s : bytes) : Prop := s <> [] /\ s <> text "." /\ s <> text "..".

Lemma cleanStep_regular acc s : regular s -> cleanStep acc (Url.PathEscape s) = acc ++ [Url.PathEscape s].
Proof.
  intros (H1 & H2 & H3). unfold cleanStep. rewrite !bool_decide_eq_false_2; [done|..]; intros E.
  - apply H3, (Url.escape_inj Url.PathSegment). exact E.
  - apply H2, (Url.escape_inj Url.PathSegment). exact E.
  - apply H1, (Url.escape_inj Url.PathSegment). exact E.
Qed.

Lemma filePath_regular service name :
  regular service -> regular name ->
  filePath service name = text "/files/" ++ Url.PathEscape service ++ "/"%char :: Url.PathEscape name.
Proof.
  intros Hs Hn. unfold filePath, pathJoin. pose proof (Url.PathEscape_slash service) as H1. pose proof (Url.PathEscape_slash name) as H2.
  assert (E1 : Url.PathEscape service <> []) by (intros E; apply (proj1 Hs), (Url.escape_inj Url.PathSegment); exact E).
  assert (E2 : Url.PathEscape name <> []) by (intros E; apply (proj1 Hn), (Url.escape_inj Url.PathSegment); exact E).
  cbn [List.filter]. rewrite !bool_decide_eq_false_2 by done. cbn [negb join]. unfold clean.
  change (text "/files" ++ "/"%char :: Url.PathEscape service ++ "/"%char :: Url.PathEscape name)
    with ([] ++ "/"%char :: (text "files" ++ "/"%char :: (Url.PathEscape service ++ "/"%char :: Url.PathEscape name))).
  rewrite splitBytes_cons by apply not_elem_of_nil. rewrite splitBytes_cons by (by vm_compute; set_solver).
  rewrite splitBytes_cons by done. rewrite splitBytes_plain by done. cbn [foldl].
  change (cleanStep (cleanStep [] []) (text "files")) with [text "files"].
  rewrite !cleanStep_regular by done. done.
Qed.

Lemma parse_requestPath service name :
  regular service -> regular name ->
  (p ← Url.unescape (requestPath service name); parseFilePath p) = Ok (service, name).
Proof.
  intros Hs Hn. unfold requestPath. rewrite Url.unescape_escape. cbn [mbind outcome_bind].
  rewrite filePath_regular by done. unfold parseFilePath.
  change (trimSlash (text "/files/" ++ Url.PathEscape service ++ "/"%char :: Url.PathEscape name))
    with (text "files" ++ "/"%char :: (Url.PathEscape service ++ "/"%char :: Url.PathEscape name)).
  rewrite splitBytes_cons by (by vm_compute; set_solver). rewrite splitBytes_cons by apply Url.PathEscape_slash.
  rewrite splitBytes_plain by apply Url.PathEscape_slash. rewrite decide_True by done.
  unfold Url.PathUnescape, Url.PathEscape. by rewrite !Url.unescape_escape.
Qed.

(** C40: a client gets the file it asks for: whatever bytes the service and the
    name of a file consist of, escaped into a path, sent, and parsed by the
    server they come out as they were, unless one of them is empty, "." or
    "..". *)
Theorem file_path_roundtrip service name :
  regular service -> regular name ->
  (p ← Url.unescape (requestPath service name); parseFilePath p) = Ok (service, name).
Proof. apply parse_requestPath. Qed.

Lemma file_path_roundtrip_witness :
  (p ← Url.unescape (requestPath (text "svc") (text "a/../b c%")); parseFilePath p) = Ok (text "svc", text "a/../b c%").
Proof. apply file_path_roundtrip; repeat split; discriminate. Defined.

(** The name ".." makes the client ask for something else. *)
Example dots_leave_files : filePath (text "..") (text "message") = text "/message".
Proof. reflexivity. Qed.
End Files.

(** ** The X-Forwarded-Client-Cert header *)
Module Xfcc.

Definition dquote : ascii := "034"%char.
Definition backslash : ascii := "\"%char.

Inductive state := key | valueStart | value | quotedValue.

(** The loop of Next from [st] on: the key, the value and the rest of the
    header; [None] for a backslash at the end. *)
Fixpoint nextFrom (st : state) (s k v : bytes) : option (bytes * bytes * bytes) :=
  match s with
  | [] => Some (k, v, [])
  | c :: s' =>
      match st with
      | key => if decide (c = "="%char) then nextFrom valueStart s' k v else nextFrom key s' (k ++ [c]) v
      | quotedValue =>
          if decide (c = dquote) then nextFrom value s' k v
          else if decide (c = backslash) then
            match s' with
            | [] => None
            | d :: s'' => nextFrom quotedValue s'' k (v ++ [d])
            end
          else nextFrom quotedValue s' k (v ++ [c])
      | _ =>
          if (match st with valueStart => true | _ => false end) && bool_decide (c = dquote) then nextFrom quotedValue s' k v
          else if bool_decide (c = ";"%char) || bool_decide (c = ","%char) then Some (k, v, s')
          else if decide (c = backslash) then
            match s' with
            | [] => None
            | d :: s'' => nextFrom value s'' k (v ++ [d])
            end
          else nextFrom value s' k (v ++ [c])
      end
  end.
Definition Next (header : bytes) : bytes * bytes * bytes :=
  match nextFrom key header [] [] with Some r => r | None => ([], [], header) end.

(** The loop of extractField; [None] when it has not ended within the fuel. *)
Fixpoint extractLoop (fuel : nat) (fieldName header : bytes) : option bytes :=
  match fuel with
  | O => None
  | S fuel =>
      let '(k, v, rest) := Next header in
      if decide (k = []) then Some []
      else if decide (k = fieldName) then Some v
      else extractLoop fuel fieldName rest
  end.
Definition extractField (fieldName header : bytes) : option bytes := extractLoop (S (length header)) fieldName header.

(** *** Headers, as a frontend writes them *)
Record pair := mkPair { pk : bytes; pv : bytes; quoted : bool; comma : bool }.

Definition escapeQuoted (v : bytes) : bytes :=
  concat ((fun c => if bool_decide (c = dquote) || bool_decide (c = backslash) then [backslash; c] else [c]) <$> v).
Definition renderPair (p : pair) : bytes :=
  pk p ++ "="%char :: (if quoted p then dquote :: escapeQuoted (pv p) ++ [dquote] else pv p).
Fixpoint render (ps : list pair) : bytes :=
  match ps with
  | [] => []
  | [p] => renderPair p
  | p :: ps => renderPair p ++ (if comma p then ","%char else ";"%char) :: render ps
  end.

(** Anything may be in quotes; without them a value has no separator. *)
Definition pairOK (p : pair) : Prop :=
  pk p <> [] /\ "="%char ∉ pk p /\
  (quoted p = false -> head (pv p) <> Some dquote /\ forall c, c ∈ pv p -> c ∉ text ";,\").

Definition firstValue (f : bytes) (ps : list pair) : bytes :=
  match List.find (fun p => bool_decide (pk p = f)) ps with Some p => pv p | None => [] end.

Lemma nextFrom_key k' s k v : "="%char ∉ k' -> nextFrom key (k' ++ "="%char :: s) k v = nextFrom valueStart s (k ++ k') v.
Proof.
  revert k. induction k' as [|c k' IH]; intros k Hk; cbn [nextFrom app]; [by rewrite decide_True, app_nil_r|].
  apply not_elem_of_cons in Hk as [Hc Hk]. rewrite decide_False by congruence. by rewrite IH, <- app_assoc.
Qed.

Lemma nextFrom_quoted v' s k v :
  nextFrom quotedValue (escapeQuoted v' ++ dquote :: s) k v = nextFrom value s k (v ++ v').
Proof.
  revert v. induction v' as [|c v' IH]; intros v; [cbn; by rewrite app_nil_r|].
  unfold escapeQuoted. cbn [fmap list_fmap concat]. fold (escapeQuoted v').
  destruct (decide (c = dquote)) as [->|H1]; [|destruct (decide (c = backslash)) as [->|H2]].
  - rewrite bool_decide_eq_true_2 by done. cbn [app orb nextFrom]. rewrite decide_False, decide_True by done.
    by rewrite IH, <- app_assoc.
  - rewrite (bool_decide_eq_true_2 (backslash = backslash)), orb_true_r by done. cbn [app nextFrom].
    rewrite decide_False, decide_True by done. by rewrite IH, <- app_assoc.
  - rewrite !bool_decide_eq_false_2 by done. cbn [app orb nextFrom]. rewrite !decide_False by done. by rewrite IH, <- app_assoc.
Qed.

Lemma nextFrom_value v' s k v :
  (forall c, c ∈ v' -> c ∉ text ";,\") -> nextFrom value (v' ++ s) k v = nextFrom value s k (v ++ v').
Proof.
  revert v. induction v' as [|c v' IH]; intros v Hv; [by rewrite app_nil_r|].
  cbn [app nextFrom andb]. assert (Hc : c ∉ text ";,\") by (apply Hv; by left).
  rewrite !bool_decide_eq_false_2 by (intros ->; apply Hc; vm_compute; set_solver). cbn [orb].
  rewrite decide_False by (intros ->; apply Hc; vm_compute; set_solver).
  rewrite IH by (intros d Hd; apply Hv; by right). by rewrite <- app_assoc.
Qed.

Lemma nextFrom_start s k v : head s <> Some dquote -> nextFrom valueStart s k v = nextFrom value s k v.
Proof. destruct s as [|c s]; [done|]. intros Hc. cbn. rewrite bool_decide_eq_false_2; [done|]. intros ->. by apply Hc. Qed.

Lemma Next_pair p s :
  pairOK p -> head s <> Some dquote ->
  nextFrom key (renderPair p ++ s) [] [] = nextFrom value s (pk p) (pv p).
Proof.
  intros (_ & Hk & Hv) Hs. unfold renderPair. rewrite <- app_assoc. cbn [app]. rewrite nextFrom_key by done.
  destruct (quoted p); cbn [app].
  - cbn [nextFrom andb]. rewrite bool_decide_eq_true_2 by done. rewrite <- app_assoc. cbn [app]. apply nextFrom_quoted.
  - destruct (Hv eq_refl) as [H1 H2]. rewrite nextFrom_start by (by destruct (pv p)). by rewrite nextFrom_value.
Qed.

Lemma nextFrom_shorter st s k v k' v' r :
  nextFrom st s k v = Some (k', v', r) -> length r <= length s /\ (s <> [] -> length r < length s).
Proof.
  enough (H : forall n st s k v, length s <= n -> nextFrom st s k v = Some (k', v', r) -> length r <= pred (length s))
    by (intros E; specialize (H _ _ _ _ _ (Nat.le_refl _) E); destruct s; simpl in *; split; try done; lia).
  clear. intros n. induction n as [|n IH]; intros st [|c s] k v Hn; cbn [nextFrom length]; simpl in Hn; try lia;
    try (intros [= _ _ <-]; simpl; lia).
  assert (Hrec : forall st k v, nextFrom st s k v = Some (k', v', r) -> length r <= length s).
  { intros st0 k0 v0 E. specialize (IH st0 s k0 v0 ltac:(lia) E). lia. }
  assert (Hrec2 : forall st k v, match s with [] => None | d :: s'' => nextFrom st s'' k (v ++ [d]) end = Some (k', v', r) ->
    length r <= length s).
  { intros st0 k0 v0 E. destruct s as [|d s]; [done|]. simpl in *. specialize (IH st0 s k0 _ ltac:(lia) E). lia. }
  cbn [pred]. destruct st; repeat case_match; intros E;
    first [exact (Hrec _ _ _ E)|exact (Hrec2 _ _ _ E)|done|injection E as _ _ <-; lia].
Qed.

Lemma extractLoop_ends fuel f h : length h < fuel -> exists v, extractLoop fuel f h = Some v.
Proof.
  revert h. induction fuel as [|fuel IH]; intros h Hf; [lia|]. cbn [extractLoop]. unfold Next.
  destruct (nextFrom key h [] []) as [[[k v] r]|] eqn:E; [|by eexists].
  case_decide; [by eexists|]. case_decide; [by eexists|]. apply IH. apply nextFrom_shorter in E as E'. destruct E' as [_ Hlt].
  destruct h as [|c h]; [by cbn in E; injection E as <- _ _|]. specialize (Hlt ltac:(done)). simpl in *. lia.
Qed.

Lemma Next_last p : pairOK p -> Next (renderPair p) = (pk p, pv p, []).
Proof. intros Hp. unfold Next. rewrite <- (app_nil_r (renderPair p)). by rewrite Next_pair. Qed.

Lemma Next_more p c s : pairOK p -> c = ","%char \/ c = ";"%char -> Next (renderPair p ++ c :: s) = (pk p, pv p, s).
Proof.
  intros Hp Hc. unfold Next. rewrite Next_pair by (done || (by destruct Hc as [-> | ->])). cbn [nextFrom andb].
  by destruct Hc as [-> | ->].
Qed.

Lemma extractLoop_first f ps fuel :
  Forall pairOK ps -> length ps < fuel -> extractLoop fuel f (render ps) = Some (firstValue f ps).
Proof.
  intros H. revert fuel. induction H as [|p ps Hp _ IH]; intros [|fuel] Hf; simpl in Hf; try lia; [done|].
  assert (E : Next (render (p :: ps)) = (pk p, pv p, render ps)).
  { destruct ps as [|p' ps]; [by apply Next_last|]. apply Next_more; [done|]. destruct (comma p); [by left|by right]. }
  cbn [extractLoop]. rewrite E, decide_False by apply Hp. unfold firstValue. cbn [List.find].
  destruct (decide (pk p = f)) as [Hf'|Hf']; [by rewrite bool_decide_eq_true_2|].
  rewrite bool_decide_eq_false_2 by done. apply IH. lia.
Qed.

Lemma render_length ps : Forall pairOK ps -> length ps <= length (render ps).
Proof.
  induction 1 as [|p ps Hp _ IH]; [done|]. assert (0 < length (renderPair p)) by (unfold renderPair; rewrite length_app; simpl; lia).
  destruct ps as [|p' ps]; [simpl; lia|]. change (render (p :: p' :: ps)) with (renderPair p ++ (if comma p then ","%char else ";"%char) :: render (p' :: ps)).
  rewrite length_app. simpl in *. lia.
Qed.

(** ExtractField returns for every header whatsoever; and of a header as
    frontends write it, it returns exactly the value of the first field of that
    name: what is inside of quotes, separators, escaped quotes and names of
    fields included, is never taken for a field. *)
Theorem extract_field_spec f h :
  (exists v, extractField f h = Some v) /\
  (forall ps, Forall pairOK ps -> h = render ps -> extractField f h = Some (firstValue f ps)).
Proof.
  split; [apply extractLoop_ends; lia|]. intros ps Hps ->. apply extractLoop_first; [done|].
  pose proof (render_length ps Hps). lia.
Qed.

Definition sampleHeader : list pair :=
  [mkPair (text "By") (text "http://frontend") false false; mkPair (text "Subject") (dquote :: text ";Cert=x,") true false;
   mkPair (text "Cert") (text "first") true true; mkPair (text "Cert") (text "second") true false].

Lemma extract_field_spec_witness : extractField (text "Cert") (render sampleHeader) = Some (text "first").
Proof.
  destruct (extract_field_spec (text "Cert") (render sampleHeader)) as [_ H]. rewrite (H sampleHeader); [reflexivity| |reflexivity].
  repeat constructor; try discriminate; try (vm_compute; set_solver); intros _; simpl;
    (split; [discriminate|]); intros c Hc; vm_compute in Hc; vm_compute; set_solver.
Defined.
End Xfcc.

(** ** encoding/base64, the standard encoding *)
Module Base64.
#[local] Arguments Nat.div : simpl never.
#[local] Arguments Nat.modulo : simpl never.

Definition pad : ascii := "="%char.
Definition digit (n : nat) : ascii :=
  ascii_of_nat (if n <? 26 then 65 + n else if n <? 52 then 71 + n else if n <? 62 then n - 4 else if n =? 62 then 43 else 47).

Fixpoint EncodeToString (s : bytes) : bytes :=
  match s with
  | [] => []
  | [a] => let a := nat_of_ascii a in [digit (a / 4); digit (a mod 4 * 16); pad; pad]
  | [a; b] => let a := nat_of_ascii a in let b := nat_of_ascii b in
              [digit (a / 4); digit (a mod 4 * 16 + b / 16); digit (b mod 16 * 4); pad]
  | a :: b :: c :: s' =>
      let a := nat_of_ascii a in let b := nat_of_ascii b in let c := nat_of_ascii c in
      digit (a / 4) :: digit (a mod 4 * 16 + b / 16) :: digit (b mod 16 * 4 + c / 64) :: digit (c mod 64) :: EncodeToString s'
  end.

(** strings.TrimRight(s, "="). *)
Fixpoint TrimRight (s : bytes) : bytes :=
  match s with
  | [] => []
  | c :: s' => match TrimRight s' with
               | [] => if decide (c = pad) then [] else [c]
               | t => c :: t
               end
  end.

Lemma digit_inj n m : n < 64 -> m < 64 -> digit n = digit m -> n = m.
Proof.
  assert (H : forallb (fun n => forallb (fun m => negb (bool_decide (digit n = digit m)) || (n =? m)) (seq 0 64)) (seq 0 64) = true)
    by (vm_compute; reflexivity).
  intros Hn Hm E. rewrite forallb_forall in H. specialize (H n (proj2 (in_seq 64 0 n) ltac:(lia))).
  rewrite forallb_forall in H. specialize (H m (proj2 (in_seq 64 0 m) ltac:(lia))).
  rewrite bool_decide_eq_true_2 in H by done. by apply Nat.eqb_eq.
Qed.

Lemma pack_inj k x y x' y' : y < k -> y' < k -> x * k + y = x' * k + y' -> x = x' /\ y = y'.
Proof. intros. apply (Nat.div_mod_unique k); lia. Qed.

Lemma byte_inj k a a' : nat_of_ascii a / k = nat_of_ascii a' / k -> nat_of_ascii a mod k = nat_of_ascii a' mod k -> a = a'.
Proof.
  intros E1 E2. rewrite <- (ascii_nat_embedding a), <- (ascii_nat_embedding a'). f_equal.
  rewrite (Nat.div_mod_eq (nat_of_ascii a) k), (Nat.div_mod_eq (nat_of_ascii a') k). congruence.
Qed.

Lemma byte_parts k j a : 0 < k -> 256 = k * j -> nat_of_ascii a / k < j /\ nat_of_ascii a mod k < k.
Proof.
  intros Hk Hj. pose proof (nat_ascii_bounded a). split; [apply Nat.Div0.div_lt_upper_bound; lia|apply Nat.mod_upper_bound; lia].
Qed.

Lemma base64_inj s s' : length s = length s' -> EncodeToString s = EncodeToString s' -> s = s'.
Proof.
  enough (H : forall n s s', length s <= n -> length s = length s' -> EncodeToString s = EncodeToString s' -> s = s')
    by (intros; by apply (H (length s))).
  clear. intros n. induction n as [|n IH]; intros [|a [|b [|c s]]] [|a' [|b' [|c' s']]] Hn Hl E; simpl in Hn, Hl; try lia; try done;
    cbn [EncodeToString] in E;
    pose proof (byte_parts 4 64 a ltac:(lia) eq_refl) as [A1 A2]; pose proof (byte_parts 4 64 a' ltac:(lia) eq_refl) as [A3 A4];
    try (pose proof (byte_parts 16 16 b ltac:(lia) eq_refl) as [B1 B2]; pose proof (byte_parts 16 16 b' ltac:(lia) eq_refl) as [B3 B4]);
    try (pose proof (byte_parts 64 4 c ltac:(lia) eq_refl) as [C1 C2]; pose proof (byte_parts 64 4 c' ltac:(lia) eq_refl) as [C3 C4]).
  - injection E as E1 E2. apply digit_inj in E1, E2; [|lia..]. f_equal. apply (byte_inj 4); lia.
  - injection E as E1 E2 E3. apply digit_inj in E1, E2, E3; [|lia..]. apply (pack_inj 16) in E2 as [E2 E4]; [|lia..].
    f_equal; [by apply (byte_inj 4)|]. f_equal. apply (byte_inj 16); lia.
  - injection E as E1 E2 E3 E4 E5. apply digit_inj in E1, E2, E3, E4; [|lia..]. apply (pack_inj 16) in E2 as [E2 E6]; [|lia..].
    apply (pack_inj 4) in E3 as [E3 E7]; [|lia..]. f_equal; [by apply (byte_inj 4)|]. f_equal; [by apply (byte_inj 16)|].
    f_equal; [by apply (byte_inj 64)|]. apply IH; [lia..|done].
Qed.

Lemma base64_length s s' : length s = length s' -> length (EncodeToString s) = length (EncodeToString s').
Proof.
  enough (H : forall n s s', length s <= n -> length s = length s' -> length (EncodeToString s) = length (EncodeToString s'))
    by (intros; by apply (H (length s))).
  clear. intros n. induction n as [|n IH]; intros [|a [|b [|c s]]] [|a' [|b' [|c' s']]] Hn Hl; simpl in Hn, Hl; try lia; try done.
  cbn [EncodeToString length]. do 4 f_equal. apply IH; lia.
Qed.

Lemma TrimRight_pad s : exists k, s = TrimRight s ++ replicate k pad.
Proof.
  induction s as [|c s [k IH]]; [by exists 0|]. cbn [TrimRight]. destruct (TrimRight s) as [|t l] eqn:E.
  - simpl in IH. case_decide as Hc; [exists (S k); simpl; congruence|]. exists k. simpl. congruence.
  - exists k. simpl. by rewrite IH at 1.
Qed.

(** Trimmed encodings tell byte strings of one length apart. *)
Lemma trimmed_inj s s' : length s = length s' -> TrimRight (EncodeToString s) = TrimRight (EncodeToString s') -> s = s'.
Proof.
  intros Hl E. apply base64_inj; [done|]. pose proof (base64_length s s' Hl) as Hn.
  destruct (TrimRight_pad (EncodeToString s)) as [k Ek], (TrimRight_pad (EncodeToString s')) as [k' Ek'].
  rewrite Ek, Ek', E in Hn |- *. rewrite !length_app, !length_replicate in Hn. f_equal. f_equal. lia.
Qed.
End Base64.

(** ** Client certificates *)
Record pemBlock := mkPemBlock { blockType : bytes; blockBytes : bytes }.

(** The oneof frontend_mode of FrontendConfig. *)
Inductive frontendMode :=
| MtlsConfig
| CleartextHeaderConfig (certHeader : bytes)
| HttpsHeaderConfig (certHeader : bytes)
| CleartextHeaderChecksumConfig (certHeader checksumHeader : bytes)
| HttpsHeaderChecksumConfig (certHeader checksumHeader : bytes)
| CleartextXfccConfig (certHeader : bytes).

Section Certificates.
Context `{P : Platform} {Cert : Type}.
Context (pemDecode : bytes -> option (pemBlock * bytes)) (ParseCertificate : bytes -> outcome Cert).

(** What is looked at of a request: Header.Get, and the certificates of the TLS
    connection, if it is one. *)
Record httpRequest := mkHttpRequest { headerGet : bytes -> bytes; peerCertificates : option (list Cert) }.

Definition getCertFromTLS (r : httpRequest) : outcome Cert :=
  match peerCertificates r with
  | None => Err (ErrText "TLS information not found")
  | Some [c] => Ok c
  | Some _ => Err (ErrText "expected 1 client cert")
  end.

Definition certificateOf (o : option (pemBlock * bytes)) : outcome Cert :=
  match o with
  | None => Err (ErrText "failed to decode PEM block")
  | Some (b, rest) =>
      if negb (bool_decide (blockType b = text "CERTIFICATE")) then Err (ErrText "PEM block is not a certificate")
      else if negb (bool_decide (rest = [])) then Err (ErrText "received more than 1 client cert")
      else ParseCertificate (blockBytes b)
  end.

Definition getCertFromHeader (hn : bytes) (r : httpRequest) : outcome Cert :=
  let headerCert := headerGet r hn in
  if bool_decide (headerCert = []) then Err (ErrText "no certificate found in header")
  else decodedCert ← Url.PathUnescape headerCert; certificateOf (pemDecode decodedCert).

Definition getCertFromXfcc (hn : bytes) (r : httpRequest) : outcome Cert :=
  let headerCert := headerGet r hn in
  if bool_decide (headerCert = []) then Err (ErrText "no certificate found in header")
  else
    let headerCert := match Xfcc.extractField (text "Cert") headerCert with
                      | Some (c :: l) => c :: l
                      | _ => headerCert
                      end in
    decodedCert ← Url.PathUnescape headerCert; certificateOf (pemDecode decodedCert).

(** The digest goes through hexadecimal and back. *)
Definition checksumOf (der : bytes) : bytes :=
  match Hex.DecodeString (Hex.EncodeToString (sha256 (string_of_list_ascii der))) with
  | Ok d => Base64.TrimRight (Base64.EncodeToString (list_ascii_of_string d))
  | _ => []
  end.

Definition calculateClientCertificateChecksum (clientCert : bytes) : bytes :=
  match Url.PathUnescape clientCert with
  | Ok clientCert =>
      match pemDecode clientCert with
      | Some (b, []) => checksumOf (blockBytes b)
      | _ => []
      end
  | _ => []
  end.

Definition verifyCertSha256Checksum (headerCert clientCertSha256Checksum : bytes) : outcome unit :=
  if bool_decide (clientCertSha256Checksum = []) then Err (ErrText "no client certificate checksum received in header")
  else if bool_decide (calculateClientCertificateChecksum headerCert = clientCertSha256Checksum) then Ok tt
  else Err (ErrText "received client certificate checksum is invalid").

Definition checkedCert (hc hk : bytes) (r : httpRequest) : outcome Cert :=
  cert ← getCertFromHeader hc r;
  _ ← verifyCertSha256Checksum (headerGet r hc) (headerGet r hk);
  Ok cert.

Definition GetClientCert (r : httpRequest) (mode : option frontendMode) : outcome Cert :=
  match mode with
  | None | Some MtlsConfig => getCertFromTLS r
  | Some (CleartextHeaderConfig h) | Some (HttpsHeaderConfig h) => getCertFromHeader h r
  | Some (CleartextHeaderChecksumConfig h k) | Some (HttpsHeaderChecksumConfig h k) => checkedCert h k r
  | Some (CleartextXfccConfig h) => getCertFromXfcc h r
  end.

Lemma checksumOf_eq der : checksumOf der = Base64.TrimRight (Base64.EncodeToString (list_ascii_of_string (sha256 (string_of_list_ascii der)))).
Proof. unfold checksumOf. by rewrite Hex.Decode_Encode. Qed.

Lemma length_list_ascii s : length (list_ascii_of_string s) = String.length s.
Proof. induction s; simpl; congruence. Qed.

(** The checksum stands for the digest. *)
Lemma checksumOf_inj {HP : PlatformOK P} d d' :
  checksumOf d = checksumOf d' -> sha256 (string_of_list_ascii d) = sha256 (string_of_list_ascii d').
Proof.
  rewrite !checksumOf_eq. intros E%Base64.trimmed_inj; [|by rewrite !length_list_ascii, !sha256_length].
  rewrite <- (string_of_list_ascii_of_string (sha256 (string_of_list_ascii d))), E. apply string_of_list_ascii_of_string.
Qed.

(** [der] is the one certificate in [h]. *)
Definition onlyCert (h der : bytes) : Prop :=
  exists t, Url.PathUnescape h = Ok t /\ pemDecode t = Some (mkPemBlock (text "CERTIFICATE") der, []).

Lemma certificateOf_Ok o c : certificateOf o = Ok c -> exists der, o = Some (mkPemBlock (text "CERTIFICATE") der, []) /\ ParseCertificate der = Ok c.
Proof.
  unfold certificateOf. destruct o as [[[ty der] rest]|]; [|done]. simpl.
  destruct (bool_decide (ty = _)) eqn:E1; [|done]. destruct (bool_decide (rest = [])) eqn:E2; [|done]. simpl.
  apply bool_decide_eq_true in E1, E2. subst. by exists der.
Qed.

Lemma getCertFromHeader_Ok h r c :
  getCertFromHeader h r = Ok c -> exists der, onlyCert (headerGet r h) der /\ ParseCertificate der = Ok c.
Proof.
  unfold getCertFromHeader. destruct (bool_decide _); [done|].
  intros (t & Ht & (der & E & Hc)%certificateOf_Ok)%outcome_bind_Ok. exists der. split; [by exists t|done].
Qed.

Lemma checkedCert_Ok h k r c :
  checkedCert h k r = Ok c ->
  exists der, onlyCert (headerGet r h) der /\ ParseCertificate der = Ok c /\ headerGet r k = checksumOf der.
Proof.
  unfold checkedCert, verifyCertSha256Checksum. intros (c' & (der & Hd & Hp)%getCertFromHeader_Ok & E)%outcome_bind_Ok.
  destruct (bool_decide (headerGet r k = [])); [done|]. destruct (bool_decide (_ = headerGet r k)) eqn:Hk; [|done].
  injection E as <-. apply bool_decide_eq_true in Hk. exists der. split; [done|]. split; [done|].
  rewrite <- Hk. unfold calculateClientCertificateChecksum. destruct Hd as (t & -> & ->). done.
Qed.

(** C39: the certificate that identifies a client is the one the configured
    frontend vouches for, and only that: the single certificate of the TLS
    connection, or the single one in the configured header; where a checksum is
    configured it was computed from the very same bytes, and no bytes with
    another digest pass it; of X-Forwarded-Client-Cert it is the one in the
    first Cert field.  And a client that puts its certificate into the header
    is identified by it. *)
Theorem client_cert_spec {HP : PlatformOK P} (r : httpRequest) (mode : option frontendMode) :
  (forall c, GetClientCert r mode = Ok c ->
     match mode with
     | None | Some MtlsConfig => peerCertificates r = Some [c]
     | Some (CleartextHeaderConfig h) | Some (HttpsHeaderConfig h) =>
         exists der, onlyCert (headerGet r h) der /\ ParseCertificate der = Ok c
     | Some (CleartextHeaderChecksumConfig h k) | Some (HttpsHeaderChecksumConfig h k) =>
         exists der, onlyCert (headerGet r h) der /\ ParseCertificate der = Ok c /\ headerGet r k = checksumOf der /\
           forall der', headerGet r k = checksumOf der' -> sha256 (string_of_list_ascii der') = sha256 (string_of_list_ascii der)
     | Some (CleartextXfccConfig h) =>
         exists v der, Xfcc.extractField (text "Cert") (headerGet r h) = Some v /\
           onlyCert (if decide (v = []) then headerGet r h else v) der /\ ParseCertificate der = Ok c
     end) /\
  (forall h der pem, mode = Some (CleartextHeaderConfig h) \/ mode = Some (HttpsHeaderConfig h) ->
     pem <> [] -> pemDecode pem = Some (mkPemBlock (text "CERTIFICATE") der, []) ->
     headerGet r h = Url.PathEscape pem -> GetClientCert r mode = ParseCertificate der).
Proof.
  split.
  - intros c. destruct mode as [[|h|h|h k|h k|h]|]; simpl.
    + unfold getCertFromTLS. destruct (peerCertificates r) as [[|c' [|? ?]]|]; try done. by intros [= ->].
    + apply getCertFromHeader_Ok.
    + apply getCertFromHeader_Ok.
    + intros (der & H1 & H2 & H3)%checkedCert_Ok. exists der. split; [done|]. split; [done|]. split; [done|].
      intros der'. rewrite H3. intros ?%checksumOf_inj. done.
    + intros (der & H1 & H2 & H3)%checkedCert_Ok. exists der. split; [done|]. split; [done|]. split; [done|].
      intros der'. rewrite H3. intros ?%checksumOf_inj. done.
    + unfold getCertFromXfcc. destruct (bool_decide _); [done|].
      intros (t & Ht & (der & E & Hc)%certificateOf_Ok)%outcome_bind_Ok.
      destruct (Xfcc.extractLoop_ends (S (length (headerGet r h))) (text "Cert") (headerGet r h) ltac:(lia)) as [v Hv].
      exists v, der. split; [exact Hv|]. split; [|done]. exists t. split; [|done].
      unfold Xfcc.extractField in Ht. rewrite Hv in Ht. by destruct v.
    + unfold getCertFromTLS. destruct (peerCertificates r) as [[|c' [|? ?]]|]; try done. by intros [= ->].
  - intros h der pem Hm Hne Hp Hh.
    assert (Hg : getCertFromHeader h r = ParseCertificate der).
    { unfold getCertFromHeader. rewrite Hh, bool_decide_eq_false_2.
      - unfold Url.PathUnescape, Url.PathEscape. rewrite Url.unescape_escape. simpl. by rewrite Hp.
      - intros E. by apply Hne, (Url.escape_inj Url.PathSegment). }
    by destruct Hm as [-> | ->].
Qed.
End Certificates.

(** An element without a certificate is passed over: what is taken is not from
    the first element then. *)
Example xfcc_skips_elements :
  Xfcc.extractField (text "Cert") (text "By=frontend,By=other;Cert=theirs") = Some (text "theirs").
Proof. reflexivity. Qed.

(** PEM, without armour. *)
Definition testPem (s : bytes) : option (pemBlock * bytes) := Some (mkPemBlock (text "CERTIFICATE") s, []).

Lemma client_cert_spec_witness :
  let r := mkHttpRequest (fun h => if bool_decide (h = text "C") then Url.PathEscape (text "a cert") else checksumOf (text "a cert")) None in
  GetClientCert testPem Ok r (Some (HttpsHeaderChecksumConfig (text "C") (text "K"))) = Ok (text "a cert") /\
  exists der, checksumOf (text "a cert") = checksumOf der /\
    forall der', checksumOf (text "a cert") = checksumOf der' -> sha256 (string_of_list_ascii der') = sha256 (string_of_list_ascii der).
Proof.
  intros r. assert (E : GetClientCert testPem Ok r (Some (HttpsHeaderChecksumConfig (text "C") (text "K"))) = Ok (text "a cert"))
    by (vm_compute; reflexivity).
  split; [exact E|].
  destruct (client_cert_spec testPem Ok r (Some (HttpsHeaderChecksumConfig (text "C") (text "K")))) as [H _].
  destruct (H _ E) as (der & _ & _ & H3 & H4). exists der. exact (conj H3 H4).
Defined.
