(* ===== verification/HttpServer.v ===== *)
(** * The HTTPS communicator of the server

    src/server/https/https.go, message_server.go, file_server.go and
    compression.go: from a request to its response, around the handling of
    contacts of Comms and the certificates and paths of Frontend; and the start
    and the end of the communicator.  net/http and zlib are parameters, as far
    as they are not the fields of the request.  A panic of a handler ends its
    request; what is deferred runs. *)
From S2P Require Import Prelude Platform Ids Proto Db Sqlite SqliteMessages SqliteClients Cache.
From S2P Require Import Notifications Broadcasts Server SystemService Services Comms Framing Frontend.

(** ** Requests and responses *)
Definition StatusOK : Z := 200.
Definition StatusBadRequest : Z := 400.
Definition StatusUnauthorized : Z := 401.
Definition StatusNotFound : Z := 404.
Definition StatusUnsupportedMediaType : Z := 415.
Definition StatusInternalServerError : Z := 500.
Definition StatusServiceUnavailable : Z := 503.

(** The status and the body. *)
Abbreviation httpResponse := (Z * bytes)%type.

Record pollRequest {HCert : Type} := mkPoll {
  Method : string;
  Path : bytes;
  (** -1 when it is not known. *)
  ContentLength : Z;
  Body : bytes;
  ContentEncoding : string;
  RemoteAddr : string;
  fromFrontend : httpRequest (Cert := HCert);
  fleetspeakLabels : list string;
  (** The client is gone before the response is written. *)
  gone : bool;
}.
Arguments pollRequest : clear implicits.

Definition setBody {HCert} (b : bytes) (r : pollRequest HCert) : pollRequest HCert :=
  mkPoll HCert (Method r) (Path r) (ContentLength r) b "" (RemoteAddr r) (fromFrontend r) (fleetspeakLabels r) (gone r).

(** stats.PollInfo, as far as it is modelled. *)
Record pollInfo := mkPollInfo { piStatus : Z; piID : ClientID.t }.

(** getBuffer: neither make nor bytes.Buffer.Grow takes a negative size. *)
Definition getBuffer (size maxSize : Z) : outcome unit :=
  if (maxSize <? size)%Z then if (size <? 0)%Z then Crash "makeslice: cap out of range" else Ok tt
  else if (size <? 0)%Z then Crash "bytes.Buffer.Grow: negative count" else Ok tt.

Section HttpServer.
Context `{P : Platform} `{L : ProtoLib} `{AL : AnyLib} `{SL : ServiceLib} `{CL : CommsLib}.
Context {St : Type} `{SS : Store St}.
(** x509, pem, zlib and protobuf; zlib.NewReader and what it yields. *)
Context {HCert : Type} (pemDecode : bytes -> option (pemBlock * bytes)) (ParseCertificate : bytes -> outcome HCert).
Context (certKey : HCert -> option PublicKey) (zlibReader : bytes -> outcome bytes).
Context (unmarshalWrapped : bytes -> outcome (WrappedContactData.t Signature.t)).
Context (marshalContactData : ContactData.t -> outcome bytes).
(** netip.ParseAddrPort succeeds; Authorizer.Allow1, and Allow2 for file requests. *)
Context (validAddr : string -> bool) (allow1 : string -> bool) (allow2File : string -> ClientID.t -> list string -> bool).
(** Params. *)
Context (FrontendConfig : option frontendMode) (FileServerAuthorization : bool) (MaxReusableBufferSize : Z).
(** The stores of files configured for single services. *)
Context (fileStores : string -> option (string -> string -> M (World (Srv St)) (string * Z))).

Abbreviation Request := (pollRequest HCert).
Abbreviation Wrapped := (WrappedContactData.t Signature.t).

(** The server, and of the communicator: [running], the count of [pending] and
    what was reported to ClientPoll. *)
Record Front := mkFront { fSrv : Srv St; running : bool; fPending : Z; fPolls : list pollInfo }.

Abbreviation Http A := (M (World Front) A).

Definition onSrv {A} (m : M (World (Srv St)) A) : Http A :=
  onPart fSrv (fun s d => mkFront s (running d) (fPending d) (fPolls d)) m.
Definition setFront (f : Front -> Front) : Http unit := fun w => (Ok tt, mkWorld (f (w_data w)) (w_step w)).

(** ** Startup and shutdown of handlers *)
Definition startProcessing : Http bool :=
  r ← gets (fun w : World Front => running (w_data w));
  (if (r : bool) then setFront (fun d => mkFront (fSrv d) (running d) (fPending d + 1) (fPolls d)) else mret tt) ≫= fun _ => mret r.
Definition stopProcessing : Http unit := setFront (fun d => mkFront (fSrv d) (running d) (fPending d - 1) (fPolls d)).
(** Communicator.Start and Stop; Stop returns when [fPending] is 0. *)
Definition startFront : Http unit := setFront (fun d => mkFront (fSrv d) true (fPending d) (fPolls d)).
Definition stopFront : Http unit := setFront (fun d => mkFront (fSrv d) false (fPending d) (fPolls d)).

Definition ClientPoll (pi : pollInfo) : Http unit :=
  setFront (fun d => mkFront (fSrv d) (running d) (fPending d) (fPolls d ++ [pi])).

(** ** POST /message *)

(** The checks of the request up to InitializeConnection: the client's id as
    far as it is known, and the key and the contact data or the response. *)
Definition readPoll (req : Request) : ClientID.t * outcome (string + PublicKey * Wrapped) :=
  if negb (String.eqb (Method req) "POST") then (ClientID.nil, Ok (inl "not supported"%string))
  else if (MaxContactSize <? ContentLength req)%Z then (ClientID.nil, Ok (inl "content length too large"%string))
  else match GetClientCert pemDecode ParseCertificate (fromFrontend req) FrontendConfig with
       | Crash why => (ClientID.nil, Crash why)
       | Err _ => (ClientID.nil, Ok (inl "certificate"%string))
       | Ok cert =>
           match certKey cert with
           | None => (ClientID.nil, Ok (inl "public key not present in client cert"%string))
           | Some key =>
               match ClientID.MakeClientID marshalKey key with
               | Crash why => (ClientID.nil, Crash why)
               | Err _ => (ClientID.nil, Ok (inl "unable to create client id from public key"%string))
               | Ok id =>
                   (id, _ ← getBuffer (ContentLength req) MaxReusableBufferSize;
                        (* http.MaxBytesReader *)
                        if (ContentLength req <=? 0)%Z && (MaxContactSize + 1 <? blenZ (Body req))%Z then
                          Ok (inl "error reading body"%string)
                        else
                          Ok (match readWrappedContactData unmarshalWrapped (ContentLength req) (Body req) with
                              | inr _ => inl "error reading or parsing body"%string
                              | inl (wcd, _) => inr (key, wcd)
                              end))
               end
           end
       end.

(** From the contact to the response; the second status is the one reported. *)
Definition answerPoll (req : Request) (key : PublicKey) (wcd : Wrapped) : Http (httpResponse * Z) :=
  r ← try (onSrv (InitializeConnection (RemoteAddr req) key wcd false));
  match r with
  | inr e =>
      let st := if decide (e = ErrNotAuthorized) then StatusServiceUnavailable else StatusInternalServerError in
      mret (st, [], st)
  | inl (_, toSend, _) =>
      match marshalContactData toSend with
      | Ok b => mret (StatusOK, b, if gone req then StatusBadRequest else StatusOK)
      | Err _ => mret (StatusInternalServerError, [], StatusInternalServerError)
      | Crash why => crash why
      end
  end.

(** messageServer.ServeHTTP; StatusTeapot is reported after a panic. *)
Definition serveMessage (req : Request) : Http httpResponse :=
  started ← startProcessing;
  if negb started then
    ClientPoll (mkPollInfo StatusInternalServerError ClientID.nil) ≫= fun _ => mret (StatusInternalServerError, [])
  else
    let '(id, o) := readPoll req in
    fun w =>
      let '(r, w1) := (match o with
                       | Crash why => crash why
                       | Err e => fail e
                       | Ok (inl _) => mret (StatusBadRequest, [], StatusBadRequest)
                       | Ok (inr (key, wcd)) => answerPoll req key wcd
                       end) w in
      let status := match r with Ok (_, st) => st | _ => 418%Z end in
      let w2 := snd ((ClientPoll (mkPollInfo status id) ≫= fun _ => stopProcessing) w1) in
      (fst <$> r, w2).

(** CompressionHandler.ServeHTTP around a handler. *)
Definition decompress (h : Request -> Http httpResponse) (req : Request) : Http httpResponse :=
  if String.eqb (ContentEncoding req) "" then h req
  else if String.eqb (ContentEncoding req) "deflate" then
    match zlibReader (Body req) with
    | Ok body => h (setBody body req)
    | Err _ => mret (StatusBadRequest, [])
    | Crash why => crash why
    end
  else mret (StatusUnsupportedMediaType, []).

(** ** GET /files/ *)
Definition extractClientID (req : Request) : outcome ClientID.t :=
  cert ← GetClientCert pemDecode ParseCertificate (fromFrontend req) FrontendConfig;
  match certKey cert with
  | None => Err (ErrText "no public key")
  | Some key => ClientID.MakeClientID marshalKey key
  end.

(** An error that is kept for later. *)
Definition guarded {A} (o : outcome A) : outcome (option A) :=
  match o with Ok a => Ok (Some a) | Err _ => Ok None | Crash why => Crash why end.

Definition authorizeFileRequest (req : Request) (id : ClientID.t) : bool :=
  validAddr (RemoteAddr req) && allow1 (RemoteAddr req) && allow2File (RemoteAddr req) id (fleetspeakLabels req).

(** The end of fileServer.ServeHTTP; http.ServeContent sends the data. *)
Definition sendFile (req : Request) : Http httpResponse :=
  match Files.parseFilePath (Path req) with
  | Ok (service, name) =>
      r ← try (onSrv (ReadServiceFile fileStores (string_of_list_ascii service) (string_of_list_ascii name)));
      match r with
      | inl (data, _) => mret (StatusOK, list_ascii_of_string data)
      | inr e => mret (if stIsNotFound e then StatusNotFound else StatusInternalServerError, [])
      end
  | Err _ => mret (StatusBadRequest, [])
  | Crash why => crash why
  end.

(** fileServer.ServeHTTP. *)
Definition serveFile (req : Request) : Http httpResponse :=
  client ← lift (guarded (extractClientID req));
  if FileServerAuthorization && negb (match client with Some id => authorizeFileRequest req id | None => false end) then
    mret (StatusUnauthorized, [])
  else sendFile req.

(** The mux of NewCommunicator, but for the streams. *)
Definition serve (req : Request) : Http httpResponse :=
  if bool_decide (Path req = text "/message") then decompress serveMessage req
  else if bool_decide (take 7 (Path req) = text "/files/") then serveFile req
  else mret (StatusNotFound, []).

(** *** What is accepted *)
Definition acceptedPoll (req : Request) (id : ClientID.t) (key : PublicKey) (wcd : Wrapped) : Prop :=
  Method req = "POST"%string /\ (0 <= ContentLength req <= MaxContactSize)%Z /\
  (exists cert, GetClientCert pemDecode ParseCertificate (fromFrontend req) FrontendConfig = Ok cert /\ certKey cert = Some key) /\
  ClientID.MakeClientID marshalKey key = Ok id /\
  (if decide (ContentLength req = 0%Z) then (blenZ (Body req) <= MaxContactSize + 1)%Z /\ unmarshalWrapped (Body req) = Ok wcd
   else (ContentLength req <= blenZ (Body req))%Z /\ unmarshalWrapped (take (Z.to_nat (ContentLength req)) (Body req)) = Ok wcd).

Lemma readPoll_accepted req id key wcd :
  readPoll req = (id, Ok (inr (key, wcd))) <-> acceptedPoll req id key wcd.
Proof using Type.
  clear fileStores allow2File allow1 validAddr SS St.
  unfold readPoll, acceptedPoll. destruct (String.eqb_spec (Method req) "POST") as [HM|HM]; cbn [negb]; [|naive_solver].
  destruct (Z.ltb_spec MaxContactSize (ContentLength req)) as [HL|HL]; [split; [done|intros (_ & ? & _); lia]|].
  destruct (GetClientCert _ _ _ _) as [cert| |] eqn:Hc; [|naive_solver..].
  destruct (certKey cert) as [key'|] eqn:Hk; [|naive_solver].
  destruct (ClientID.MakeClientID marshalKey key') as [id'| |] eqn:Hid;
    [|split; [done|intros (_ & _ & (? & [= <-] & ?) & ? & _); congruence]..].
  assert (Hbuf : getBuffer (ContentLength req) MaxReusableBufferSize = Ok tt <-> (0 <= ContentLength req)%Z).
  { unfold getBuffer. destruct (Z.ltb_spec MaxReusableBufferSize (ContentLength req)), (Z.ltb_spec (ContentLength req) 0);
      split; try done; lia. }
  destruct (decide (0 <= ContentLength req)%Z) as [Hpos|Hneg].
  2:{ split; [|intros (_ & ? & _); lia]. destruct (getBuffer _ _) as [[]| |]; [|done..]. exfalso. by apply Hneg, Hbuf. }
  rewrite (proj2 Hbuf Hpos). cbn [mbind outcome_bind]. unfold readWrappedContactData, readFull. fold (blenZ (Body req)).
  destruct (decide (ContentLength req = 0%Z)) as [->|Hnz]; cbn [Z.leb Z.ltb Z.compare andb].
  - destruct (Z.ltb_spec (MaxContactSize + 1) (blenZ (Body req))) as [HB|HB].
    + split; [done|]. intros (_ & _ & _ & _ & ? & _). lia.
    + destruct (unmarshalWrapped (Body req)) as [wcd'| |]; (split; [try done; intros [= <- <- <-]; split_and!; by eauto with lia|]);
        intros (_ & _ & (? & [= <-] & ?) & ? & _ & ?); congruence.
  - rewrite (proj2 (Z.leb_gt (ContentLength req) 0)), (proj2 (Z.ltb_lt 0 (ContentLength req))) by lia. cbn [andb].
    destruct (Z.ltb_spec (blenZ (Body req)) (ContentLength req)) as [HB|HB].
    + split; [done|]. intros (_ & _ & _ & _ & ? & _). lia.
    + destruct (unmarshalWrapped (take _ (Body req))) as [wcd'| |]; (split; [try done; intros [= <- <- <-]; split_and!; by eauto with lia|]);
        intros (_ & _ & (? & [= <-] & ?) & ? & _ & ?); congruence.
Qed.

Lemma readPoll_decides req e : snd (readPoll req) <> Err e.
Proof using Type.
  unfold readPoll, getBuffer. by repeat (first [done | case_match]; cbn).
Qed.

Lemma onSrv_run {A} (m : M (World (Srv St)) A) (w : World Front) :
  onSrv m w = let '(r, w') := m (mkWorld (fSrv (w_data w)) (w_step w)) in
              (r, mkWorld (mkFront (w_data w') (running (w_data w)) (fPending (w_data w)) (fPolls (w_data w))) (w_step w')).
Proof. reflexivity. Qed.

(** *** The contact behind a poll *)

(** What a poll does to the server and answers when it is accepted. *)
Definition contactOf (req : Request) (key : PublicKey) (wcd : Wrapped) (s : World (Srv St)) :
    outcome httpResponse * World (Srv St) :=
  let '(r, s') := InitializeConnection (RemoteAddr req) key wcd false s in
  (match r with
   | Ok (_, toSend, _) =>
       match marshalContactData toSend with
       | Ok b => Ok (StatusOK, b)
       | Err _ => Ok (StatusInternalServerError, [])
       | Crash why => Crash why
       end
   | Err e => Ok (if decide (e = ErrNotAuthorized) then StatusServiceUnavailable else StatusInternalServerError, [])
   | Crash why => Crash why
   end, s').

Lemma answerPoll_contact req key wcd (w : World Front) :
  let '(r, w') := answerPoll req key wcd w in
  fst <$> r = fst (contactOf req key wcd (mkWorld (fSrv (w_data w)) (w_step w))) /\
  w' = snd (onSrv (fun s => (Ok tt, snd (contactOf req key wcd s))) w).
Proof.
  unfold answerPoll, contactOf, try, mbind, M_bind, onSrv, onPart.
  destruct (InitializeConnection _ _ _ _ _) as [[[[info toSend] more]|e|why] [s n]]; cbn; [|by case_decide|done].
  by destruct (marshalContactData toSend) as [b| |].
Qed.

(** C23: the server behind the communicator sees the polls that are accepted and
    no others.  A poll is accepted if it is a POST of at most 20 MiB, its
    certificate has a key that gives a client id, and its body is contact data;
    its client is then the one of this key.  What InitializeConnection does and
    says is the response: 200 with the data to send, 503 if the authorizer
    refuses, 500 otherwise.  Any other poll leaves the server as it was and
    gets 400, or panics.  After Stop none is accepted.  And every poll, however it ends, is reported
    once and is no longer pending. *)
Theorem message_server_spec req (w : World Front) :
  let '(r, w') := serveMessage req w in
  let s := mkWorld (fSrv (w_data w)) (w_step w) in
  let s' := mkWorld (fSrv (w_data w')) (w_step w') in
  running (w_data w') = running (w_data w) /\ fPending (w_data w') = fPending (w_data w) /\
  (exists pi, fPolls (w_data w') = fPolls (w_data w) ++ [pi]) /\
  (running (w_data w) = false -> r = Ok (StatusInternalServerError, []) /\ s' = s) /\
  (running (w_data w) = true ->
     (forall id key wcd, acceptedPoll req id key wcd ->
        (r, s') = contactOf req key wcd s /\ (piID <$> last (fPolls (w_data w'))) = Some id) /\
     ((forall id key wcd, ~ acceptedPoll req id key wcd) ->
        s' = s /\ (r = Ok (StatusBadRequest, []) \/ exists why, r = Crash why))).
Proof.
  destruct w as [[sv [] pd polls] n]; unfold serveMessage, startProcessing, mbind, M_bind, gets; cbn [running w_data].
  2:{ cbn. do 3 (split; [by eauto|]). split; [done|by intros]. }
  cbn [setFront mret M_ret fst snd negb w_data w_step fSrv running fPending fPolls].
  destruct (readPoll req) as [id o] eqn:Er.
  assert (Hacc : forall i k c, acceptedPoll req i k c -> id = i /\ o = Ok (inr (k, c))).
  { intros i k c H%readPoll_accepted. rewrite Er in H. by injection H as -> ->. }
  assert (Hno : forall e, o = Err e -> False).
  { intros e ->. by apply (readPoll_decides req e); rewrite Er. }
  destruct o as [[e|[key wcd]]|e|why].
  - cbn. split; [done|]. split; [lia|]. split; [by eauto|]. split; [done|]. intros _. split.
    + intros i k c H%Hacc. by destruct H.
    + by auto.
  - assert (Ha : acceptedPoll req id key wcd) by by apply readPoll_accepted.
    set (w1 := mkWorld (mkFront sv true (pd + 1) polls) n).
    pose proof (answerPoll_contact req key wcd w1) as Hc. destruct (answerPoll req key wcd w1) as [r w2].
    destruct Hc as [Hr ->]. subst w1. cbn in Hr |- *. rewrite Hr.
    destruct (contactOf req key wcd (mkWorld sv n)) as [r0 [s1 n1]] eqn:Ec. cbn.
    split; [done|]. split; [lia|]. split; [by eauto|]. split; [done|]. intros _. split.
    + intros i k c H%Hacc. destruct H as [-> [= -> ->]]. by rewrite last_snoc, Ec.
    + intros H. by apply H in Ha.
  - by destruct (Hno e).
  - cbn. split; [done|]. split; [lia|]. split; [by eauto|]. split; [done|]. intros _. split.
    + intros i k c H%Hacc. by destruct H.
    + by eauto.
Qed.

(** *** Files *)

(** The answer to a request for a file that ReadFile has read, or not. *)
Definition fileResponse (f : outcome (string * Z)) : outcome httpResponse :=
  match f with
  | Ok (data, _) => Ok (StatusOK, list_ascii_of_string data)
  | Err e => Ok (if stIsNotFound e then StatusNotFound else StatusInternalServerError, [])
  | Crash why => Crash why
  end.

Lemma sendFile_named service name req (w : World Front) :
  Files.regular service -> Files.regular name -> Url.unescape (Files.requestPath service name) = Ok (Path req) ->
  sendFile req w =
    let '(f, w') := onSrv (ReadServiceFile fileStores (string_of_list_ascii service) (string_of_list_ascii name)) w in
    (fileResponse f, w').
Proof using Type.
  intros Hs Hn E. pose proof (Files.parse_requestPath service name Hs Hn) as H. rewrite E in H. cbn in H.
  unfold sendFile. rewrite H. unfold try, mbind, M_bind. by destruct (onSrv _ w) as [[[data t]|e|why] w'].
Qed.

Lemma sendFile_status req (w : World Front) r w' : sendFile req w = (Ok r, w') -> fst r <> StatusUnauthorized.
Proof using Type.
  unfold sendFile. destruct (Files.parseFilePath _) as [[service name]| |]; [|by intros [= <- <-]|done].
  unfold try, mbind, M_bind. destruct (onSrv _ w) as [[[data t]|e|why] w1]; [by intros [= <- <-]| |done].
  intros [= <- <-]. by destruct (stIsNotFound e).
Qed.

(** What GET /files/ gives away.  A client that asks for the file it wants
    gets what the server's ReadFile has under this service and name, if
    authorization of files is off or its address and its certificate are
    allowed, and a file that is not there is answered 404.  With authorization of files, whatever is
    answered other than 401 is answered to a client with the key of its
    certificate, which both Allow1 and Allow2 have accepted, and a request that gets 401 has not looked
    at the server. *)
Theorem file_server_spec req (w : World Front) :
  let '(r, w') := serveFile req w in
  (FileServerAuthorization = true -> (exists v, r = Ok v /\ fst v <> StatusUnauthorized) ->
     exists id, extractClientID req = Ok id /\ authorizeFileRequest req id = true) /\
  (r = Ok (StatusUnauthorized, []) -> w' = w) /\
  (forall service name, Files.regular service -> Files.regular name ->
     Url.unescape (Files.requestPath service name) = Ok (Path req) ->
     (forall why, extractClientID req <> Crash why) ->
     (FileServerAuthorization = true -> exists id, extractClientID req = Ok id /\ authorizeFileRequest req id = true) ->
     let '(f, s') := ReadServiceFile fileStores (string_of_list_ascii service) (string_of_list_ascii name)
                       (mkWorld (fSrv (w_data w)) (w_step w)) in
     r = fileResponse f /\
     w' = mkWorld (mkFront (w_data s') (running (w_data w)) (fPending (w_data w)) (fPolls (w_data w))) (w_step s')).
Proof.
  assert (Hsend : forall service name, Files.regular service -> Files.regular name ->
     Url.unescape (Files.requestPath service name) = Ok (Path req) -> forall r w', sendFile req w = (r, w') ->
     let '(f, s') := ReadServiceFile fileStores (string_of_list_ascii service) (string_of_list_ascii name)
                       (mkWorld (fSrv (w_data w)) (w_step w)) in
     r = fileResponse f /\
     w' = mkWorld (mkFront (w_data s') (running (w_data w)) (fPending (w_data w)) (fPolls (w_data w))) (w_step s')).
  { intros service name Hs Hn E r w'. rewrite (sendFile_named service name req w Hs Hn E), onSrv_run.
    destruct (ReadServiceFile _ _ _ _) as [f s']. by intros [= <- <-]. }
  destruct (serveFile req w) as [r w'] eqn:E. revert E. unfold serveFile, lift, mbind, M_bind, guarded.
  destruct (extractClientID req) as [id|e|why] eqn:Eid; cbn [fst snd negb].
  3:{ intros [= <- <-]. split; [by intros _ (? & ? & _)|]. split; [done|]. intros ? ? _ _ _ Hc. by destruct (Hc why). }
  - destruct (FileServerAuthorization && negb (authorizeFileRequest req id)) eqn:Ha; intros E.
    + injection E as <- <-. apply andb_true_iff in Ha as [-> Ha%negb_true_iff].
      split; [by intros _ (? & [= <-] & ?)|]. split; [done|]. intros ? ? _ _ _ _ Hc.
      destruct (Hc eq_refl) as (? & [= <-] & ?). congruence.
    + split. { intros Hf _. exists id. split; [done|]. rewrite Hf in Ha. by apply negb_false_iff in Ha. }
      split. { intros ->. by destruct (sendFile_status _ _ _ _ E). }
      intros. by eapply Hsend.
  - destruct FileServerAuthorization; cbn [andb]; intros E.
    + injection E as <- <-. split; [by intros _ (? & [= <-] & ?)|]. split; [done|].
      intros ? ? _ _ _ _ Hc. by destruct (Hc eq_refl) as (? & ? & _).
    + split; [done|]. split. { intros ->. by destruct (sendFile_status _ _ _ _ E). }
      intros. by eapply Hsend.
Qed.
End HttpServer.

(** ** Witnesses *)

(** A certificate is its key; "z" is the compressed form of a contact. *)
Definition testBody (b : bytes) : outcome (WrappedContactData.t Signature.t) :=
  if bool_decide (b = text "whole contact") then Ok sampleContact else Err (ErrText "cannot parse").
Definition testZlib (b : bytes) : outcome bytes :=
  if bool_decide (b = text "z") then Ok (text "whole contact") else Err (ErrText "zlib: invalid header").

Definition testKey (c : bytes) : option (PublicKey (CommsLib := TestCommsLib)) := Some (string_of_list_ascii c).

Definition testFront : World (Front (St := Db)) :=
  mkWorld (mkFront (w_data serviceSrv) true 0 []) (w_step serviceSrv).

Definition testRequest (path : bytes) (method : string) (len : Z) (body : bytes) (enc : string) : pollRequest bytes :=
  mkPoll bytes method path len body enc "addr" (mkHttpRequest (fun _ => []) (Some [text "key"])) [] false.

Definition testPoll (req : pollRequest bytes) :=
  serveMessage (SL := TestServiceLib) testPem Ok testKey testBody
    (fun _ => Ok (text "reply")) None 100 req testFront.
Definition testServe (req : pollRequest bytes) :=
  serve (SL := TestServiceLib) testPem Ok testKey testZlib testBody
    (fun _ => Ok (text "reply")) (fun _ => true) (fun _ => true) (fun _ _ _ => true) None true 100
    (fun svc => if String.eqb svc "svc" then Some (fun _ name => mret (name, 0%Z)) else None) req testFront.

Definition goodPoll : pollRequest bytes := testRequest (text "/message") "POST" 13 (text "whole contact") "".

(** Compressed by the client, a poll has the length of what is compressed; of
    what it decompresses to only so much is read. *)
Example deflated_poll_cut :
  fst (testServe goodPoll) = Ok (StatusOK, text "reply") /\
  fst (testServe (testRequest (text "/message") "POST" 1 (text "z") "deflate")) = Ok (StatusBadRequest, []).
Proof. split; vm_compute; reflexivity. Qed.

(** A poll sent in chunks makes the handler panic. *)
Example chunked_poll_panics :
  fst (testServe (testRequest (text "/message") "POST" (-1) (text "whole contact") "")) =
    Crash "bytes.Buffer.Grow: negative count".
Proof. vm_compute. reflexivity. Qed.

(** A POST with the length of its body is accepted. *)
Lemma goodPoll_accepted :
  exists id, acceptedPoll testPem Ok testKey testBody None goodPoll id "key"%string sampleContact.
Proof.
  eexists. apply (readPoll_accepted testPem Ok testKey testBody None 100).
  vm_compute. reflexivity.
Qed.

Lemma message_server_spec_witness :
  running (w_data testFront) = true /\ fst (testPoll goodPoll) = Ok (StatusOK, text "reply") /\
  exists s', contactOf (SL := TestServiceLib) (fun _ => Ok (text "reply")) goodPoll "key"%string sampleContact
    (mkWorld (fSrv (w_data testFront)) (w_step testFront)) = (Ok (StatusOK, text "reply"), s').
Proof.
  assert (E : fst (testPoll goodPoll) = Ok (StatusOK, text "reply")) by (vm_compute; reflexivity).
  split; [reflexivity|]. split; [exact E|]. revert E.
  pose proof (message_server_spec (SL := TestServiceLib) testPem Ok testKey testBody
    (fun _ => Ok (text "reply")) None 100 goodPoll testFront) as H.
  unfold testPoll. revert H. destruct (serveMessage _ _ _ _ _ _ _ _ _) as [r w']. intros (_ & _ & _ & _ & H) E.
  cbn [fst] in E. rewrite E in H.
  destruct (H eq_refl) as [Ha _]. destruct goodPoll_accepted as [id Hg].
  destruct (Ha id _ _ Hg) as [Hr _]. eexists. symmetry. exact Hr.
Defined.

Definition fileRequest : pollRequest bytes := testRequest (Files.filePath (text "svc") (text "a b")) "GET" 0 [] "".
Definition testFiles (svc : string) : option (string -> string -> M (World (Srv Db)) (string * Z)) :=
  if String.eqb svc "svc" then Some (fun _ name => mret (name, 0%Z)) else None.
Definition testFile (allow : bool) :=
  serveFile testPem Ok testKey (fun _ => true) (fun _ => true) (fun _ _ _ => allow) None true testFiles fileRequest testFront.

Lemma file_server_spec_witness :
  fst (testFile false) = Ok (StatusUnauthorized, []) /\ snd (testFile false) = testFront /\
  fst (testFile true) = Ok (StatusOK, text "a b").
Proof.
  pose proof (file_server_spec testPem Ok testKey (fun _ => true) (fun _ => true) (fun _ _ _ => false) None true testFiles
    fileRequest testFront) as H0.
  pose proof (file_server_spec testPem Ok testKey (fun _ => true) (fun _ => true) (fun _ _ _ => true) None true testFiles
    fileRequest testFront) as H1.
  unfold testFile. assert (E : fst (testFile false) = Ok (StatusUnauthorized, [])) by (vm_compute; reflexivity).
  unfold testFile in E. split; [exact E|]. revert E H0 H1.
  destruct (serveFile _ _ _ _ _ (fun _ _ _ => false) _ _ _ _ _) as [r0 w0], (serveFile _ _ _ _ _ _ _ _ _ _ _) as [r1 w1].
  intros E (_ & H0 & _) (_ & _ & H1). split; [exact (H0 E)|].
  refine (proj1 (H1 (text "svc") (text "a b") _ _ _ _ _)).
  - by repeat split.
  - by repeat split.
  - vm_compute. reflexivity.
  - intros why. vm_compute. discriminate.
  - intros _. eexists. split; vm_compute; reflexivity.
Defined.
